(* ===== verification/_CoqProject ===== *)
-Q . S2P
Prelude.v
Arena.v
LinkedList.v
Lists.v
Vectors.v
Bitmap.v
AssocMap.v
Relation.v
Cache.v
CacheData.v
EOLCache.v
FieldParser.v
PositionalMap.v
LineReader.v
TupleReader.v
CacheSelect.v
StrategyMatrix.v
MatrixSound.v
ScanStrategy.v
StrategySound.v
IteratorSound.v
ExecInfo.v
DArray.v
QueryDescriptor.v
Config.v
ScanCommand.v
Executor.v
ExecutorSound.v
PlanSound.v
StrategySwitch.v
NewCaches.v
ScanOperator.v
ScanOperatorSound.v
Rescan.v
CopySetup.v
FirstStrategy.v
FirstQuery.v
CommandQuery.v
PlanTree.v
PlanTreeSound.v
QueryDriver.v
QueryRun.v
