(* ===== verification/Prelude.v ===== *)
(** * The noDB operator of PostgresRAW

    PostgresRAW answers SQL queries on raw CSV and text files without loading
    them. Its own code is the noDB operator under
    [src/postgresql-9.6.5/src/backend/noDB/] (headers under
    [src/postgresql-9.6.5/src/include/noDB/]), built into PostgreSQL. While it
    answers a query, the operator remembers what it learns of the file: the
    length of every line (the end-of-line cache), the positions of fields in
    the lines (the positional map) and the values of fields (the data caches).
    Later queries read the file with the recorded lengths, find fields from the
    recorded positions and take values from the caches.

    This library models the operator from the C sources, as functions into
    [result] that make a bad memory access, the use of an unwritten cell, the
    overflow of an [int], a failed [Assert] and an [ereport] visible, and proves what
    makes it correct.

    ** The parts and their files

    - [Prelude.v]: outcomes of C code, machine integers, heap blocks, loops.
    - [Arena.v]: [auxiliary/NoDBArena.c]. [arena_state] holds the blocks of the
      four arenas and the shared free list; [NoDBArenaAlloc], [NoDBArenaFree],
      [NoDBArenaDestroy], [NoDBArenaDestroyAll]. [malloc] is the class
      [Malloc], which may return [NULL], with its laws [MallocOk]; sizes and
      pointers are 64 bits wide.
    - [LinkedList.v], [Lists.v]: [auxiliary/NoDBList.c] and the list functions
      of [NoDBCol.c] and [NoDBRow.c], on a heap of nodes.
    - [Vectors.v]: the vectors of [NoDBCol.c] and [NoDBRow.c], [NoDBSort.c].
    - [Bitmap.v]: [auxiliary/NoDBBitmap.c].
    - [AssocMap.v]: [auxiliary/NoDBMap.c].
    - [Relation.v]: [auxiliary/NoDBRelation.c], and [auxiliary/NoDBTimer.c] in
      the module [Timer].
    - [Cache.v], [CacheData.v]: [NoDBCache.c]. [NoDBCache_t] has the fields of
      the C structure; [Cache.v] has its bookkeeping, [CacheData.v] the reads
      and writes of its buffer, byte by byte.
    - [EOLCache.v]: [NoDBEOLCacheWorld.c], the end-of-line caches by relation.
    - [FieldParser.v]: [NoDBCopyReadAttributesCSV] and
      [NoDBCopyReadAttributesText] of [NoDBExecutor.c].
    - [PositionalMap.v]: [parseLineForward], [parseLineBackward],
      [NoDBGetNextTupleViaPM], [NoDBGetValues], [NoDBGetValuesWithPM].
    - [LineReader.v]: [NoDBCopyGetData], [NoDBCopyLoadRawBuf],
      [NoDBTryReFillRawBuf] and [NoDBCopyReadLineText].
    - [TupleReader.v]: [NoDBGetNextTupleFromFile],
      [NoDBGetNextTupleFromFileWithEOL] and what they call.
    - [CacheSelect.v]: the global list of caches of [NoDBScanStrategy.c] (the
      record [world]) and the queries on it: [GetCachesWithRow],
      [GetBestCacheHit], [GetInterestingRows] and the others.
    - [StrategyMatrix.v], [MatrixSound.v]: [BuildMatrix], which decides for every
      range of rows and every column where its value and position come from, and
      what holds of its cells.
    - [ScanStrategy.v], [StrategySound.v], [IteratorSound.v]: [FillRow],
      [BuildStrategy] and the iterator over strategies, what a strategy promises
      ([serves]) and that the iterator keeps the promise for every row.
    - [ExecInfo.v]: [NoDBExecInfo.c], the relations in use with the write locks
      of their columns, and the policies that hand the locks out.
    - [DArray.v], [QueryDescriptor.v]: [snooping/auxiliary/d_array.c] and
      [snooping/queryDescriptor.c], what the parser collects about a query, and
      the columns of a relation computed from it. The argument [gives] says which
      sizes [realloc] gives.
    - [Config.v], [ScanCommand.v]: the loader of [snoop.conf] in
      [snooping/auxiliary/common.c], and the COPY command that
      [NoDBScanOperatorInit] prints from it.
    - [Executor.v], [ExecutorSound.v], [PlanSound.v], [StrategySwitch.v]: the four
      variants of [NoDBExecPlan] in [NoDBExecutor.c], the branch of [ExecScan] for
      raw files, and the change of strategy during a scan
      ([NoDBUpdateStrategy], [NoDBFinalizeStrategy], the seek) of [NoDBScan.c].
      [cstate] has the members of [NoDBScanStateData_t] that executing a plan
      changes, [exec_env] those it does not.
    - [ScanOperator.v], [ScanOperatorSound.v], [Rescan.v]: [NoDBScanStateInit],
      [NoDBScanStateReInit] and the end of a scan in [ExecutePlan2]. [process] has
      the globals of the server process.
    - [CopySetup.v]: [GetScanState], [CopyGetAttnums] and [GetScanExecStatusStmt],
      the options, rights, columns and file of the COPY command; their result is
      the [copy_state] of [NoDBScanStateInit].
    - [NewCaches.v], [FirstStrategy.v], [FirstQuery.v], [CommandQuery.v]: the first
      query on a relation from its command to its last tuple, proved from the parts
      above; [NewCaches.v] has what [BuildMatrix] leaves of a relation without
      caches.
    - [PlanTree.v], [PlanTreeSound.v]: the walks over the plan of a query in
      [NoDBScan.c], [traversePlanTree] for its scans and [ExplainPreScanNode] for
      the relations in use. [Plan] and [PlanState] are the trees of PostgreSQL; a
      [List] of PostgreSQL has an address, since [lcons] changes it in place.
    - [QueryDriver.v], [QueryRun.v]: [ExecutePlan2] of [execMain.c], which runs a
      query from its plan to its last tuple, and the proofs for a plan that is one
      scan. [query_state] has the process, the caches and the member [scanOper] of
      the scan nodes.

    ** How they interact

    The parser calls the query descriptor for every column, alias and limit of a
    query. When the query starts, [ExecutePlan2] walks over the plan, and every scan
    of a relation that the configuration lists gets a scan operator: its set-up asks
    the query descriptor for the columns to read, the registry of relations for the columns it may write, the
    strategy iterator for a first strategy and the registry of end-of-line caches
    for the line lengths. [ExecScan] then executes the plan, one tuple per call:
    values come from the data caches, from the line through the positional map or
    from the line alone. The line comes from the tuple reader, which uses the line
    reader and writes the length of the line into the end-of-line cache (a cache
    with one column of short integers). Values and positions that the strategy asks
    for are written to caches, which become visible when the strategy ends. At the
    end of its rows the scan takes the next strategy of the iterator and moves the
    file to the row. A rescan starts the operator again; when the plan has no
    more tuples the scans are ended, which returns the locks. Caches, lists, maps and
    bitmaps take their memory from the arenas.

    ** What the theorems show

    - Reading: the buffered line scanner terminates and agrees with an
      unbuffered one, whatever the buffer size and the file; a first scan
      returns the NL-terminated lines of the file (a last line without its newline
      is dropped) and records their lengths; a scan with the recorded lengths
      returns the same lines; the field readers invert the printing of CSV and text
      lines and on every line return or report an error, without writing outside
      their buffer; on lines of plain fields the positions found from a known field
      agree with those of a full parse.
    - Caches: the columns of a cache own disjoint byte ranges; adding a column
      takes the first partition that fits; reads and writes of cells refine a
      finite map; growing the cache and adding columns keep the contents.
    - Strategies: the matrix is built without undefined behaviour, its hits were in
      the caches and its additions have their columns there (and buffers, in the last
      range); the strategies of the iterator follow one another, serve every
      requested column and reach every row of the file.
    - Execution, inside one strategy, for columns passed by value and CSV lines of
      plain fields (not empty, without delimiter, quote, backslash or zero byte): a
      scan returns the values of the file and leaves in the caches what the strategy
      asked it to write; a scan of the caches returns the same values; with a filter
      whose columns do not come through the positional map exactly the rows that pass
      are returned. The end of a strategy makes visible exactly the rows that were
      written. The seek before a strategy finds the line of the current row exactly
      when the file has no header and nothing was loaded ahead
      ([seek_to_row_correct], [seek_to_row_lands]).
    - Composition, for a first scan in that scope of fewer than 10,000 lines (the
      rows of one strategy) of a file without a header: a query
      returns the lines of the file with the values of its columns, from the walk
      over its plan to the end of the scan, and leaves the locks free and the columns
      cached ([select_query_correct]); with a filter it returns the lines that pass
      ([first_query_filter_correct]). For all plans the walk returns the scans of
      the nodes it comes to ([traversePlanTree_correct]) and the relations in use
      ([ExplainPreScanNode_correct]); a column is written by at most one running
      scan as long as a scan restarts or ends only while no other one writes a column
      it reads, and that condition is exact ([write_columns_exclusive]); the set-up
      of a scan succeeds for every query without a whole row in its filter; a rescan
      of a first scan after its end reads all rows again.
    - Query and configuration: the columns of a relation are those that the
      query mentions, and they are split into those of the filter and the rest; a
      printed configuration is loaded back, its lines are split into words by a
      loop that ends, the command of a scan fits its buffer, and its options are
      accepted exactly under the conditions that [scan_options_correct] lists.
    - Containers and memory: an allocation is aligned and disjoint from the others,
      or stops because [malloc] gives nothing; lists, maps, bitmaps, vectors, growing
      arrays (as long as their sizes are [int]s and [realloc] gives them) and the
      registries refine their abstract counterparts.
    - Defects of the code, as theorems, lemmas or examples about the function: the
      double free of the end-of-line registry, the out-of-bounds reads of the binary
      search and of the header line, the wrong deletion of cache columns, the
      truncated comparison of rows, the lost quotes and null markers of the
      positional map, the last line without a newline that is dropped
      ([first_scan_reads_lines]), the carriage return that a second scan keeps, the
      misplaced seek ([seek_to_row_lands]), the columns that a restarted scan takes
      from another one ([restart_takes_columns]), the rescan before the end of the
      file that goes on instead of starting again ([rescan_before_end_continues]),
      the scans below a merge append that the walk does not come to
      ([traversePlanTree_correct]), the queries that a read-only transaction refuses
      ([read_only_refused]), the overruns of the configuration loader and of
      [mergeAttributeVectors]; and, as runs on small inputs, caches without a buffer
      ([BuildMatrix_no_buffer]), the line that converting filter columns overwrites
      ([filter_overwrites_line]) and the query that starts again at every fetch
      ([fetch_starts_again]).

    ** Conventions and bounds

    Bytes are integers from 0 to 255; characters of the configuration are [ascii];
    machine integers are [Z] with [wrap] and [swrap] where the C code can overflow,
    and [c_int] where the overflow of a signed [int] is undefined.
    A heap block is a list of optional cells, [None] being a cell that was never
    written. Loops that are not structural take fuel, and the theorems give the
    fuel that is enough: one turn per free block and two more for the allocator, two
    turns per byte and four more for the line scanner (a turn takes a byte, or asks
    for data; a load brings bytes and then the end of the file), one byte per turn
    for the field scanners, one line per turn for the scans, for
    [NoDBComputeBytesToRead] and for [ExecScan], one character per turn for [parse]
    and one line per turn for [readfile].

    ** What is not modelled

    The parser that reads the COPY command ([GetQueryCopyStmt]), the access checks
    and the catalogs of PostgreSQL are inputs of the set-up; what it prepares for
    inserting tuples (triggers, indices, defaults) is left out. [ExecProcNode] is an
    interface of the driver, and the timers ([NoDBBreakDown]) are off.
    [NoDBExecutorWithTimer.c], which repeats [NoDBExecutor.c] with timers, and
    [NoDBStatistics.c] are not built; the latter depends on the catalogs of
    PostgreSQL. The older
    [snooping/] executor is no longer called. Where [snoop.conf] is found, failing
    reads of files, the release of single blocks by the destroy functions and debug
    printing are left out. Allocations other than those of the arenas and of the
    growing arrays are taken to succeed. A running scan holds the caches and the end-of-line cache of
    its relation by value; the driver loads them before each step of a scan and
    stores them afterwards, so that interleaved scans share them. The input functions
    of types, [ExecQual], [ExecProject], [deparse_expression], [ExecEvalExpr], the
    conversion between encodings, [stat] and [malloc] are parameters. *)
From Stdlib Require Export ZArith Lia.
From stdpp Require Export strings functions sorting base gmap list.

#[global] Open Scope Z_scope.

(** * Outcomes of C code

    A C function that may touch memory out of bounds, read an indeterminate
    value, overflow an [int], fail an [Assert] or raise an error with [ereport] is a
    function into [result]. *)
Inductive err : Type :=
  | OutOfBounds
  | Indeterminate
  | NullDeref
  | AssertFail
  | DoubleFree
  | OutOfFuel
  | IntOverflow
  | EReport (msg : string).

Inductive result (A : Type) : Type :=
  | Ok (a : A)
  | Fail (e : err).
Arguments Ok {A} _.
Arguments Fail {A} _.

#[global] Instance err_eq_dec : EqDecision err.
Proof. solve_decision. Defined.

#[global] Instance result_ret : MRet result := fun A a => Ok a.
#[global] Instance result_bind : MBind result := fun A B f m =>
  match m with Ok a => f a | Fail e => Fail e end.

(** [Assert(b)]: a build with assertions stops, and the code relies on [b]. *)
Definition c_assert (b : bool) : result unit := if b then Ok tt else Fail AssertFail.

Lemma bind_Ok {A B} (m : result A) (f : A -> result B) b :
  m ≫= f = Ok b <-> exists a, m = Ok a /\ f a = Ok b.
Proof. destruct m as [a|e]; split; naive_solver. Qed.

Lemma bind_of_Ok {A B} (m : result A) (f : A -> result B) a :
  m = Ok a -> m ≫= f = f a.
Proof. by intros ->. Qed.

Lemma bind_assoc {A B C} (m : result A) (f : A -> result B) (g : B -> result C) :
  (m ≫= f) ≫= g = m ≫= (fun a => f a ≫= g).
Proof. by destruct m. Qed.

(** Decompose a successful run into the successful runs of its parts. *)
Ltac inv_ok :=
  repeat match goal with
  | H : _ ≫= _ = Ok _ |- _ => apply bind_Ok in H; destruct H as (? & ? & ?)
  | H : mret _ = Ok _ |- _ => injection H as H
  | H : Ok _ = Ok _ |- _ => injection H as H
  | H : Fail _ = Ok _ |- _ => discriminate H
  end; simplify_eq/=.

(** Run a computation forwards with a known outcome of its first step. *)
Ltac step_ok H := erewrite bind_of_Ok by (apply H; eauto).

(** * Machine integers *)
Definition wrap (w z : Z) : Z := z mod 2 ^ w.
Definition swrap (w z : Z) : Z := (z + 2 ^ (w - 1)) mod 2 ^ w - 2 ^ (w - 1).
(** [unsigned short], [unsigned int], [unsigned long], [short], [int]. *)
Definition u16 : Z -> Z := wrap 16.
Definition u32 : Z -> Z := wrap 32.
Definition u64 : Z -> Z := wrap 64.
Definition i16 : Z -> Z := swrap 16.
Definition i32 : Z -> Z := swrap 32.

(** An [int] expression that must not overflow: C leaves the result undefined. *)
Definition INT_MAX : Z := 2 ^ 31 - 1.
Definition c_int (z : Z) : result Z := if (- 2 ^ 31 <=? z) && (z <=? INT_MAX) then Ok z else Fail IntOverflow.

Lemma c_int_Ok z : - 2 ^ 31 <= z <= INT_MAX -> c_int z = Ok z.
Proof. intros [H1 H2]. unfold c_int. by rewrite (proj2 (Z.leb_le _ _) H1), (proj2 (Z.leb_le _ _) H2). Qed.

Lemma c_int_overflow z : INT_MAX < z -> c_int z = Fail IntOverflow.
Proof. intros H. unfold c_int. by rewrite (proj2 (Z.leb_gt z INT_MAX) H), andb_false_r. Qed.

Lemma wrap_small w z : 0 <= z < 2 ^ w -> wrap w z = z.
Proof. apply Z.mod_small. Qed.

Lemma wrap_range w z : 0 <= w -> 0 <= wrap w z < 2 ^ w.
Proof. intros. apply Z.mod_pos_bound. by apply Z.pow_pos_nonneg. Qed.

Lemma swrap_small w z : 1 <= w -> - 2 ^ (w - 1) <= z < 2 ^ (w - 1) -> swrap w z = z.
Proof.
  intros Hw Hz. unfold swrap.
  assert (2 ^ w = 2 * 2 ^ (w - 1)) by (rewrite <- Z.pow_succ_r by lia; f_equal; lia).
  rewrite Z.mod_small; lia.
Qed.

Lemma swrap_range w z : 1 <= w -> - 2 ^ (w - 1) <= swrap w z < 2 ^ (w - 1).
Proof.
  intros Hw. unfold swrap.
  assert (2 ^ w = 2 * 2 ^ (w - 1)) by (rewrite <- Z.pow_succ_r by lia; f_equal; lia).
  pose proof (Z.mod_pos_bound (z + 2 ^ (w - 1)) (2 ^ w)) as H'.
  assert (0 < 2 ^ (w - 1)) by (apply Z.pow_pos_nonneg; lia). lia.
Qed.

Lemma wrap_add_l w a b : wrap w (wrap w a + b) = wrap w (a + b).
Proof. unfold wrap. by rewrite Zplus_mod_idemp_l. Qed.

Lemma wrap_sub_l w a b : wrap w (wrap w a - b) = wrap w (a - b).
Proof. unfold wrap. by rewrite Zminus_mod_idemp_l. Qed.

Lemma wrap_sub_r w a b : wrap w (a - wrap w b) = wrap w (a - b).
Proof. unfold wrap. by rewrite Zminus_mod_idemp_r. Qed.

Lemma wrap_swrap w z : 1 <= w -> wrap w (swrap w z) = wrap w z.
Proof.
  intros Hw. unfold wrap, swrap. rewrite Zminus_mod_idemp_l. f_equal. lia.
Qed.

Lemma swrap_wrap w z : swrap w (wrap w z) = swrap w z.
Proof. unfold wrap, swrap. by rewrite Zplus_mod_idemp_l. Qed.

#[global] Opaque wrap swrap.
Create HintDb nodb discriminated.
#[export] Hint Resolve wrap_range swrap_range : nodb.

(** * Arrays

    A heap block of [n] cells is a list of [n] options; [None] is a cell that
    was allocated and never written. [NULL] is the block with no cell, so that
    every access through it fails. *)
Abbreviation arr A := (list (option A)).

Definition NULL {A} : arr A := [].
Definition arr_alloc {A} (n : Z) : arr A := replicate (Z.to_nat n) None.
Definition arr_realloc {A} (a : arr A) (n : Z) : arr A :=
  take (Z.to_nat n) a ++ replicate (Z.to_nat n - length a)%nat None.

Definition arr_get {A} (a : arr A) (i : Z) : result A :=
  if 0 <=? i then
    match a !! Z.to_nat i with
    | Some (Some x) => Ok x
    | Some None => Fail Indeterminate
    | None => Fail OutOfBounds
    end
  else Fail OutOfBounds.

Definition arr_set {A} (a : arr A) (i : Z) (x : A) : result (arr A) :=
  if (0 <=? i) && (i <? Z.of_nat (length a))
  then Ok (<[Z.to_nat i := Some x]> a)
  else Fail OutOfBounds.

(** The block [a] holds exactly the initialised values [l]. *)
Definition holds {A} (a : arr A) (l : list A) : Prop := a = Some <$> l.

Lemma arr_get_lookup {A} (a : arr A) i x :
  arr_get a i = Ok x <-> 0 <= i /\ a !! Z.to_nat i = Some (Some x).
Proof.
  unfold arr_get. destruct (Z.leb_spec 0 i); [|split; [done|lia]].
  destruct (a !! Z.to_nat i) as [[y|]|]; naive_solver.
Qed.

Lemma arr_get_holds {A} (l : list A) i x :
  0 <= i -> l !! Z.to_nat i = Some x -> arr_get (Some <$> l) i = Ok x.
Proof. intros Hi Hl. apply arr_get_lookup. by rewrite list_lookup_fmap, Hl. Qed.

Lemma arr_get_holds_inv {A} (l : list A) i x :
  arr_get (Some <$> l) i = Ok x -> 0 <= i /\ l !! Z.to_nat i = Some x.
Proof.
  intros [Hi Hl]%arr_get_lookup. rewrite list_lookup_fmap in Hl.
  destruct (l !! Z.to_nat i) eqn:E; naive_solver.
Qed.

Lemma arr_get_oob {A} (a : arr A) i :
  i < 0 \/ Z.of_nat (length a) <= i -> arr_get a i = Fail OutOfBounds.
Proof.
  intros H. unfold arr_get. destruct (Z.leb_spec 0 i); [|done].
  by rewrite lookup_ge_None_2 by lia.
Qed.

Lemma arr_set_Ok {A} (a : arr A) i x :
  0 <= i < Z.of_nat (length a) -> arr_set a i x = Ok (<[Z.to_nat i := Some x]> a).
Proof.
  intros H. unfold arr_set.
  by rewrite (proj2 (Z.leb_le _ _)), (proj2 (Z.ltb_lt _ _)) by lia.
Qed.

Lemma arr_set_inv {A} (a a' : arr A) i x :
  arr_set a i x = Ok a' ->
  0 <= i < Z.of_nat (length a) /\ a' = <[Z.to_nat i := Some x]> a.
Proof.
  unfold arr_set. destruct (Z.leb_spec 0 i), (Z.ltb_spec i (Z.of_nat (length a)));
    simpl; intros; simplify_eq; split; try done; lia.
Qed.

Lemma arr_set_length {A} (a : arr A) i v a' : arr_set a i v = Ok a' -> length a' = length a.
Proof. intros [_ ->]%arr_set_inv. apply length_insert. Qed.

Lemma arr_set_oob {A} (a : arr A) i x :
  i < 0 \/ Z.of_nat (length a) <= i -> arr_set a i x = Fail OutOfBounds.
Proof.
  intros H. unfold arr_set.
  destruct (Z.leb_spec 0 i), (Z.ltb_spec i (Z.of_nat (length a))); simpl; try done; lia.
Qed.

Lemma arr_get_set_eq {A} (a a' : arr A) i x :
  arr_set a i x = Ok a' -> arr_get a' i = Ok x.
Proof.
  intros [Hi ->]%arr_set_inv. apply arr_get_lookup. split; [lia|].
  apply list_lookup_insert_eq. lia.
Qed.

Lemma arr_get_set_ne {A} (a a' : arr A) i j x :
  arr_set a i x = Ok a' -> i <> j -> arr_get a' j = arr_get a j.
Proof.
  intros [Hi ->]%arr_set_inv Hne. unfold arr_get.
  destruct (Z.leb_spec 0 j); [|done]. by rewrite list_lookup_insert_ne by lia.
Qed.

Lemma arr_get_length {A} (a : arr A) i x :
  arr_get a i = Ok x -> 0 <= i < Z.of_nat (length a).
Proof. intros [Hi Hl]%arr_get_lookup. apply lookup_lt_Some in Hl. lia. Qed.

Lemma length_arr_alloc {A} n : 0 <= n -> Z.of_nat (length (@arr_alloc A n)) = n.
Proof. intros. unfold arr_alloc. rewrite length_replicate. lia. Qed.

Lemma length_arr_realloc {A} (a : arr A) n :
  0 <= n -> Z.of_nat (length (arr_realloc a n)) = n.
Proof. intros. unfold arr_realloc. rewrite length_app, length_take, length_replicate. lia. Qed.

Lemma arr_realloc_grow {A} (a : arr A) n :
  Z.of_nat (length a) <= n ->
  arr_realloc a n = a ++ replicate (Z.to_nat n - length a)%nat None.
Proof. intros. unfold arr_realloc. by rewrite take_ge by lia. Qed.

(** * Loops

    [for_range lo hi body s] is [for (i = lo; i < hi; i++) body]; [search_range]
    is the same loop with a [return] in its body and the value returned after
    it. *)
Fixpoint for_n {S} (n : nat) (i : Z) (body : Z -> S -> result S) (s : S) : result S :=
  match n with
  | O => Ok s
  | Datatypes.S n' => s' ← body i s; for_n n' (i + 1) body s'
  end.

Definition for_range {S} (lo hi : Z) (body : Z -> S -> result S) (s : S) : result S :=
  for_n (Z.to_nat (hi - lo)) lo body s.

Fixpoint search_n {R} (n : nat) (i : Z) (body : Z -> result (option R)) (d : R) : result R :=
  match n with
  | O => Ok d
  | Datatypes.S n' =>
      o ← body i;
      match o with Some r => Ok r | None => search_n n' (i + 1) body d end
  end.

Definition search_range {R} (lo hi : Z) (body : Z -> result (option R)) (d : R) : result R :=
  search_n (Z.to_nat (hi - lo)) lo body d.

(** Total-correctness rule: an invariant that each iteration re-establishes. *)
Lemma for_range_inv {S} (I : Z -> S -> Prop) lo hi body (s : S) :
  lo <= hi -> I lo s ->
  (forall i s, lo <= i < hi -> I i s -> exists s', body i s = Ok s' /\ I (i + 1) s') ->
  exists s', for_range lo hi body s = Ok s' /\ I hi s'.
Proof.
  intros Hle HI Hbody. unfold for_range.
  remember (Z.to_nat (hi - lo)) as n eqn:Hn.
  revert lo s Hle HI Hn Hbody. induction n as [|n IH]; intros lo s Hle HI Hn Hbody; simpl.
  - exists s. assert (lo = hi) as -> by lia. done.
  - destruct (Hbody lo s) as (s1 & E & HI1); [lia|done|]. rewrite E. simpl.
    apply (IH (lo + 1)); [lia|done|lia|]. intros i s' Hi. apply Hbody. lia.
Qed.

(** The same with a natural index. *)
Lemma for_nat_inv {S} (I : nat -> S -> Prop) n body (s : S) :
  I O s ->
  (forall i s, (i < n)%nat -> I i s -> exists s', body (Z.of_nat i) s = Ok s' /\ I (Datatypes.S i) s') ->
  exists s', for_range 0 (Z.of_nat n) body s = Ok s' /\ I n s'.
Proof.
  intros H0 Hb. destruct (for_range_inv (fun z s => I (Z.to_nat z) s) 0 (Z.of_nat n) body s) as (s' & E & HI).
  - lia.
  - done.
  - intros z s1 Hz HI. destruct (Hb (Z.to_nat z) s1) as (s2 & E & H2); [lia|done|].
    rewrite Z2Nat.id in E by lia. exists s2. split; [done|]. by replace (Z.to_nat (z + 1)) with (Datatypes.S (Z.to_nat z)) by lia.
  - exists s'. split; [done|]. by rewrite Nat2Z.id in HI.
Qed.

Lemma for_range_ext {S} lo hi (f g : Z -> S -> result S) s :
  (forall i s, f i s = g i s) -> for_range lo hi f s = for_range lo hi g s.
Proof.
  intros H. unfold for_range. generalize (Z.to_nat (hi - lo)). intros n. revert lo s.
  induction n as [|n IH]; intros lo s; simpl; [done|]. rewrite H. by destruct (g lo s); simpl.
Qed.

Lemma for_range_ext_in {S} lo hi (f g : Z -> S -> result S) s :
  (forall i s, lo <= i < hi -> f i s = g i s) -> for_range lo hi f s = for_range lo hi g s.
Proof.
  intros H. unfold for_range. remember (Z.to_nat (hi - lo)) as n eqn:Hn.
  revert lo s Hn H. induction n as [|n IH]; intros lo s Hn H; simpl; [done|].
  rewrite H by lia. destruct (g lo s); simpl; [|done]. apply IH; [lia|]. intros i t Hi. apply H. lia.
Qed.

Lemma for_range_empty {S} lo hi body (s : S) : hi <= lo -> for_range lo hi body s = Ok s.
Proof. intros. unfold for_range. by replace (Z.to_nat (hi - lo)) with O by lia. Qed.

(** Partial-correctness rule, for loops whose run is known to succeed. *)
Lemma for_range_ind {S} (I : Z -> S -> Prop) lo hi body (s s' : S) :
  lo <= hi -> I lo s ->
  (forall i s s', lo <= i < hi -> I i s -> body i s = Ok s' -> I (i + 1) s') ->
  for_range lo hi body s = Ok s' -> I hi s'.
Proof.
  intros Hle HI Hbody. unfold for_range.
  remember (Z.to_nat (hi - lo)) as n eqn:Hn.
  revert lo s Hle HI Hn Hbody. induction n as [|n IH]; intros lo s Hle HI Hn Hbody; simpl.
  - assert (lo = hi) as -> by lia. intros. by simplify_eq.
  - intros (s1 & E & Hr)%bind_Ok. apply (IH (lo + 1) s1); [lia| |lia| |done].
    + eapply Hbody; [|done..]. lia.
    + intros i t t' Hi. apply Hbody. lia.
Qed.

Lemma search_range_ext {R} lo hi (f g : Z -> result (option R)) d :
  (forall i, lo <= i < hi -> f i = g i) -> search_range lo hi f d = search_range lo hi g d.
Proof.
  intros H. unfold search_range. remember (Z.to_nat (hi - lo)) as n eqn:Hn.
  revert lo Hn H. induction n as [|n IH]; intros lo Hn H; simpl; [done|].
  rewrite H by lia. destruct (g lo) as [[r|]|e]; simpl; [done| |done].
  apply IH; [lia|]. intros i Hi. apply H. lia.
Qed.

(** A search loop over a pure test returns the first hit. *)
Lemma search_range_pure {R} lo hi (body : Z -> result (option R)) (g : Z -> option R) d :
  (forall i, lo <= i < hi -> body i = Ok (g i)) ->
  (exists i r, lo <= i < hi /\ g i = Some r /\ (forall j, lo <= j < i -> g j = None) /\
     search_range lo hi body d = Ok r) \/
  ((forall i, lo <= i < hi -> g i = None) /\ search_range lo hi body d = Ok d).
Proof.
  intros Hg. unfold search_range. remember (Z.to_nat (hi - lo)) as n eqn:Hn.
  revert lo Hn Hg. induction n as [|n IH]; intros lo Hn Hg; simpl.
  - right. split; [intros; lia|done].
  - rewrite Hg by lia. simpl. destruct (g lo) as [r|] eqn:E.
    + left. exists lo, r. split_and!; try done; intros; lia.
    + destruct (IH (lo + 1)) as [(i & r & ? & ? & Hj & ?)|(Hn' & ?)];
        [lia|intros; apply Hg; lia| |].
      * left. exists i, r. split_and!; try done; try lia.
        intros j Hj'. destruct (decide (j = lo)) as [->|]; [done|]. apply Hj. lia.
      * right. split; [|done]. intros j Hj'.
        destruct (decide (j = lo)) as [->|]; [done|]. apply Hn'. lia.
Qed.

(** Filling a segment of a block with one value. *)
Definition arr_fill {A} (lo hi : Z) (x : A) (a : arr A) : result (arr A) :=
  for_range lo hi (fun i a => arr_set a i x) a.

Lemma lookup_fill_step {A} (a : arr A) i x j :
  0 <= i < Z.of_nat (length a) ->
  <[Z.to_nat i := Some x]> a !! j = if decide (Z.of_nat j = i) then Some (Some x) else a !! j.
Proof.
  intros Hi. case_decide.
  - subst. rewrite Nat2Z.id. apply list_lookup_insert_eq. lia.
  - apply list_lookup_insert_ne. lia.
Qed.

Lemma arr_fill_spec {A} lo hi (x : A) (a : arr A) :
  0 <= lo <= hi -> hi <= Z.of_nat (length a) ->
  exists a', arr_fill lo hi x a = Ok a' /\ length a' = length a /\
    forall j, a' !! j = if decide (lo <= Z.of_nat j < hi) then Some (Some x) else a !! j.
Proof.
  intros Hlo Hhi. unfold arr_fill.
  pose (I := fun (i : Z) (a' : arr A) => length a' = length a /\
    forall j, a' !! j = if decide (lo <= Z.of_nat j < i) then Some (Some x) else a !! j).
  apply (for_range_inv I); unfold I.
  - lia.
  - split; [done|]. intros j. case_decide; [lia|done].
  - intros i a1 Hi [Hlen Hl]. rewrite arr_set_Ok by lia. eexists; split; [done|].
    split; [by rewrite length_insert|]. intros j.
    rewrite lookup_fill_step by lia. rewrite Hl. repeat case_decide; lia || done.
Qed.

Lemma arr_fill_all {A} (n : Z) (x : A) (a : arr A) :
  Z.of_nat (length a) = n -> arr_fill 0 n x a = Ok (Some <$> replicate (Z.to_nat n) x).
Proof.
  intros Hn. destruct (arr_fill_spec 0 n x a) as (a' & -> & Hlen & Hl); [lia..|].
  f_equal. apply list_eq. intros j. rewrite Hl, list_lookup_fmap.
  case_decide.
  - rewrite lookup_replicate_2 by lia. done.
  - rewrite !lookup_ge_None_2; [done| |]; rewrite ?length_replicate; lia.
Qed.

(** Copying a list into a fresh block, as the [...VectorFromList] loops do. *)
Fixpoint arr_store {A} (l : list A) (i : Z) (a : arr A) : result (arr A) :=
  match l with
  | [] => Ok a
  | x :: l' => a' ← arr_set a i x; arr_store l' (i + 1) a'
  end.

Lemma arr_store_gen {A} (l done_ : list A) (k : nat) :
  arr_store l (Z.of_nat (length done_)) ((Some <$> done_) ++ replicate (length l + k) None)
  = Ok ((Some <$> (done_ ++ l)) ++ replicate k None).
Proof.
  revert done_. induction l as [|x l IH]; intros done_; simpl.
  - by rewrite app_nil_r.
  - rewrite arr_set_Ok
      by (rewrite length_app, length_fmap; simpl; lia). simpl.
    rewrite Nat2Z.id, insert_app_r_alt by (rewrite length_fmap; lia).
    rewrite length_fmap, Nat.sub_diag. simpl.
    specialize (IH (done_ ++ [x])).
    rewrite length_app, fmap_app in IH. simpl in IH.
    rewrite <- app_assoc in IH. simpl in IH.
    replace (Z.of_nat (length done_ + 1)) with (Z.of_nat (length done_) + 1) in IH by lia.
    rewrite IH.
    by rewrite <- !app_assoc.
Qed.

Lemma arr_store_spec {A} (l : list A) :
  arr_store l 0 (arr_alloc (Z.of_nat (length l))) = Ok (Some <$> l).
Proof.
  pose proof (arr_store_gen l [] 0) as H. simpl in H.
  unfold arr_alloc. rewrite Nat2Z.id. by rewrite Nat.add_0_r, app_nil_r in H.
Qed.


Lemma arr_store_lookup {A} (l : list A) : forall i (a : arr A),
  0 <= i -> i + Z.of_nat (length l) <= Z.of_nat (length a) ->
  exists a', arr_store l i a = Ok a' /\ length a' = length a /\
    forall j, a' !! j = if decide (i <= Z.of_nat j < i + Z.of_nat (length l))
                        then Some <$> l !! (j - Z.to_nat i)%nat else a !! j.
Proof.
  induction l as [|x l IH]; intros i a Hi Hlen; cbn [arr_store].
  - exists a. split_and!; [done..|]. intros j. rewrite decide_False by (simpl; lia). done.
  - cbn [length] in Hlen. rewrite arr_set_Ok by lia. cbn [mbind result_bind].
    destruct (IH (i + 1) (<[Z.to_nat i := Some x]> a)) as (a' & -> & Hl & Hj);
      [lia|rewrite length_insert; lia|].
    exists a'. rewrite length_insert in Hl. split_and!; [done..|]. intros j. rewrite Hj.
    rewrite lookup_fill_step by lia. cbn [length].
    destruct (decide (Z.of_nat j = i)) as [E|E].
    + rewrite decide_False, decide_True by lia. by replace (j - Z.to_nat i)%nat with 0%nat by lia.
    + repeat case_decide; try lia; [|done].
      by replace (j - Z.to_nat i)%nat with (S (j - Z.to_nat (i + 1))) by lia.
Qed.

(** Reading [n] consecutive cells. *)
Fixpoint arr_load {A} (a : arr A) (i : Z) (n : nat) : result (list A) :=
  match n with
  | O => Ok []
  | S n' => x ← arr_get a i; l ← arr_load a (i + 1) n'; Ok (x :: l)
  end.

Lemma arr_load_spec {A} (a : arr A) (l : list A) : forall i,
  (forall k x, l !! k = Some x -> arr_get a (i + Z.of_nat k) = Ok x) ->
  arr_load a i (length l) = Ok l.
Proof.
  induction l as [|x l IH]; intros i H; cbn [arr_load length]; [done|].
  pose proof (H 0%nat x) as H0. rewrite Z.add_0_r in H0. rewrite H0 by done. cbn [mbind result_bind].
  rewrite IH; [done|]. intros k y Hk. rewrite <- (H (S k) y Hk). f_equal. lia.
Qed.

Lemma arr_load_inv {A} (a : arr A) n : forall i (l : list A),
  arr_load a i n = Ok l -> length l = n /\
    forall k x, l !! k = Some x -> arr_get a (i + Z.of_nat k) = Ok x.
Proof.
  induction n as [|n IH]; intros i l; cbn [arr_load].
  - intros [= <-]. done.
  - intros (x & Hx & (l' & Hl & [= <-])%bind_Ok)%bind_Ok. destruct (IH _ _ Hl) as [Hlen Hk].
    split; [simpl; lia|]. intros [|k] y Hy; simpl in Hy.
    + simplify_eq. by rewrite Z.add_0_r.
    + rewrite <- (Hk k y Hy). f_equal. lia.
Qed.

(** A load sees the store it coincides with, and none that it does not meet. *)
Lemma arr_load_store_eq {A} (l : list A) i (a a' : arr A) :
  0 <= i -> i + Z.of_nat (length l) <= Z.of_nat (length a) ->
  arr_store l i a = Ok a' -> arr_load a' i (length l) = Ok l.
Proof.
  intros Hi Hlen E. destruct (arr_store_lookup l i a Hi Hlen) as (a'' & E' & _ & Hj).
  rewrite E in E'. injection E' as <-. apply arr_load_spec. intros k x Hk.
  apply arr_get_lookup. split; [lia|]. rewrite Hj. apply lookup_lt_Some in Hk as Hlt.
  rewrite decide_True by lia. replace (Z.to_nat (i + Z.of_nat k) - Z.to_nat i)%nat with k by lia.
  by rewrite Hk.
Qed.

Lemma arr_load_store_ne {A} (l : list A) i (a a' : arr A) j n :
  0 <= i -> i + Z.of_nat (length l) <= Z.of_nat (length a) ->
  arr_store l i a = Ok a' ->
  i + Z.of_nat (length l) <= j \/ j + Z.of_nat n <= i ->
  arr_load a' j n = arr_load a j n.
Proof.
  intros Hi Hlen E. destruct (arr_store_lookup l i a Hi Hlen) as (a'' & E' & _ & Hj).
  rewrite E in E'. injection E' as <-. revert j. induction n as [|n IH]; intros j Hd; [done|].
  cbn [arr_load]. rewrite IH by lia. f_equal. unfold arr_get. destruct (Z.leb_spec 0 j); [|done].
  rewrite Hj. by rewrite decide_False by lia.
Qed.

Lemma arr_load_grow {A} (a b : arr A) i n (l : list A) :
  arr_load a i n = Ok l -> arr_load (a ++ b) i n = Ok l.
Proof.
  intros E. destruct (arr_load_inv _ _ _ _ E) as [<- Hk]. apply arr_load_spec. intros k x Hx.
  apply Hk in Hx. apply arr_get_lookup in Hx as [H0 Hx]. apply arr_get_lookup.
  split; [done|]. rewrite lookup_app_l; [done|]. by eapply lookup_lt_Some.
Qed.
