(* ===== verification/Arena.v ===== *)
(** * Memory arenas (src/postgresql-9.6.5/src/backend/noDB/auxiliary/NoDBArena.c)

    Four arenas, each a chain of blocks that starts at the static header
    [first[a]] and ends at the current block [arena[a]]; blocks given back by
    [NoDBArenaFree] are kept on one shared free list. The model keeps the block
    headers in a store addressed by pointers, as the code does. [malloc] is the
    C library's: the interface [Malloc] states what the code relies on, and
    [bump_malloc] is an allocator that satisfies it.

    Addresses and sizes are 64-bit words and every sum wraps. [malloc] may return
    [NULL], and [NoDBMalloc] stops on its assertion then. *)
From S2P Require Import Prelude.

(** ** Data *)
Inductive NoDBArena_t : Type :=
  | NODB_ARENA_STRATEGY
  | NODB_ARENA_ITERATOR
  | NODB_ARENA_QUERY
  | NODB_ARENA_CACHE.

#[global] Instance NoDBArena_t_eq_dec : EqDecision NoDBArena_t.
Proof. solve_decision. Defined.

(** A block pointer: [NULL], [&first[a]], or a block obtained from [malloc]. *)
Inductive ptr : Type := PNull | PFirst (a : NoDBArena_t) | PBlk (addr : Z).

Record ArenaBlock_t := mkArenaBlock { limit : Z; avail : Z; next : ptr }.

Record arena_state := mkArenaState {
  first : NoDBArena_t -> ArenaBlock_t;
  arena : NoDBArena_t -> ptr;
  freeBlocks : ptr;
  mem : gmap Z ArenaBlock_t;
  live : gmap Z Z   (* what malloc has handed out: base address to size *)
}.

Definition arenaBlockSize (a : NoDBArena_t) : Z :=
  match a with
  | NODB_ARENA_STRATEGY | NODB_ARENA_ITERATOR | NODB_ARENA_QUERY => 1024 * 1024
  | NODB_ARENA_CACHE => 16 * 1024 * 1024
  end.

Definition arena_init : arena_state :=
  mkArenaState (fun _ => mkArenaBlock 0 0 PNull) PFirst PNull ∅ ∅.

Definition sizeof_Align_t : Z := 8.
Definition sizeof_Header_t : Z := 24.

(** ** The C allocator, as an interface *)
Definition regions_disjoint (b1 n1 b2 n2 : Z) : Prop := b1 + n1 <= b2 \/ b2 + n2 <= b1.

(** What [malloc] returns for a size, given the objects that are allocated; [None]
    is [NULL]. *)
Class Malloc := malloc : gmap Z Z -> Z -> option Z.

(** An object that [malloc] returns is not at address 0, is aligned for every type,
    overlaps no other object, and lies in the lower half of the address space. The
    last is so for the addresses of user processes on the 64-bit platforms of
    PostgreSQL. *)
Definition USER_END : Z := 2 ^ 63.
Class MallocOk (M : Malloc) : Prop := {
  malloc_range : forall lv n p, malloc lv n = Some p -> 0 < p /\ p + n <= USER_END;
  malloc_aligned : forall lv n p, malloc lv n = Some p -> (8 | p);
  malloc_fresh : forall lv n p b k, malloc lv n = Some p -> 0 < n -> lv !! b = Some k ->
    regions_disjoint p n b k
}.

(** An allocator that satisfies the interface: it allocates above everything, as
    long as there is room. *)
Definition top_of (lv : gmap Z Z) : Z :=
  map_fold (fun b n acc => Z.max (b + n) acc) 0 lv.
Definition bump_malloc : Malloc := fun lv n =>
  let p := 16 * (top_of lv / 16 + 1) in
  if p + n <=? USER_END then Some p else None.

Lemma top_of_spec lv : 0 <= top_of lv /\ forall b n, lv !! b = Some n -> b + n <= top_of lv.
Proof.
  unfold top_of.
  apply (map_fold_weak_ind (fun r m => 0 <= r /\ forall b n, m !! b = Some n -> b + n <= r)).
  - split; [lia|]. intros b n H. by rewrite lookup_empty in H.
  - intros b n m r Hm [IH0 IH]. split; [lia|]. intros b' n'.
    rewrite lookup_insert. case_decide as E.
    + intros. simplify_eq. lia.
    + intros H%IH. lia.
Qed.

#[export] Instance bump_malloc_ok : MallocOk bump_malloc.
Proof.
  assert (Hgt : forall lv, top_of lv < 16 * (top_of lv / 16 + 1)).
  { intros lv. pose proof (Z.mod_pos_bound (top_of lv) 16).
    pose proof (Z.div_mod (top_of lv) 16). lia. }
  assert (Hp : forall lv n p, @malloc bump_malloc lv n = Some p -> p = 16 * (top_of lv / 16 + 1) /\ p + n <= USER_END).
  { intros lv n p. unfold malloc, bump_malloc. destruct (Z.leb_spec (16 * (top_of lv / 16 + 1) + n) USER_END); naive_solver. }
  split.
  - intros lv n p [-> ?]%Hp. pose proof (Hgt lv). pose proof (top_of_spec lv). lia.
  - intros lv n p [-> _]%Hp. exists (2 * (top_of lv / 16 + 1)). lia.
  - intros lv n p b k [-> _]%Hp _ Hb. right. destruct (top_of_spec lv) as [_ H].
    specialize (H b k Hb). pose proof (Hgt lv). lia.
Qed.

Section arena.
Context `{M : Malloc}.

(** ** Operations *)
Definition RoundUp (x n : Z) : Z := Z.land (u64 (x + (n - 1))) (u64 (Z.lnot (n - 1))).

Definition get_blk (st : arena_state) (p : ptr) : result ArenaBlock_t :=
  match p with
  | PNull => Fail NullDeref
  | PFirst a => Ok (first st a)
  | PBlk b => match mem st !! b with Some x => Ok x | None => Fail OutOfBounds end
  end.

Definition put_blk (st : arena_state) (p : ptr) (x : ArenaBlock_t) : result arena_state :=
  match p with
  | PNull => Fail NullDeref
  | PFirst a => Ok (mkArenaState (<[a := x]> (first st)) (arena st) (freeBlocks st) (mem st) (live st))
  | PBlk b => Ok (mkArenaState (first st) (arena st) (freeBlocks st) (<[b := x]> (mem st)) (live st))
  end.

Definition set_next (st : arena_state) (p q : ptr) : result arena_state :=
  x ← get_blk st p; put_blk st p (mkArenaBlock (limit x) (avail x) q).

Definition set_arena (st : arena_state) (a : NoDBArena_t) (p : ptr) : arena_state :=
  mkArenaState (first st) (<[a := p]> (arena st)) (freeBlocks st) (mem st) (live st).

Definition set_freeBlocks (st : arena_state) (p : ptr) : arena_state :=
  mkArenaState (first st) (arena st) p (mem st) (live st).

Definition set_live (st : arena_state) (lv : gmap Z Z) : arena_state :=
  mkArenaState (first st) (arena st) (freeBlocks st) (mem st) lv.

Definition NoDBMalloc (st : arena_state) (size : Z) : result (Z * arena_state) :=
  match malloc (live st) size with
  | None => Fail AssertFail
  | Some p => Ok (p, set_live st (<[p := size]> (live st)))
  end.

(** The body of the loop of [NoDBArenaAlloc]: link a block after [blk]. *)
Definition alloc_block (st : arena_state) (a : NoDBArena_t) (blk : ptr) (size : Z) :
    result (ptr * arena_state) :=
  match freeBlocks st with
  | PBlk f =>
      st1 ← set_next st blk (PBlk f);
      x ← get_blk st1 (PBlk f);
      let st2 := set_freeBlocks st1 (next x) in
      st3 ← put_blk st2 (PBlk f) (mkArenaBlock (limit x) (u64 (f + sizeof_Header_t)) PNull);
      Ok (PBlk f, set_arena st3 a (PBlk f))
  | PFirst _ => Fail OutOfBounds
  | PNull =>
      let m := u64 (sizeof_Header_t + size + arenaBlockSize a) in
      '(n, st0) ← NoDBMalloc st m;
      st1 ← set_next st0 blk (PBlk n);
      st2 ← put_blk st1 (PBlk n) (mkArenaBlock (u64 (n + m)) (u64 (n + sizeof_Header_t)) PNull);
      Ok (PBlk n, set_arena st2 a (PBlk n))
  end.

Fixpoint alloc_loop (fuel : nat) (st : arena_state) (a : NoDBArena_t) (blk : ptr) (size : Z) :
    result (ptr * arena_state) :=
  match fuel with
  | O => Fail OutOfFuel
  | S fuel' =>
      x ← get_blk st blk;
      if limit x <? u64 (avail x + size) then
        '(blk', st') ← alloc_block st a blk size;
        alloc_loop fuel' st' a blk' size
      else Ok (blk, st)
  end.

Definition NoDBArenaAlloc (fuel : nat) (st : arena_state) (a : NoDBArena_t) (size : Z) :
    result (Z * arena_state) :=
  let blk := arena st a in
  let size := RoundUp size sizeof_Align_t in
  '(blk, st) ← alloc_loop fuel st a blk size;
  x ← get_blk st blk;
  st ← put_blk st blk (mkArenaBlock (limit x) (u64 (avail x + size)) (next x));
  Ok (u64 (u64 (avail x + size) - size), st).

Definition NoDBArenaFree (st : arena_state) (a : NoDBArena_t) : result arena_state :=
  st1 ← set_next st (arena st a) (freeBlocks st);
  x ← get_blk st1 (PFirst a);
  let st2 := set_freeBlocks st1 (next x) in
  st3 ← set_next st2 (PFirst a) PNull;
  Ok (set_arena st3 a (PFirst a)).

(** [NoDBFree]: freeing [NULL] is a no-op, freeing the static header or a block
    that is not live is an error. *)
Definition free_blk (st : arena_state) (p : ptr) : result arena_state :=
  match p with
  | PNull => Ok st
  | PFirst _ => Fail OutOfBounds
  | PBlk b =>
      match live st !! b with
      | Some _ => Ok (mkArenaState (first st) (arena st) (freeBlocks st) (delete b (mem st)) (delete b (live st)))
      | None => Fail OutOfBounds
      end
  end.

Fixpoint Destroy (fuel : nat) (st : arena_state) (blk : ptr) : result arena_state :=
  match fuel with
  | O => Fail OutOfFuel
  | S fuel' =>
      match blk with
      | PNull => Ok st
      | _ =>
          x ← get_blk st blk;
          st' ← free_blk st blk;
          Destroy fuel' st' (next x)
      end
  end.

Definition NoDBArenaDestroy (fuel : nat) (st : arena_state) (a : NoDBArena_t) : result arena_state :=
  Destroy fuel st (arena st a).

Definition NoDBArenaDestroyAll (fuel : nat) (st : arena_state) : result arena_state :=
  st1 ← NoDBArenaFree st NODB_ARENA_STRATEGY;
  Destroy fuel st1 (freeBlocks st1).

(** ** The abstract view: chains of blocks *)
Fixpoint seg (m : gmap Z ArenaBlock_t) (p : ptr) (l : list Z) (q : ptr) : Prop :=
  match l with
  | [] => p = q
  | b :: l' => p = PBlk b /\ exists x, m !! b = Some x /\ seg m (next x) l' q
  end.

Definition block_ok (lv : gmap Z Z) (b : Z) (x : ArenaBlock_t) : Prop :=
  lv !! b = Some (limit x - b) /\ 0 < b /\ (8 | b) /\ (8 | avail x) /\
  b + sizeof_Header_t <= avail x <= limit x /\ limit x <= USER_END.

(** [chain a] are the blocks arena [a] uses, oldest first; [free] the free list. *)
Record arena_rep (st : arena_state) (chain : NoDBArena_t -> list Z) (free : list Z) : Prop := {
  rep_chain : forall a, seg (mem st) (next (first st a)) (chain a) PNull;
  rep_cur : forall a, arena st a = from_option PBlk (PFirst a) (list.last (chain a));
  rep_free : seg (mem st) (freeBlocks st) free PNull;
  rep_nodup : forall a, NoDup (chain a);
  rep_nodup_free : NoDup free;
  rep_owner : forall a a' b, b ∈ chain a -> b ∈ chain a' -> a = a';
  rep_owner_free : forall a b, b ∈ chain a -> b ∉ free;
  rep_first : forall a, limit (first st a) = 0 /\ avail (first st a) = 0;
  rep_blk : forall b x, mem st !! b = Some x -> block_ok (live st) b x;
  rep_live : forall b1 n1 b2 n2, live st !! b1 = Some n1 -> live st !! b2 = Some n2 ->
    b1 <> b2 -> regions_disjoint b1 n1 b2 n2
}.

(** The addresses an arena has handed out: the used part of each block's payload. *)
Definition allocated (st : arena_state) (chain : NoDBArena_t -> list Z) (a : NoDBArena_t) (addr : Z) : Prop :=
  exists b x, b ∈ chain a /\ mem st !! b = Some x /\ b + sizeof_Header_t <= addr < avail x.

(** ** Lemmas on block chains *)
Lemma seg_app m p l1 l2 q :
  seg m p (l1 ++ l2) q <-> exists r, seg m p l1 r /\ seg m r l2 q.
Proof.
  revert p. induction l1 as [|b l1 IH]; intros p; simpl; [naive_solver|].
  setoid_rewrite IH. naive_solver.
Qed.

Lemma seg_frame m p l q b x : b ∉ l -> seg m p l q -> seg (<[b := x]> m) p l q.
Proof.
  revert p. induction l as [|c l IH]; intros p Hb; simpl; [done|].
  apply not_elem_of_cons in Hb as [Hbc Hb].
  intros (-> & y & Hy & Hs). split; [done|]. exists y.
  rewrite lookup_insert_ne by done. eauto.
Qed.

Lemma seg_frame_delete m p l q b : b ∉ l -> seg m p l q -> seg (delete b m) p l q.
Proof.
  revert p. induction l as [|c l IH]; intros p Hb; simpl; [done|].
  apply not_elem_of_cons in Hb as [Hbc Hb].
  intros (-> & y & Hy & Hs). split; [done|]. exists y.
  rewrite lookup_delete_ne by done. eauto.
Qed.

(** Updating a header without touching its [next] leaves every chain as it is. *)
Lemma seg_same_next m p l q b x y :
  m !! b = Some x -> next y = next x -> seg m p l q -> seg (<[b := y]> m) p l q.
Proof.
  intros Hb Hn. revert p. induction l as [|c l IH]; intros p; simpl; [done|].
  intros (-> & z & Hz & Hs). split; [done|].
  destruct (decide (b = c)) as [->|Hne].
  - simplify_eq. exists y. rewrite lookup_insert_eq, Hn. eauto.
  - exists z. rewrite lookup_insert_ne by done. eauto.
Qed.

Lemma seg_in m p l q b : b ∈ l -> seg m p l q -> exists x, m !! b = Some x.
Proof.
  revert p. induction l as [|c l IH]; intros p Hb; simpl; [by apply elem_of_nil in Hb|].
  intros (-> & x & Hx & Hs). apply elem_of_cons in Hb as [->|Hb]; eauto.
Qed.

(** Relinking the last block of a chain. *)
Lemma seg_relink m p l b x q q' :
  NoDup (l ++ [b]) -> m !! b = Some x -> seg m p (l ++ [b]) q ->
  seg (<[b := mkArenaBlock (limit x) (avail x) q']> m) p (l ++ [b]) q'.
Proof.
  intros [_ [Hn _]]%list.NoDup_app Hb (r & H1 & H2)%seg_app.
  apply seg_app. exists r. split.
  - apply seg_frame; [|done]. intros Hin. apply (Hn b Hin). set_solver.
  - simpl in *. destruct H2 as (-> & y & Hy & <-). split; [done|].
    eexists. split; [apply lookup_insert_eq|done].
Qed.

Definition extent (x : ArenaBlock_t) : Z * Z := (limit x, avail x).

(** What [set_next] does to the current block of an arena: its chain now ends
    in [q]; nothing else moves. *)
Lemma set_next_cur st chain free a q :
  arena_rep st chain free ->
  exists st1, set_next st (arena st a) q = Ok st1 /\
    seg (mem st1) (next (first st1 a)) (chain a) q /\
    (forall a', a' <> a -> first st1 a' = first st a') /\
    (forall p l r, (forall b, b ∈ l -> b ∉ chain a) -> seg (mem st) p l r -> seg (mem st1) p l r) /\
    arena st1 = arena st /\ freeBlocks st1 = freeBlocks st /\ live st1 = live st /\
    (forall a', extent (first st1 a') = extent (first st a')) /\
    (forall b, extent <$> mem st1 !! b = extent <$> mem st !! b) /\
    (forall b, b ∉ chain a -> mem st1 !! b = mem st !! b).
Proof.
  intros R. pose proof (rep_cur _ _ _ R a) as Hc. pose proof (rep_chain _ _ _ R a) as Hs.
  pose proof (rep_nodup _ _ _ R a) as Hnd.
  destruct (chain a) as [|b l] eqn:El using rev_ind; simpl in Hc.
  - rewrite Hc. unfold set_next. simpl. eexists. split; [done|]. simpl.
    rewrite fn_lookup_insert. split_and!; try done.
    + intros. by rewrite fn_lookup_insert_ne.
    + intros a'. destruct (decide (a' = a)) as [->|];
        [by rewrite fn_lookup_insert | by rewrite fn_lookup_insert_ne].
  - rewrite last_snoc in Hc. simpl in Hc. rewrite Hc. clear IHl.
    assert (b ∈ l ++ [b]) as Hbl by set_solver.
    destruct (seg_in _ _ _ _ b Hbl Hs) as [x Hx].
    unfold set_next. simpl. rewrite Hx. simpl. eexists. split; [done|]. simpl.
    split_and!; try done.
    + eapply seg_relink; eauto.
    + intros p k r Hk Hp. apply seg_frame; [|done]. intros Hb. apply (Hk b Hb). set_solver.
    + intros b'. rewrite lookup_insert. case_decide; subst; [by rewrite Hx|done].
    + intros b' Hb'. apply lookup_insert_ne. set_solver.
Qed.

Lemma block_ok_extent lv b x y : extent x = extent y -> block_ok lv b y -> block_ok lv b x.
Proof. unfold extent, block_ok. intros [= -> ->]. done. Qed.

Lemma rep_chain_blk st chain free a b :
  arena_rep st chain free -> b ∈ chain a -> exists x, mem st !! b = Some x /\ block_ok (live st) b x.
Proof.
  intros R Hb. destruct (seg_in _ _ _ _ _ Hb (rep_chain _ _ _ R a)) as [x Hx].
  exists x. split; [done|]. by eapply rep_blk.
Qed.

Lemma rep_free_blk st chain free b :
  arena_rep st chain free -> b ∈ free -> exists x, mem st !! b = Some x /\ block_ok (live st) b x.
Proof.
  intros R Hb. destruct (seg_in _ _ _ _ _ Hb (rep_free _ _ _ R)) as [x Hx].
  exists x. split; [done|]. by eapply rep_blk.
Qed.

(** A block the C allocator has just returned is not in use anywhere. *)
Lemma rep_malloc `{!MallocOk M} st chain free m n :
  0 < m -> arena_rep st chain free -> malloc (live st) m = Some n ->
  mem st !! n = None /\
  arena_rep (set_live st (<[n := m]> (live st))) chain free.
Proof.
  intros Hm R En.
  assert (Hlv : forall k, live st !! n = Some k -> 0 < k -> False).
  { intros k Hk Hk0. destruct (malloc_fresh (live st) m n n k En Hm Hk); lia. }
  assert (Hn : mem st !! n = None).
  { destruct (mem st !! n) as [x|] eqn:E; [|done].
    destruct (rep_blk _ _ _ R n x E) as (Hl & _ & _ & _ & ? & _). unfold sizeof_Header_t in *.
    exfalso. eapply Hlv; [done|lia]. }
  split; [done|]. destruct R. constructor; simpl; try done.
  - intros b x Hb. assert (b <> n) by congruence.
    destruct (rep_blk0 b x Hb) as (? & ?). split; [|done]. by rewrite lookup_insert_ne.
  - intros b1 n1 b2 n2. rewrite !lookup_insert. repeat case_decide; intros; simplify_eq; try done.
    + by apply (malloc_fresh (live st) n1).
    + destruct (malloc_fresh (live st) n2 b2 b1 n1) as [?|?]; [done|done|done|right; done|left; done].
    + eauto.
Qed.

(** Linking a block that no chain uses after the current block of arena [a]. *)
Lemma append_rep st st1 chain free a b y fb free' :
  arena_rep st chain free ->
  set_next st (arena st a) (PBlk b) = Ok st1 ->
  (forall a', b ∉ chain a') -> b ∉ free' -> NoDup free' -> (forall c, c ∈ free' -> c ∈ free) ->
  seg (mem st) fb free' PNull -> next y = PNull -> block_ok (live st) b y ->
  arena_rep
    (mkArenaState (first st1) (<[a := PBlk b]> (arena st1)) fb (<[b := y]> (mem st1)) (live st1))
    (<[a := chain a ++ [b]]> chain) free' /\
  (forall a' c, c ∈ chain a' -> extent <$> <[b := y]> (mem st1) !! c = extent <$> mem st !! c).
Proof.
  intros R E Hbc Hbf Hndf Hsub Hfb Hny Hok.
  destruct (set_next_cur st chain free a (PBlk b) R)
    as (st1' & E' & Hseg & Hfst & Hfr & Har & Hfb1 & Hlv & Hext & Hme & Hmo).
  rewrite E in E'. injection E' as <-.
  assert (Hout : forall a', a' <> a -> forall c, c ∈ chain a' -> c ∉ chain a).
  { intros a' Hne c Hc Hc'. by apply Hne, (rep_owner _ _ _ R _ _ c). }
  split.
  - constructor; simpl.
    + intros a'. destruct (decide (a' = a)) as [->|Hne].
      * rewrite fn_lookup_insert. apply seg_app. exists (PBlk b). split.
        -- by apply seg_frame.
        -- simpl. split; [done|]. exists y. by rewrite lookup_insert_eq.
      * rewrite fn_lookup_insert_ne by done. rewrite Hfst by done.
        apply seg_frame; [done|]. apply Hfr; [by apply Hout|]. apply (rep_chain _ _ _ R).
    + intros a'. destruct (decide (a' = a)) as [->|Hne].
      * rewrite !fn_lookup_insert. by rewrite last_snoc.
      * rewrite !fn_lookup_insert_ne by done. rewrite Har. apply (rep_cur _ _ _ R).
    + apply seg_frame; [done|]. apply Hfr; [|done]. intros c Hc Hca.
      eapply (rep_owner_free _ _ _ R); eauto.
    + intros a'. destruct (decide (a' = a)) as [->|Hne].
      * rewrite fn_lookup_insert. apply list.NoDup_app. split_and!.
        -- apply (rep_nodup _ _ _ R).
        -- intros c Hc ->%list_elem_of_singleton. by apply (Hbc a).
        -- apply NoDup_singleton.
      * rewrite fn_lookup_insert_ne by done. apply (rep_nodup _ _ _ R).
    + done.
    + assert (Hin : forall a' c, c ∈ <[a:=chain a ++ [b]]> chain a' -> c ∈ chain a' \/ (c = b /\ a' = a)).
      { intros a' c. destruct (decide (a' = a)) as [->|Hne];
          [rewrite fn_lookup_insert | rewrite fn_lookup_insert_ne by done]; set_solver. }
      intros a1 a2 c [?|[-> ->]]%Hin [?|[? ?]]%Hin; subst; try done.
      * by eapply (rep_owner _ _ _ R).
      * by destruct (Hbc a1).
      * by destruct (Hbc a2).
    + intros a' c Hc Hcf. destruct (decide (a' = a)) as [->|Hne].
      * rewrite fn_lookup_insert in Hc. apply elem_of_app in Hc as [Hc|Hc].
        -- by eapply (rep_owner_free _ _ _ R); eauto.
        -- apply list_elem_of_singleton in Hc as ->. done.
      * rewrite fn_lookup_insert_ne in Hc by done. by eapply (rep_owner_free _ _ _ R); eauto.
    + intros a'. pose proof (Hext a') as [= -> ->]. apply (rep_first _ _ _ R).
    + intros c x. rewrite lookup_insert. case_decide; intros; simplify_eq; rewrite Hlv; [done|].
      pose proof (Hme c) as Hc. rewrite H0 in Hc.
      destruct (mem st !! c) as [x0|] eqn:Ec; simpl in Hc; [|done]. injection Hc as Hc.
      eapply block_ok_extent; [|by eapply (rep_blk _ _ _ R)]. unfold extent. congruence.
    + rewrite Hlv. apply (rep_live _ _ _ R).
  - intros a' c Hc. rewrite lookup_insert_ne; [apply Hme|]. intros ->. by apply (Hbc a').
Qed.

(** ** Rounding up *)
Lemma RoundUp_align x :
  0 <= x < 2 ^ 64 - 8 -> RoundUp x sizeof_Align_t = 8 * ((x + 7) / 8).
Proof.
  intros Hx. unfold RoundUp, sizeof_Align_t, u64.
  rewrite wrap_small by lia.
  replace (wrap 64 (Z.lnot (8 - 1))) with (Z.ldiff (Z.ones 64) (Z.ones 3)) by done.
  assert (forall c d, Z.land c (Z.ldiff (Z.ones 64) d) = Z.ldiff (Z.land c (Z.ones 64)) d) as ->.
  { intros c d. apply Z.bits_inj. intros i. rewrite Z.land_spec, !Z.ldiff_spec, Z.land_spec.
    by rewrite andb_assoc. }
  rewrite Z.land_ones, Z.mod_small by lia.
  rewrite Z.ldiff_ones_r, Z.shiftl_mul_pow2, Z.shiftr_div_pow2 by lia.
  change (2 ^ 3) with 8. replace (x + (8 - 1)) with (x + 7) by lia. lia.
Qed.

Lemma RoundUp_bounds x :
  0 <= x < 2 ^ 64 - 8 ->
  (8 | RoundUp x sizeof_Align_t) /\ x <= RoundUp x sizeof_Align_t < x + 8.
Proof.
  intros Hx. rewrite RoundUp_align by done. split; [by exists ((x + 7) / 8); lia|].
  pose proof (Z.div_mod (x + 7) 8). pose proof (Z.mod_pos_bound (x + 7) 8). lia.
Qed.

(** ** Allocation *)

(** The largest request for which no sum of the allocator wraps. *)
Definition MAX_ALLOC : Z := 2 ^ 62.
Definition block_bytes (a : NoDBArena_t) (size : Z) : Z := sizeof_Header_t + size + arenaBlockSize a.

Lemma block_bytes_ok a size : 0 <= size <= MAX_ALLOC -> (8 | size) ->
  u64 (sizeof_Header_t + size + arenaBlockSize a) = block_bytes a size /\ sizeof_Header_t + size <= block_bytes a size /\
  (8 | block_bytes a size).
Proof.
  intros Hs [k ->]. unfold block_bytes, u64, sizeof_Header_t, arenaBlockSize, MAX_ALLOC in *. split_and!.
  - apply wrap_small. destruct a; lia.
  - destruct a; lia.
  - destruct a; [exists (3 + k + 131072)|exists (3 + k + 131072)|exists (3 + k + 131072)|exists (3 + k + 2097152)]; lia.
Qed.

Lemma addr_sum p n : 0 <= p <= USER_END -> 0 <= n <= MAX_ALLOC -> u64 (p + n) = p + n.
Proof. intros. apply wrap_small. unfold USER_END, MAX_ALLOC in *. lia. Qed.

(** The outcome of one turn: a block is linked after the current one, or [malloc]
    has no block. *)
Definition linked (st : arena_state) chain free a size (r : result (ptr * arena_state)) : Prop :=
  (exists b x st', r = Ok (PBlk b, st') /\
    arena_rep st' (<[a := chain a ++ [b]]> chain) (tail free) /\
    arena st' a = PBlk b /\ mem st' !! b = Some x /\ (free <> [] -> live st' = live st) /\
    (free = [] -> avail x + size <= limit x) /\
    (forall a' c, c ∈ chain a' -> extent <$> mem st' !! c = extent <$> mem st !! c)) \/
  (free = [] /\ r = Fail AssertFail /\ malloc (live st) (block_bytes a size) = None).

Lemma alloc_new_rep `{!MallocOk M} st chain a size :
  arena_rep st chain [] -> 0 <= size <= MAX_ALLOC -> (8 | size) ->
  linked st chain [] a size (alloc_block st a (arena st a) size).
Proof.
  intros R Hsz Hal. unfold alloc_block. pose proof (rep_free _ _ _ R) as Hf. simpl in Hf. rewrite Hf.
  destruct (block_bytes_ok a size Hsz Hal) as (-> & Hm & Hal'). set (m := block_bytes a size) in *.
  unfold NoDBMalloc. destruct (malloc (live st) m) as [n|] eqn:En; [|by right].
  left. cbn [mbind result_bind]. assert (0 < m) by (unfold sizeof_Header_t in *; lia).
  destruct (rep_malloc st chain [] m n) as [Hn R0]; [done..|].
  destruct (malloc_range _ _ _ En) as [Hp Hend]. pose proof (malloc_aligned _ _ _ En) as Ha.
  assert (u64 (n + m) = n + m) as -> by (apply wrap_small; unfold USER_END in *; lia).
  rewrite (addr_sum n sizeof_Header_t) by (unfold sizeof_Header_t, MAX_ALLOC in *; lia).
  set (st0 := set_live st _) in *.
  destruct (set_next_cur st0 chain [] a (PBlk n) R0) as (st1 & E & _ & _ & _ & _ & Hfb & _).
  change (arena st a) with (arena st0 a). rewrite E. simpl.
  assert (Hbn : forall a', n ∉ chain a').
  { intros a' Hin. destruct (rep_chain_blk _ _ _ _ _ R Hin) as (? & ? & _). congruence. }
  destruct (append_rep st0 st1 chain [] a n (mkArenaBlock (n + m) (n + sizeof_Header_t) PNull) PNull [])
    as [R' Hext]; try done.
  { by intros ?%elem_of_nil. } { by constructor. }
  { unfold block_ok, st0; simpl. rewrite lookup_insert_eq.
    assert (8 | n + sizeof_Header_t) by (apply Z.divide_add_r; [done|by exists 3]).
    split_and!; try done; [f_equal|..]; lia. }
  eexists n, _, _. split; [done|]. unfold set_arena; simpl.
  assert (freeBlocks st1 = PNull) as -> by (rewrite Hfb; done).
  split; [done|]. split; [by rewrite fn_lookup_insert|].
  split; [by rewrite lookup_insert_eq|]. split; [done|]. split; [|done]. intros _. simpl. lia.
Qed.

Lemma alloc_free_rep st chain f free a size :
  arena_rep st chain (f :: free) ->
  linked st chain (f :: free) a size (alloc_block st a (arena st a) size).
Proof.
  intros R. left. unfold alloc_block. destruct (rep_free _ _ _ R) as (Hfb & x & Hx & Hfs). rewrite Hfb.
  destruct (set_next_cur st chain (f :: free) a (PBlk f) R)
    as (st1 & E & _ & _ & _ & _ & _ & Hlv & _ & _ & Hmo).
  assert (Hbf : forall a', f ∉ chain a').
  { intros a' Hin. eapply (rep_owner_free _ _ _ R); [done|]. set_solver. }
  pose proof (rep_nodup_free _ _ _ R) as [Hff Hndf]%NoDup_cons.
  rewrite E. simpl. rewrite Hmo, Hx by done. simpl.
  destruct (rep_blk _ _ _ R f x Hx) as (? & ? & ? & ? & ? & ?).
  rewrite (addr_sum f sizeof_Header_t) by (unfold sizeof_Header_t, MAX_ALLOC in *; lia).
  destruct (append_rep st st1 chain (f :: free) a f
    (mkArenaBlock (limit x) (f + sizeof_Header_t) PNull) (next x) free) as [R' Hext]; try done.
  { set_solver. }
  { unfold block_ok; simpl. split_and!; try done; try lia.
    apply Z.divide_add_r; [done|]. unfold sizeof_Header_t. by exists 3. }
  eexists f, _, _. split; [done|]. split; [done|]. unfold set_arena; simpl.
  split; [by rewrite fn_lookup_insert|]. split; [by rewrite lookup_insert_eq|]. done.
Qed.

(** What the loop of [NoDBArenaAlloc] leaves: a block of arena [a] with room for
    [size] bytes, and every block that was in use still in use and unchanged; or
    [malloc] had no block. *)
Definition has_room (st : arena_state) (chain : NoDBArena_t -> list Z) (a : NoDBArena_t)
    (size : Z) (r : result (ptr * arena_state)) : Prop :=
  (exists b x st' chain' free', r = Ok (PBlk b, st') /\
    arena_rep st' chain' free' /\ b ∈ chain' a /\ mem st' !! b = Some x /\
    avail x + size <= limit x /\
    (forall a' c, c ∈ chain a' -> c ∈ chain' a' /\ extent <$> mem st' !! c = extent <$> mem st !! c)) \/
  (r = Fail AssertFail /\ malloc (live st) (block_bytes a size) = None).

Lemma has_room_extend st st1 chain a b size r :
  (forall a' c, c ∈ chain a' -> extent <$> mem st1 !! c = extent <$> mem st !! c) ->
  has_room st1 (<[a := chain a ++ [b]]> chain) a size r ->
  (live st1 = live st \/ is_Some (match r with Ok x => Some x | Fail _ => None end)) -> has_room st chain a size r.
Proof.
  intros Hext [(b' & x' & st' & ch & fr & E' & R' & Hin & Hm' & Hf' & Hc')|[-> Hn]] Hlv.
  - left. exists b', x', st', ch, fr. split_and!; try done. intros a' c Hc.
    destruct (Hc' a' c) as [? He].
    { destruct (decide (a' = a)) as [->|];
        [rewrite fn_lookup_insert; set_solver|by rewrite fn_lookup_insert_ne]. }
    split; [done|]. rewrite He. by eapply Hext.
  - right. split; [done|]. destruct Hlv as [<-|[? ?]]; done.
Qed.

Lemma block_sum st chain fl b x size :
  arena_rep st chain fl -> mem st !! b = Some x -> 0 <= size <= MAX_ALLOC -> u64 (avail x + size) = avail x + size.
Proof.
  intros R Hx Hs. destruct (rep_blk _ _ _ R b x Hx) as (_ & ? & _ & _ & ? & ?).
  apply addr_sum; [unfold sizeof_Header_t in *; lia|done].
Qed.

Lemma alloc_loop_stop st chain fl fuel a size x b :
  arena_rep st chain fl -> arena st a = PBlk b -> mem st !! b = Some x ->
  avail x + size <= limit x -> 0 <= size <= MAX_ALLOC -> (0 < fuel)%nat ->
  has_room st chain a size (alloc_loop fuel st a (arena st a) size) /\
  is_Some (match alloc_loop fuel st a (arena st a) size with Ok y => Some y | Fail _ => None end).
Proof.
  intros R Ha Hx Hfit Hs Hfuel. destruct fuel as [|fuel]; [lia|].
  rewrite Ha. simpl. rewrite Hx. simpl. rewrite (block_sum _ _ _ _ _ _ R Hx Hs).
  destruct (Z.ltb_spec (limit x) (avail x + size)); [lia|]. split; [|done]. left.
  exists b, x, st, chain, fl. split_and!; try done.
  rewrite (rep_cur _ _ _ R) in Ha. destruct (list.last (chain a)) eqn:El; simplify_eq/=.
  by apply last_Some_elem_of.
Qed.

Lemma get_cur_blk st chain fl a size :
  arena_rep st chain fl -> 0 < size <= MAX_ALLOC ->
  exists x, get_blk st (arena st a) = Ok x /\ u64 (avail x + size) = avail x + size /\
    (avail x + size <= limit x -> exists b, arena st a = PBlk b /\ mem st !! b = Some x).
Proof.
  intros R Hs. rewrite (rep_cur _ _ _ R).
  destruct (list.last (chain a)) as [b|] eqn:El; simpl.
  - apply last_Some_elem_of in El. destruct (rep_chain_blk _ _ _ _ _ R El) as (x & Hx & _).
    exists x. rewrite Hx. split; [done|]. split; [eapply block_sum; eauto; lia|]. eauto.
  - exists (first st a). split; [done|]. destruct (rep_first _ _ _ R a) as [El' Ea]. rewrite El', Ea.
    split; [|lia]. apply addr_sum; [unfold USER_END; lia|lia].
Qed.

(** The loop of [NoDBArenaAlloc] ends, after at most one turn per free block and
    one for [malloc]. *)
Lemma alloc_loop_spec `{!MallocOk M} free : forall st chain fuel a size,
  arena_rep st chain free -> 0 < size <= MAX_ALLOC -> (8 | size) -> (length free + 2 <= fuel)%nat ->
  has_room st chain a size (alloc_loop fuel st a (arena st a) size).
Proof.
  induction free as [|f free IH]; intros st chain fuel a size R Hs Hal Hfuel;
    (destruct (get_cur_blk st chain _ a size R Hs) as (x & Hx & Hw & Hfit); destruct fuel as [|fuel]; [simpl in Hfuel; lia|]);
    (destruct (Z.ltb_spec (limit x) (avail x + size)) as [Hlt|Hge];
      [|destruct (Hfit Hge) as (b & Hb & Hmb); eapply alloc_loop_stop; eauto; lia]);
    simpl; rewrite Hx; simpl; rewrite Hw, (proj2 (Z.ltb_lt _ _)) by done.
  - destruct (alloc_new_rep st chain a size R ltac:(lia) Hal)
      as [(b & y & st1 & E & R1 & Ha1 & Hy & _ & Hnew & Hext)|(_ & -> & En)]; [|by right].
    rewrite E. simpl. rewrite <- Ha1.
    destruct (alloc_loop_stop st1 _ _ fuel a size y b R1 Ha1 Hy) as [Hr Hsome]; [by apply Hnew|lia|simpl in Hfuel; lia|].
    apply (has_room_extend st st1 chain a b); [done..|by right].
  - destruct (alloc_free_rep st chain f free a size R)
      as [(b & y & st1 & E & R1 & Ha1 & Hy & Hlv & _ & Hext)|(? & _)]; [|done].
    rewrite E. simpl. rewrite <- Ha1. apply (has_room_extend st st1 chain a b); [done| |by left; apply Hlv].
    apply IH; try done. simpl in Hfuel. lia.
Qed.

(** Handing out [size] bytes of a block that has room for them. *)
Lemma bump_rep st chain free b x size :
  arena_rep st chain free -> mem st !! b = Some x -> 0 <= size -> (8 | size) ->
  avail x + size <= limit x ->
  arena_rep (mkArenaState (first st) (arena st) (freeBlocks st)
    (<[b := mkArenaBlock (limit x) (avail x + size) (next x)]> (mem st)) (live st)) chain free.
Proof.
  intros R Hb Hs Hal Hfit. destruct (rep_blk _ _ _ R b x Hb) as (? & ? & ? & ? & ? & ?).
  destruct R. constructor; simpl; try done.
  - intros a. by eapply seg_same_next.
  - by eapply seg_same_next.
  - intros c y. rewrite lookup_insert. case_decide; intros; simplify_eq; [|eauto].
    unfold block_ok; simpl. split_and!; try done; try lia. by apply Z.divide_add_r.
Qed.

Lemma extent_lookup st st' c x :
  extent <$> mem st' !! c = extent <$> mem st !! c -> mem st !! c = Some x ->
  exists y, mem st' !! c = Some y /\ avail y = avail x.
Proof.
  intros He Hx. rewrite Hx in He. destruct (mem st' !! c) as [y|] eqn:Ec; simplify_eq/=.
  exists y. split; [done|]. unfold extent in *. congruence.
Qed.

(** Addresses of two blocks that are both in use never coincide. *)
Lemma payload_disjoint st chain free b x c y addr :
  arena_rep st chain free -> mem st !! b = Some x -> mem st !! c = Some y -> b <> c ->
  b + sizeof_Header_t <= addr < limit x -> c + sizeof_Header_t <= addr < limit y -> False.
Proof.
  intros R Hx Hy Hne H1 H2. unfold sizeof_Header_t in *.
  destruct (rep_blk _ _ _ R b x Hx) as (Hl & _). destruct (rep_blk _ _ _ R c y Hy) as (Hl' & _).
  destruct (rep_live _ _ _ R _ _ _ _ Hl Hl' Hne); lia.
Qed.

(** C34 For every size up to 2^62, larger than the blocks of the arena or not,
    [NoDBArenaAlloc] ends (one turn of its loop per free block and two more are
    enough) and either returns an 8-byte aligned region of [size] bytes inside the
    arena that overlaps nothing allocated from any arena before, every earlier
    allocation staying allocated, or stops on the assertion of [NoDBMalloc]
    because [malloc] returned [NULL] for a block of the right size. *)
Theorem NoDBArenaAlloc_correct `{!MallocOk M} st chain free a size :
  arena_rep st chain free -> 0 < size <= MAX_ALLOC - 8 ->
  (exists p st' chain' free',
    NoDBArenaAlloc (length free + 2) st a size = Ok (p, st') /\
    arena_rep st' chain' free' /\ (8 | p) /\
    (forall addr, p <= addr < p + size ->
       allocated st' chain' a addr /\ forall a', ~ allocated st chain a' addr) /\
    (forall a' addr, allocated st chain a' addr -> allocated st' chain' a' addr)) \/
  (NoDBArenaAlloc (length free + 2) st a size = Fail AssertFail /\
   malloc (live st) (sizeof_Header_t + 8 * ((size + 7) / 8) + arenaBlockSize a) = None).
Proof.
  intros R Hs. assert (0 <= size < 2 ^ 64 - 8) as Hs' by (unfold MAX_ALLOC in *; lia).
  destruct (RoundUp_bounds size Hs') as [Hal Hr]. pose proof (RoundUp_align size Hs') as Er.
  set (sz := RoundUp size sizeof_Align_t) in *. assert (0 < sz <= MAX_ALLOC) as Hsz by lia.
  unfold NoDBArenaAlloc. fold sz.
  destruct (alloc_loop_spec free st chain (length free + 2) a sz R Hsz Hal ltac:(lia))
    as [(b & x & st1 & ch & fr & E & R1 & Hb & Hx & Hfit & Hold)|[E Hn]]; rewrite E;
    [left|right; split; [done|by rewrite <- Er]].
  simpl. rewrite Hx. simpl. rewrite (block_sum _ _ _ _ _ _ R1 Hx) by lia.
  destruct (rep_blk _ _ _ R1 b x Hx) as (? & ? & ? & Hav & ? & ?).
  eexists (avail x), _, ch, fr. split.
  { do 2 f_equal. replace (avail x + sz - sz) with (avail x + 0) by lia. rewrite addr_sum; [lia| |done].
    unfold sizeof_Header_t in *. lia. }
  split; [apply bump_rep; try done; lia|]. split; [done|]. split.
  - intros addr Haddr. split.
    + eexists b, _. split; [done|]. simpl. rewrite lookup_insert_eq. split; [done|]. simpl. lia.
    + intros a' (c & y & Hc & Hy & Hr'). destruct (Hold a' c Hc) as [Hc' He].
      destruct (extent_lookup _ _ _ _ He Hy) as (y' & Hy' & Eav).
      destruct (rep_blk _ _ _ R1 c y' Hy') as (_ & _ & _ & _ & ? & _).
      destruct (decide (b = c)) as [->|Hne]; [simplify_eq; lia|].
      eapply (payload_disjoint st1 ch fr b x c y' addr); try done; lia.
  - intros a' addr (c & y & Hc & Hy & Hr'). destruct (Hold a' c Hc) as [Hc' He].
    destruct (extent_lookup _ _ _ _ He Hy) as (y' & Hy' & Eav).
    unfold allocated; simpl. destruct (decide (b = c)) as [->|Hne].
    + eexists c, _. rewrite lookup_insert_eq. split_and!; try done; simpl; simplify_eq; lia.
    + exists c, y'. rewrite lookup_insert_ne by done. split_and!; try done; lia.
Qed.

(** [NoDBArenaFree] on the abstract view: the chain of [a] is spliced before the
    free list. *)
Lemma arena_free_rep st chain free a :
  arena_rep st chain free ->
  exists st', NoDBArenaFree st a = Ok st' /\ live st' = live st /\
    arena_rep st' (<[a := []]> chain) (chain a ++ free) /\
    (forall b, b ∉ chain a -> mem st' !! b = mem st !! b).
Proof.
  intros R. destruct (set_next_cur st chain free a (freeBlocks st) R)
    as (st1 & E & Hseg & Hfst & Hfr & Har & Hfb1 & Hlv & Hext & Hme & Hmo).
  unfold NoDBArenaFree. rewrite E. simpl. eexists. split; [done|].
  split; [done|]. split; [|done].
  assert (Hout : forall a', a' <> a -> forall c, c ∈ chain a' -> c ∉ chain a).
  { intros a' Hne c Hc Hc'. by apply Hne, (rep_owner _ _ _ R _ _ c). }
  constructor; unfold set_arena, set_freeBlocks; simpl.
  - intros a'. destruct (decide (a' = a)) as [->|Hne];
        [by rewrite !fn_lookup_insert | rewrite !fn_lookup_insert_ne by done].
      rewrite Hfst by done. apply Hfr; [by apply Hout|]. apply (rep_chain _ _ _ R).
  - intros a'. destruct (decide (a' = a)) as [->|Hne];
        [by rewrite !fn_lookup_insert | rewrite !fn_lookup_insert_ne by done].
      rewrite Har. apply (rep_cur _ _ _ R).
  - apply seg_app. exists (freeBlocks st). split; [done|]. apply Hfr; [|apply (rep_free _ _ _ R)].
      intros c Hc Hca. by eapply (rep_owner_free _ _ _ R).
  - intros a'. destruct (decide (a' = a)) as [->|Hne];
        [rewrite !fn_lookup_insert; constructor | rewrite !fn_lookup_insert_ne by done].
      apply (rep_nodup _ _ _ R).
  - apply NoDup_app. split_and!; [apply (rep_nodup _ _ _ R)| |apply (rep_nodup_free _ _ _ R)].
      intros c Hc. by eapply (rep_owner_free _ _ _ R).
  - intros a1 a2 c. unfold insert, fn_insert. repeat case_decide; subst; try (by intros ?%elem_of_nil).
      * by intros _ ?%elem_of_nil.
      * apply (rep_owner _ _ _ R).
  - intros a' c. destruct (decide (a' = a)) as [->|Hne];
        [rewrite !fn_lookup_insert; by intros ?%elem_of_nil | rewrite !fn_lookup_insert_ne by done].
      intros Hc [Hc'|Hc']%elem_of_app; [by eapply Hout|by eapply (rep_owner_free _ _ _ R)].
  - intros a'. destruct (decide (a' = a)) as [->|Hne];
        [rewrite !fn_lookup_insert; simpl | rewrite !fn_lookup_insert_ne by done];
        [pose proof (Hext a) as [= -> ->]|pose proof (Hext a') as [= -> ->]]; apply (rep_first _ _ _ R).
  - intros c x Hc. rewrite Hlv. pose proof (Hme c) as He. rewrite Hc in He.
      destruct (mem st !! c) as [x0|] eqn:Ec; simplify_eq/=.
      eapply block_ok_extent; [|by eapply (rep_blk _ _ _ R)]. unfold extent. congruence.
  - rewrite Hlv. apply (rep_live _ _ _ R).
Qed.

(** [NoDBArenaFree] moves every block of the arena to the front of the shared
    free list, leaves the arena empty, gives nothing back to [malloc], and does
    not touch what the other arenas have handed out. *)
Theorem NoDBArenaFree_correct st chain free a :
  arena_rep st chain free ->
  exists st', NoDBArenaFree st a = Ok st' /\
    arena_rep st' (<[a := []]> chain) (chain a ++ free) /\ live st' = live st /\
    (forall a' addr, allocated st' (<[a := []]> chain) a' addr <->
       a' <> a /\ allocated st chain a' addr).
Proof.
  intros R. destruct (arena_free_rep st chain free a R) as (st' & E & Hlv & R' & Hmo).
  exists st'. split_and!; try done. intros a' addr. unfold allocated.
  destruct (decide (a' = a)) as [->|Hne].
  - rewrite fn_lookup_insert. split; [|naive_solver]. by intros (c & x & ?%elem_of_nil & _).
  - assert (forall c, c ∈ chain a' -> mem st' !! c = mem st !! c) as Hsame.
    { intros c Hc. apply Hmo. intros Hc'. by apply Hne, (rep_owner _ _ _ R _ _ c). }
    rewrite fn_lookup_insert_ne by done. split.
    + intros (c & x & Hc & Hx & ?). split; [done|]. rewrite Hsame in Hx by done. eauto.
    + intros (_ & c & x & Hc & Hx & ?). exists c, x. by rewrite Hsame.
Qed.

(** ** Releasing the blocks *)
Lemma Destroy_seg l : forall st p fuel,
  seg (mem st) p l PNull -> NoDup l -> (forall b, b ∈ l -> is_Some (live st !! b)) ->
  (length l < fuel)%nat ->
  exists st', Destroy fuel st p = Ok st' /\
    forall b, live st' !! b = if decide (b ∈ l) then None else live st !! b.
Proof.
  induction l as [|b l IH]; intros st p fuel Hs Hnd Hl Hf; (destruct fuel as [|fuel]; [simpl in Hf; lia|]).
  - simpl in Hs. subst p. exists st. split; [done|]. intros b. case_decide; [set_solver|done].
  - simpl in Hs. destruct Hs as (-> & x & Hx & Hs). apply NoDup_cons in Hnd as [Hb Hnd].
    simpl. rewrite Hx. simpl. destruct (Hl b) as [n Hn]; [set_solver|]. rewrite Hn. simpl.
    edestruct (IH (mkArenaState (first st) (arena st) (freeBlocks st) (delete b (mem st)) (delete b (live st)))
      (next x) fuel) as (st' & -> & Hlv); simpl.
    + by apply seg_frame_delete.
    + done.
    + intros c Hc. rewrite lookup_delete_ne by (by intros ->). apply Hl. set_solver.
    + simpl in Hf. lia.
    + exists st'. split; [done|]. intros c. rewrite Hlv. simpl. rewrite lookup_delete.
      repeat case_decide; subst; set_solver.
Qed.

(** [NoDBArenaDestroyAll] terminates and releases exactly the blocks of the
    strategy arena and of the free list, each once; it releases nothing of the
    iterator, query and cache arenas. *)
Theorem NoDBArenaDestroyAll_correct st chain free :
  arena_rep st chain free ->
  exists st', NoDBArenaDestroyAll (length (chain NODB_ARENA_STRATEGY) + length free + 1) st = Ok st' /\
    forall b, live st' !! b =
      if decide (b ∈ chain NODB_ARENA_STRATEGY ++ free) then None else live st !! b.
Proof.
  intros R. destruct (arena_free_rep st chain free NODB_ARENA_STRATEGY R)
    as (st1 & E & Hlv & R1 & _).
  unfold NoDBArenaDestroyAll. rewrite E. simpl. rewrite <- Hlv.
  apply Destroy_seg.
  - apply (rep_free _ _ _ R1).
  - apply (rep_nodup_free _ _ _ R1).
  - intros b Hb. destruct (rep_free_blk _ _ _ _ R1 Hb) as (x & _ & Hok & _). rewrite Hok. done.
  - rewrite length_app. lia.
Qed.
End arena.

Lemma arena_init_rep : arena_rep arena_init (fun _ => []) [].
Proof.
  constructor; simpl; try done; try (by constructor).
  - by intros a a' b ?%elem_of_nil.
  - intros a b ?%elem_of_nil. done.
Qed.

(** A request of two megabytes, more than a block of the arena has. *)
Lemma NoDBArenaAlloc_correct_witness :
  exists p st' chain' free',
    @NoDBArenaAlloc bump_malloc 2 arena_init NODB_ARENA_QUERY (2 * 1024 * 1024) = Ok (p, st') /\
    arena_rep st' chain' free' /\ (8 | p) /\
    (forall addr, p <= addr < p + 2 * 1024 * 1024 -> allocated st' chain' NODB_ARENA_QUERY addr /\
       forall a', ~ allocated arena_init (fun _ => []) a' addr) /\
    (forall a' addr, allocated arena_init (fun _ => []) a' addr -> allocated st' chain' a' addr).
Proof.
  destruct (@NoDBArenaAlloc_correct bump_malloc bump_malloc_ok arena_init (fun _ => []) []
    NODB_ARENA_QUERY (2 * 1024 * 1024) arena_init_rep) as [H|[H _]].
  - unfold MAX_ALLOC. lia.
  - exact H.
  - vm_compute in H. discriminate H.
Defined.

Lemma NoDBArenaFree_correct_witness :
  exists st', NoDBArenaFree arena_init NODB_ARENA_CACHE = Ok st' /\
    arena_rep st' (<[NODB_ARENA_CACHE := []]> (fun _ => [])) [] /\ live st' = ∅ /\
    (forall a' addr, allocated st' (<[NODB_ARENA_CACHE := []]> (fun _ => [])) a' addr <->
       a' <> NODB_ARENA_CACHE /\ allocated arena_init (fun _ => []) a' addr).
Proof. apply (NoDBArenaFree_correct arena_init (fun _ => []) [] NODB_ARENA_CACHE arena_init_rep). Defined.

Lemma NoDBArenaDestroyAll_correct_witness :
  exists st', NoDBArenaDestroyAll 1 arena_init = Ok st' /\
    forall b, live st' !! b = if decide (b ∈ ([] : list Z)) then None else live arena_init !! b.
Proof. apply (NoDBArenaDestroyAll_correct arena_init (fun _ => []) [] arena_init_rep). Defined.
