(* ===== verification/LinkedList.v ===== *)
(** * Singly linked lists on the heap

    NoDBList.c, NoDBCol.c and NoDBRow.c each write the same C list code for
    another element type. The code is modelled here once, at the pointer level:
    a heap of nodes, loops that follow [next], updates in place. The same
    operations as functions on lists are the abstract side; the [_refines]
    lemmas relate the two. Lists.v instantiates both for the element types.

    A loop that follows [next] runs with [S (size h)] turns of fuel: a
    [NULL]-terminated chain visits each node of the heap at most once
    ([lrep_fuel]). *)
From S2P Require Import Prelude.

Section linked_list.
Context {A : Type} `{EqDecision A}.

(** A node is a value and a [next] pointer; 0 is [NULL]. *)
Abbreviation heap := (gmap Z (A * Z)).
Implicit Types (h : heap) (p : Z) (v : A) (l : list A).

(** ** Operations on the heap *)
Definition ll_alloc (h : heap) : Z := fresh ({[0]} ∪ dom h : gset Z).

Definition ll_node h p : result (A * Z) :=
  if p =? 0 then Fail NullDeref
  else match h !! p with Some n => Ok n | None => Fail OutOfBounds end.

(** [node = malloc; node->v = v; node->next = p; return node;] *)
Definition ll_add h p v : heap * Z :=
  let q := ll_alloc h in (<[q := (v, p)]> h, q).

Fixpoint ll_contains_loop (fuel : nat) h p v : result bool :=
  match fuel with
  | O => Fail OutOfFuel
  | S fuel' =>
      if p =? 0 then Ok false
      else n ← ll_node h p;
           if decide (n.1 = v) then Ok true else ll_contains_loop fuel' h n.2 v
  end.
Definition ll_contains h p v : result bool := ll_contains_loop (S (size h)) h p v.

Definition ll_add_unique h p v : result (heap * Z) :=
  b ← ll_contains h p v;
  if (b : bool) then Ok (h, p) else Ok (ll_add h p v).

Fixpoint ll_size_loop (fuel : nat) h p (n : Z) : result Z :=
  match fuel with
  | O => Fail OutOfFuel
  | S fuel' => if p =? 0 then Ok n else x ← ll_node h p; ll_size_loop fuel' h x.2 (n + 1)
  end.
Definition ll_size h p : result Z := ll_size_loop (S (size h)) h p 0.

(** The copy loop [nl = add(nl, l->v)], which reverses the list. *)
Fixpoint ll_duplicate_loop (fuel : nat) h p nl : result (heap * Z) :=
  match fuel with
  | O => Fail OutOfFuel
  | S fuel' =>
      if p =? 0 then Ok (h, nl)
      else x ← ll_node h p;
           let '(h', nl') := ll_add h nl x.1 in
           ll_duplicate_loop fuel' h' x.2 nl'
  end.
Definition ll_duplicate h p : result (heap * Z) := ll_duplicate_loop (S (size h)) h p 0.

Fixpoint ll_destroy_loop (fuel : nat) h p : result heap :=
  match fuel with
  | O => Fail OutOfFuel
  | S fuel' =>
      if p =? 0 then Ok h
      else x ← ll_node h p; ll_destroy_loop fuel' (delete p h) x.2
  end.
Definition ll_destroy h p : result heap := ll_destroy_loop (S (size h)) h p.

(** [next = l->next; free(l); return next;] *)
Definition ll_delete_head h p : result (heap * Z) :=
  x ← ll_node h p; Ok (delete p h, x.2).

Fixpoint ll_to_list_loop (fuel : nat) h p : result (list A) :=
  match fuel with
  | O => Fail OutOfFuel
  | S fuel' =>
      if p =? 0 then Ok []
      else x ← ll_node h p; r ← ll_to_list_loop fuel' h x.2; Ok (x.1 :: r)
  end.

(** Unlink the first node that holds [v] (the [for] loop of the delete). *)
Fixpoint ll_delete_loop (fuel : nat) h (prev cur : Z) v : result heap :=
  match fuel with
  | O => Fail OutOfFuel
  | S fuel' =>
      if cur =? 0 then Ok h
      else c ← ll_node h cur;
           if decide (c.1 = v) then
             pr ← ll_node h prev; Ok (<[prev := (pr.1, c.2)]> h)
           else ll_delete_loop fuel' h cur c.2 v
  end.
Definition ll_delete h p v : result (heap * Z) :=
  if p =? 0 then Ok (h, p)
  else x ← ll_node h p;
       if decide (x.1 = v) then Ok (h, x.2)
       else h' ← ll_delete_loop (S (size h)) h p x.2 v; Ok (h', p).

(** ** The heap as a list *)
Fixpoint lrep h p (ns : list (Z * A)) : Prop :=
  match ns with
  | [] => p = 0
  | (q, v) :: ns' => p = q /\ q <> 0 /\ exists nx, h !! q = Some (v, nx) /\ lrep h nx ns'
  end.

Lemma lrep_det h p ns ns' : lrep h p ns -> lrep h p ns' -> ns = ns'.
Proof.
  revert p ns'. induction ns as [|[q v] ns IH]; intros p [|[q' v'] ns']; simpl; try done.
  - intros -> (? & ? & ?). congruence.
  - intros (-> & ? & ?) ->. congruence.
  - intros (-> & _ & nx & Hq & Hr) (<- & _ & nx' & Hq' & Hr'). simplify_eq.
    f_equal. by eapply IH.
Qed.

Lemma lrep_suffix h p ns1 q v ns2 : lrep h p (ns1 ++ (q, v) :: ns2) -> lrep h q ((q, v) :: ns2).
Proof.
  revert p. induction ns1 as [|[r w] ns1 IH]; intros p; simpl.
  - by intros (-> & ?).
  - intros (_ & _ & nx & _ & H). by eapply IH.
Qed.

(** A [NULL]-terminated chain has no repeated node. *)
Lemma lrep_NoDup h p ns : lrep h p ns -> NoDup ns.*1.
Proof.
  revert p. induction ns as [|[q v] ns IH]; intros p H; [constructor|].
  simpl. constructor.
  - intros ((q' & v') & E & Hin)%list_elem_of_fmap. simpl in E. subst q'.
    apply list_elem_of_split in Hin as (l1 & l2 & ->).
    assert (H' := lrep_suffix h p ((q, v) :: l1) q v' l2 H).
    simpl in H. destruct H as (-> & Hq & nx & Hh & Hr).
    assert (Hd : lrep h q ((q, v) :: l1 ++ (q, v') :: l2)) by (simpl; eauto 6).
    apply (lrep_det _ _ _ _ Hd) in H'. injection H' as _ E.
    apply (f_equal length) in E. rewrite length_app in E. simpl in E. lia.
  - simpl in H. destruct H as (_ & _ & nx & _ & Hr). by eapply IH.
Qed.

Lemma lrep_dom h p ns : lrep h p ns -> forall q, q ∈ ns.*1 -> q <> 0 /\ is_Some (h !! q).
Proof.
  revert p. induction ns as [|[r v] ns IH]; intros p; simpl; [set_solver|].
  intros (-> & Hr & nx & Hh & Hl) q [->|Hq]%elem_of_cons; [eauto|by eapply IH].
Qed.

(** The chain fits in the fuel of the loops. *)
Lemma lrep_fuel h p ns : lrep h p ns -> (length ns <= size h)%nat.
Proof.
  intros H. rewrite <- (length_fmap fst ns), <- size_dom.
  rewrite <- (size_list_to_set (C := gset Z)) by (by eapply lrep_NoDup).
  apply subseteq_size. intros q Hq%elem_of_list_to_set. apply elem_of_dom. by eapply lrep_dom.
Qed.

Lemma lrep_insert h p ns q n : q ∉ ns.*1 -> lrep h p ns -> lrep (<[q := n]> h) p ns.
Proof.
  revert p. induction ns as [|[r v] ns IH]; intros p Hq; simpl; [done|].
  simpl in Hq. apply not_elem_of_cons in Hq as [Hqr Hq].
  intros (-> & Hr & nx & Hh & Hl). split_and!; [done..|].
  exists nx. rewrite lookup_insert_ne by done. eauto.
Qed.

Lemma lrep_delete h p ns q : q ∉ ns.*1 -> lrep h p ns -> lrep (delete q h) p ns.
Proof.
  revert p. induction ns as [|[r v] ns IH]; intros p Hq; simpl; [done|].
  simpl in Hq. apply not_elem_of_cons in Hq as [Hqr Hq].
  intros (-> & Hr & nx & Hh & Hl). split_and!; [done..|].
  exists nx. rewrite lookup_delete_ne by done. eauto.
Qed.

Lemma ll_alloc_fresh h : ll_alloc h <> 0 /\ h !! ll_alloc h = None.
Proof.
  pose proof (is_fresh ({[0]} ∪ dom h : gset Z)) as H. fold (ll_alloc h) in H.
  apply not_elem_of_union in H as [H1 H2]. split; [set_solver|]. by apply not_elem_of_dom.
Qed.

Lemma ll_alloc_not_in h p ns : lrep h p ns -> ll_alloc h ∉ ns.*1.
Proof.
  intros H Hin. destruct (lrep_dom _ _ _ H _ Hin) as [_ [x Hx]].
  destruct (ll_alloc_fresh h). congruence.
Qed.

Lemma ll_node_lrep h p q v ns : lrep h p ((q, v) :: ns) ->
  (p =? 0) = false /\ exists nx, ll_node h p = Ok (v, nx) /\ lrep h nx ns.
Proof.
  simpl. intros (-> & Hq & nx & Hh & Hl). unfold ll_node.
  rewrite (proj2 (Z.eqb_neq _ _)) by done. rewrite Hh. eauto.
Qed.

(** Every list held by [h] is still held, unchanged, by [h']. *)
Definition lists_kept h h' : Prop := forall p ns, lrep h p ns -> lrep h' p ns.

(** ** The operations on lists *)
Definition add_unique (l : list A) (v : A) : list A :=
  if decide (v ∈ l) then l else v :: l.

Fixpoint delete_first (l : list A) (v : A) : list A :=
  match l with
  | [] => []
  | x :: l' => if decide (x = v) then l' else x :: delete_first l' v
  end.

Lemma elem_of_add_unique l v x : x ∈ add_unique l v <-> x = v \/ x ∈ l.
Proof. unfold add_unique. case_decide; set_solver. Qed.

Lemma NoDup_add_unique l v : NoDup l -> NoDup (add_unique l v).
Proof. unfold add_unique. case_decide; [done|by constructor]. Qed.

(** ** Refinement *)
Lemma ll_add_refines h p v ns :
  lrep h p ns ->
  lrep (ll_add h p v).1 (ll_add h p v).2 ((ll_alloc h, v) :: ns) /\
  lists_kept h (ll_add h p v).1.
Proof.
  intros H. destruct (ll_alloc_fresh h) as [Hq0 Hq]. unfold ll_add; simpl. split.
  - split_and!; [done..|]. exists p. rewrite lookup_insert_eq. split; [done|].
    apply lrep_insert; [by eapply ll_alloc_not_in|done].
  - intros p' ns' H'. apply lrep_insert; [by eapply ll_alloc_not_in|done].
Qed.

Lemma ll_contains_loop_refines h v ns : forall p fuel,
  lrep h p ns -> (length ns < fuel)%nat ->
  ll_contains_loop fuel h p v = Ok (bool_decide (v ∈ ns.*2)).
Proof.
  induction ns as [|[q w] ns IH]; intros p fuel H Hf; (destruct fuel as [|fuel]; [simpl in Hf; lia|]).
  - simpl in H. by subst p.
  - destruct (ll_node_lrep _ _ _ _ _ H) as (E & nx & En & Hr).
    cbn [ll_contains_loop]. rewrite E, En. cbn [mbind result_bind fst snd].
    destruct (decide (w = v)) as [->|Hv].
    + by rewrite bool_decide_eq_true_2 by (csimpl; by left).
    + rewrite IH by (done || simpl in Hf; lia). f_equal. apply bool_decide_ext.
      csimpl. rewrite elem_of_cons. naive_solver.
Qed.

Lemma ll_contains_refines h p v ns :
  lrep h p ns -> ll_contains h p v = Ok (bool_decide (v ∈ ns.*2)).
Proof.
  intros H. apply ll_contains_loop_refines; [done|]. apply lrep_fuel in H. lia.
Qed.

Lemma ll_add_unique_refines h p v ns :
  lrep h p ns ->
  exists h' p' ns', ll_add_unique h p v = Ok (h', p') /\ lrep h' p' ns' /\
    ns'.*2 = add_unique ns.*2 v /\ lists_kept h h' /\ (p' = p <-> v ∈ ns.*2).
Proof.
  intros H. unfold ll_add_unique, add_unique. rewrite (ll_contains_refines _ _ _ _ H). simpl.
  case_bool_decide as Hv.
  - exists h, p, ns. rewrite decide_True by done. split_and!; try done. by intros ? ?.
  - destruct (ll_add_refines h p v ns H) as [H1 H2].
    eexists _, _, _. split; [done|]. split; [exact H1|]. rewrite decide_False by done.
    split; [done|]. split; [done|]. split; [|done]. intros Ep. exfalso. simpl in Ep. subst p.
    destruct ns as [|[q w] ns]; simpl in H; destruct (ll_alloc_fresh h); [done|].
    destruct H as (<- & _ & nx & Hh & _). congruence.
Qed.

Lemma ll_size_refines h p ns : lrep h p ns -> ll_size h p = Ok (Z.of_nat (length ns)).
Proof.
  intros H. unfold ll_size. apply lrep_fuel in H as Hf.
  assert (Hgen : forall ns p fuel k, lrep h p ns -> (length ns < fuel)%nat ->
    ll_size_loop fuel h p k = Ok (k + Z.of_nat (length ns))).
  { clear. induction ns as [|[q w] ns IH]; intros p fuel k H Hf;
      (destruct fuel as [|fuel]; [simpl in Hf; lia|]).
    - simpl in H. subst p. simpl. f_equal. lia.
    - destruct (ll_node_lrep _ _ _ _ _ H) as (E & nx & En & Hr). simpl. rewrite E, En. simpl.
      rewrite IH by (done || simpl in Hf; lia). f_equal. lia. }
  rewrite (Hgen ns) by (done || lia). f_equal.
Qed.

Lemma ll_to_list_refines h ns : forall p fuel,
  lrep h p ns -> (length ns < fuel)%nat -> ll_to_list_loop fuel h p = Ok ns.*2.
Proof.
  induction ns as [|[q w] ns IH]; intros p fuel H Hf; (destruct fuel as [|fuel]; [simpl in Hf; lia|]).
  - simpl in H. by subst p.
  - destruct (ll_node_lrep _ _ _ _ _ H) as (E & nx & En & Hr). simpl. rewrite E, En. simpl.
    by rewrite IH by (done || simpl in Hf; lia).
Qed.

Lemma ll_duplicate_loop_refines ns : forall h p fuel nl ms,
  lrep h p ns -> lrep h nl ms -> (length ns < fuel)%nat ->
  exists h' p' ns', ll_duplicate_loop fuel h p nl = Ok (h', p') /\ lrep h' p' ns' /\
    ns'.*2 = reverse ns.*2 ++ ms.*2 /\ lists_kept h h'.
Proof.
  induction ns as [|[q w] ns IH]; intros h p fuel nl ms H Hm Hf; (destruct fuel as [|fuel]; [simpl in Hf; lia|]).
  - simpl in H. subst p. exists h, nl, ms. split_and!; try done. by intros ? ?.
  - destruct (ll_node_lrep _ _ _ _ _ H) as (E & nx & En & Hr).
    cbn [ll_duplicate_loop]. rewrite E, En. cbn [mbind result_bind fst snd].
    destruct (ll_add_refines h nl w ms Hm) as [H1 H2]. destruct (ll_add h nl w) as [h1 q1] eqn:Ea.
    cbn [fst snd] in H1, H2.
    edestruct (IH _ nx fuel _ _ (H2 _ _ Hr) H1) as (h' & p' & ns' & -> & Hl & Ev & Hk); [simpl in Hf; lia|].
    exists h', p', ns'. split_and!; try done.
    + rewrite Ev. simpl. rewrite reverse_cons. by rewrite <- app_assoc.
    + intros p0 n0 H0. apply Hk. by apply H2.
Qed.

Lemma ll_destroy_loop_refines ns : forall h p fuel,
  lrep h p ns -> (length ns < fuel)%nat ->
  exists h', ll_destroy_loop fuel h p = Ok h' /\
    forall q, h' !! q = if decide (q ∈ ns.*1) then None else h !! q.
Proof.
  induction ns as [|[q w] ns IH]; intros h p fuel H Hf; (destruct fuel as [|fuel]; [simpl in Hf; lia|]).
  - simpl in H. subst p. exists h. split; [done|]. intros q. case_decide; [set_solver|done].
  - pose proof (lrep_NoDup _ _ _ H) as [Hq Hnd]%NoDup_cons.
    destruct (ll_node_lrep _ _ _ _ _ H) as (E & nx & En & Hr).
    assert (p = q) as -> by apply H. cbn [ll_destroy_loop]. rewrite E, En. simpl.
    destruct (IH (delete q h) nx fuel) as (h' & -> & Hh');
      [by apply lrep_delete|simpl in Hf; lia|].
    exists h'. split; [done|]. intros r. rewrite Hh'. simpl. rewrite lookup_delete.
    repeat case_decide; subst; set_solver.
Qed.

Lemma ll_delete_loop_refines ns : forall h prev pv cur fuel v,
  lrep h prev ((prev, pv) :: ns) -> h !! prev = Some (pv, cur) -> (length ns < fuel)%nat ->
  exists h' ns', ll_delete_loop fuel h prev cur v = Ok h' /\
    lrep h' prev ((prev, pv) :: ns') /\ ns'.*2 = delete_first ns.*2 v /\
    (forall q, q ∉ prev :: ns.*1 -> h' !! q = h !! q) /\ (forall q, q ∈ ns'.*1 -> q ∈ ns.*1).
Proof.
  induction ns as [|[q w] ns IH]; intros h prev pv cur fuel v H Hp Hf;
    (destruct fuel as [|fuel]; [simpl in Hf; lia|]);
    pose proof (lrep_NoDup _ _ _ H) as Hnd; simpl in H;
    destruct H as (_ & Hp0 & nx & Hp' & Hr); assert (cur = nx) as -> by congruence; clear Hp.
  - simpl in Hr. subst nx. exists h, []. simpl. split_and!; eauto 6.
  - destruct (ll_node_lrep _ _ _ _ _ Hr) as (E & nx' & En & Hr').
    assert (nx = q) as -> by apply Hr. simpl. rewrite E, En. simpl.
    simpl in Hnd. apply NoDup_cons in Hnd as [Hpn Hnd]. apply NoDup_cons in Hnd as [Hqn Hnd].
    case_decide as Hv; subst.
    + unfold ll_node. rewrite (proj2 (Z.eqb_neq _ _)) by done. rewrite Hp'. simpl.
      eexists _, ns. split; [done|]. split.
      * split_and!; try done. exists nx'. rewrite lookup_insert_eq. split; [done|].
        apply lrep_insert; [set_solver|done].
      * split_and!; try done; [|set_solver]. intros r Hr0. apply lookup_insert_ne. set_solver.
    + assert (h !! q = Some (w, nx')) as Hq.
      { revert En. unfold ll_node. rewrite E. destruct (h !! q); naive_solver. }
      destruct (IH h q w nx' fuel v) as (h' & ns' & -> & Hl & Ev & Hk & Hsub);
        [exact Hr|exact Hq|simpl in Hf; lia|].
      exists h', ((q, w) :: ns'). split; [done|]. split.
      * split_and!; try done. exists q. split; [|done].
        rewrite Hk; [done|]. set_solver.
      * csimpl. rewrite Ev. split_and!; [done| |set_solver]. intros r Hr0. apply Hk. set_solver.
Qed.

Lemma ll_delete_refines h p v ns :
  lrep h p ns ->
  exists h' p' ns', ll_delete h p v = Ok (h', p') /\ lrep h' p' ns' /\
    ns'.*2 = delete_first ns.*2 v /\ (forall q, q ∉ ns.*1 -> h' !! q = h !! q).
Proof.
  intros H. unfold ll_delete. destruct ns as [|[q w] ns].
  - simpl in H. subst p. simpl. by exists h, 0, [].
  - destruct (ll_node_lrep _ _ _ _ _ H) as (E & nx & En & Hr). rewrite E, En. simpl.
    case_decide as Hv; subst.
    + exists h, nx, ns. done.
    + assert (p = q) as -> by apply H. assert (h !! q = Some (w, nx)) as Hq.
      { revert En. unfold ll_node. rewrite E. destruct (h !! q); naive_solver. }
      destruct (ll_delete_loop_refines ns h q w nx (S (size h)) v H Hq)
        as (h' & ns' & Ed & Hl & Ev & Hk & _).
      { apply lrep_fuel in Hr. lia. }
      cbn [ll_delete_loop] in *.
      rewrite Ed.
      exists h', q, ((q, w) :: ns'). csimpl. rewrite Ev. split; [done|]. by split.
Qed.
End linked_list.

(** * Sorted insertion into lists of integers *)
Section sorted_list.
Implicit Types (h : gmap Z (Z * Z)) (p v : Z).

(** The loop that looks for the place of [v] after [prev], and the insertion
    between [prev] and [cur] that follows it. *)
Fixpoint ll_insert_loop (fuel : nat) h (prev cur v : Z) : result (gmap Z (Z * Z)) :=
  let link h :=
    let node := ll_alloc h in
    pr ← ll_node h prev;
    Ok (<[prev := (pr.1, node)]> (<[node := (v, cur)]> h)) in
  match fuel with
  | O => Fail OutOfFuel
  | S fuel' =>
      if cur =? 0 then link h
      else c ← ll_node h cur;
           if c.1 =? v then Ok h
           else if v <? c.1 then link h
           else ll_insert_loop fuel' h cur c.2 v
  end.

Definition ll_add_sort_unique h p v : result (gmap Z (Z * Z) * Z) :=
  if p =? 0 then Ok (ll_add h p v)
  else x ← ll_node h p;
       if v <? x.1 then Ok (ll_add h p v)
       else if x.1 =? v then Ok (h, p)
       else h' ← ll_insert_loop (S (size h)) h p x.2 v; Ok (h', p).

Fixpoint add_sort_unique (l : list Z) (v : Z) : list Z :=
  match l with
  | [] => [v]
  | x :: l' => if v <? x then v :: l else if x =? v then l else x :: add_sort_unique l' v
  end.

Lemma elem_of_add_sort_unique l v x : x ∈ add_sort_unique l v <-> x = v \/ x ∈ l.
Proof.
  induction l as [|y l IH]; simpl; [set_solver|].
  destruct (Z.ltb_spec v y), (Z.eqb_spec y v); subst; set_solver.
Qed.

Lemma Sorted_add_sort_unique l v :
  StronglySorted Z.lt l -> StronglySorted Z.lt (add_sort_unique l v).
Proof.
  induction l as [|y l IH]; intros H; simpl; [by repeat constructor|].
  inversion_clear H as [|? ? Hs Hf].
  destruct (Z.ltb_spec v y), (Z.eqb_spec y v); subst; try lia; try (by constructor).
  - constructor; [by constructor|]. constructor; [done|].
    eapply Forall_impl; [done|]. simpl. lia.
  - constructor; [by apply IH|]. apply Forall_forall. intros x Hx.
    apply elem_of_add_sort_unique in Hx as [->|Hx]; [lia|]. by apply (proj1 (Forall_forall _ _) Hf).
Qed.

Lemma add_sort_unique_le l v : (length (add_sort_unique l v) <= S (length l))%nat.
Proof.
  induction l as [|y l IH]; simpl; [done|].
  destruct (Z.ltb_spec v y), (Z.eqb_spec y v); simpl; lia.
Qed.

(** Linking a fresh node between [prev] and the rest of its list. *)
Lemma link_after h prev pv nx ns v :
  lrep h prev ((prev, pv) :: ns) -> h !! prev = Some (pv, nx) ->
  let node := ll_alloc h in
  lrep (<[prev := (pv, node)]> (<[node := (v, nx)]> h)) prev ((prev, pv) :: (node, v) :: ns).
Proof.
  intros H Hp node. pose proof (ll_alloc_not_in _ _ _ H) as Hfr.
  pose proof (lrep_NoDup _ _ _ H) as Hnd. csimpl in *.
  apply NoDup_cons in Hnd as [Hpn Hnd]. apply not_elem_of_cons in Hfr as [Hfp Hfn].
  destruct H as (_ & Hp0 & nx' & Hp' & Hr). assert (nx' = nx) as -> by congruence.
  split_and!; try done. exists node. rewrite lookup_insert_eq. split; [done|].
  split_and!; [done|by apply ll_alloc_fresh|]. exists nx.
  rewrite lookup_insert_ne, lookup_insert_eq by done. split; [done|].
  by do 2 (apply lrep_insert; [done|]).
Qed.

Lemma ll_insert_loop_refines ns : forall h prev pv cur fuel v,
  lrep h prev ((prev, pv) :: ns) -> h !! prev = Some (pv, cur) -> (length ns < fuel)%nat ->
  exists h' ns', ll_insert_loop fuel h prev cur v = Ok h' /\
    lrep h' prev ((prev, pv) :: ns') /\ ns'.*2 = add_sort_unique ns.*2 v /\
    (forall q, q ∉ prev :: ns.*1 -> q <> ll_alloc h -> h' !! q = h !! q) /\
    (forall q, q ∈ ns'.*1 -> q ∈ ns.*1 \/ q = ll_alloc h).
Proof.
  induction ns as [|[q w] ns IH]; intros h prev pv cur fuel v H Hp Hf;
    (destruct fuel as [|fuel]; [simpl in Hf; lia|]);
    pose proof (link_after h prev pv cur _ v H Hp) as Hlink; cbv zeta in Hlink;
    assert (ll_node h prev = Ok (pv, cur)) as Enp
      by (unfold ll_node; rewrite (proj2 (Z.eqb_neq _ _)), Hp by apply H; done).
  - assert (cur = 0) as -> by (destruct H as (_ & _ & nx & Hnx & Hr); simpl in Hr; congruence).
    cbn [ll_insert_loop]. rewrite Enp. eexists _, [(ll_alloc h, v)].
    split; [done|]. split; [exact Hlink|].
    csimpl. split_and!; [done| |set_solver]. intros r Hr Hr'. rewrite !lookup_insert_ne; set_solver.
  - pose proof (lrep_NoDup _ _ _ H) as Hnd. csimpl in Hnd.
    assert (lrep h cur ((q, w) :: ns)) as Hc
      by (destruct H as (_ & _ & nx & Hnx & Hr); congruence).
    destruct (ll_node_lrep _ _ _ _ _ Hc) as (E & nx' & En & Hr').
    assert (cur = q) as -> by apply Hc.
    cbn [ll_insert_loop]. rewrite E, En, Enp. cbn [mbind result_bind fst snd]. csimpl.
    destruct (Z.eqb_spec w v) as [->|Hne].
    + exists h, ((q, v) :: ns). split; [done|]. split; [exact H|].
      csimpl. rewrite Z.ltb_irrefl. split_and!; [done..|]. by left.
    + destruct (Z.ltb_spec v w).
      * eexists _, ((ll_alloc h, v) :: (q, w) :: ns). split; [done|]. split; [exact Hlink|].
        csimpl. split_and!; [done| |set_solver]. intros r Hr Hr0. rewrite !lookup_insert_ne; set_solver.
      * assert (h !! q = Some (w, nx')) as Hq.
        { revert En. unfold ll_node. rewrite E. destruct (h !! q); naive_solver. }
        destruct (IH h q w nx' fuel v Hc Hq) as (h' & ns' & -> & Hl & Ev & Hk & Hsub);
          [simpl in Hf; lia|].
        exists h', ((q, w) :: ns'). split; [done|].
        apply NoDup_cons in Hnd as [Hpn Hnd]. split; [|split; [|split]].
        -- destruct H as (_ & Hp0 & _). split_and!; [done..|]. exists q. split; [|done].
           rewrite Hk; [done|exact Hpn|].
           intros ->. destruct (ll_alloc_fresh h). congruence.
        -- csimpl. by rewrite Ev.
        -- csimpl. intros r [_ Hr]%not_elem_of_cons Hr0. by apply Hk.
        -- csimpl. intros r [->|Hr]%elem_of_cons; [by left; left|].
           destruct (Hsub _ Hr); [left; by right|by right].
Qed.

Lemma ll_add_sort_unique_refines h p v ns :
  lrep h p ns ->
  exists h' p' ns', ll_add_sort_unique h p v = Ok (h', p') /\ lrep h' p' ns' /\
    ns'.*2 = add_sort_unique ns.*2 v /\
    (forall q, q ∉ ns.*1 -> q <> ll_alloc h -> h' !! q = h !! q).
Proof.
  intros H. destruct (ll_add_refines h p v ns H) as [Ha _].
  assert (Hadd : forall q, q <> ll_alloc h -> (ll_add h p v).1 !! q = h !! q)
    by (intros q Hq; by apply lookup_insert_ne).
  unfold ll_add_sort_unique. destruct ns as [|[q w] ns].
  - assert (p = 0) as -> by done. simpl. eexists _, _, [(ll_alloc h, v)]. by split_and!; [|exact Ha|..]; eauto.
  - destruct (ll_node_lrep _ _ _ _ _ H) as (E & nx & En & Hr).
    assert (p = q) as -> by apply H. rewrite E, En. cbn [mbind result_bind fst snd].
    replace (((q, w) :: ns).*2) with (w :: ns.*2) by done. cbn [add_sort_unique].
    destruct (Z.ltb_spec v w); [|destruct (Z.eqb_spec w v) as [->|Hne]].
    + eexists _, _, ((ll_alloc h, v) :: (q, w) :: ns).
      split; [done|]. split; [exact Ha|]. csimpl. by split; eauto.
    + eexists h, q, ((q, v) :: ns). by split_and!; [|exact H|..].
    + assert (h !! q = Some (w, nx)) as Hq.
      { revert En. unfold ll_node. rewrite E. destruct (h !! q); naive_solver. }
      destruct (ll_insert_loop_refines ns h q w nx (S (size h)) v H Hq)
        as (h' & ns' & Ei & Hl & Ev & Hk & _); [apply lrep_fuel in Hr; lia|].
      cbn [ll_insert_loop] in *. rewrite Ei.
      exists h', q, ((q, w) :: ns'). split; [done|]. split; [exact Hl|].
      csimpl. rewrite Ev. by split.
Qed.
End sorted_list.
