(* ===== verification/Lists.v ===== *)
(** * The list types of the scan code

    NoDBList.c (pointers and ints), NoDBCol.c (column numbers) and NoDBRow.c
    (row numbers): each C function over its own node type, on the node heap of
    LinkedList.v. A list is the address of its first node, [NULL] (0) when it is
    empty; an element is an integer (a pointer is its address). The [Arena]
    variants take the node from an arena instead of [malloc]; both hand out a
    block that no list uses (Arena.v proves it of the arenas), which is all the
    node heap needs, so the two variants run the same definition on the heap the
    node comes from. *)
From S2P Require Import Prelude LinkedList.

Abbreviation node_heap := (gmap Z (Z * Z)).
Implicit Types (h : node_heap) (l p v : Z).

(** ** NoDBList.c: lists of pointers *)
Definition NoDBListDestroy h l : result node_heap := ll_destroy h l.
Definition NoDBListAdd h l (ptr : Z) : node_heap * Z := ll_add h l ptr.
Definition NoDBListArenaAdd h l (ptr : Z) : node_heap * Z := ll_add h l ptr.
Definition NoDBListSize h l : result Z := ll_size h l.

(** ** NoDBList.c: lists of ints *)
Definition NoDBIntListDestroy h l : result node_heap := ll_destroy h l.
Definition NoDBIntListContains h l v : result bool := ll_contains h l v.
Definition NoDBIntListAdd h l v : node_heap * Z := ll_add h l v.
Definition NoDBIntListArenaAdd h l v : node_heap * Z := ll_add h l v.
Definition NoDBIntListArenaAddUnique h l v : result (node_heap * Z) :=
  b ← NoDBIntListContains h l v;
  if (b : bool) then Ok (h, l) else Ok (NoDBIntListArenaAdd h l v).
Definition NoDBIntListDelete h l : result (node_heap * Z) := ll_delete_head h l.
Definition NoDBIntListSize h l : result Z := ll_size h l.
Definition NoDBIntListDuplicate h l : result (node_heap * Z) := ll_duplicate h l.
Definition NoDBIntListArenaDuplicate h l : result (node_heap * Z) := ll_duplicate h l.

(** ** Copying a list into an array

    [while (l) { v[i++] = l->v; l = l->next; }] *)
Fixpoint copy_loop (fuel : nat) h l (i : Z) (a : arr Z) : result (arr Z) :=
  match fuel with
  | O => Fail OutOfFuel
  | S fuel' =>
      if l =? 0 then Ok a
      else x ← ll_node h l;
           a' ← arr_set a i x.1;
           copy_loop fuel' h x.2 (i + 1) a'
  end.

Definition NoDBIntVectorFromList h l : result (arr Z) :=
  n ← NoDBIntListSize h l;
  copy_loop (S (size h)) h l 0 (arr_alloc n).
Definition NoDBIntVectorArenaFromList h l : result (arr Z) :=
  n ← NoDBIntListSize h l;
  copy_loop (S (size h)) h l 0 (arr_alloc n).

(** ** NoDBCol.c: lists of columns *)
Definition NoDBColListDestroy h l : result node_heap := ll_destroy h l.
Definition NoDBColListContains h l (col : Z) : result bool := ll_contains h l col.

Fixpoint ContainsColList_loop (fuel : nat) h l subset : result bool :=
  match fuel with
  | O => Fail OutOfFuel
  | S fuel' =>
      if subset =? 0 then Ok true
      else x ← ll_node h subset;
           b ← NoDBColListContains h l x.1;
           if negb b then Ok false else ContainsColList_loop fuel' h l x.2
  end.
Definition NoDBColListContainsColList h l subset : result bool :=
  ContainsColList_loop (S (size h)) h l subset.

Definition NoDBColListAdd h l (col : Z) : node_heap * Z := ll_add h l col.
Definition NoDBColListArenaAdd h l (col : Z) : node_heap * Z := ll_add h l col.
Definition NoDBColListAddUnique h l (col : Z) : result (node_heap * Z) :=
  b ← NoDBColListContains h l col;
  if (b : bool) then Ok (h, l) else Ok (NoDBColListAdd h l col).
Definition NoDBColListArenaAddUnique h l (col : Z) : result (node_heap * Z) :=
  b ← NoDBColListContains h l col;
  if (b : bool) then Ok (h, l) else Ok (NoDBColListArenaAdd h l col).
Definition NoDBColListArenaAddSortUnique h l (col : Z) : result (node_heap * Z) :=
  ll_add_sort_unique h l col.
Definition NoDBColListArenaDelete h l (col : Z) : result (node_heap * Z) := ll_delete h l col.
Definition NoDBColListSize h l : result Z := ll_size h l.
Definition NoDBColListDuplicate h l : result (node_heap * Z) := ll_duplicate h l.
Definition NoDBColListArenaDuplicate h l : result (node_heap * Z) := ll_duplicate h l.

(** ** NoDBRow.c: lists of rows *)
Definition NoDBRowListDestroy h l : result node_heap := ll_destroy h l.
Definition NoDBRowListAddUnique h l (row : Z) : result (node_heap * Z) := ll_add_unique h l row.
Definition NoDBRowListArenaAddUnique h l (row : Z) : result (node_heap * Z) :=
  ll_add_unique h l row.
Definition NoDBRowListArenaAddSortUnique h l (row : Z) : result (node_heap * Z) :=
  ll_add_sort_unique h l row.
Definition NoDBRowListSize h l : result Z := ll_size h l.

(** ** Lemmas *)
Lemma copy_loop_store h ns : forall l fuel i a,
  lrep h l ns -> (length ns < fuel)%nat -> copy_loop fuel h l i a = arr_store ns.*2 i a.
Proof.
  induction ns as [|[q w] ns IH]; intros l fuel i a H Hf;
    (destruct fuel as [|fuel]; [simpl in Hf; lia|]).
  - simpl in H. by subst l.
  - destruct (ll_node_lrep _ _ _ _ _ H) as (E & nx & En & Hr). cbn [copy_loop].
    rewrite E, En. cbn [mbind result_bind fst snd fmap list_fmap arr_store].
    destruct (arr_set a i w) as [a'|e]; [|done]. cbn [mbind result_bind].
    apply IH; [done|]. simpl in Hf. lia.
Qed.

(** The array made of a list holds the elements of the list in their order. *)
Lemma copy_loop_spec h l ns :
  lrep h l ns ->
  copy_loop (S (size h)) h l 0 (arr_alloc (Z.of_nat (length ns))) = Ok (Some <$> ns.*2).
Proof.
  intros H. rewrite (copy_loop_store h ns) by (done || apply lrep_fuel in H; lia).
  rewrite <- (length_fmap snd). apply arr_store_spec.
Qed.

Lemma ContainsColList_loop_spec h l ms ns : forall subset fuel,
  lrep h l ms -> lrep h subset ns -> (length ns < fuel)%nat ->
  ContainsColList_loop fuel h l subset = Ok (bool_decide (ns.*2 ⊆ ms.*2)).
Proof.
  induction ns as [|[q w] ns IH]; intros subset fuel Hl H Hf;
    (destruct fuel as [|fuel]; [simpl in Hf; lia|]).
  - simpl in H. subst subset. cbn [ContainsColList_loop]. rewrite Z.eqb_refl.
    by rewrite bool_decide_eq_true_2 by set_solver.
  - destruct (ll_node_lrep _ _ _ _ _ H) as (E & nx & En & Hr). cbn [ContainsColList_loop].
    rewrite E, En. cbn [mbind result_bind fst snd]. unfold NoDBColListContains.
    rewrite (ll_contains_refines _ _ _ _ Hl). cbn [mbind result_bind].
    destruct (bool_decide (w ∈ ms.*2)) eqn:Ew; cbn [negb];
      [apply bool_decide_eq_true in Ew|apply bool_decide_eq_false in Ew].
    + rewrite IH by (done || simpl in Hf; lia). f_equal. apply bool_decide_ext.
      csimpl. set_solver.
    + rewrite bool_decide_eq_false_2; [done|]. csimpl. set_solver.
Qed.

(** ** Properties *)

(** [NoDBColListArenaAddSortUnique] keeps a strictly increasing column list
    strictly increasing, adds exactly the column it is given (once), and writes
    no node outside the list but the new one; the run never follows a wild
    pointer. *)
Theorem NoDBColListArenaAddSortUnique_correct h l col ns :
  lrep h l ns -> StronglySorted Z.lt ns.*2 ->
  exists h' l' ns', NoDBColListArenaAddSortUnique h l col = Ok (h', l') /\
    lrep h' l' ns' /\ StronglySorted Z.lt ns'.*2 /\
    (forall c, c ∈ ns'.*2 <-> c = col \/ c ∈ ns.*2) /\
    (forall q, q ∉ ns.*1 -> q <> ll_alloc h -> h' !! q = h !! q).
Proof.
  intros H Hs. destruct (ll_add_sort_unique_refines h l col ns H)
    as (h' & l' & ns' & E & Hr & Ev & Hk).
  exists h', l', ns'. rewrite Ev. split_and!; try done.
  - by apply Sorted_add_sort_unique.
  - intros c. apply elem_of_add_sort_unique.
Qed.

(** [NoDBColListArenaDelete] unlinks the first node with the given column,
    keeps the other columns in order and leaves every node of the other lists
    as it was. *)
Theorem NoDBColListArenaDelete_correct h l col ns :
  lrep h l ns ->
  exists h' l' ns', NoDBColListArenaDelete h l col = Ok (h', l') /\
    lrep h' l' ns' /\ ns'.*2 = delete_first ns.*2 col /\
    (forall q, q ∉ ns.*1 -> h' !! q = h !! q).
Proof. apply ll_delete_refines. Qed.

(** [NoDBColListDuplicate] makes a fresh list with the same columns in the
    reverse order and leaves every existing list intact. *)
Theorem NoDBColListDuplicate_correct h l ns :
  lrep h l ns ->
  exists h' l' ns', NoDBColListDuplicate h l = Ok (h', l') /\
    lrep h' l' ns' /\ ns'.*2 = reverse ns.*2 /\ lists_kept h h'.
Proof.
  intros H. destruct (ll_duplicate_loop_refines ns h l (S (size h)) 0 [] H)
    as (h' & l' & ns' & E & Hr & Ev & Hk); [done|apply lrep_fuel in H; lia|].
  exists h', l', ns'. by rewrite Ev, app_nil_r.
Qed.

(** [NoDBColListContainsColList] answers whether every column of the second
    list is in the first. *)
Theorem NoDBColListContainsColList_correct h l subset ms ns :
  lrep h l ms -> lrep h subset ns ->
  NoDBColListContainsColList h l subset = Ok (bool_decide (ns.*2 ⊆ ms.*2)).
Proof.
  intros Hl Hs. apply ContainsColList_loop_spec; [done..|]. apply lrep_fuel in Hs. lia.
Qed.

(** ** Witnesses *)
Definition lists_ex : node_heap := <[1 := (3, 2)]> (<[2 := (7, 0)]> ∅).

Lemma lists_ex_rep : lrep lists_ex 1 [(1, 3); (2, 7)].
Proof. simpl. split_and!; try done. exists 2. split_and!; try done. by exists 0. Qed.

Lemma NoDBColListArenaAddSortUnique_witness :
  exists h' l' ns', NoDBColListArenaAddSortUnique lists_ex 1 5 = Ok (h', l') /\
    lrep h' l' ns' /\ StronglySorted Z.lt ns'.*2 /\
    (forall c, c ∈ ns'.*2 <-> c = 5 \/ c ∈ [3; 7]) /\
    (forall q, q ∉ [1; 2] -> q <> ll_alloc lists_ex -> h' !! q = lists_ex !! q).
Proof.
  apply (NoDBColListArenaAddSortUnique_correct lists_ex 1 5 [(1, 3); (2, 7)]).
  - apply lists_ex_rep.
  - repeat constructor.
Defined.

Lemma NoDBColListArenaDelete_witness :
  exists h' l' ns', NoDBColListArenaDelete lists_ex 1 7 = Ok (h', l') /\
    lrep h' l' ns' /\ ns'.*2 = [3] /\ (forall q, q ∉ [1; 2] -> h' !! q = lists_ex !! q).
Proof. apply (NoDBColListArenaDelete_correct lists_ex 1 7 [(1, 3); (2, 7)]), lists_ex_rep. Defined.

Lemma NoDBColListDuplicate_witness :
  exists h' l' ns', NoDBColListDuplicate lists_ex 1 = Ok (h', l') /\
    lrep h' l' ns' /\ ns'.*2 = [7; 3] /\ lists_kept lists_ex h'.
Proof. apply (NoDBColListDuplicate_correct lists_ex 1 [(1, 3); (2, 7)]), lists_ex_rep. Defined.

Lemma NoDBColListContainsColList_witness :
  NoDBColListContainsColList lists_ex 1 2 = Ok (bool_decide ([7] ⊆ [3; 7])).
Proof.
  apply (NoDBColListContainsColList_correct lists_ex 1 2 [(1, 3); (2, 7)] [(2, 7)]).
  - apply lists_ex_rep.
  - simpl. split_and!; try done. by exists 0.
Defined.
