(* ===== verification/Vectors.v ===== *)
(** * Column and row vectors

    The vector half of NoDBCol.c and NoDBRow.c and the sort of NoDBSort.c. A
    vector is its size and its block of cells; reading or writing beyond the
    block fails. *)
From S2P Require Import Prelude LinkedList Lists.

(** ** [qsort]

    The standard library's [qsort] permutes the block so that no element
    compares greater than the one after it, for a comparison that is a total
    order. Insertion by the comparison is one such sort; what it does with
    another comparison is not promised by the C standard and not used here. *)
Fixpoint qsort_insert (compar : Z -> Z -> Z) (x : Z) (l : list Z) : list Z :=
  match l with
  | [] => [x]
  | y :: l' => if compar x y <=? 0 then x :: l else y :: qsort_insert compar x l'
  end.
Definition qsort (compar : Z -> Z -> Z) (l : list Z) : list Z :=
  foldr (qsort_insert compar) [] l.

(** The sort reads every cell of the block, so all must be initialised. *)
Definition NoDBQuickSort (base : arr Z) (nmemb : Z) (compar : Z -> Z -> Z) : result (arr Z) :=
  if Z.of_nat (length base) <? nmemb then Fail OutOfBounds
  else match mapM id (take (Z.to_nat nmemb) base) with
  | Some l => Ok ((Some <$> qsort compar l) ++ drop (Z.to_nat nmemb) base)
  | None => Fail Indeterminate
  end.

(** ** NoDBCol.c *)
Record NoDBColVector_t := { cv_size : Z; cv_cols : arr Z }.
Implicit Types (cv : NoDBColVector_t).

Definition NoDBColVectorInit (size : Z) : NoDBColVector_t :=
  {| cv_size := size; cv_cols := if size =? 0 then NULL else arr_alloc size |}.
Definition NoDBColVectorArenaInit (size : Z) : NoDBColVector_t :=
  {| cv_size := size; cv_cols := if size =? 0 then NULL else arr_alloc size |}.

Definition NoDBColVectorIndex cv (col : Z) : result Z :=
  search_range 0 (cv_size cv)
    (fun i => c ← arr_get (cv_cols cv) i; Ok (if c =? col then Some i else None)) (-1).

Fixpoint BinarySearch_loop (fuel : nat) (cols : arr Z) (col min max : Z) : result Z :=
  match fuel with
  | O => Fail OutOfFuel
  | S fuel' =>
      if max <? min then Ok (-1)
      else let i := min + Z.quot (max - min) 2 in
           c ← arr_get cols i;
           if c <? col then BinarySearch_loop fuel' cols col (i + 1) max
           else if col <? c then BinarySearch_loop fuel' cols col min (i - 1)
           else Ok i
  end.
Definition NoDBColVectorBinarySearch cv (col : Z) : result Z :=
  BinarySearch_loop (Z.to_nat (cv_size cv) + 2) (cv_cols cv) col 0 (cv_size cv).

Definition NoDBColVectorGet cv (i : Z) : result Z := arr_get (cv_cols cv) i.
Definition NoDBColVectorSet cv (i col : Z) : result NoDBColVector_t :=
  a ← arr_set (cv_cols cv) i col; Ok {| cv_size := cv_size cv; cv_cols := a |}.
Definition NoDBColVectorSize cv : Z := cv_size cv.

Definition NoDBColVectorContains cv (col : Z) : result bool :=
  search_range 0 (cv_size cv)
    (fun i => c ← arr_get (cv_cols cv) i; Ok (if c =? col then Some true else None)) false.

(** [arg] is the state that the callback updates. *)
Definition NoDBColVectorApply {S} cv (fn : Z -> S -> result S) (arg : S) : result S :=
  for_range 0 (cv_size cv) (fun i s => c ← arr_get (cv_cols cv) i; fn c s) arg.

(** The difference of two ints, at 32 bits. *)
Definition col_comp (a b : Z) : Z := i32 (a - b).

Definition NoDBColVectorSort cv : result NoDBColVector_t :=
  a ← NoDBQuickSort (cv_cols cv) (cv_size cv) col_comp;
  Ok {| cv_size := cv_size cv; cv_cols := a |}.

Definition NoDBColVectorFromList (h : node_heap) (l : Z) : result NoDBColVector_t :=
  n ← NoDBColListSize h l;
  let v := NoDBColVectorInit n in
  a ← copy_loop (S (size h)) h l 0 (cv_cols v);
  Ok {| cv_size := cv_size v; cv_cols := a |}.
Definition NoDBColVectorArenaFromList (h : node_heap) (l : Z) : result NoDBColVector_t :=
  n ← NoDBColListSize h l;
  let v := NoDBColVectorArenaInit n in
  a ← copy_loop (S (size h)) h l 0 (cv_cols v);
  Ok {| cv_size := cv_size v; cv_cols := a |}.

(** ** NoDBRow.c *)
Record NoDBRowVector_t := { rv_size : Z; rv_rows : arr Z }.
Implicit Types (rv : NoDBRowVector_t).

Definition NoDBRowVectorInit (size : Z) : NoDBRowVector_t :=
  {| rv_size := size; rv_rows := if size =? 0 then NULL else arr_alloc size |}.
Definition NoDBRowVectorArenaInit (size : Z) : NoDBRowVector_t :=
  {| rv_size := size; rv_rows := if size =? 0 then NULL else arr_alloc size |}.
Definition NoDBRowVectorGet rv (i : Z) : result Z := arr_get (rv_rows rv) i.
Definition NoDBRowVectorSet rv (i row : Z) : result NoDBRowVector_t :=
  a ← arr_set (rv_rows rv) i row; Ok {| rv_size := rv_size rv; rv_rows := a |}.
Definition NoDBRowVectorSize rv : Z := rv_size rv.
Definition NoDBRowVectorApply {S} rv (fn : Z -> S -> result S) (arg : S) : result S :=
  for_range 0 (rv_size rv) (fun i s => r ← arr_get (rv_rows rv) i; fn r s) arg.

(** The difference of two unsigned longs, returned as an int. *)
Definition row_comp (a b : Z) : Z := i32 (u64 (a - b)).

Definition NoDBRowVectorSort rv : result NoDBRowVector_t :=
  a ← NoDBQuickSort (rv_rows rv) (rv_size rv) row_comp;
  Ok {| rv_size := rv_size rv; rv_rows := a |}.

Definition NoDBRowVectorFromList (h : node_heap) (l : Z) : result NoDBRowVector_t :=
  n ← NoDBRowListSize h l;
  let v := NoDBRowVectorInit n in
  a ← copy_loop (S (size h)) h l 0 (rv_rows v);
  Ok {| rv_size := rv_size v; rv_rows := a |}.
Definition NoDBRowVectorArenaFromList (h : node_heap) (l : Z) : result NoDBRowVector_t :=
  n ← NoDBRowListSize h l;
  let v := NoDBRowVectorArenaInit n in
  a ← copy_loop (S (size h)) h l 0 (rv_rows v);
  Ok {| rv_size := rv_size v; rv_rows := a |}.

(** ** Abstraction: the vector that holds a list of columns or rows *)
Definition col_vector (l : list Z) : NoDBColVector_t :=
  {| cv_size := Z.of_nat (length l); cv_cols := Some <$> l |}.
Definition row_vector (l : list Z) : NoDBRowVector_t :=
  {| rv_size := Z.of_nat (length l); rv_rows := Some <$> l |}.

(** ** Linear searches *)
Lemma col_read (l : list Z) i :
  0 <= i < Z.of_nat (length l) -> exists c, l !! Z.to_nat i = Some c /\
    arr_get (Some <$> l) i = Ok c.
Proof.
  intros Hi. destruct (lookup_lt_is_Some_2 l (Z.to_nat i)) as [c Hc]; [lia|].
  exists c. split; [done|]. apply arr_get_holds; [lia|done].
Qed.

Lemma search_cols {R} (l : list Z) (col : Z) (res : Z -> R) (d : R) :
  (exists i, l !! i = Some col /\ (forall j, (j < i)%nat -> l !! j <> Some col) /\
     search_range 0 (Z.of_nat (length l)) (fun i => c ← arr_get (Some <$> l) i;
       Ok (if c =? col then Some (res i) else None)) d = Ok (res (Z.of_nat i))) \/
  (col ∉ l /\ search_range 0 (Z.of_nat (length l)) (fun i => c ← arr_get (Some <$> l) i;
       Ok (if c =? col then Some (res i) else None)) d = Ok d).
Proof.
  destruct (search_range_pure 0 (Z.of_nat (length l)) (fun i => c ← arr_get (Some <$> l) i;
    Ok (if c =? col then Some (res i) else None))
    (fun i => if default (col + 1) (l !! Z.to_nat i) =? col then Some (res i) else None) d)
    as [(i & r & Hi & Hg & Hj & E)|(Hn & E)].
  - intros i Hi. destruct (col_read l i Hi) as (c & Hc & ->). by rewrite Hc.
  - left. destruct (col_read l i Hi) as (c & Hc & _). rewrite Hc in Hg. simpl in Hg.
    destruct (Z.eqb_spec c col) as [Ec|]; [|done]. subst c. injection Hg as <-.
    exists (Z.to_nat i). rewrite Z2Nat.id by lia. split_and!; [done| |done].
    intros j Hlt Hl. specialize (Hj (Z.of_nat j)). rewrite Nat2Z.id, Hl in Hj.
    simpl in Hj. rewrite Z.eqb_refl in Hj. discriminate Hj. lia.
  - right. split; [|done]. intros [i Hi]%list_elem_of_lookup.
    specialize (Hn (Z.of_nat i)). rewrite Nat2Z.id, Hi in Hn. simpl in Hn.
    rewrite Z.eqb_refl in Hn. apply lookup_lt_Some in Hi. discriminate Hn. lia.
Qed.

Lemma NoDBColVectorContains_spec (l : list Z) (col : Z) :
  NoDBColVectorContains (col_vector l) col = Ok (bool_decide (col ∈ l)).
Proof.
  destruct (search_cols l col (fun _ => true) false) as [(i & Hi & _ & E)|(Hn & E)];
    unfold NoDBColVectorContains; cbn [cv_size cv_cols col_vector]; rewrite E; f_equal.
  - symmetry. apply bool_decide_eq_true_2. by eapply list_elem_of_lookup_2.
  - symmetry. by apply bool_decide_eq_false_2.
Qed.

(** ** Vectors that a loop fills: the first columns of a vector of [n] are set *)
Definition partial (n : nat) (l : list Z) : NoDBColVector_t :=
  {| cv_size := Z.of_nat n; cv_cols := (Some <$> l) ++ replicate (n - length l) None |}.

Lemma partial_set n l c : (length l < n)%nat ->
  NoDBColVectorSet (partial n l) (Z.of_nat (length l)) c = Ok (partial n (l ++ [c])).
Proof.
  intros Hl. unfold NoDBColVectorSet, partial. cbn [cv_cols cv_size].
  rewrite arr_set_Ok by (rewrite length_app, length_fmap, length_replicate; lia). cbn [mbind result_bind]. do 2 f_equal.
  rewrite Nat2Z.id. rewrite insert_app_r_alt by (by rewrite length_fmap).
  rewrite length_fmap, Nat.sub_diag, fmap_app, <- app_assoc. f_equal.
  replace (n - length l)%nat with (S (n - length (l ++ [c])))%nat by (rewrite length_app; simpl; lia). done.
Qed.

Lemma partial_empty (n : nat) : NoDBColVectorInit (Z.of_nat n) = partial n [].
Proof.
  unfold NoDBColVectorInit, partial, arr_alloc. rewrite Nat2Z.id. cbn [length]. rewrite Nat.sub_0_r. by destruct n.
Qed.

Lemma partial_full l : partial (length l) l = col_vector l.
Proof. unfold partial, col_vector. by rewrite Nat.sub_diag, app_nil_r. Qed.

Lemma filter_prefix {A} (P : A -> Prop) `{!forall y, Decision (P y)} (l : list A) k c :
  l !! k = Some c -> P c -> (length (filter P (take k l)) < length (filter P l))%nat.
Proof.
  intros Hc HP. rewrite <- (take_drop_middle l k c Hc) at 2. rewrite filter_app, filter_cons, decide_True by done.
  rewrite length_app. simpl. lia.
Qed.

Lemma sorted_lt_NoDup (l : list Z) : StronglySorted Z.lt l -> NoDup l.
Proof.
  induction 1 as [|x l Hs IH Hf]; constructor; [|done].
  intros Hin. rewrite Forall_forall in Hf. specialize (Hf _ Hin). lia.
Qed.

(** ** Vectors from lists *)
Lemma NoDBColVectorFromList_spec h l ns :
  lrep h l ns -> NoDBColVectorFromList h l = Ok (col_vector ns.*2).
Proof.
  intros H. unfold NoDBColVectorFromList, NoDBColListSize.
  rewrite (ll_size_refines _ _ _ H). cbn [mbind result_bind]. unfold NoDBColVectorInit.
  assert ((if Z.of_nat (length ns) =? 0 then NULL else arr_alloc (Z.of_nat (length ns)))
    = @arr_alloc Z (Z.of_nat (length ns))) as E by (destruct ns; done).
  cbn [cv_cols cv_size]. rewrite E, (copy_loop_spec _ _ _ H). cbn [mbind result_bind].
  unfold col_vector. by rewrite length_fmap.
Qed.

(** ** Binary search *)
Section binary_search.
Context (l : list Z) (Hsorted : StronglySorted Z.le l).

Lemma sorted_lookup i j x y :
  (i <= j)%nat -> l !! i = Some x -> l !! j = Some y -> x <= y.
Proof.
  revert i j. induction Hsorted as [|z l' Hs IH Hf]; intros i j Hij Hi Hj; [done|].
  destruct i as [|i], j as [|j]; simplify_eq/=; try lia.
  - eapply Forall_lookup_1 in Hf; done.
  - apply IH with i j; [done|lia|done..].
Qed.

(** The bounds of the search: everything left of [min] is smaller than [col],
    everything right of [max] is greater. *)
Definition search_inv (col min max : Z) : Prop :=
  0 <= min <= Z.of_nat (length l) /\ -1 <= max <= Z.of_nat (length l) /\ min <= max + 1 /\
  (forall i x, l !! i = Some x -> Z.of_nat i < min -> x < col) /\
  (forall i x, l !! i = Some x -> max < Z.of_nat i -> col < x).

Lemma search_inv_left col min max i c :
  search_inv col min max -> min <= i <= max -> l !! Z.to_nat i = Some c -> c < col ->
  search_inv col (i + 1) max.
Proof.
  intros (H1 & H2 & H3 & H4 & H5) Hi Hc Hlt. assert (i < Z.of_nat (length l))
    by (apply lookup_lt_Some in Hc; lia).
  split_and!; try lia; try done. intros j x Hj Hle.
  assert (x <= c) by (eapply (sorted_lookup j (Z.to_nat i)); [lia|done..]). lia.
Qed.

Lemma search_inv_right col min max i c :
  search_inv col min max -> min <= i <= max -> l !! Z.to_nat i = Some c -> col < c ->
  search_inv col min (i - 1).
Proof.
  intros (H1 & H2 & H3 & H4 & H5) Hi Hc Hlt. assert (i < Z.of_nat (length l))
    by (apply lookup_lt_Some in Hc; lia).
  split_and!; try lia; try done. intros j x Hj Hle.
  assert (c <= x) by (eapply (sorted_lookup (Z.to_nat i) j); [lia|done..]). lia.
Qed.

Lemma midpoint min max : min <= max -> min <= min + Z.quot (max - min) 2 <= max.
Proof.
  intros H. rewrite Z.quot_div_nonneg by lia.
  pose proof (Z.div_pos (max - min) 2). pose proof (Z.div_le_upper_bound (max - min) 2 (max - min)).
  lia.
Qed.

Lemma midpoint_lt min max : min < max -> min + Z.quot (max - min) 2 < max.
Proof.
  intros H. rewrite Z.quot_div_nonneg by lia.
  pose proof (Z.div_lt (max - min) 2). lia.
Qed.

Lemma BinarySearch_loop_spec col : (exists x, x ∈ l /\ col <= x) ->
  forall fuel min max, search_inv col min max -> max - min + 1 < Z.of_nat fuel ->
  (exists i, BinarySearch_loop fuel (Some <$> l) col min max = Ok (Z.of_nat i) /\
     l !! i = Some col) \/
  (col ∉ l /\ BinarySearch_loop fuel (Some <$> l) col min max = Ok (-1)).
Proof.
  intros (w & Hw & Hcw). induction fuel as [|fuel IH]; intros min max Hinv Hf;
    [destruct Hinv as (? & ? & ? & ? & ?); lia|].
  cbn [BinarySearch_loop]. destruct (Z.ltb_spec max min).
  - right. split; [|done]. intros (i & Hi)%list_elem_of_lookup.
    destruct Hinv as (H1 & H2 & H3 & H4 & H5). destruct (decide (Z.of_nat i < min)) as [Hl|Hl].
    + apply (H4 _ _ Hi) in Hl. lia.
    + specialize (H5 _ _ Hi). lia.
  - pose proof (midpoint min max H) as Hi. cbv zeta. set (i := min + _) in *.
    apply list_elem_of_lookup in Hw as [k Hk].
    assert (i < Z.of_nat (length l)) as Hil.
    { destruct Hinv as (H1 & H2 & H3 & H4 & H5). apply lookup_lt_Some in Hk as Hk'.
      destruct (decide (min = max)); [|pose proof (midpoint_lt min max); lia].
      destruct (decide (Z.of_nat k < min)) as [Hl|]; [|lia]. apply (H4 _ _ Hk) in Hl. lia. }
    destruct (col_read l i) as (c & Hc & ->); [destruct Hinv; lia|]. cbn [mbind result_bind].
    destruct (Z.ltb_spec c col); [|destruct (Z.ltb_spec col c)].
    + apply IH; [by eapply search_inv_left|lia].
    + apply IH; [by eapply search_inv_right|lia].
    + left. exists (Z.to_nat i). assert (c = col) as -> by lia.
      rewrite Z2Nat.id by (destruct Hinv; lia). done.
Qed.

Lemma BinarySearch_loop_oob col : (forall x, x ∈ l -> x < col) ->
  forall fuel min, 0 <= min <= Z.of_nat (length l) ->
  Z.of_nat (length l) - min + 1 < Z.of_nat fuel ->
  BinarySearch_loop fuel (Some <$> l) col min (Z.of_nat (length l)) = Fail OutOfBounds.
Proof.
  intros Hlt. induction fuel as [|fuel IH]; intros min Hmin Hf; [lia|].
  cbn [BinarySearch_loop]. destruct (Z.ltb_spec (Z.of_nat (length l)) min); [lia|].
  pose proof (midpoint min _ H) as Hi. cbv zeta. set (i := min + _) in *.
  destruct (decide (i = Z.of_nat (length l))) as [E|E].
  - rewrite arr_get_oob by (rewrite length_fmap; lia). done.
  - destruct (col_read l i) as (c & Hc & ->); [lia|]. cbn [mbind result_bind].
    rewrite (proj2 (Z.ltb_lt _ _)) by (apply Hlt; by eapply list_elem_of_lookup_2).
    apply IH; lia.
Qed.
End binary_search.

(** ** Sorting *)
Section sorting.
Context (compar : Z -> Z -> Z) (P : Z -> Prop).
Hypothesis compar_le : forall a b, P a -> P b -> (compar a b <= 0 <-> a <= b).

Lemma qsort_insert_perm x l : qsort_insert compar x l ≡ₚ x :: l.
Proof.
  induction l as [|y l IH]; simpl; [done|]. destruct (compar x y <=? 0); [done|].
  rewrite IH. constructor.
Qed.

Lemma qsort_perm l : qsort compar l ≡ₚ l.
Proof. induction l as [|x l IH]; simpl; [done|]. by rewrite qsort_insert_perm, IH. Qed.

Lemma qsort_insert_sorted x l :
  P x -> Forall P l -> StronglySorted Z.le l -> StronglySorted Z.le (qsort_insert compar x l).
Proof.
  intros Hx. induction l as [|y l IH]; intros HP Hs; simpl; [by repeat constructor|].
  inversion_clear HP as [|? ? Hy Hl]. inversion_clear Hs as [|? ? Hs' Hf].
  destruct (Z.leb_spec (compar x y) 0) as [Hc|Hc].
  - rewrite compar_le in Hc by done. constructor; [by constructor|]. constructor; [done|].
    eapply Forall_impl; [done|]. simpl. lia.
  - constructor; [by apply IH|]. rewrite qsort_insert_perm. constructor; [|done].
    assert (~ (x <= y)) by (rewrite <- compar_le by done; lia). lia.
Qed.

Lemma qsort_sorted l : Forall P l -> StronglySorted Z.le (qsort compar l).
Proof.
  induction l as [|x l IH]; intros HP; simpl; [constructor|].
  inversion_clear HP. apply qsort_insert_sorted; [done| |by apply IH].
  fold (qsort compar l). by rewrite qsort_perm.
Qed.
End sorting.

Lemma mapM_holds {A} (l : list A) : mapM (M := option) id (Some <$> l) = Some l.
Proof. apply mapM_Some_2. induction l; by constructor. Qed.

Lemma NoDBQuickSort_spec l compar :
  NoDBQuickSort (Some <$> l) (Z.of_nat (length l)) compar = Ok (Some <$> qsort compar l).
Proof.
  unfold NoDBQuickSort. rewrite length_fmap, Z.ltb_irrefl, Nat2Z.id.
  rewrite take_ge, drop_ge by (by rewrite length_fmap). rewrite mapM_holds.
  by rewrite app_nil_r.
Qed.

(** Columns are non-negative ints, so their difference does not overflow. *)
Lemma col_comp_le a b : 0 <= a < 2 ^ 31 -> 0 <= b < 2 ^ 31 -> (col_comp a b <= 0 <-> a <= b).
Proof. intros Ha Hb. unfold col_comp, i32. rewrite swrap_small by lia. lia. Qed.

Lemma NoDBColVectorSort_spec l :
  Forall (fun c => 0 <= c < 2 ^ 31) l ->
  exists l', NoDBColVectorSort (col_vector l) = Ok (col_vector l') /\
    l' ≡ₚ l /\ StronglySorted Z.le l'.
Proof.
  intros Hl. exists (qsort col_comp l). split_and!.
  - unfold NoDBColVectorSort, col_vector. cbn [cv_cols cv_size]. rewrite NoDBQuickSort_spec.
    cbn [mbind result_bind]. by rewrite (Permutation_length (qsort_perm col_comp l)).
  - apply qsort_perm.
  - apply (qsort_sorted col_comp (fun c => 0 <= c < 2 ^ 31)); [apply col_comp_le|done].
Qed.

Lemma NoDBColVectorBinarySearch_spec l col :
  StronglySorted Z.le l -> (exists x, x ∈ l /\ col <= x) ->
  (exists i, NoDBColVectorBinarySearch (col_vector l) col = Ok (Z.of_nat i) /\
     l !! i = Some col) \/
  (col ∉ l /\ NoDBColVectorBinarySearch (col_vector l) col = Ok (-1)).
Proof.
  intros Hs Hx. apply BinarySearch_loop_spec; [done..| |].
  - cbn [col_vector cv_size]. split_and!; try lia. intros i x Hi ?. apply lookup_lt_Some in Hi. lia.
  - cbn [col_vector cv_size]. lia.
Qed.

(** ** Properties *)

(** On a sorted vector with an element not below [col],
    [NoDBColVectorBinarySearch] stays inside the block and returns a position of
    [col] when it is a member and -1 when it is not. *)
Theorem NoDBColVectorBinarySearch_correct l col :
  StronglySorted Z.le l -> (exists x, x ∈ l /\ col <= x) ->
  (exists i, NoDBColVectorBinarySearch (col_vector l) col = Ok (Z.of_nat i) /\
     l !! i = Some col) \/
  (col ∉ l /\ NoDBColVectorBinarySearch (col_vector l) col = Ok (-1)).
Proof. apply NoDBColVectorBinarySearch_spec. Qed.

(** Searching a sorted vector for a column greater than all of its elements
    reads the cell one past the end of the block: the search starts with
    [max = v.size] instead of [v.size - 1]. *)
Theorem NoDBColVectorBinarySearch_out_of_bounds l col :
  (forall x, x ∈ l -> x < col) ->
  NoDBColVectorBinarySearch (col_vector l) col = Fail OutOfBounds.
Proof.
  intros Hx. apply BinarySearch_loop_oob; [done|lia|]. cbn [col_vector cv_size]. lia.
Qed.

(** [NoDBColVectorSort] permutes a vector of column numbers into
    non-decreasing order: the 32-bit difference it compares with is exact on
    them. *)
Theorem NoDBColVectorSort_correct l :
  Forall (fun c => 0 <= c < 2 ^ 31) l ->
  exists l', NoDBColVectorSort (col_vector l) = Ok (col_vector l') /\
    l' ≡ₚ l /\ StronglySorted Z.le l'.
Proof. apply NoDBColVectorSort_spec. Qed.

(** [NoDBRowVectorSort] compares two row numbers by the low 32 bits of their
    difference: rows that differ by 2^31 are put in the wrong order. *)
Theorem NoDBRowVectorSort_truncates :
  exists l, Forall (fun r => 0 <= r < 2 ^ 64) l /\ StronglySorted Z.le l /\
    exists l', NoDBRowVectorSort (row_vector l) = Ok (row_vector l') /\
      ~ StronglySorted Z.le l'.
Proof.
  exists [0; 2 ^ 31 + 1]. split_and!; [repeat constructor; lia|repeat constructor; lia|].
  exists [2 ^ 31 + 1; 0]. split; [vm_compute; reflexivity|].
  intros H. inversion_clear H as [|? ? _ Hf]. inversion_clear Hf. lia.
Qed.

(** ** Witnesses *)
Lemma NoDBColVectorBinarySearch_witness :
  (exists i, NoDBColVectorBinarySearch (col_vector [1; 4; 9]) 4 = Ok (Z.of_nat i) /\
     [1; 4; 9] !! i = Some 4) \/
  (4 ∉ [1; 4; 9] /\ NoDBColVectorBinarySearch (col_vector [1; 4; 9]) 4 = Ok (-1)).
Proof.
  apply (NoDBColVectorBinarySearch_correct [1; 4; 9] 4).
  - repeat constructor; lia.
  - exists 9. split; [|lia]. right; right; left.
Defined.

Lemma NoDBColVectorBinarySearch_oob_witness :
  NoDBColVectorBinarySearch (col_vector [1; 4; 9]) 10 = Fail OutOfBounds.
Proof.
  apply (NoDBColVectorBinarySearch_out_of_bounds [1; 4; 9] 10).
  intros x Hx. repeat (apply elem_of_cons in Hx as [->|Hx]; [lia|]). by apply elem_of_nil in Hx.
Defined.

Lemma NoDBColVectorSort_witness :
  exists l', NoDBColVectorSort (col_vector [5; 2; 8; 2]) = Ok (col_vector l') /\
    l' ≡ₚ [5; 2; 8; 2] /\ StronglySorted Z.le l'.
Proof. apply (NoDBColVectorSort_correct [5; 2; 8; 2]). repeat constructor; lia. Defined.
