(* ===== verification/Bitmap.v ===== *)
(** * Bitmaps (NoDBBitmap.c)

    A bitmap is a size and one int per bit. The abstract bitmap is a list of
    booleans; [bits_of] is the C block that stores it. *)
From S2P Require Import Prelude.

Record NoDBBitmap_t := { bm_size : Z; bm_bits : arr Z }.
Implicit Types (b : NoDBBitmap_t) (s t : list bool).

Definition set_bits b (a : arr Z) : NoDBBitmap_t := {| bm_size := bm_size b; bm_bits := a |}.

Definition NoDBBitmapSet b (p : Z) : result NoDBBitmap_t :=
  a ← arr_set (bm_bits b) p 1; Ok (set_bits b a).
Definition NoDBBitmapClear b (p : Z) : result NoDBBitmap_t :=
  a ← arr_set (bm_bits b) p 0; Ok (set_bits b a).
Definition NoDBBitmapIsSet b (p : Z) : result bool :=
  x ← arr_get (bm_bits b) p; Ok (x =? 1).
Definition NoDBBitmapIsClear b (p : Z) : result bool :=
  x ← arr_get (bm_bits b) p; Ok (x =? 0).

Definition NoDBBitmapSetAll b : result NoDBBitmap_t :=
  a ← arr_fill 0 (bm_size b) 1 (bm_bits b); Ok (set_bits b a).
Definition NoDBBitmapClearAll b : result NoDBBitmap_t :=
  a ← arr_fill 0 (bm_size b) 0 (bm_bits b); Ok (set_bits b a).

Definition NoDBBitmapInit (size : Z) : result NoDBBitmap_t :=
  NoDBBitmapClearAll {| bm_size := size; bm_bits := arr_alloc size |}.
Definition NoDBBitmapArenaInit (size : Z) : result NoDBBitmap_t :=
  NoDBBitmapClearAll {| bm_size := size; bm_bits := arr_alloc size |}.

Definition NoDBBitmapIsAllSet b : result bool :=
  search_range 0 (bm_size b)
    (fun i => x ← arr_get (bm_bits b) i; Ok (if x =? 0 then Some false else None)) true.
Definition NoDBBitmapIsAllClear b : result bool :=
  search_range 0 (bm_size b)
    (fun i => x ← arr_get (bm_bits b) i; Ok (if x =? 0 then None else Some false)) true.

Definition NoDBBitmapOR (orig toMerge : NoDBBitmap_t) : result NoDBBitmap_t :=
  for_range 0 (bm_size orig)
    (fun i o => x ← NoDBBitmapIsSet toMerge i; if (x : bool) then NoDBBitmapSet o i else Ok o)
    orig.

(** ** The bitmap that stores a list of booleans *)
Definition bit (x : bool) : Z := if x then 1 else 0.
Definition bitmap_of s : NoDBBitmap_t :=
  {| bm_size := Z.of_nat (length s); bm_bits := Some <$> (bit <$> s) |}.

Lemma bitmap_read s i :
  0 <= i < Z.of_nat (length s) -> exists x, s !! Z.to_nat i = Some x /\
    arr_get (bm_bits (bitmap_of s)) i = Ok (bit x).
Proof.
  intros Hi. destruct (lookup_lt_is_Some_2 s (Z.to_nat i)) as [x Hx]; [lia|].
  exists x. split; [done|]. apply arr_get_holds; [lia|]. by rewrite list_lookup_fmap, Hx.
Qed.

Lemma bitmap_write s i x :
  0 <= i < Z.of_nat (length s) ->
  arr_set (bm_bits (bitmap_of s)) i (bit x) =
  Ok (bm_bits (bitmap_of (<[Z.to_nat i := x]> s))).
Proof.
  intros Hi. rewrite arr_set_Ok by (cbn; rewrite !length_fmap; lia). f_equal. cbn.
  by rewrite !list_fmap_insert.
Qed.

Lemma bitmap_set_bits s s' :
  length s = length s' -> set_bits (bitmap_of s) (bm_bits (bitmap_of s')) = bitmap_of s'.
Proof. intros E. unfold set_bits, bitmap_of. cbn. by rewrite E. Qed.

Lemma NoDBBitmapSet_spec s i :
  0 <= i < Z.of_nat (length s) ->
  NoDBBitmapSet (bitmap_of s) i = Ok (bitmap_of (<[Z.to_nat i := true]> s)).
Proof.
  intros Hi. unfold NoDBBitmapSet. change 1 with (bit true). rewrite (bitmap_write s i true Hi).
  cbn [mbind result_bind]. by rewrite bitmap_set_bits by (by rewrite length_insert).
Qed.

Lemma NoDBBitmapIsSet_spec s i :
  0 <= i < Z.of_nat (length s) ->
  NoDBBitmapIsSet (bitmap_of s) i = Ok (default false (s !! Z.to_nat i)).
Proof.
  intros Hi. destruct (bitmap_read s i Hi) as (x & Hx & E). unfold NoDBBitmapIsSet.
  rewrite E, Hx. by destruct x.
Qed.

Lemma fill_all_bits (n : nat) (x : bool) (a : arr Z) :
  length a = n ->
  (a' ← arr_fill 0 (Z.of_nat n) (bit x) a;
   Ok (set_bits {| bm_size := Z.of_nat n; bm_bits := a |} a'))
  = Ok (bitmap_of (replicate n x)).
Proof.
  intros Hn. rewrite arr_fill_all by lia. cbn [mbind result_bind]. f_equal.
  unfold set_bits, bitmap_of. cbn. by rewrite Nat2Z.id, !fmap_replicate, length_replicate.
Qed.

Lemma search_bits s (stop : bool) :
  search_range 0 (bm_size (bitmap_of s))
    (fun i => x ← arr_get (bm_bits (bitmap_of s)) i;
       Ok (if Bool.eqb (x =? 0) (negb stop) then Some false else None)) true
  = Ok (bool_decide (stop ∉ s)).
Proof.
  destruct (search_range_pure 0 (bm_size (bitmap_of s)) (fun i => x ← arr_get (bm_bits (bitmap_of s)) i;
       Ok (if Bool.eqb (x =? 0) (negb stop) then Some false else None))
    (fun i => if decide (s !! Z.to_nat i = Some stop) then Some false else None) true)
    as [(i & r & Hi & Hg & Hj & E)|(Hn & E)].
  - intros i Hi. destruct (bitmap_read s i Hi) as (x & Hx & ->). cbn [mbind result_bind].
    rewrite Hx. destruct x, stop; done.
  - destruct (decide (s !! Z.to_nat i = Some stop)) as [Hs|]; [|done]. simplify_eq.
    rewrite E. f_equal. symmetry. apply bool_decide_eq_false_2.
    apply list_elem_of_lookup_2 in Hs. auto.
  - rewrite E. f_equal. symmetry. apply bool_decide_eq_true_2. intros [i Hi]%list_elem_of_lookup.
    specialize (Hn (Z.of_nat i)). rewrite Nat2Z.id in Hn. rewrite decide_True in Hn by done.
    apply lookup_lt_Some in Hi. discriminate Hn. cbn. lia.
Qed.

(** ** Properties *)

(** A new bitmap has every bit clear, [NoDBBitmapSetAll] sets every bit and
    the two tests recognise exactly these states. *)
Theorem NoDBBitmapAll_correct s :
  NoDBBitmapInit (Z.of_nat (length s)) = Ok (bitmap_of (replicate (length s) false)) /\
  NoDBBitmapSetAll (bitmap_of s) = Ok (bitmap_of (replicate (length s) true)) /\
  NoDBBitmapClearAll (bitmap_of s) = Ok (bitmap_of (replicate (length s) false)) /\
  NoDBBitmapIsAllSet (bitmap_of s) = Ok (bool_decide (false ∉ s)) /\
  NoDBBitmapIsAllClear (bitmap_of s) = Ok (bool_decide (true ∉ s)).
Proof.
  split_and!.
  - apply fill_all_bits with (x := false). cbn. unfold arr_alloc. rewrite length_replicate. lia.
  - apply fill_all_bits with (x := true). cbn. by rewrite !length_fmap.
  - apply fill_all_bits with (x := false). cbn. by rewrite !length_fmap.
  - rewrite <- (search_bits s false). unfold NoDBBitmapIsAllSet. apply search_range_ext.
    intros i _. destruct (arr_get _ i) as [x|e]; [|done]. cbn. by destruct (x =? 0).
  - rewrite <- (search_bits s true). unfold NoDBBitmapIsAllClear. apply search_range_ext.
    intros i _. destruct (arr_get _ i) as [x|e]; [|done]. cbn. by destruct (x =? 0).
Qed.

(** [NoDBBitmapOR] ors the bits of the second bitmap into the first, bit by
    bit, for a second bitmap that is at least as long. *)
Theorem NoDBBitmapOR_correct s t :
  (length s <= length t)%nat ->
  NoDBBitmapOR (bitmap_of s) (bitmap_of t) = Ok (bitmap_of (zip_with orb s t)).
Proof.
  intros Hlen. unfold NoDBBitmapOR.
  pose (I := fun i b => exists r, b = bitmap_of r /\ length r = length s /\
    forall j, r !! j = if decide (Z.of_nat j < i) then (zip_with orb s t) !! j else s !! j).
  destruct (for_range_inv I 0 (bm_size (bitmap_of s)) (fun i o => x ← NoDBBitmapIsSet (bitmap_of t) i;
    if (x : bool) then NoDBBitmapSet o i else Ok o) (bitmap_of s)) as (b & E & r & -> & Hr & Hj).
  - cbn. lia.
  - exists s. split_and!; [done..|]. intros j. case_decide; [lia|done].
  - cbn [bm_size bitmap_of]. intros i b Hi (r & -> & Hr & Hj).
    rewrite NoDBBitmapIsSet_spec by lia. cbn [mbind result_bind].
    destruct (lookup_lt_is_Some_2 t (Z.to_nat i)) as [x Hx]; [lia|].
    destruct (lookup_lt_is_Some_2 s (Z.to_nat i)) as [y Hy]; [lia|].
    rewrite Hx. simpl. exists (bitmap_of (<[Z.to_nat i := orb y x]> r)). split.
    + destruct x; [rewrite NoDBBitmapSet_spec by lia; by rewrite orb_true_r|].
      rewrite orb_false_r, list_insert_id; [done|]. rewrite Hj. case_decide; [lia|done].
    + eexists. split; [done|]. split; [by rewrite length_insert|]. intros j.
      destruct (decide (j = Z.to_nat i)) as [->|Hne].
      * rewrite list_lookup_insert_eq by lia. rewrite decide_True by lia.
        rewrite lookup_zip_with, Hx, Hy. done.
      * rewrite list_lookup_insert_ne, Hj by done. repeat case_decide; try lia; done.
  - rewrite E. do 2 f_equal. apply list_eq. intros j. rewrite Hj. case_decide as Hc; [done|].
    cbn in Hc. rewrite !lookup_ge_None_2; [done| |lia]. rewrite length_zip_with. lia.
Qed.

(** ** Witness *)
Lemma NoDBBitmapOR_witness :
  NoDBBitmapOR (bitmap_of [true; false; false]) (bitmap_of [false; false; true])
  = Ok (bitmap_of [true; false; true]).
Proof. apply (NoDBBitmapOR_correct [true; false; false] [false; false; true]). simpl. lia. Defined.
