(* ===== verification/AssocMap.v ===== *)
(** * Association maps (NoDBMap.c)

    A map is a linked list of key/value nodes and a length. Keys are pointers;
    a value is the C union of a pointer and an int. The heap of nodes is the one
    of LinkedList.v with key/value pairs as elements; the abstract map is the
    list of its pairs in insertion order, and a finite map over it. *)
From S2P Require Import Prelude LinkedList.

Inductive NoDBMapData_t := ptrData (p : Z) | intData (i : Z).

#[global] Instance NoDBMapData_eq_dec : EqDecision NoDBMapData_t.
Proof. solve_decision. Defined.

(** Reading the other member of the union: an int is the low word of a pointer;
    a pointer needs the upper word, which storing an int does not write. *)
Definition get_intData (d : NoDBMapData_t) : Z :=
  match d with intData i => i | ptrData p => i32 p end.
Definition get_ptrData (d : NoDBMapData_t) : result Z :=
  match d with ptrData p => Ok p | intData _ => Fail Indeterminate end.

Record NoDBMap_t := { map_head : Z; map_len : Z }.
Abbreviation map_heap := (gmap Z (Z * NoDBMapData_t * Z)).
Implicit Types (h : map_heap) (m : NoDBMap_t) (key : Z) (value : NoDBMapData_t).

(** ** Operations *)
Definition NoDBMapInit : NoDBMap_t := {| map_head := 0; map_len := 0 |}.
Definition NoDBMapArenaInit : NoDBMap_t := {| map_head := 0; map_len := 0 |}.
Definition NoDBMapDestroy h m : result map_heap := ll_destroy h (map_head m).

(** The search loop shared by the lookups: the first node with the key. *)
Fixpoint find_loop (fuel : nat) h (node key : Z) : result Z :=
  match fuel with
  | O => Fail OutOfFuel
  | S fuel' =>
      if node =? 0 then Ok 0
      else x ← ll_node h node;
           if x.1.1 =? key then Ok node else find_loop fuel' h x.2 key
  end.
Definition find h m key : result Z := find_loop (S (size h)) h (map_head m) key.

Definition NoDBMapHasPtr h m key : result bool :=
  node ← find h m key; Ok (negb (node =? 0)).
Definition NoDBMapSize m : Z := map_len m.

(** [while (1)]: stop at the key, or append after the last node. *)
Fixpoint append_loop (fuel : nat) h (node key : Z) value : result (option map_heap) :=
  match fuel with
  | O => Fail OutOfFuel
  | S fuel' =>
      x ← ll_node h node;
      if x.1.1 =? key then Ok None
      else if x.2 =? 0 then
        let q := ll_alloc h in
        Ok (Some (<[node := (x.1, q)]> (<[q := ((key, value), 0)]> h)))
      else append_loop fuel' h x.2 key value
  end.
Definition map_add h m key value : result (map_heap * NoDBMap_t * Z) :=
  if map_head m =? 0 then
    let q := ll_alloc h in
    Ok (<[q := ((key, value), 0)]> h, {| map_head := q; map_len := 1 |}, 1)
  else
    o ← append_loop (S (size h)) h (map_head m) key value;
    match o with
    | None => Ok (h, m, 0)
    | Some h' => Ok (h', {| map_head := map_head m; map_len := map_len m + 1 |}, 1)
    end.

Definition NoDBMapAddPtrInt h m key (value : Z) := map_add h m key (intData value).
Definition NoDBMapArenaAddPtrInt h m key (value : Z) := map_add h m key (intData value).
Definition NoDBMapAddPtrPtr h m key (value : Z) := map_add h m key (ptrData value).
Definition NoDBMapArenaAddPtrPtr h m key (value : Z) := map_add h m key (ptrData value).

(** [None] when the key is absent ([return 0], [*value] untouched). *)
Definition NoDBMapGetPtrInt h m key : result (option Z) :=
  node ← find h m key;
  if node =? 0 then Ok None
  else x ← ll_node h node; Ok (Some (get_intData x.1.2)).
Definition NoDBMapGetPtrPtr h m key : result (option Z) :=
  node ← find h m key;
  if node =? 0 then Ok None
  else x ← ll_node h node; v ← get_ptrData x.1.2; Ok (Some v).

Definition map_set h m key value : result (map_heap * Z) :=
  node ← find h m key;
  if node =? 0 then Ok (h, 0)
  else x ← ll_node h node; Ok (<[node := ((x.1.1, value), x.2)]> h, 1).
Definition NoDBMapSetPtrInt h m key (value : Z) := map_set h m key (intData value).
Definition NoDBMapSetPtrPtr h m key (value : Z) := map_set h m key (ptrData value).

Definition NoDBMapIterator m : Z := map_head m.
Definition NoDBMapIteratorNext h (iterator : Z) : result Z :=
  x ← ll_node h iterator; Ok x.2.
Definition NoDBMapIteratorKeyPtr h (iterator : Z) : result Z :=
  x ← ll_node h iterator; Ok x.1.1.
Definition NoDBMapIteratorValueInt h (iterator : Z) : result Z :=
  x ← ll_node h iterator; Ok (get_intData x.1.2).
Definition NoDBMapIteratorValuePtr h (iterator : Z) : result Z :=
  x ← ll_node h iterator; get_ptrData x.1.2.

(** ** Abstraction *)
Definition map_rep h m (ns : list (Z * (Z * NoDBMapData_t))) : Prop :=
  lrep h (map_head m) ns /\ map_len m = Z.of_nat (length ns) /\ NoDup ns.*2.*1.

(** The finite map a list of nodes stands for. *)
Definition to_fmap (ns : list (Z * (Z * NoDBMapData_t))) : gmap Z NoDBMapData_t :=
  list_to_map ns.*2.

Lemma find_loop_spec h key ns : forall node fuel,
  lrep h node ns -> (length ns < fuel)%nat ->
  (exists ns1 q v ns2, ns = ns1 ++ (q, (key, v)) :: ns2 /\ key ∉ ns1.*2.*1 /\
     find_loop fuel h node key = Ok q /\ q <> 0) \/
  (key ∉ ns.*2.*1 /\ find_loop fuel h node key = Ok 0).
Proof.
  induction ns as [|[q [k v]] ns IH]; intros node fuel H Hf;
    (destruct fuel as [|fuel]; [simpl in Hf; lia|]).
  - simpl in H. subst node. right. split; [csimpl; set_solver|done].
  - destruct (ll_node_lrep _ _ _ _ _ H) as (E & nx & En & Hr). cbn [find_loop].
    rewrite E, En. cbn [mbind result_bind fst snd]. destruct (Z.eqb_spec k key) as [->|Hne].
    + left. exists [], q, v, ns. assert (node = q) as -> by apply H.
      split_and!; [done|csimpl; set_solver|done|]. apply Z.eqb_neq in E. done.
    + destruct (IH nx fuel Hr) as [(ns1 & q' & v' & ns2 & -> & Hk & Ef & Hq)|(Hk & Ef)];
        [simpl in Hf; lia|left|right].
      * exists ((q, (k, v)) :: ns1), q', v', ns2. split_and!; [done| |done..]. csimpl. set_solver.
      * split; [|done]. csimpl. set_solver.
Qed.

Lemma find_spec h m key ns :
  lrep h (map_head m) ns ->
  (exists ns1 q v ns2, ns = ns1 ++ (q, (key, v)) :: ns2 /\ key ∉ ns1.*2.*1 /\
     find h m key = Ok q /\ q <> 0) \/
  (key ∉ ns.*2.*1 /\ find h m key = Ok 0).
Proof. intros H. apply find_loop_spec; [done|]. apply lrep_fuel in H. lia. Qed.

Lemma lrep_lookup {A} (h : gmap Z (A * Z)) p ns1 q v ns2 :
  lrep h p (ns1 ++ (q, v) :: ns2) -> exists nx, h !! q = Some (v, nx) /\ q <> 0 /\ lrep h nx ns2.
Proof.
  intros H. apply lrep_suffix in H. simpl in H. destruct H as (_ & Hq & nx & Hh & Hr). eauto.
Qed.

Lemma lrep_update {A} (h : gmap Z (A * Z)) p ns1 q v w ns2 nx :
  lrep h p (ns1 ++ (q, v) :: ns2) -> h !! q = Some (v, nx) ->
  lrep (<[q := (w, nx)]> h) p (ns1 ++ (q, w) :: ns2).
Proof.
  intros H Hh. pose proof (lrep_NoDup _ _ _ H) as Hnd. revert p H Hnd.
  induction ns1 as [|[r u] ns1 IH]; intros p H Hnd.
  - simpl in *. destruct H as (-> & Hq & nx' & Hh' & Hr). rewrite Hh in Hh'. simplify_eq.
    split_and!; [done..|]. exists nx'. rewrite lookup_insert_eq. split; [done|].
    apply NoDup_cons in Hnd as [Hn _]. by apply lrep_insert.
  - simpl in *. destruct H as (-> & Hr0 & nx' & Hh' & Hr). apply NoDup_cons in Hnd as [Hn Hnd].
    split_and!; [done..|]. exists nx'. rewrite lookup_insert_ne.
    + split; [done|]. by apply IH.
    + intros ->. apply Hn. rewrite fmap_app. csimpl. apply elem_of_app. right. by left.
Qed.

(** Appending after the last node of a list that does not hold the key. *)
Lemma append_loop_spec h key value ns : forall q w node fuel,
  lrep h node ((q, w) :: ns) -> (length ns < fuel)%nat ->
  (key ∈ ((q, w) :: ns).*2.*1 /\ append_loop fuel h node key value = Ok None) \/
  (key ∉ ((q, w) :: ns).*2.*1 /\ exists h', append_loop fuel h node key value = Ok (Some h') /\
     lrep h' node (((q, w) :: ns) ++ [(ll_alloc h, (key, value))]) /\
     (forall x, x ∉ ((q, w) :: ns).*1 -> x <> ll_alloc h -> h' !! x = h !! x)).
Proof.
  induction ns as [|[r u] ns IH]; intros q w node fuel H Hf;
    (destruct fuel as [|fuel]; [simpl in Hf; lia|]);
    destruct (ll_node_lrep _ _ _ _ _ H) as (E & nx & En & Hr);
    cbn [append_loop]; rewrite En; cbn [mbind result_bind fst snd];
    (destruct (Z.eqb_spec w.1 key) as [Ek|Hne];
      [left; split; [csimpl; rewrite Ek; by left|done]|]).
  - right. split; [csimpl; set_solver|]. simpl in Hr. subst nx. simpl. eexists. split; [done|].
    assert (node = q) as -> by apply H. destruct (ll_alloc_fresh h) as [Ha0 Ha].
    assert (q <> ll_alloc h) as Hqa by (intros ->; simpl in H; destruct H as (_ & _ & ? & ? & _); congruence).
    split; [|intros x Hx Hxa; csimpl in Hx; rewrite !lookup_insert_ne; set_solver].
    split_and!; [done|apply H|]. exists (ll_alloc h). rewrite lookup_insert_eq. split; [done|].
    split_and!; [done..|]. exists 0. by rewrite lookup_insert_ne, lookup_insert_eq.
  - assert (nx = r) as -> by apply Hr.
    assert ((r =? 0) = false) as -> by (destruct (ll_node_lrep _ _ _ _ _ Hr); done).
    destruct (IH r u r fuel Hr) as [(Hk & Ea)|(Hk & h' & Ea & Hl & Hfr)]; [simpl in Hf; lia|left|right].
    + split; [|done]. csimpl in *. by right.
    + split; [csimpl in *; set_solver|]. exists h'. split; [done|].
      pose proof (lrep_NoDup _ _ _ H) as Hnd. apply NoDup_cons in Hnd as [Hn _].
      assert (node = q) as -> by apply H.
      assert (h !! q = Some (w, r)) as Hq by (simpl in H; destruct H as (_ & _ & nx & Hh & -> & _); done).
      split; [|intros x [_ Hx]%not_elem_of_cons Hxa; by apply Hfr].
      split_and!; [done|apply H|]. exists r. split; [|done]. rewrite Hfr; [done..|].
      intros ->. destruct (ll_alloc_fresh h). congruence.
Qed.

Lemma map_add_spec h m key value ns :
  map_rep h m ns ->
  (key ∈ ns.*2.*1 /\ map_add h m key value = Ok (h, m, 0)) \/
  (key ∉ ns.*2.*1 /\ exists h' m', map_add h m key value = Ok (h', m', 1) /\
     map_rep h' m' (ns ++ [(ll_alloc h, (key, value))])).
Proof.
  intros (Hl & Hlen & Hnd). unfold map_add. destruct ns as [|[q w] ns].
  - simpl in Hl. rewrite Hl. right. split; [csimpl; set_solver|]. eexists _, _. split; [done|].
    split_and!; [|done|csimpl; apply NoDup_singleton]. destruct (ll_alloc_fresh h) as [Ha _].
    simpl. split_and!; [done..|]. exists 0. by rewrite lookup_insert_eq.
  - destruct (ll_node_lrep _ _ _ _ _ Hl) as (E & _). rewrite E.
    destruct (append_loop_spec h key value ns q w (map_head m) (S (size h)) Hl)
      as [(Hk & Ea)|(Hk & h' & Ea & Hl' & _)]; [apply lrep_fuel in Hl; simpl in Hl; lia|left|right];
      rewrite Ea; cbn [mbind result_bind]; (split; [done|]); [done|].
    eexists _, _. split; [done|]. split_and!; [done| |].
    + cbn [map_len]. rewrite Hlen, length_app. simpl. lia.
    + rewrite !fmap_app. apply NoDup_app. split_and!; [done| |apply NoDup_singleton].
      intros x Hx. csimpl. rewrite list_elem_of_singleton. set_solver.
Qed.

Lemma to_fmap_snoc ns q k v : k ∉ ns.*2.*1 -> to_fmap (ns ++ [(q, (k, v))]) = <[k := v]> (to_fmap ns).
Proof.
  intros Hk. unfold to_fmap. rewrite fmap_app. csimpl. rewrite list_to_map_snoc; [done|].
  done.
Qed.

Lemma to_fmap_elem ns k : k ∈ ns.*2.*1 <-> is_Some (to_fmap ns !! k).
Proof.
  unfold to_fmap. split; intros Hk.
  - destruct (list_to_map (M := gmap Z NoDBMapData_t) ns.*2 !! k) eqn:E; [eauto|].
    by apply not_elem_of_list_to_map in E.
  - destruct Hk as [v Hv]. apply elem_of_list_to_map_2 in Hv. apply list_elem_of_fmap. eexists. by split; [|exact Hv].
Qed.

Lemma to_fmap_split ns1 q k v ns2 : k ∉ ns1.*2.*1 -> to_fmap (ns1 ++ (q, (k, v)) :: ns2) !! k = Some v.
Proof.
  intros Hk. unfold to_fmap. rewrite fmap_app, list_to_map_app. csimpl.
  rewrite lookup_union_r by (by apply not_elem_of_list_to_map). by rewrite lookup_insert_eq.
Qed.

Lemma to_fmap_update ns1 q k v w ns2 :
  k ∉ ns1.*2.*1 ->
  to_fmap (ns1 ++ (q, (k, w)) :: ns2) = <[k := w]> (to_fmap (ns1 ++ (q, (k, v)) :: ns2)).
Proof.
  intros Hk. unfold to_fmap. rewrite !fmap_app, !list_to_map_app. csimpl.
  rewrite insert_union_r by (by apply not_elem_of_list_to_map). by rewrite insert_insert_eq.
Qed.

(** ** Properties *)

(** [NoDBMapAddPtrInt] refines insertion into a finite map: it adds an absent
    key with its value, leaves the map alone and returns 0 for a key that is
    there, and keeps the length and the uniqueness of the keys. *)
Theorem NoDBMapAddPtrInt_refines h m key (value : Z) ns :
  map_rep h m ns ->
  exists h' m' r ns', NoDBMapAddPtrInt h m key value = Ok (h', m', r) /\
    map_rep h' m' ns' /\ NoDBMapSize m' = Z.of_nat (size (to_fmap ns')) /\
    match to_fmap ns !! key with
    | Some _ => r = 0 /\ to_fmap ns' = to_fmap ns
    | None => r = 1 /\ to_fmap ns' = <[key := intData value]> (to_fmap ns)
    end.
Proof.
  assert (Hsz : forall h m ns, map_rep h m ns -> NoDBMapSize m = Z.of_nat (size (to_fmap ns))).
  { intros h0 m0 ns0 (_ & Hlen & Hnd). unfold NoDBMapSize, to_fmap.
    rewrite Hlen, <- size_dom, dom_list_to_map_L, size_list_to_set by done.
    by rewrite !length_fmap. }
  intros H. destruct (map_add_spec h m key (intData value) ns H) as [(Hk & E)|(Hk & h' & m' & E & Hr)].
  - exists h, m, 0, ns. apply to_fmap_elem in Hk as [v ->]. split_and!; eauto.
  - exists h', m', 1, (ns ++ [(ll_alloc h, (key, intData value))]).
    split_and!; [done..|by eauto|]. pose proof Hk as Hk'. rewrite to_fmap_elem in Hk'.
    destruct (to_fmap ns !! key) eqn:El; [destruct Hk'; eauto|]. by rewrite to_fmap_snoc.
Qed.

(** [NoDBMapSetPtrInt] and [NoDBMapGetPtrInt] refine update and lookup: a set
    changes the value of a key that is present and nothing else, and a lookup
    reads what the finite map holds. *)
Theorem NoDBMapSetGet_refines h m key (value : Z) ns :
  map_rep h m ns ->
  NoDBMapGetPtrInt h m key = Ok (get_intData <$> to_fmap ns !! key) /\
  NoDBMapHasPtr h m key = Ok (bool_decide (is_Some (to_fmap ns !! key))) /\
  exists h' r ns', NoDBMapSetPtrInt h m key value = Ok (h', r) /\ map_rep h' m ns' /\
    match to_fmap ns !! key with
    | Some _ => r = 1 /\ to_fmap ns' = <[key := intData value]> (to_fmap ns)
    | None => r = 0 /\ to_fmap ns' = to_fmap ns
    end.
Proof.
  intros H. unfold NoDBMapGetPtrInt, NoDBMapHasPtr, NoDBMapSetPtrInt, map_set.
  destruct (find_spec h m key ns (proj1 H)) as [(ns1 & q & v & ns2 & -> & Hk & -> & Hq)|(Hk & ->)];
    cbn [mbind result_bind].
  - destruct H as (Hl & Hlen & Hnd). destruct (lrep_lookup _ _ _ _ _ _ Hl) as (nx & Hh & _ & _).
    unfold ll_node. rewrite (proj2 (Z.eqb_neq _ _)) by done. rewrite Hh, (to_fmap_split _ _ _ _ _ Hk).
    cbn [mbind result_bind fst snd]. split_and!; [done..|].
    exists (<[q := ((key, intData value), nx)]> h), 1, (ns1 ++ (q, (key, intData value)) :: ns2).
    split_and!; [done| |done|by eapply to_fmap_update]. split_and!.
    + eapply lrep_update; [exact Hl|done].
    + rewrite Hlen, !length_app. done.
    + revert Hnd. by rewrite !fmap_app.
  - rewrite to_fmap_elem in Hk. destruct (to_fmap ns !! key) eqn:El; [destruct Hk; eauto|].
    split_and!; [done..|]. by exists h, 0, ns.
Qed.

(** ** Witnesses *)
Definition map_ex : map_heap := <[1 := ((10, intData 3), 2)]> (<[2 := ((20, intData 4), 0)]> ∅).
Definition map_ex_m : NoDBMap_t := {| map_head := 1; map_len := 2 |}.
Definition map_ex_ns : list (Z * (Z * NoDBMapData_t)) := [(1, (10, intData 3)); (2, (20, intData 4))].

Lemma map_ex_rep : map_rep map_ex map_ex_m map_ex_ns.
Proof.
  split_and!; [|done|by apply (bool_decide_unpack _)].
  simpl. split_and!; try done. exists 2. split_and!; try done. by exists 0.
Qed.

Lemma NoDBMapAddPtrInt_witness :
  exists h' m' r ns', NoDBMapAddPtrInt map_ex map_ex_m 30 7 = Ok (h', m', r) /\
    map_rep h' m' ns' /\ NoDBMapSize m' = Z.of_nat (size (to_fmap ns')) /\
    r = 1 /\ to_fmap ns' = <[30 := intData 7]> (to_fmap map_ex_ns).
Proof. apply (NoDBMapAddPtrInt_refines map_ex map_ex_m 30 7 map_ex_ns), map_ex_rep. Defined.

Lemma NoDBMapSetGet_witness :
  NoDBMapGetPtrInt map_ex map_ex_m 20 = Ok (Some 4) /\
  NoDBMapHasPtr map_ex map_ex_m 20 = Ok true /\
  exists h' r ns', NoDBMapSetPtrInt map_ex map_ex_m 20 9 = Ok (h', r) /\ map_rep h' map_ex_m ns' /\
    r = 1 /\ to_fmap ns' = <[20 := intData 9]> (to_fmap map_ex_ns).
Proof. apply (NoDBMapSetGet_refines map_ex map_ex_m 20 9 map_ex_ns), map_ex_rep. Defined.
