(* ===== verification/Relation.v ===== *)
(** * Relation descriptors and query timers (NoDBRelation.c, NoDBTimer.c) *)
From S2P Require Import Prelude.

(** ** NoDBRelation.c

    A descriptor lists the size and the by-value flag of each column in a block
    that grows by [NODB_RELATION_DEFAULT_NCOLUMNS] cells when it is full. *)
Definition NODB_RELATION_DEFAULT_NCOLUMNS : Z := 20.

Record NoDBRelationAttr_t := { attr_size : Z; attr_byValue : bool }.
Record NoDBRelation_t := {
  rel_name : string; rel_used : Z; rel_max : Z; rel_attrs : arr NoDBRelationAttr_t }.
Implicit Types (rel : NoDBRelation_t).

Definition NoDBRelationInit (name : string) : NoDBRelation_t :=
  {| rel_name := name; rel_used := 0; rel_max := NODB_RELATION_DEFAULT_NCOLUMNS;
     rel_attrs := arr_alloc NODB_RELATION_DEFAULT_NCOLUMNS |}.

(** [size] is an unsigned int stored in an int. *)
Definition NoDBRelationAddColumn rel (size : Z) (byValue : bool) : result NoDBRelation_t :=
  let '(max, attrs) :=
    if rel_used rel =? rel_max rel then
      (rel_max rel + NODB_RELATION_DEFAULT_NCOLUMNS,
       arr_realloc (rel_attrs rel) (rel_max rel + NODB_RELATION_DEFAULT_NCOLUMNS))
    else (rel_max rel, rel_attrs rel) in
  attrs' ← arr_set attrs (rel_used rel) {| attr_size := i32 size; attr_byValue := byValue |};
  Ok {| rel_name := rel_name rel; rel_used := rel_used rel + 1; rel_max := max;
        rel_attrs := attrs' |}.

Definition NoDBRelationGetColumnSize rel (col : Z) : result Z :=
  a ← arr_get (rel_attrs rel) col; Ok (u32 (attr_size a)).
Definition NoDBRelationIsColumnByValue rel (col : Z) : result bool :=
  a ← arr_get (rel_attrs rel) col; Ok (attr_byValue a).
Definition NoDBRelationGetNumberColumns rel : Z := rel_used rel.

(** A relation filled column by column. *)
Fixpoint add_columns rel (cols : list (Z * bool)) : result NoDBRelation_t :=
  match cols with
  | [] => Ok rel
  | (sz, bv) :: cols' => rel' ← NoDBRelationAddColumn rel sz bv; add_columns rel' cols'
  end.

Definition attr_of (c : Z * bool) : NoDBRelationAttr_t :=
  {| attr_size := i32 c.1; attr_byValue := c.2 |}.

(** The descriptor of the columns [cols]: its used cells hold them, the block
    has [rel_max] cells. *)
Definition rel_rep rel (cols : list (Z * bool)) : Prop :=
  rel_used rel = Z.of_nat (length cols) /\
  rel_attrs rel = (Some <$> (attr_of <$> cols)) ++
    replicate (Z.to_nat (rel_max rel) - length cols) None /\
  rel_used rel <= rel_max rel.

Lemma NoDBRelationAddColumn_spec rel cols sz bv :
  rel_rep rel cols ->
  exists rel', NoDBRelationAddColumn rel sz bv = Ok rel' /\ rel_rep rel' (cols ++ [(sz, bv)]) /\
    rel_name rel' = rel_name rel.
Proof.
  intros (Hu & Ha & Hle). unfold NoDBRelationAddColumn, NODB_RELATION_DEFAULT_NCOLUMNS.
  assert (exists k max attrs, (if rel_used rel =? rel_max rel then
      (rel_max rel + 20, arr_realloc (rel_attrs rel) (rel_max rel + 20))
    else (rel_max rel, rel_attrs rel)) = (max, attrs) /\
    attrs = (Some <$> (attr_of <$> cols)) ++ None :: replicate k None /\
    Z.to_nat max = (length cols + S k)%nat /\ rel_used rel < max) as (k & max & attrs & -> & -> & Hk & Hlt).
  { destruct (Z.eqb_spec (rel_used rel) (rel_max rel)) as [E|E].
    - exists 19%nat. eexists _, _. split; [done|]. rewrite Ha. replace (Z.to_nat (rel_max rel) - length cols)%nat with 0%nat by lia.
      simpl. rewrite app_nil_r, arr_realloc_grow by (rewrite !length_fmap; lia).
      rewrite !length_fmap. replace (Z.to_nat (rel_max rel + 20) - length cols)%nat with 20%nat by lia.
      split_and!; [done|lia|lia].
    - exists (Z.to_nat (rel_max rel) - length cols - 1)%nat. eexists _, _. split; [done|]. rewrite Ha.
      replace (Z.to_nat (rel_max rel) - length cols)%nat with (S (Z.to_nat (rel_max rel) - length cols - 1)) by lia.
      split_and!; [|lia|lia]. simpl. do 3 f_equal. lia. }
  rewrite arr_set_Ok by (rewrite length_app, !length_fmap; simpl; lia). cbn [mbind result_bind].
  eexists. split; [done|]. split; [|done]. split_and!; cbn [rel_used rel_attrs rel_max].
  - rewrite length_app. simpl. lia.
  - rewrite Hu, Nat2Z.id. rewrite insert_app_r_alt by (rewrite !length_fmap; lia).
    rewrite !length_fmap, Nat.sub_diag, !fmap_app. csimpl. rewrite <- app_assoc. simpl.
    rewrite length_app. simpl. do 3 f_equal. lia.
  - lia.
Qed.

Lemma add_columns_spec cols : forall rel cols0,
  rel_rep rel cols0 -> exists rel', add_columns rel cols = Ok rel' /\ rel_rep rel' (cols0 ++ cols).
Proof.
  induction cols as [|[sz bv] cols IH]; intros rel cols0 H.
  - exists rel. by rewrite app_nil_r.
  - cbn [add_columns]. destruct (NoDBRelationAddColumn_spec rel cols0 sz bv H) as (rel1 & -> & H1 & _).
    cbn [mbind result_bind]. destruct (IH _ _ H1) as (rel2 & -> & H2). exists rel2.
    by rewrite <- app_assoc in H2.
Qed.

Lemma NoDBRelationInit_rep name : rel_rep (NoDBRelationInit name) [].
Proof. split_and!; cbn; try done; lia. Qed.

(** A relation built by adding any number of columns reports their number,
    and for each column the unsigned size and the by-value flag it was added
    with: growing the block keeps the earlier columns. *)
Theorem NoDBRelationAddColumn_roundtrip name cols :
  Forall (fun c => 0 <= c.1 < 2 ^ 32) cols ->
  exists rel, add_columns (NoDBRelationInit name) cols = Ok rel /\
    NoDBRelationGetNumberColumns rel = Z.of_nat (length cols) /\
    forall i c, cols !! i = Some c ->
      NoDBRelationGetColumnSize rel (Z.of_nat i) = Ok c.1 /\
      NoDBRelationIsColumnByValue rel (Z.of_nat i) = Ok c.2.
Proof.
  intros Hc. destruct (add_columns_spec cols _ _ (NoDBRelationInit_rep name)) as (rel & E & Hu & Ha & _).
  exists rel. split_and!; [done|exact Hu|]. intros i c Hi. simpl in Ha.
  assert (arr_get (rel_attrs rel) (Z.of_nat i) = Ok (attr_of c)) as Hg.
  { apply arr_get_lookup. split; [lia|]. rewrite Nat2Z.id, Ha, lookup_app_l
      by (rewrite !length_fmap; by eapply lookup_lt_Some).
    by rewrite !list_lookup_fmap, Hi. }
  unfold NoDBRelationGetColumnSize, NoDBRelationIsColumnByValue. rewrite Hg. simpl.
  split; [|done]. f_equal. unfold u32, i32. rewrite wrap_swrap by lia. apply wrap_small.
  by apply (Forall_lookup_1 _ _ _ _ Hc Hi).
Qed.

Lemma NoDBRelationAddColumn_witness :
  exists rel, add_columns (NoDBRelationInit "t") (replicate 30 (4, true)) = Ok rel /\
    NoDBRelationGetNumberColumns rel = 30 /\
    forall i c, replicate 30 (4, true) !! i = Some c ->
      NoDBRelationGetColumnSize rel (Z.of_nat i) = Ok c.1 /\
      NoDBRelationIsColumnByValue rel (Z.of_nat i) = Ok c.2.
Proof.
  apply (NoDBRelationAddColumn_roundtrip "t" (replicate 30 (4, true))).
  apply Forall_replicate. simpl. lia.
Defined.

(** ** NoDBTimer.c *)
Module Timer.
Record TimeSpec_t := { tv_sec : Z; tv_nsec : Z }.
Inductive TimerType_t := PARSING | TOKENIZING | CONVERSION | IO.
#[global] Instance TimerType_eq_dec : EqDecision TimerType_t.
Proof. solve_decision. Defined.

(** The arrays indexed by [TimerType_t]. *)
Record NoDBTimer_t := {
  begin : TimerType_t -> TimeSpec_t;
  end_ : TimerType_t -> TimeSpec_t;
  elapsed : TimerType_t -> TimeSpec_t }.
Implicit Types (timer : NoDBTimer_t) (type : TimerType_t) (t : TimeSpec_t).

Definition TIMESPEC_ZERO : TimeSpec_t := {| tv_sec := 0; tv_nsec := 0 |}.
Definition NoDBTimerSetZero timer : NoDBTimer_t :=
  {| begin := fun _ => TIMESPEC_ZERO; end_ := fun _ => TIMESPEC_ZERO;
     elapsed := fun _ => TIMESPEC_ZERO |}.

Definition set_elapsed timer type t : NoDBTimer_t :=
  {| begin := begin timer; end_ := end_ timer;
     elapsed := fun ty => if decide (ty = type) then t else elapsed timer ty |}.

(** The two normalising loops; a turn moves [tv_nsec] by a second, so
    [|tv_nsec| / 10^9 + 1] turns are enough. *)
Fixpoint norm_up (fuel : nat) t : result TimeSpec_t :=
  match fuel with
  | O => Fail OutOfFuel
  | S fuel' =>
      if tv_nsec t <? 0
      then norm_up fuel' {| tv_nsec := tv_nsec t + 1000000000; tv_sec := tv_sec t - 1 |}
      else Ok t
  end.
Fixpoint norm_down (fuel : nat) t : result TimeSpec_t :=
  match fuel with
  | O => Fail OutOfFuel
  | S fuel' =>
      if 1000000000 <=? tv_nsec t
      then norm_down fuel' {| tv_nsec := tv_nsec t - 1000000000; tv_sec := tv_sec t + 1 |}
      else Ok t
  end.
Definition norm_fuel (n : Z) : nat := Z.to_nat (Z.abs n / 1000000000 + 2).
Definition normalize t : result TimeSpec_t :=
  t' ← norm_up (norm_fuel (tv_nsec t)) t; norm_down (norm_fuel (tv_nsec t')) t'.

Definition NoDBTimerUpdateElapsed timer type : result NoDBTimer_t :=
  t ← normalize
    {| tv_sec := tv_sec (elapsed timer type) + (tv_sec (end_ timer type) - tv_sec (begin timer type));
       tv_nsec := tv_nsec (elapsed timer type) + (tv_nsec (end_ timer type) - tv_nsec (begin timer type)) |};
  Ok (set_elapsed timer type t).

(** The calls of [clock_gettime] are commented out: only [elapsed] moves. *)
Definition NoDBTimerSetBegin timer type : NoDBTimer_t := timer.
Definition NoDBTimerSetEnd timer type : result NoDBTimer_t := NoDBTimerUpdateElapsed timer type.

Definition sum_one (timer2 : NoDBTimer_t) timer1 type : result NoDBTimer_t :=
  t ← normalize
    {| tv_sec := tv_sec (elapsed timer1 type) + tv_sec (elapsed timer2 type);
       tv_nsec := tv_nsec (elapsed timer1 type) + tv_nsec (elapsed timer2 type) |};
  Ok (set_elapsed timer1 type t).
Definition NoDBTimerSumElapsed (timer1 timer2 : NoDBTimer_t) : result NoDBTimer_t :=
  t1 ← sum_one timer2 timer1 PARSING;
  t2 ← sum_one timer2 t1 TOKENIZING;
  t3 ← sum_one timer2 t2 CONVERSION;
  sum_one timer2 t3 IO.

Definition nanos t : Z := tv_sec t * 1000000000 + tv_nsec t.
Definition NoDBGetElapsedTime timer type : Z :=
  match type with
  | PARSING => u64 (nanos (elapsed timer PARSING) - nanos (elapsed timer IO))
  | _ => u64 (nanos (elapsed timer type))
  end.

Definition normal t : Prop := 0 <= tv_nsec t < 1000000000.

Lemma norm_up_spec fuel : forall t,
  - (1000000000 * (Z.of_nat fuel - 1)) <= tv_nsec t < 1000000000 + 1000000000 * Z.of_nat fuel ->
  (0 < fuel)%nat ->
  exists t', norm_up fuel t = Ok t' /\ nanos t' = nanos t /\ 0 <= tv_nsec t' /\
    tv_nsec t' <= Z.max (tv_nsec t) 999999999.
Proof.
  induction fuel as [|fuel IH]; intros t Ht Hf; [lia|]. cbn [norm_up].
  destruct (Z.ltb_spec (tv_nsec t) 0) as [Hn|Hn].
  - destruct (IH {| tv_nsec := tv_nsec t + 1000000000; tv_sec := tv_sec t - 1 |})
      as (t' & -> & Hs & H0 & H1); cbn [tv_nsec tv_sec nanos] in *; [lia|lia|].
    exists t'. unfold nanos in *. simpl in *. split_and!; [done|lia..].
  - exists t. split_and!; [done|done|lia|lia].
Qed.

Lemma norm_down_spec fuel : forall t,
  0 <= tv_nsec t < 1000000000 * Z.of_nat fuel ->
  exists t', norm_down fuel t = Ok t' /\ nanos t' = nanos t /\ normal t'.
Proof.
  induction fuel as [|fuel IH]; intros t Ht; [lia|]. cbn [norm_down].
  destruct (Z.leb_spec 1000000000 (tv_nsec t)) as [Hn|Hn].
  - destruct (IH {| tv_nsec := tv_nsec t - 1000000000; tv_sec := tv_sec t + 1 |})
      as (t' & -> & Hs & H0); cbn [tv_nsec]; [lia|].
    exists t'. unfold nanos in *. simpl in *. split_and!; [done|lia|done].
  - exists t. split_and!; [done|done|]. unfold normal. lia.
Qed.

Lemma normalize_spec t :
  exists t', normalize t = Ok t' /\ nanos t' = nanos t /\ normal t'.
Proof.
  unfold normalize, norm_fuel.
  pose proof (Z.div_mod (Z.abs (tv_nsec t)) 1000000000) as Hd.
  pose proof (Z.mod_pos_bound (Z.abs (tv_nsec t)) 1000000000) as Hm.
  assert (0 <= Z.abs (tv_nsec t) / 1000000000) by (apply Z.div_pos; lia).
  destruct (norm_up_spec (Z.to_nat (Z.abs (tv_nsec t) / 1000000000 + 2)) t)
    as (t1 & -> & Hs & H0 & H1); [lia..|]. cbn [mbind result_bind].
  pose proof (Z.div_mod (Z.abs (tv_nsec t1)) 1000000000) as Hd1.
  pose proof (Z.mod_pos_bound (Z.abs (tv_nsec t1)) 1000000000) as Hm1.
  assert (0 <= Z.abs (tv_nsec t1) / 1000000000) by (apply Z.div_pos; lia).
  destruct (norm_down_spec (Z.to_nat (Z.abs (tv_nsec t1) / 1000000000 + 2)) t1)
    as (t2 & -> & Hs2 & Hn2); [lia|]. exists t2. split_and!; [done|lia|done].
Qed.

Lemma sum_one_spec timer2 timer1 type :
  exists t, sum_one timer2 timer1 type = Ok (set_elapsed timer1 type t) /\ normal t /\
    nanos t = nanos (elapsed timer1 type) + nanos (elapsed timer2 type).
Proof.
  unfold sum_one. destruct (normalize_spec
    {| tv_sec := tv_sec (elapsed timer1 type) + tv_sec (elapsed timer2 type);
       tv_nsec := tv_nsec (elapsed timer1 type) + tv_nsec (elapsed timer2 type) |})
    as (t & -> & Hs & Hn). exists t. split_and!; [done..|]. rewrite Hs. unfold nanos. simpl. lia.
Qed.

(** Summing two timers terminates with every slot normalised (nanoseconds
    below a second) and holding exactly the sum of the two elapsed times. *)
Theorem NoDBTimerSumElapsed_correct (timer1 timer2 : NoDBTimer_t) :
  exists timer, NoDBTimerSumElapsed timer1 timer2 = Ok timer /\
    forall type, normal (elapsed timer type) /\
      nanos (elapsed timer type) = nanos (elapsed timer1 type) + nanos (elapsed timer2 type).
Proof.
  unfold NoDBTimerSumElapsed.
  destruct (sum_one_spec timer2 timer1 PARSING) as (a & -> & Ha & Ea). cbn [mbind result_bind].
  edestruct (sum_one_spec timer2) as (b & -> & Hb & Eb). cbn [mbind result_bind].
  edestruct (sum_one_spec timer2) as (c & -> & Hc & Ec). cbn [mbind result_bind].
  edestruct (sum_one_spec timer2) as (d & -> & Hd & Ed). eexists. split; [done|].
  cbn [set_elapsed elapsed] in *.
  intros []; simpl; split; try done.
Qed.
End Timer.
