(* ===== verification/Cache.v ===== *)
(** * Caches of tuples (NoDBCache.c, the structure)

    A cache stores, for a range of rows of a relation, some of its columns in a
    byte buffer of fixed-size rows. A row is divided into partitions: adding a
    column takes the first free partition that is large enough and splits it.
    This file models the bookkeeping (partitions, column array, offset array,
    column map, rows); CacheData.v models the reads and writes of the buffer. *)
From S2P Require Import Prelude Relation.

Inductive NoDBCacheType_t := NODB_DATA_CACHE | NODB_POSITIONS_CACHE.
#[global] Instance NoDBCacheType_eq_dec : EqDecision NoDBCacheType_t.
Proof. solve_decision. Defined.

Record NoDBRowPartition_t := { p_used : bool; p_size : Z }.

Definition NODB_CACHE_DEFAULT_NCOLUMNS : Z := 1.

(** [c_rel] is the address of the relation. [c_nRows] and [c_sizeOfHeader] are
    not written by [NoDBCacheInit]. [c_map] is [NULL] when [c_nMap] is 0. The
    linked list of partitions is private to the cache. *)
Record NoDBCache_t := {
  c_rel : Z;
  c_type : NoDBCacheType_t;
  c_startRow : Z;
  c_usedRows : Z;
  c_nRows : option Z;
  c_startOffset : Z;
  c_rowSize : Z;
  c_rowFree : Z;
  c_cols : arr Z;
  c_nCols : Z;
  c_usedCols : Z;
  c_offset : arr Z;
  c_map : arr Z;
  c_nMap : Z;
  c_list : list NoDBRowPartition_t;
  c_buf : option (arr Z);
  c_sizeOfHeader : option Z }.
Implicit Types (c cache : NoDBCache_t) (l : list NoDBRowPartition_t) (p : NoDBRowPartition_t).

(** ** Assignments to fields *)
Definition set_rows c (used : Z) : NoDBCache_t :=
  {| c_rel := c_rel c; c_type := c_type c; c_startRow := c_startRow c; c_usedRows := used;
     c_nRows := c_nRows c; c_startOffset := c_startOffset c; c_rowSize := c_rowSize c;
     c_rowFree := c_rowFree c; c_cols := c_cols c; c_nCols := c_nCols c;
     c_usedCols := c_usedCols c; c_offset := c_offset c; c_map := c_map c; c_nMap := c_nMap c;
     c_list := c_list c; c_buf := c_buf c; c_sizeOfHeader := c_sizeOfHeader c |}.
Definition set_buf c (nRows : option Z) (buf : option (arr Z)) : NoDBCache_t :=
  {| c_rel := c_rel c; c_type := c_type c; c_startRow := c_startRow c; c_usedRows := c_usedRows c;
     c_nRows := nRows; c_startOffset := c_startOffset c; c_rowSize := c_rowSize c;
     c_rowFree := c_rowFree c; c_cols := c_cols c; c_nCols := c_nCols c;
     c_usedCols := c_usedCols c; c_offset := c_offset c; c_map := c_map c; c_nMap := c_nMap c;
     c_list := c_list c; c_buf := buf; c_sizeOfHeader := c_sizeOfHeader c |}.
Definition set_header c (hs : Z) : NoDBCache_t :=
  {| c_rel := c_rel c; c_type := c_type c; c_startRow := c_startRow c; c_usedRows := c_usedRows c;
     c_nRows := c_nRows c; c_startOffset := c_startOffset c; c_rowSize := c_rowSize c;
     c_rowFree := c_rowFree c; c_cols := c_cols c; c_nCols := c_nCols c;
     c_usedCols := c_usedCols c; c_offset := c_offset c; c_map := c_map c; c_nMap := c_nMap c;
     c_list := c_list c; c_buf := c_buf c; c_sizeOfHeader := Some hs |}.
Definition set_map c (map : arr Z) (nMap : Z) : NoDBCache_t :=
  {| c_rel := c_rel c; c_type := c_type c; c_startRow := c_startRow c; c_usedRows := c_usedRows c;
     c_nRows := c_nRows c; c_startOffset := c_startOffset c; c_rowSize := c_rowSize c;
     c_rowFree := c_rowFree c; c_cols := c_cols c; c_nCols := c_nCols c;
     c_usedCols := c_usedCols c; c_offset := c_offset c; c_map := map; c_nMap := nMap;
     c_list := c_list c; c_buf := c_buf c; c_sizeOfHeader := c_sizeOfHeader c |}.
Definition set_list c l : NoDBCache_t :=
  {| c_rel := c_rel c; c_type := c_type c; c_startRow := c_startRow c; c_usedRows := c_usedRows c;
     c_nRows := c_nRows c; c_startOffset := c_startOffset c; c_rowSize := c_rowSize c;
     c_rowFree := c_rowFree c; c_cols := c_cols c; c_nCols := c_nCols c;
     c_usedCols := c_usedCols c; c_offset := c_offset c; c_map := c_map c; c_nMap := c_nMap c;
     c_list := l; c_buf := c_buf c; c_sizeOfHeader := c_sizeOfHeader c |}.
Definition set_cols c (cols : arr Z) (nCols usedCols : Z) : NoDBCache_t :=
  {| c_rel := c_rel c; c_type := c_type c; c_startRow := c_startRow c; c_usedRows := c_usedRows c;
     c_nRows := c_nRows c; c_startOffset := c_startOffset c; c_rowSize := c_rowSize c;
     c_rowFree := c_rowFree c; c_cols := cols; c_nCols := nCols;
     c_usedCols := usedCols; c_offset := c_offset c; c_map := c_map c; c_nMap := c_nMap c;
     c_list := c_list c; c_buf := c_buf c; c_sizeOfHeader := c_sizeOfHeader c |}.
Definition set_offset c (offset : arr Z) (rowFree : Z) : NoDBCache_t :=
  {| c_rel := c_rel c; c_type := c_type c; c_startRow := c_startRow c; c_usedRows := c_usedRows c;
     c_nRows := c_nRows c; c_startOffset := c_startOffset c; c_rowSize := c_rowSize c;
     c_rowFree := rowFree; c_cols := c_cols c; c_nCols := c_nCols c;
     c_usedCols := c_usedCols c; c_offset := offset; c_map := c_map c; c_nMap := c_nMap c;
     c_list := c_list c; c_buf := c_buf c; c_sizeOfHeader := c_sizeOfHeader c |}.

(** ** Construction and accessors *)
Definition NoDBCacheInit (relp : Z) (rel : NoDBRelation_t) (type : NoDBCacheType_t)
    (startRow rowSize : Z) : result NoDBCache_t :=
  let nCols := NODB_CACHE_DEFAULT_NCOLUMNS in
  cols ← arr_fill 0 nCols (-1) (arr_alloc nCols);
  let n := NoDBRelationGetNumberColumns rel in
  offset ← arr_fill 0 n (-1) (arr_alloc n);
  Ok {| c_rel := relp; c_type := type; c_startRow := startRow; c_usedRows := 0;
        c_nRows := None; c_startOffset := u64 (rowSize * startRow);
        c_rowSize := rowSize; c_rowFree := rowSize;
        c_cols := cols; c_nCols := nCols; c_usedCols := 0; c_offset := offset;
        c_map := NULL; c_nMap := 0;
        c_list := [{| p_used := false; p_size := rowSize |}];
        c_buf := None; c_sizeOfHeader := None |}.

Definition NoDBCacheGetType cache : NoDBCacheType_t := c_type cache.
Definition NoDBCacheGetFreeSize cache : Z := c_rowFree cache.
Definition NoDBCacheCanGrow cache (row : Z) : bool := c_startRow cache <=? row.
Definition NoDBCacheGetRelation cache : Z := c_rel cache.
Definition NoDBCacheGetBegin cache : Z := c_startRow cache.
Definition NoDBCacheGetUsedRows cache : Z := c_usedRows cache.
Definition NoDBCacheSetUsedRows cache (usedRows : Z) : NoDBCache_t := set_rows cache usedRows.
Definition NoDBCacheGetHeaderSize cache : result Z :=
  match c_sizeOfHeader cache with Some z => Ok z | None => Fail Indeterminate end.
(** The header size is an unsigned int. *)
Definition NoDBCacheSetHeaderSize cache (headerSize : Z) : NoDBCache_t :=
  set_header cache (u32 headerSize).
Definition NoDBCacheGetMaxRows cache : result Z :=
  match c_nRows cache with Some z => Ok z | None => Fail Indeterminate end.

(** [nRows] is read only when the buffer exists. *)
Definition NoDBCacheSetMaxRows cache (maxRows : Z) : result NoDBCache_t :=
  match c_buf cache with
  | None =>
      Ok (set_buf cache (Some maxRows) (Some (arr_alloc (u64 (maxRows * c_rowSize cache)))))
  | Some buf =>
      nRows ← NoDBCacheGetMaxRows cache;
      if maxRows <=? nRows then Ok cache
      else Ok (set_buf cache (Some maxRows)
                 (Some (arr_realloc buf (u64 (maxRows * c_rowSize cache)))))
  end.

Definition NoDBCacheGrow cache (row : Z) : result NoDBCache_t :=
  NoDBCacheSetMaxRows cache (u64 (row - c_startRow cache + 1)).

Definition NoDBCacheHasColumn cache (col : Z) : result bool :=
  if col <? c_nMap cache then m ← arr_get (c_map cache) col; Ok (negb (m =? -1))
  else Ok false.

Definition NoDBCacheHasRow cache (row : Z) : bool :=
  (c_startRow cache <=? row) && (row <? u64 (c_startRow cache + c_usedRows cache)).

Definition NoDBCacheHit cache (rel col row : Z) : result bool :=
  if c_rel cache =? rel then
    b ← NoDBCacheHasColumn cache col;
    Ok (b && ((c_startRow cache <=? row) && (row <? u64 (c_startRow cache + c_usedRows cache))))
  else Ok false.

(** ** Partitions

    A pointer into the list of partitions is a position in it. *)
Fixpoint FindFirstPartitionFit l (size : Z) (i : nat) (offset : Z) : option nat * Z :=
  match l with
  | [] => (None, offset)
  | cur :: l' =>
      if (size <=? p_size cur) && negb (p_used cur) then (Some i, offset)
      else FindFirstPartitionFit l' size (S i) (i32 (offset + p_size cur))
  end.

Definition SplitPartition l (p1 : nat) (size : Z) : list NoDBRowPartition_t :=
  match l !! p1 with
  | Some p =>
      take p1 l ++ {| p_used := p_used p; p_size := size |}
               :: {| p_used := false; p_size := u32 (p_size p - size) |} :: drop (S p1) l
  | None => l
  end.

Definition partition_set_used l (i : nat) (used : bool) : list NoDBRowPartition_t :=
  alter (fun p => {| p_used := used; p_size := p_size p |}) i l.

Definition grow_map cache (col : Z) : result NoDBCache_t :=
  if c_nMap cache <=? col then
    map ← arr_fill (c_nMap cache) (col + 1) (-1) (arr_realloc (c_map cache) (col + 1));
    Ok (set_map cache map (col + 1))
  else Ok cache.

Definition grow_cols cache : NoDBCache_t :=
  if c_usedCols cache =? c_nCols cache then
    let nCols := c_nCols cache + NODB_CACHE_DEFAULT_NCOLUMNS in
    set_cols cache (arr_realloc (c_cols cache) nCols) nCols (c_usedCols cache)
  else cache.

(** The result is the [int] that the C function returns. *)
Definition NoDBCacheAddColumn cache (col size : Z) : result (NoDBCache_t * Z) :=
  if c_rowFree cache <? size then Ok (cache, 0)
  else
    cache1 ← grow_map cache col;
    m ← arr_get (c_map cache1) col;
    if negb (m =? -1) then Ok (cache1, 0)
    else
      let '(fit, offset) := FindFirstPartitionFit (c_list cache1) size 0 0 in
      match fit with
      | None => Ok (cache1, 0)
      | Some i =>
          let fit_size := default 0 (p_size <$> c_list cache1 !! i) in
          let l1 := if fit_size =? size then c_list cache1
                    else SplitPartition (c_list cache1) i size in
          let cache2 := set_list cache1 (partition_set_used l1 i true) in
          let cache3 := grow_cols cache2 in
          cols ← arr_set (c_cols cache3) (c_usedCols cache3) col;
          let cache4 := set_cols cache3 cols (c_nCols cache3) (c_usedCols cache3 + 1) in
          off ← arr_set (c_offset cache4) col offset;
          map ← arr_set (c_map cache4) col (c_usedCols cache4);
          let cache5 := set_map (set_offset cache4 off (c_rowFree cache4)) map (c_nMap cache4) in
          Ok (set_offset cache5 (c_offset cache5) (u32 (c_rowFree cache5 - size)), 1)
      end.

(** [None] is the pointer past the end of the list. *)
Fixpoint FindPartition l (i : nat) (offset : Z) : result nat :=
  match l with
  | [] => if 0 <? offset then Fail NullDeref else Ok i
  | p :: l' => if 0 <? offset then FindPartition l' (S i) (i32 (offset - p_size p)) else Ok i
  end.

Definition DeletePartition l (i : nat) : list NoDBRowPartition_t :=
  match l !! i, l !! S i with
  | Some p, Some next =>
      if negb (p_used next) then
        take i l ++ {| p_used := p_used p; p_size := u32 (p_size p + p_size next) |}
                 :: drop (S (S i)) l
      else l
  | _, _ => l
  end.

Definition NoDBCacheDeleteColumn cache (col size : Z) : result NoDBCache_t :=
  pos ← arr_get (c_map cache) col;
  offset ← arr_get (c_offset cache) col;
  (* Shift back arrays from deleted column. *)
  cols1 ← for_range pos (c_usedCols cache)
    (fun i cols => c ← arr_get cols (i + 1); arr_set cols i c) (c_cols cache);
  cols2 ← arr_set cols1 (c_usedCols cache - 1) (-1);
  let usedCols := c_usedCols cache - 1 in
  offsets ← arr_set (c_offset cache) col (-1);
  (* Update map. *)
  map1 ← arr_fill 0 (c_nMap cache) (-1) (c_map cache);
  map2 ← for_range 0 usedCols (fun i map => c ← arr_get cols2 i; arr_set map c i) map1;
  (* Update partitions list. *)
  p ← FindPartition (c_list cache) 0 offset;
  if decide (p < length (c_list cache))%nat then
    let l := DeletePartition (partition_set_used (c_list cache) p false) p in
    Ok (set_list (set_map (set_offset (set_cols cache cols2 (c_nCols cache) usedCols) offsets
          (u32 (c_rowFree cache + size))) map2 (c_nMap cache)) l)
  else Fail NullDeref.

(** ** The layout of a row

    The abstract state of the bookkeeping: the partitions of a row in order,
    each with the column that owns it (or none) and its size. *)
Definition layout := list (option Z * Z).
Implicit Types (lay : layout).

Definition lay_parts lay : list NoDBRowPartition_t :=
  (fun x => {| p_used := if x.1 is Some _ then true else false; p_size := x.2 |}) <$> lay.
Definition lay_cols lay : list Z := omap fst lay.
Definition lay_sum lay : Z := foldr (fun x acc => x.2 + acc) 0 lay.
Definition lay_free lay : Z :=
  foldr (fun x acc => (if x.1 is Some _ then 0 else x.2) + acc) 0 lay.

(** No free partition of [lay] can hold [size] bytes. *)
Definition no_fit lay (size : Z) : Prop := forall s, (None, s) ∈ lay -> s < size.

Record cache_wf c lay : Prop := {
  wf_list : c_list c = lay_parts lay;
  wf_sum : lay_sum lay = c_rowSize c;
  wf_size : c_rowSize c < 2 ^ 31;
  wf_pos : Forall (fun x => 0 <= x.2) lay;
  wf_free : c_rowFree c = lay_free lay;
  wf_nodup : NoDup (lay_cols lay);
  wf_cols : exists cs tl, c_cols c = (Some <$> cs) ++ tl /\ cs ≡ₚ lay_cols lay /\
    c_usedCols c = Z.of_nat (length cs) /\ c_nCols c = Z.of_nat (length (c_cols c));
  wf_nmap : c_nMap c = Z.of_nat (length (c_map c));
  wf_map : forall col, 0 <= col < c_nMap c -> exists m, arr_get (c_map c) col = Ok m /\
    (m <> -1 <-> col ∈ lay_cols lay);
  wf_map_cols : forall col, col ∈ lay_cols lay -> 0 <= col < c_nMap c;
  wf_offset : forall (l1 : layout) col s (l2 : layout), lay = l1 ++ (Some col, s) :: l2 ->
    arr_get (c_offset c) col = Ok (lay_sum l1) }.

(** What the bookkeeping of columns leaves alone. *)
Definition same_rows c c' : Prop :=
  c_rel c' = c_rel c /\ c_type c' = c_type c /\ c_startRow c' = c_startRow c /\
  c_usedRows c' = c_usedRows c /\ c_nRows c' = c_nRows c /\
  c_startOffset c' = c_startOffset c /\ c_rowSize c' = c_rowSize c /\ c_buf c' = c_buf c /\
  length (c_offset c') = length (c_offset c).

Lemma same_rows_refl c : same_rows c c.
Proof. by split_and!. Qed.

Lemma lay_sum_app (l1 l2 : layout) : lay_sum (l1 ++ l2) = lay_sum l1 + lay_sum l2.
Proof. unfold lay_sum. induction l1 as [|x l1 IH]; simpl; [done|]. rewrite IH. lia. Qed.

Lemma lay_free_app (l1 l2 : layout) : lay_free (l1 ++ l2) = lay_free l1 + lay_free l2.
Proof. unfold lay_free. induction l1 as [|x l1 IH]; simpl; [done|]. rewrite IH. lia. Qed.

Lemma lay_cols_app (l1 l2 : layout) : lay_cols (l1 ++ l2) = lay_cols l1 ++ lay_cols l2.
Proof. apply omap_app. Qed.

Lemma lay_parts_app (l1 l2 : layout) : lay_parts (l1 ++ l2) = lay_parts l1 ++ lay_parts l2.
Proof. apply fmap_app. Qed.

Lemma length_lay_parts lay : length (lay_parts lay) = length lay.
Proof. apply length_fmap. Qed.

Lemma lay_sum_nonneg lay : Forall (fun x => 0 <= x.2) lay -> 0 <= lay_sum lay.
Proof.
  induction 1 as [|x l Hx Hl IH]; [done|].
  cbn [lay_sum foldr] in *. fold (lay_sum l). lia.
Qed.

Lemma lay_free_le lay : Forall (fun x => 0 <= x.2) lay -> 0 <= lay_free lay <= lay_sum lay.
Proof.
  induction 1 as [|[o s] l Hx Hl IH]; [done|].
  cbn [lay_sum lay_free foldr fst snd] in *. fold (lay_sum l) (lay_free l).
  destruct o; lia.
Qed.

Lemma elem_of_lay_cols lay col : col ∈ lay_cols lay <-> exists s, (Some col, s) ∈ lay.
Proof.
  unfold lay_cols. rewrite list_elem_of_omap. split.
  - intros ([o s] & Hin & E). simpl in E. subst o. eauto.
  - intros [s Hin]. by exists (Some col, s).
Qed.

(** The search for a partition finds the first free one that is large enough,
    and its offset is the sum of the sizes before it. *)
Lemma FindFirstPartitionFit_spec lay size : forall i off,
  Forall (fun x => 0 <= x.2) lay -> 0 <= off -> off + lay_sum lay < 2 ^ 31 ->
  (exists (l1 : layout) s (l2 : layout), lay = l1 ++ (None, s) :: l2 /\ size <= s /\ no_fit l1 size /\
     FindFirstPartitionFit (lay_parts lay) size i off =
       (Some (i + length l1)%nat, off + lay_sum l1)) \/
  (no_fit lay size /\ (FindFirstPartitionFit (lay_parts lay) size i off).1 = None).
Proof.
  induction lay as [|[o s] lay IH]; intros i off Hpos Hoff Hsum.
  - right. split; [intros ? []%elem_of_nil|done].
  - inversion_clear Hpos as [|? ? Hs Hpos']. cbn [fst snd] in Hs.
    pose proof (lay_sum_nonneg lay Hpos') as Hnn. cbn [lay_sum foldr snd] in Hsum.
    fold (lay_sum lay) in Hsum. cbn [lay_parts fmap list_fmap FindFirstPartitionFit p_size p_used fst snd].
    fold (lay_parts lay). destruct (Z.leb_spec size s) as [Hfit|Hfit]; [destruct o as [c|]|];
      cbn [andb negb].
    2: { left. exists [], s, lay. split_and!; [done..|intros ? []%elem_of_nil|].
         f_equal; [f_equal; simpl; lia|simpl; lia]. }
    all: unfold i32; rewrite swrap_small by lia;
      destruct (IH (S i) (off + s)) as [(l1 & s' & l2 & -> & Hf & Hno & ->)|(Hno & E)]; [done|lia|lia|left|right].
    1, 3: eexists (_ :: l1), s', l2; split_and!; [done|done| |]; [|f_equal; [f_equal; simpl; lia|]].
    all: try (intros x [Hx|Hx]%elem_of_cons; [by simplify_eq|by apply Hno]).
    all: try (simpl; fold (lay_sum l1); lia).
    + split; [|done]. intros x [Hx|Hx]%elem_of_cons; [by simplify_eq|by apply Hno].
    + split; [|done]. intros x [Hx|Hx]%elem_of_cons; [by simplify_eq|by apply Hno].
Qed.

(** Taking the first [size] bytes of a free partition for [col]. *)
Definition take_partition (l1 : layout) (col size s : Z) (l2 : layout) : layout :=
  l1 ++ (Some col, size) :: (if s =? size then l2 else (None, s - size) :: l2).

Lemma partitions_taken (l1 : layout) col size s (l2 : layout) :
  0 <= size <= s -> s < 2 ^ 32 ->
  let parts := lay_parts (l1 ++ (None, s) :: l2) in
  default 0 (p_size <$> parts !! length l1) = s /\
  partition_set_used (if s =? size then parts else SplitPartition parts (length l1) size)
    (length l1) true = lay_parts (take_partition l1 col size s l2).
Proof.
  intros Hsz Hs parts. assert (parts = lay_parts l1 ++ {| p_used := false; p_size := s |} :: lay_parts l2)
    as E by (subst parts; by rewrite lay_parts_app).
  assert (parts !! length l1 = Some {| p_used := false; p_size := s |}) as El.
  { rewrite E. rewrite <- length_lay_parts. by rewrite list_lookup_middle. }
  rewrite El. split; [done|]. unfold take_partition. rewrite lay_parts_app.
  unfold partition_set_used. destruct (Z.eqb_spec s size) as [->|Hne].
  - rewrite E, alter_app_r_alt, length_lay_parts, Nat.sub_diag by (by rewrite length_lay_parts). done.
  - unfold SplitPartition. rewrite El, E. rewrite take_app_length' by (by rewrite length_lay_parts).
    rewrite alter_app_r_alt, length_lay_parts, Nat.sub_diag by (by rewrite length_lay_parts).
    cbn [alter list_alter p_used p_size]. do 2 f_equal. cbn [lay_parts fmap list_fmap fst snd].
    unfold u32. rewrite wrap_small by lia. f_equal.
    rewrite drop_app_ge by (rewrite length_lay_parts; lia).
    rewrite length_lay_parts. by replace (S (length l1) - length l1)%nat with 1%nat by lia.
Qed.

Lemma taken_sum (l1 : layout) col size s (l2 : layout) :
  lay_sum (take_partition l1 col size s l2) = lay_sum (l1 ++ (None, s) :: l2).
Proof.
  unfold take_partition. rewrite !lay_sum_app. destruct (Z.eqb_spec s size) as [->|]; simpl; lia.
Qed.

Lemma taken_free (l1 : layout) col size s (l2 : layout) :
  lay_free (take_partition l1 col size s l2) = lay_free (l1 ++ (None, s) :: l2) - size.
Proof.
  unfold take_partition. rewrite !lay_free_app. destruct (Z.eqb_spec s size) as [->|]; simpl; lia.
Qed.

Lemma taken_cols (l1 : layout) col size s (l2 : layout) :
  lay_cols (take_partition l1 col size s l2) = lay_cols l1 ++ col :: lay_cols l2 /\
  lay_cols (l1 ++ (None, s) :: l2) = lay_cols l1 ++ lay_cols l2.
Proof.
  unfold take_partition. rewrite !lay_cols_app. split; [|done].
  by destruct (s =? size).
Qed.

(** The offsets of the columns that were there do not move. *)
Lemma taken_offset (l1 : layout) col size s (l2 m1 m2 : layout) (c : Z) sz :
  take_partition l1 col size s l2 = m1 ++ (Some c, sz) :: m2 ->
  c <> col ->
  exists m1' m2', l1 ++ (None, s) :: l2 = m1' ++ (Some c, sz) :: m2' /\ lay_sum m1' = lay_sum m1.
Proof.
  unfold take_partition. intros E Hne.
  apply app_eq_app in E as (k & [[-> E]|[-> E]]).
  - destruct k as [|x k]; [simpl in E; simplify_eq|]. simpl in E. injection E as <- ->.
    exists m1, (k ++ (None, s) :: l2). split; [|done]. by rewrite <- app_assoc.
  - destruct k as [|x k]; [simpl in E; simplify_eq|]. simpl in E. injection E as <- E.
    destruct (Z.eqb_spec s size) as [->|Hs].
    + exists (l1 ++ (None, size) :: k), m2. rewrite E, <- app_assoc. split; [done|].
      rewrite !lay_sum_app. simpl. lia.
    + destruct k as [|y k]; [simplify_eq|]. simpl in E. injection E as <- ->.
      exists (l1 ++ (None, s) :: k), m2. rewrite <- app_assoc. split; [done|].
      rewrite !lay_sum_app. simpl. lia.
Qed.

Lemma taken_new (l1 : layout) col size s (l2 m1 m2 : layout) sz :
  col ∉ lay_cols (l1 ++ (None, s) :: l2) ->
  take_partition l1 col size s l2 = m1 ++ (Some col, sz) :: m2 -> m1 = l1.
Proof.
  intros Hn E. destruct (taken_cols l1 col size s l2) as [_ E2]. rewrite E2 in Hn. clear E2.
  unfold take_partition in E.
  apply app_eq_app in E as (k & [[-> E]|[-> E]]).
  - destruct k as [|x k]; [by rewrite app_nil_r|]. simpl in E. injection E as <- ->.
    destruct Hn. rewrite lay_cols_app. simpl. set_solver.
  - destruct k as [|x k]; [by rewrite app_nil_r|]. simpl in E. injection E as <- E.
    destruct Hn. apply elem_of_app. right. destruct (Z.eqb_spec s size) as [->|Hs].
    + rewrite E, lay_cols_app. simpl. set_solver.
    + destruct k as [|y k]; [simplify_eq|]. simpl in E. injection E as <- ->.
      rewrite lay_cols_app. simpl. set_solver.
Qed.

Lemma grow_map_spec c lay col :
  cache_wf c lay -> 0 <= col ->
  exists map nMap, grow_map c col = Ok (set_map c map nMap) /\
    cache_wf (set_map c map nMap) lay /\ col < nMap.
Proof.
  intros [] Hcol. unfold grow_map. destruct (Z.leb_spec (c_nMap c) col) as [Hle|Hlt].
  - pose proof (length_arr_realloc (c_map c) (col + 1)) as Hlen.
    destruct (arr_fill_spec (c_nMap c) (col + 1) (-1) (arr_realloc (c_map c) (col + 1)))
      as (map & -> & Hl & Hlk); [lia|lia|].
    exists map, (col + 1). split_and!; [done| |lia]. split; try done; cbn.
    + lia.
    + intros k Hk. destruct (decide (c_nMap c <= k)) as [Hge|Hk0].
      * exists (-1). split.
        -- apply arr_get_lookup. split; [lia|]. rewrite Hlk. by rewrite decide_True by lia.
        -- split; [done|]. intros Hin%wf_map_cols0. lia.
      * destruct (wf_map0 k) as (m & Hm & Hiff); [lia|]. exists m. split; [|done].
        apply arr_get_lookup in Hm as [_ Hm]. apply arr_get_lookup. split; [lia|].
        rewrite Hlk, decide_False by lia. rewrite arr_realloc_grow by lia.
        by rewrite lookup_app_l by lia.
    + intros k Hk%wf_map_cols0. lia.
  - exists (c_map c), (c_nMap c). split_and!; [by destruct c|by destruct c|done].
Qed.

Lemma grow_cols_spec c lay :
  cache_wf c lay ->
  exists cs t, c_cols (grow_cols c) = (Some <$> cs) ++ t /\ cs ≡ₚ lay_cols lay /\
    c_usedCols c = Z.of_nat (length cs) /\ (0 < length t)%nat /\
    c_nCols (grow_cols c) = Z.of_nat (length (c_cols (grow_cols c))) /\
    grow_cols c = set_cols c (c_cols (grow_cols c)) (c_nCols (grow_cols c)) (c_usedCols c).
Proof.
  intros []. destruct wf_cols0 as (cs & tl & Hc & Hp & Hu & Hn). exists cs.
  unfold grow_cols, NODB_CACHE_DEFAULT_NCOLUMNS.
  rewrite Hc, length_app, length_fmap in Hn.
  destruct (Z.eqb_spec (c_usedCols c) (c_nCols c)) as [E|E]; cbn [c_cols c_nCols set_cols].
  - rewrite arr_realloc_grow by (rewrite Hc, length_app, length_fmap; lia).
    exists (tl ++ replicate (Z.to_nat (c_nCols c + 1) - length (c_cols c)) None).
    rewrite Hc, app_assoc, !length_app, length_fmap, length_replicate. split_and!; try done; lia.
  - exists tl. split_and!; try done; [lia| |by destruct c]. rewrite Hc, length_app, length_fmap. lia.
Qed.

(** The stores that follow the choice of a partition. *)
Lemma arr_set_cell {A} (l : list A) (t : arr A) x :
  (0 < length t)%nat ->
  exists t', arr_set ((Some <$> l) ++ t) (Z.of_nat (length l)) x = Ok ((Some <$> (l ++ [x])) ++ t') /\
    length t = S (length t').
Proof.
  destruct t as [|y t]; simpl; [lia|]. intros _. exists t. split; [|done].
  rewrite arr_set_Ok by (rewrite length_app, length_fmap; simpl; lia). f_equal.
  rewrite Nat2Z.id, insert_app_r_alt by (rewrite length_fmap; lia).
  rewrite length_fmap, Nat.sub_diag, fmap_app, <- app_assoc. done.
Qed.

Lemma taken_wf c c' (l1 : layout) s (l2 : layout) col size cs t :
  cache_wf c (l1 ++ (None, s) :: l2) -> col ∉ lay_cols (l1 ++ (None, s) :: l2) ->
  0 <= size <= s ->
  c_list c' = lay_parts (take_partition l1 col size s l2) ->
  c_rowSize c' = c_rowSize c -> c_rowFree c' = u32 (c_rowFree c - size) ->
  c_cols c' = (Some <$> (cs ++ [col])) ++ t -> cs ≡ₚ lay_cols (l1 ++ (None, s) :: l2) ->
  c_usedCols c' = Z.of_nat (length cs) + 1 -> c_nCols c' = Z.of_nat (length (c_cols c')) ->
  c_nMap c' = c_nMap c -> arr_set (c_map c) col (c_usedCols c') = Ok (c_map c') ->
  arr_set (c_offset c) col (lay_sum l1) = Ok (c_offset c') ->
  cache_wf c' (take_partition l1 col size s l2).
Proof.
  intros [] Hnin Hsz El Ers Erf Ec Hp Eu Enc Enm Em Eo.
  destruct (taken_cols l1 col size s l2) as [Ecols Ecols0].
  assert (lay_cols (take_partition l1 col size s l2) ≡ₚ col :: lay_cols (l1 ++ (None, s) :: l2)) as Hperm
    by (rewrite Ecols, Ecols0; by rewrite Permutation_middle).
  pose proof (arr_set_inv _ _ _ _ Em) as [Hcm _].
  split; try done.
  - rewrite taken_sum. by rewrite Ers.
  - by rewrite Ers.
  - unfold take_partition. apply Forall_app in wf_pos0 as [? Hp2]. inversion_clear Hp2.
    apply Forall_app. split; [done|]. constructor; [simpl; lia|].
    destruct (s =? size); [done|]. constructor; [simpl in *; lia|done].
  - rewrite taken_free, Erf, wf_free0. unfold u32. apply wrap_small.
    pose proof (lay_free_le _ wf_pos0). rewrite lay_free_app in *. cbn [lay_free foldr fst snd] in *.
    fold (lay_free l2) in *. apply Forall_app in wf_pos0 as [Hp1 Hp2]. inversion_clear Hp2.
    pose proof (lay_free_le _ Hp1). pose proof (lay_free_le l2). rewrite wf_sum0 in *. intuition lia.
  - rewrite Hperm. by constructor.
  - exists (cs ++ [col]), t. rewrite Hperm, length_app. split_and!; [done| |rewrite Eu; simpl; lia|done].
    rewrite Hp. by rewrite Permutation_app_comm.
  - apply arr_set_inv in Em as [_ ->]. by rewrite length_insert, Enm.
  - rewrite Enm. intros k Hk. destruct (decide (k = col)) as [->|Hne].
    + exists (c_usedCols c'). split; [by eapply arr_get_set_eq|]. rewrite Hperm. split; [by left|lia].
    + destruct (wf_map0 k Hk) as (m & Hm & Hiff). exists m.
      rewrite (arr_get_set_ne _ _ _ k _ Em) by done. split; [done|].
      rewrite Hperm, elem_of_cons. naive_solver.
  - rewrite Enm. intros k. rewrite Hperm, elem_of_cons. intros [->|Hk]; [lia|]. by apply wf_map_cols0.
  - intros m1 k sz m2 E. destruct (decide (k = col)) as [->|Hne].
    + apply taken_new in E as ->; [|done]. by eapply arr_get_set_eq.
    + rewrite (arr_get_set_ne _ _ _ k _ Eo) by done.
      destruct (taken_offset _ _ _ _ _ _ _ _ _ E Hne) as (m1' & m2' & E' & <-).
      by eapply wf_offset0.
Qed.

(** A free partition is no larger than the free space, nor than the row. *)
Lemma free_partition_bounds c lay s :
  cache_wf c lay -> (None, s) ∈ lay -> 0 <= s <= c_rowFree c /\ s <= c_rowSize c.
Proof.
  intros Hwf (l1 & l2 & ->)%list_elem_of_split. rewrite (wf_free _ _ Hwf), <- (wf_sum _ _ Hwf).
  pose proof (wf_pos _ _ Hwf) as Hp. apply Forall_app in Hp as [Hp1 Hp2]. inversion_clear Hp2.
  rewrite lay_free_app, lay_sum_app. cbn [lay_free lay_sum foldr fst snd] in *.
  fold (lay_free l2) (lay_sum l2).
  pose proof (lay_free_le l1 Hp1). pose proof (lay_free_le l2). intuition lia.
Qed.

Lemma NoDBCacheAddColumn_spec c lay col size :
  cache_wf c lay -> 0 <= col < Z.of_nat (length (c_offset c)) -> 0 <= size ->
  exists c' r, NoDBCacheAddColumn c col size = Ok (c', r) /\ same_rows c c' /\
    ((r = 1 /\ col ∉ lay_cols lay /\ exists (l1 : layout) s (l2 : layout),
        lay = l1 ++ (None, s) :: l2 /\ size <= s /\ no_fit l1 size /\
        cache_wf c' (take_partition l1 col size s l2)) \/
     (r = 0 /\ (col ∈ lay_cols lay \/ no_fit lay size) /\ cache_wf c' lay)).
Proof.
  intros Hwf Hcol Hsize. unfold NoDBCacheAddColumn.
  destruct (Z.ltb_spec (c_rowFree c) size) as [Hno|Hroom].
  { exists c, 0. split_and!; [done|apply same_rows_refl|]. right. split_and!; [done| |done].
    right. intros s Hin. pose proof (free_partition_bounds _ _ _ Hwf Hin). lia. }
  destruct (grow_map_spec c lay col Hwf) as (map & nMap & -> & Hwf1 & Hn); [lia|].
  cbn [mbind result_bind]. set (c1 := set_map c map nMap) in *.
  destruct (wf_map _ _ Hwf1 col) as (m & -> & Hm); [cbn; lia|]. cbn [mbind result_bind].
  destruct (Z.eqb_spec m (-1)) as [->|Hm1]; cbn [negb].
  2: { exists c1, 0. split_and!; [done..|]. right. split_and!; [done| |done]. left. by apply Hm. }
  assert (col ∉ lay_cols lay) as Hnin by naive_solver.
  rewrite (wf_list _ _ Hwf1).
  destruct (FindFirstPartitionFit_spec lay size 0 0) as [(l1 & s & l2 & El & Hs & Hno & Ef)|(Hno & Ef)];
    [apply Hwf|lia|rewrite (wf_sum _ _ Hwf); apply Hwf| |].
  2: { destruct (FindFirstPartitionFit _ _ _ _) as [fit off]. simpl in Ef. subst fit.
       exists c1, 0. split_and!; [done..|]. right. split_and!; [done|by right|done]. }
  rewrite Ef. cbn [Nat.add].
  assert ((None, s) ∈ lay) as Hin by (rewrite El; apply elem_of_app; right; by left).
  pose proof (free_partition_bounds _ _ _ Hwf Hin) as Hsr.
  pose proof (wf_size _ _ Hwf) as Hrs.
  destruct (partitions_taken l1 col size s l2) as [E1 E2]; [lia..|]. rewrite <- El in E1, E2.
  rewrite E1, E2. clear E1 E2. subst lay.
  set (lay' := take_partition l1 col size s l2).
  destruct (grow_cols_spec c1 _ Hwf1) as (cs & t & Hgc & Hp & Hu & Ht & Hgn & Hg).
  assert (grow_cols (set_list c1 (lay_parts lay')) =
    set_cols (set_list c1 (lay_parts lay')) (c_cols (grow_cols c1)) (c_nCols (grow_cols c1)) (c_usedCols c1)) as ->.
  { unfold grow_cols in *. cbn [c_usedCols c_nCols set_list].
    destruct (c_usedCols c1 =? c_nCols c1); done. }
  cbn [c_cols c_usedCols set_cols set_list c_offset c_nCols].
  change (c_usedCols c1) with (c_usedCols c) in *. rewrite Hgc, Hu.
  destruct (arr_set_cell cs t col Ht) as (t' & -> & Ht'). cbn [mbind result_bind].
  change (c_offset c1) with (c_offset c). rewrite (arr_set_Ok (c_offset c) col) by done. cbn [mbind result_bind].
  cbn [c_map set_cols set_list c1 set_map]. pose proof (wf_nmap _ _ Hwf1) as Hnm. cbn in Hnm.
  rewrite arr_set_Ok by lia. cbn [mbind result_bind].
  eexists _, 1. split; [done|]. split; [split_and!; try done; apply length_insert|].
  left. split_and!; [done..|]. exists l1, s, l2. split_and!; [done..|].
  eapply (taken_wf c1 _ l1 s l2 col size cs t'); try done; cbn.
  - by rewrite Hgn, Hgc, !length_app, !length_fmap, length_app, Ht'; simpl; lia.
  - by rewrite arr_set_Ok by lia.
  - by rewrite arr_set_Ok by done.
Qed.

Lemma NoDBCacheInit_spec relp rel type startRow rowSize :
  0 <= rowSize < 2 ^ 31 -> 0 <= NoDBRelationGetNumberColumns rel ->
  exists c, NoDBCacheInit relp rel type startRow rowSize = Ok c /\
    cache_wf c [(None, rowSize)] /\
    Z.of_nat (length (c_offset c)) = NoDBRelationGetNumberColumns rel /\
    c_startRow c = startRow /\ c_usedRows c = 0 /\ c_startOffset c = u64 (rowSize * startRow) /\
    c_rowSize c = rowSize /\ c_buf c = None.
Proof.
  intros Hrs Hn. unfold NoDBCacheInit.
  rewrite !arr_fill_all by (apply length_arr_alloc; done). cbn [mbind result_bind].
  eexists. split; [done|]. split; [|cbn; rewrite length_fmap, length_replicate; split_and!; (done || lia)].
  split; cbn; try done; try lia.
  - repeat constructor; simpl; lia.
  - constructor.
  - exists [], [Some (-1)]. done.
  - intros col Hcol. by apply elem_of_nil in Hcol.
  - intros l1 col s l2 E. destruct l1 as [|x [|y l1]]; simplify_eq/=.
Qed.

(** Distinct columns own disjoint byte ranges of the row. *)
Lemma layout_disjoint (l1 : layout) x (l2 m1 : layout) y (m2 : layout) :
  Forall (fun x => 0 <= x.2) (l1 ++ x :: l2) -> l1 ++ x :: l2 = m1 ++ y :: m2 -> x <> y ->
  lay_sum l1 + x.2 <= lay_sum m1 \/ lay_sum m1 + y.2 <= lay_sum l1.
Proof.
  intros Hpos E Hne. apply app_eq_app in E as (k & [[-> E]|[-> E]]).
  - destruct k as [|z k]; simpl in E; simplify_eq. right. rewrite lay_sum_app. simpl.
    apply Forall_app in Hpos as [Hp _]. apply Forall_app in Hp as [_ Hp]. inversion_clear Hp.
    pose proof (lay_sum_nonneg k). fold (lay_sum k). intuition lia.
  - destruct k as [|z k]; simpl in E; simplify_eq. left. rewrite lay_sum_app. simpl.
    apply Forall_app in Hpos as [_ Hp]. inversion_clear Hp as [|? ? _ Hp2].
    apply Forall_app in Hp2 as [Hp2 _].
    pose proof (lay_sum_nonneg k). fold (lay_sum k). intuition lia.
Qed.

(** The byte range of a column in a row. *)
Definition col_range lay (col off size : Z) : Prop :=
  exists l1 l2 : layout, lay = l1 ++ (Some col, size) :: l2 /\ off = lay_sum l1.

Lemma col_range_inside c lay col off size :
  cache_wf c lay -> col_range lay col off size ->
  0 <= off /\ 0 <= size /\ off + size <= c_rowSize c /\ arr_get (c_offset c) col = Ok off.
Proof.
  intros Hwf (l1 & l2 & -> & ->). rewrite (wf_offset _ _ Hwf l1 col size l2) by done.
  rewrite <- (wf_sum _ _ Hwf), lay_sum_app. pose proof (wf_pos _ _ Hwf) as Hp.
  apply Forall_app in Hp as [Hp1 Hp2]. inversion_clear Hp2. cbn [lay_sum foldr snd] in *.
  fold (lay_sum l2). pose proof (lay_sum_nonneg l1 Hp1). pose proof (lay_sum_nonneg l2).
  split_and!; try done; intuition lia.
Qed.

Lemma col_range_disjoint c lay col1 off1 size1 col2 off2 size2 :
  cache_wf c lay -> col_range lay col1 off1 size1 -> col_range lay col2 off2 size2 ->
  col1 <> col2 -> off1 + size1 <= off2 \/ off2 + size2 <= off1.
Proof.
  intros Hwf (l1 & l2 & -> & ->) (m1 & m2 & E & ->) Hne.
  apply (layout_disjoint l1 (Some col1, size1) l2 m1 (Some col2, size2) m2); [apply Hwf|done|congruence].
Qed.

Lemma NoDBCacheHasColumn_spec c lay col :
  cache_wf c lay -> 0 <= col -> NoDBCacheHasColumn c col = Ok (bool_decide (col ∈ lay_cols lay)).
Proof.
  intros Hwf Hcol. unfold NoDBCacheHasColumn. destruct (Z.ltb_spec col (c_nMap c)).
  - destruct (wf_map _ _ Hwf col) as (m & -> & Hm); [lia|]. simpl. f_equal.
    destruct (Z.eqb_spec m (-1)); symmetry;
      [apply bool_decide_eq_false_2|apply bool_decide_eq_true_2]; naive_solver.
  - rewrite bool_decide_eq_false_2; [done|]. intros Hin%(wf_map_cols _ _ Hwf). lia.
Qed.

(** ** Properties *)

(** C31 A new cache is well formed: its row is one free partition of the whole
    row size, it has no columns and an offset cell for each column of the
    relation. *)
Theorem NoDBCacheInit_correct relp rel type startRow rowSize :
  0 <= rowSize < 2 ^ 31 -> 0 <= NoDBRelationGetNumberColumns rel ->
  exists c, NoDBCacheInit relp rel type startRow rowSize = Ok c /\
    cache_wf c [(None, rowSize)] /\
    Z.of_nat (length (c_offset c)) = NoDBRelationGetNumberColumns rel /\
    forall col row, 0 <= col -> NoDBCacheHasColumn c col = Ok false /\
      (0 <= startRow < 2 ^ 64 -> NoDBCacheHasRow c row = false).
Proof.
  intros Hr Hn. destruct (NoDBCacheInit_spec relp rel type startRow rowSize Hr Hn)
    as (c & E & Hwf & Hlen & Hsr & Hur & _). exists c. split_and!; [done..|]. intros col row Hcol.
  split; [by rewrite (NoDBCacheHasColumn_spec _ _ _ Hwf Hcol)|]. intros Hs.
  unfold NoDBCacheHasRow, u64. rewrite Hsr, Hur, wrap_small by lia.
  destruct (Z.leb_spec startRow row), (Z.ltb_spec row (startRow + 0)); done || lia.
Qed.

(** C30 [NoDBCacheAddColumn] keeps the cache well formed. It returns 1 exactly
    when the column was absent and some free partition can hold it; it then
    takes the first such partition, and the column owns its first [size] bytes.
    Otherwise it returns 0 and the layout is unchanged. The rows and the buffer
    are never touched. *)
Theorem NoDBCacheAddColumn_correct c lay col size :
  cache_wf c lay -> 0 <= col < Z.of_nat (length (c_offset c)) -> 0 <= size ->
  exists c' r, NoDBCacheAddColumn c col size = Ok (c', r) /\ same_rows c c' /\
    ((r = 1 /\ col ∉ lay_cols lay /\ exists (l1 : layout) s (l2 : layout),
        lay = l1 ++ (None, s) :: l2 /\ size <= s /\ no_fit l1 size /\
        cache_wf c' (take_partition l1 col size s l2) /\
        NoDBCacheHasColumn c' col = Ok true) \/
     (r = 0 /\ (col ∈ lay_cols lay \/ no_fit lay size) /\ cache_wf c' lay)).
Proof.
  intros Hwf Hcol Hsz.
  destruct (NoDBCacheAddColumn_spec c lay col size Hwf Hcol Hsz) as (c' & r & E & Hsame & Hr).
  exists c', r. split_and!; [done..|].
  destruct Hr as [(-> & Hn & l1 & s & l2 & El & Hs & Hno & Hwf')|Hr]; [left|by right].
  split_and!; [done..|]. exists l1, s, l2. split_and!; [done..|].
  rewrite (NoDBCacheHasColumn_spec _ _ _ Hwf') by lia. f_equal. apply bool_decide_eq_true_2.
  destruct (taken_cols l1 col size s l2) as [-> _]. apply elem_of_app. right. by left.
Qed.

(** In a well-formed cache every column owns a byte range inside the row, the
    ranges of two columns do not overlap, and [NoDBCacheHasColumn] recognises
    exactly the columns that own one. *)
Theorem cache_columns_disjoint c lay :
  cache_wf c lay ->
  (forall col, 0 <= col -> NoDBCacheHasColumn c col = Ok (bool_decide (col ∈ lay_cols lay))) /\
  (forall col, col ∈ lay_cols lay -> exists off size, col_range lay col off size) /\
  (forall col off size, col_range lay col off size ->
     0 <= off /\ off + size <= c_rowSize c /\ arr_get (c_offset c) col = Ok off) /\
  (forall col1 off1 size1 col2 off2 size2,
     col_range lay col1 off1 size1 -> col_range lay col2 off2 size2 -> col1 <> col2 ->
     off1 + size1 <= off2 \/ off2 + size2 <= off1).
Proof.
  intros Hwf. split_and!.
  - intros col. by apply NoDBCacheHasColumn_spec.
  - intros col [s (l1 & l2 & ->)%list_elem_of_split]%elem_of_lay_cols.
    eexists _, s, l1, l2. done.
  - intros col off size Hr. by destruct (col_range_inside _ _ _ _ _ Hwf Hr) as (? & ? & ? & ?).
  - intros. by eapply col_range_disjoint.
Qed.

(** A cache of 16-byte rows over a relation of eight columns, and columns added
    to it and deleted from it in turn. *)
Inductive col_op := AddCol (col size : Z) | DelCol (col size : Z).
Fixpoint run_ops c (ops : list col_op) : result NoDBCache_t :=
  match ops with
  | [] => Ok c
  | AddCol col size :: ops' => '(c', _) ← NoDBCacheAddColumn c col size; run_ops c' ops'
  | DelCol col size :: ops' => c' ← NoDBCacheDeleteColumn c col size; run_ops c' ops'
  end.
Definition example_rel : NoDBRelation_t :=
  {| rel_name := "r"; rel_used := 8; rel_max := 20;
     rel_attrs := (Some <$> replicate 8 {| attr_size := 2; attr_byValue := true |}) ++ replicate 12 None |}.
Definition run_example (ops : list col_op) : result NoDBCache_t :=
  c ← NoDBCacheInit 1 example_rel NODB_POSITIONS_CACHE 0 16; run_ops c ops.

(** [NoDBCacheDeleteColumn] takes the 1-based position that
    [NoDBCacheAddColumn] stores for a 0-based one: deleting the first of two
    columns reads past the column array, and where the array has room a
    deletion drops the column next to the one it was asked for. *)
Theorem NoDBCacheDeleteColumn_wrong_column :
  run_example [AddCol 0 2; AddCol 1 2; DelCol 0 2] = Fail OutOfBounds /\
  exists c, run_example [AddCol 0 2; AddCol 1 2; AddCol 2 2; AddCol 3 2; AddCol 4 2;
                         DelCol 4 2; DelCol 3 2; DelCol 2 2; AddCol 5 2; AddCol 6 2;
                         DelCol 5 2] = Ok c /\
    NoDBCacheHasColumn c 5 = Ok true /\ NoDBCacheHasColumn c 6 = Ok false.
Proof. split; [by vm_compute|]. eexists. split; [by vm_compute|]. split; by vm_compute. Qed.

(** ** Witnesses *)
Definition example_cache : NoDBCache_t :=
  {| c_rel := 1; c_type := NODB_POSITIONS_CACHE; c_startRow := 0; c_usedRows := 0;
     c_nRows := None; c_startOffset := 0; c_rowSize := 16; c_rowFree := 16;
     c_cols := [Some (-1)]; c_nCols := 1; c_usedCols := 0;
     c_offset := replicate 8 (Some (-1)); c_map := []; c_nMap := 0;
     c_list := [{| p_used := false; p_size := 16 |}]; c_buf := None; c_sizeOfHeader := None |}.

Lemma example_cache_wf : cache_wf example_cache [(None, 16)].
Proof.
  destruct (NoDBCacheInit_spec 1 example_rel NODB_POSITIONS_CACHE 0 16) as (c & E & H & _); [lia|done|].
  vm_compute in E. injection E as <-. exact H.
Qed.

Lemma NoDBCacheInit_witness :
  exists c, NoDBCacheInit 1 example_rel NODB_POSITIONS_CACHE 0 16 = Ok c /\
    cache_wf c [(None, 16)] /\ Z.of_nat (length (c_offset c)) = 8 /\
    forall col row, 0 <= col -> NoDBCacheHasColumn c col = Ok false /\
      (0 <= 0 < 2 ^ 64 -> NoDBCacheHasRow c row = false).
Proof.
  apply (NoDBCacheInit_correct 1 example_rel NODB_POSITIONS_CACHE 0 16); [lia|]. vm_compute. discriminate.
Defined.

Lemma NoDBCacheAddColumn_witness :
  exists c' r, NoDBCacheAddColumn example_cache 3 4 = Ok (c', r) /\ same_rows example_cache c' /\
    ((r = 1 /\ 3 ∉ lay_cols [(None, 16)] /\ exists (l1 : layout) s (l2 : layout),
        [(None, 16)] = l1 ++ (None, s) :: l2 /\ 4 <= s /\ no_fit l1 4 /\
        cache_wf c' (take_partition l1 3 4 s l2) /\ NoDBCacheHasColumn c' 3 = Ok true) \/
     (r = 0 /\ (3 ∈ lay_cols [(None, 16)] \/ no_fit [(None, 16)] 4) /\ cache_wf c' [(None, 16)])).
Proof.
  apply (NoDBCacheAddColumn_correct example_cache [(None, 16)] 3 4).
  - apply example_cache_wf.
  - cbn. lia.
  - lia.
Defined.

Definition example_cache2 : NoDBCache_t :=
  {| c_rel := 1; c_type := NODB_POSITIONS_CACHE; c_startRow := 0; c_usedRows := 0;
     c_nRows := None; c_startOffset := 0; c_rowSize := 16; c_rowFree := 12;
     c_cols := [Some 3]; c_nCols := 1; c_usedCols := 1;
     c_offset := <[3%nat := Some 0]> (replicate 8 (Some (-1)));
     c_map := [Some (-1); Some (-1); Some (-1); Some 1]; c_nMap := 4;
     c_list := [{| p_used := true; p_size := 4 |}; {| p_used := false; p_size := 12 |}];
     c_buf := None; c_sizeOfHeader := None |}.
Definition example_lay2 : layout := [(Some 3, 4); (None, 12)].

Lemma example_cache2_wf : cache_wf example_cache2 example_lay2.
Proof.
  destruct (NoDBCacheAddColumn_spec example_cache _ 3 4 example_cache_wf)
    as (c' & r & E & _ & Hr); [cbn; lia|lia|].
  vm_compute in E. injection E as <- <-.
  destruct Hr as [(_ & _ & l1 & s & l2 & El & _ & _ & H)|(? & _)]; [|done].
  destruct l1 as [|x [|y l1]]; simplify_eq/=. exact H.
Qed.

Lemma cache_columns_disjoint_witness :
  (forall col, 0 <= col ->
     NoDBCacheHasColumn example_cache2 col = Ok (bool_decide (col ∈ lay_cols example_lay2))) /\
  (forall col, col ∈ lay_cols example_lay2 -> exists off size, col_range example_lay2 col off size) /\
  (forall col off size, col_range example_lay2 col off size ->
     0 <= off /\ off + size <= c_rowSize example_cache2 /\
     arr_get (c_offset example_cache2) col = Ok off) /\
  (forall col1 off1 size1 col2 off2 size2,
     col_range example_lay2 col1 off1 size1 -> col_range example_lay2 col2 off2 size2 ->
     col1 <> col2 -> off1 + size1 <= off2 \/ off2 + size2 <= off1).
Proof. apply (cache_columns_disjoint example_cache2 example_lay2), example_cache2_wf. Defined.
