(* ===== verification/CacheData.v ===== *)
(** * The contents of a cache (NoDBCache.c, reads and writes)

    The buffer of a cache is a block of bytes; a value of a C type is stored in
    the bytes of its little-endian representation at the offset that
    [ComputeOffset] gives to its column and row. A [codec] packs what the
    reads and writes of a type need: its width, its encoding and the law that
    decoding inverts it. *)
From S2P Require Import Prelude Relation Vectors Cache.

(** ** Little-endian integers *)
Fixpoint le_bytes (n : nat) (z : Z) : list Z :=
  match n with O => [] | S n' => z mod 256 :: le_bytes n' (z / 256) end.
Fixpoint le_value (bs : list Z) : Z :=
  match bs with [] => 0 | b :: bs' => b + 256 * le_value bs' end.

Lemma length_le_bytes n z : length (le_bytes n z) = n.
Proof. revert z. induction n as [|n IH]; intros z; simpl; [done|]. by rewrite IH. Qed.

#[local] Transparent wrap.
Lemma le_value_bytes n z : le_value (le_bytes n z) = wrap (8 * Z.of_nat n) z.
Proof.
  revert z. induction n as [|n IH]; intros z; cbn [le_bytes le_value].
  - unfold wrap. by rewrite Z.mod_1_r.
  - rewrite IH. unfold wrap. replace (8 * Z.of_nat (S n)) with (8 + 8 * Z.of_nat n) by lia.
    rewrite Z.pow_add_r by lia. change (2 ^ 8) with 256.
    rewrite Z.rem_mul_r; [lia|lia|]. assert (0 < 2 ^ (8 * Z.of_nat n)) by (apply Z.pow_pos_nonneg; lia). lia.
Qed.
#[local] Opaque wrap.

(** ** Codecs *)
Record codec (V : Type) := {
  width : nat;
  enc : V -> list Z;
  dec : list Z -> V;
  valid : V -> Prop;
  length_enc : forall v, length (enc v) = width;
  dec_enc : forall v, valid v -> dec (enc v) = v }.
Arguments width {V} _.
Arguments enc {V} _ _.
Arguments dec {V} _ _.
Arguments valid {V} _ _.
Arguments length_enc {V} _ _.
Arguments dec_enc {V} _ _ _.

Lemma signed_dec_enc n v : (0 < n)%nat ->
  - 2 ^ (8 * Z.of_nat n - 1) <= v < 2 ^ (8 * Z.of_nat n - 1) ->
  swrap (8 * Z.of_nat n) (le_value (le_bytes n v)) = v.
Proof. intros Hn Hv. rewrite le_value_bytes, swrap_wrap. apply swrap_small; lia. Qed.

Lemma unsigned_dec_enc n v : 0 <= v < 2 ^ (8 * Z.of_nat n) -> le_value (le_bytes n v) = v.
Proof. intros Hv. rewrite le_value_bytes. by apply wrap_small. Qed.

(** A signed integer of [S n] bytes and an unsigned one of [n] bytes. *)
Definition signed_codec (n : nat) : codec Z :=
  {| width := S n; enc := le_bytes (S n);
     dec bs := swrap (8 * Z.of_nat (S n)) (le_value bs);
     valid v := - 2 ^ (8 * Z.of_nat (S n) - 1) <= v < 2 ^ (8 * Z.of_nat (S n) - 1);
     length_enc := length_le_bytes (S n);
     dec_enc v := signed_dec_enc (S n) v (Nat.lt_0_succ n) |}.

Definition unsigned_codec (n : nat) : codec Z :=
  {| width := n; enc := le_bytes n; dec := le_value; valid v := 0 <= v < 2 ^ (8 * Z.of_nat n);
     length_enc := length_le_bytes n; dec_enc := unsigned_dec_enc n |}.

Section pair.
Context {V W : Type} (a : codec V) (b : codec W).

Lemma pair_length (v : V * W) : length (enc a v.1 ++ enc b v.2) = (width a + width b)%nat.
Proof. by rewrite length_app, !length_enc. Qed.

Lemma pair_dec_enc (v : V * W) : valid a v.1 /\ valid b v.2 ->
  (dec a (take (width a) (enc a v.1 ++ enc b v.2)),
   dec b (drop (width a) (enc a v.1 ++ enc b v.2))) = v.
Proof.
  destruct v as [v w]. intros [Hv Hw]. simpl in *.
  rewrite take_app_length', drop_app_length' by (by rewrite length_enc). by rewrite !dec_enc.
Qed.

(** Two members of a struct, one after the other. *)
Definition pair_codec : codec (V * W) :=
  {| width := width a + width b; enc v := enc a v.1 ++ enc b v.2;
     dec bs := (dec a (take (width a) bs), dec b (drop (width a) bs));
     valid v := valid a v.1 /\ valid b v.2;
     length_enc := pair_length; dec_enc := pair_dec_enc |}.
End pair.

Definition char_codec : codec Z := signed_codec 0.
Definition short_codec : codec Z := signed_codec 1.
Definition int_codec : codec Z := signed_codec 3.
(** A double is its 64-bit pattern. *)
Definition double_codec : codec Z := unsigned_codec 8.
(** [Datum] and pointers are 64-bit words; PostgreSQL's [bool] is a [char]. *)
Definition datum_codec : codec Z := unsigned_codec 8.
Definition bool_codec : codec Z := signed_codec 0.
(** [struct NoDBPMPair_t { unsigned short pointer, width; }] *)
Definition NoDBPMPair_t : Type := Z * Z.
Definition pmpair_codec : codec NoDBPMPair_t := pair_codec (unsigned_codec 2) (unsigned_codec 2).
(** [struct NoDBDatum_t { Datum datum; bool null; }] *)
Definition NoDBDatum_t : Type := Z * Z.
Definition nodbdatum_codec : codec NoDBDatum_t := pair_codec datum_codec bool_codec.

(** ** Reads and writes *)
Definition ComputeOffset (cache : NoDBCache_t) (col row : Z) : result Z :=
  o ← arr_get (c_offset cache) col;
  Ok (u64 (row * c_rowSize cache - c_startOffset cache + o)).

Definition get_buf (cache : NoDBCache_t) : result (arr Z) :=
  match c_buf cache with Some buf => Ok buf | None => Fail NullDeref end.

Section cell.
Context {V : Type} (cd : codec V).

(** [*((T * ) (buf + at)) = val] and [*((T * ) (buf + at))]. *)
Definition store_at (cache : NoDBCache_t) (at_ : Z) (val : V) : result NoDBCache_t :=
  buf ← get_buf cache;
  buf' ← arr_store (enc cd val) at_ buf;
  Ok (set_buf cache (c_nRows cache) (Some buf')).
Definition load_at (cache : NoDBCache_t) (at_ : Z) : result V :=
  buf ← get_buf cache;
  bs ← arr_load buf at_ (width cd);
  Ok (dec cd bs).

Definition cell_set (cache : NoDBCache_t) (col row : Z) (val : V) : result NoDBCache_t :=
  at_ ← ComputeOffset cache col row; store_at cache at_ val.
Definition cell_get (cache : NoDBCache_t) (col row : Z) : result V :=
  at_ ← ComputeOffset cache col row; load_at cache at_.
End cell.

Definition NoDBCacheSetChar := cell_set char_codec.
Definition NoDBCacheGetChar := cell_get char_codec.
Definition NoDBCacheSetShortInt := cell_set short_codec.
Definition NoDBCacheGetShortInt := cell_get short_codec.
Definition NoDBCacheSetInt := cell_set int_codec.
Definition NoDBCacheGetInt := cell_get int_codec.
Definition NoDBCacheSetDouble := cell_set double_codec.
Definition NoDBCacheGetDouble := cell_get double_codec.
Definition NoDBCacheSetBool := cell_set bool_codec.
Definition NoDBCacheGetBool := cell_get bool_codec.
Definition NoDBCacheSetDatum := cell_set datum_codec.
Definition NoDBCacheGetDatum := cell_get datum_codec.
Definition NoDBCacheSetPMPair := cell_set pmpair_codec.
Definition NoDBCacheGetPMPair := cell_get pmpair_codec.

(** The [memcpy] of [len] bytes; the result of the getter is an address in the
    buffer. *)
Definition NoDBCacheSetStringVal (cache : NoDBCache_t) (col row : Z) (val : arr Z) (len : nat)
    : result NoDBCache_t :=
  at_ ← ComputeOffset cache col row;
  buf ← get_buf cache;
  bs ← arr_load val 0 len;
  buf' ← arr_store bs at_ buf;
  Ok (set_buf cache (c_nRows cache) (Some buf')).
Definition NoDBCacheGetStringVal (cache : NoDBCache_t) (col row : Z) : result Z :=
  ComputeOffset cache col row.
Definition NoDBCacheGetOffset (cache : NoDBCache_t) (col row : Z) : result Z :=
  ComputeOffset cache col row.

(** A string of its own, allocated at an address that the cell then holds. *)
Definition NoDBCacheSetStringRef (mem : gmap Z (arr Z)) (cache : NoDBCache_t) (col row : Z)
    (val : arr Z) (len : nat) : result (gmap Z (arr Z) * NoDBCache_t) :=
  let p := fresh ({[0]} ∪ dom mem : gset Z) in
  cache' ← NoDBCacheSetDatum cache col row p;
  bs ← arr_load val 0 len;
  Ok (<[p := Some <$> (bs ++ [0])]> mem, cache').
Definition NoDBCacheGetStringRef (cache : NoDBCache_t) (col row : Z) : result Z :=
  NoDBCacheGetDatum cache col row.

(** ** Vectors of columns

    [pos] is computed once; the cells are at [buf + pos + offset[col]]. *)
Definition row_pos (cache : NoDBCache_t) (row : Z) : Z :=
  u64 (row * c_rowSize cache - c_startOffset cache).

Definition NoDBCacheSetDatumVector (cache : NoDBCache_t) (datumVector null : arr Z)
    (cols : NoDBColVector_t) (row : Z) : result NoDBCache_t :=
  for_range 0 (NoDBColVectorSize cols) (fun i cache =>
    col ← NoDBColVectorGet cols i;
    o ← arr_get (c_offset cache) col;
    d ← arr_get datumVector col;
    n ← arr_get null col;
    store_at nodbdatum_codec cache (row_pos cache row + o) (d, n)) cache.

(** The objects that datums passed by reference point to: the object at address
    [a > 0] is the [a]-th one, and the arena of the caches allocates the next.
    [datumGetSize] is PostgreSQL's: the size of an object of a type of the given
    length. *)
Abbreviation objects := (list (list Z)).
Definition object_at (mem : objects) (a : Z) : result (list Z) :=
  if a <=? 0 then Fail NullDeref
  else match mem !! Z.to_nat (a - 1) with Some obj => Ok obj | None => Fail OutOfBounds end.

Definition NoDBCacheSetDatumRefVector (datumGetSize : list Z -> Z -> nat) (mem : objects) (cache : NoDBCache_t)
    (datumVector : arr Z) (attlen : arr Z) (cols : NoDBColVector_t) (row : Z) : result (objects * NoDBCache_t) :=
  for_range 0 (NoDBColVectorSize cols) (fun i '(mem, cache) =>
    col ← NoDBColVectorGet cols i;
    o ← arr_get (c_offset cache) col;
    d ← arr_get datumVector col;
    if d =? 0 then
      cache' ← store_at nodbdatum_codec cache (row_pos cache row + o) (0, 1); Ok (mem, cache')
    else
      len ← arr_get attlen col;
      obj ← object_at mem d;
      let realSize := datumGetSize obj len in
      if decide (realSize <= length obj)%nat then
        let s := Z.of_nat (length mem) + 1 in
        cache' ← store_at nodbdatum_codec cache (row_pos cache row + o) (s, 0);
        Ok (mem ++ [take realSize obj], cache')
      else Fail OutOfBounds) (mem, cache).

Definition NoDBCacheGetDatumVector (cache : NoDBCache_t) (datumVector null : arr Z)
    (cols : NoDBColVector_t) (row : Z) : result (arr Z * arr Z) :=
  for_range 0 (NoDBColVectorSize cols) (fun i '(datumVector, null) =>
    col ← NoDBColVectorGet cols i;
    o ← arr_get (c_offset cache) col;
    '(d, n) ← load_at nodbdatum_codec cache (row_pos cache row + o);
    datumVector' ← arr_set datumVector col d;
    null' ← arr_set null col n;
    Ok (datumVector', null')) (datumVector, null).

Definition NoDBCacheSetPMPairVector (cache : NoDBCache_t) (pairVector : arr NoDBPMPair_t)
    (cols : NoDBColVector_t) (row : Z) : result NoDBCache_t :=
  for_range 0 (NoDBColVectorSize cols) (fun i cache =>
    col ← NoDBColVectorGet cols i;
    o ← arr_get (c_offset cache) col;
    v ← arr_get pairVector col;
    store_at pmpair_codec cache (row_pos cache row + o) v) cache.

Definition NoDBCacheGetPMPairVector (cache : NoDBCache_t) (pairVector : arr NoDBPMPair_t)
    (cols : NoDBColVector_t) (row : Z) : result (arr NoDBPMPair_t) :=
  for_range 0 (NoDBColVectorSize cols) (fun i pairVector =>
    col ← NoDBColVectorGet cols i;
    o ← arr_get (c_offset cache) col;
    v ← load_at pmpair_codec cache (row_pos cache row + o);
    arr_set pairVector col v) pairVector.

(** ** Where the cells are *)

(** The buffer has [n] rows, and [startOffset] is the offset of the first. *)
Definition buf_ok (c : NoDBCache_t) (n : Z) (buf : arr Z) : Prop :=
  c_startOffset c = u64 (c_rowSize c * c_startRow c) /\
  c_nRows c = Some n /\ c_buf c = Some buf /\ 0 <= n /\
  n * c_rowSize c < 2 ^ 64 /\ Z.of_nat (length buf) = n * c_rowSize c.

Definition in_rows (c : NoDBCache_t) (n row : Z) : Prop :=
  c_startRow c <= row < c_startRow c + n.

Definition cell_at (c : NoDBCache_t) (row off : Z) : Z :=
  (row - c_startRow c) * c_rowSize c + off.

Section addressing.
Context (c : NoDBCache_t) (lay : layout) (n : Z) (buf : arr Z).
Hypotheses (Hwf : cache_wf c lay) (Hbuf : buf_ok c n buf).

Lemma row_in_buffer row off size :
  in_rows c n row -> 0 <= off -> off + size <= c_rowSize c ->
  0 <= (row - c_startRow c) * c_rowSize c /\
  cell_at c row off + size <= n * c_rowSize c.
Proof.
  unfold in_rows, cell_at. intros Hrow Hoff Hsize.
  pose proof (lay_sum_nonneg lay (wf_pos _ _ Hwf)) as Hrs. rewrite (wf_sum _ _ Hwf) in Hrs. nia.
Qed.

Lemma row_pos_exact row : in_rows c n row -> 0 < c_rowSize c ->
  row_pos c row = (row - c_startRow c) * c_rowSize c.
Proof.
  intros Hrow Hrs. destruct Hbuf as (Hso & _ & _ & _ & Hlt & _). unfold row_pos.
  rewrite Hso. unfold u64. rewrite wrap_sub_r.
  replace (row * c_rowSize c - c_rowSize c * c_startRow c)
    with ((row - c_startRow c) * c_rowSize c) by lia.
  apply wrap_small. destruct (row_in_buffer row 0 (c_rowSize c)); unfold cell_at in *; [done|lia..].
Qed.

(** The offset arithmetic modulo 2^64 is exact. *)
Lemma ComputeOffset_exact col row off size :
  col_range lay col off size -> in_rows c n row -> 0 < size ->
  ComputeOffset c col row = Ok (cell_at c row off).
Proof.
  intros Hr Hrow Hs. destruct (col_range_inside _ _ _ _ _ Hwf Hr) as (H0 & _ & H1 & E).
  unfold ComputeOffset. rewrite E. cbn [mbind result_bind]. f_equal.
  pose proof (row_pos_exact row Hrow) as Hp. unfold row_pos, u64 in *.
  rewrite <- wrap_add_l, Hp by lia. apply wrap_small.
  destruct (row_in_buffer row off size Hrow H0 H1). unfold cell_at in *.
  destruct Hbuf as (_ & _ & _ & _ & Hlt & _). lia.
Qed.

Lemma cell_in_buffer col row off size :
  col_range lay col off size -> in_rows c n row ->
  0 <= cell_at c row off /\ cell_at c row off + size <= Z.of_nat (length buf).
Proof.
  intros Hr Hrow. destruct (col_range_inside _ _ _ _ _ Hwf Hr) as (H0 & _ & H1 & _).
  destruct (row_in_buffer row off size Hrow H0 H1). destruct Hbuf as (_ & _ & _ & _ & _ & ->).
  unfold cell_at in *. lia.
Qed.

(** Cells of different columns or rows do not overlap. *)
Lemma cells_disjoint col1 row1 off1 size1 col2 row2 off2 size2 :
  col_range lay col1 off1 size1 -> col_range lay col2 off2 size2 ->
  in_rows c n row1 -> in_rows c n row2 -> (col1, row1) <> (col2, row2) ->
  cell_at c row1 off1 + size1 <= cell_at c row2 off2 \/
  cell_at c row2 off2 + size2 <= cell_at c row1 off1.
Proof.
  intros Hr1 Hr2 Hrow1 Hrow2 Hne.
  destruct (col_range_inside _ _ _ _ _ Hwf Hr1) as (H0 & H1 & H2 & _).
  destruct (col_range_inside _ _ _ _ _ Hwf Hr2) as (K0 & K1 & K2 & _).
  unfold cell_at. destruct (decide (row1 = row2)) as [->|Hrows].
  - assert (col1 <> col2) as Hc by congruence.
    destruct (col_range_disjoint _ _ _ _ _ _ _ _ Hwf Hr1 Hr2 Hc); lia.
  - unfold in_rows in *. assert (row1 < row2 \/ row2 < row1) as [Hlt|Hlt] by lia; [left|right]; nia.
Qed.
End addressing.

(** ** The cache as a finite map from cells to values *)
Section contents.
Context {V : Type} (cd : codec V).

Definition cell_ok (c : NoDBCache_t) (lay : layout) (n : Z) (col row off : Z) : Prop :=
  in_rows c n row /\ exists size, col_range lay col off size /\ (0 < width cd)%nat /\
    Z.of_nat (width cd) <= size.

(** The refinement relation: the bytes of every cell of [m] encode its value. *)
Record cache_rep (c : NoDBCache_t) (lay : layout) (n : Z) (m : gmap (Z * Z) V) : Prop := {
  rep_wf : cache_wf c lay;
  rep_buf : exists buf, buf_ok c n buf /\
    forall col row v, m !! (col, row) = Some v -> valid cd v /\ exists off,
      cell_ok c lay n col row off /\
      arr_load buf (cell_at c row off) (width cd) = Ok (enc cd v) }.

Lemma store_at_rep c lay n m col row off v :
  cache_rep c lay n m -> cell_ok c lay n col row off -> valid cd v ->
  exists buf', store_at cd c (cell_at c row off) v = Ok (set_buf c (c_nRows c) (Some buf')) /\
    cache_rep (set_buf c (c_nRows c) (Some buf')) lay n (<[(col, row) := v]> m).
Proof.
  intros [Hwf (buf & Hbuf & Hm)] (Hrow & size & Hr & Hw0 & Hw) Hv.
  destruct (cell_in_buffer _ _ _ _ Hwf Hbuf col row off size Hr Hrow) as [H0 H1].
  destruct (arr_store_lookup (enc cd v) (cell_at c row off) buf) as (buf' & E & Hlen & _);
    [done|rewrite length_enc; lia|].
  exists buf'. unfold store_at, get_buf. destruct Hbuf as (B1 & B2 & B3 & B4 & B5 & B6). rewrite B3.
  cbn [mbind result_bind]. rewrite E. cbn [mbind result_bind]. split; [done|].
  assert (cache_wf (set_buf c (c_nRows c) (Some buf')) lay) as Hwf' by (destruct Hwf; by split).
  split; [done|]. exists buf'. split; [by split_and!; [..|rewrite Hlen]|].
  intros col' row' w Hl. destruct (decide ((col, row) = (col', row'))) as [Eq|Hne].
  - injection Eq as <- <-. rewrite lookup_insert_eq in Hl. injection Hl as <-. split; [done|].
    exists off. split; [split; [done|by exists size]|]. rewrite <- (length_enc cd v).
    apply (arr_load_store_eq _ (cell_at c row off) buf); [done|rewrite length_enc; lia|done].
  - rewrite lookup_insert_ne in Hl by done.
    destruct (Hm _ _ _ Hl) as (Hvw & off' & (Hrow' & size' & Hr' & Hw0' & Hw') & Hld).
    split; [done|]. exists off'. split; [split; [done|by exists size']|]. rewrite <- Hld.
    apply (arr_load_store_ne (enc cd v) (cell_at c row off) buf); [done|rewrite length_enc; lia|done|]. rewrite length_enc.
    destruct (cells_disjoint c lay n Hwf col row off size col' row' off' size'); [done..|lia|].
    change (cell_at (set_buf c _ _)) with (cell_at c). lia.
Qed.

Lemma load_at_rep c lay n m col row v off :
  cache_rep c lay n m -> m !! (col, row) = Some v -> cell_ok c lay n col row off ->
  load_at cd c (cell_at c row off) = Ok v.
Proof.
  intros [Hwf (buf & Hbuf & Hm)] Hl (Hrow & size & Hr & _).
  destruct (Hm _ _ _ Hl) as (Hv & off' & (_ & size' & Hr' & _) & Hld).
  destruct (col_range_inside _ _ _ _ _ Hwf Hr) as (_ & _ & _ & E).
  destruct (col_range_inside _ _ _ _ _ Hwf Hr') as (_ & _ & _ & E').
  rewrite E in E'. injection E' as <-. unfold load_at, get_buf.
  destruct Hbuf as (_ & _ & -> & _). cbn [mbind result_bind]. rewrite Hld. cbn [mbind result_bind].
  by rewrite dec_enc.
Qed.

Lemma cell_ok_compute c lay n buf col row off :
  cache_wf c lay -> buf_ok c n buf -> cell_ok c lay n col row off ->
  ComputeOffset c col row = Ok (cell_at c row off) /\
  arr_get (c_offset c) col = Ok off /\ row_pos c row + off = cell_at c row off.
Proof.
  intros Hwf Hbuf (Hrow & size & Hr & Hw0 & Hw).
  destruct (col_range_inside _ _ _ _ _ Hwf Hr) as (H0 & _ & H1 & E). split_and!; [|done|].
  - eapply ComputeOffset_exact; [done..|lia].
  - unfold cell_at. rewrite (row_pos_exact c lay n buf) by (done || lia). done.
Qed.

Lemma cell_set_rep c lay n m col row off v :
  cache_rep c lay n m -> cell_ok c lay n col row off -> valid cd v ->
  exists c', cell_set cd c col row v = Ok c' /\ cache_rep c' lay n (<[(col, row) := v]> m).
Proof.
  intros Hrep Hok Hv. destruct (store_at_rep c lay n m col row off v Hrep Hok Hv) as (buf' & E & H').
  destruct Hrep as [Hwf (buf & Hbuf & _)]. unfold cell_set.
  destruct (cell_ok_compute c lay n buf col row off Hwf Hbuf Hok) as (-> & _). eauto.
Qed.

Lemma cell_get_rep c lay n m col row v :
  cache_rep c lay n m -> m !! (col, row) = Some v -> cell_get cd c col row = Ok v.
Proof.
  intros Hrep Hl. pose proof Hrep as [Hwf (buf & Hbuf & Hm)].
  destruct (Hm _ _ _ Hl) as (_ & off & Hok & _). unfold cell_get.
  destruct (cell_ok_compute c lay n buf col row off Hwf Hbuf Hok) as (-> & _).
  cbn [mbind result_bind]. by eapply load_at_rep.
Qed.

(** ** Growing *)
Lemma set_buf_wf c lay nr buf : cache_wf c lay -> cache_wf (set_buf c nr buf) lay.
Proof. intros []. by split. Qed.

Lemma SetMaxRows_first c lay maxRows :
  cache_wf c lay -> c_startOffset c = u64 (c_rowSize c * c_startRow c) -> c_buf c = None ->
  0 <= maxRows -> maxRows * c_rowSize c < 2 ^ 64 ->
  exists c', NoDBCacheSetMaxRows c maxRows = Ok c' /\ cache_rep c' lay maxRows ∅.
Proof.
  intros Hwf Hso Hb Hm Hlt. unfold NoDBCacheSetMaxRows. rewrite Hb. eexists. split; [done|].
  pose proof (lay_sum_nonneg lay (wf_pos _ _ Hwf)) as Hrs. rewrite (wf_sum _ _ Hwf) in Hrs.
  split; [by apply set_buf_wf|]. eexists. split; [|intros ? ? ?; by rewrite lookup_empty].
  split_and!; try done. unfold u64. rewrite wrap_small by nia. rewrite length_arr_alloc by nia. done.
Qed.

Lemma SetMaxRows_grow c lay n m maxRows :
  cache_rep c lay n m -> 0 <= maxRows -> maxRows * c_rowSize c < 2 ^ 64 ->
  exists c', NoDBCacheSetMaxRows c maxRows = Ok c' /\ cache_rep c' lay (Z.max n maxRows) m /\
    c_startRow c' = c_startRow c.
Proof.
  intros [Hwf (buf & (B1 & B2 & B3 & B4 & B5 & B6) & Hm)] H0 Hlt.
  unfold NoDBCacheSetMaxRows, NoDBCacheGetMaxRows.
  rewrite B3, B2. cbn [mbind result_bind]. destruct (Z.leb_spec maxRows n) as [Hle|Hgt].
  - exists c. rewrite Z.max_l by done. split_and!; [done| |done]. split; [done|]. exists buf. done.
  - eexists. rewrite Z.max_r by lia. split; [done|]. split; [|done].
    pose proof (lay_sum_nonneg lay (wf_pos _ _ Hwf)) as Hrs. rewrite (wf_sum _ _ Hwf) in Hrs.
    unfold u64. rewrite wrap_small by nia. split; [by apply set_buf_wf|].
    eexists. split; [split_and!; try done; rewrite length_arr_realloc by nia; done|].
    intros col row v Hl. destruct (Hm _ _ _ Hl) as (Hv & off & ((Hr1 & Hr2) & Hcell) & Hld).
    split; [done|]. exists off. split; [split; [split; cbn; lia|done]|].
    rewrite arr_realloc_grow by nia. by apply arr_load_grow.
Qed.

(** Adding a column keeps every cell of the cache. *)
Lemma take_partition_col_range (l1 : layout) s (l2 : layout) col size col' off' size' :
  col ∉ lay_cols (l1 ++ (None, s) :: l2) ->
  col_range (l1 ++ (None, s) :: l2) col' off' size' ->
  col_range (take_partition l1 col size s l2) col' off' size'.
Proof.
  intros Hn (m1 & m2 & E & ->). unfold take_partition. apply app_eq_app in E as (k & [[-> E]|[-> E]]).
  - destruct k as [|x k]; [simplify_eq|]. simpl in E. injection E as <- ->.
    eexists m1, _. split; [by rewrite <- app_assoc|done].
  - destruct k as [|x k]; [simplify_eq|]. simpl in E. injection E as <- ->.
    destruct (Z.eqb_spec s size) as [->|Hs].
    + exists (l1 ++ (Some col, size) :: k), m2. rewrite <- app_assoc. split; [done|].
      rewrite !lay_sum_app. simpl. lia.
    + exists (l1 ++ (Some col, size) :: (None, s - size) :: k), m2. rewrite <- app_assoc. split; [done|].
      rewrite !lay_sum_app. simpl. lia.
Qed.

Lemma AddColumn_rep c lay n m col size :
  cache_rep c lay n m -> 0 <= col < Z.of_nat (length (c_offset c)) -> 0 <= size ->
  exists c' r lay', NoDBCacheAddColumn c col size = Ok (c', r) /\ cache_rep c' lay' n m /\
    (forall col' off' size', col_range lay col' off' size' -> col_range lay' col' off' size') /\
    (r = 1 -> exists off, col_range lay' col off size).
Proof.
  intros [Hwf (buf & (B1 & B2 & B3 & B4 & B5 & B6) & Hm)] Hcol Hsize.
  destruct (NoDBCacheAddColumn_spec c lay col size Hwf Hcol Hsize)
    as (c' & r & E & (S1 & S2 & S3 & S4 & S5 & S6 & S7 & S8 & S9) & Hr).
  assert (exists lay', cache_wf c' lay' /\
    (forall col' off' size', col_range lay col' off' size' -> col_range lay' col' off' size') /\
    (r = 1 -> exists off, col_range lay' col off size)) as (lay' & Hwf' & Hk & Hnew).
  { destruct Hr as [(-> & Hn & l1 & s & l2 & -> & _ & _ & Hwf')|(-> & _ & Hwf')]; [|by exists lay].
    eexists. split; [exact Hwf'|]. split; [intros; by apply take_partition_col_range|].
    intros _. exists (lay_sum l1), l1. unfold take_partition. eauto. }
  exists c', r, lay'. split_and!; [done| |done..]. split; [done|]. exists buf. split.
  - unfold buf_ok. rewrite S3, S5, S6, S7, S8. done.
  - intros k row v Hl. destruct (Hm _ _ _ Hl) as (Hv & off & (Hrow & sz & Hcr & Hw) & Hld).
    split; [done|]. exists off. unfold cell_ok, cell_at, in_rows in *. rewrite S3, S7.
    split; [split; [done|]|done]. exists sz. split; [by apply Hk|done].
Qed.

(** ** Vectors *)
Lemma vector_store_rep c lay n m (cols : list Z) row (read : Z -> result V) (val : Z -> V) :
  cache_rep c lay n m ->
  (forall col, col ∈ cols -> read col = Ok (val col) /\ valid cd (val col) /\
     exists off, cell_ok c lay n col row off) ->
  exists c' m', for_range 0 (NoDBColVectorSize (col_vector cols)) (fun i cache =>
      col ← NoDBColVectorGet (col_vector cols) i;
      o ← arr_get (c_offset cache) col;
      v ← read col;
      store_at cd cache (row_pos cache row + o) v) c = Ok c' /\
    (exists nr buf', c' = set_buf c nr buf') /\ cache_rep c' lay n m' /\
    (forall col, col ∈ cols -> m' !! (col, row) = Some (val col)) /\
    (forall col row', col ∉ cols \/ row' <> row -> m' !! (col, row') = m !! (col, row')).
Proof.
  intros Hrep Hcols.
  pose (I := fun i c' => (exists nr buf', c' = set_buf c nr buf') /\ exists m', cache_rep c' lay n m' /\
    (forall k col, cols !! k = Some col -> Z.of_nat k < i -> m' !! (col, row) = Some (val col)) /\
    (forall col row', col ∉ cols \/ row' <> row -> m' !! (col, row') = m !! (col, row'))).
  edestruct (for_range_inv I 0 (NoDBColVectorSize (col_vector cols))) as (c' & -> & Hbuf & m' & H1 & H2 & H3).
  - cbn. lia.
  - split; [exists (c_nRows c), (c_buf c); by destruct c|]. exists m. split_and!; [exact Hrep|lia|done].
  - cbn. intros i c0 Hi ((nr & buf' & ->) & m0 & Hr0 & Hv0 & Hf0).
    destruct (col_read cols i Hi) as (col & Hcol & Eg). unfold NoDBColVectorGet. cbn. rewrite Eg.
    cbn [mbind result_bind]. destruct (Hcols col) as (Erd & Hv & off & Hok);
      [by eapply list_elem_of_lookup_2|].
    pose proof (rep_wf _ _ _ _ Hr0) as Hwf0. destruct (rep_buf _ _ _ _ Hr0) as (b0 & Hb0 & _).
    destruct (cell_ok_compute _ lay n b0 col row off Hwf0 Hb0 Hok) as (_ & Eo & Ep). cbn in Eo.
    rewrite Eo. cbn [mbind result_bind]. rewrite Erd. cbn [mbind result_bind]. rewrite Ep.
    destruct (store_at_rep _ lay n m0 col row off (val col) Hr0 Hok Hv) as (b1 & -> & Hr1).
    eexists. split; [done|]. split; [by eexists _, _|]. eexists. split; [exact Hr1|]. split.
    + intros k ck Hk Hlt. destruct (decide (ck = col)) as [->|Hne]; [by rewrite lookup_insert_eq|].
      rewrite lookup_insert_ne by congruence. apply (Hv0 k); [done|].
      destruct (decide (Z.of_nat k = i)) as [<-|]; [|lia]. rewrite Nat2Z.id in Hcol. congruence.
    + intros ck row' Hd. rewrite lookup_insert_ne; [by apply Hf0|].
      intros [= <- <-]. apply list_elem_of_lookup_2 in Hcol. naive_solver.
  - exists c', m'. split_and!; [done|done|done| |done]. intros col [k Hk]%list_elem_of_lookup.
    apply (H2 k); [done|]. apply lookup_lt_Some in Hk. cbn. lia.
Qed.
End contents.

(** ** Reading vectors back *)
Section vector_load.
Context {V : Type} (cd : codec V) (c : NoDBCache_t) (lay : layout) (n : Z) (m : gmap (Z * Z) V).
Context (cols : list Z) (row : Z) (val : Z -> V).
Hypothesis Hrep : cache_rep cd c lay n m.
Hypothesis Hval : forall col, col ∈ cols -> m !! (col, row) = Some (val col).

Lemma vector_load_cell i :
  0 <= i < Z.of_nat (length cols) -> exists col o, cols !! Z.to_nat i = Some col /\
    NoDBColVectorGet (col_vector cols) i = Ok col /\ arr_get (c_offset c) col = Ok o /\
    load_at cd c (row_pos c row + o) = Ok (val col).
Proof.
  intros Hi. destruct (col_read cols i Hi) as (col & Hcol & Eg).
  pose proof (Hval col) as Hl. pose proof Hrep as [Hwf (buf & Hbuf & Hm)].
  destruct (Hm col row (val col)) as (_ & off & Hok & _);
    [apply Hl; by eapply list_elem_of_lookup_2|].
  destruct (cell_ok_compute cd c lay n buf col row off Hwf Hbuf Hok) as (_ & Eo & Ep).
  exists col, off. split_and!; [done..|]. rewrite Ep. eapply load_at_rep; [done| |done].
  apply Hl. by eapply list_elem_of_lookup_2.
Qed.

(** The array that the loop fills: [f col] at the columns read so far. *)
Definition filled {B} (f : Z -> B) (a0 : arr B) (i : Z) (a : arr B) : Prop :=
  length a = length a0 /\
  (forall k col, cols !! k = Some col -> Z.of_nat k < i -> arr_get a col = Ok (f col)) /\
  (forall col, col ∉ cols -> arr_get a col = arr_get a0 col).

Lemma filled_step {B} (f : Z -> B) a0 i a col :
  cols !! Z.to_nat i = Some col -> 0 <= i -> 0 <= col < Z.of_nat (length a0) -> filled f a0 i a ->
  exists a', arr_set a col (f col) = Ok a' /\ filled f a0 (i + 1) a'.
Proof.
  intros Hcol Hi Hr (Hl & Hk & Hn). rewrite arr_set_Ok by lia.
  set (a' := <[Z.to_nat col := Some (f col)]> a).
  assert (arr_set a col (f col) = Ok a') as E by (apply arr_set_Ok; lia).
  exists a'. split; [done|]. split_and!; [subst a'; by rewrite length_insert| |].
  - intros k ck Hck Hlt. destruct (decide (ck = col)) as [->|Hne]; [by eapply arr_get_set_eq|].
    rewrite (arr_get_set_ne _ _ _ ck _ E) by done. apply (Hk k); [done|].
    destruct (decide (Z.of_nat k = i)) as [<-|]; [|lia]. rewrite Nat2Z.id in Hcol. congruence.
  - intros ck Hck. rewrite (arr_get_set_ne _ _ _ ck _ E); [by apply Hn|].
    intros ->. by apply list_elem_of_lookup_2 in Hcol.
Qed.

Lemma filled_done {B} (f : Z -> B) a0 a :
  filled f a0 (Z.of_nat (length cols)) a ->
  (forall col, col ∈ cols -> arr_get a col = Ok (f col)) /\
  (forall col, col ∉ cols -> arr_get a col = arr_get a0 col).
Proof.
  intros (_ & Hk & Hn). split; [|done]. intros col [k Hc]%list_elem_of_lookup.
  apply (Hk k); [done|]. apply lookup_lt_Some in Hc. lia.
Qed.

Lemma filled_start {B} (f : Z -> B) a0 : filled f a0 0 a0.
Proof. split_and!; [done|lia|done]. Qed.
End vector_load.

Lemma GetPMPairVector_spec c lay n m cols row val pv :
  cache_rep pmpair_codec c lay n m ->
  (forall col, col ∈ cols -> m !! (col, row) = Some (val col)) ->
  (forall col, col ∈ cols -> 0 <= col < Z.of_nat (length pv)) ->
  exists pv', NoDBCacheGetPMPairVector c pv (col_vector cols) row = Ok pv' /\
    filled cols val pv (Z.of_nat (length cols)) pv'.
Proof.
  intros Hrep Hval Hlen. apply (for_range_inv (filled cols val pv)); [cbn; lia|apply filled_start|].
  cbn. intros i a Hi Hf.
  destruct (vector_load_cell _ _ _ _ _ _ _ _ Hrep Hval i Hi) as (col & o & Hc & -> & Eo & El).
  cbn [mbind result_bind]. rewrite Eo. cbn [mbind result_bind]. rewrite El. cbn [mbind result_bind].
  apply filled_step; [done|lia| |done]. apply Hlen. by eapply list_elem_of_lookup_2.
Qed.

Lemma GetDatumVector_spec c lay n m cols row val dv nv :
  cache_rep nodbdatum_codec c lay n m ->
  (forall col, col ∈ cols -> m !! (col, row) = Some (val col)) ->
  (forall col, col ∈ cols -> 0 <= col < Z.of_nat (length dv) /\ 0 <= col < Z.of_nat (length nv)) ->
  exists dv' nv', NoDBCacheGetDatumVector c dv nv (col_vector cols) row = Ok (dv', nv') /\
    filled cols (fun col => (val col).1) dv (Z.of_nat (length cols)) dv' /\
    filled cols (fun col => (val col).2) nv (Z.of_nat (length cols)) nv'.
Proof.
  intros Hrep Hval Hlen.
  pose (I := fun i (s : arr Z * arr Z) => filled cols (fun col => (val col).1) dv i s.1 /\
    filled cols (fun col => (val col).2) nv i s.2).
  assert (exists s, NoDBCacheGetDatumVector c dv nv (col_vector cols) row = Ok s /\
    I (Z.of_nat (length cols)) s) as ([dv' nv'] & E & H1 & H2); [|by exists dv', nv'].
  apply (for_range_inv I); [cbn; lia|split; apply filled_start|].
  cbn. intros i [d0 n0] Hi [Hd Hn].
  destruct (vector_load_cell _ _ _ _ _ _ _ _ Hrep Hval i Hi) as (col & o & Hc & -> & Eo & El).
  assert (col ∈ cols) as Hin by (by eapply list_elem_of_lookup_2). destruct (Hlen col Hin) as [L1 L2].
  cbn [mbind result_bind]. rewrite Eo. cbn [mbind result_bind]. rewrite El. cbn [mbind result_bind].
  destruct (val col) as [dc nc] eqn:Ev.
  destruct (filled_step cols (fun col => (val col).1) dv i d0 col) as (d1 & Ed & Hd1); [done|lia|done..|].
  destruct (filled_step cols (fun col => (val col).2) nv i n0 col) as (n1 & En & Hn1); [done|lia|done..|].
  cbn beta in Ed, En. rewrite Ev in Ed, En. cbn in Ed, En. rewrite Ed. cbn [mbind result_bind].
  rewrite En. cbn [mbind result_bind]. by eexists.
Qed.

Lemma SetDatumVector_unfold c dv nv cols row :
  NoDBCacheSetDatumVector c dv nv cols row =
  for_range 0 (NoDBColVectorSize cols) (fun i cache =>
    col ← NoDBColVectorGet cols i;
    o ← arr_get (c_offset cache) col;
    v ← (d ← arr_get dv col; x ← arr_get nv col; Ok (d, x));
    store_at nodbdatum_codec cache (row_pos cache row + o) v) c.
Proof.
  apply for_range_ext. intros i s. destruct (NoDBColVectorGet cols i) as [col|]; [|done].
  cbn [mbind result_bind]. destruct (arr_get (c_offset s) col); [|done]. cbn [mbind result_bind].
  by destruct (arr_get dv col), (arr_get nv col).
Qed.

(** ** Properties *)

(** For the positional-map cells, [NoDBCacheSetPMPair] refines insertion into
    a finite map from (column, row) to pairs and [NoDBCacheGetPMPair] refines
    lookup: a write lands inside the buffer, is read back exactly, and no other
    cell of the cache changes. *)
Theorem NoDBCachePMPair_refines c lay n m col row off v :
  cache_rep pmpair_codec c lay n m -> cell_ok pmpair_codec c lay n col row off ->
  valid pmpair_codec v ->
  exists c', NoDBCacheSetPMPair c col row v = Ok c' /\
    cache_rep pmpair_codec c' lay n (<[(col, row) := v]> m) /\
    forall col' row' w, <[(col, row) := v]> m !! (col', row') = Some w ->
      NoDBCacheGetPMPair c' col' row' = Ok w.
Proof.
  intros Hrep Hok Hv. destruct (cell_set_rep _ _ _ _ _ _ _ _ _ Hrep Hok Hv) as (c' & E & Hr').
  exists c'. split_and!; [done..|]. intros. by eapply cell_get_rep.
Qed.

(** The same for the line lengths that the end-of-line cache keeps as signed
    16-bit integers. *)
Theorem NoDBCacheShortInt_refines c lay n m col row off v :
  cache_rep short_codec c lay n m -> cell_ok short_codec c lay n col row off ->
  - 2 ^ 15 <= v < 2 ^ 15 ->
  exists c', NoDBCacheSetShortInt c col row v = Ok c' /\
    cache_rep short_codec c' lay n (<[(col, row) := v]> m) /\
    forall col' row' w, <[(col, row) := v]> m !! (col', row') = Some w ->
      NoDBCacheGetShortInt c' col' row' = Ok w.
Proof.
  intros Hrep Hok Hv. destruct (cell_set_rep _ _ _ _ _ _ _ _ _ Hrep Hok Hv) as (c' & E & Hr').
  exists c'. split_and!; [done..|]. intros. by eapply cell_get_rep.
Qed.

(** C29 A row of datums written with [NoDBCacheSetDatumVector] and read back with
    [NoDBCacheGetDatumVector] over the same columns gives the same datums and
    null flags, leaves the entries of other columns alone, and the cells of
    other columns and rows of the cache keep their values. *)
Theorem NoDBCacheDatumVector_roundtrip c lay n m cols row dv nv dv0 nv0 (d x : Z -> Z) :
  cache_rep nodbdatum_codec c lay n m ->
  (forall col, col ∈ cols -> (exists off, cell_ok nodbdatum_codec c lay n col row off) /\
     arr_get dv col = Ok (d col) /\ arr_get nv col = Ok (x col) /\
     valid nodbdatum_codec (d col, x col) /\
     0 <= col < Z.of_nat (length dv0) /\ 0 <= col < Z.of_nat (length nv0)) ->
  exists c' m' dv' nv',
    NoDBCacheSetDatumVector c dv nv (col_vector cols) row = Ok c' /\
    cache_rep nodbdatum_codec c' lay n m' /\
    (forall col row', col ∉ cols \/ row' <> row -> m' !! (col, row') = m !! (col, row')) /\
    NoDBCacheGetDatumVector c' dv0 nv0 (col_vector cols) row = Ok (dv', nv') /\
    (forall col, col ∈ cols -> arr_get dv' col = Ok (d col) /\ arr_get nv' col = Ok (x col)) /\
    (forall col, col ∉ cols -> arr_get dv' col = arr_get dv0 col /\ arr_get nv' col = arr_get nv0 col).
Proof.
  intros Hrep Hc. rewrite SetDatumVector_unfold.
  destruct (vector_store_rep nodbdatum_codec c lay n m cols row
    (fun col => dd ← arr_get dv col; xx ← arr_get nv col; Ok (dd, xx)) (fun col => (d col, x col)) Hrep)
    as (c' & m' & E & _ & Hr' & Hm' & Hf).
  { intros col Hin. destruct (Hc col Hin) as (Hok & -> & -> & Hv & _). done. }
  destruct (GetDatumVector_spec c' lay n m' cols row (fun col => (d col, x col)) dv0 nv0 Hr' Hm')
    as (dv' & nv' & Eg & [F1 F2]%filled_done & [G1 G2]%filled_done).
  { intros col Hin. by destruct (Hc col Hin) as (_ & _ & _ & _ & ?). }
  exists c', m', dv', nv'. split_and!; try done; auto.
Qed.

(** A row of positions written with [NoDBCacheSetPMPairVector] is read back
    by [NoDBCacheGetPMPairVector], and the other cells keep their values. *)
Theorem NoDBCachePMPairVector_roundtrip c lay n m cols row pv pv0 (val : Z -> NoDBPMPair_t) :
  cache_rep pmpair_codec c lay n m ->
  (forall col, col ∈ cols -> (exists off, cell_ok pmpair_codec c lay n col row off) /\
     arr_get pv col = Ok (val col) /\ valid pmpair_codec (val col) /\
     0 <= col < Z.of_nat (length pv0)) ->
  exists c' m' pv', NoDBCacheSetPMPairVector c pv (col_vector cols) row = Ok c' /\
    cache_rep pmpair_codec c' lay n m' /\
    (forall col row', col ∉ cols \/ row' <> row -> m' !! (col, row') = m !! (col, row')) /\
    NoDBCacheGetPMPairVector c' pv0 (col_vector cols) row = Ok pv' /\
    (forall col, col ∈ cols -> arr_get pv' col = Ok (val col)) /\
    (forall col, col ∉ cols -> arr_get pv' col = arr_get pv0 col).
Proof.
  intros Hrep Hc.
  destruct (vector_store_rep pmpair_codec c lay n m cols row (fun col => arr_get pv col) val Hrep)
    as (c' & m' & E & _ & Hr' & Hm' & Hf).
  { intros col Hin. by destruct (Hc col Hin) as (Hok & -> & Hv & _). }
  destruct (GetPMPairVector_spec c' lay n m' cols row val pv0 Hr' Hm')
    as (pv' & Eg & [F1 F2]%filled_done).
  { intros col Hin. by destruct (Hc col Hin) as (_ & _ & _ & ?). }
  by exists c', m', pv'.
Qed.

(** Growing a cache keeps its contents: after [NoDBCacheSetMaxRows] every cell
    still holds its value and the buffer has the larger of the old and the
    requested number of rows. *)
Theorem NoDBCacheSetMaxRows_preserves c lay n m maxRows :
  cache_rep short_codec c lay n m -> 0 <= maxRows -> maxRows * c_rowSize c < 2 ^ 64 ->
  exists c', NoDBCacheSetMaxRows c maxRows = Ok c' /\
    cache_rep short_codec c' lay (Z.max n maxRows) m /\
    forall col row v, m !! (col, row) = Some v -> NoDBCacheGetShortInt c' col row = Ok v.
Proof.
  intros Hrep H0 Hlt. destruct (SetMaxRows_grow _ _ _ _ _ _ Hrep H0 Hlt) as (c' & E & Hr' & _).
  exists c'. split_and!; [done..|]. intros. by eapply cell_get_rep.
Qed.

(** Adding a column to a cache that holds data keeps every cell. *)
Theorem NoDBCacheAddColumn_preserves c lay n m col size :
  cache_rep pmpair_codec c lay n m -> 0 <= col < Z.of_nat (length (c_offset c)) -> 0 <= size ->
  exists c' r lay', NoDBCacheAddColumn c col size = Ok (c', r) /\
    cache_rep pmpair_codec c' lay' n m /\
    (r = 1 -> exists off, col_range lay' col off size) /\
    forall col' row v, m !! (col', row) = Some v -> NoDBCacheGetPMPair c' col' row = Ok v.
Proof.
  intros Hrep Hcol Hsz.
  destruct (AddColumn_rep _ _ _ _ _ _ _ Hrep Hcol Hsz) as (c' & r & lay' & E & Hr' & _ & Hnew).
  exists c', r, lay'. split_and!; [done..|]. intros. by eapply cell_get_rep.
Qed.

(** ** Witnesses: a cache of ten rows of 16 bytes *)
Definition pm_ex : NoDBCache_t := set_buf example_cache2 (Some 10) (Some (arr_alloc 160)).
Definition data_ex : NoDBCache_t :=
  {| c_rel := 1; c_type := NODB_POSITIONS_CACHE; c_startRow := 0; c_usedRows := 0;
     c_nRows := Some 10; c_startOffset := 0; c_rowSize := 16; c_rowFree := 0;
     c_cols := [Some 3]; c_nCols := 1; c_usedCols := 1;
     c_offset := <[3%nat := Some 0]> (replicate 8 (Some (-1)));
     c_map := [Some (-1); Some (-1); Some (-1); Some 1]; c_nMap := 4;
     c_list := [{| p_used := true; p_size := 16 |}];
     c_buf := Some (arr_alloc 160); c_sizeOfHeader := None |}.

Lemma pm_ex_rep {V} (cd : codec V) : cache_rep cd pm_ex example_lay2 10 ∅.
Proof.
  destruct (SetMaxRows_first cd example_cache2 example_lay2 10 example_cache2_wf) as (c' & E & H);
    [done|done|lia|cbn; lia|]. vm_compute in E. injection E as <-. exact H.
Qed.

Lemma data_ex_rep : cache_rep nodbdatum_codec data_ex [(Some 3, 16)] 10 ∅.
Proof.
  destruct (NoDBCacheAddColumn_spec example_cache _ 3 16 example_cache_wf)
    as (c & r & E & _ & Hr); [cbn; lia|lia|]. vm_compute in E. injection E as <- <-.
  destruct Hr as [(_ & _ & l1 & s & l2 & El & _ & _ & H)|(? & _)]; [|done].
  destruct l1 as [|x [|y l1]]; simplify_eq/=.
  destruct (SetMaxRows_first nodbdatum_codec _ _ 10 H) as (c' & E & H');
    [done|done|lia|cbn; lia|]. vm_compute in E. injection E as <-. exact H'.
Qed.

Lemma pm_ex_cell {V} (cd : codec V) row :
  0 <= row < 10 -> (0 < width cd)%nat -> Z.of_nat (width cd) <= 4 ->
  cell_ok cd pm_ex example_lay2 10 3 row 0.
Proof. intros Hr H0 H4. split; [unfold in_rows; cbn; lia|]. exists 4. split_and!; [|done..]. by exists [], [(None, 12)]. Qed.

Lemma NoDBCachePMPair_witness :
  exists c', NoDBCacheSetPMPair pm_ex 3 5 (100, 7) = Ok c' /\
    cache_rep pmpair_codec c' example_lay2 10 (<[(3, 5) := (100, 7)]> ∅) /\
    forall col' row' w, (<[(3, 5) := (100, 7)]> (∅ : gmap (Z * Z) NoDBPMPair_t)) !! (col', row') = Some w ->
      NoDBCacheGetPMPair c' col' row' = Ok w.
Proof.
  apply (NoDBCachePMPair_refines pm_ex example_lay2 10 ∅ 3 5 0 (100, 7)).
  - apply pm_ex_rep.
  - apply pm_ex_cell; cbn; lia.
  - cbn. lia.
Defined.

Lemma NoDBCacheShortInt_witness :
  exists c', NoDBCacheSetShortInt pm_ex 3 5 (-12) = Ok c' /\
    cache_rep short_codec c' example_lay2 10 (<[(3, 5) := -12]> ∅) /\
    forall col' row' w, (<[(3, 5) := -12]> (∅ : gmap (Z * Z) Z)) !! (col', row') = Some w ->
      NoDBCacheGetShortInt c' col' row' = Ok w.
Proof.
  apply (NoDBCacheShortInt_refines pm_ex example_lay2 10 ∅ 3 5 0 (-12)).
  - apply pm_ex_rep.
  - apply pm_ex_cell; cbn; lia.
  - lia.
Defined.

Lemma NoDBCacheDatumVector_witness :
  exists c' m' dv' nv',
    NoDBCacheSetDatumVector data_ex (replicate 4 (Some 77)) (replicate 4 (Some 0)) (col_vector [3]) 2 = Ok c' /\
    cache_rep nodbdatum_codec c' [(Some 3, 16)] 10 m' /\
    (forall col row', col ∉ [3] \/ row' <> 2 -> m' !! (col, row') = (∅ : gmap (Z * Z) NoDBDatum_t) !! (col, row')) /\
    NoDBCacheGetDatumVector c' (arr_alloc 4) (arr_alloc 4) (col_vector [3]) 2 = Ok (dv', nv') /\
    (forall col, col ∈ [3] -> arr_get dv' col = Ok 77 /\ arr_get nv' col = Ok 0) /\
    (forall col, col ∉ [3] -> arr_get dv' col = arr_get (arr_alloc 4) col /\
       arr_get nv' col = arr_get (arr_alloc 4) col).
Proof.
  apply (NoDBCacheDatumVector_roundtrip data_ex [(Some 3, 16)] 10 ∅ [3] 2
    (replicate 4 (Some 77)) (replicate 4 (Some 0)) (arr_alloc 4) (arr_alloc 4) (fun _ => 77) (fun _ => 0)).
  - apply data_ex_rep.
  - intros col ->%list_elem_of_singleton. split_and!; try done; try (cbn; lia).
    exists 0. split; [unfold in_rows; cbn; lia|]. exists 16. split_and!; [by exists [], []|cbn; lia|cbn; lia].
Defined.

Lemma NoDBCachePMPairVector_witness :
  exists c' m' pv', NoDBCacheSetPMPairVector pm_ex (replicate 4 (Some (9, 3))) (col_vector [3]) 2 = Ok c' /\
    cache_rep pmpair_codec c' example_lay2 10 m' /\
    (forall col row', col ∉ [3] \/ row' <> 2 -> m' !! (col, row') = (∅ : gmap (Z * Z) NoDBPMPair_t) !! (col, row')) /\
    NoDBCacheGetPMPairVector c' (arr_alloc 4) (col_vector [3]) 2 = Ok pv' /\
    (forall col, col ∈ [3] -> arr_get pv' col = Ok (9, 3)) /\
    (forall col, col ∉ [3] -> arr_get pv' col = arr_get (arr_alloc 4) col).
Proof.
  apply (NoDBCachePMPairVector_roundtrip pm_ex example_lay2 10 ∅ [3] 2
    (replicate 4 (Some (9, 3))) (arr_alloc 4) (fun _ => (9, 3))).
  - apply pm_ex_rep.
  - intros col ->%list_elem_of_singleton. split_and!; try done; try (cbn; lia).
    exists 0. apply pm_ex_cell; cbn; lia.
Defined.

Lemma NoDBCacheSetMaxRows_witness :
  exists c', NoDBCacheSetMaxRows pm_ex 20 = Ok c' /\
    cache_rep short_codec c' example_lay2 (Z.max 10 20) ∅ /\
    forall col row v, (∅ : gmap (Z * Z) Z) !! (col, row) = Some v -> NoDBCacheGetShortInt c' col row = Ok v.
Proof.
  apply (NoDBCacheSetMaxRows_preserves pm_ex example_lay2 10 ∅ 20); [apply pm_ex_rep|lia|cbn; lia].
Defined.

Lemma NoDBCacheAddColumn_preserves_witness :
  exists c' r lay', NoDBCacheAddColumn pm_ex 5 8 = Ok (c', r) /\
    cache_rep pmpair_codec c' lay' 10 ∅ /\
    (r = 1 -> exists off, col_range lay' 5 off 8) /\
    forall col' row v, (∅ : gmap (Z * Z) NoDBPMPair_t) !! (col', row) = Some v ->
      NoDBCacheGetPMPair c' col' row = Ok v.
Proof.
  apply (NoDBCacheAddColumn_preserves pm_ex example_lay2 10 ∅ 5 8); [apply pm_ex_rep|cbn; lia|lia].
Defined.
