(* ===== verification/EOLCache.v ===== *)
(** * The registry of end-of-line caches (NoDBEOLCacheWorld.c)

    One cache per relation stores the length of each line of its file as a
    short int. [EOLCaches] is a vector of slots, a slot being free when its name
    is empty, that grows by [NELLEM_ALLOC] slots. The abstract registry is a
    finite map from relation names to cache addresses. *)
From S2P Require Import Prelude Relation Cache CacheData.

(** [MAX_RELATION_NAME] of NoDBEOLCacheWorld.h. *)
Definition EOL_NAME_SIZE : nat := 64.
Definition NELLEM_ALLOC : nat := 5.
Definition NODB_EOL_DEFAULT_ROWS : Z := 5.
Definition SHORT_SIZE : Z := 2.

Record NoDBEOLCache_t := { slot_relation : string; slot_cache : option Z }.
Definition free_slot : NoDBEOLCache_t := {| slot_relation := ""; slot_cache := None |}.

(** [ec_world] is the global [EOLCaches] ([None] when [NULL]), [ec_caches] the
    caches on the heap by address, [ec_next] the next address to allocate. *)
Record eol_state := {
  ec_world : option (list NoDBEOLCache_t);
  ec_caches : gmap Z NoDBCache_t;
  ec_next : Z }.
Implicit Types (st : eol_state) (v : list NoDBEOLCache_t) (relation : string).

(** [strcpy] into [char relation[MAX_RELATION_NAME]]. *)
Definition strcpy_name v (i : nat) relation : result (list NoDBEOLCache_t) :=
  if decide (String.length relation < EOL_NAME_SIZE)%nat
  then Ok (alter (fun s => {| slot_relation := relation; slot_cache := slot_cache s |}) i v)
  else Fail OutOfBounds.

Definition find_relation v relation : option (nat * NoDBEOLCache_t) :=
  list_find (fun s => slot_relation s = relation) v.

Definition slot_get (s : NoDBEOLCache_t) : result Z :=
  match slot_cache s with Some p => Ok p | None => Fail Indeterminate end.

(** The cache that a new entry gets. *)
Definition new_eol_cache (relp : Z) relation (rows : Z) : result NoDBCache_t :=
  rel ← NoDBRelationAddColumn (NoDBRelationInit relation) SHORT_SIZE true;
  let rows' := if rows <=? 0 then NODB_EOL_DEFAULT_ROWS else rows in
  c ← NoDBCacheInit relp rel NODB_POSITIONS_CACHE 0 SHORT_SIZE;
  '(c', _) ← NoDBCacheAddColumn c 0 SHORT_SIZE;
  NoDBCacheSetMaxRows c' rows'.

(** The vector, allocated with free slots when there is none yet. *)
Definition slots st : list NoDBEOLCache_t :=
  default (replicate NELLEM_ALLOC free_slot) (ec_world st).

Definition NoDBInitEOLCache st relation (rows : Z) : result (eol_state * Z) :=
  let v := slots st in
  match find_relation v relation with
  | Some (_, s) =>
      p ← slot_get s;
      Ok ({| ec_world := Some v; ec_caches := ec_caches st; ec_next := ec_next st |}, p)
  | None =>
      let '(i, v1) := match list_find (fun s => slot_relation s = ""%string) v with
                      | Some (i, _) => (i, v)
                      | None => (length v, v ++ replicate NELLEM_ALLOC free_slot)
                      end in
      v2 ← strcpy_name v1 i relation;
      let relp := ec_next st in
      c ← new_eol_cache relp relation rows;
      let p := ec_next st + 1 in
      let v3 := alter (fun s => {| slot_relation := slot_relation s; slot_cache := Some p |}) i v2 in
      Ok ({| ec_world := Some v3; ec_caches := <[p := c]> (ec_caches st);
             ec_next := ec_next st + 2 |}, p)
  end.

(** The loop reads [EOLCaches->size] without checking the pointer; 0 is [NULL]. *)
Definition NoDBGetEOLCache st relation : result Z :=
  match ec_world st with
  | None => Fail NullDeref
  | Some v => match find_relation v relation with
              | Some (_, s) => slot_get s
              | None => Ok 0
              end
  end.

Definition free_cache st (p : Z) : result eol_state :=
  match ec_caches st !! p with
  | Some _ => Ok {| ec_world := ec_world st; ec_caches := delete p (ec_caches st); ec_next := ec_next st |}
  | None => Fail DoubleFree
  end.

(** [NoDBCacheDestroy] frees the cache itself; the caller then frees it again. *)
Definition NoDBFreeEOLCache st relation : result eol_state :=
  match ec_world st with
  | None => Ok st
  | Some v =>
      match find_relation v relation with
      | None => Ok st
      | Some (i, s) =>
          v1 ← strcpy_name v i ""%string;
          p ← slot_get s;
          st' ← free_cache {| ec_world := Some v1; ec_caches := ec_caches st; ec_next := ec_next st |} p;
          free_cache st' p
      end
  end.

(** ** Abstraction *)

(** [m] maps the name of every used slot to its cache, which is on the heap. *)
Record eol_rep st (m : gmap string Z) : Prop := {
  er_lookup : forall relation p, m !! relation = Some p <->
    relation <> ""%string /\
    exists i, slots st !! i = Some {| slot_relation := relation; slot_cache := Some p |};
  er_unique : forall i j s t, slots st !! i = Some s -> slots st !! j = Some t ->
    slot_relation s = slot_relation t -> slot_relation s <> ""%string -> i = j;
  er_set : forall i s, slots st !! i = Some s -> slot_relation s <> ""%string ->
    is_Some (slot_cache s);
  er_fresh : forall p, is_Some (ec_caches st !! p) -> p < ec_next st;
  er_live : forall relation p, m !! relation = Some p -> is_Some (ec_caches st !! p) }.

Lemma find_relation_spec st m relation :
  eol_rep st m -> relation <> ""%string ->
  match m !! relation with
  | Some p => exists i, find_relation (slots st) relation =
      Some (i, {| slot_relation := relation; slot_cache := Some p |})
  | None => find_relation (slots st) relation = None
  end.
Proof.
  intros Hr Hne. unfold find_relation. destruct (m !! relation) as [p|] eqn:Em.
  - apply (er_lookup _ _ Hr) in Em as (_ & i & Hi). exists i. apply list_find_Some.
    split_and!; [done|done|]. intros j y Hj Hlt Hy.
    assert (j = i) by (eapply (er_unique _ _ Hr); [exact Hj|exact Hi|done|by rewrite Hy]). lia.
  - apply list_find_None, Forall_forall. intros [n c] (i & Hi)%list_elem_of_lookup Hn. simpl in Hn. subst n.
    destruct (er_set _ _ Hr i _ Hi Hne) as [p Hp]. simpl in Hp. subst c.
    assert (m !! relation = Some p) by (apply (er_lookup _ _ Hr); eauto). congruence.
Qed.

(** The new cache before its buffer is made. *)
Lemma new_eol_cache_stage relp relation : exists c,
  (forall rows, new_eol_cache relp relation rows = NoDBCacheSetMaxRows c (if rows <=? 0 then NODB_EOL_DEFAULT_ROWS else rows)) /\
  cache_wf c [(Some 0, 2)] /\ c_buf c = None /\ c_startRow c = 0 /\ c_usedRows c = 0 /\ c_startOffset c = 0 /\ c_rowSize c = 2.
Proof.
  unfold new_eol_cache, SHORT_SIZE.
  destruct (NoDBRelationAddColumn_spec _ _ 2 true (NoDBRelationInit_rep relation))
    as (rel & -> & (Hu & _) & _). cbn [mbind result_bind].
  destruct (NoDBCacheInit_spec relp rel NODB_POSITIONS_CACHE 0 2)
    as (c & -> & Hwf & Hlen & Hs & Hus & Hso & Hrs & Hb); [lia|unfold NoDBRelationGetNumberColumns; lia|].
  cbn [mbind result_bind].
  destruct (NoDBCacheAddColumn_spec c _ 0 2 Hwf) as (c1 & r & -> & Hsame & Hr);
    [unfold NoDBRelationGetNumberColumns in Hlen; rewrite Hlen, Hu; simpl; lia|lia|].
  cbn [mbind result_bind]. destruct Hsame as (_ & _ & S1 & S2 & _ & S3 & S4 & S5 & _).
  exists c1. split; [done|]. split; [|split_and!; congruence || (rewrite S3, Hso; done)].
  destruct Hr as [(_ & _ & l1 & s & l2 & El & _ & _ & H)|(_ & [Hin|Hno] & _)].
  - destruct l1 as [|x [|y l1]]; simplify_eq/=. exact H.
  - by apply elem_of_nil in Hin.
  - specialize (Hno 2). set_solver by lia.
Qed.

(** The new cache holds a short int for each row in column 0. *)
Lemma new_eol_cache_spec relp relation rows :
  0 <= rows -> rows * 2 < 2 ^ 64 ->
  exists c, new_eol_cache relp relation rows = Ok c /\
    cache_rep short_codec c [(Some 0, 2)] (if rows <=? 0 then 5 else rows) ∅ /\
    c_startRow c = 0 /\ c_usedRows c = 0.
Proof.
  intros H0 Hlt. destruct (new_eol_cache_stage relp relation) as (c1 & -> & Hwf & Hb & Hs & Hu & Hso & Hrs).
  unfold NODB_EOL_DEFAULT_ROWS.
  destruct (SetMaxRows_first short_codec c1 [(Some 0, 2)] (if rows <=? 0 then 5 else rows) Hwf) as (c2 & E2 & Hr2).
  - by rewrite Hso, Hrs, Hs.
  - done.
  - destruct (Z.leb_spec rows 0); lia.
  - rewrite Hrs. destruct (Z.leb_spec rows 0); lia.
  - exists c2. split_and!; [done..| |]; unfold NoDBCacheSetMaxRows in E2; rewrite Hb in E2; injection E2 as <-; done.
Qed.

Lemma new_eol_cache_total relp relation rows :
  exists c, new_eol_cache relp relation rows = Ok c /\ c_startRow c = 0 /\ c_usedRows c = 0.
Proof.
  destruct (new_eol_cache_stage relp relation) as (c1 & -> & _ & Hb & Hs & Hu & _).
  unfold NoDBCacheSetMaxRows. rewrite Hb. by eexists.
Qed.

(** Filling a free slot of the vector. *)
Lemma fill_slot_rep st m v i relation p c :
  eol_rep st m -> m !! relation = None -> relation <> ""%string ->
  (exists tl, v = slots st ++ tl /\ Forall (fun s => slot_relation s = ""%string) tl) ->
  (exists s, v !! i = Some s /\ slot_relation s = ""%string) ->
  ec_next st <= p ->
  let v' := alter (fun s => {| slot_relation := slot_relation s; slot_cache := Some p |}) i
    (alter (fun s => {| slot_relation := relation; slot_cache := slot_cache s |}) i v) in
  eol_rep {| ec_world := Some v'; ec_caches := <[p := c]> (ec_caches st); ec_next := p + 1 |}
    (<[relation := p]> m).
Proof.
  intros Hr Hm Hne (tl & -> & Htl) (s & Hs & Hfree) Hp v'.
  set (new := {| slot_relation := relation; slot_cache := Some p |}).
  assert (Hi : v' !! i = Some new) by (subst v'; by rewrite !list_lookup_alter_eq, Hs).
  assert (Hj : forall j, j <> i -> v' !! j = (slots st ++ tl) !! j)
    by (intros; subst v'; by rewrite !list_lookup_alter_ne).
  assert (Hold : forall j t, j <> i -> v' !! j = Some t -> slot_relation t <> ""%string ->
    slots st !! j = Some t).
  { intros j t Hji Ht Hn. rewrite Hj in Ht by done. apply lookup_app_Some in Ht as [|[_ Ht]]; [done|].
    by apply (Forall_lookup_1 _ _ _ _ Htl) in Ht. }
  assert (Hkept : forall j t, slots st !! j = Some t -> slot_relation t <> ""%string -> v' !! j = Some t).
  { intros j t Ht Hn. rewrite Hj; [by apply lookup_app_l_Some|]. intros ->.
    rewrite (lookup_app_l_Some _ _ _ _ Ht) in Hs. naive_solver. }
  assert (Hno : forall j t, slots st !! j = Some t -> slot_relation t <> relation).
  { intros j [n o] Ht E. simpl in E. subst n. destruct (er_set _ _ Hr _ _ Ht Hne) as [q Eq].
    simpl in Eq. subst o.
    assert (m !! relation = Some q) by (apply (er_lookup _ _ Hr); eauto). congruence. }
  split; unfold slots; cbn [ec_world ec_caches ec_next default from_option id].
  - intros r q. destruct (decide (r = relation)) as [->|Hrne].
    + rewrite lookup_insert_eq. split; [intros [= <-]; eauto|]. intros (_ & j & Ht).
      destruct (decide (j = i)) as [->|Hji]; [rewrite Hi in Ht; by simplify_eq|].
      apply Hold in Ht; [|done..]. by apply Hno in Ht.
    + rewrite lookup_insert_ne, (er_lookup _ _ Hr) by done. split; intros (Hrn & j & Ht);
        (split; [done|]); exists j; [by apply Hkept|]. apply Hold; [|done..].
      intros ->. rewrite Hi in Ht. by simplify_eq.
  - intros j k t u Ht Hu E Hn. destruct (decide (j = i)) as [->|Hji], (decide (k = i)) as [->|Hki]; [done|..].
    + rewrite Hi in Ht. injection Ht as <-. simpl in E. assert (slots st !! k = Some u) as Hu'
        by (apply Hold; congruence). by apply Hno in Hu'.
    + rewrite Hi in Hu. injection Hu as <-. simpl in E. assert (slots st !! j = Some t) as Ht'
        by (by apply Hold). by apply Hno in Ht'.
    + apply (er_unique _ _ Hr j k t u); [by apply Hold| |done..]. apply Hold; congruence.
  - intros j t Ht Hn. destruct (decide (j = i)) as [->|Hji].
    + rewrite Hi in Ht. simplify_eq. by eexists.
    + apply Hold in Ht; [|done..]. by eapply (er_set _ _ Hr).
  - intros q [x Hq]. destruct (decide (q = p)) as [->|]; [lia|].
    rewrite lookup_insert_ne in Hq by done. assert (q < ec_next st) by (apply (er_fresh _ _ Hr); eauto). lia.
  - intros r q Hq. destruct (decide (q = p)) as [->|]; [rewrite lookup_insert_eq; eauto|].
    rewrite lookup_insert_ne by done. destruct (decide (r = relation)) as [->|];
      [rewrite lookup_insert_eq in Hq; congruence|].
    rewrite lookup_insert_ne in Hq by done. by eapply (er_live _ _ Hr).
Qed.

Lemma NoDBGetEOLCache_spec st m relation :
  eol_rep st m -> is_Some (ec_world st) -> relation <> ""%string ->
  NoDBGetEOLCache st relation = Ok (default 0 (m !! relation)).
Proof.
  intros Hr [v Hv] Hne. pose proof (find_relation_spec st m relation Hr Hne) as Hf.
  unfold slots in Hf. unfold NoDBGetEOLCache. rewrite Hv in *. simpl in Hf.
  destruct (m !! relation) as [p|]; [destruct Hf as [i ->]|rewrite Hf]; done.
Qed.

(** A free slot is found, or the vector is extended. *)
Lemma pick_slot v i v1 :
  match list_find (fun s => slot_relation s = ""%string) v with
  | Some (i, _) => (i, v)
  | None => (length v, v ++ replicate NELLEM_ALLOC free_slot)
  end = (i, v1) ->
  (exists tl, v1 = v ++ tl /\ Forall (fun s => slot_relation s = ""%string) tl) /\
  (exists s, v1 !! i = Some s /\ slot_relation s = ""%string).
Proof.
  destruct (list_find _ v) as [[j s]|] eqn:E; intros [= <- <-].
  - apply list_find_Some in E as (Hj & Hs & _). split; [|eauto]. exists []. by rewrite app_nil_r.
  - split; [eexists; split; [done|]; by repeat constructor|].
    exists free_slot. split; [|done]. by rewrite lookup_app_r, Nat.sub_diag by lia.
Qed.

(** The run that registers a new relation. *)
Lemma NoDBInitEOLCache_new st relation rows i v1 c :
  find_relation (slots st) relation = None ->
  match list_find (fun s => slot_relation s = ""%string) (slots st) with
  | Some (i, _) => (i, slots st)
  | None => (length (slots st), slots st ++ replicate NELLEM_ALLOC free_slot)
  end = (i, v1) ->
  (String.length relation < EOL_NAME_SIZE)%nat ->
  new_eol_cache (ec_next st) relation rows = Ok c ->
  let p := ec_next st + 1 in
  NoDBInitEOLCache st relation rows =
  Ok ({| ec_world := Some
           (alter (fun s => {| slot_relation := slot_relation s; slot_cache := Some p |}) i
             (alter (fun s => {| slot_relation := relation; slot_cache := slot_cache s |}) i v1));
         ec_caches := <[p := c]> (ec_caches st); ec_next := ec_next st + 2 |}, p).
Proof.
  intros Hf Hp Hl Hc p. unfold NoDBInitEOLCache. rewrite Hf, Hp.
  unfold strcpy_name. destruct (decide _); [|done]. rewrite bind_of_Ok with (1 := eq_refl).
  by rewrite (bind_of_Ok _ _ _ Hc).
Qed.

Lemma NoDBInitEOLCache_spec st m relation rows :
  eol_rep st m -> relation <> ""%string -> (String.length relation < EOL_NAME_SIZE)%nat ->
  0 <= rows -> rows * 2 < 2 ^ 64 ->
  exists st' p, NoDBInitEOLCache st relation rows = Ok (st', p) /\
    NoDBGetEOLCache st' relation = Ok p /\
    match m !! relation with
    | Some q => p = q /\ eol_rep st' m /\ ec_caches st' = ec_caches st
    | None => eol_rep st' (<[relation := p]> m) /\ ec_caches st !! p = None /\
        exists c, ec_caches st' = <[p := c]> (ec_caches st) /\
          cache_rep short_codec c [(Some 0, 2)] (if rows <=? 0 then 5 else rows) ∅
    end.
Proof.
  intros Hr Hne Hlen H0 Hlt. pose proof (find_relation_spec st m relation Hr Hne) as Hf.
  destruct (m !! relation) as [q|] eqn:Em.
  - destruct Hf as [i Hf]. unfold NoDBInitEOLCache. rewrite Hf. simpl. eexists _, q. split; [done|].
    assert (eol_rep {| ec_world := Some (slots st); ec_caches := ec_caches st; ec_next := ec_next st |} m) as Hr'.
    { destruct Hr. by split. }
    split; [|done]. rewrite (NoDBGetEOLCache_spec _ m) by (done || by eexists). by rewrite Em.
  - assert (exists i v1, match list_find (fun s => slot_relation s = ""%string) (slots st) with
      | Some (i, _) => (i, slots st)
      | None => (length (slots st), slots st ++ replicate NELLEM_ALLOC free_slot)
      end = (i, v1)) as (i & v1 & Ep) by (destruct (list_find _ _) as [[]|]; eauto).
    destruct (new_eol_cache_spec (ec_next st) relation rows H0 Hlt) as (c & Hnew & Hc & _).
    pose proof (NoDBInitEOLCache_new st relation rows i v1 c Hf Ep Hlen Hnew) as Einit. cbv zeta in Einit.
    apply pick_slot in Ep as [Htl Hs]. eexists _, (ec_next st + 1). split; [exact Einit|].
    pose proof (fill_slot_rep st m v1 i relation (ec_next st + 1) c Hr Em Hne Htl Hs ltac:(lia)) as Hr'.
    cbv zeta in Hr'. replace (ec_next st + 1 + 1) with (ec_next st + 2) in Hr' by lia.
    split; [|split_and!; [done| |by exists c]].
    + rewrite (NoDBGetEOLCache_spec _ _ _ Hr') by (done || by eexists). by rewrite lookup_insert_eq.
    + destruct (ec_caches st !! (ec_next st + 1)) eqn:E; [|done].
      assert (ec_next st + 1 < ec_next st) by (apply (er_fresh _ _ Hr); eauto). lia.
Qed.

(** [NoDBInitEOLCache] refines a find-or-insert on a finite map from relation
    names to caches. It returns the registered cache of a known relation; for a
    new one it registers a fresh cache whose column 0 holds one short int for
    each of the requested rows (five when none are requested), growing the
    vector of slots when it is full. No other entry changes, and a following
    [NoDBGetEOLCache] returns the same cache. *)
Theorem NoDBInitEOLCache_refines st m relation rows :
  eol_rep st m -> relation <> ""%string -> (String.length relation < EOL_NAME_SIZE)%nat ->
  0 <= rows -> rows * 2 < 2 ^ 64 ->
  exists st' p, NoDBInitEOLCache st relation rows = Ok (st', p) /\
    NoDBGetEOLCache st' relation = Ok p /\
    match m !! relation with
    | Some q => p = q /\ eol_rep st' m /\ ec_caches st' = ec_caches st
    | None => eol_rep st' (<[relation := p]> m) /\ ec_caches st !! p = None /\
        exists c, ec_caches st' = <[p := c]> (ec_caches st) /\
          cache_rep short_codec c [(Some 0, 2)] (if rows <=? 0 then 5 else rows) ∅
    end.
Proof. apply NoDBInitEOLCache_spec. Qed.

(** Freeing the cache of a registered relation frees the block of the cache
    twice: [NoDBCacheDestroy] already released it. *)
Theorem NoDBFreeEOLCache_double_free st m relation p :
  eol_rep st m -> is_Some (ec_world st) -> m !! relation = Some p ->
  NoDBFreeEOLCache st relation = Fail DoubleFree.
Proof.
  intros Hr [v Hv] Hm. assert (relation <> ""%string) as Hne by (by apply (er_lookup _ _ Hr) in Hm as [? _]).
  pose proof (find_relation_spec st m relation Hr Hne) as Hf. rewrite Hm in Hf.
  unfold slots in Hf. unfold NoDBFreeEOLCache. rewrite Hv in *. simpl in Hf. destruct Hf as [i ->].
  unfold strcpy_name. rewrite decide_True by (unfold EOL_NAME_SIZE; simpl; lia). simpl.
  unfold free_cache. simpl. destruct (er_live _ _ Hr _ _ Hm) as [c ->]. simpl.
  by rewrite lookup_delete_eq.
Qed.

(** ** Witnesses *)
Definition eol_empty : eol_state := {| ec_world := None; ec_caches := ∅; ec_next := 1 |}.

Lemma eol_empty_rep : eol_rep eol_empty ∅.
Proof.
  assert (Hfree : forall i s, slots eol_empty !! i = Some s -> s = free_slot)
    by (intros i s Hi; by apply lookup_replicate in Hi as [-> _]).
  split.
  - intros r p. rewrite lookup_empty. split; [done|]. intros (Hr & i & Hi%Hfree). by simplify_eq/=.
  - intros i j s t Hi%Hfree _ _ Hn. by subst.
  - intros i s Hi%Hfree Hn. by subst.
  - intros p [x Hx]. cbn in Hx. by rewrite lookup_empty in Hx.
  - intros r p. by rewrite lookup_empty.
Qed.

Lemma NoDBInitEOLCache_witness :
  exists st' p, NoDBInitEOLCache eol_empty "orders" 100 = Ok (st', p) /\
    NoDBGetEOLCache st' "orders" = Ok p /\
    eol_rep st' (<["orders" := p]> ∅) /\ ec_caches eol_empty !! p = None /\
    exists c, ec_caches st' = <[p := c]> (ec_caches eol_empty) /\
      cache_rep short_codec c [(Some 0, 2)] 100 ∅.
Proof.
  destruct (NoDBInitEOLCache_refines eol_empty ∅ "orders" 100) as (st' & p & H).
  - apply eol_empty_rep.
  - done.
  - vm_compute. lia.
  - lia.
  - lia.
  - exists st', p. exact H.
Defined.

Definition eol_one : eol_state :=
  {| ec_world := Some [{| slot_relation := "orders"; slot_cache := Some 1 |}];
     ec_caches := {[1 := pm_ex]}; ec_next := 2 |}.

Lemma eol_one_rep : eol_rep eol_one {["orders" := 1]}.
Proof.
  split; cbn.
  - intros r p. rewrite lookup_singleton_Some. split.
    + intros [<- <-]. split; [done|]. by exists 0%nat.
    + intros (_ & [|i] & Hi); [|done]. by simplify_eq/=.
  - intros [|i] [|j] s t Hi Hj _ _; done.
  - intros [|i] s Hi _; [|done]. simplify_eq/=. eauto.
  - intros p [x Hx]. apply lookup_singleton_Some in Hx as [<- _]. lia.
  - intros r p [<- <-]%lookup_singleton_Some. rewrite lookup_singleton_eq. eauto.
Qed.

Lemma NoDBFreeEOLCache_witness : NoDBFreeEOLCache eol_one "orders" = Fail DoubleFree.
Proof.
  apply (NoDBFreeEOLCache_double_free eol_one {["orders" := 1]} "orders" 1).
  - apply eol_one_rep.
  - by eexists.
  - apply lookup_singleton_eq.
Defined.
