(* ===== verification/FieldParser.v ===== *)
(** * Splitting a line into fields (NoDBExecutor.c)

    The readers of a whole line: [NoDBCopyReadAttributesCSV] and
    [NoDBCopyReadAttributesText] split the line, de-escape the fields into the
    attribute buffer and record the position and width of each field. PositionalMap.v
    models the parsers that work from known positions.

    A byte is a number below 256. A pointer into the line is the offset and the
    bytes that are left, so that [cur_ptr >= line_end_ptr] is the empty list. *)
From S2P Require Import Prelude.

(** ** Characters *)
Definition ch_backslash : Z := 92.
Definition ISOCTAL (c : Z) : bool := (48 <=? c) && (c <=? 55).
Definition OCTVALUE (c : Z) : Z := c - 48.
Definition isdigit (c : Z) : bool := (48 <=? c) && (c <=? 57).
Definition isxdigit (c : Z) : bool :=
  isdigit c || ((65 <=? c) && (c <=? 70)) || ((97 <=? c) && (c <=? 102)).
Definition tolower (c : Z) : Z := if (65 <=? c) && (c <=? 90) then c + 32 else c.
Definition IS_HIGHBIT_SET (c : Z) : bool := negb (Z.land c 128 =? 0).

Definition GetDecimalFromHex (hex : Z) : Z :=
  if isdigit hex then hex - 48 else tolower hex - 97 + 10.

(** What the parser needs of the scan state: the one-byte options and the null
    marker. *)
Record copy_opts := {
  delimc : Z; quotec : Z; escapec : Z; null_print : list Z }.
Implicit Types (o : copy_opts) (line rest out : list Z).

(** [cstate->attributes], one array per member: the block is allocated without
    being initialised and only [attributes[0].pointer] is set. *)
Record attributes_t := { at_pointer : arr Z; at_width : arr Z }.

(** [attribute_buf] as the bytes written to it and its [maxlen], the bytes of its
    block; [field_strings] as offsets into it ([None] is [NULL]). *)
Record fields_t := {
  attribute_buf : list Z; buf_maxlen : Z; fieldvals : arr (option Z); attributes : attributes_t }.

(** The outcome of scanning one field: [end_ptr] and [cur_ptr]. *)
Record field_scan := {
  found_delim : bool; saw_quote : bool; saw_non_ascii : bool;
  end_ptr : Z; cur_ptr : Z; cur_rest : list Z; field_out : list Z }.

(** There is a byte left at [output_ptr], of [room] from the start of the field. *)
Definition fits (room : nat) out : bool := (length out <? room)%nat.

(** ** CSV *)
Fixpoint csv_scan o (room : nat) (in_quote : bool) rest (pos : Z) out (sawq : bool) : result field_scan :=
  if in_quote then
    match rest with
    | [] => Fail (EReport "unterminated CSV quoted field")
    | c :: r =>
        let close_or_add :=
          if c =? quotec o then csv_scan o room false r (pos + 1) out sawq
          else if fits room out then csv_scan o room true r (pos + 1) (out ++ [c]) sawq
          else Fail OutOfBounds in
        if c =? escapec o then
          match r with
          | nextc :: r' =>
              if (nextc =? escapec o) || (nextc =? quotec o)
              then if fits room out then csv_scan o room true r' (pos + 2) (out ++ [nextc]) sawq else Fail OutOfBounds
              else close_or_add
          | [] => close_or_add
          end
        else close_or_add
    end
  else
    match rest with
    | [] => Ok {| found_delim := false; saw_quote := sawq; saw_non_ascii := false;
                  end_ptr := pos; cur_ptr := pos; cur_rest := []; field_out := out |}
    | c :: r =>
        if c =? delimc o then
          Ok {| found_delim := true; saw_quote := sawq; saw_non_ascii := false;
                end_ptr := pos; cur_ptr := pos + 1; cur_rest := r; field_out := out |}
        else if c =? quotec o then csv_scan o room true r (pos + 1) out true
        else if fits room out then csv_scan o room false r (pos + 1) (out ++ [c]) sawq
        else Fail OutOfBounds
    end.

(** The end of a field, the same in both readers: the terminated string, the
    null marker test on the raw bytes, the position of the next field and the
    width of this one. *)
Definition end_field o (fieldno start : Z) rest (fs : field_scan) (null_ok : bool)
    (total_length : Z) (st : fields_t) : result fields_t :=
  let input_len := end_ptr fs - start in
  fv ← (if null_ok && (input_len =? Z.of_nat (length (null_print o)))
           && bool_decide (take (Z.to_nat input_len) rest = null_print o)
        then arr_set (fieldvals st) fieldno None else Ok (fieldvals st));
  let total_length := total_length + input_len in
  ptrs ← arr_set (at_pointer (attributes st)) (fieldno + 1) (u16 (total_length + 1));
  next ← arr_get ptrs (fieldno + 1);
  this ← arr_get ptrs fieldno;
  ws ← arr_set (at_width (attributes st)) fieldno (u16 (next - this - 1));
  Ok {| attribute_buf := attribute_buf st; buf_maxlen := buf_maxlen st; fieldvals := fv;
        attributes := {| at_pointer := ptrs; at_width := ws |} |}.

(** [fieldvals[fieldno] = output_ptr], the scanned bytes and the terminator. *)
Definition put_field (fieldno : Z) (fs : field_scan) (st : fields_t) : result fields_t :=
  fv ← arr_set (fieldvals st) fieldno (Some (Z.of_nat (length (attribute_buf st))));
  if Z.of_nat (length (attribute_buf st ++ field_out fs)) <? buf_maxlen st then
    Ok {| attribute_buf := attribute_buf st ++ field_out fs ++ [0]; buf_maxlen := buf_maxlen st; fieldvals := fv;
          attributes := attributes st |}
  else Fail OutOfBounds.

(** The bytes that are left in the buffer. *)
Definition buf_room (st : fields_t) : nat := Z.to_nat (buf_maxlen st - Z.of_nat (length (attribute_buf st))).

Definition extra_data : err := EReport "extra data after last expected column".

(** The loop over fields, the same in both readers but for the scan of a field,
    when the null marker counts and the check of the de-escaped bytes; [n] is
    [maxfields - fieldno]. *)
Section fields_loop.
Context (o : copy_opts) (scan : nat -> list Z -> Z -> result field_scan) (null_ok : field_scan -> bool)
  (verify : field_scan -> result unit).

Fixpoint fields_loop (n : nat) (fieldno lastfield : Z) rest (pos total_length : Z) (st : fields_t)
    : result fields_t :=
  match n with
  | O => Fail extra_data
  | S n' =>
      fs ← scan (buf_room st) rest pos;
      st1 ← put_field fieldno fs st;
      _ ← verify fs;
      st2 ← end_field o fieldno pos rest fs (null_ok fs) total_length st1;
      if fieldno =? lastfield then Ok st2
      else if negb (found_delim fs) then Ok st2
      else fields_loop n' (fieldno + 1) lastfield (cur_rest fs) (cur_ptr fs)
             (total_length + (end_ptr fs - pos) + 1) st2
  end.
End fields_loop.

(** The null marker does not count in a field with quotes. *)
Definition csv_fields o :=
  fields_loop o (fun room rest pos => csv_scan o room false rest pos [] false)
    (fun fs => negb (saw_quote fs)) (fun _ => Ok tt).

Definition terminated (st : fields_t) : result fields_t :=
  _ ← c_assert (bool_decide (last (attribute_buf st) = Some 0)); Ok st.

(** [enlargeStringInfo] of an empty buffer: its size is doubled until there is room
    for [needed] bytes and a terminator, and then cut to [MaxAllocSize]. The error for
    a [needed] that reaches [MaxAllocSize] is left out, and nothing is cut there: the
    bytes needed are those of a line, which is a [StringInfo] itself and shorter. *)
Definition MaxAllocSize : Z := 2 ^ 30 - 1.
Fixpoint double_until (fuel : nat) (newlen needed : Z) : Z :=
  match fuel with
  | O => newlen
  | S fuel' => if newlen <? needed then double_until fuel' (2 * newlen) needed else newlen
  end.
Definition enlargeStringInfo (maxlen needed : Z) : Z :=
  if needed + 1 <=? maxlen then maxlen
  else
    let newlen := double_until (Z.to_nat (needed + 1)) (2 * maxlen) (needed + 1) in
    if (needed <? MaxAllocSize) && (MaxAllocSize <? newlen) then MaxAllocSize else newlen.

(** [resetStringInfo], and the buffer made longer than the line. *)
Definition reset_buf line (st : fields_t) : fields_t :=
  let len := Z.of_nat (length line) in
  {| attribute_buf := [];
     buf_maxlen := if buf_maxlen st <=? len then enlargeStringInfo (buf_maxlen st) len else buf_maxlen st;
     fieldvals := fieldvals st; attributes := attributes st |}.

Definition NoDBCopyReadAttributesCSV o (nfields lastfield : Z) line (st : fields_t)
    : result fields_t :=
  if nfields <=? 0 then if bool_decide (line = []) then Ok st else Fail extra_data
  else st' ← csv_fields o (Z.to_nat nfields) 0 lastfield line 0 0 (reset_buf line st); terminated st'.

(** ** Text *)

(** A backslash has been read; [c] is the character after it. The result is the
    character that the sequence stands for, the bytes left and whether the
    character has to be verified. *)
Definition read_escape (c : Z) rest : Z * list Z * bool :=
  let check v := (v =? 0) || IS_HIGHBIT_SET v in
  if ISOCTAL c then
    let v1 := OCTVALUE c in
    match rest with
    | d :: r =>
        if ISOCTAL d then
          let v2 := Z.shiftl v1 3 + OCTVALUE d in
          match r with
          | e :: r' =>
              if ISOCTAL e then
                let v3 := Z.land (Z.shiftl v2 3 + OCTVALUE e) 255 in (v3, r', check v3)
              else let v := Z.land v2 255 in (v, r, check v)
          | [] => let v := Z.land v2 255 in (v, r, check v)
          end
        else let v := Z.land v1 255 in (v, rest, check v)
    | [] => let v := Z.land v1 255 in (v, rest, check v)
    end
  else if c =? 120 (* x *) then
    match rest with
    | h :: r =>
        if isxdigit h then
          let v1 := GetDecimalFromHex h in
          match r with
          | h' :: r' =>
              if isxdigit h' then
                let v := Z.land (Z.shiftl v1 4 + GetDecimalFromHex h') 255 in (v, r', check v)
              else let v := Z.land v1 255 in (v, r, check v)
          | [] => let v := Z.land v1 255 in (v, r, check v)
          end
        else (c, rest, false)
    | [] => (c, rest, false)
    end
  else
    let c' := if c =? 98 then 8 else if c =? 102 then 12 else if c =? 110 then 10
              else if c =? 114 then 13 else if c =? 116 then 9 else if c =? 118 then 11 else c in
    (c', rest, false).

(** The escape reader consumes up to two bytes; [fuel] bounds the bytes left. *)
Fixpoint text_scan (fuel : nat) o (room : nat) rest (pos : Z) out (nonascii : bool) : result field_scan :=
  match fuel with
  | O => Fail OutOfFuel
  | S fuel' =>
      let stop found cur r :=
        Ok {| found_delim := found; saw_quote := false; saw_non_ascii := nonascii;
              end_ptr := pos; cur_ptr := cur; cur_rest := r; field_out := out |} in
      match rest with
      | [] => stop false pos []
      | c :: r =>
          if c =? delimc o then stop true (pos + 1) r
          else if c =? ch_backslash then
            match r with
            | [] => stop false (pos + 1) []
            | c1 :: r1 =>
                let '(v, r', na) := read_escape c1 r1 in
                if fits room out then
                  text_scan fuel' o room r' (pos + 2 + Z.of_nat (length r1 - length r')) (out ++ [v])
                    (nonascii || na)
                else Fail OutOfBounds
            end
          else if fits room out then text_scan fuel' o room r (pos + 1) (out ++ [c]) nonascii
          else Fail OutOfBounds
      end
  end.

Section text.
(** [pg_verifymbstr] of the server's encoding: whether a string is valid. *)
Context (pg_verifymbstr : list Z -> bool).

Definition text_fields o :=
  fields_loop o (fun room rest pos => text_scan (S (length rest)) o room rest pos [] false) (fun _ => true)
    (fun fs => if saw_non_ascii fs && negb (pg_verifymbstr (field_out fs))
               then Fail (EReport "invalid byte sequence for encoding") else Ok tt).

Definition NoDBCopyReadAttributesText o (nfields lastfield : Z) line (st : fields_t)
    : result fields_t :=
  if nfields <=? 0 then if bool_decide (line = []) then Ok st else Fail extra_data
  else st' ← text_fields o (Z.to_nat nfields) 0 lastfield line 0 0 (reset_buf line st); terminated st'.
End text.

(** ** Lines as lists of raw fields *)
Fixpoint join (d : Z) (raws : list (list Z)) : list Z :=
  match raws with
  | [] => []
  | [r] => r
  | r :: raws' => r ++ d :: join d raws'
  end.

(** Where the [k]-th field starts; [fstart raws (length raws)] is one past the
    end of the line. *)
Fixpoint fstart (raws : list (list Z)) (k : nat) {struct k} : Z :=
  match k, raws with
  | S k', r :: raws' => Z.of_nat (length r) + 1 + fstart raws' k'
  | _, _ => 0
  end.

Lemma join_cons d r raws : raws <> [] -> join d (r :: raws) = r ++ d :: join d raws.
Proof. by destruct raws. Qed.

Lemma fstart_nonneg raws k : 0 <= fstart raws k.
Proof. revert raws. induction k as [|k IH]; intros [|r raws]; simpl; try lia. specialize (IH raws). lia. Qed.

Lemma length_join d raws : raws <> [] -> Z.of_nat (length (join d raws)) = fstart raws (length raws) - 1.
Proof.
  induction raws as [|r raws IH]; [done|]. intros _. destruct (decide (raws = [])) as [->|Hne].
  - simpl. lia.
  - rewrite join_cons, length_app by done. cbn [length fstart]. specialize (IH Hne). lia.
Qed.

Lemma fstart_mono raws k : (k < length raws)%nat ->
  exists r, raws !! k = Some r /\ fstart raws (S k) = fstart raws k + Z.of_nat (length r) + 1.
Proof.
  revert raws. induction k as [|k IH]; intros [|r raws] Hk; simpl in Hk; try lia.
  - exists r. split; [done|]. simpl. by destruct raws; simpl; lia.
  - destruct (IH raws) as (r' & Hr & E); [lia|]. exists r'. split; [done|].
    cbn [fstart]. cbn [fstart] in E. rewrite E. lia.
Qed.

(** The slice of the line at the start of a field is the field. *)
Lemma join_slice d raws k r :
  raws !! k = Some r ->
  take (length r) (drop (Z.to_nat (fstart raws k)) (join d raws)) = r.
Proof.
  revert k. induction raws as [|r0 raws IH]; intros k Hk; [done|].
  destruct k as [|k]; simpl in Hk.
  - injection Hk as ->. cbn [fstart]. rewrite drop_0. destruct raws as [|r' raws]; [by rewrite firstn_all|].
    rewrite join_cons by done. by rewrite take_app_length.
  - assert (raws <> []) by (by intros ->). rewrite join_cons by done. cbn [fstart].
    replace (Z.to_nat (Z.of_nat (length r0) + 1 + fstart raws k))
      with (length r0 + S (Z.to_nat (fstart raws k)))%nat by (pose proof (fstart_nonneg raws k); lia).
    rewrite <- drop_drop, drop_app_length. simpl. by apply IH.
Qed.

(** ** CSV fields in print *)

(** A field is printed in quotes, its quote and escape bytes escaped, or as it
    is when it holds neither the delimiter nor a quote. *)
Inductive csv_field := Quoted (f : list Z) | Plain (f : list Z).

Definition csv_escape o (f : list Z) : list Z :=
  mbind (fun c => if (c =? quotec o) || (c =? escapec o) then [escapec o; c] else [c]) f.
Definition csv_raw o (cf : csv_field) : list Z :=
  match cf with Quoted f => quotec o :: csv_escape o f ++ [quotec o] | Plain f => f end.
Definition csv_text (cf : csv_field) : list Z := match cf with Quoted f | Plain f => f end.
(** The null marker, when it is not quoted. *)
Definition csv_null o (cf : csv_field) : bool :=
  match cf with Quoted _ => false | Plain f => bool_decide (f = null_print o) end.
Definition csv_ok o (cf : csv_field) : Prop :=
  match cf with
  | Quoted _ => True
  | Plain f => delimc o ∉ f /\ quotec o ∉ f
  end.
Definition opts_ok o : Prop := delimc o <> quotec o /\ delimc o <> escapec o.

(** What follows a field in the line. *)
Definition at_end o (rest : list Z) : Prop := match rest with [] => True | c :: _ => c = delimc o end.

Lemma fits_true room out : (length out < room)%nat -> fits room out = true.
Proof. apply Nat.ltb_lt. Qed.

Lemma csv_scan_plain o room f rest pos out q :
  delimc o ∉ f -> quotec o ∉ f -> at_end o rest -> delimc o <> quotec o -> (length out + length f <= room)%nat ->
  csv_scan o room false (f ++ rest) pos out q =
  Ok {| found_delim := negb (bool_decide (rest = [])); saw_quote := q; saw_non_ascii := false;
        end_ptr := pos + Z.of_nat (length f);
        cur_ptr := pos + Z.of_nat (length f) + (if rest is [] then 0 else 1);
        cur_rest := tail rest; field_out := out ++ f |}.
Proof.
  intros Hd Hq He Hne. revert pos out. induction f as [|c f IH]; intros pos out Hroom; simpl.
  - destruct rest as [|c r]; simpl in *.
    + rewrite app_nil_r. do 2 f_equal; lia.
    + subst c. rewrite Z.eqb_refl, app_nil_r. do 2 f_equal; lia.
  - apply not_elem_of_cons in Hd as [Hdc Hd], Hq as [Hqc Hq].
    rewrite (proj2 (Z.eqb_neq c (delimc o))), (proj2 (Z.eqb_neq c (quotec o))) by done.
    cbn [length] in Hroom. rewrite fits_true by lia.
    rewrite IH by (done || (rewrite length_app; simpl; lia)). rewrite <- app_assoc. simpl. do 2 f_equal; lia.
Qed.

Lemma csv_scan_in_quote o room f rest pos out q :
  opts_ok o -> at_end o rest -> (length out + length f <= room)%nat ->
  csv_scan o room true (csv_escape o f ++ quotec o :: rest) pos out q =
  csv_scan o room false rest (pos + Z.of_nat (length (csv_escape o f)) + 1) (out ++ f) q.
Proof.
  intros [Hdq Hde] He. revert pos out. induction f as [|c f IH]; intros pos out Hroom; cbn [length] in Hroom.
  - cbn [csv_escape mbind list_bind app length csv_scan]. rewrite app_nil_r.
    assert (csv_scan o room false rest (pos + 1) out q = csv_scan o room false rest (pos + Z.of_nat 0 + 1) out q)
      as <- by (f_equal; lia).
    destruct (Z.eqb_spec (quotec o) (escapec o)) as [E|E]; [|by rewrite Z.eqb_refl].
    destruct rest as [|c r]; [by rewrite Z.eqb_refl|]. simpl in He. subst c.
    rewrite (proj2 (Z.eqb_neq (delimc o) (escapec o))), (proj2 (Z.eqb_neq (delimc o) (quotec o))) by done.
    simpl. by rewrite Z.eqb_refl.
  - change (csv_escape o (c :: f)) with
      ((if (c =? quotec o) || (c =? escapec o) then [escapec o; c] else [c]) ++ csv_escape o f).
    destruct ((c =? quotec o) || (c =? escapec o)) eqn:Ec.
    + cbn [app csv_scan]. rewrite Z.eqb_refl, orb_comm, Ec, fits_true by lia.
      rewrite IH, <- app_assoc by (rewrite length_app; simpl; lia). f_equal. cbn [length]. lia.
    + apply orb_false_elim in Ec as [Eq Ee]. cbn [app csv_scan]. rewrite Ee, Eq, fits_true by lia.
      rewrite IH, <- app_assoc by (rewrite length_app; simpl; lia). f_equal. cbn [length]. lia.
Qed.

(** Scanning a printed field stops right after it and gives its text. *)
Lemma csv_scan_field o room cf rest pos :
  opts_ok o -> csv_ok o cf -> at_end o rest -> (length (csv_text cf) <= room)%nat ->
  exists fs, csv_scan o room false (csv_raw o cf ++ rest) pos [] false = Ok fs /\
    field_out fs = csv_text cf /\ end_ptr fs = pos + Z.of_nat (length (csv_raw o cf)) /\
    found_delim fs = negb (bool_decide (rest = [])) /\
    saw_quote fs = (if cf is Quoted _ then true else false) /\
    cur_rest fs = tail rest /\ (rest <> [] -> cur_ptr fs = end_ptr fs + 1).
Proof.
  intros Ho Hok He Hroom. destruct cf as [f|f]; simpl in *.
  - assert ((quotec o =? delimc o) = false) as -> by (apply Z.eqb_neq; destruct Ho; auto).
    rewrite Z.eqb_refl, <- app_assoc. cbn [app]. rewrite csv_scan_in_quote by done.
    pose proof (csv_scan_plain o room [] rest (pos + 1 + Z.of_nat (length (csv_escape o f)) + 1) f true) as E.
    cbn [app length] in E |- *. rewrite E by (done || set_solver || (by destruct Ho) || lia). eexists. split; [done|].
    cbn. rewrite length_app. simpl. split_and!; try done; [by rewrite app_nil_r|lia|]. by destruct rest.
  - destruct Hok. rewrite csv_scan_plain by (done || (by destruct Ho) || lia). eexists. split; [done|]. cbn.
    split_and!; try done. by destruct rest.
Qed.

(** ** What the readers record of a field *)

(** A NUL-terminated string at an offset of the attribute buffer. *)
Definition str_at (buf : list Z) (off : Z) (s : list Z) : Prop :=
  exists pre post, buf = pre ++ s ++ 0 :: post /\ off = Z.of_nat (length pre).

Definition field_at (st : fields_t) (k start : Z) (raw : list Z) (null : bool) (text : list Z) : Prop :=
  arr_get (at_pointer (attributes st)) k = Ok (u16 start) /\
  arr_get (at_pointer (attributes st)) (k + 1) = Ok (u16 (start + Z.of_nat (length raw) + 1)) /\
  arr_get (at_width (attributes st)) k = Ok (u16 (Z.of_nat (length raw))) /\
  if null then arr_get (fieldvals st) k = Ok None
  else exists off, arr_get (fieldvals st) k = Ok (Some off) /\ str_at (attribute_buf st) off text.

Definition sizes_ok (st : fields_t) (n : Z) : Prop :=
  0 < buf_maxlen st /\
  n <= Z.of_nat (length (fieldvals st)) /\
  n < Z.of_nat (length (at_pointer (attributes st))) /\
  n <= Z.of_nat (length (at_width (attributes st))).

(** A state that extends another from field [k] on. *)
Definition extends (st st' : fields_t) (k : Z) : Prop :=
  (exists more, attribute_buf st' = attribute_buf st ++ more) /\ buf_maxlen st' = buf_maxlen st /\
  (forall j, j < k -> arr_get (fieldvals st') j = arr_get (fieldvals st) j) /\
  (forall j, j < k -> arr_get (at_width (attributes st')) j = arr_get (at_width (attributes st)) j) /\
  (forall j, j <= k -> arr_get (at_pointer (attributes st')) j = arr_get (at_pointer (attributes st)) j) /\
  (forall n, sizes_ok st n -> sizes_ok st' n).

Lemma buf_extends_refl st k : extends st st k.
Proof. split_and!; try done. exists []. by rewrite app_nil_r. Qed.

Lemma buf_extends_trans st1 st2 st3 k1 k2 :
  k1 <= k2 -> extends st1 st2 k1 -> extends st2 st3 k2 -> extends st1 st3 k1.
Proof.
  intros Hk ((m1 & E1) & M1 & A1 & B1 & C1 & D1) ((m2 & E2) & M2 & A2 & B2 & C2 & D2).
  split_and!; [exists (m1 ++ m2); by rewrite E2, E1, app_assoc|congruence|intros j Hj..|auto].
  - rewrite A2 by lia. by apply A1.
  - rewrite B2 by lia. by apply B1.
  - rewrite C2 by lia. by apply C1.
Qed.

Lemma str_at_app buf more off s : str_at buf off s -> str_at (buf ++ more) off s.
Proof.
  intros (pre & post & -> & ->). exists pre, (post ++ more). split; [|done].
  by rewrite <- !app_assoc.
Qed.

Lemma field_at_extends st st' k start raw null text k' :
  field_at st k start raw null text -> extends st st' k' -> k < k' -> field_at st' k start raw null text.
Proof.
  intros (P & Q & W & F) ((more & E) & _ & A & B & C & _) Hk. unfold field_at.
  rewrite !C, B, A by lia. split_and!; [done..|]. destruct null; [done|].
  destruct F as (off & Hf & Hs). exists off. split; [done|]. rewrite E. by apply str_at_app.
Qed.

Lemma u16_width a b : u16 (u16 (a + b + 1) - u16 a - 1) = u16 b.
Proof.
  unfold u16. replace (wrap 16 (a + b + 1) - wrap 16 a - 1) with (wrap 16 (a + b + 1) - 1 - wrap 16 a) by lia.
  rewrite wrap_sub_r. replace (wrap 16 (a + b + 1) - 1 - a) with (wrap 16 (a + b + 1) - (1 + a)) by lia.
  rewrite wrap_sub_l. f_equal. lia.
Qed.

(** One turn of the loop over fields, whichever scanner produced [fs]. *)
Lemma one_field o fieldno n pos rest fs (null_ok : bool) raw total st :
  sizes_ok st n -> 0 <= fieldno < n -> end_ptr fs = pos + Z.of_nat (length raw) ->
  take (length raw) rest = raw -> arr_get (at_pointer (attributes st)) fieldno = Ok (u16 total) ->
  Z.of_nat (length (attribute_buf st)) + Z.of_nat (length (field_out fs)) < buf_maxlen st ->
  let null := null_ok && bool_decide (raw = null_print o) in
  exists st1 st2, put_field fieldno fs st = Ok st1 /\
    end_field o fieldno pos rest fs null_ok total st1 = Ok st2 /\
    field_at st2 fieldno total raw null (field_out fs) /\ extends st st2 fieldno /\
    attribute_buf st2 = attribute_buf st ++ field_out fs ++ [0].
Proof.
  intros (S0 & S1 & S2 & S3) Hf Hend Hraw Hp Hmax null. unfold put_field.
  rewrite arr_set_Ok by lia. cbn [mbind result_bind].
  rewrite (proj2 (Z.ltb_lt _ _)) by (rewrite length_app; lia). set (fv := <[_ := _]> (fieldvals st)).
  set (st1 := {| attribute_buf := _; buf_maxlen := _; fieldvals := fv; attributes := _ |}).
  exists st1. unfold end_field. rewrite Hend.
  replace (pos + Z.of_nat (length raw) - pos) with (Z.of_nat (length raw)) by lia. rewrite Nat2Z.id, Hraw.
  assert (null_ok && (Z.of_nat (length raw) =? Z.of_nat (length (null_print o))) &&
    bool_decide (raw = null_print o) = null) as ->.
  { subst null. case_bool_decide as E; [rewrite E, Z.eqb_refl, !andb_true_r; done|by rewrite !andb_false_r]. }
  assert (length fv = length (fieldvals st)) as Lfv by (subst fv; apply length_insert).
  assert (exists fv', (if null then arr_set (fieldvals st1) fieldno None else Ok (fieldvals st1)) = Ok fv' /\
    length fv' = length fv /\ (forall j, j <> fieldno -> arr_get fv' j = arr_get (fieldvals st) j) /\
    arr_get fv' fieldno = Ok (if null then None else Some (Z.of_nat (length (attribute_buf st)))))
    as (fv' & -> & Lfv' & Hfo & Hfn).
  { assert (arr_set (fieldvals st) fieldno (Some (Z.of_nat (length (attribute_buf st)))) = Ok fv) as Es
      by (apply arr_set_Ok; lia).
    destruct null; cbn [fieldvals st1].
    - destruct (arr_set fv fieldno None) as [fv'|] eqn:E2; [|rewrite arr_set_Ok in E2 by lia; done].
      exists fv'. split_and!; [done| |intros j Hj|by eapply arr_get_set_eq].
      + apply arr_set_inv in E2 as [_ ->]. apply length_insert.
      + rewrite (arr_get_set_ne _ _ _ j _ E2), (arr_get_set_ne _ _ _ j _ Es) by done. done.
    - exists fv. split_and!; [done..|intros j Hj; by rewrite (arr_get_set_ne _ _ _ j _ Es)|].
      by eapply arr_get_set_eq. }
  cbn [mbind result_bind st1 attributes]. set (np := u16 (total + Z.of_nat (length raw) + 1)).
  destruct (arr_set (at_pointer (attributes st)) (fieldno + 1) np) as [ptrs|] eqn:Ep;
    [|rewrite arr_set_Ok in Ep by lia; done]. cbn [mbind result_bind].
  rewrite (arr_get_set_eq _ _ _ _ Ep), (arr_get_set_ne _ _ _ fieldno _ Ep), Hp by lia. cbn [mbind result_bind].
  subst np. rewrite u16_width.
  destruct (arr_set (at_width (attributes st)) fieldno (u16 (Z.of_nat (length raw)))) as [ws|] eqn:Ew;
    [|rewrite arr_set_Ok in Ew by lia; done]. cbn [mbind result_bind].
  eexists. split; [done|]. split; [done|].
  assert (length ptrs = length (at_pointer (attributes st)) /\ length ws = length (at_width (attributes st))) as [Lp Lw]
    by (apply arr_set_inv in Ep as [_ ->], Ew as [_ ->]; by rewrite !length_insert).
  split; [|split; [|done]].
  - unfold field_at. cbn. rewrite (arr_get_set_eq _ _ _ _ Ep), (arr_get_set_ne _ _ _ fieldno _ Ep), Hp by lia.
    rewrite (arr_get_set_eq _ _ _ _ Ew), Hfn. split_and!; [done..|]. destruct null; [done|].
    eexists. split; [done|]. by exists (attribute_buf st), [].
  - split_and!; cbn; [by eexists|done|intros j Hj..|].
    + apply Hfo. lia.
    + apply (arr_get_set_ne _ _ _ j _ Ew). lia.
    + apply (arr_get_set_ne _ _ _ j _ Ep). lia.
    + unfold sizes_ok. cbn. rewrite Lfv', Lfv, Lp, Lw. done.
Qed.

Lemma csv_text_raw o cf : (length (csv_text cf) <= length (csv_raw o cf))%nat.
Proof.
  destruct cf as [f|f]; [|done]. cbn [csv_text csv_raw length]. rewrite length_app. simpl.
  assert (length f <= length (csv_escape o f))%nat; [|lia].
  induction f as [|c f IH]; [done|].
  change (csv_escape o (c :: f)) with
    ((if (c =? quotec o) || (c =? escapec o) then [escapec o; c] else [c]) ++ csv_escape o f).
  rewrite length_app. destruct (_ || _); simpl; lia.
Qed.

(** The buffer has room for the rest of the line and a terminator. *)
Definition has_room (st : fields_t) rest : Prop :=
  Z.of_nat (length (attribute_buf st)) + Z.of_nat (length rest) < buf_maxlen st.

(** The loop over the fields of a printed line, for a syntax of fields [F] that
    the scanner reads one at a time. *)
Section loop_spec.
Context {F : Type} (o : copy_opts) (scan : nat -> list Z -> Z -> result field_scan)
  (null_ok : field_scan -> bool) (verify : field_scan -> result unit).
Context (raw text : F -> list Z) (null : F -> bool) (ok : F -> Prop).
Hypothesis text_raw_le : forall cf, (length (text cf) <= length (raw cf))%nat.
Hypothesis scan_field : forall room cf rest pos, ok cf -> at_end o rest -> (length (text cf) <= room)%nat ->
  exists fs, scan room (raw cf ++ rest) pos = Ok fs /\ verify fs = Ok tt /\
    field_out fs = text cf /\ end_ptr fs = pos + Z.of_nat (length (raw cf)) /\
    found_delim fs = negb (bool_decide (rest = [])) /\
    null_ok fs && bool_decide (raw cf = null_print o) = null cf /\
    cur_rest fs = tail rest /\ (rest <> [] -> cur_ptr fs = end_ptr fs + 1).

Lemma fields_loop_spec lastfield : forall cfs n fieldno total st pos,
  cfs <> [] -> Forall ok cfs -> (length cfs <= n)%nat -> 0 <= fieldno <= lastfield ->
  sizes_ok st (fieldno + Z.of_nat n) -> arr_get (at_pointer (attributes st)) fieldno = Ok (u16 total) ->
  has_room st (join (delimc o) (raw <$> cfs)) ->
  exists st', fields_loop o scan null_ok verify n fieldno lastfield
      (join (delimc o) (raw <$> cfs)) pos total st = Ok st' /\
    extends st st' fieldno /\ last (attribute_buf st') = Some 0 /\
    forall i cf, cfs !! i = Some cf -> fieldno + Z.of_nat i <= lastfield ->
      field_at st' (fieldno + Z.of_nat i) (total + fstart (raw <$> cfs) i) (raw cf) (null cf) (text cf).
Proof.
  induction cfs as [|cf cfs IH]; intros n fieldno total st pos Hne Hok Hn Hf Hs Hp Hroom; [done|].
  destruct n as [|n]; [simpl in Hn; lia|]. inversion_clear Hok as [|? ? Hcf Hcfs].
  set (rest := match cfs with [] => [] | _ => delimc o :: join (delimc o) (raw <$> cfs) end).
  assert (join (delimc o) (raw <$> (cf :: cfs)) = raw cf ++ rest) as Ejoin.
  { subst rest. csimpl. destruct cfs; [by rewrite app_nil_r|done]. }
  rewrite Ejoin in *. clear Ejoin. unfold has_room in Hroom. rewrite length_app in Hroom. pose proof (text_raw_le cf) as Htext.
  assert (at_end o rest) as He by (subst rest; by destruct cfs).
  destruct (scan_field (buf_room st) cf rest pos Hcf He) as (fs & Es & Ev & Eo & Ee & Efd & Enull & Er & Ec); [unfold buf_room; lia|].
  destruct (one_field o fieldno (fieldno + Z.of_nat (S n)) pos (raw cf ++ rest) fs
    (null_ok fs) (raw cf) total st) as (st1 & st2 & E1 & E2 & Hfa & Hext & Hb);
    [done|lia|done|by rewrite take_app_length|done|rewrite Eo; lia|].
  rewrite Enull, Eo in Hfa. rewrite Eo in Hb.
  assert (last (attribute_buf st2) = Some 0) as Hlast by (rewrite Hb, app_assoc; apply last_snoc).
  assert (Hfirst : field_at st2 (fieldno + Z.of_nat 0) (total + fstart (raw <$> (cf :: cfs)) 0)
    (raw cf) (null cf) (text cf)) by (simpl; by rewrite !Z.add_0_r).
  cbn [fields_loop]. rewrite Es. cbn [mbind result_bind]. rewrite E1. cbn [mbind result_bind].
  rewrite Ev. cbn [mbind result_bind]. rewrite E2. cbn [mbind result_bind]. rewrite Efd, Er.
  destruct (Z.eqb_spec fieldno lastfield) as [El|El]; [|destruct cfs as [|cf' cfs]].
  - exists st2. split_and!; [done..|]. intros [|i] c Hi Hle; [injection Hi as <-; exact Hfirst|lia].
  - subst rest. exists st2. split_and!; [done..|]. intros [|i] c Hi Hle; [injection Hi as <-; exact Hfirst|done].
  - subst rest. cbn [tail]. rewrite bool_decide_eq_false_2 by done. cbn [negb].
    rewrite Ec, Ee by done. destruct Hfa as (_ & Hnext & _).
    destruct (IH n (fieldno + 1) (total + Z.of_nat (length (raw cf)) + 1) st2
      (pos + Z.of_nat (length (raw cf)) + 1)) as (st3 & E3 & Hext3 & Hl3 & H3);
      [done|done|simpl in *; lia|lia| |done| |].
    { replace (fieldno + 1 + Z.of_nat n) with (fieldno + Z.of_nat (S n)) by lia. by apply Hext. }
    { unfold has_room. rewrite Hb, !length_app. destruct Hext as (_ & -> & _). simpl length in *. lia. }
    exists st3. replace (pos + Z.of_nat (length (raw cf)) - pos) with (Z.of_nat (length (raw cf))) by lia.
    split_and!; [done|eapply buf_extends_trans; [|done..]; lia|done|].
    intros [|i] c Hi Hle; simpl in Hi.
    + injection Hi as <-. eapply field_at_extends; [exact Hfirst|exact Hext3|lia].
    + specialize (H3 i c Hi). rewrite fmap_cons. cbn [fstart].
      replace (fieldno + Z.of_nat (S i)) with (fieldno + 1 + Z.of_nat i) by lia.
      replace (total + (Z.of_nat (length (raw cf)) + 1 + fstart (raw <$> cf' :: cfs) i))
        with (total + Z.of_nat (length (raw cf)) + 1 + fstart (raw <$> cf' :: cfs) i) by lia.
      apply H3. lia.
Qed.

(** A line with more fields than the relation has columns is an error, unless
    the reader stops before. *)
Lemma fields_loop_extra lastfield : forall cfs n fieldno total st pos,
  Forall ok cfs -> (n < length cfs)%nat -> 0 <= fieldno -> fieldno + Z.of_nat n <= lastfield ->
  sizes_ok st (fieldno + Z.of_nat n) -> arr_get (at_pointer (attributes st)) fieldno = Ok (u16 total) ->
  has_room st (join (delimc o) (raw <$> cfs)) ->
  fields_loop o scan null_ok verify n fieldno lastfield
    (join (delimc o) (raw <$> cfs)) pos total st = Fail extra_data.
Proof.
  induction cfs as [|cf cfs IH]; intros n fieldno total st pos Hok Hn Hf Hl Hs Hp Hroom; [simpl in Hn; lia|].
  destruct n as [|n]; [done|]. inversion_clear Hok as [|? ? Hcf Hcfs].
  assert (cfs <> []) as Hne by (intros ->; simpl in Hn; lia).
  rewrite fmap_cons, join_cons in * by (by destruct cfs).
  unfold has_room in Hroom. rewrite length_app in Hroom. cbn [length] in Hroom. pose proof (text_raw_le cf) as Htext.
  destruct (scan_field (buf_room st) cf (delimc o :: join (delimc o) (raw <$> cfs)) pos Hcf eq_refl)
    as (fs & Es & Ev & Eo & Ee & Efd & Enull & Er & Ec); [unfold buf_room; lia|].
  destruct (one_field o fieldno (fieldno + Z.of_nat (S n)) pos
    (raw cf ++ delimc o :: join (delimc o) (raw <$> cfs)) fs (null_ok fs) (raw cf) total st)
    as (st1 & st2 & E1 & E2 & Hfa & Hext & Hb); [done|lia|done|by rewrite take_app_length|done|rewrite Eo; lia|].
  cbn [fields_loop]. rewrite Es. cbn [mbind result_bind]. rewrite E1. cbn [mbind result_bind].
  rewrite Ev. cbn [mbind result_bind]. rewrite E2. cbn [mbind result_bind]. rewrite Efd, Er.
  destruct (Z.eqb_spec fieldno lastfield); [lia|]. rewrite bool_decide_eq_false_2 by done. cbn [negb tail].
  destruct Hfa as (_ & Hnext & _). apply IH; [done|simpl in Hn; lia|lia|lia| | |].
  - replace (fieldno + 1 + Z.of_nat n) with (fieldno + Z.of_nat (S n)) by lia. by apply Hext.
  - rewrite Hnext, Ee. do 2 f_equal. lia.
  - unfold has_room. rewrite Hb, Eo, !length_app. destruct Hext as (_ & -> & _). simpl length. lia.
Qed.

(** On any line at all the loop ends with a result or with an error that is
    reported: no access leaves the buffer, the field strings or the positions. *)
Definition reported {A} (r : result A) : Prop := exists msg, r = Fail (EReport msg).

Definition scan_safe (room : nat) rest (pos : Z) (r : result field_scan) : Prop :=
  match r with
  | Ok fs => (length (field_out fs) + length (cur_rest fs) + (if found_delim fs then 1 else 0) <= length rest)%nat /\
      pos <= end_ptr fs <= pos + Z.of_nat (length rest)
  | Fail e => exists msg, e = EReport msg
  end.
Hypothesis scan_total : forall room rest pos, (length rest <= room)%nat -> scan_safe room rest pos (scan room rest pos).
Hypothesis verify_total : forall fs, verify fs = Ok tt \/ reported (verify fs).

Lemma fields_loop_safe lastfield n : forall fieldno rest pos total st,
  0 <= fieldno -> sizes_ok st (fieldno + Z.of_nat n) -> arr_get (at_pointer (attributes st)) fieldno = Ok (u16 total) ->
  has_room st rest ->
  (exists st', fields_loop o scan null_ok verify n fieldno lastfield rest pos total st = Ok st' /\
     last (attribute_buf st') = Some 0 /\ Z.of_nat (length (attribute_buf st')) <= buf_maxlen st' /\
     buf_maxlen st' = buf_maxlen st) \/
  reported (fields_loop o scan null_ok verify n fieldno lastfield rest pos total st).
Proof.
  induction n as [|n IH]; intros fieldno rest pos total st Hf Hs Hp Hroom; [right; by eexists|].
  cbn [fields_loop]. unfold has_room in Hroom.
  pose proof (scan_total (buf_room st) rest pos) as Hscan. unfold scan_safe in Hscan.
  destruct (scan (buf_room st) rest pos) as [fs|e]; [|right; destruct Hscan as [msg ->]; [unfold buf_room; lia|by eexists]].
  destruct Hscan as [Hlen Hend]; [unfold buf_room; lia|]. cbn [mbind result_bind].
  set (raw' := take (Z.to_nat (end_ptr fs - pos)) rest).
  assert (Hraw : Z.of_nat (length raw') = end_ptr fs - pos) by (unfold raw'; rewrite length_take; lia).
  destruct (one_field o fieldno (fieldno + Z.of_nat (S n)) pos rest fs (null_ok fs) raw' total st)
    as (st1 & st2 & -> & E2 & (_ & Hnext & _) & Hext & Hb); [done|lia|lia| |done|lia|].
  { unfold raw'. rewrite length_take. f_equal. lia. }
  cbn [mbind result_bind]. destruct (verify_total fs) as [-> | [msg ->]]; [|right; by eexists].
  cbn [mbind result_bind]. rewrite E2. cbn [mbind result_bind].
  pose proof Hext as (_ & Hmax & _ & _ & _ & Hsz). pose proof (f_equal length Hb) as Hbl. rewrite !length_app in Hbl. simpl in Hbl.
  assert (Hdone : last (attribute_buf st2) = Some 0 /\ Z.of_nat (length (attribute_buf st2)) <= buf_maxlen st2 /\
    buf_maxlen st2 = buf_maxlen st).
  { split; [rewrite Hb, app_assoc; apply last_snoc|]. split; [|done]. rewrite Hmax. lia. }
  destruct (fieldno =? lastfield); [left; by exists st2|].
  destruct (found_delim fs); cbn [negb]; [|left; by exists st2].
  rewrite <- Hmax. apply IH; [lia| | |].
  - replace (fieldno + 1 + Z.of_nat n) with (fieldno + Z.of_nat (S n)) by lia. by apply Hsz.
  - rewrite Hnext. do 2 f_equal. lia.
  - unfold has_room. rewrite Hmax. lia.
Qed.
End loop_spec.

(** ** The attribute buffer is large enough *)
Lemma csv_scan_safe o room rest : forall q pos out sq,
  (length out + length rest <= room)%nat ->
  match csv_scan o room q rest pos out sq with
  | Ok fs => (length (field_out fs) + length (cur_rest fs) + (if found_delim fs then 1 else 0)
       <= length out + length rest)%nat /\ pos <= end_ptr fs <= pos + Z.of_nat (length rest)
  | Fail e => exists msg, e = EReport msg
  end.
Proof.
  remember (length rest) as k eqn:Hk. revert rest Hk.
  induction (lt_wf k) as [k _ IH]; intros rest Hk q pos out sq Hroom. subst k.
  assert (Hrec : forall r q pos' out' sq, (length r < length rest)%nat ->
    (length r + length out' <= length rest + length out)%nat -> pos < pos' ->
    pos' + Z.of_nat (length r) <= pos + Z.of_nat (length rest) ->
    match csv_scan o room q r pos' out' sq with
    | Ok fs => (length (field_out fs) + length (cur_rest fs) + (if found_delim fs then 1 else 0)
         <= length out + length rest)%nat /\ pos <= end_ptr fs <= pos + Z.of_nat (length rest)
    | Fail e => exists msg, e = EReport msg
    end).
  { intros r q' pos' out' sq' Hr Hl Hp Hq. specialize (IH _ Hr r eq_refl q' pos' out' sq'). 
    destruct (csv_scan o room q' r pos' out' sq') as [fs|e]; [|apply IH; lia].
    destruct IH as [H1 H2]; [lia|]. split; lia. }
  clear IH. destruct rest as [|c r].
  { destruct q; simpl; [by eexists|]. split; lia. }
  cbn [csv_scan length] in *.
  assert (Hadd : forall r' d q d', (length r' <= length r)%nat -> 0 < d -> d + Z.of_nat (length r') <= Z.of_nat (length r) + 1 ->
    match (if fits room out then csv_scan o room q r' (pos + d) (out ++ [d']) sq else Fail OutOfBounds) with
    | Ok fs => (length (field_out fs) + length (cur_rest fs) + (if found_delim fs then 1 else 0)
         <= length out + S (length r))%nat /\ pos <= end_ptr fs <= pos + Z.of_nat (S (length r))
    | Fail e => exists msg, e = EReport msg
    end).
  { intros r' d q' d' Hr' Hd Hd2. rewrite fits_true by lia. apply Hrec; rewrite ?length_app; simpl; lia. }
  destruct q.
  - assert (Hca : match (if c =? quotec o then csv_scan o room false r (pos + 1) out sq
      else if fits room out then csv_scan o room true r (pos + 1) (out ++ [c]) sq else Fail OutOfBounds) with
      | Ok fs => (length (field_out fs) + length (cur_rest fs) + (if found_delim fs then 1 else 0)
           <= length out + S (length r))%nat /\ pos <= end_ptr fs <= pos + Z.of_nat (S (length r))
      | Fail e => exists msg, e = EReport msg
      end) by (destruct (c =? quotec o); [apply Hrec; lia|apply Hadd; lia]).
    destruct (c =? escapec o); [|by apply Hca]. destruct r as [|n r']; [by apply Hca|].
    destruct (_ || _); [|by apply Hca]. apply Hadd; simpl; lia.
  - destruct (c =? delimc o); [simpl; split; lia|]. destruct (c =? quotec o); [apply Hrec; lia|apply Hadd; lia].
Qed.

(** ** Text fields in print *)

(** Every delimiter and backslash of the field is preceded by a backslash. *)
Definition text_raw o (f : list Z) : list Z :=
  mbind (fun c => if (c =? delimc o) || (c =? ch_backslash) then [ch_backslash; c] else [c]) f.

(** The delimiter is not a character that a backslash gives another meaning. *)
Definition text_opts_ok o : Prop :=
  delimc o <> ch_backslash /\ ISOCTAL (delimc o) = false /\
  delimc o ∉ [120; 98; 102; 110; 114; 116; 118].

Lemma read_escape_literal c rest :
  ISOCTAL c = false -> c ∉ [120; 98; 102; 110; 114; 116; 118] -> read_escape c rest = (c, rest, false).
Proof.
  intros Ho Hn. unfold read_escape. rewrite Ho. rewrite !not_elem_of_cons in Hn.
  rewrite !(proj2 (Z.eqb_neq _ _)) by naive_solver. done.
Qed.

Lemma text_scan_raw o room f rest : text_opts_ok o -> at_end o rest -> forall fuel pos out,
  (length (text_raw o f ++ rest) < fuel)%nat -> (length out + length f <= room)%nat ->
  text_scan fuel o room (text_raw o f ++ rest) pos out false =
  Ok {| found_delim := negb (bool_decide (rest = [])); saw_quote := false; saw_non_ascii := false;
        end_ptr := pos + Z.of_nat (length (text_raw o f));
        cur_ptr := pos + Z.of_nat (length (text_raw o f)) + (if rest is [] then 0 else 1);
        cur_rest := tail rest; field_out := out ++ f |}.
Proof.
  intros (Hdb & Hdo & Hds) He. induction f as [|c f IH]; intros fuel pos out Hf Hroom; cbn [length] in Hroom;
    (destruct fuel as [|fuel]; [lia|]).
  - cbn [text_raw mbind list_bind app length text_scan]. rewrite app_nil_r.
    destruct rest as [|c r]; simpl in *; [do 2 f_equal; lia|]. subst c. rewrite Z.eqb_refl. do 2 f_equal; lia.
  - change (text_raw o (c :: f)) with
      ((if (c =? delimc o) || (c =? ch_backslash) then [ch_backslash; c] else [c]) ++ text_raw o f) in *.
    destruct ((c =? delimc o) || (c =? ch_backslash)) eqn:Ec.
    + cbn [app text_scan]. rewrite (proj2 (Z.eqb_neq ch_backslash (delimc o))), Z.eqb_refl by auto.
      rewrite read_escape_literal.
      * rewrite fits_true by lia.
        rewrite Nat.sub_diag, IH by (rewrite ?length_app in *; simpl in *; lia). rewrite <- app_assoc.
        cbn [app length]. do 2 f_equal; lia.
      * apply orb_prop in Ec as [->%Z.eqb_eq| ->%Z.eqb_eq]; done.
      * apply orb_prop in Ec as [->%Z.eqb_eq| ->%Z.eqb_eq]; [done|]. unfold ch_backslash. set_solver by lia.
    + apply orb_false_elim in Ec as [Ed Eb]. cbn [app text_scan]. rewrite Ed, Eb, fits_true by lia.
      rewrite IH by (rewrite ?length_app in *; simpl in *; lia). rewrite <- app_assoc. cbn [app length]. do 2 f_equal; lia.
Qed.

Lemma read_escape_length c rest : (length (read_escape c rest).1.2 <= length rest)%nat.
Proof.
  unfold read_escape. destruct (ISOCTAL c).
  - destruct rest as [|d [|e r]]; simpl; repeat (case_match; simpl); lia.
  - destruct (c =? 120); [|simpl; lia].
    destruct rest as [|d [|e r]]; simpl; repeat (case_match; simpl); lia.
Qed.

(** The text scanner has fuel, room and an end for every line: every turn consumes a
    byte. *)
Lemma text_scan_safe o room fuel : forall rest pos out na,
  (length rest < fuel)%nat -> (length out + length rest <= room)%nat ->
  exists fs, text_scan fuel o room rest pos out na = Ok fs /\
    (length (field_out fs) + length (cur_rest fs) + (if found_delim fs then 1 else 0) <= length out + length rest)%nat /\
    pos <= end_ptr fs <= pos + Z.of_nat (length rest).
Proof.
  induction fuel as [|fuel IH]; intros rest pos out na Hf Hroom; [lia|]. cbn [text_scan].
  destruct rest as [|c r]; [eexists; split; [done|]; simpl; lia|]. cbn [length] in *.
  destruct (c =? delimc o); [eexists; split; [done|]; simpl; lia|].
  destruct (c =? ch_backslash).
  - destruct r as [|c1 r1]; [eexists; split; [done|]; simpl; lia|]. cbn [length] in *.
    pose proof (read_escape_length c1 r1) as Hl. destruct (read_escape c1 r1) as [[v r'] na']. cbn [fst snd] in Hl.
    rewrite fits_true by lia.
    destruct (IH r' (pos + 2 + Z.of_nat (length r1 - length r')) (out ++ [v]) (na || na')) as (fs & E & H1 & H2);
      [lia|rewrite length_app; simpl; lia|]. exists fs. rewrite length_app in H1. simpl in H1. split; [done|]. lia.
  - rewrite fits_true by lia.
    destruct (IH r (pos + 1) (out ++ [c]) na) as (fs & E & H1 & H2);
      [lia|rewrite length_app; simpl; lia|]. exists fs. rewrite length_app in H1. simpl in H1. split; [done|]. lia.
Qed.

Lemma text_raw_long o f : (length f <= length (text_raw o f))%nat.
Proof.
  induction f as [|c f IH]; [done|].
  change (text_raw o (c :: f)) with
    ((if (c =? delimc o) || (c =? ch_backslash) then [ch_backslash; c] else [c]) ++ text_raw o f).
  rewrite length_app. destruct (_ || _); simpl; lia.
Qed.

(** The buffer is made longer than the line. *)
Lemma double_until_ge fuel : forall newlen needed, 0 < newlen -> needed <= newlen + Z.of_nat fuel ->
  needed <= double_until fuel newlen needed.
Proof.
  induction fuel as [|fuel IH]; intros newlen needed Hn Hle; cbn [double_until]; [lia|].
  destruct (Z.ltb_spec newlen needed); [|lia]. apply IH; lia.
Qed.

Lemma reset_buf_room line st : 0 < buf_maxlen st -> has_room (reset_buf line st) line.
Proof.
  intros Hm. unfold has_room, reset_buf. cbn [attribute_buf buf_maxlen length].
  destruct (Z.leb_spec (buf_maxlen st) (Z.of_nat (length line))); [|lia].
  unfold enlargeStringInfo. destruct (Z.leb_spec (Z.of_nat (length line) + 1) (buf_maxlen st)); [lia|].
  pose proof (double_until_ge (Z.to_nat (Z.of_nat (length line) + 1)) (2 * buf_maxlen st) (Z.of_nat (length line) + 1)).
  cbv zeta. destruct (Z.ltb_spec (Z.of_nat (length line)) MaxAllocSize); cbn [andb]; [|lia]. case_match; lia.
Qed.

Lemma reset_buf_sizes line st n : sizes_ok st n -> sizes_ok (reset_buf line st) n.
Proof.
  intros (Hm & Hs). split; [|done]. pose proof (reset_buf_room line st Hm) as Hr. unfold has_room in Hr.
  lia.
Qed.

Lemma csv_scan_field' o room cf rest pos :
  opts_ok o -> csv_ok o cf -> at_end o rest -> (length (csv_text cf) <= room)%nat ->
  exists fs, csv_scan o room false (csv_raw o cf ++ rest) pos [] false = Ok fs /\ Ok tt = Ok tt /\
    field_out fs = csv_text cf /\ end_ptr fs = pos + Z.of_nat (length (csv_raw o cf)) /\
    found_delim fs = negb (bool_decide (rest = [])) /\
    negb (saw_quote fs) && bool_decide (csv_raw o cf = null_print o) = csv_null o cf /\
    cur_rest fs = tail rest /\ (rest <> [] -> cur_ptr fs = end_ptr fs + 1).
Proof.
  intros Ho Hcf He Hroom. destruct (csv_scan_field o room cf rest pos Ho Hcf He Hroom) as (fs & ? & ? & ? & ? & Eq & ? & ?).
  exists fs. split_and!; try done. rewrite Eq. by destruct cf.
Qed.

Lemma text_scan_field o verify room f rest pos :
  text_opts_ok o -> at_end o rest -> (length f <= room)%nat ->
  exists fs, text_scan (S (length (text_raw o f ++ rest))) o room (text_raw o f ++ rest) pos [] false = Ok fs /\
    (if saw_non_ascii fs && negb (verify (field_out fs))
     then Fail (EReport "invalid byte sequence for encoding") else Ok tt) = Ok tt /\
    field_out fs = f /\ end_ptr fs = pos + Z.of_nat (length (text_raw o f)) /\
    found_delim fs = negb (bool_decide (rest = [])) /\
    true && bool_decide (text_raw o f = null_print o) = bool_decide (text_raw o f = null_print o) /\
    cur_rest fs = tail rest /\ (rest <> [] -> cur_ptr fs = end_ptr fs + 1).
Proof.
  intros Ho He Hroom. rewrite text_scan_raw by (done || (simpl; lia)). eexists. split; [done|]. cbn.
  split_and!; try done. by destruct rest.
Qed.

Lemma first_pointer line st :
  arr_get (at_pointer (attributes st)) 0 = Ok 0 ->
  arr_get (at_pointer (attributes (reset_buf line st))) 0 = Ok (u16 0).
Proof. intros E. change (attributes (reset_buf line st)) with (attributes st). rewrite E. unfold u16. by rewrite wrap_small. Qed.

(** ** Properties of the readers *)

(** No reader changes the size of a block, but for the attribute buffer, which
    grows. *)
Definition same_lengths (st st' : fields_t) : Prop :=
  (0 < buf_maxlen st -> 0 < buf_maxlen st') /\
  length (fieldvals st') = length (fieldvals st) /\
  length (at_pointer (attributes st')) = length (at_pointer (attributes st)) /\
  length (at_width (attributes st')) = length (at_width (attributes st)).

Lemma put_field_lengths fieldno fs st st' : put_field fieldno fs st = Ok st' -> same_lengths st st'.
Proof. unfold put_field. intros (fv & E%arr_set_length & H)%bind_Ok. destruct (_ <? _); [injection H as <-; by split_and!|done]. Qed.

Lemma end_field_lengths o fieldno start rest fs b total st st' :
  end_field o fieldno start rest fs b total st = Ok st' -> same_lengths st st'.
Proof.
  unfold end_field. intros (fv & E1 & (ptrs & E2%arr_set_length & (? & _ & (? & _ & (ws & E3%arr_set_length & [= <-])
    %bind_Ok)%bind_Ok)%bind_Ok)%bind_Ok)%bind_Ok.
  split_and!; cbn; try done. destruct (_ && _); [by apply arr_set_length in E1|by injection E1 as <-].
Qed.

Lemma fields_loop_lengths o scan null_ok verify lastfield n : forall fieldno rest pos total st st',
  fields_loop o scan null_ok verify n fieldno lastfield rest pos total st = Ok st' -> same_lengths st st'.
Proof.
  induction n as [|n IH]; intros fieldno rest pos total st st'; cbn [fields_loop]; [done|].
  intros (fs & _ & (st1 & E1%put_field_lengths & (? & _ & (st2 & E2%end_field_lengths & E)%bind_Ok)%bind_Ok)%bind_Ok)%bind_Ok.
  assert (H2 : same_lengths st st2) by (unfold same_lengths in *; intuition congruence).
  destruct (fieldno =? lastfield); [by injection E as <-|]. destruct (negb (found_delim fs)); [by injection E as <-|].
  apply IH in E. unfold same_lengths in *. intuition congruence.
Qed.

Lemma ReadAttributesCSV_lengths o nfields lastfield line st st' :
  NoDBCopyReadAttributesCSV o nfields lastfield line st = Ok st' -> same_lengths st st'.
Proof.
  unfold NoDBCopyReadAttributesCSV, csv_fields, terminated. destruct (nfields <=? 0).
  - case_bool_decide; [|done]. by intros [= <-].
  - intros (st1 & [H0 H]%fields_loop_lengths & (? & _ & [= <-])%bind_Ok)%bind_Ok. split; [|done].
    intros Hm. apply H0, (reset_buf_sizes line st (-1)). split_and!; [done|lia..].
Qed.

Lemma ReadAttributesCSV_spec o nfields lastfield cfs st :
  opts_ok o -> cfs <> [] -> Forall (csv_ok o) cfs -> Z.of_nat (length cfs) <= nfields ->
  0 <= lastfield -> sizes_ok st nfields -> arr_get (at_pointer (attributes st)) 0 = Ok 0 ->
  exists st', NoDBCopyReadAttributesCSV o nfields lastfield
      (join (delimc o) (csv_raw o <$> cfs)) st = Ok st' /\ extends (reset_buf (join (delimc o) (csv_raw o <$> cfs)) st) st' 0 /\
    forall i cf, cfs !! i = Some cf -> Z.of_nat i <= lastfield ->
      field_at st' (Z.of_nat i) (fstart (csv_raw o <$> cfs) i) (csv_raw o cf) (csv_null o cf) (csv_text cf).
Proof.
  intros Ho Hne Hok Hn Hl Hs Hp. unfold NoDBCopyReadAttributesCSV.
  destruct (Z.leb_spec nfields 0); [destruct cfs; simpl in *; done || lia|].
  destruct (fields_loop_spec o (fun room rest pos => csv_scan o room false rest pos [] false)
    (fun fs => negb (saw_quote fs)) (fun _ => Ok tt) (csv_raw o) csv_text (csv_null o) (csv_ok o) (csv_text_raw o)
    (fun room cf rest pos => csv_scan_field' o room cf rest pos Ho) lastfield cfs (Z.to_nat nfields) 0 0
    (reset_buf (join (delimc o) (csv_raw o <$> cfs)) st) 0) as (st' & E & Hext & Hlast & Hf);
    [done|done|lia|lia| |by apply first_pointer|by apply reset_buf_room, Hs|].
  { rewrite Z2Nat.id by lia. by apply reset_buf_sizes. }
  exists st'. unfold csv_fields. rewrite E. cbn [mbind result_bind]. unfold terminated.
  rewrite bool_decide_eq_true_2 by done. by split_and!.
Qed.

(** C26 [NoDBCopyReadAttributesCSV] inverts the CSV printing of a line. For a line
    made of fields printed with or without quotes, up to the last wanted field:
    the string of each field is its text (with delimiters, quotes and escapes
    inside), a field that is the unquoted null marker is [NULL], and the
    recorded pointer and width (16 bits each) are where the raw field lies in
    the line. *)
Theorem NoDBCopyReadAttributesCSV_roundtrip o nfields lastfield cfs st :
  opts_ok o -> cfs <> [] -> Forall (csv_ok o) cfs -> Z.of_nat (length cfs) <= nfields ->
  0 <= lastfield -> sizes_ok st nfields -> arr_get (at_pointer (attributes st)) 0 = Ok 0 ->
  exists st', NoDBCopyReadAttributesCSV o nfields lastfield
      (join (delimc o) (csv_raw o <$> cfs)) st = Ok st' /\
    forall i cf, cfs !! i = Some cf -> Z.of_nat i <= lastfield ->
      field_at st' (Z.of_nat i) (fstart (csv_raw o <$> cfs) i) (csv_raw o cf) (csv_null o cf) (csv_text cf).
Proof.
  intros Ho Hne Hok Hn Hl Hs Hp. destruct (ReadAttributesCSV_spec o nfields lastfield cfs st) as (st' & E & _ & Hf); [done..|].
  by exists st'.
Qed.

(** C27 [NoDBCopyReadAttributesText] inverts the text printing of a line, in which
    every delimiter and backslash is escaped: each field string is the field,
    and the pointers and widths delimit the raw fields. *)
Theorem NoDBCopyReadAttributesText_roundtrip verify o nfields lastfield fs st :
  text_opts_ok o -> fs <> [] -> Z.of_nat (length fs) <= nfields ->
  0 <= lastfield -> sizes_ok st nfields -> arr_get (at_pointer (attributes st)) 0 = Ok 0 ->
  exists st', NoDBCopyReadAttributesText verify o nfields lastfield
      (join (delimc o) (text_raw o <$> fs)) st = Ok st' /\
    forall i f, fs !! i = Some f -> Z.of_nat i <= lastfield ->
      field_at st' (Z.of_nat i) (fstart (text_raw o <$> fs) i) (text_raw o f)
        (bool_decide (text_raw o f = null_print o)) f.
Proof.
  intros Ho Hne Hn Hl Hs Hp. unfold NoDBCopyReadAttributesText.
  destruct (Z.leb_spec nfields 0); [destruct fs; simpl in *; done || lia|].
  destruct (fields_loop_spec o (fun room rest pos => text_scan (S (length rest)) o room rest pos [] false)
    (fun _ => true) (fun fs => if saw_non_ascii fs && negb (verify (field_out fs))
       then Fail (EReport "invalid byte sequence for encoding") else Ok tt)
    (text_raw o) id (fun f => bool_decide (text_raw o f = null_print o)) (fun _ => True) (text_raw_long o)
    (fun room f rest pos _ => text_scan_field o verify room f rest pos Ho) lastfield fs (Z.to_nat nfields) 0 0
    (reset_buf (join (delimc o) (text_raw o <$> fs)) st) 0) as (st' & E & _ & Hlast & Hf);
    [done|by apply Forall_true|lia|lia| |by apply first_pointer|by apply reset_buf_room, Hs|].
  { rewrite Z2Nat.id by lia. by apply reset_buf_sizes. }
  exists st'. unfold text_fields. rewrite E. cbn [mbind result_bind]. unfold terminated.
  rewrite bool_decide_eq_true_2 by done. split; [done|]. exact Hf.
Qed.

(** C33 The field readers are memory safe on every line: whatever bytes the line
    holds, in CSV or text mode, with blocks for the fields of the relation, a reader
    returns or reports an error. It never writes outside the attribute buffer, which
    is enlarged to the length of the line before the first byte is written and has a
    fixed size from then on, on the lines that end in an error too, and never
    accesses a field string or a position outside their blocks. *)
Theorem attribute_buf_never_overrun verify o nfields lastfield line st (text_mode : bool) :
  sizes_ok st nfields -> arr_get (at_pointer (attributes st)) 0 = Ok 0 ->
  let r := if text_mode then NoDBCopyReadAttributesText verify o nfields lastfield line st
           else NoDBCopyReadAttributesCSV o nfields lastfield line st in
  (exists st', r = Ok st' /\ (0 < nfields -> Z.of_nat (length (attribute_buf st')) <= buf_maxlen st' /\
     buf_maxlen st' = buf_maxlen (reset_buf line st))) \/
  (exists msg, r = Fail (EReport msg)).
Proof.
  intros Hs Hp. unfold NoDBCopyReadAttributesCSV, NoDBCopyReadAttributesText.
  destruct (Z.leb_spec nfields 0) as [Hn|Hn].
  { destruct text_mode; (case_bool_decide; [left; exists st; split; [done|lia]|right; by eexists]). }
  assert (Hsr : sizes_ok (reset_buf line st) (0 + Z.of_nat (Z.to_nat nfields))) by (rewrite Z2Nat.id by lia; by apply reset_buf_sizes).
  pose proof (reset_buf_room line st (proj1 Hs)) as Hroom. pose proof (first_pointer line st Hp) as Hp'.
  assert (Hend : forall r, (exists st', r = Ok st' /\ last (attribute_buf st') = Some 0 /\
      Z.of_nat (length (attribute_buf st')) <= buf_maxlen st' /\ buf_maxlen st' = buf_maxlen (reset_buf line st)) \/ reported r ->
    (exists st', (st' ← r; terminated st') = Ok st' /\ (0 < nfields -> Z.of_nat (length (attribute_buf st')) <= buf_maxlen st' /\
      buf_maxlen st' = buf_maxlen (reset_buf line st))) \/ (exists msg, (st' ← r; terminated st') = Fail (EReport msg))).
  { intros r [(st' & -> & Hl & Hb)|[msg ->]]; [left|right; by eexists].
    cbn [mbind result_bind]. unfold terminated. rewrite bool_decide_eq_true_2 by done. by exists st'. }
  destruct text_mode; apply Hend.
  - apply fields_loop_safe; try done.
    + intros room rest pos Hr. destruct (text_scan_safe o room (S (length rest)) rest pos [] false) as (fs & -> & H); [lia|simpl; lia|].
      exact H.
    + intros fs. destruct (saw_non_ascii fs && _); [right; by eexists|by left].
  - apply fields_loop_safe; try done.
    + intros room rest pos Hr. apply (csv_scan_safe o room rest false pos [] false). simpl. lia.
    + intros fs. by left.
Qed.

(** A line with more fields than the relation has columns is reported as an
    error when all of them are wanted. *)
Theorem NoDBCopyReadAttributesCSV_extra_data o nfields lastfield cfs st :
  opts_ok o -> Forall (csv_ok o) cfs -> 0 < nfields < Z.of_nat (length cfs) ->
  nfields <= lastfield -> sizes_ok st nfields -> arr_get (at_pointer (attributes st)) 0 = Ok 0 ->
  NoDBCopyReadAttributesCSV o nfields lastfield (join (delimc o) (csv_raw o <$> cfs)) st
  = Fail (EReport "extra data after last expected column").
Proof.
  intros Ho Hok Hn Hl Hs Hp. unfold NoDBCopyReadAttributesCSV.
  destruct (Z.leb_spec nfields 0); [lia|]. unfold csv_fields.
  rewrite (fields_loop_extra o (fun room rest pos => csv_scan o room false rest pos [] false)
    (fun fs => negb (saw_quote fs)) (fun _ => Ok tt) (csv_raw o) csv_text (csv_null o) (csv_ok o) (csv_text_raw o)
    (fun room cf rest pos => csv_scan_field' o room cf rest pos Ho)); [done|done|lia|lia|lia| |by apply first_pointer|by apply reset_buf_room, Hs].
  rewrite Z2Nat.id by lia. by apply reset_buf_sizes.
Qed.

(** ** Witnesses *)

(** The options of a CSV scan: comma, double quotes, the empty null marker. *)
Definition csv_defaults : copy_opts :=
  {| delimc := 44; quotec := 34; escapec := 34; null_print := [] |}.
(** The state of a scan of three columns before the first line. *)
Definition fields0 : fields_t :=
  {| attribute_buf := []; buf_maxlen := 1024; fieldvals := arr_alloc 3;
     attributes := {| at_pointer := Some 0 :: arr_alloc 3; at_width := arr_alloc 4 |} |}.

Definition ex_cfs : list csv_field := [Plain [97]; Quoted [44; 34]; Plain []].

Lemma NoDBCopyReadAttributesCSV_witness :
  exists st', NoDBCopyReadAttributesCSV csv_defaults 3 2
      (join 44 (csv_raw csv_defaults <$> ex_cfs)) fields0 = Ok st' /\
    forall i cf, ex_cfs !! i = Some cf -> Z.of_nat i <= 2 ->
      field_at st' (Z.of_nat i) (fstart (csv_raw csv_defaults <$> ex_cfs) i) (csv_raw csv_defaults cf)
        (csv_null csv_defaults cf) (csv_text cf).
Proof.
  apply (NoDBCopyReadAttributesCSV_roundtrip csv_defaults 3 2 ex_cfs fields0); try done.
  - repeat constructor; simpl; set_solver by lia.
Defined.

Definition text_defaults : copy_opts :=
  {| delimc := 124; quotec := 34; escapec := 34; null_print := [92; 78] |}.

Lemma NoDBCopyReadAttributesText_witness :
  exists st', NoDBCopyReadAttributesText (fun _ => true) text_defaults 3 2
      (join 124 (text_raw text_defaults <$> [[97; 124]; [92]])) fields0 = Ok st' /\
    forall i f, [[97; 124]; [92]] !! i = Some f -> Z.of_nat i <= 2 ->
      field_at st' (Z.of_nat i) (fstart (text_raw text_defaults <$> [[97; 124]; [92]]) i)
        (text_raw text_defaults f) (bool_decide (text_raw text_defaults f = [92; 78])) f.
Proof.
  apply (NoDBCopyReadAttributesText_roundtrip (fun _ => true) text_defaults 3 2 [[97; 124]; [92]] fields0); try done.
  - split_and!; [done|done|]. simpl. set_solver by lia.
Defined.

(** A line of which a field is opened with a quote and never closed. *)
Lemma attribute_buf_witness :
  (exists st', NoDBCopyReadAttributesCSV csv_defaults 3 2 [97; 44; 34; 98; 44] fields0 = Ok st' /\
    (0 < 3 -> Z.of_nat (length (attribute_buf st')) <= buf_maxlen st' /\ buf_maxlen st' = buf_maxlen (reset_buf [97; 44; 34; 98; 44] fields0))) \/
  (exists msg, NoDBCopyReadAttributesCSV csv_defaults 3 2 [97; 44; 34; 98; 44] fields0 = Fail (EReport msg)).
Proof.
  apply (attribute_buf_never_overrun (fun _ => true) csv_defaults 3 2 [97; 44; 34; 98; 44] fields0 false); [|reflexivity].
  split_and!; vm_compute; (reflexivity || discriminate).
Defined.

Lemma extra_data_witness :
  NoDBCopyReadAttributesCSV csv_defaults 2 2
    (join 44 (csv_raw csv_defaults <$> [Plain [97]; Plain [98]; Plain [99]])) fields0
  = Fail (EReport "extra data after last expected column").
Proof.
  apply (NoDBCopyReadAttributesCSV_extra_data csv_defaults 2 2 [Plain [97]; Plain [98]; Plain [99]] fields0);
    try done.
  - repeat constructor; simpl; set_solver by lia.
Defined.
