(* ===== verification/PositionalMap.v ===== *)
(** * Finding fields from the positional map (NoDBExecutor.c)

    [parseLineForward] and [parseLineBackward] find the positions of some fields
    of a line from a position that the positional map knows;
    [NoDBGetNextTupleViaPM] drives them, [NoDBGetValues] and
    [NoDBGetValuesWithPM] convert the fields of the line to values. *)
From S2P Require Import Prelude Vectors CacheData FieldParser.

Implicit Types (o : copy_opts) (line rest out : list Z).

(** ** Positions from the positional map *)

(** The loop of [parseLineForward]: the pointers found, the delimiters still
    wanted, the attribute reached and [start_ptr], [end_ptr]. *)
Record forward_t := { fw_ptrs : arr Z; fw_many : Z; fw_id : Z; fw_start : Z; fw_end : Z }.

Fixpoint forward_loop (fuel : nat) o rest (pos : Z) (ptrs : arr Z) (how_many id start : Z)
    : result forward_t :=
  match fuel with
  | O => Fail OutOfFuel
  | S fuel' =>
      let stop ptrs how_many id :=
        Ok {| fw_ptrs := ptrs; fw_many := how_many; fw_id := id; fw_start := start; fw_end := pos |} in
      match rest with
      | [] => stop ptrs how_many id
      | c :: r =>
          '(ptrs1, many1, id1, done) ←
            (if c =? delimc o then
               p ← arr_set ptrs (id + 1) (u16 (pos + 1));
               Ok (p, how_many - 1, id + 1, how_many - 1 =? 0)
             else Ok (ptrs, how_many, id, false));
          if (done : bool) then stop ptrs1 many1 id1
          else
            let start1 := if c =? delimc o then pos + 1 else start in
            if c =? ch_backslash then
              match r with
              | [] => Ok {| fw_ptrs := ptrs1; fw_many := many1; fw_id := id1;
                            fw_start := start1; fw_end := pos |}
              | c1 :: r1 =>
                  let '(_, r', _) := read_escape c1 r1 in
                  forward_loop fuel' o r' (pos + 2 + Z.of_nat (length r1 - length r'))
                    ptrs1 many1 id1 start1
              end
            else forward_loop fuel' o r (pos + 1) ptrs1 many1 id1 start1
      end
  end.

(** The result is the pointers and the length that the C function returns. *)
Definition parseLineForward o line (ptrs : arr Z) (cur how_many attributeID : Z)
    : result (arr Z * Z) :=
  let rest := drop (Z.to_nat cur) line in
  f ← forward_loop (S (length rest)) o rest cur ptrs how_many attributeID cur;
  ptrs' ← (if 0 <? fw_many f
           then arr_set (fw_ptrs f) (fw_id f + 1) (u16 (Z.of_nat (length line) + 1))
           else Ok (fw_ptrs f));
  let input_len := fw_end f - fw_start f in
  Ok (ptrs', if (input_len =? Z.of_nat (length (null_print o)))
                && bool_decide (take (Z.to_nat input_len) (drop (Z.to_nat (fw_start f)) line)
                                = null_print o)
             then 0 else input_len).

Definition line_get line (i : Z) : result Z :=
  if i <? 0 then Fail OutOfBounds
  else match line !! Z.to_nat i with Some c => Ok c | None => Fail OutOfBounds end.

(** The escape handling of [parseLineBackward], [i] being where [cur_ptr] is
    after the character [c] that precedes the backslash. The second digit is
    read when [cur_ptr] is {e before} the start of the line. *)
Definition escape_backward line (c i : Z) : result Z :=
  if ISOCTAL c then
    if 0 <=? i then
      d ← line_get line i;
      if ISOCTAL d then
        if i - 1 <? 0 then
          e ← line_get line (i - 1);
          Ok (if ISOCTAL e then i - 2 else i - 1)
        else Ok (i - 1)
      else Ok i
    else Ok i
  else if c =? 120 then
    if 0 <=? i then
      h ← line_get line i;
      if isxdigit h then
        if i - 1 <? 0 then
          h' ← line_get line (i - 1);
          Ok (if isxdigit h' then i - 2 else i - 1)
        else Ok (i - 1)
      else Ok i
    else Ok i
  else Ok i.

Record backward_t := { bw_ptrs : arr Z; bw_many : Z; bw_id : Z; bw_end : Z }.

Fixpoint backward_loop (fuel : nat) o line (i : Z) (ptrs : arr Z) (how_many id : Z)
    : result backward_t :=
  match fuel with
  | O => Fail OutOfFuel
  | S fuel' =>
      let stop ptrs how_many id :=
        Ok {| bw_ptrs := ptrs; bw_many := how_many; bw_id := id; bw_end := i |} in
      if i <? 0 then stop ptrs how_many id
      else
        c ← line_get line i;
        '(ptrs1, many1, id1, done) ←
          (if c =? delimc o then
             p ← arr_set ptrs id (u16 (i + 1));
             Ok (p, how_many - 1, (if how_many - 1 =? 0 then id else id - 1), how_many - 1 =? 0)
           else Ok (ptrs, how_many, id, false));
        if (done : bool) then stop ptrs1 many1 id1
        else if c =? ch_backslash then
          if i - 1 <? 0 then stop ptrs1 many1 id1
          else c1 ← line_get line (i - 1);
               i' ← escape_backward line c1 (i - 2);
               backward_loop fuel' o line i' ptrs1 many1 id1
        else backward_loop fuel' o line (i - 1) ptrs1 many1 id1
  end.

Definition parseLineBackward o line (ptrs : arr Z) (cur how_many attributeID : Z)
    : result (arr Z * Z) :=
  b ← backward_loop (Z.to_nat (cur + 2)) o line cur ptrs how_many attributeID;
  ptrs' ← (if 0 <? bw_many b then arr_set (bw_ptrs b) (bw_id b) 0 else Ok (bw_ptrs b));
  let input_len := cur - bw_end b in
  if input_len =? Z.of_nat (length (null_print o)) then
    (* strncmp from end_ptr, which may be the byte before the line *)
    if (bw_end b <? 0) && (0 <? input_len) then Fail OutOfBounds
    else Ok (ptrs', if bool_decide (take (Z.to_nat input_len) (drop (Z.to_nat (bw_end b)) line)
                                    = null_print o)
                    then 0 else input_len)
  else Ok (ptrs', input_len).

Record NoDBReadViaPM_t := { via_col : Z; via_forward : Z; via_backward : Z }.

(** [attributes[j].width = attributes[j + 1].pointer - attributes[j].pointer - 1] *)
Definition set_width (ptrs ws : arr Z) (j : Z) : result (arr Z) :=
  next ← arr_get ptrs (j + 1);
  this ← arr_get ptrs j;
  arr_set ws j (u16 (next - this - 1)).

Definition via_pm_forward o line (att : attributes_t) (which how_many : Z) : result attributes_t :=
  p ← arr_get (at_pointer att) which;
  w ← arr_get (at_width att) which;
  let start := p + w in
  ptrs ← arr_set (at_pointer att) (which + 1) (u16 (start + 1));
  '(ptrs', _) ← parseLineForward o line ptrs (start + 1) how_many (which + 1);
  ws ← for_range (which + 1) (which + how_many + 1) (fun j ws => set_width ptrs' ws j) (at_width att);
  Ok {| at_pointer := ptrs'; at_width := ws |}.

(** The width loop runs downwards from [which - 1] to [which + how_many]. *)
Definition via_pm_backward o line (att : attributes_t) (which how_many : Z) : result attributes_t :=
  p ← arr_get (at_pointer att) which;
  let end_ := p - 1 in
  '(ptrs, _) ← parseLineBackward o line (at_pointer att) (end_ - 1) (Z.abs how_many) (which - 1);
  ws ← for_range 0 (- how_many) (fun k ws => set_width ptrs ws (which - 1 - k)) (at_width att);
  Ok {| at_pointer := ptrs; at_width := ws |}.

Definition NoDBGetNextTupleViaPM o line (att : attributes_t) (via : NoDBReadViaPM_t)
    : result attributes_t :=
  att1 ← (if 0 <? via_forward via then via_pm_forward o line att (via_col via) (via_forward via)
          else Ok att);
  if via_backward via <? 0 then via_pm_backward o line att1 (via_col via) (via_backward via)
  else Ok att1.

(** ** Converting fields to values *)

(** The bytes of the C string that starts at an offset of a buffer. *)
Fixpoint c_string_of (bs : list Z) : list Z :=
  match bs with
  | [] => []
  | b :: bs' => if b =? 0 then [] else b :: c_string_of bs'
  end.
Definition c_string (buf : list Z) (off : Z) : list Z := c_string_of (drop (Z.to_nat off) buf).

Section values.
(** The input function of a column's type, called through [fcinfo]. *)
Context (input_function : Z -> list Z -> result Z).

Definition NoDBGetValues (st : fields_t) (values nulls : arr Z) (cols : NoDBColVector_t)
    : result (arr Z * arr Z) :=
  for_range 0 (NoDBColVectorSize cols) (fun j '(values, nulls) =>
    i ← NoDBColVectorGet cols j;
    s ← arr_get (fieldvals st) i;
    match s with
    | None =>
        values' ← arr_set values i 0; nulls' ← arr_set nulls i 1; Ok (values', nulls')
    | Some off =>
        d ← input_function i (c_string (attribute_buf st) off);
        values' ← arr_set values i d; nulls' ← arr_set nulls i 0; Ok (values', nulls')
    end) (values, nulls).

Definition slash_N : list Z := [92; 78].

(** [line] is the block of [line_buf] with its terminator;
    [string[bytesToRead] = '\0'] writes into it. *)
Definition NoDBGetValuesWithPM line (att : attributes_t) (values nulls : arr Z)
    (cols : NoDBColVector_t) : result (list Z * arr Z * arr Z) :=
  for_range 0 (NoDBColVectorSize cols) (fun j '(line, values, nulls) =>
    i ← NoDBColVectorGet cols j;
    pointer ← arr_get (at_pointer att) i;
    bytesToRead ← arr_get (at_width att) i;
    _ ← c_assert (0 <? bytesToRead);
    if Z.of_nat (length line) <? pointer + bytesToRead + 1 then Fail OutOfBounds
    else
      let line' := <[Z.to_nat (pointer + bytesToRead) := 0]> line in
      let string := c_string line' pointer in
      if bool_decide (string = slash_N) then
        values' ← arr_set values i 0; nulls' ← arr_set nulls i 1; Ok (line', values', nulls')
      else
        d ← input_function i string;
        values' ← arr_set values i d; nulls' ← arr_set nulls i 0; Ok (line', values', nulls'))
    (line, values, nulls).
End values.

(** ** Positions of plain lines

    A line whose fields hold neither the delimiter nor a backslash. *)
Definition plain o (r : list Z) : Prop := delimc o ∉ r /\ ch_backslash ∉ r.

Lemma forward_skip o r rest : plain o r -> forall fuel pos ptrs h id start,
  forward_loop (length r + fuel) o (r ++ rest) pos ptrs h id start =
  forward_loop fuel o rest (pos + Z.of_nat (length r)) ptrs h id start.
Proof.
  intros [Hd Hb]. induction r as [|c r IH]; intros fuel pos ptrs h id start.
  - cbn [length Nat.add app]. by rewrite Z.add_0_r.
  - apply not_elem_of_cons in Hd as [Hdc Hd], Hb as [Hbc Hb].
    cbn [length Nat.add app forward_loop].
    rewrite (proj2 (Z.eqb_neq c (delimc o))), (proj2 (Z.eqb_neq c ch_backslash)) by done.
    cbn [mbind result_bind]. rewrite IH by done. f_equal. lia.
Qed.

(** Pointers [id + 1 .. id + h] are set to the starts of the following fields. *)
Definition ptrs_set (ptrs ptrs' : arr Z) (id pos : Z) (raws : list (list Z)) (h : nat) : Prop :=
  length ptrs' = length ptrs /\
  (forall j, (1 <= j <= h)%nat -> arr_get ptrs' (id + Z.of_nat j) = Ok (u16 (pos + fstart raws j))) /\
  (forall i, i <= id \/ id + Z.of_nat h < i -> arr_get ptrs' i = arr_get ptrs i).

Definition forward_finish (len : Z) (f : forward_t) : result (arr Z) :=
  if 0 <? fw_many f then arr_set (fw_ptrs f) (fw_id f + 1) (u16 (len + 1)) else Ok (fw_ptrs f).

Lemma ptrs_set_one ptrs ptrs' id pos r raws :
  arr_set ptrs (id + 1) (u16 (pos + Z.of_nat (length r) + 1)) = Ok ptrs' ->
  ptrs_set ptrs ptrs' id pos (r :: raws) 1.
Proof.
  intros E. split_and!.
  - apply arr_set_inv in E as [_ ->]. apply length_insert.
  - intros j Hj. assert (j = 1%nat) as -> by lia. change (Z.of_nat 1) with 1. rewrite (arr_get_set_eq _ _ _ _ E).
    do 2 f_equal. cbn [fstart]. destruct raws; simpl; lia.
  - intros i Hi. apply (arr_get_set_ne _ _ _ i _ E). lia.
Qed.

Lemma ptrs_set_cons ptrs ptrs1 ptrs2 id pos r raws h :
  ptrs_set ptrs ptrs1 id pos (r :: raws) 1 ->
  ptrs_set ptrs1 ptrs2 (id + 1) (pos + Z.of_nat (length r) + 1) raws h ->
  ptrs_set ptrs ptrs2 id pos (r :: raws) (S h).
Proof.
  intros (L1 & A1 & B1) (L2 & A2 & B2). split_and!; [congruence| |].
  - intros j Hj. destruct (decide (j = 1%nat)) as [->|].
    + rewrite B2 by lia. apply A1. lia.
    + replace (id + Z.of_nat j) with (id + 1 + Z.of_nat (j - 1)) by lia. rewrite A2 by lia.
      do 2 f_equal. destruct j as [|j]; [lia|]. cbn [fstart]. replace (S j - 1)%nat with j by lia. lia.
  - intros i Hi. rewrite B2 by lia. apply B1. lia.
Qed.

Lemma forward_loop_spec o len : delimc o <> ch_backslash -> forall raws h fuel pos ptrs id start,
  raws <> [] -> Forall (plain o) raws -> (1 <= h <= length raws)%nat ->
  (length (join (delimc o) raws) < fuel)%nat -> pos + Z.of_nat (length (join (delimc o) raws)) = len ->
  0 <= id -> id + Z.of_nat h < Z.of_nat (length ptrs) ->
  exists f ptrs', forward_loop fuel o (join (delimc o) raws) pos ptrs (Z.of_nat h) id start = Ok f /\
    forward_finish len f = Ok ptrs' /\ ptrs_set ptrs ptrs' id pos raws h.
Proof.
  intros Hdb. induction raws as [|r raws IH]; intros h fuel pos ptrs id start Hne Hok Hh Hf Hlen Hid Hp; [done|].
  inversion_clear Hok as [|? ? Hr Hraws]. destruct (decide (raws = [])) as [->|Hne'].
  - cbn [join] in *. replace fuel with (length r + (fuel - length r))%nat by lia.
    pose proof (forward_skip o r [] Hr) as Hskip. rewrite app_nil_r in Hskip. rewrite Hskip.
    destruct (fuel - length r)%nat as [|fuel'] eqn:Ef; [lia|]. cbn [forward_loop].
    assert (h = 1%nat) as -> by (simpl in Hh; lia).
    unfold forward_finish. eexists. cbn [fw_many fw_ptrs fw_id].
    destruct (arr_set ptrs (id + 1) (u16 (len + 1))) as [ptrs'|] eqn:Es;
      [|rewrite arr_set_Ok in Es by lia; done].
    exists ptrs'. split_and!; [done|done|]. apply ptrs_set_one. rewrite <- Es. do 2 f_equal. lia.
  - rewrite join_cons in * by done. rewrite length_app in *. cbn [length] in *.
    replace fuel with (length r + (fuel - length r))%nat by lia. rewrite (forward_skip o r _ Hr).
    destruct (fuel - length r)%nat as [|fuel'] eqn:Ef; [lia|]. cbn [forward_loop]. rewrite Z.eqb_refl.
    destruct (arr_set ptrs (id + 1) (u16 (pos + Z.of_nat (length r) + 1))) as [ptrs1|] eqn:Es;
      [|rewrite arr_set_Ok in Es by lia; done]. cbn [mbind result_bind].
    pose proof (ptrs_set_one _ _ _ _ r raws Es) as H1. pose proof H1 as (L1 & _).
    destruct (Z.eqb_spec (Z.of_nat h - 1) 0) as [Eh|Eh].
    + assert (h = 1%nat) as -> by lia. eexists _, ptrs1. split; [done|]. by unfold forward_finish.
    + rewrite (proj2 (Z.eqb_neq _ _)) by done.
      replace (Z.of_nat h - 1) with (Z.of_nat (h - 1)) by lia.
      destruct (IH (h - 1)%nat fuel' (pos + Z.of_nat (length r) + 1) ptrs1 (id + 1)
        (pos + Z.of_nat (length r) + 1)) as (f & ptrs' & E & Efin & H2); [done|done|lia|lia|lia|lia|lia|].
      exists f, ptrs'. split_and!; [done|done|].
      replace h with (S (h - 1)) by lia. by eapply ptrs_set_cons.
Qed.

Lemma join_drop d raws k : (k < length raws)%nat ->
  drop (Z.to_nat (fstart raws k)) (join d raws) = join d (drop k raws).
Proof.
  revert raws. induction k as [|k IH]; intros [|r raws] Hk; simpl in Hk; try lia; [done|].
  rewrite join_cons by (intros ->; simpl in Hk; lia). cbn [fstart drop].
  replace (Z.to_nat (Z.of_nat (length r) + 1 + fstart raws k))
    with (length r + S (Z.to_nat (fstart raws k)))%nat by (pose proof (fstart_nonneg raws k); lia).
  rewrite <- drop_drop, drop_app_length. cbn [drop]. apply IH. lia.
Qed.

Lemma fstart_drop raws k j : (k + j <= length raws)%nat ->
  fstart raws k + fstart (drop k raws) j = fstart raws (k + j).
Proof.
  revert raws. induction k as [|k IH]; intros raws Hk.
  - cbn [drop Nat.add]. change (fstart raws 0) with 0. apply Z.add_0_l.
  - destruct raws as [|r raws]; simpl in Hk; [lia|].
    cbn [fstart drop Nat.add]. rewrite <- IH by lia. lia.
Qed.

(** [parseLineForward] from the start of field [k] finds the starts of the next
    [h] fields. *)
Lemma parseLineForward_spec o raws ptrs k h :
  delimc o <> ch_backslash -> Forall (plain o) raws -> (1 <= h)%nat -> (k + h <= length raws)%nat ->
  Z.of_nat (k + h) < Z.of_nat (length ptrs) ->
  exists ptrs' n, parseLineForward o (join (delimc o) raws) ptrs (fstart raws k) (Z.of_nat h) (Z.of_nat k)
      = Ok (ptrs', n) /\
    length ptrs' = length ptrs /\
    (forall j, (k < j <= k + h)%nat -> arr_get ptrs' (Z.of_nat j) = Ok (u16 (fstart raws j))) /\
    (forall i, i <= Z.of_nat k \/ Z.of_nat (k + h) < i -> arr_get ptrs' i = arr_get ptrs i).
Proof.
  intros Hdb Hok Hh Hk Hp. unfold parseLineForward. rewrite join_drop by lia.
  assert (raws <> []) as Hne by (intros ->; simpl in Hk; lia).
  assert (drop k raws <> []) as Hne' by (intros E; apply (f_equal length) in E; rewrite length_drop in E; simpl in E; lia).
  destruct (forward_loop_spec o (Z.of_nat (length (join (delimc o) raws))) Hdb (drop k raws) h
    (S (length (join (delimc o) (drop k raws)))) (fstart raws k) ptrs (Z.of_nat k) (fstart raws k))
    as (f & ptrs' & E & Efin & L & A & B); [done|by apply Forall_drop|rewrite length_drop; lia|lia| |lia|lia|].
  { rewrite !length_join by done. rewrite length_drop. pose proof (fstart_drop raws k (length raws - k)) as Hd.
    replace (k + (length raws - k))%nat with (length raws) in Hd by lia. rewrite <- Hd by lia. lia. }
  rewrite E. cbn [mbind result_bind]. unfold forward_finish in Efin. rewrite Efin. cbn [mbind result_bind].
  eexists ptrs', _. split; [done|]. split_and!; [done| |intros i Hi; apply B; lia].
  intros j Hj. replace (Z.of_nat j) with (Z.of_nat k + Z.of_nat (j - k)) by lia. rewrite A by lia.
  rewrite fstart_drop by lia. by replace (k + (j - k))%nat with j by lia.
Qed.

(** ** Backwards *)
Lemma line_get_field d raws k r j c :
  raws !! k = Some r -> r !! j = Some c ->
  line_get (join d raws) (fstart raws k + Z.of_nat j) = Ok c.
Proof.
  intros Hr Hj. pose proof (join_slice d raws k r Hr) as Hs. pose proof (fstart_nonneg raws k) as Hn.
  unfold line_get. destruct (Z.ltb_spec (fstart raws k + Z.of_nat j) 0); [lia|].
  assert (join d raws !! Z.to_nat (fstart raws k + Z.of_nat j) = Some c) as ->; [|done].
  replace (Z.to_nat (fstart raws k + Z.of_nat j)) with (Z.to_nat (fstart raws k) + j)%nat by lia.
  rewrite <- lookup_drop, <- (lookup_take_lt _ (length r)) by (by eapply lookup_lt_Some). by rewrite Hs.
Qed.

Lemma line_get_delim d raws k : (S k < length raws)%nat ->
  line_get (join d raws) (fstart raws (S k) - 1) = Ok d.
Proof.
  intros Hk. destruct (fstart_mono raws k) as (r & Hr & E); [lia|].
  pose proof (fstart_nonneg raws k) as Hn. unfold line_get.
  destruct (Z.ltb_spec (fstart raws (S k) - 1) 0); [lia|]. rewrite E.
  assert (join d raws !! Z.to_nat (fstart raws k + Z.of_nat (length r) + 1 - 1) = Some d) as ->; [|done].
  replace (Z.to_nat (fstart raws k + Z.of_nat (length r) + 1 - 1))
    with (Z.to_nat (fstart raws k) + length r)%nat by lia.
  rewrite <- lookup_drop, join_drop by lia. rewrite (drop_S _ _ _ Hr).
  rewrite join_cons by (intros En; apply (f_equal length) in En; rewrite length_drop in En; simpl in En; lia).
  by rewrite list_lookup_middle.
Qed.

Lemma backward_skip o line n : forall fuel i ptrs h id,
  (forall j, i - Z.of_nat n < j <= i -> 0 <= j /\ exists c, line_get line j = Ok c /\
     c <> delimc o /\ c <> ch_backslash) ->
  backward_loop (n + fuel) o line i ptrs h id = backward_loop fuel o line (i - Z.of_nat n) ptrs h id.
Proof.
  induction n as [|n IH]; intros fuel i ptrs h id Hc.
  - cbn [Nat.add]. f_equal. lia.
  - cbn [Nat.add backward_loop]. destruct (Hc i) as (H0 & c & -> & Hd & Hb); [lia|].
    destruct (Z.ltb_spec i 0); [lia|]. cbn [mbind result_bind].
    rewrite (proj2 (Z.eqb_neq c (delimc o))), (proj2 (Z.eqb_neq c ch_backslash)) by done.
    cbn [mbind result_bind]. rewrite IH by (intros j Hj; apply Hc; lia). f_equal. lia.
Qed.

(** From the end of field [k] the bytes of the field are skipped. *)
Lemma backward_field o raws k r fuel ptrs h id :
  raws !! k = Some r -> plain o r ->
  backward_loop (length r + fuel) o (join (delimc o) raws) (fstart raws (S k) - 2) ptrs h id =
  backward_loop fuel o (join (delimc o) raws) (fstart raws k - 1) ptrs h id.
Proof.
  intros Hr [Hd Hb]. destruct (fstart_mono raws k) as (r' & Hr' & E); [by eapply lookup_lt_Some|].
  assert (r' = r) as -> by congruence. pose proof (fstart_nonneg raws k) as Hn.
  rewrite backward_skip.
  - f_equal. lia.
  - intros j Hj. split; [lia|]. destruct (lookup_lt_is_Some_2 r (Z.to_nat (j - fstart raws k))) as [c Hc]; [lia|].
    exists c. split.
    + rewrite <- (line_get_field (delimc o) raws k r _ c Hr Hc). f_equal. lia.
    + apply list_elem_of_lookup_2 in Hc. split; congruence.
Qed.

Definition backward_finish (b : backward_t) : result (arr Z) :=
  if 0 <? bw_many b then arr_set (bw_ptrs b) (bw_id b) 0 else Ok (bw_ptrs b).

(** Pointers [k - h .. k - 1] are set to the starts of their fields. *)
Definition ptrs_set_back (ptrs ptrs' : arr Z) (raws : list (list Z)) (k h : nat) : Prop :=
  length ptrs' = length ptrs /\
  (forall j, (k - h <= j < k)%nat -> arr_get ptrs' (Z.of_nat j) = Ok (u16 (fstart raws j))) /\
  (forall i, i < Z.of_nat (k - h) \/ Z.of_nat k <= i -> arr_get ptrs' i = arr_get ptrs i).

Lemma ptrs_set_back_one ptrs ptrs' raws k :
  arr_set ptrs (Z.of_nat k) (u16 (fstart raws k)) = Ok ptrs' -> ptrs_set_back ptrs ptrs' raws (S k) 1.
Proof.
  intros E. split_and!.
  - apply arr_set_inv in E as [_ ->]. apply length_insert.
  - intros j Hj. assert (j = k) as -> by lia. by eapply arr_get_set_eq.
  - intros i Hi. apply (arr_get_set_ne _ _ _ i _ E). lia.
Qed.

Lemma ptrs_set_back_cons ptrs ptrs1 ptrs2 raws k h :
  (h <= k)%nat -> ptrs_set_back ptrs ptrs1 raws (S k) 1 -> ptrs_set_back ptrs1 ptrs2 raws k h ->
  ptrs_set_back ptrs ptrs2 raws (S k) (S h).
Proof.
  intros Hh (L1 & A1 & B1) (L2 & A2 & B2). split_and!; [congruence| |].
  - intros j Hj. destruct (decide (j = k)) as [->|]; [rewrite B2 by lia; apply A1; lia|].
    apply A2. lia.
  - intros i Hi. rewrite B2 by lia. apply B1. lia.
Qed.

Lemma backward_loop_spec o raws : delimc o <> ch_backslash -> Forall (plain o) raws ->
  forall k h fuel ptrs,
  (1 <= h <= S k)%nat -> (S k < length raws)%nat -> Z.of_nat (length raws) <= Z.of_nat (length ptrs) ->
  fstart raws (S k) <= Z.of_nat fuel ->
  exists b ptrs', backward_loop fuel o (join (delimc o) raws) (fstart raws (S k) - 2) ptrs
      (Z.of_nat h) (Z.of_nat k) = Ok b /\
    backward_finish b = Ok ptrs' /\ ptrs_set_back ptrs ptrs' raws (S k) h.
Proof.
  intros Hdb Hok. induction k as [|k IH]; intros h fuel ptrs Hh Hk Hl Hf.
  - destruct (fstart_mono raws 0) as (r & Hr & E); [lia|]. rewrite E in Hf.
    assert (plain o r) as Hp by (by eapply Forall_lookup_1).
    change (fstart raws 0) with 0 in *. assert (h = 1%nat) as -> by lia.
    replace fuel with (length r + (fuel - length r))%nat by lia.
    rewrite (backward_field o raws 0 r) by done. change (fstart raws 0) with 0.
    destruct (fuel - length r)%nat as [|fuel'] eqn:Ef; [lia|]. cbn [backward_loop]. simpl (0 - 1 <? 0).
    destruct (arr_set ptrs 0 0) as [ptrs'|] eqn:Es; [|rewrite arr_set_Ok in Es by lia; done].
    eexists _, ptrs'. split; [done|]. split; [exact Es|]. apply ptrs_set_back_one.
    change (fstart raws 0) with 0. unfold u16. by rewrite wrap_small.
  - destruct (fstart_mono raws (S k)) as (r & Hr & E); [lia|]. rewrite E in Hf.
    assert (plain o r) as Hp by (by eapply Forall_lookup_1).
    pose proof (fstart_nonneg raws (S k)) as Hn0.
    replace fuel with (length r + (fuel - length r))%nat by lia.
    rewrite (backward_field o raws (S k) r) by done. pose proof (fstart_nonneg raws k) as Hn.
    destruct (fstart_mono raws k) as (r0 & Hr0 & E0); [lia|].
    destruct (fuel - length r)%nat as [|fuel'] eqn:Ef; [lia|]. cbn [backward_loop].
    destruct (Z.ltb_spec (fstart raws (S k) - 1) 0); [lia|].
    rewrite line_get_delim by lia. cbn [mbind result_bind]. rewrite Z.eqb_refl.
    replace (fstart raws (S k) - 1 + 1) with (fstart raws (S k)) by lia.
    destruct (arr_set ptrs (Z.of_nat (S k)) (u16 (fstart raws (S k)))) as [ptrs1|] eqn:Es;
      [|rewrite arr_set_Ok in Es by lia; done]. cbn [mbind result_bind].
    pose proof (ptrs_set_back_one _ _ _ _ Es) as H1. pose proof H1 as (L1 & _).
    destruct (Z.eqb_spec (Z.of_nat h - 1) 0) as [Eh|Eh].
    + assert (h = 1%nat) as -> by lia. eexists _, ptrs1. split; [done|]. by unfold backward_finish.
    + rewrite (proj2 (Z.eqb_neq (delimc o) _)) by done.
      replace (Z.of_nat h - 1) with (Z.of_nat (h - 1)) by lia.
      replace (Z.of_nat (S k) - 1) with (Z.of_nat k) by lia.
      replace (fstart raws (S k) - 1 - 1) with (fstart raws (S k) - 2) by lia.
      destruct (IH (h - 1)%nat fuel' ptrs1) as (b & ptrs' & E1 & Efin & H2); [lia|lia|lia|lia|].
      exists b, ptrs'. split_and!; [done|done|]. replace h with (S (h - 1)) by lia.
      eapply ptrs_set_back_cons; [lia|done..].
Qed.

Lemma parseLineBackward_spec o raws ptrs k h :
  delimc o <> ch_backslash -> null_print o = [] -> Forall (plain o) raws ->
  (1 <= h <= k)%nat -> (k < length raws)%nat -> Z.of_nat (length raws) <= Z.of_nat (length ptrs) ->
  exists ptrs' n, parseLineBackward o (join (delimc o) raws) ptrs (fstart raws k - 2) (Z.of_nat h)
      (Z.of_nat k - 1) = Ok (ptrs', n) /\ ptrs_set_back ptrs ptrs' raws k h.
Proof.
  intros Hdb Hnull Hok Hh Hk Hl. destruct k as [|k]; [lia|]. unfold parseLineBackward.
  replace (Z.of_nat (S k) - 1) with (Z.of_nat k) by lia.
  destruct (backward_loop_spec o raws Hdb Hok k h (Z.to_nat (fstart raws (S k) - 2 + 2)) ptrs)
    as (b & ptrs' & E & Efin & H); [lia|lia|lia|lia|].
  rewrite E. cbn [mbind result_bind]. unfold backward_finish in Efin. rewrite Efin. cbn [mbind result_bind].
  rewrite Hnull. change (Z.of_nat (length [])) with 0. destruct (Z.eqb_spec (fstart raws (S k) - 2 - bw_end b) 0) as [->|].
  - rewrite andb_false_r. do 2 eexists. split; [reflexivity|exact H].
  - do 2 eexists. split; [reflexivity|exact H].
Qed.

(** The widths follow from the pointers. *)
Lemma set_width_spec raws ptrs ws j :
  (j < length raws)%nat -> Z.of_nat j < Z.of_nat (length ws) ->
  arr_get ptrs (Z.of_nat j) = Ok (u16 (fstart raws j)) ->
  arr_get ptrs (Z.of_nat (S j)) = Ok (u16 (fstart raws (S j))) ->
  exists r ws', raws !! j = Some r /\ set_width ptrs ws (Z.of_nat j) = Ok ws' /\
    arr_set ws (Z.of_nat j) (u16 (Z.of_nat (length r))) = Ok ws'.
Proof.
  intros Hj Hl H1 H2. destruct (fstart_mono raws j Hj) as (r & Hr & E). exists r.
  unfold set_width. replace (Z.of_nat j + 1) with (Z.of_nat (S j)) by lia. rewrite H2. cbn [mbind result_bind].
  rewrite H1. cbn [mbind result_bind]. rewrite E, u16_width.
  rewrite arr_set_Ok by lia. eauto.
Qed.

(** The fields that [att] knows: pointer and width of each column of a set. *)
Definition known (raws : list (list Z)) (att : attributes_t) (lo hi : nat) : Prop :=
  forall j r, (lo <= j <= hi)%nat -> raws !! j = Some r ->
    arr_get (at_pointer att) (Z.of_nat j) = Ok (u16 (fstart raws j)) /\
    arr_get (at_width att) (Z.of_nat j) = Ok (u16 (Z.of_nat (length r))).

Definition att_sizes (raws : list (list Z)) (att : attributes_t) : Prop :=
  Z.of_nat (length raws) < Z.of_nat (length (at_pointer att)) /\
  Z.of_nat (length raws) <= Z.of_nat (length (at_width att)).

(** Every position that is not as before is right. *)
Record improves (raws : list (list Z)) (att att' : attributes_t) : Prop := {
  im_plen : length (at_pointer att') = length (at_pointer att);
  im_wlen : length (at_width att') = length (at_width att);
  im_pointer : forall j : Z, arr_get (at_pointer att') j = arr_get (at_pointer att) j \/
    exists k : nat, j = Z.of_nat k /\ arr_get (at_pointer att') j = Ok (u16 (fstart raws k));
  im_width : forall j : Z, arr_get (at_width att') j = arr_get (at_width att) j \/
    exists (k : nat) r, j = Z.of_nat k /\ raws !! k = Some r /\ arr_get (at_width att') j = Ok (u16 (Z.of_nat (length r))) }.

Lemma improves_refl raws att : improves raws att att.
Proof. split; try done; by left. Qed.

Lemma improves_trans raws att1 att2 att3 : improves raws att1 att2 -> improves raws att2 att3 -> improves raws att1 att3.
Proof.
  intros [A1 A2 A3 A4] [B1 B2 B3 B4]. split; [congruence|congruence| |].
  - intros j. destruct (B3 j) as [->|?]; [apply A3|by right].
  - intros j. destruct (B4 j) as [->|?]; [apply A4|by right].
Qed.

Lemma improves_known raws att att' lo hi : improves raws att att' -> known raws att lo hi -> known raws att' lo hi.
Proof.
  intros [_ _ Hp Hw] Hk j r Hj Hr. destruct (Hk j r Hj Hr) as [K1 K2]. split.
  - destruct (Hp (Z.of_nat j)) as [->|(k & ->%Nat2Z.inj & ->)]; done.
  - destruct (Hw (Z.of_nat j)) as [->|(k & r' & <-%Nat2Z.inj & Hr' & ->)]; [done|]. by simplify_eq.
Qed.

Lemma improves_sizes raws att att' : improves raws att att' -> att_sizes raws att -> att_sizes raws att'.
Proof. intros [E1 E2 _ _] [S1 S2]. split; lia. Qed.

(** Filling the widths of a range of fields whose pointers are known, in any
    order. *)
Lemma set_widths_spec raws ptrs ws (idx : Z -> nat) lo hi :
  lo <= hi -> Z.of_nat (length raws) <= Z.of_nat (length ws) ->
  (forall i, lo <= i < hi -> (idx i < length raws)%nat /\
     arr_get ptrs (Z.of_nat (idx i)) = Ok (u16 (fstart raws (idx i))) /\
     arr_get ptrs (Z.of_nat (S (idx i))) = Ok (u16 (fstart raws (S (idx i))))) ->
  (forall i j, lo <= i < hi -> lo <= j < hi -> idx i = idx j -> i = j) ->
  exists ws', for_range lo hi (fun i ws => set_width ptrs ws (Z.of_nat (idx i))) ws = Ok ws' /\
    length ws' = length ws /\
    (forall i r, lo <= i < hi -> raws !! idx i = Some r ->
       arr_get ws' (Z.of_nat (idx i)) = Ok (u16 (Z.of_nat (length r)))) /\
    (forall j, (forall i, lo <= i < hi -> j <> Z.of_nat (idx i)) -> arr_get ws' j = arr_get ws j).
Proof.
  intros Hle Hlen Hp Hinj.
  pose (I := fun i ws' => length ws' = length ws /\
    (forall k r, lo <= k < i -> raws !! idx k = Some r ->
       arr_get ws' (Z.of_nat (idx k)) = Ok (u16 (Z.of_nat (length r)))) /\
    (forall j, (forall k, lo <= k < i -> j <> Z.of_nat (idx k)) -> arr_get ws' j = arr_get ws j)).
  destruct (for_range_inv I lo hi (fun i ws => set_width ptrs ws (Z.of_nat (idx i))) ws)
    as (ws' & E & H); [done|split_and!; [done|lia|done]| |by exists ws'].
  intros i w Hi (L & A & B). destruct (Hp i Hi) as (H1 & H2 & H3).
  destruct (set_width_spec raws ptrs w (idx i) H1) as (r & w' & Hr & E & Es); [lia|done|done|].
  exists w'. split; [done|]. split_and!.
  - apply arr_set_inv in Es as [_ ->]. rewrite length_insert. done.
  - intros k r' Hk Hr'. destruct (decide (k = i)) as [->|Hne].
    + rewrite (arr_get_set_eq _ _ _ _ Es). by simplify_eq.
    + rewrite (arr_get_set_ne _ _ _ _ _ Es); [apply A; [lia|done]|].
      intros Ej%Nat2Z.inj. apply Hne. symmetry. apply Hinj; [lia|lia|done].
  - intros j Hj. rewrite (arr_get_set_ne _ _ _ _ _ Es) by (intros Ej; apply (Hj i); [lia|done]).
    apply B. intros k Hk. apply Hj. lia.
Qed.

Lemma via_pm_forward_spec o raws att which how_many r :
  delimc o <> ch_backslash -> Forall (plain o) raws -> att_sizes raws att ->
  fstart raws (length raws) < 2 ^ 16 -> raws !! which = Some r -> known raws att which which ->
  (1 <= how_many)%nat -> (S which + how_many <= length raws)%nat ->
  exists att', via_pm_forward o (join (delimc o) raws) att (Z.of_nat which) (Z.of_nat how_many) = Ok att' /\
    known raws att' which (which + how_many) /\ improves raws att att'.
Proof.
  intros Hdb Hok [S1 S2] Hlt Hr Hkn Hh Hk. unfold via_pm_forward.
  destruct (Hkn which r) as [Hp Hw]; [lia|done|]. rewrite Hp, Hw. cbn [mbind result_bind].
  destruct (fstart_mono raws which) as (r' & Hr' & E); [lia|]. assert (r' = r) as -> by congruence. clear Hr'.
  pose proof (fstart_nonneg raws which) as Hn.
  pose proof (fstart_drop raws (S which) (length raws - S which)) as Hd.
  replace (S which + (length raws - S which))%nat with (length raws) in Hd by lia.
  pose proof (fstart_nonneg (drop (S which) raws) (length raws - S which)).
  assert (u16 (fstart raws which) + u16 (Z.of_nat (length r)) + 1 = fstart raws (S which)) as Estart
    by (unfold u16; rewrite !wrap_small; lia).
  rewrite Estart.
  destruct (arr_set (at_pointer att) (Z.of_nat which + 1) (u16 (fstart raws (S which)))) as [ptrs|] eqn:Es;
    [|rewrite arr_set_Ok in Es by lia; done]. cbn [mbind result_bind].
  assert (length ptrs = length (at_pointer att)) as Lp by (apply arr_set_inv in Es as [_ ->]; apply length_insert).
  replace (Z.of_nat which + 1) with (Z.of_nat (S which)) in * by lia.
  destruct (parseLineForward_spec o raws ptrs (S which) how_many) as (ptrs' & n & -> & L & A & B); [done..|lia|].
  cbn [mbind result_bind].
  assert (Hptr : forall j, (which <= j <= S which + how_many)%nat ->
    arr_get ptrs' (Z.of_nat j) = Ok (u16 (fstart raws j))).
  { intros j Hj. destruct (decide (j <= S which)%nat); [|apply A; lia]. rewrite B by lia.
    destruct (decide (j = S which)) as [->|]; [by eapply arr_get_set_eq|].
    assert (j = which) as -> by lia. rewrite (arr_get_set_ne _ _ _ _ _ Es) by lia. done. }
  destruct (set_widths_spec raws ptrs' (at_width att) Z.to_nat (Z.of_nat (S which))
    (Z.of_nat which + Z.of_nat how_many + 1)) as (ws & Ew & Lw & Aw & Bw); [lia|lia| |intros; lia|].
  { intros i Hi. split_and!; [lia|apply Hptr; lia|apply Hptr; lia]. }
  rewrite for_range_ext_in with (g := fun j ws => set_width ptrs' ws (Z.of_nat (Z.to_nat j)))
    by (intros i s Hi; by rewrite Z2Nat.id by lia).
  rewrite Ew. cbn [mbind result_bind]. eexists. split; [done|]. split.
  - intros j rj Hj Hrj. cbn [at_pointer at_width]. split; [apply Hptr; lia|].
    destruct (decide (j = which)) as [->|].
    + rewrite Bw by (intros i Hi; lia). by simplify_eq.
    + specialize (Aw (Z.of_nat j) rj). rewrite Nat2Z.id in Aw. apply Aw; [lia|done].
  - split; cbn [at_pointer at_width]; [congruence|done| |].
    + intros j. destruct (decide (Z.of_nat which <= j <= Z.of_nat (S which + how_many))).
      * right. exists (Z.to_nat j). split; [lia|]. rewrite <- (Hptr (Z.to_nat j)) by lia. f_equal. lia.
      * left. rewrite B by lia. by rewrite (arr_get_set_ne _ _ _ _ _ Es) by lia.
    + intros j. destruct (decide (Z.of_nat (S which) <= j < Z.of_nat which + Z.of_nat how_many + 1)) as [Hj|Hj].
      * right. destruct (lookup_lt_is_Some_2 raws (Z.to_nat j)) as [rj Hrj]; [lia|].
        exists (Z.to_nat j), rj. split_and!; [lia|done|]. rewrite <- (Aw j rj Hj Hrj). f_equal. lia.
      * left. apply Bw. intros i Hi. lia.
Qed.

Lemma via_pm_backward_spec o raws att which how_many :
  delimc o <> ch_backslash -> null_print o = [] -> Forall (plain o) raws -> att_sizes raws att ->
  fstart raws (length raws) < 2 ^ 16 -> (which < length raws)%nat ->
  arr_get (at_pointer att) (Z.of_nat which) = Ok (u16 (fstart raws which)) ->
  (1 <= how_many <= which)%nat ->
  exists att', via_pm_backward o (join (delimc o) raws) att (Z.of_nat which) (- Z.of_nat how_many) = Ok att' /\
    known raws att' (which - how_many) (which - 1) /\ improves raws att att'.
Proof.
  intros Hdb Hnull Hok [S1 S2] Hlt Hk Hp Hh. unfold via_pm_backward. rewrite Hp. cbn [mbind result_bind].
  pose proof (fstart_nonneg raws which) as Hn.
  pose proof (fstart_drop raws which (length raws - which)) as Hd.
  replace (which + (length raws - which))%nat with (length raws) in Hd by lia.
  pose proof (fstart_nonneg (drop which raws) (length raws - which)).
  assert (u16 (fstart raws which) - 1 - 1 = fstart raws which - 2) as ->
    by (unfold u16; rewrite wrap_small; lia).
  replace (Z.abs (- Z.of_nat how_many)) with (Z.of_nat how_many) by lia.
  destruct (parseLineBackward_spec o raws (at_pointer att) which how_many) as (ptrs & n & -> & L & A & B);
    [done..|lia|]. cbn [mbind result_bind].
  assert (Hptr : forall j, (which - how_many <= j <= which)%nat ->
    arr_get ptrs (Z.of_nat j) = Ok (u16 (fstart raws j))).
  { intros j Hj. destruct (decide (j = which)) as [->|]; [by rewrite B by lia|apply A; lia]. }
  destruct (set_widths_spec raws ptrs (at_width att) (fun i => which - 1 - Z.to_nat i)%nat 0
    (- - Z.of_nat how_many)) as (ws & Ew & Lw & Aw & Bw); [lia|lia| |intros; lia|].
  { intros i Hi. split_and!; [lia|apply Hptr; lia|]. apply Hptr. lia. }
  rewrite for_range_ext_in with (g := fun i ws => set_width ptrs ws (Z.of_nat (which - 1 - Z.to_nat i)))
    by (intros i s Hi; f_equal; lia).
  rewrite Ew. cbn [mbind result_bind]. eexists. split; [done|]. split.
  - intros j rj Hj Hrj. cbn [at_pointer at_width]. split; [apply Hptr; lia|].
    specialize (Aw (Z.of_nat (which - 1 - j)) rj). cbn beta in Aw.
    replace (which - 1 - Z.to_nat (Z.of_nat (which - 1 - j)))%nat with j in Aw by lia. apply Aw; [lia|done].
  - split; cbn [at_pointer at_width]; [congruence|done| |].
    + intros j. destruct (decide (Z.of_nat (which - how_many) <= j <= Z.of_nat which)).
      * right. exists (Z.to_nat j). split; [lia|]. rewrite <- (Hptr (Z.to_nat j)) by lia. f_equal. lia.
      * left. apply B. lia.
    + intros j. destruct (decide (Z.of_nat (which - how_many) <= j < Z.of_nat which)) as [Hj|Hj].
      * right. destruct (lookup_lt_is_Some_2 raws (Z.to_nat j)) as [rj Hrj]; [lia|].
        exists (Z.to_nat j), rj. split_and!; [lia|done|]. specialize (Aw (Z.of_nat which - 1 - j) rj). cbn beta in Aw.
        replace (which - 1 - Z.to_nat (Z.of_nat which - 1 - j))%nat with (Z.to_nat j) in Aw by lia.
        rewrite <- Aw by (lia || done). f_equal. lia.
      * left. apply Bw. intros i Hi. lia.
Qed.

Lemma via_pm_spec o raws att which fwd bwd :
  delimc o <> ch_backslash -> null_print o = [] -> Forall (plain o) raws -> att_sizes raws att ->
  fstart raws (length raws) < 2 ^ 16 -> (which < length raws)%nat -> known raws att which which ->
  (S which + fwd <= length raws)%nat -> (bwd <= which)%nat ->
  exists att', NoDBGetNextTupleViaPM o (join (delimc o) raws) att
      {| via_col := Z.of_nat which; via_forward := Z.of_nat fwd; via_backward := - Z.of_nat bwd |} = Ok att' /\
    known raws att' (which - bwd) (which + fwd) /\ improves raws att att'.
Proof.
  intros Hdb Hnull Hok Hs Hlt Hw Hkn Hf Hb. unfold NoDBGetNextTupleViaPM.
  cbn [via_col via_forward via_backward].
  destruct (lookup_lt_is_Some_2 raws which Hw) as [r Hr].
  assert (exists att1, (if 0 <? Z.of_nat fwd then via_pm_forward o (join (delimc o) raws) att (Z.of_nat which)
      (Z.of_nat fwd) else Ok att) = Ok att1 /\ known raws att1 which (which + fwd) /\ improves raws att att1)
    as (att1 & -> & Hk1 & Hi1).
  { destruct (Z.ltb_spec 0 (Z.of_nat fwd)).
    - destruct (via_pm_forward_spec o raws att which fwd r) as (att1 & E & K1 & I1); [done..|lia|lia|].
      by exists att1.
    - exists att. split_and!; [done| |apply improves_refl]. intros j rj Hj. apply Hkn. lia. }
  cbn [mbind result_bind]. destruct (Z.ltb_spec (- Z.of_nat bwd) 0).
  - destruct (via_pm_backward_spec o raws att1 which bwd) as (att2 & -> & K2 & I2);
      [done..|by eapply improves_sizes|done|done| |lia|].
    { by apply (Hk1 which r); [lia|]. }
    exists att2. split_and!; [done| |by eapply improves_trans]. intros j rj Hj Hrj. destruct (decide (j < which)%nat).
    + apply K2; [lia|done].
    + apply (improves_known raws att1 att2 which (which + fwd) I2 Hk1); [lia|done].
  - exists att1. split_and!; [done| |done]. intros j rj Hj. apply Hk1. lia.
Qed.

Lemma csv_raw_plain o (raws : list (list Z)) : csv_raw o <$> (Plain <$> raws) = raws.
Proof. rewrite <- list_fmap_compose. apply list_fmap_id. Qed.


(** Quotes are invisible to the positional-map parsers: on the line
    ["a,b",c] the CSV reader records that the second field starts at byte 6,
    [parseLineForward] that it starts at byte 3, inside the quoted field. *)
Theorem parseLineForward_ignores_quotes :
  exists st' ptrs' n,
    NoDBCopyReadAttributesCSV csv_defaults 3 2 [34; 97; 44; 98; 34; 44; 99] fields0 = Ok st' /\
    arr_get (at_pointer (attributes st')) 1 = Ok 6 /\
    parseLineForward csv_defaults [34; 97; 44; 98; 34; 44; 99] (at_pointer (attributes fields0)) 0 1 0
      = Ok (ptrs', n) /\
    arr_get ptrs' 1 = Ok 3.
Proof.
  do 3 eexists. split; [by vm_compute|]. split; [by vm_compute|]. split; by vm_compute.
Qed.

(** An empty CSV field is NULL when the line is read from the file, but the
    same field read through the positional map fails the assertion that fields
    have a width, whatever the type's input function. *)
Theorem NoDBGetValuesWithPM_empty_field (input_function : Z -> list Z -> result Z) :
  exists st', NoDBCopyReadAttributesCSV csv_defaults 3 2 [44; 98] fields0 = Ok st' /\
    (exists values nulls, NoDBGetValues input_function st' (arr_alloc 3) (arr_alloc 3) (col_vector [0])
       = Ok (values, nulls) /\ arr_get nulls 0 = Ok 1) /\
    NoDBGetValuesWithPM input_function ([44; 98] ++ [0]) (attributes st') (arr_alloc 3) (arr_alloc 3)
      (col_vector [0]) = Fail AssertFail.
Proof.
  eexists. split; [by vm_compute|]. split; [|by vm_compute]. do 2 eexists. split; by vm_compute.
Qed.

(** ** Witness *)
Definition ex_raws : list (list Z) := [[97]; [98; 99]; [100]].
Definition ex_att : attributes_t :=
  {| at_pointer := [Some 0; Some 2; None; None]; at_width := [None; Some 2; None] |}.

