(* ===== verification/LineReader.v ===== *)
(** * Reading lines (NoDBExecutor.c)

    [NoDBCopyReadLineText] finds the next line of the file through a buffer of
    [RAW_BUF_SIZE] bytes: the line may begin in one buffer load and end in
    another, and the reader goes back to the start of a character or marker
    when it needs more bytes to decide. The abstract reader [ref_line] works on
    the bytes that are left of the file as one list; the refinement theorem
    shows that the buffering is invisible. *)
From S2P Require Import Prelude Cache FieldParser.

Inductive EolType := EOL_UNKNOWN | EOL_NL | EOL_CR | EOL_CRNL.
#[global] Instance EolType_eq_dec : EqDecision EolType.
Proof. solve_decision. Defined.

Definition ch_cr : Z := 13.
Definition ch_nl : Z := 10.
Definition ch_dot : Z := 46.

(** The options of the scan, and the length of a multi-byte character of the
    client encoding from its first byte. *)
Record line_opts := {
  csv_mode : bool; quote : Z; escape : Z; header_line : bool;
  encoding_embeds_ascii : bool; pg_encoding_mblen : Z -> Z }.

(** The open file [copy_file] and its position, whether the header was skipped,
    and the cache of line lengths of the relation. *)
Record source := { contents : list Z; pos : nat; read_header : bool; eolCache : NoDBCache_t }.
Implicit Types (src : source).

(** [raw_buf] is the valid part of the buffer, [raw_buf_len] its length; the
    byte after it is a zero. *)
Record reader := {
  raw_buf : list Z; raw_buf_index : nat; line_buf : list Z; copy_file : source;
  eol_type : EolType; cur_lineno : Z }.
Implicit Types (r : reader).

Section reader.
Context (RAW_BUF_SIZE : nat) (o : line_opts).

(** [fread(buf, 1, n, copy_file)] of a readable file. *)
Definition fread (n : nat) src : list Z * source :=
  let bytes := take n (drop (pos src) (contents src)) in
  (bytes, {| contents := contents src; pos := pos src + length bytes;
             read_header := read_header src; eolCache := eolCache src |}).

(** [for (;;) { char c = temp[i++]; if (c == '\n') break; }] *)
Fixpoint header_scan (fuel : nat) (temp : arr Z) (i : Z) : result Z :=
  match fuel with
  | O => Fail OutOfFuel
  | S fuel' =>
      c ← arr_get temp i;
      if c =? ch_nl then Ok (i + 1) else header_scan fuel' temp (i + 1)
  end.

(** The header is looked for in a buffer of [maxread] bytes, of which [fread]
    fills the first ones. *)
Definition NoDBCopyGetData (maxread : nat) src : result (list Z * source) :=
  if header_line o && negb (read_header src) then
    let '(bytes, src1) := fread maxread src in
    if decide (bytes = []) then Ok ([], src1)
    else
      let temp := (Some <$> bytes) ++ replicate (maxread - length bytes) None in
      i ← header_scan (S maxread) temp 0;
      let '(data, src2) :=
        fread maxread {| contents := contents src; pos := Z.to_nat i; read_header := false;
                         eolCache := NoDBCacheSetHeaderSize (eolCache src) i |} in
      Ok (data, {| contents := contents src2; pos := pos src2; read_header := true;
                   eolCache := eolCache src2 |})
  else Ok (fread maxread src).

Definition NoDBCopyLoadRawBuf r : result (reader * bool) :=
  let keep := drop (raw_buf_index r) (raw_buf r) in
  x ← NoDBCopyGetData (RAW_BUF_SIZE - length keep) (copy_file r);
  let '(inbytes, src) := x in
  Ok ({| raw_buf := keep ++ inbytes; raw_buf_index := 0; line_buf := line_buf r;
         copy_file := src; eol_type := eol_type r; cur_lineno := cur_lineno r |},
      bool_decide (inbytes <> [])).

(** The macro [REFILL_LINEBUF]. *)
Definition REFILL_LINEBUF r (raw_buf_ptr : nat) : reader :=
  if decide (raw_buf_index r < raw_buf_ptr)%nat then
    {| raw_buf := raw_buf r; raw_buf_index := raw_buf_ptr;
       line_buf := line_buf r ++ take (raw_buf_ptr - raw_buf_index r) (drop (raw_buf_index r) (raw_buf r));
       copy_file := copy_file r; eol_type := eol_type r; cur_lineno := cur_lineno r |}
  else r.

Definition NoDBTryReFillRawBuf r : result (reader * bool) :=
  if decide (length (raw_buf r) <= raw_buf_index r)%nat then
    x ← NoDBCopyLoadRawBuf (REFILL_LINEBUF r (raw_buf_index r));
    let '(r2, got) := x in
    Ok (r2, bool_decide (raw_buf r2 = []) || negb got)
  else Ok (r, false).

(** ** The loop of [NoDBCopyReadLineText] *)
Definition quotec_of : Z := if csv_mode o then quote o else 0.
Definition escapec_of : Z :=
  if csv_mode o then if quote o =? escape o then 0 else escape o else 0.

Record csv_flags := { in_quote : bool; last_was_esc : bool }.
Record locals := {
  raw_buf_ptr : nat; need_data : bool; hit_eof : bool; first_char_in_line : bool;
  flags : csv_flags }.
Implicit Types (l : locals) (fl : csv_flags).

(** The CSV state update on a character. *)
Definition csv_update (c : Z) fl : csv_flags :=
  let esc := if in_quote fl && (c =? escapec_of) then negb (last_was_esc fl) else last_was_esc fl in
  let q := if (c =? quotec_of) && negb esc then negb (in_quote fl) else in_quote fl in
  {| in_quote := q; last_was_esc := if negb (c =? escapec_of) then false else esc |}.

Definition set_eol r (e : EolType) : reader :=
  {| raw_buf := raw_buf r; raw_buf_index := raw_buf_index r; line_buf := line_buf r;
     copy_file := copy_file r; eol_type := e; cur_lineno := cur_lineno r |}.
Definition incr_lineno r : reader :=
  {| raw_buf := raw_buf r; raw_buf_index := raw_buf_index r; line_buf := line_buf r;
     copy_file := copy_file r; eol_type := eol_type r; cur_lineno := cur_lineno r + 1 |}.
Definition set_ptr l (p : nat) : locals :=
  {| raw_buf_ptr := p; need_data := need_data l; hit_eof := hit_eof l;
     first_char_in_line := first_char_in_line l; flags := flags l |}.
Definition set_flags l fl : locals :=
  {| raw_buf_ptr := raw_buf_ptr l; need_data := need_data l; hit_eof := hit_eof l;
     first_char_in_line := first_char_in_line l; flags := fl |}.

(** How a turn of the loop ends: [continue] or the end of the body, or [break]
    with [result]. *)
Inductive outcome := Next r l | Break r l (res : bool).

(** The guaranteed zero after the valid bytes. *)
Definition raw_at r (p : nat) : Z := default 0 (raw_buf r !! p).

Definition needs_refill r l (p : nat) (extralen : nat) : bool :=
  bool_decide (length (raw_buf r) <= p + extralen)%nat && negb (hit_eof l).

(** [raw_buf_ptr = prev_raw_ptr; need_data = true; continue;] *)
Definition undo_fetch r l (prev : nat) : result outcome :=
  Ok (Next r {| raw_buf_ptr := prev; need_data := true; hit_eof := hit_eof l;
                first_char_in_line := first_char_in_line l; flags := flags l |}).

Definition msg_cr : string :=
  if csv_mode o then "unquoted carriage return found in data" else "literal carriage return found in data".
Definition msg_nl : string :=
  if csv_mode o then "unquoted newline found in data" else "literal newline found in data".
Definition msg_corrupt : string := "end-of-copy marker corrupt".
Definition msg_style : string := "end-of-copy marker does not match previous newline style".

Definition process_cr r l (prev p : nat) : result outcome :=
  match eol_type r with
  | EOL_UNKNOWN | EOL_CRNL =>
      if needs_refill r l p 0 then undo_fetch r l prev
      else if raw_at r p =? ch_nl then Ok (Break (set_eol r EOL_CRNL) (set_ptr l (p + 1)) false)
      else if decide (eol_type r = EOL_CRNL) then Fail (EReport msg_cr)
      else Ok (Break (set_eol r EOL_CR) (set_ptr l p) false)
  | EOL_NL => Fail (EReport msg_cr)
  | EOL_CR => Ok (Break r (set_ptr l p) false)
  end.

Definition process_nl r l (p : nat) : result outcome :=
  match eol_type r with
  | EOL_CR | EOL_CRNL => Fail (EReport msg_nl)
  | _ => Ok (Break (set_eol r EOL_NL) (set_ptr l p) false)
  end.

(** From the label [not_end_of_copy]: the rest of a multi-byte character. *)
Definition not_end_of_copy r l (c : Z) (prev p : nat) : result outcome :=
  let next p' := Ok (Next r {| raw_buf_ptr := p'; need_data := need_data l; hit_eof := hit_eof l;
                               first_char_in_line := false; flags := flags l |}) in
  if encoding_embeds_ascii o && IS_HIGHBIT_SET c then
    let extralen := Z.to_nat (pg_encoding_mblen o c - 1) in
    if needs_refill r l p extralen then undo_fetch r l prev
    else if bool_decide (length (raw_buf r) <= p + extralen)%nat then
      Ok (Break r (set_ptr l (if decide (extralen = 0)%nat then p else length (raw_buf r))) true)
    else next (p + extralen)%nat
  else next p.

(** The data before the marker goes to [line_buf], the marker is dropped. *)
Definition end_of_copy r l (prev p : nat) : result outcome :=
  let r1 := REFILL_LINEBUF r prev in
  Ok (Break {| raw_buf := raw_buf r1; raw_buf_index := p; line_buf := line_buf r1;
               copy_file := copy_file r1; eol_type := eol_type r1; cur_lineno := cur_lineno r1 |}
        (set_ptr l p) true).

(** The character after [\.] (and after [\r] in a CRNL file), at [p]. *)
Definition process_dot_end r l (c : Z) (prev p : nat) : result outcome :=
  if needs_refill r l p 0 then undo_fetch r l prev
  else
    let c2 := raw_at r p in
    if negb (c2 =? ch_cr) && negb (c2 =? ch_nl) then
      if csv_mode o then not_end_of_copy r l c prev (prev + 1) else Fail (EReport msg_corrupt)
    else if (bool_decide (eol_type r = EOL_NL) && negb (c2 =? ch_nl))
         || (bool_decide (eol_type r = EOL_CRNL) && negb (c2 =? ch_nl))
         || (bool_decide (eol_type r = EOL_CR) && negb (c2 =? ch_cr))
    then Fail (EReport msg_style)
    else end_of_copy r l prev (p + 1).

Definition process_dot r l (c : Z) (prev p : nat) : result outcome :=
  if decide (eol_type r = EOL_CRNL) then
    if needs_refill r l p 0 then undo_fetch r l prev
    else
      let c2 := raw_at r p in
      if c2 =? ch_nl then
        if csv_mode o then not_end_of_copy r l c prev (prev + 1) else Fail (EReport msg_style)
      else if negb (c2 =? ch_cr) then
        if csv_mode o then not_end_of_copy r l c prev (prev + 1) else Fail (EReport msg_corrupt)
      else process_dot_end r l c prev (p + 1)
  else process_dot_end r l c prev p.

Definition process_backslash r l (c : Z) (prev p : nat) : result outcome :=
  if needs_refill r l p 0 then undo_fetch r l prev
  else if bool_decide (length (raw_buf r) <= p)%nat then Ok (Break r (set_ptr l p) true)
  else if raw_at r p =? ch_dot then process_dot r l c prev (p + 1)
  else if csv_mode o then not_end_of_copy r l c prev p
  else not_end_of_copy r l c prev (p + 1).

(** One turn of the loop after the refill. *)
Definition process_char r l : result outcome :=
  let prev := raw_buf_ptr l in
  let c := raw_at r prev in
  let p := (prev + 1)%nat in
  if csv_mode o && ((c =? ch_backslash) || (c =? ch_cr)) && needs_refill r l p 0
  then undo_fetch r l prev
  else
    let l1 := if csv_mode o then set_flags l (csv_update c (flags l)) else l in
    let r1 := if csv_mode o && in_quote (flags l1)
                 && (c =? (if decide (eol_type r = EOL_NL) then ch_nl else ch_cr))
              then incr_lineno r else r in
    let outside := negb (csv_mode o) || negb (in_quote (flags l1)) in
    if (c =? ch_cr) && outside then process_cr r1 l1 prev p
    else if (c =? ch_nl) && outside then process_nl r1 l1 p
    else if (c =? ch_backslash) && (negb (csv_mode o) || first_char_in_line l1)
    then process_backslash r1 l1 c prev p
    else not_end_of_copy r1 l1 c prev p.

Definition loop_body r l : result outcome :=
  if bool_decide (length (raw_buf r) <= raw_buf_ptr l)%nat || need_data l then
    x ← NoDBCopyLoadRawBuf (REFILL_LINEBUF r (raw_buf_ptr l));
    let '(r2, got) := x in
    let l1 := {| raw_buf_ptr := 0; need_data := need_data l; hit_eof := hit_eof l || negb got;
                 first_char_in_line := first_char_in_line l; flags := flags l |} in
    if decide (raw_buf r2 = []) then Ok (Break r2 l1 true)
    else process_char r2 {| raw_buf_ptr := 0; need_data := false; hit_eof := hit_eof l1;
                            first_char_in_line := first_char_in_line l; flags := flags l |}
  else process_char r l.

Fixpoint read_loop (fuel : nat) r l : result (reader * bool) :=
  match fuel with
  | O => Fail OutOfFuel
  | S fuel' =>
      x ← loop_body r l;
      match x with
      | Next r' l' => read_loop fuel' r' l'
      | Break r' l' res => Ok (REFILL_LINEBUF r' (raw_buf_ptr l'), res)
      end
  end.

Definition init_locals r : locals :=
  {| raw_buf_ptr := raw_buf_index r; need_data := false; hit_eof := false;
     first_char_in_line := true; flags := {| in_quote := false; last_was_esc := false |} |}.

(** A turn consumes a byte or asks for data, and a load brings a byte or the end
    of the file: two turns for every byte, and four more, are enough. *)
Definition NoDBCopyReadLineText r : result (reader * bool) :=
  read_loop (2 * (length (raw_buf r) + length (contents (copy_file r))) + 4) r (init_locals r).

(** ** The abstract reader

    The same scan on the bytes that are left, with no buffer: [skip] counts the
    bytes to take without looking at them (the rest of a multi-byte character,
    or the byte after a backslash in text mode). *)
Record line_result := {
  l_done : bool; l_line : list Z; l_rest : list Z; l_eol : EolType; l_lineno : Z }.

Definition peek (rest : list Z) (k : nat) : Z := default 0 (rest !! k).

Inductive marker := NotMarker | BadMarker (msg : string) | Marker (n : nat).

(** What follows [\.]; [Marker n] when the marker ends after [n] bytes of it. *)
Definition marker_end (eol : EolType) (rest : list Z) (k : nat) : marker :=
  let c2 := peek rest k in
  if negb (c2 =? ch_cr) && negb (c2 =? ch_nl)
  then if csv_mode o then NotMarker else BadMarker msg_corrupt
  else if (bool_decide (eol = EOL_NL) && negb (c2 =? ch_nl))
       || (bool_decide (eol = EOL_CRNL) && negb (c2 =? ch_nl))
       || (bool_decide (eol = EOL_CR) && negb (c2 =? ch_cr))
  then BadMarker msg_style
  else Marker (S k).

Definition marker_of (eol : EolType) (rest : list Z) : marker :=
  if decide (eol = EOL_CRNL) then
    if peek rest 0 =? ch_nl then if csv_mode o then NotMarker else BadMarker msg_style
    else if negb (peek rest 0 =? ch_cr) then if csv_mode o then NotMarker else BadMarker msg_corrupt
    else marker_end eol rest 1
  else marker_end eol rest 0.

Definition mb_extra (c : Z) : nat :=
  if encoding_embeds_ascii o && IS_HIGHBIT_SET c then Z.to_nat (pg_encoding_mblen o c - 1) else 0.

(** The terminator that a carriage return begins. *)
Definition ref_cr (acc rest1 : list Z) (eol : EolType) (ln : Z) : result line_result :=
  let stop line rest eol := Ok {| l_done := false; l_line := line; l_rest := rest; l_eol := eol; l_lineno := ln |} in
  match eol with
  | EOL_UNKNOWN | EOL_CRNL =>
      if peek rest1 0 =? ch_nl then stop (acc ++ [ch_cr; ch_nl]) (drop 1 rest1) EOL_CRNL
      else if decide (eol = EOL_CRNL) then Fail (EReport msg_cr)
      else stop (acc ++ [ch_cr]) rest1 EOL_CR
  | EOL_NL => Fail (EReport msg_cr)
  | EOL_CR => stop (acc ++ [ch_cr]) rest1 EOL_CR
  end.

Definition ref_nl (acc rest1 : list Z) (eol : EolType) (ln : Z) : result line_result :=
  match eol with
  | EOL_CR | EOL_CRNL => Fail (EReport msg_nl)
  | _ => Ok {| l_done := false; l_line := acc ++ [ch_nl]; l_rest := rest1; l_eol := EOL_NL; l_lineno := ln |}
  end.

Definition ref_flags (c : Z) fl : csv_flags := if csv_mode o then csv_update c fl else fl.
Definition ref_lineno (c : Z) fl (eol : EolType) (ln : Z) : Z :=
  if csv_mode o && in_quote fl && (c =? (if decide (eol = EOL_NL) then ch_nl else ch_cr))
  then ln + 1 else ln.

Fixpoint ref_line (acc rest : list Z) (skip : nat) (first : bool) fl (eol : EolType) (ln : Z)
  : result line_result :=
  let at_eof acc rest ln := Ok {| l_done := true; l_line := acc; l_rest := rest; l_eol := eol; l_lineno := ln |} in
  match rest, skip with
  | [], _ => at_eof acc [] ln
  | c :: rest1, S k => ref_line (acc ++ [c]) rest1 k first fl eol ln
  | c :: rest1, O =>
      let fl1 := ref_flags c fl in
      let ln1 := ref_lineno c fl1 eol ln in
      let outside := negb (csv_mode o) || negb (in_quote fl1) in
      if (c =? ch_cr) && outside then ref_cr acc rest1 eol ln1
      else if (c =? ch_nl) && outside then ref_nl acc rest1 eol ln1
      else if (c =? ch_backslash) && (negb (csv_mode o) || first) then
        if decide (rest1 = []) then at_eof (acc ++ [c]) [] ln1
        else if peek rest1 0 =? ch_dot then
          match marker_of eol (drop 1 rest1) with
          | NotMarker => ref_line (acc ++ [c]) rest1 0 false fl1 eol ln1
          | BadMarker msg => Fail (EReport msg)
          | Marker n => at_eof acc (drop n (drop 1 rest1)) ln1
          end
        else ref_line (acc ++ [c]) rest1 (if csv_mode o then 0 else 1) false fl1 eol ln1
      else ref_line (acc ++ [c]) rest1 (mb_extra c) false fl1 eol ln1
  end.

(** What is left of the file behind the buffer. *)
Definition file_rest src : list Z := drop (pos src) (contents src).
Definition reader_rest r : list Z := drop (raw_buf_index r) (raw_buf r) ++ file_rest (copy_file r).

(** The header is behind us, or there is nothing in the file. *)
Definition settled src : Prop :=
  header_line o && negb (read_header src) = true -> contents src = [].

(** [ec] is the end-of-line cache, which reading does not change. *)
Context (ec : NoDBCache_t).

(** ** The simulation

    [win r p eof acc rest]: the bytes up to [p] are those of [acc] and the bytes
    from [p] on, in the buffer and behind it, are [rest]. *)
Record win r (p : nat) (eof : bool) (acc rest : list Z) : Prop := {
  win_idx : (raw_buf_index r <= p)%nat;
  win_ptr : (p <= length (raw_buf r))%nat;
  win_acc : line_buf r ++ take (p - raw_buf_index r) (drop (raw_buf_index r) (raw_buf r)) = acc;
  win_rest : drop p (raw_buf r) ++ file_rest (copy_file r) = rest;
  win_eof : eof = true -> file_rest (copy_file r) = [];
  win_len : (length (raw_buf r) <= RAW_BUF_SIZE)%nat;
  win_settled : settled (copy_file r);
  win_cache : eolCache (copy_file r) = ec }.

Record sim r l (acc rest : list Z) : Prop := {
  sim_win : win r (raw_buf_ptr l) (hit_eof l) acc rest;
  sim_need : need_data l = true -> (length (raw_buf r) - raw_buf_ptr l < RAW_BUF_SIZE)%nat;
  sim_first : first_char_in_line l = true -> in_quote (flags l) = false }.

Definition ref_of r l (acc rest : list Z) : result line_result :=
  ref_line acc rest 0 (first_char_in_line l) (flags l) (eol_type r) (cur_lineno r).

Lemma fread_spec n src :
  let '(bytes, src') := fread n src in
  bytes = take n (file_rest src) /\ file_rest src' = drop n (file_rest src) /\
  (settled src -> settled src') /\ eolCache src' = eolCache src.
Proof.
  unfold fread, file_rest. split_and!; [done| |done..]. cbn. rewrite length_take, !drop_drop.
  destruct (decide (n <= length (drop (pos src) (contents src)))%nat) as [H|H].
  - by rewrite Nat.min_l by lia.
  - rewrite length_drop in *. rewrite !drop_ge; [done|lia..].
Qed.

Lemma NoDBCopyGetData_settled n src :
  settled src ->
  exists src', NoDBCopyGetData n src = Ok (take n (file_rest src), src') /\
    file_rest src' = drop n (file_rest src) /\ settled src' /\ eolCache src' = eolCache src.
Proof.
  intros Hs. unfold NoDBCopyGetData.
  pose proof (fread_spec n src) as H. destruct (fread n src) as [b src1] eqn:E.
  destruct H as (Hb & Hf & Hs1 & Hc).
  destruct (header_line o && negb (read_header src)) eqn:Hp.
  - assert (file_rest src = []) as H0 by (unfold file_rest; rewrite (Hs Hp); by rewrite drop_nil).
    rewrite H0, take_nil in Hb. subst b. rewrite decide_True by done.
    exists src1. rewrite H0, take_nil in *. eauto.
  - exists src1. rewrite Hb. eauto.
Qed.

Lemma REFILL_LINEBUF_win r p eof acc rest :
  win r p eof acc rest ->
  let r' := REFILL_LINEBUF r p in
  line_buf r' = acc /\ reader_rest r' = rest /\ drop (raw_buf_index r') (raw_buf r') = drop p (raw_buf r) /\
  copy_file r' = copy_file r /\ eol_type r' = eol_type r /\ cur_lineno r' = cur_lineno r /\
  (raw_buf_index r' <= length (raw_buf r'))%nat /\ raw_buf r' = raw_buf r.
Proof.
  intros [Hi Hp Ha Hr He Hl Hs Hec]. unfold REFILL_LINEBUF, reader_rest. case_decide; cbn.
  - subst. split_and!; done.
  - assert (raw_buf_index r = p) as E by lia. rewrite E, Nat.sub_diag, take_0, app_nil_r in *.
    split_and!; done.
Qed.

Lemma load_win r p eof acc rest :
  win r p eof acc rest -> (length (raw_buf r) - p < RAW_BUF_SIZE)%nat ->
  exists r2 got, NoDBCopyLoadRawBuf (REFILL_LINEBUF r p) = Ok (r2, got) /\
    win r2 0 (eof || negb got) acc rest /\ eol_type r2 = eol_type r /\ cur_lineno r2 = cur_lineno r /\
    raw_buf_index r2 = 0%nat /\
    (got = true -> file_rest (copy_file r) <> []) /\
    (file_rest (copy_file r2) = [] \/ length (raw_buf r2) = RAW_BUF_SIZE) /\
    (file_rest (copy_file r) = [] -> file_rest (copy_file r2) = []).
Proof.
  intros Hw Hn. destruct (REFILL_LINEBUF_win _ _ _ _ _ Hw) as (Hl & Hr & Hd & Hc & He & Hln & _ & _).
  destruct Hw as [Hi Hp Ha Hre Heof Hlen Hs Hec].
  unfold NoDBCopyLoadRawBuf. rewrite Hd, Hc, length_drop.
  set (n := (RAW_BUF_SIZE - (length (raw_buf r) - p))%nat). assert (0 < n)%nat by lia.
  destruct (NoDBCopyGetData_settled n (copy_file r) Hs) as (src' & -> & Hf & Hs' & Hec').
  cbn [mbind result_bind]. eexists _, _. split; [done|].
  set (file := file_rest (copy_file r)) in *.
  assert (Hnil : take n file = [] -> file = []) 
    by (intros E; apply nil_length_inv; apply (f_equal length) in E; rewrite length_take in E; simpl in E; lia).
  split_and!; cbn; rewrite ?He, ?Hln; try done.
  - constructor; cbn; rewrite ?Hf.
    + lia.
    + lia.
    + rewrite take_0, app_nil_r. done.
    + rewrite drop_0, <- app_assoc, take_drop. done.
    + intros [Hx|Hx]%orb_true_iff; [rewrite Heof by done; by rewrite drop_nil|].
      apply negb_true_iff, bool_decide_eq_false_1, dec_stable in Hx. rewrite Hnil by done. by rewrite drop_nil.
    + rewrite length_app, length_take, length_drop. lia.
    + done.
    + by rewrite Hec'.
  - case_bool_decide as Hb; [|done]. intros _ E. by rewrite E, take_nil in Hb.
  - rewrite Hf, length_app, length_take, length_drop.
    destruct (decide (n <= length file)%nat); [right; lia|left; apply drop_ge; lia].
  - intros E. by rewrite Hf, E, drop_nil.
Qed.

(** ** Looking ahead *)
Lemma needs_refill_false r l k acc rest :
  win r (raw_buf_ptr l) (hit_eof l) acc rest ->
  needs_refill r l (raw_buf_ptr l + k) 0 = false ->
  raw_at r (raw_buf_ptr l + k) = peek rest k /\
  ((length (raw_buf r) <= raw_buf_ptr l + k)%nat <-> (length rest <= k)%nat).
Proof.
  intros [Hi Hp Ha Hr He Hl Hs Hec]. unfold needs_refill, raw_at, peek. rewrite Nat.add_0_r.
  rewrite <- Hr at 1. intros Hn. case_bool_decide as Hb; simpl in Hn.
  - apply negb_false_iff, He in Hn. rewrite <- Hr, Hn, app_nil_r, lookup_drop, length_drop.
    split; [done|lia].
  - rewrite lookup_app_l, lookup_drop by (rewrite length_drop; lia).
    rewrite <- Hr, length_app, length_drop. split; [done|lia].
Qed.

Lemma win_advance r p eof acc rest k :
  win r p eof acc rest -> (p + k <= length (raw_buf r))%nat ->
  win r (p + k) eof (acc ++ take k rest) (drop k rest).
Proof.
  intros [Hi Hp Ha Hr He Hl Hs Hec] Hk. constructor; try done; [lia| |].
  - rewrite <- Ha, <- Hr, <- app_assoc. f_equal.
    rewrite take_app_le by (rewrite length_drop; lia).
    replace (p + k - raw_buf_index r)%nat with ((p - raw_buf_index r) + k)%nat by lia.
    rewrite <- take_take_drop. f_equal. rewrite drop_drop. do 2 f_equal. lia.
  - rewrite <- Hr, drop_app_le by (rewrite length_drop; lia). by rewrite drop_drop.
Qed.

Lemma ref_line_skip acc rest k fl eol ln first :
  ref_line acc rest k first fl eol ln =
  if decide (length rest <= k)%nat
  then Ok {| l_done := true; l_line := acc ++ rest; l_rest := []; l_eol := eol; l_lineno := ln |}
  else ref_line (acc ++ take k rest) (drop k rest) 0 first fl eol ln.
Proof.
  revert acc rest. induction k as [|k IH]; intros acc rest.
  - destruct rest; case_decide; simpl in *; rewrite ?app_nil_r; lia || done.
  - destruct rest as [|c rest]; [by rewrite decide_True, app_nil_r by (simpl; lia)|].
    cbn [ref_line]. rewrite IH. cbn [length take drop]. rewrite <- !app_assoc.
    repeat case_decide; lia || done.
Qed.

Lemma csv_update_idem c fl :
  c <> quotec_of -> (c = escapec_of -> in_quote fl = false) ->
  csv_update c (csv_update c fl) = csv_update c fl.
Proof.
  intros Hq He. unfold csv_update. cbn. rewrite (proj2 (Z.eqb_neq c _) Hq). cbn.
  destruct (Z.eqb_spec c escapec_of) as [E|E]; cbn; rewrite ?andb_false_r; [|done].
  by rewrite (He E).
Qed.

(** The quote and escape characters are ASCII and the quote is not a backslash;
    a character has one to four bytes. *)
Record opts_ok : Prop := {
  mblen_bounds : forall c, 1 <= pg_encoding_mblen o c <= 4;
  quote_ascii : csv_mode o = true -> IS_HIGHBIT_SET (quote o) = false;
  quote_not_backslash : csv_mode o = true -> quote o <> ch_backslash;
  escape_ascii : csv_mode o = true -> IS_HIGHBIT_SET (escape o) = false }.

(** What the line found means for the state that the loop leaves. *)
Definition final r (p : nat) (res : bool) (a : line_result) : Prop :=
  let r' := REFILL_LINEBUF r p in
  l_done a = res /\ line_buf r' = l_line a /\ reader_rest r' = l_rest a /\
  eol_type r' = l_eol a /\ cur_lineno r' = l_lineno a /\
  (raw_buf_index r' <= length (raw_buf r') <= RAW_BUF_SIZE)%nat /\ settled (copy_file r') /\
  eolCache (copy_file r') = ec.

(** A turn is right when it agrees with the outcome [R] of the abstract reader:
    it gets closer to it, or keeps it and asks for data, or ends with it. *)
Definition step_ok (R : result line_result) r l (acc rest : list Z) (x : result outcome) : Prop :=
  match x with
  | Fail e => R = Fail e
  | Ok (Break r' l' res) => exists a, R = Ok a /\ final r' (raw_buf_ptr l') res a
  | Ok (Next r' l') =>
      copy_file r' = copy_file r /\ hit_eof l' = hit_eof l /\
      exists acc' rest', sim r' l' acc' rest' /\ ref_of r' l' acc' rest' = R /\
        if need_data l' then rest' = rest /\ hit_eof l = false /\ (length (raw_buf r) - raw_buf_ptr l <= 4)%nat
        else (length rest' < length rest)%nat
  end.

Definition undo_ok (R : result line_result) r l (acc rest : list Z) : Prop :=
  ref_of r l acc rest = R /\ (first_char_in_line l = true -> in_quote (flags l) = false).

Section refinement.
Context (HB : (4 < RAW_BUF_SIZE)%nat) (Ho : opts_ok).

Lemma win_final r l p res acc rest eol eof line rest' :
  win r p eof acc rest -> acc = line -> rest = rest' -> eol = eol_type r ->
  final r (raw_buf_ptr (set_ptr l p)) res
    {| l_done := res; l_line := line; l_rest := rest'; l_eol := eol; l_lineno := cur_lineno r |}.
Proof.
  intros Hw -> -> ->. destruct (REFILL_LINEBUF_win _ _ _ _ _ Hw) as (H1 & H2 & H3 & H4 & H5 & H6 & H7 & H8).
  unfold final. cbn [raw_buf_ptr set_ptr l_done l_line l_rest l_eol l_lineno].
  rewrite H4. split_and!; try done; rewrite ?H8; apply Hw.
Qed.

Lemma win_set_eol r p eof acc rest e : win r p eof acc rest -> win (set_eol r e) p eof acc rest.
Proof. intros []. by constructor. Qed.

Lemma undo_fetch_ok R r l acc rest k e :
  win r (raw_buf_ptr l) (hit_eof l) acc rest -> undo_ok R r l acc rest ->
  needs_refill r l (raw_buf_ptr l + k) e = true -> (k + e <= 4)%nat ->
  step_ok R r l acc rest (undo_fetch r l (raw_buf_ptr l)).
Proof.
  intros Hw [HR Hf] Hn Hk. unfold needs_refill in Hn. apply andb_true_iff in Hn as [Hn He].
  apply bool_decide_eq_true in Hn. apply negb_true_iff in He.
  split_and!; [done..|]. exists acc, rest. cbn [need_data]. split_and!; try done; [|lia].
  constructor; cbn; try done. lia.
Qed.

Lemma not_end_of_copy_ok R r l acc rest c k :
  win r (raw_buf_ptr l) (hit_eof l) acc rest -> need_data l = false ->
  (0 < k)%nat -> (raw_buf_ptr l + k <= length (raw_buf r))%nat ->
  (IS_HIGHBIT_SET c = true -> k = 1%nat /\ undo_ok R r l acc rest) ->
  R = ref_line (acc ++ take k rest) (drop k rest) (mb_extra c) false (flags l) (eol_type r) (cur_lineno r) ->
  step_ok R r l acc rest (not_end_of_copy r l c (raw_buf_ptr l) (raw_buf_ptr l + k)).
Proof.
  intros Hw Hnd Hk Hlen Hu HR. unfold not_end_of_copy. unfold mb_extra in HR.
  pose proof (win_advance _ _ _ _ _ _ Hw Hlen) as Hw'.
  assert (Hrest : (k <= length rest)%nat).
  { rewrite <- (win_rest _ _ _ _ _ Hw), length_app, length_drop. lia. }
  destruct (encoding_embeds_ascii o && IS_HIGHBIT_SET c) eqn:Hm.
  - apply andb_true_iff in Hm as [_ Hm]. destruct (Hu Hm) as [-> Huo].
    pose proof (mblen_bounds Ho c). set (e := Z.to_nat (pg_encoding_mblen o c - 1)) in *.
    destruct (needs_refill r l (raw_buf_ptr l + 1) e) eqn:Hn.
    { eapply undo_fetch_ok; [done..|]. lia. }
    rewrite ref_line_skip in HR. unfold needs_refill in Hn.
    case_bool_decide as Hb; simpl in Hn.
    + apply negb_false_iff in Hn. pose proof (win_eof _ _ _ _ _ Hw Hn) as Hf.
      pose proof (win_rest _ _ _ _ _ Hw) as Hr. rewrite Hf, app_nil_r in Hr.
      rewrite decide_True in HR by (rewrite <- Hr, !length_drop; lia).
      eexists. split; [done|]. rewrite <- app_assoc, take_drop.
      case_decide as He.
      * assert (length rest = 1%nat) by (rewrite <- Hr, !length_drop; lia).
        eapply win_final; [apply Hw'|..]; [|by apply drop_ge; lia|done].
        by rewrite take_ge by lia.
      * eapply (win_final _ _ _ _ (acc ++ take (length rest) rest) (drop (length rest) rest));
          [|by rewrite take_ge|by rewrite drop_ge|done].
        replace (length (raw_buf r)) with (raw_buf_ptr l + length rest)%nat
          by (rewrite <- Hr, length_drop; lia).
        eapply win_advance; [done|]. rewrite <- Hr, length_drop. lia.
    + assert (raw_buf_ptr l + 1 + e <= length (raw_buf r))%nat as He by lia.
      rewrite decide_False in HR.
      2: { rewrite length_drop. rewrite <- (win_rest _ _ _ _ _ Hw), length_app, length_drop. lia. }
      split_and!; [done..|]. eexists _, _. cbn. rewrite Hnd. split_and!.
      * constructor; cbn; [|done|done]. by eapply win_advance.
      * unfold ref_of. cbn. by rewrite HR.
      * rewrite !length_drop. lia.
  - split_and!; [done..|]. eexists _, _. cbn. rewrite Hnd. split_and!.
    + constructor; cbn; [|done|done]. done.
    + unfold ref_of. cbn. by rewrite HR.
    + rewrite length_drop. lia.
Qed.

Lemma process_cr_ok r l acc rest1 :
  win r (raw_buf_ptr l) (hit_eof l) acc (ch_cr :: rest1) ->
  (raw_buf_ptr l < length (raw_buf r))%nat ->
  (needs_refill r l (raw_buf_ptr l + 1) 0 = true ->
     undo_ok (ref_cr acc rest1 (eol_type r) (cur_lineno r)) r l acc (ch_cr :: rest1)) ->
  step_ok (ref_cr acc rest1 (eol_type r) (cur_lineno r)) r l acc (ch_cr :: rest1)
    (process_cr r l (raw_buf_ptr l) (raw_buf_ptr l + 1)).
Proof.
  intros Hw Hlt Hu.
  assert (Hw1 : win r (raw_buf_ptr l + 1) (hit_eof l) (acc ++ [ch_cr]) rest1).
  { apply (win_advance _ _ _ _ _ 1 Hw). lia. }
  assert (Hstop : forall e, step_ok (Ok {| l_done := false; l_line := acc ++ [ch_cr]; l_rest := rest1;
      l_eol := e; l_lineno := cur_lineno r |}) r l acc (ch_cr :: rest1)
      (Ok (Break (set_eol r e) (set_ptr l (raw_buf_ptr l + 1)) false))).
  { intros e. eexists. split; [done|].
    by eapply (win_final (set_eol r e)); [by apply win_set_eol|..]. }
  assert (Hlook : needs_refill r l (raw_buf_ptr l + 1) 0 = false ->
    raw_at r (raw_buf_ptr l + 1) = peek rest1 0 /\
    (peek rest1 0 = ch_nl -> win r (raw_buf_ptr l + 1 + 1) (hit_eof l) (acc ++ [ch_cr; ch_nl]) (drop 1 rest1))).
  { intros Hn. destruct (needs_refill_false _ _ _ _ _ Hw Hn) as [-> Hl]. split; [done|].
    intros Hp. destruct rest1 as [|d rest2]; [done|]. unfold peek in Hp. simpl in Hp. subst d.
    rewrite <- Nat.add_assoc. apply (win_advance _ _ _ _ _ 2 Hw). simpl in *. lia. }
  unfold process_cr, ref_cr. revert Hu Hstop. unfold ref_cr. destruct (eol_type r) eqn:He; intros Hu Hstop.
  1, 4: destruct (needs_refill r l (raw_buf_ptr l + 1) 0) eqn:Hn;
    [by eapply undo_fetch_ok; eauto; lia|];
    destruct (Hlook eq_refl) as [-> Hp]; destruct (Z.eqb_spec (peek rest1 0) ch_nl) as [E|E];
    [eexists; split; [done|]; by eapply (win_final (set_eol r EOL_CRNL)); [by apply win_set_eol, Hp|..]|].
  - rewrite !decide_False by done. apply Hstop.
  - rewrite !decide_True by done. done.
  - done.
  - eexists. split; [done|]. by eapply (win_final r).
Qed.

Lemma process_nl_ok r l acc rest1 :
  win r (raw_buf_ptr l) (hit_eof l) acc (ch_nl :: rest1) ->
  (raw_buf_ptr l < length (raw_buf r))%nat ->
  step_ok (ref_nl acc rest1 (eol_type r) (cur_lineno r)) r l acc (ch_nl :: rest1)
    (process_nl r l (raw_buf_ptr l + 1)).
Proof.
  intros Hw Hlt.
  assert (Hw1 : win r (raw_buf_ptr l + 1) (hit_eof l) (acc ++ [ch_nl]) rest1).
  { apply (win_advance _ _ _ _ _ 1 Hw). lia. }
  unfold process_nl, ref_nl. destruct (eol_type r); try done; (eexists; split; [done|]);
    by eapply (win_final (set_eol r EOL_NL)); [by apply win_set_eol|..].
Qed.

Lemma end_of_copy_ok r l acc rest k :
  win r (raw_buf_ptr l) (hit_eof l) acc rest -> (raw_buf_ptr l + k <= length (raw_buf r))%nat ->
  step_ok (Ok {| l_done := true; l_line := acc; l_rest := drop k rest; l_eol := eol_type r; l_lineno := cur_lineno r |})
    r l acc rest (end_of_copy r l (raw_buf_ptr l) (raw_buf_ptr l + k)).
Proof.
  intros Hw Hk. eexists. split; [done|]. unfold final.
  destruct (REFILL_LINEBUF_win _ _ _ _ _ Hw) as (H1 & H2 & H3 & H4 & H5 & H6 & H7 & H8).
  pose proof (win_rest _ _ _ _ _ (win_advance _ _ _ _ _ _ Hw Hk)) as Hr.
  unfold end_of_copy. set (r1 := REFILL_LINEBUF r (raw_buf_ptr l)) in *.
  unfold REFILL_LINEBUF at 1 2 3 4 5 6 7 8 9. cbn [raw_buf_index raw_buf_ptr set_ptr].
  rewrite decide_False by lia. unfold reader_rest. cbn. rewrite H8, H4.
  split_and!; try done; apply Hw.
Qed.

Definition marker_outcome (m : marker) (acc rest1 : list Z) fl (eol : EolType) (ln : Z) : result line_result :=
  match m with
  | NotMarker => ref_line (acc ++ [ch_backslash]) rest1 0 false fl eol ln
  | BadMarker msg => Fail (EReport msg)
  | Marker n => Ok {| l_done := true; l_line := acc; l_rest := drop n (drop 1 rest1); l_eol := eol; l_lineno := ln |}
  end.

Section marker.
Context (R : result line_result) (r : reader) (l : locals) (acc rest2 : list Z).
#[local] Abbreviation rest := (ch_backslash :: ch_dot :: rest2).
Context (Hw : win r (raw_buf_ptr l) (hit_eof l) acc rest) (Hnd : need_data l = false).
Context (Hlt : (raw_buf_ptr l + 2 <= length (raw_buf r))%nat) (Hu : undo_ok R r l acc rest).

Lemma not_marker_ok :
  R = marker_outcome NotMarker acc (ch_dot :: rest2) (flags l) (eol_type r) (cur_lineno r) ->
  step_ok R r l acc rest (not_end_of_copy r l ch_backslash (raw_buf_ptr l) (raw_buf_ptr l + 1)).
Proof.
  intros ->. apply not_end_of_copy_ok; [done..|lia|lia|done|].
  unfold mb_extra. by rewrite andb_false_r.
Qed.

Lemma process_dot_end_ok k :
  (k <= 1)%nat ->
  R = marker_outcome (marker_end (eol_type r) rest2 k) acc (ch_dot :: rest2) (flags l) (eol_type r) (cur_lineno r) ->
  step_ok R r l acc rest (process_dot_end r l ch_backslash (raw_buf_ptr l) (raw_buf_ptr l + (2 + k))).
Proof.
  intros Hk HR. unfold process_dot_end.
  destruct (needs_refill r l (raw_buf_ptr l + (2 + k)) 0) eqn:Hn.
  { eapply undo_fetch_ok; [done..|]. lia. }
  destruct (needs_refill_false _ _ _ _ _ Hw Hn) as [-> Hl].
  change (peek rest (2 + k)) with (peek rest2 k).
  unfold marker_end in HR. destruct (negb (peek rest2 k =? ch_cr) && negb (peek rest2 k =? ch_nl)) eqn:Hc.
  - destruct (csv_mode o); [by apply not_marker_ok|done].
  - case_match; [done|]. subst R. unfold marker_outcome. rewrite drop_drop.
    replace (raw_buf_ptr l + (2 + k) + 1)%nat with (raw_buf_ptr l + (3 + k))%nat by lia.
    apply (end_of_copy_ok _ _ _ _ (3 + k) Hw).
    assert (k < length rest2)%nat; [|simpl in Hl; lia].
    apply andb_false_iff in Hc. rewrite !negb_false_iff, !Z.eqb_eq in Hc. unfold peek in Hc.
    destruct (rest2 !! k) eqn:E; [by eapply lookup_lt_Some|]. destruct Hc; done.
Qed.

Lemma process_dot_ok :
  R = marker_outcome (marker_of (eol_type r) rest2) acc (ch_dot :: rest2) (flags l) (eol_type r) (cur_lineno r) ->
  step_ok R r l acc rest (process_dot r l ch_backslash (raw_buf_ptr l) (raw_buf_ptr l + 2)).
Proof.
  intros HR. unfold process_dot. unfold marker_of in HR. case_decide as He.
  - destruct (needs_refill r l (raw_buf_ptr l + 2) 0) eqn:Hn.
    { eapply undo_fetch_ok; [done..|]. lia. }
    destruct (needs_refill_false _ _ _ _ _ Hw Hn) as [-> Hl].
    change (peek rest 2) with (peek rest2 0).
    destruct (peek rest2 0 =? ch_nl); [destruct (csv_mode o); [by apply not_marker_ok|done]|].
    destruct (negb (peek rest2 0 =? ch_cr)); [destruct (csv_mode o); [by apply not_marker_ok|done]|].
    replace (raw_buf_ptr l + 2 + 1)%nat with (raw_buf_ptr l + (2 + 1))%nat by lia.
    apply process_dot_end_ok; [lia|done].
  - apply (process_dot_end_ok 0); [lia|done].
Qed.
End marker.

Lemma process_backslash_ok R r l acc rest1 :
  win r (raw_buf_ptr l) (hit_eof l) acc (ch_backslash :: rest1) -> need_data l = false ->
  (raw_buf_ptr l < length (raw_buf r))%nat ->
  undo_ok R r l acc (ch_backslash :: rest1) ->
  R = (if decide (rest1 = [])
       then Ok {| l_done := true; l_line := acc ++ [ch_backslash]; l_rest := []; l_eol := eol_type r; l_lineno := cur_lineno r |}
       else if peek rest1 0 =? ch_dot
       then marker_outcome (marker_of (eol_type r) (drop 1 rest1)) acc rest1 (flags l) (eol_type r) (cur_lineno r)
       else ref_line (acc ++ [ch_backslash]) rest1 (if csv_mode o then 0 else 1) false (flags l) (eol_type r) (cur_lineno r)) ->
  step_ok R r l acc (ch_backslash :: rest1)
    (process_backslash r l ch_backslash (raw_buf_ptr l) (raw_buf_ptr l + 1)).
Proof.
  intros Hw Hnd Hlt Hu HR. unfold process_backslash.
  destruct (needs_refill r l (raw_buf_ptr l + 1) 0) eqn:Hn.
  { eapply undo_fetch_ok; [done..|]. lia. }
  destruct (needs_refill_false _ _ _ _ _ Hw Hn) as [-> Hl].
  change (peek (ch_backslash :: rest1) 1) with (peek rest1 0).
  pose proof (win_advance _ _ _ _ _ 1 Hw ltac:(lia)) as Hw1. cbn [take drop] in Hw1.
  rewrite take_0 in Hw1.
  destruct rest1 as [|d rest2].
  - rewrite bool_decide_eq_true_2 by (apply Hl; simpl; lia). rewrite decide_True in HR by done.
    subst R. eexists. split; [done|]. by eapply win_final.
  - rewrite bool_decide_eq_false_2 by (rewrite Hl; simpl; lia). rewrite decide_False in HR by done.
    cbn in Hl. change (peek (d :: rest2) 0) with d in *. destruct (Z.eqb_spec d ch_dot) as [->|Hd].
    + replace (raw_buf_ptr l + 1 + 1)%nat with (raw_buf_ptr l + 2)%nat by lia.
      apply process_dot_ok; try done. lia.
    + destruct (csv_mode o).
      * apply not_end_of_copy_ok; [done..|lia|lia|done|]. unfold mb_extra. by rewrite andb_false_r.
      * rewrite <- Nat.add_assoc. apply not_end_of_copy_ok; [done..|lia|lia|done|].
        unfold mb_extra. rewrite andb_false_r. rewrite HR. cbn [ref_line take drop].
        by rewrite <- app_assoc.
Qed.

Lemma ref_lineno_id c fl eol ln : c <> ch_cr -> c <> ch_nl -> ref_lineno c fl eol ln = ln.
Proof.
  intros H1 H2. unfold ref_lineno. case_decide; [rewrite (proj2 (Z.eqb_neq _ _) H2)|rewrite (proj2 (Z.eqb_neq _ _) H1)];
    by rewrite andb_false_r.
Qed.

(** Fetching a character again after a load does not change the outcome. *)
Lemma ref_line_again acc c rest1 first fl eol ln :
  c <> ch_cr -> c <> ch_nl -> ref_flags c (ref_flags c fl) = ref_flags c fl ->
  ref_line acc (c :: rest1) 0 first (ref_flags c fl) eol ln = ref_line acc (c :: rest1) 0 first fl eol ln.
Proof. intros H1 H2 H. cbn [ref_line]. by rewrite H, !ref_lineno_id. Qed.

Lemma quotec_of_csv : csv_mode o = true -> quotec_of = quote o.
Proof. unfold quotec_of. by intros ->. Qed.

Lemma ref_flags_highbit c fl :
  IS_HIGHBIT_SET c = true ->
  ref_flags c (ref_flags c fl) = ref_flags c fl /\ in_quote (ref_flags c fl) = in_quote fl.
Proof.
  intros Hc. unfold ref_flags. destruct (csv_mode o) eqn:Hm; [|done].
  assert (c <> quotec_of).
  { rewrite quotec_of_csv by done. intros ->. by rewrite (quote_ascii Ho Hm) in Hc. }
  split.
  - apply csv_update_idem; [done|]. unfold escapec_of. rewrite Hm. case_match; intros ->; [done|].
    by rewrite (escape_ascii Ho Hm) in Hc.
  - unfold csv_update. cbn [in_quote]. by rewrite (proj2 (Z.eqb_neq _ _) H).
Qed.

Lemma ref_flags_backslash fl :
  csv_mode o = false \/ in_quote fl = false ->
  ref_flags ch_backslash (ref_flags ch_backslash fl) = ref_flags ch_backslash fl /\
  (csv_mode o = false \/ in_quote (ref_flags ch_backslash fl) = false).
Proof.
  intros Hf. unfold ref_flags. destruct (csv_mode o) eqn:Hm; [|auto].
  destruct Hf as [|Hf]; [done|].
  assert (ch_backslash <> quotec_of).
  { rewrite quotec_of_csv by done. intros E. by apply (quote_not_backslash Ho Hm). }
  split; [by apply csv_update_idem|right]. unfold csv_update. cbn [in_quote].
  by rewrite (proj2 (Z.eqb_neq _ _) H), Hf.
Qed.

Lemma process_char_ok r l acc rest :
  sim r l acc rest -> need_data l = false -> (raw_buf_ptr l < length (raw_buf r))%nat ->
  step_ok (ref_of r l acc rest) r l acc rest (process_char r l).
Proof.
  intros [Hw _ Hfirst] Hnd Hlt.
  assert (exists c rest1, rest = c :: rest1 /\ raw_at r (raw_buf_ptr l) = c) as (c & rest1 & -> & Hc).
  { destruct (drop (raw_buf_ptr l) (raw_buf r)) as [|c t] eqn:Hd.
    - apply (f_equal length) in Hd. rewrite length_drop in Hd. simpl in Hd. lia.
    - exists c. rewrite <- (win_rest _ _ _ _ _ Hw), Hd. eexists. split; [done|].
      unfold raw_at. rewrite <- (Nat.add_0_r (raw_buf_ptr l)), <- lookup_drop, Hd. done. }
  unfold process_char. rewrite Hc. set (R := ref_of r l acc (c :: rest1)).
  destruct (csv_mode o && ((c =? ch_backslash) || (c =? ch_cr)) && needs_refill r l (raw_buf_ptr l + 1) 0) eqn:Hpre.
  { apply andb_true_iff in Hpre as [_ Hn]. eapply undo_fetch_ok; [done| |done|lia]. done. }
  set (l1 := if csv_mode o then set_flags l (csv_update c (flags l)) else l).
  set (r1 := if csv_mode o && in_quote (flags l1) && (c =? (if decide (eol_type r = EOL_NL) then ch_nl else ch_cr))
             then incr_lineno r else r).
  assert (Hl1 : flags l1 = ref_flags c (flags l) /\ raw_buf_ptr l1 = raw_buf_ptr l /\ hit_eof l1 = hit_eof l /\
    need_data l1 = false /\ first_char_in_line l1 = first_char_in_line l)
    by (unfold l1, ref_flags; destruct (csv_mode o); done).
  destruct Hl1 as (Hfl & Hp & He & Hnd1 & Hfi).
  assert (Hr1 : win r1 (raw_buf_ptr l1) (hit_eof l1) acc (c :: rest1) /\ eol_type r1 = eol_type r /\
    cur_lineno r1 = ref_lineno c (flags l1) (eol_type r) (cur_lineno r) /\ raw_buf r1 = raw_buf r /\
    copy_file r1 = copy_file r).
  { rewrite Hp, He. unfold r1, ref_lineno. destruct (csv_mode o && in_quote (flags l1) && _); split_and!; try done.
    destruct Hw. by constructor. }
  destruct Hr1 as (Hw1 & Heol & Hln & Hraw & Hcf).
  assert (Hext : forall x, step_ok R r1 l1 acc (c :: rest1) x -> step_ok R r l acc (c :: rest1) x).
  { intros [[]|]; unfold step_ok; rewrite ?Hp, ?He, ?Hraw, ?Hcf; done. }
  apply Hext. clear Hext. rewrite <- Hp. rewrite <- Hp, <- Hraw in Hlt.
  assert (Hagain : c <> ch_cr -> c <> ch_nl -> ref_flags c (ref_flags c (flags l)) = ref_flags c (flags l) ->
    ref_of r1 l1 acc (c :: rest1) = R).
  { intros H1 H2 H3. unfold ref_of. rewrite Hfl, Hfi, Heol, Hln, ref_lineno_id by done. by apply ref_line_again. }
  assert (HR : R = ref_line acc (c :: rest1) 0 (first_char_in_line l) (flags l) (eol_type r) (cur_lineno r)) by done.
  cbn [ref_line] in HR. rewrite <- Hfl, <- Hln, <- Heol, <- Hfi in HR.
  destruct ((c =? ch_cr) && (negb (csv_mode o) || negb (in_quote (flags l1)))) eqn:Hcr.
  { apply andb_true_iff in Hcr as [->%Z.eqb_eq Hout]. rewrite HR. apply process_cr_ok; [done..|].
    intros Hn. destruct (csv_mode o) eqn:Hm.
    - exfalso. assert (needs_refill r l (raw_buf_ptr l + 1) 0 = true) as Hn'.
      { unfold needs_refill in *. by rewrite <- Hraw, <- He, <- Hp. }
      rewrite Hn' in Hpre. done.
    - rewrite <- HR. unfold l1, r1, l1. cbn. split; [|done]. done. }
  destruct ((c =? ch_nl) && (negb (csv_mode o) || negb (in_quote (flags l1)))) eqn:Hnl.
  { apply andb_true_iff in Hnl as [->%Z.eqb_eq Hout]. rewrite HR. by apply process_nl_ok. }
  destruct ((c =? ch_backslash) && (negb (csv_mode o) || first_char_in_line l1)) eqn:Hbs.
  { apply andb_true_iff in Hbs as [->%Z.eqb_eq Hout].
    destruct (ref_flags_backslash (flags l)) as [Hid Hq].
    { destruct (csv_mode o); [|auto]. right. apply Hfirst. by rewrite <- Hfi. }
    apply process_backslash_ok; [done..| |].
    - split; [by apply Hagain|]. rewrite Hfl, Hfi. intros Hf. destruct Hq as [Hq|Hq]; [|done].
      unfold ref_flags. rewrite Hq. auto.
    - rewrite HR. by repeat case_decide. }
  apply not_end_of_copy_ok; [done..|lia|lia| |by rewrite HR].
  intros Hh. destruct (ref_flags_highbit c (flags l) Hh) as [Hid Hq].
  split; [done|]. split.
  - apply Hagain; [intros ->; done..|done].
  - rewrite Hfl, Hfi, Hq. done.
Qed.

(** ** Termination and the refinement

    A turn takes a byte, or asks for data that it did not have; a load brings
    bytes and then the end of the file. *)
Definition rank (eof : bool) (file : list Z) : nat :=
  if eof then 0 else if decide (file = []) then 1 else 2.
Definition measure r l (rest : list Z) : nat :=
  2 * length rest + rank (hit_eof l) (file_rest (copy_file r)) + (if need_data l then 0 else 1).

Lemma rank_le eof file eof' file' :
  (eof = true -> eof' = true) -> (file = [] -> file' = []) -> (rank eof' file' <= rank eof file)%nat.
Proof.
  intros H1 H2. unfold rank. destruct eof'; [lia|]. destruct eof; [naive_solver|].
  repeat case_decide; naive_solver lia.
Qed.

Lemma loop_body_ok r l acc rest :
  sim r l acc rest ->
  match loop_body r l with
  | Fail e => ref_of r l acc rest = Fail e
  | Ok (Break r' l' res) => exists a, ref_of r l acc rest = Ok a /\ final r' (raw_buf_ptr l') res a
  | Ok (Next r' l') => exists acc' rest', sim r' l' acc' rest' /\
      ref_of r' l' acc' rest' = ref_of r l acc rest /\ (measure r' l' rest' < measure r l rest)%nat
  end.
Proof.
  intros Hsim. unfold loop_body.
  destruct (bool_decide (length (raw_buf r) <= raw_buf_ptr l)%nat || need_data l) eqn:Hload.
  - assert (Hroom : (length (raw_buf r) - raw_buf_ptr l < RAW_BUF_SIZE)%nat).
    { apply orb_true_iff in Hload as [H%bool_decide_eq_true|H]; [lia|by apply Hsim]. }
    destruct (load_win _ _ _ _ _ (sim_win _ _ _ _ Hsim) Hroom)
      as (r2 & got & -> & Hw2 & He & Hln & Hi & Hgot & Hfull & Hmono).
    cbn [mbind result_bind hit_eof]. destruct (decide (raw_buf r2 = [])) as [Hraw|Hraw].
    + assert (rest = []) as ->.
      { rewrite <- (win_rest _ _ _ _ _ Hw2), Hraw, drop_nil. destruct Hfull as [->|Hf]; [done|].
        rewrite Hraw in Hf. simpl in Hf. lia. }
      exists {| l_done := true; l_line := acc; l_rest := []; l_eol := eol_type r2; l_lineno := cur_lineno r2 |}.
      split; [unfold ref_of; cbn; by rewrite He, Hln|]. by eapply (win_final r2 l 0); [apply Hw2|..].
    + set (l2 := {| raw_buf_ptr := 0; need_data := false; hit_eof := hit_eof l || negb got;
                    first_char_in_line := first_char_in_line l; flags := flags l |}).
      assert (Hs2 : sim r2 l2 acc rest) by (constructor; [done..|]; apply Hsim).
      assert (0 < length (raw_buf r2))%nat by (destruct (raw_buf r2); [done|simpl; lia]).
      pose proof (process_char_ok r2 l2 acc rest Hs2 eq_refl H) as Hstep.
      assert (ref_of r2 l2 acc rest = ref_of r l acc rest) as HR by (unfold ref_of; cbn; by rewrite He, Hln).
      rewrite HR in Hstep. fold l2.
      destruct (process_char r2 l2) as [[r' l'|r' l' res]|e]; unfold step_ok in Hstep; [|exact Hstep..].
      destruct Hstep as (Hcf & Heof & acc' & rest' & Hs' & HR' & Hnd). exists acc', rest'.
      split_and!; [done..|]. unfold measure. rewrite Heof, Hcf. cbn [hit_eof l2] in *.
      pose proof (rank_le (hit_eof l) (file_rest (copy_file r)) (hit_eof l || negb got)
        (file_rest (copy_file r2)) ltac:(by intros ->) Hmono).
      destruct (need_data l'); [|destruct (need_data l); lia].
      destruct Hnd as (-> & [Heq Hg]%orb_false_iff & Hshort). apply negb_false_iff in Hg. cbn in Hshort.
      specialize (Hgot Hg). rewrite Heq, Hg in *. destruct Hfull as [Hf|]; [|lia].
      rewrite Hf. unfold rank. rewrite (decide_False (P := file_rest (copy_file r) = [])) by done.
      rewrite decide_True by done. cbn [orb negb]. destruct (need_data l); lia.
  - apply orb_false_iff in Hload as [Hp%bool_decide_eq_false Hnd].
    pose proof (process_char_ok r l acc rest Hsim Hnd ltac:(lia)) as Hstep.
    destruct (process_char r l) as [[r' l'|r' l' res]|e]; [|done..].
    destruct Hstep as (Hcf & Heof & acc' & rest' & Hs' & HR' & Hnd'). exists acc', rest'.
    split_and!; [done..|]. unfold measure. rewrite Heof, Hcf, Hnd.
    destruct (need_data l'); [destruct Hnd' as [-> _]|]; lia.
Qed.

Lemma read_loop_ok fuel r l acc rest :
  sim r l acc rest -> (measure r l rest < fuel)%nat ->
  match ref_of r l acc rest with
  | Fail e => read_loop fuel r l = Fail e
  | Ok a => exists r', read_loop fuel r l = Ok (r', l_done a) /\
      line_buf r' = l_line a /\ reader_rest r' = l_rest a /\ eol_type r' = l_eol a /\
      cur_lineno r' = l_lineno a /\
      (raw_buf_index r' <= length (raw_buf r') <= RAW_BUF_SIZE)%nat /\ settled (copy_file r') /\
      eolCache (copy_file r') = ec
  end.
Proof.
  revert r l acc rest. induction fuel as [|fuel IH]; intros r l acc rest Hsim Hm; [lia|].
  cbn [read_loop]. pose proof (loop_body_ok _ _ _ _ Hsim) as Hb.
  destruct (loop_body r l) as [[r' l'|r' l' res]|e]; cbn [mbind result_bind].
  - destruct Hb as (acc' & rest' & Hs' & HR & Hm'). rewrite <- HR. apply IH; [done|lia].
  - destruct Hb as (a & -> & <- & Hf). eauto.
  - by rewrite Hb.
Qed.

(** A reader between two lines. *)
Record reader_ok r : Prop := {
  rok_idx : (raw_buf_index r <= length (raw_buf r) <= RAW_BUF_SIZE)%nat;
  rok_settled : settled (copy_file r) }.

Definition ref_read r : result line_result :=
  ref_line (line_buf r) (reader_rest r) 0 true {| in_quote := false; last_was_esc := false |}
    (eol_type r) (cur_lineno r).

Lemma NoDBCopyReadLineText_ref r :
  reader_ok r -> eolCache (copy_file r) = ec ->
  match ref_read r with
  | Fail e => NoDBCopyReadLineText r = Fail e
  | Ok a => exists r', NoDBCopyReadLineText r = Ok (r', l_done a) /\
      line_buf r' = l_line a /\ reader_rest r' = l_rest a /\ eol_type r' = l_eol a /\
      cur_lineno r' = l_lineno a /\ reader_ok r' /\ eolCache (copy_file r') = ec
  end.
Proof.
  intros [Hi Hs] Hec. unfold ref_read, NoDBCopyReadLineText.
  assert (Hsim : sim r (init_locals r) (line_buf r) (reader_rest r)).
  { constructor; [|done..]. constructor; cbn; try done; try lia. by rewrite Nat.sub_diag, take_0, app_nil_r. }
  set (fuel := (_ + 4)%nat).
  assert (Hf : (measure r (init_locals r) (reader_rest r) < fuel)%nat).
  { unfold measure, rank, reader_rest, file_rest. cbn. rewrite length_app, !length_drop.
    subst fuel. case_decide; lia. }
  pose proof (read_loop_ok fuel _ _ _ _ Hsim Hf) as H. unfold ref_of in H.
  cbn [init_locals flags first_char_in_line] in H.
  destruct (ref_line _ _ _ _ _ _ _) as [a|e]; [|done].
  destruct H as (r' & -> & ? & ? & ? & ? & ? & ? & ?). exists r'. split_and!; try done.
Qed.
End refinement.

(** ** Lines that are data

    [clean_line] holds of the bytes of a line with no unquoted terminator, no
    end-of-copy marker and balanced quotes. *)
Fixpoint clean_line (body : list Z) (skip : nat) (first : bool) fl : bool :=
  match body, skip with
  | [], S _ => false
  | [], O => negb (csv_mode o) || negb (in_quote fl)
  | c :: body', S k => clean_line body' k first fl
  | c :: body', O =>
      let fl1 := ref_flags c fl in
      let outside := negb (csv_mode o) || negb (in_quote fl1) in
      negb (((c =? ch_cr) || (c =? ch_nl)) && outside) &&
      if (c =? ch_backslash) && (negb (csv_mode o) || first)
      then negb (peek body' 0 =? ch_dot) && clean_line body' (if csv_mode o then 0 else 1) false fl1
      else clean_line body' (mb_extra c) false fl1
  end.

Lemma peek_app_nl body rest : peek (body ++ ch_nl :: rest) 0 = if decide (body = []) then ch_nl else peek body 0.
Proof. by destruct body. Qed.

Lemma ref_line_clean body acc rest skip first fl eol ln :
  (csv_mode o = true -> quote o <> ch_nl) -> eol = EOL_UNKNOWN \/ eol = EOL_NL ->
  clean_line body skip first fl = true ->
  exists ln', ref_line acc (body ++ ch_nl :: rest) skip first fl eol ln =
    Ok {| l_done := false; l_line := acc ++ body ++ [ch_nl]; l_rest := rest; l_eol := EOL_NL; l_lineno := ln' |}.
Proof.
  intros Hq He. revert acc skip first fl ln.
  induction body as [|c body IH]; intros acc skip first fl ln Hc; destruct skip as [|k]; cbn [clean_line] in Hc; try done.
  - cbn [app ref_line]. change (ch_nl =? ch_cr) with false. change (ch_nl =? ch_nl) with true. cbn [andb].
    assert (negb (csv_mode o) || negb (in_quote (ref_flags ch_nl fl)) = true) as ->.
    { unfold ref_flags. destruct (csv_mode o) eqn:Hm; [|done]. cbn [negb orb] in *. unfold csv_update. cbn [in_quote].
      rewrite quotec_of_csv by done. rewrite (proj2 (Z.eqb_neq _ _)) by (intros E; by apply Hq). done. }
    unfold ref_nl. destruct He as [-> | ->]; eauto.
  - cbn [app ref_line].
    set (fl1 := ref_flags c fl) in *. set (out := negb (csv_mode o) || negb (in_quote fl1)) in *.
    apply andb_true_iff in Hc as [Hc1 Hc2]. apply negb_true_iff in Hc1.
    rewrite andb_orb_distrib_l in Hc1. apply orb_false_iff in Hc1 as [-> ->].
    destruct ((c =? ch_backslash) && (negb (csv_mode o) || first)).
    + apply andb_true_iff in Hc2 as [Hd Hc2]. apply negb_true_iff in Hd.
      rewrite decide_False by (destruct body; done). rewrite peek_app_nl.
      assert ((if decide (body = []) then ch_nl else peek body 0) =? ch_dot = false) as -> by (case_decide; done).
      destruct (IH (acc ++ [c]) _ _ _ (ref_lineno c fl1 eol ln) Hc2) as [ln' E]. rewrite E.
      exists ln'. by rewrite <- app_assoc.
    + destruct (IH (acc ++ [c]) _ _ _ (ref_lineno c fl1 eol ln) Hc2) as [ln' E]. rewrite E.
      exists ln'. by rewrite <- app_assoc.
  - cbn [app ref_line]. destruct (IH (acc ++ [c]) _ _ _ ln Hc) as [ln' E]. rewrite E.
    exists ln'. by rewrite <- app_assoc.
Qed.

(** [open_line] holds of bytes in which no line ends: no unquoted terminator and no
    end-of-copy marker. *)
Fixpoint open_line (body : list Z) (skip : nat) (first : bool) fl : bool :=
  match body, skip with
  | [], _ => true
  | c :: body', S k => open_line body' k first fl
  | c :: body', O =>
      let fl1 := ref_flags c fl in
      let outside := negb (csv_mode o) || negb (in_quote fl1) in
      negb (((c =? ch_cr) || (c =? ch_nl)) && outside) &&
      if (c =? ch_backslash) && (negb (csv_mode o) || first)
      then negb (peek body' 0 =? ch_dot) && open_line body' (if csv_mode o then 0 else 1) false fl1
      else open_line body' (mb_extra c) false fl1
  end.

Lemma ref_line_open body acc skip first fl eol ln :
  open_line body skip first fl = true ->
  exists ln', ref_line acc body skip first fl eol ln =
    Ok {| l_done := true; l_line := acc ++ body; l_rest := []; l_eol := eol; l_lineno := ln' |}.
Proof.
  revert acc skip first fl ln.
  induction body as [|c body IH]; intros acc skip first fl ln Hc; [rewrite app_nil_r; eexists; by destruct skip|].
  replace (acc ++ c :: body) with ((acc ++ [c]) ++ body) by (by rewrite <- app_assoc).
  destruct skip as [|k]; cbn [open_line] in Hc; cbn [ref_line]; [|by apply IH].
  set (fl1 := ref_flags c fl) in *. set (out := negb (csv_mode o) || negb (in_quote fl1)) in *.
  apply andb_true_iff in Hc as [Hc1 Hc2]. apply negb_true_iff in Hc1.
  rewrite andb_orb_distrib_l in Hc1. apply orb_false_iff in Hc1 as [-> ->].
  destruct ((c =? ch_backslash) && (negb (csv_mode o) || first)); [|by apply IH].
  apply andb_true_iff in Hc2 as [Hd Hc2]. apply negb_true_iff in Hd. rewrite Hd.
  case_decide as Hb; [subst body; rewrite app_nil_r; eauto|by apply IH].
Qed.

(** ** The header line *)
Definition past_header src (i : nat) : source :=
  {| contents := contents src; pos := i; read_header := true;
     eolCache := NoDBCacheSetHeaderSize (eolCache src) (Z.of_nat i) |}.
Definition at_header src : Prop :=
  header_line o = true /\ read_header src = false /\ pos src = 0%nat.

Lemma header_scan_found fuel (temp : arr Z) (h : list Z) i :
  (length h < fuel)%nat -> ch_nl ∉ h -> 0 <= i ->
  (forall k x, (h ++ [ch_nl]) !! k = Some x -> arr_get temp (i + Z.of_nat k) = Ok x) ->
  header_scan fuel temp i = Ok (i + Z.of_nat (length h) + 1).
Proof.
  revert fuel i. induction h as [|c h IH]; intros fuel i Hf Hh Hi Ht;
    (destruct fuel as [|fuel]; [simpl in Hf; lia|]); cbn [header_scan].
  - assert (arr_get temp i = Ok ch_nl) as -> by (rewrite <- (Ht 0%nat ch_nl eq_refl); f_equal; lia). cbn. f_equal. lia.
  - apply not_elem_of_cons in Hh as [Hc Hh].
    assert (arr_get temp i = Ok c) as -> by (rewrite <- (Ht 0%nat c eq_refl); f_equal; lia). cbn [mbind result_bind].
    rewrite (proj2 (Z.eqb_neq _ _)) by done. rewrite IH; [cbn; f_equal; lia|simpl in Hf; lia|done|lia|].
    intros k x Hk. rewrite <- (Ht (S k) x) by done. f_equal. lia.
Qed.

Lemma header_scan_lost fuel (temp : arr Z) (bytes : list Z) i e :
  (length bytes < fuel)%nat -> ch_nl ∉ bytes -> 0 <= i ->
  (forall k x, bytes !! k = Some x -> arr_get temp (i + Z.of_nat k) = Ok x) ->
  arr_get temp (i + Z.of_nat (length bytes)) = Fail e ->
  header_scan fuel temp i = Fail e.
Proof.
  revert fuel i. induction bytes as [|c h IH]; intros fuel i Hf Hh Hi Ht He;
    (destruct fuel as [|fuel]; [simpl in Hf; lia|]); cbn [header_scan].
  - simpl in He. rewrite Z.add_0_r in He. by rewrite He.
  - apply not_elem_of_cons in Hh as [Hc Hh].
    assert (arr_get temp i = Ok c) as -> by (rewrite <- (Ht 0%nat c eq_refl); f_equal; lia). cbn [mbind result_bind].
    rewrite (proj2 (Z.eqb_neq _ _)) by done. apply IH; [simpl in Hf; lia|done|lia| |].
    + intros k x Hk. rewrite <- (Ht (S k) x) by done. f_equal. lia.
    + rewrite <- He. f_equal. simpl. lia.
Qed.

(** The temporary buffer: the bytes read, then cells that were never written. *)
Lemma temp_get (bytes : list Z) (k i : nat) x :
  bytes !! i = Some x -> arr_get ((Some <$> bytes) ++ replicate k None) (0 + Z.of_nat i) = Ok x.
Proof.
  intros H. apply arr_get_lookup. split; [lia|]. rewrite Z.add_0_l, Nat2Z.id.
  rewrite lookup_app_l by (rewrite length_fmap; by eapply lookup_lt_Some).
  by rewrite list_lookup_fmap, H.
Qed.

Lemma temp_end (bytes : list Z) (k : nat) :
  arr_get ((Some <$> bytes) ++ replicate k None) (0 + Z.of_nat (length bytes))
  = Fail (if decide (k = 0)%nat then OutOfBounds else Indeterminate).
Proof.
  unfold arr_get. rewrite (proj2 (Z.leb_le _ _)) by lia. rewrite Z.add_0_l, Nat2Z.id.
  rewrite lookup_app_r, length_fmap, Nat.sub_diag by (rewrite length_fmap; lia).
  destruct k; done.
Qed.

Lemma NoDBCopyGetData_header n src h body :
  at_header src -> contents src = h ++ ch_nl :: body -> ch_nl ∉ h -> (length h < n)%nat ->
  NoDBCopyGetData n src = NoDBCopyGetData n (past_header src (S (length h))).
Proof.
  intros (Hh & Hr & Hp) Hc Hn Hl. unfold NoDBCopyGetData at 1. rewrite Hh, Hr. cbn [negb andb].
  unfold fread at 1. rewrite Hp, drop_0, Hc.
  assert (take n (h ++ ch_nl :: body) = (h ++ [ch_nl]) ++ take (n - length h - 1) body) as ->.
  { rewrite take_app_ge by lia. destruct (n - length h)%nat as [|m] eqn:E; [lia|]. cbn [take].
    rewrite <- app_assoc. cbn. by rewrite Nat.sub_0_r. }
  rewrite decide_False by (destruct h; done).
  erewrite (header_scan_found _ _ h 0); [|lia|done|lia|].
  2: { intros k x Hk. apply temp_get. by apply lookup_app_l_Some. }
  cbn [mbind result_bind]. unfold NoDBCopyGetData, past_header. cbn [read_header negb].
  rewrite andb_false_r. unfold fread. cbn [pos contents eolCache read_header]. rewrite Hc.
  replace (Z.to_nat (0 + Z.of_nat (length h) + 1)) with (S (length h)) by lia.
  replace (0 + Z.of_nat (length h) + 1) with (Z.of_nat (S (length h))) by lia. done.
Qed.

Lemma read_clean_line r body rest :
  (4 < RAW_BUF_SIZE)%nat -> opts_ok -> (csv_mode o = true -> quote o <> ch_nl) -> reader_ok r ->
  eolCache (copy_file r) = ec -> line_buf r = [] ->
  eol_type r = EOL_UNKNOWN \/ eol_type r = EOL_NL ->
  clean_line body 0 true {| in_quote := false; last_was_esc := false |} = true ->
  reader_rest r = body ++ ch_nl :: rest ->
  exists r', NoDBCopyReadLineText r = Ok (r', false) /\ line_buf r' = body ++ [ch_nl] /\
    reader_rest r' = rest /\ eol_type r' = EOL_NL /\ reader_ok r' /\ eolCache (copy_file r') = ec.
Proof.
  intros HB Ho Hq Hok Hec Hl He Hc Hr. pose proof (NoDBCopyReadLineText_ref HB Ho r Hok Hec) as H.
  unfold ref_read in H. rewrite Hr, Hl in H.
  destruct (ref_line_clean body [] rest 0 true _ _ (cur_lineno r) Hq He Hc) as [ln' E].
  rewrite E in H. destruct H as (r' & ? & ? & ? & ? & ? & ? & ?). eauto 12.
Qed.

(** The bytes after the last terminator are taken, and the file is at its end. *)
Lemma read_open_line r body :
  (4 < RAW_BUF_SIZE)%nat -> opts_ok -> reader_ok r -> eolCache (copy_file r) = ec -> line_buf r = [] ->
  open_line body 0 true {| in_quote := false; last_was_esc := false |} = true -> reader_rest r = body ->
  exists r', NoDBCopyReadLineText r = Ok (r', true) /\ reader_rest r' = [] /\ eol_type r' = eol_type r /\
    reader_ok r' /\ eolCache (copy_file r') = ec.
Proof.
  intros HB Ho Hok Hec Hl Hc Hr. pose proof (NoDBCopyReadLineText_ref HB Ho r Hok Hec) as H.
  unfold ref_read in H. rewrite Hr, Hl in H.
  destruct (ref_line_open body [] 0 true _ (eol_type r) (cur_lineno r) Hc) as [ln' E].
  rewrite E in H. destruct H as (r' & ? & ? & ? & ? & ? & ? & ?). eauto 12.
Qed.

(** The first load of a file with a header begins after it. *)
Lemma first_load r n :
  raw_buf r = [] -> raw_buf_index r = 0%nat ->
  NoDBCopyGetData RAW_BUF_SIZE (copy_file r) = NoDBCopyGetData RAW_BUF_SIZE n ->
  contents n = contents (copy_file r) ->
  NoDBCopyReadLineText r =
  NoDBCopyReadLineText {| raw_buf := []; raw_buf_index := 0; line_buf := line_buf r; copy_file := n;
    eol_type := eol_type r; cur_lineno := cur_lineno r |}.
Proof.
  destruct r as [raw idx line src eol ln]. cbn [raw_buf raw_buf_index copy_file line_buf eol_type cur_lineno].
  intros -> -> Hg Hc. unfold NoDBCopyReadLineText. cbn [raw_buf copy_file]. rewrite Hc.
  rewrite <- Nat.add_succ_comm. cbn [read_loop Nat.add]. f_equal.
  unfold loop_body. cbn [raw_buf raw_buf_ptr init_locals raw_buf_index length Nat.leb].
  cbn [bool_decide orb decide]. unfold REFILL_LINEBUF. cbn [raw_buf_index].
  rewrite !decide_False by lia. unfold NoDBCopyLoadRawBuf.
  cbn [raw_buf raw_buf_index drop length copy_file line_buf eol_type cur_lineno].
  rewrite Nat.sub_0_r, Hg. done.
Qed.
End reader.

(** * Properties *)

(** C25 Buffering is invisible: [NoDBCopyReadLineText] returns, for every buffer
    size above the longest look-ahead and every state between two lines, the
    line, the remaining bytes, the newline style and the line count (or the
    error) that the unbuffered reader finds in the bytes left in the buffer and
    in the file; it always terminates. *)
Theorem NoDBCopyReadLineText_refines (size : nat) (o : line_opts) (r : reader) :
  (4 < size)%nat -> opts_ok o -> reader_ok size o r ->
  match ref_read o r with
  | Fail e => NoDBCopyReadLineText size o r = Fail e
  | Ok a => exists r', NoDBCopyReadLineText size o r = Ok (r', l_done a) /\
      line_buf r' = l_line a /\ reader_rest r' = l_rest a /\ eol_type r' = l_eol a /\
      cur_lineno r' = l_lineno a /\ reader_ok size o r' /\
      eolCache (copy_file r') = eolCache (copy_file r)
  end.
Proof. intros. by apply NoDBCopyReadLineText_ref. Qed.

(** The first line read from a file with a header line is the line after the
    header, for a header that ends inside the first buffer load; the size of the
    header is recorded in the end-of-line cache. *)
Theorem NoDBCopyReadLineText_skips_header (size : nat) (o : line_opts) (r : reader) (h body : list Z) :
  raw_buf r = [] -> raw_buf_index r = 0%nat -> at_header o (copy_file r) ->
  contents (copy_file r) = h ++ ch_nl :: body -> ch_nl ∉ h -> (length h < size)%nat ->
  NoDBCopyReadLineText size o r =
  NoDBCopyReadLineText size o {| raw_buf := []; raw_buf_index := 0; line_buf := line_buf r;
    copy_file := past_header (copy_file r) (S (length h));
    eol_type := eol_type r; cur_lineno := cur_lineno r |} /\
  file_rest (past_header (copy_file r) (S (length h))) = body.
Proof.
  intros Hr Hi Hh Hc Hn Hl. split.
  - apply first_load; [done..| |done]. by eapply NoDBCopyGetData_header.
  - unfold file_rest, past_header. cbn [pos contents]. rewrite Hc.
    rewrite (cons_middle ch_nl h body), app_assoc. apply drop_app_length'. rewrite length_app. simpl. lia.
Qed.

(** A header that does not end inside the first load is searched past the
    bytes that were read: past the end of the temporary buffer when the load
    filled it, and otherwise in its part that was never written. *)
Theorem NoDBCopyGetData_header_overrun (size : nat) (o : line_opts) (src : source) :
  at_header o src -> contents src <> [] -> (0 < size)%nat -> ch_nl ∉ take size (contents src) ->
  NoDBCopyGetData o size src =
  Fail (if decide (size <= length (contents src))%nat then OutOfBounds else Indeterminate).
Proof.
  intros (Hh & Hr & Hp) Hc Hs Hn. unfold NoDBCopyGetData. rewrite Hh, Hr. cbn [negb andb].
  unfold fread at 1. rewrite Hp, drop_0.
  rewrite decide_False by (destruct (contents src), size; done || lia).
  erewrite (header_scan_lost _ _ (take size (contents src)) 0);
    [|rewrite length_take; lia|done|lia|intros; by apply temp_get|apply temp_end].
  cbn. rewrite length_take. f_equal. repeat case_decide; done || lia.
Qed.

(** ** Witnesses *)
Definition csv_line_opts (header : bool) : line_opts :=
  {| csv_mode := true; quote := 34; escape := 34; header_line := header;
     encoding_embeds_ascii := true; pg_encoding_mblen := fun c => if c <? 128 then 1 else 2 |}.

Lemma csv_line_opts_ok h : opts_ok (csv_line_opts h).
Proof. constructor; cbn; try done. intros c. destruct (c <? 128); lia. Qed.

Definition cache0 : NoDBCache_t := example_cache.
Definition file_reader (file : list Z) : reader :=
  {| raw_buf := []; raw_buf_index := 0; line_buf := [];
     copy_file := {| contents := file; pos := 0; read_header := false; eolCache := cache0 |};
     eol_type := EOL_UNKNOWN; cur_lineno := 0 |}.

(** A quoted field with a newline inside, read with a buffer of five bytes. *)
Lemma NoDBCopyReadLineText_witness :
  match ref_read (csv_line_opts false) (file_reader [97; 44; 34; 10; 98; 34; 10; 99; 10]) with
  | Fail e => NoDBCopyReadLineText 5 (csv_line_opts false) (file_reader [97; 44; 34; 10; 98; 34; 10; 99; 10]) = Fail e
  | Ok a => exists r', NoDBCopyReadLineText 5 (csv_line_opts false)
        (file_reader [97; 44; 34; 10; 98; 34; 10; 99; 10]) = Ok (r', l_done a) /\
      line_buf r' = l_line a /\ reader_rest r' = l_rest a /\ eol_type r' = l_eol a /\
      cur_lineno r' = l_lineno a /\ reader_ok 5 (csv_line_opts false) r' /\
      eolCache (copy_file r') = cache0
  end.
Proof.
  apply (NoDBCopyReadLineText_refines 5 (csv_line_opts false)); [lia|apply csv_line_opts_ok|].
  constructor; cbn; [lia|done].
Defined.

Lemma skips_header_witness :
  NoDBCopyReadLineText 5 (csv_line_opts true) (file_reader [120; 44; 121; 10; 97; 44; 98; 10]) =
  NoDBCopyReadLineText 5 (csv_line_opts true) {| raw_buf := []; raw_buf_index := 0; line_buf := [];
    copy_file := past_header (copy_file (file_reader [120; 44; 121; 10; 97; 44; 98; 10])) 4;
    eol_type := EOL_UNKNOWN; cur_lineno := 0 |} /\
  file_rest (past_header (copy_file (file_reader [120; 44; 121; 10; 97; 44; 98; 10])) 4) = [97; 44; 98; 10].
Proof.
  apply (NoDBCopyReadLineText_skips_header 5 (csv_line_opts true)
    (file_reader [120; 44; 121; 10; 97; 44; 98; 10]) [120; 44; 121] [97; 44; 98; 10]); try done.
  - set_solver by lia.
  - simpl. lia.
Defined.

Lemma header_overrun_witness :
  NoDBCopyGetData (csv_line_opts true) 5 (copy_file (file_reader [120; 44; 121; 44; 122; 10])) = Fail OutOfBounds.
Proof.
  apply (NoDBCopyGetData_header_overrun 5 (csv_line_opts true)
    (copy_file (file_reader [120; 44; 121; 44; 122; 10]))); [done|done|lia|]. cbn. set_solver by lia.
Defined.
