(* ===== verification/TupleReader.v ===== *)
(** * The next tuple of the file (NoDBExecutor.c)

    [NoDBGetNextTupleFromFile] reads a line with [NoDBCopyReadLineText], drops
    its terminator and records its length in the end-of-line cache;
    [NoDBGetNextTupleFromFileWithEOL] reads the same line again from the
    recorded length, a buffer load of whole lines at a time. The theorems relate
    the two: what the first pass records makes the second pass return the same
    lines, when they end with NL. *)
From S2P Require Import Prelude Cache CacheData EOLCache FieldParser PositionalMap LineReader.

(** The part of [NoDBScanState_t] that reading a tuple uses. *)
Record scan := {
  rd : reader; processed : Z; tupleRead : Z; tupleStored : Z; line_buf_converted : bool }.
Implicit Types (st : scan) (r : reader).

(** [exec_need_transcoding] is [NoDBGetNeedTranscoding(cstate->execInfo)].
    [pg_client_to_server] returns [None] when it returns its argument. *)
Record conv_opts := {
  need_transcoding : bool; exec_need_transcoding : bool;
  pg_client_to_server : list Z -> option (list Z) }.

Definition set_line r (l : list Z) : reader :=
  {| raw_buf := raw_buf r; raw_buf_index := raw_buf_index r; line_buf := l;
     copy_file := copy_file r; eol_type := eol_type r; cur_lineno := cur_lineno r |}.
Definition set_cache r (c : NoDBCache_t) : reader :=
  {| raw_buf := raw_buf r; raw_buf_index := raw_buf_index r; line_buf := line_buf r;
     copy_file := {| contents := contents (copy_file r); pos := pos (copy_file r);
                     read_header := read_header (copy_file r); eolCache := c |};
     eol_type := eol_type r; cur_lineno := cur_lineno r |}.
Definition set_rd st r : scan :=
  {| rd := r; processed := processed st; tupleRead := tupleRead st; tupleStored := tupleStored st;
     line_buf_converted := line_buf_converted st |}.
Definition set_stored st (n : Z) : scan :=
  {| rd := rd st; processed := processed st; tupleRead := tupleRead st; tupleStored := n;
     line_buf_converted := line_buf_converted st |}.
Definition st_cache st : NoDBCache_t := eolCache (copy_file (rd st)).

Section tuple.
Context (RAW_BUF_SIZE : nat) (o : line_opts) (cv : conv_opts).

(** The line in the server's encoding. *)
Definition server_line (l : list Z) : list Z :=
  if need_transcoding cv && negb (exec_need_transcoding cv) then
    match pg_client_to_server cv l with
    | None => l
    | Some cvt => c_string_of cvt
    end
  else l.

Definition convertToServerEncoding st : scan :=
  {| rd := set_line (rd st) (server_line (line_buf (rd st))); processed := processed st;
     tupleRead := tupleRead st; tupleStored := tupleStored st; line_buf_converted := true |}.

(** [line_buf.data[line_buf.len - k]] *)
Definition from_end (l : list Z) (k : nat) : result Z :=
  if decide (k <= length l)%nat then
    match l !! (length l - k)%nat with Some c => Ok c | None => Fail OutOfBounds end
  else Fail OutOfBounds.
Definition last_is (l : list Z) (k : nat) (c : Z) : result unit :=
  d ← from_end l k; c_assert (d =? c).
Definition cut (l : list Z) (k : nat) : list Z := take (length l - k) l.

(** The terminator is dropped and the length with it recorded. *)
Definition drop_terminator st (k : nat) : result scan :=
  let r := rd st in
  let line := cut (line_buf r) k in
  c ← NoDBCacheSetShortInt (st_cache st) 0 (processed st) (Z.of_nat (length line) + Z.of_nat k);
  Ok (set_rd st (set_cache (set_line r line) c)).

Definition NoDBGetNextTupleFromFile st : result (scan * bool) :=
  x ← NoDBCopyReadLineText RAW_BUF_SIZE o (set_line (rd st) []);
  let '(r1, done) := x in
  let st1 := set_rd st r1 in
  if (done : bool) then Ok (st1, true)
  else
    let l := line_buf r1 in
    st2 ← match eol_type r1 with
          | EOL_NL =>
              _ ← c_assert (bool_decide (1 <= length l)%nat); _ ← last_is l 1 ch_nl; drop_terminator st1 1
          | EOL_CR =>
              _ ← c_assert (bool_decide (1 <= length l)%nat); _ ← last_is l 1 ch_cr; drop_terminator st1 1
          | EOL_CRNL =>
              _ ← c_assert (bool_decide (2 <= length l)%nat); _ ← last_is l 2 ch_cr; _ ← last_is l 1 ch_nl;
              drop_terminator st1 2
          | EOL_UNKNOWN => Fail AssertFail
          end;
    let c := NoDBCacheSetUsedRows (st_cache st2) (processed st2 + 1) in
    let st3 := {| rd := set_cache (rd st2) c; processed := processed st2; tupleRead := tupleRead st2 + 1;
                  tupleStored := tupleStored st2; line_buf_converted := false |} in
    Ok (convertToServerEncoding st3, false).

(** [cstate->processed++] after a tuple. *)
Definition next_row st : scan :=
  {| rd := rd st; processed := processed st + 1; tupleRead := tupleRead st;
     tupleStored := tupleStored st; line_buf_converted := line_buf_converted st |}.

(** ** With the recorded line lengths *)

(** The loop counter [i] and the count are [int]s, the total is a [long]; the
    counter is compared with the unsigned number of rows. *)
Fixpoint bytes_loop (fuel : nat) (cache : NoDBCache_t) (i avail result tuplesRead : Z) : Prelude.result (Z * Z) :=
  match fuel with
  | O => Fail OutOfFuel
  | S fuel' =>
      if u64 i <? NoDBCacheGetUsedRows cache then
        v ← NoDBCacheGetShortInt cache 0 (u64 i);
        let result := swrap 64 (result + v) in
        let tuplesRead := i32 (tuplesRead + 1) in
        if avail <? result then
          v' ← NoDBCacheGetShortInt cache 0 (u64 i);
          Ok (swrap 64 (result - v'), i32 (tuplesRead - 1))
        else bytes_loop fuel' cache (i32 (i + 1)) avail result tuplesRead
      else Ok (result, tuplesRead)
  end.

(** A counter that overflows is negative and ends the loop: a turn per row and one
    more are enough. *)
Definition NoDBComputeBytesToRead (cache : NoDBCache_t) (currentTuple availableBytes : Z) : result (Z * Z) :=
  bytes_loop (S (Z.to_nat (NoDBCacheGetUsedRows cache))) cache (i32 currentTuple) availableBytes 0 0.

(** [fread] into [raw_buf], a block of [RAW_BUF_SIZE + 1] bytes. *)
Definition fread_raw (n : Z) src : result (list Z * source) :=
  let '(bytes, src') := fread (Z.to_nat (Z.min (u64 n) (Z.of_nat (length (file_rest src))))) src in
  if decide (length bytes <= RAW_BUF_SIZE + 1)%nat then Ok (bytes, src') else Fail OutOfBounds.

Definition set_source r (raw : list Z) (idx : nat) (src : source) : reader :=
  {| raw_buf := raw; raw_buf_index := idx; line_buf := line_buf r; copy_file := src;
     eol_type := eol_type r; cur_lineno := cur_lineno r |}.

(** The header goes to the start of [raw_buf] and is forgotten. *)
Definition skip_header r : result reader :=
  let src := copy_file r in
  if header_line o && negb (read_header src) then
    headerSize ← NoDBCacheGetHeaderSize (eolCache src);
    x ← fread_raw headerSize src;
    let '(bytes, src') := x in
    Ok (set_source r (take (length (raw_buf r)) (bytes ++ drop (length bytes) (raw_buf r))) (raw_buf_index r)
          {| contents := contents src'; pos := pos src'; read_header := true; eolCache := eolCache src' |})
  else Ok r.

(** The next block of whole lines; [true] when there is none left. *)
Definition load_lines st : result (scan * bool) :=
  if tupleStored st =? 0 then
    r ← skip_header (rd st);
    _ ← c_assert (bool_decide (length (raw_buf r) <= raw_buf_index r)%nat);
    x ← NoDBComputeBytesToRead (eolCache (copy_file r)) (processed st) (Z.of_nat RAW_BUF_SIZE);
    let '(toRead, stored) := x in
    if toRead =? 0 then Ok (set_rd st r, true)
    else
      y ← fread_raw toRead (copy_file r);
      let '(bytes, src') := y in
      _ ← c_assert (toRead =? Z.of_nat (length bytes));
      if decide (length bytes <= RAW_BUF_SIZE)%nat then
        Ok (set_stored (set_rd st (set_source r bytes 0 src')) stored, false)
      else Fail OutOfBounds
  else Ok (st, false).

(** [appendBinaryStringInfo(&line_buf, raw_buf + raw_buf_index, offset)] of bytes
    that were loaded. *)
Definition append_raw r (offset : Z) : result reader :=
  if decide (0 <= offset /\ Z.of_nat (raw_buf_index r) + offset <= Z.of_nat (length (raw_buf r))) then
    let k := Z.to_nat offset in
    Ok {| raw_buf := raw_buf r; raw_buf_index := raw_buf_index r + k;
          line_buf := line_buf r ++ take k (drop (raw_buf_index r) (raw_buf r));
          copy_file := copy_file r; eol_type := eol_type r; cur_lineno := cur_lineno r |}
  else Fail OutOfBounds.

Definition NoDBCopyReadLineTextWithEOL st : result (scan * bool) :=
  x ← load_lines st;
  let '(st1, fin) := x in
  if (fin : bool) then Ok (st1, true)
  else
    offset ← NoDBCacheGetShortInt (st_cache st1) 0 (processed st1);
    r ← append_raw (rd st1) offset;
    Ok (set_rd (set_stored st1 (tupleStored st1 - 1)) r, false).

Definition NoDBGetNextTupleFromFileWithEOL st : result (scan * bool) :=
  x ← NoDBCopyReadLineTextWithEOL (set_rd st (set_line (rd st) []));
  let '(st1, done) := x in
  if (done : bool) then Ok (st1, true)
  else
    let l := line_buf (rd st1) in
    _ ← c_assert (bool_decide (1 <= length l)%nat);
    c ← from_end l 1;
    line ← if c =? ch_nl then Ok (cut l 1)
           else if c =? ch_cr then Ok (cut l 1)
           else if c =? ch_nl then
             d ← from_end l 2;
             if d =? ch_cr then Ok (cut l 2) else Fail AssertFail
           else Fail AssertFail;
    let st2 := set_rd st1 (set_line (rd st1) line) in
    Ok (convertToServerEncoding
          {| rd := rd st2; processed := processed st2; tupleRead := tupleRead st2 + 1;
             tupleStored := tupleStored st2; line_buf_converted := false |}, false).

(** ** Lemmas *)
Lemma cut_snoc (l : list Z) t : cut (l ++ [t]) 1 = l.
Proof. unfold cut. rewrite length_app. simpl. rewrite Nat.add_sub. apply take_app_length. Qed.

Lemma from_end_snoc (l : list Z) t : from_end (l ++ [t]) 1 = Ok t.
Proof.
  unfold from_end. rewrite length_app. simpl. rewrite decide_True, Nat.add_sub by lia.
  by rewrite lookup_app_r, Nat.sub_diag by lia.
Qed.

Lemma set_rows_rep {V} (cd : codec V) c lay n m u :
  cache_rep cd c lay n m -> cache_rep cd (set_rows c u) lay n m.
Proof.
  intros [Hwf (buf & Hbuf & Hm)]. split; [destruct Hwf; by split|]. by exists buf.
Qed.

(** The file is in the state that a first pass over NL-terminated lines needs. *)
Record first_pass st : Prop := {
  fp_reader : reader_ok RAW_BUF_SIZE o (rd st);
  fp_eol : eol_type (rd st) = EOL_UNKNOWN \/ eol_type (rd st) = EOL_NL }.

Definition no_flags : csv_flags := {| in_quote := false; last_was_esc := false |}.

Lemma FromFile_line st body rest lay n m off :
  (4 < RAW_BUF_SIZE)%nat -> opts_ok o -> (csv_mode o = true -> quote o <> ch_nl) ->
  first_pass st -> clean_line o body 0 true no_flags = true ->
  reader_rest (rd st) = body ++ ch_nl :: rest ->
  cache_rep short_codec (st_cache st) lay n m -> cell_ok short_codec (st_cache st) lay n 0 (processed st) off ->
  Z.of_nat (length body) + 1 < 2 ^ 15 ->
  exists st', NoDBGetNextTupleFromFile st = Ok (st', false) /\
    line_buf (rd st') = server_line body /\ reader_rest (rd st') = rest /\ first_pass st' /\
    cache_rep short_codec (st_cache st') lay n (<[(0, processed st) := Z.of_nat (length body) + 1]> m) /\
    c_usedRows (st_cache st') = processed st + 1 /\ c_startRow (st_cache st') = c_startRow (st_cache st) /\
    processed st' = processed st /\ tupleRead st' = tupleRead st + 1.
Proof.
  intros HB Ho Hq [Hok He] Hc Hr Hrep Hcell Hlen.
  assert (Hok' : reader_ok RAW_BUF_SIZE o (set_line (rd st) [])) by (destruct Hok; by constructor).
  destruct (read_clean_line RAW_BUF_SIZE o (st_cache st) (set_line (rd st) []) body rest)
    as (r' & E & Hl & Hr' & He' & Hok'' & Hec); try done.
  assert (Hv : valid short_codec (Z.of_nat (length body) + 1)) by (cbn; lia).
  destruct (cell_set_rep _ _ _ _ _ _ _ _ _ Hrep Hcell Hv) as (c' & Ec & Hrep').
  unfold NoDBGetNextTupleFromFile. rewrite E. cbn [mbind result_bind]. rewrite He', Hl.
  rewrite bool_decide_eq_true_2 by (rewrite length_app; simpl; lia).
  unfold last_is. rewrite from_end_snoc. cbn [c_assert mbind result_bind Z.eqb].
  change (ch_nl =? ch_nl) with true. cbn [c_assert mbind result_bind].
  unfold drop_terminator, st_cache. cbn [rd set_rd processed]. rewrite Hl, cut_snoc, Hec.
  unfold NoDBCacheSetShortInt. fold (st_cache st). change (Z.of_nat 1) with 1. rewrite Ec.
  cbn [mbind result_bind]. eexists. split; [done|].
  split_and!; try done.
  - constructor; [|right; done]. destruct Hok''. by constructor.
  - cbn. by apply set_rows_rep.
  - cbn. clear -Ec. unfold cell_set, store_at in Ec. inv_ok. done.
Qed.

(** ** How many lines fit in a load *)
Definition sumz (l : list Z) : Z := foldr Z.add 0 l.
Fixpoint fit (avail : Z) (lens : list Z) : nat :=
  match lens with
  | [] => 0
  | v :: lens' => if avail <? v then 0 else S (fit (avail - v) lens')
  end.

(** The largest load for which no sum of line lengths overflows. *)
Definition MAX_LOAD : Z := 2 ^ 61.

Lemma i32_small z : 0 <= z < 2 ^ 31 -> i32 z = z.
Proof. intros. apply swrap_small; lia. Qed.
Lemma i64_small z : 0 <= z < 2 ^ 63 -> swrap 64 z = z.
Proof. intros. apply swrap_small; lia. Qed.
Lemma u64_small z : 0 <= z < 2 ^ 64 -> u64 z = z.
Proof. apply wrap_small. Qed.

Lemma bytes_loop_fit cache avail lens : forall fuel i res cnt,
  (length lens < fuel)%nat -> NoDBCacheGetUsedRows cache = i + Z.of_nat (length lens) ->
  (forall k v, lens !! k = Some v -> NoDBCacheGetShortInt cache 0 (i + Z.of_nat k) = Ok v) ->
  Forall (fun v => 0 <= v <= MAX_LOAD) lens -> 0 <= avail <= MAX_LOAD -> 0 <= res <= avail ->
  0 <= cnt -> 0 <= i -> i + Z.of_nat (length lens) < 2 ^ 31 -> cnt + Z.of_nat (length lens) < 2 ^ 31 ->
  let j := fit (avail - res) lens in
  bytes_loop fuel cache i avail res cnt = Ok (res + sumz (take j lens), cnt + Z.of_nat j).
Proof.
  induction lens as [|v lens IH]; intros fuel i res cnt Hfuel Hu Hg Hv Ha Hr Hc Hi Hi2 Hc2;
    (destruct fuel as [|fuel]; [simpl in Hfuel; lia|]); cbn [bytes_loop length fit];
    cbn [length] in *; rewrite u64_small by lia; rewrite Hu.
  - rewrite (proj2 (Z.ltb_ge _ _)) by lia. cbn. by rewrite !Z.add_0_r.
  - rewrite (proj2 (Z.ltb_lt _ _)) by lia. apply Forall_cons in Hv as [Hv0 Hv].
    assert (NoDBCacheGetShortInt cache 0 i = Ok v) as E by (rewrite <- (Hg 0%nat v eq_refl); f_equal; lia).
    rewrite E. cbn [mbind result_bind]. unfold MAX_LOAD in *.
    rewrite (i64_small (res + v)), (i32_small (cnt + 1)), (i32_small (i + 1)) by lia.
    destruct (Z.ltb_spec (avail - res) v), (Z.ltb_spec avail (res + v)); try lia.
    + rewrite i64_small, i32_small by lia. cbn. do 2 f_equal; lia.
    + rewrite IH; try lia; try done.
      * replace (avail - (res + v)) with (avail - res - v) by lia. cbn [take sumz foldr]. fold sumz.
        do 2 f_equal; [unfold sumz; lia|lia].
      * intros k w Hk. rewrite <- (Hg (S k) w Hk). f_equal. lia.
Qed.

Lemma fit_spec avail lens :
  0 <= avail -> let j := fit avail lens in
  (j <= length lens)%nat /\ sumz (take j lens) <= avail /\
  (forall v, lens !! j = Some v -> avail < sumz (take (S j) lens)).
Proof.
  revert avail. induction lens as [|v lens IH]; intros avail Ha; cbn [fit].
  - cbn. split_and!; done || lia.
  - destruct (Z.ltb_spec avail v) as [Hlt|Hge].
    + cbn [take length sumz foldr]. rewrite take_0. cbn. split_and!; try lia.
    + destruct (IH (avail - v)) as (H1 & H2 & H3); [lia|]. cbn [take length sumz foldr].
      split_and!; [lia| |].
      * unfold sumz in *. lia.
      * intros w Hw. specialize (H3 w Hw). cbn [take sumz foldr] in *. unfold sumz in *.
        cbn [take foldr]. lia.
Qed.

(** ** The second pass

    [lines] are the lines of the file, [k] are behind us and the next [j] are in
    the buffer. *)
Definition file_bytes (lines : list (list Z)) : list Z := mjoin ((fun l => l ++ [ch_nl]) <$> lines).
Definition line_lens (lines : list (list Z)) : list Z := (fun l => Z.of_nat (length l) + 1) <$> lines.

Definition recorded (c : NoDBCache_t) (lens : list Z) : Prop :=
  c_usedRows c = Z.of_nat (length lens) /\
  forall k v, lens !! k = Some v -> NoDBCacheGetShortInt c 0 (Z.of_nat k) = Ok v.

Record second_pass st (lines : list (list Z)) (k : nat) : Prop := {
  sp_row : processed st = Z.of_nat k;
  sp_recorded : recorded (st_cache st) (line_lens lines);
  sp_fits : Forall (fun l => (length l + 1 <= RAW_BUF_SIZE)%nat) lines;
  sp_rows : Z.of_nat (length lines) < 2 ^ 31;
  sp_header : header_line o && negb (read_header (copy_file (rd st))) = true ->
    tupleStored st = 0 /\ exists hs, c_sizeOfHeader (st_cache st) = Some hs /\
      0 <= hs <= Z.of_nat RAW_BUF_SIZE + 1 /\
      hs <= Z.of_nat (length (file_rest (copy_file (rd st))));
  sp_bytes : exists j, tupleStored st = Z.of_nat j /\ (k + j <= length lines)%nat /\
    drop (raw_buf_index (rd st)) (raw_buf (rd st)) = file_bytes (take j (drop k lines)) /\
    exists tail, (if header_line o && negb (read_header (copy_file (rd st)))
      then drop (Z.to_nat (default 0 (c_sizeOfHeader (st_cache st)))) (file_rest (copy_file (rd st)))
      else file_rest (copy_file (rd st))) = file_bytes (drop (k + j) lines) ++ tail }.

Lemma file_bytes_cons l lines : file_bytes (l :: lines) = l ++ [ch_nl] ++ file_bytes lines.
Proof. unfold file_bytes. cbn. by rewrite <- app_assoc. Qed.

Lemma sumz_cons v l : sumz (v :: l) = v + sumz l.
Proof. done. Qed.

Lemma length_file_bytes lines : Z.of_nat (length (file_bytes lines)) = sumz (line_lens lines).
Proof.
  induction lines as [|l lines IH]; [done|].
  change (line_lens (l :: lines)) with (Z.of_nat (length l) + 1 :: line_lens lines).
  rewrite file_bytes_cons, sumz_cons, !length_app. simpl length. lia.
Qed.

Lemma file_bytes_app l1 l2 : file_bytes (l1 ++ l2) = file_bytes l1 ++ file_bytes l2.
Proof. unfold file_bytes. by rewrite fmap_app, join_app. Qed.

Lemma ComputeBytes_recorded c lens k avail :
  recorded c lens -> (k <= length lens)%nat -> 0 <= avail <= MAX_LOAD ->
  Z.of_nat (length lens) < 2 ^ 31 -> Forall (fun v => 0 <= v <= MAX_LOAD) lens ->
  exists j, NoDBComputeBytesToRead c (Z.of_nat k) avail = Ok (sumz (take j (drop k lens)), Z.of_nat j) /\
    (k + j <= length lens)%nat /\ sumz (take j (drop k lens)) <= avail /\
    (forall v, drop k lens !! j = Some v -> avail < sumz (take (S j) (drop k lens))).
Proof.
  intros [Hu Hg] Hk Ha Hlen Hv. unfold NoDBComputeBytesToRead.
  destruct (fit_spec avail (drop k lens)) as (H1 & H2 & H3); [lia|]. rewrite length_drop in H1.
  exists (fit avail (drop k lens)). split_and!; [|lia|done|done].
  rewrite i32_small by lia. unfold NoDBCacheGetUsedRows at 1. rewrite Hu.
  rewrite (bytes_loop_fit _ _ (drop k lens)); unfold NoDBCacheGetUsedRows; rewrite ?length_drop, ?Hu; try lia.
  - by rewrite Z.sub_0_r.
  - intros i v Hi. rewrite lookup_drop in Hi. rewrite <- (Hg _ _ Hi). f_equal. lia.
  - by apply Forall_drop.
Qed.

Definition pending src : bool := header_line o && negb (read_header src).

Context (HS : Z.of_nat RAW_BUF_SIZE + 1 < MAX_LOAD).

Lemma fread_raw_ok n src :
  0 <= n <= Z.of_nat RAW_BUF_SIZE + 1 -> n <= Z.of_nat (length (file_rest src)) ->
  exists src', fread_raw n src = Ok (take (Z.to_nat n) (file_rest src), src') /\
    file_rest src' = drop (Z.to_nat n) (file_rest src) /\ eolCache src' = eolCache src /\
    read_header src' = read_header src.
Proof.
  intros Hn Hl. unfold fread_raw, u64. rewrite wrap_small, Z.min_l by (unfold MAX_LOAD in *; lia).
  pose proof (fread_spec o (Z.to_nat n) src) as H. destruct (fread _ src) as [b src'] eqn:E.
  destruct H as (-> & Hf & _ & He). rewrite decide_True by (rewrite length_take; lia).
  exists src'. split_and!; try done. unfold fread in E. by simplify_eq.
Qed.

Lemma skip_header_ok st lines k :
  second_pass st lines k -> tupleStored st = 0 ->
  exists r', skip_header (rd st) = Ok r' /\ (length (raw_buf r') <= raw_buf_index r')%nat /\
    eolCache (copy_file r') = st_cache st /\ pending (copy_file r') = false /\
    line_buf r' = line_buf (rd st) /\
    exists tail, file_rest (copy_file r') = file_bytes (drop k lines) ++ tail.
Proof.
  intros [Hrow Hrec Hfit _ Hh (j & Hj & Hk & Hraw & tail & Hfile)] H0.
  assert (j = 0)%nat as -> by lia. rewrite take_0 in Hraw. rewrite Nat.add_0_r in Hfile.
  apply (f_equal length) in Hraw. rewrite length_drop in Hraw. cbn in Hraw.
  unfold skip_header, pending. fold (st_cache st). destruct (header_line o && _) eqn:Hp.
  - destruct (Hh eq_refl) as (_ & hs & Ehs & Hhs & Hlen).
    unfold NoDBCacheGetHeaderSize. rewrite Ehs. cbn [mbind result_bind].
    destruct (fread_raw_ok hs (copy_file (rd st)) Hhs Hlen) as (src' & -> & Hf & He & _).
    cbn [mbind result_bind]. eexists. split; [done|]. rewrite Ehs in Hfile.
    split_and!; cbn [set_source raw_buf raw_buf_index copy_file read_header negb]; [|done| |done|].
    + rewrite length_take. lia.
    + apply andb_false_r.
    + exists tail. rewrite <- Hfile. exact Hf.
  - exists (rd st). split_and!; try done; [lia|eauto].
Qed.

Lemma line_lens_fits lines : Forall (fun l => (length l + 1 <= RAW_BUF_SIZE)%nat) lines ->
  forall k v, line_lens lines !! k = Some v -> 1 <= v <= Z.of_nat RAW_BUF_SIZE.
Proof.
  intros Hf k v Hk. unfold line_lens in Hk. rewrite list_lookup_fmap in Hk.
  destruct (lines !! k) as [l|] eqn:E; [|done]. simplify_eq/=.
  rewrite Forall_lookup in Hf. specialize (Hf _ _ E). cbn in Hf. lia.
Qed.

Lemma line_lens_load lines : Forall (fun l => (length l + 1 <= RAW_BUF_SIZE)%nat) lines ->
  Forall (fun v => 0 <= v <= MAX_LOAD) (line_lens lines).
Proof. intros Hf. apply Forall_lookup. intros k v Hk. pose proof (line_lens_fits _ Hf _ _ Hk). lia. Qed.

Lemma line_lens_sub lines k j : take j (drop k (line_lens lines)) = line_lens (take j (drop k lines)).
Proof. unfold line_lens. by rewrite fmap_take, fmap_drop. Qed.

(** A refill brings at least one whole line. *)
Lemma load_lines_ok st lines k :
  second_pass st lines k -> (k < length lines)%nat ->
  exists st1, load_lines st = Ok (st1, false) /\ second_pass st1 lines k /\ 0 < tupleStored st1 /\
    line_buf (rd st1) = line_buf (rd st) /\ tupleRead st1 = tupleRead st /\
    pending (copy_file (rd st1)) = false.
Proof.
  intros Hsp Hlt. unfold load_lines. destruct (Z.eqb_spec (tupleStored st) 0) as [H0|H0].
  2: { exists st. pose proof Hsp as [_ _ _ _ Hh (j & ? & _)]. split_and!; try done; [lia|].
       unfold pending. destruct (header_line o && _); [|done]. by destruct (Hh eq_refl). }
  destruct (skip_header_ok st lines k Hsp H0) as (r & -> & Hidx & Hec & Hp & Hl & tail & Hf).
  destruct Hsp as [Hrow Hrec Hfit Hrows _ _]. cbn [mbind result_bind].
  rewrite bool_decide_eq_true_2 by done. cbn [c_assert mbind result_bind]. rewrite Hec, Hrow.
  assert (Hk : (k <= length (line_lens lines))%nat) by (unfold line_lens; rewrite length_fmap; lia).
  destruct (ComputeBytes_recorded _ _ k (Z.of_nat RAW_BUF_SIZE) Hrec Hk) as (j & -> & Hj & Hle & Hmax);
    [lia|unfold line_lens; by rewrite length_fmap|by apply line_lens_load|].
  cbn [mbind result_bind]. unfold line_lens in Hj at 1. rewrite length_fmap in Hj.
  rewrite line_lens_sub, <- length_file_bytes in Hle |- *. set (blk := take j (drop k lines)) in *.
  destruct j as [|j].
  { exfalso. destruct (lookup_lt_is_Some_2 lines k Hlt) as [l El].
    assert (El' : drop k (line_lens lines) !! 0%nat = Some (Z.of_nat (length l) + 1)).
    { unfold line_lens. by rewrite lookup_drop, Nat.add_0_r, list_lookup_fmap, El. }
    specialize (Hmax _ El'). rewrite (take_S_r _ _ _ El'), take_0 in Hmax. cbn [app] in Hmax.
    rewrite sumz_cons in Hmax. change (sumz []) with 0 in Hmax.
    rewrite Forall_lookup in Hfit. specialize (Hfit _ _ El). cbn in Hfit. lia. }
  assert (Hblk : (0 < length (file_bytes blk))%nat).
  { subst blk. destruct (drop k lines) as [|l ls] eqn:E.
    - apply (f_equal length) in E. rewrite length_drop in E. simpl in E. lia.
    - cbn [take]. rewrite file_bytes_cons, !length_app. simpl. lia. }
  assert (Hsplit : file_rest (copy_file r) = file_bytes blk ++ (file_bytes (drop (k + S j) lines) ++ tail)).
  { rewrite Hf, app_assoc, <- file_bytes_app. subst blk. rewrite <- drop_drop, take_drop. done. }
  rewrite (proj2 (Z.eqb_neq _ _)) by lia.
  destruct (fread_raw_ok (Z.of_nat (length (file_bytes blk))) (copy_file r)) as (src' & -> & Hf' & He' & Hr').
  { lia. } { rewrite Hsplit, length_app. lia. }
  rewrite Nat2Z.id, Hsplit, take_app_length in *. rewrite drop_app_length in Hf'.
  cbn [mbind result_bind]. rewrite Z.eqb_refl. cbn [c_assert mbind result_bind].
  rewrite decide_True by lia. eexists. split; [done|]. unfold pending in Hp.
  assert (Hp' : header_line o && negb (read_header src') = false) by (by rewrite Hr').
  split_and!; cbn; try done.
  constructor; cbn; rewrite ?Hp'; try done.
  - unfold st_cache. cbn. by rewrite He', Hec.
  - exists (S j). split_and!; [done|lia|done|eauto].
Qed.

Lemma append_line st lines k line :
  second_pass st lines k -> lines !! k = Some line -> 0 < tupleStored st ->
  pending (copy_file (rd st)) = false -> line_buf (rd st) = [] ->
  exists r, append_raw (rd st) (Z.of_nat (length line) + 1) = Ok r /\
    line_buf r = line ++ [ch_nl] /\
    forall l' p, p = Z.of_nat k + 1 ->
      second_pass {| rd := set_line r l'; processed := p; tupleRead := tupleRead st + 1;
                     tupleStored := tupleStored st - 1; line_buf_converted := true |} lines (S k).
Proof.
  intros [Hrow Hrec Hfit Hrows _ (j & Hj & Hk & Hraw & tail & Hfile)] El Hst Hp Hl.
  destruct j as [|j]; [lia|]. unfold pending in Hp. rewrite Hp in Hfile.
  rewrite (drop_S _ _ _ El) in Hraw. cbn [take] in Hraw. rewrite file_bytes_cons, app_assoc in Hraw.
  assert (Hlen : length (line ++ [ch_nl]) = (length line + 1)%nat) by (rewrite length_app; done).
  unfold append_raw. rewrite decide_True.
  2: { apply (f_equal length) in Hraw. rewrite length_drop, length_app, Hlen in Hraw. lia. }
  eexists. split; [done|]. split.
  - cbn. rewrite Hl, Hraw, take_app_length' by (rewrite Hlen; lia). done.
  - intros l' p ->. constructor; cbn; rewrite ?Hp; try done; [lia|].
    exists j. split_and!; [lia|lia| |].
    + rewrite <- drop_drop, Hraw, drop_app_length' by (rewrite Hlen; lia). done.
    + exists tail. replace (S (k + j)) with (k + S j)%nat by lia. done.
Qed.

Lemma WithEOL_line st lines k line :
  second_pass st lines k -> lines !! k = Some line ->
  exists st', NoDBGetNextTupleFromFileWithEOL st = Ok (st', false) /\
    line_buf (rd st') = server_line line /\ tupleRead st' = tupleRead st + 1 /\
    second_pass (next_row st') lines (S k).
Proof.
  intros Hsp El. apply lookup_lt_Some in El as Hlt.
  assert (Hsp0 : second_pass (set_rd st (set_line (rd st) [])) lines k) by (destruct Hsp; by constructor).
  destruct (load_lines_ok _ _ _ Hsp0 Hlt) as (st1 & E1 & Hsp1 & Hst & Hl & Htr & Hp).
  unfold NoDBGetNextTupleFromFileWithEOL, NoDBCopyReadLineTextWithEOL. rewrite E1. cbn [mbind result_bind].
  rewrite (sp_row _ _ _ Hsp1). destruct (sp_recorded _ _ _ Hsp1) as [_ Hg].
  rewrite (Hg k (Z.of_nat (length line) + 1)) by (unfold line_lens; by rewrite list_lookup_fmap, El).
  cbn [mbind result_bind].
  destruct (append_line _ _ _ _ Hsp1 El Hst Hp) as (r & -> & Hlr & Hnext); [done|].
  cbn [mbind result_bind rd set_rd set_stored]. rewrite Hlr.
  rewrite bool_decide_eq_true_2 by (rewrite length_app; simpl; lia). cbn [c_assert mbind result_bind].
  rewrite from_end_snoc. cbn [mbind result_bind]. change (ch_nl =? ch_nl) with true.
  cbn [mbind result_bind]. eexists. split; [done|]. rewrite cut_snoc.
  split_and!; [done|cbn; rewrite Htr; done|].
  unfold next_row, convertToServerEncoding. cbn [rd processed tupleRead tupleStored line_buf_converted set_rd set_stored].
  change (tupleRead (set_rd st (set_line (rd st) []))) with (tupleRead st) in Htr.
  apply Hnext. cbn. by rewrite (sp_row _ _ _ Hsp1).
Qed.

Lemma WithEOL_end st lines :
  second_pass st lines (length lines) ->
  exists st', NoDBGetNextTupleFromFileWithEOL st = Ok (st', true) /\ processed st' = processed st /\ st_cache st' = st_cache st.
Proof.
  intros Hsp.
  assert (Hsp0 : second_pass (set_rd st (set_line (rd st) [])) lines (length lines)) by (destruct Hsp; by constructor).
  assert (H0 : tupleStored st = 0).
  { destruct Hsp as [_ _ _ _ _ (j & -> & Hk & _)]. lia. }
  unfold NoDBGetNextTupleFromFileWithEOL, NoDBCopyReadLineTextWithEOL, load_lines.
  rewrite (proj2 (Z.eqb_eq _ _)) by done.
  destruct (skip_header_ok _ _ _ Hsp0 H0) as (r & -> & Hidx & Hec & _). cbn [mbind result_bind].
  rewrite bool_decide_eq_true_2 by done. cbn [c_assert mbind result_bind].
  rewrite Hec, (sp_row _ _ _ Hsp0).
  destruct (ComputeBytes_recorded _ _ (length lines) (Z.of_nat RAW_BUF_SIZE) (sp_recorded _ _ _ Hsp0))
    as (j & -> & _); [unfold line_lens; rewrite length_fmap; lia|lia|unfold line_lens; rewrite length_fmap; apply Hsp|apply line_lens_load, Hsp|].
  rewrite line_lens_sub, drop_ge, take_nil by lia. cbn. eauto.
Qed.

(** A scan: tuples until the end of the file, each with its line. *)
Fixpoint read_lines (read : scan -> result (scan * bool)) (fuel : nat) st : result (list (list Z) * scan) :=
  match fuel with
  | O => Fail OutOfFuel
  | S fuel' =>
      x ← read st;
      let '(st', fin) := x in
      if (fin : bool) then Ok ([], st')
      else
        y ← read_lines read fuel' (next_row st');
        Ok (line_buf (rd st') :: y.1, y.2)
  end.

Lemma read_lines_WithEOL lines k : forall fuel st,
  second_pass st lines k -> (k <= length lines)%nat -> (length lines - k < fuel)%nat ->
  exists st', read_lines NoDBGetNextTupleFromFileWithEOL fuel st = Ok (server_line <$> drop k lines, st').
Proof.
  intros fuel. revert k. induction fuel as [|fuel IH]; intros k st Hsp Hk Hf; [lia|]. cbn [read_lines].
  destruct (decide (k = length lines)) as [->|Hne].
  - destruct (WithEOL_end _ _ Hsp) as (st' & -> & _). cbn [mbind result_bind]. rewrite drop_ge by lia. eauto.
  - destruct (lookup_lt_is_Some_2 lines k) as [line El]; [lia|].
    destruct (WithEOL_line _ _ _ _ Hsp El) as (st' & -> & Hl & _ & Hn). cbn [mbind result_bind].
    destruct (IH (S k) _ Hn) as [st2 ->]; [lia..|].
    exists st2. cbn. rewrite Hl, (drop_S _ _ _ El). done.
Qed.
End tuple.

Section first.
Context (RAW_BUF_SIZE : nat) (o : line_opts) (cv : conv_opts).
Context (HB : (4 < RAW_BUF_SIZE)%nat) (Ho : opts_ok o) (Hq : csv_mode o = true -> quote o <> ch_nl).
Context (lines : list (list Z)) (tail : list Z) (lay : layout) (n : Z).

(** The lines are data, and short enough for their lengths to be recorded. *)
Definition good_lines : Prop :=
  Forall (fun l => clean_line o l 0 true no_flags = true /\ Z.of_nat (length l) + 1 < 2 ^ 15) lines.

(** What follows the last terminator, if anything, is no line. *)
Definition good_tail : Prop := open_line o tail 0 true no_flags = true.

(** [k] lines are read and recorded, the rest is still in the file. *)
Record first_at st (k : nat) : Prop := {
  fa_pass : first_pass RAW_BUF_SIZE o st;
  fa_rest : reader_rest (rd st) = file_bytes (drop k lines) ++ tail;
  fa_row : processed st = Z.of_nat k;
  fa_used : c_usedRows (st_cache st) = Z.of_nat k;
  fa_cells : forall i, (i < length lines)%nat ->
    exists off, cell_ok short_codec (st_cache st) lay n 0 (Z.of_nat i) off;
  fa_rep : exists m, cache_rep short_codec (st_cache st) lay n m /\
    forall i v, take k (line_lens lines) !! i = Some v -> m !! (0, Z.of_nat i) = Some v }.

Lemma FromFile_step st k line :
  good_lines -> first_at st k -> lines !! k = Some line ->
  exists st', NoDBGetNextTupleFromFile RAW_BUF_SIZE o cv st = Ok (st', false) /\
    line_buf (rd st') = server_line cv line /\ first_at (next_row st') (S k).
Proof.
  intros Hg [Hp Hr Hrow Hu Hc (m & Hrep & Hm)] El. apply lookup_lt_Some in El as Hlt.
  unfold good_lines in Hg. rewrite Forall_lookup in Hg. destruct (Hg _ _ El) as [Hcl Hlen].
  rewrite (drop_S _ _ _ El), file_bytes_cons, <- !app_assoc in Hr. destruct (Hc k Hlt) as [off Hoff]. rewrite <- Hrow in Hoff.
  destruct (FromFile_line RAW_BUF_SIZE o cv st line _ lay n m off HB Ho Hq Hp Hcl Hr Hrep Hoff Hlen)
    as (st' & E & Hl & Hr' & Hp' & Hrep' & Hu' & Hs' & Hrow' & _).
  exists st'. split_and!; [done..|]. rewrite Hrow in *. constructor; cbn.
  - destruct Hp'. by constructor.
  - by rewrite Hr'.
  - lia.
  - change (c_usedRows (st_cache st') = Z.of_nat (S k)). lia.
  - intros i Hi. destruct (Hc i Hi) as (off' & Hrows & Hsz). exists off'. split; [|done].
    unfold in_rows, st_cache in *. cbn. by rewrite Hs'.
  - exists (<[(0, Z.of_nat k) := Z.of_nat (length line) + 1]> m). split; [done|].
    intros i v Hi. apply lookup_take_Some in Hi as [Hi Hik].
    destruct (decide (i = k)) as [->|Hne].
    + rewrite lookup_insert_eq. unfold line_lens in Hi. rewrite list_lookup_fmap, El in Hi. done.
    + rewrite lookup_insert_ne by (intros [=]; lia). apply Hm. apply lookup_take_Some. split; [done|lia].
Qed.

Lemma first_at_recorded st : first_at st (length lines) -> recorded (st_cache st) (line_lens lines).
Proof.
  intros [_ _ _ Hu _ (m & Hrep & Hm)]. split; [unfold line_lens; by rewrite length_fmap|].
  intros k v Hk. apply (cell_get_rep _ _ _ _ _ _ _ _ Hrep), Hm.
  rewrite take_ge; [done|]. unfold line_lens. rewrite length_fmap. lia.
Qed.

(** The bytes after the last line are read, and no line is returned for them. *)
Lemma FromFile_end st :
  good_tail -> first_at st (length lines) ->
  exists st', NoDBGetNextTupleFromFile RAW_BUF_SIZE o cv st = Ok (st', true) /\
    recorded (st_cache st') (line_lens lines) /\ processed st' = processed st /\ st_cache st' = st_cache st.
Proof.
  intros Ht Hst. pose proof (first_at_recorded _ Hst) as Hrec. destruct Hst as [[Hok He] Hr _ _ _ _].
  rewrite drop_ge in Hr by lia.
  assert (Hok' : reader_ok RAW_BUF_SIZE o (set_line (rd st) [])) by (destruct Hok; by constructor).
  destruct (read_open_line RAW_BUF_SIZE o (st_cache st) (set_line (rd st) []) tail HB Ho Hok' eq_refl eq_refl Ht Hr)
    as (r' & E & _ & _ & _ & Hec).
  unfold NoDBGetNextTupleFromFile. rewrite E. cbn [mbind result_bind]. eexists. split; [done|].
  unfold st_cache in *. cbn [rd set_rd]. by rewrite Hec.
Qed.

Lemma read_lines_FromFile : forall fuel k st,
  good_lines -> good_tail -> first_at st k -> (k <= length lines)%nat -> (length lines - k < fuel)%nat ->
  exists st', read_lines (NoDBGetNextTupleFromFile RAW_BUF_SIZE o cv) fuel st
      = Ok (server_line cv <$> drop k lines, st') /\
    recorded (st_cache st') (line_lens lines).
Proof.
  induction fuel as [|fuel IH]; intros k st Hg Ht Hst Hk Hf; [lia|]. cbn [read_lines].
  destruct (decide (k = length lines)) as [->|Hne].
  - destruct (FromFile_end _ Ht Hst) as (st' & -> & Hrec & _). cbn [mbind result_bind]. rewrite drop_ge by lia. eauto.
  - destruct (lookup_lt_is_Some_2 lines k) as [line El]; [lia|].
    destruct (FromFile_step _ _ _ Hg Hst El) as (st' & -> & Hl & Hn). cbn [mbind result_bind].
    destruct (IH (S k) _ Hg Ht Hn) as (st2 & -> & Hrec); [lia..|].
    exists st2. split; [|done]. cbn. rewrite Hl, (drop_S _ _ _ El). done.
Qed.
End first.

(** ** Examples *)
Definition text_opts : line_opts :=
  {| csv_mode := false; quote := 0; escape := 0; header_line := false;
     encoding_embeds_ascii := false; pg_encoding_mblen := fun _ => 1 |}.
Definition no_conv : conv_opts :=
  {| need_transcoding := false; exec_need_transcoding := false; pg_client_to_server := fun _ => None |}.
Definition ex_eol : NoDBCache_t :=
  match new_eol_cache 1 "r" 4 with Ok c => c | Fail _ => pm_ex end.
Definition ex_scan (c : NoDBCache_t) (file : list Z) : scan :=
  {| rd := {| raw_buf := []; raw_buf_index := 0; line_buf := [];
              copy_file := {| contents := file; pos := 0; read_header := false; eolCache := c |};
              eol_type := EOL_UNKNOWN; cur_lineno := 0 |};
     processed := 0; tupleRead := 0; tupleStored := 0; line_buf_converted := false |}.
Definition crnl_file : list Z := [97; 98; 13; 10; 99; 13; 10].

(** A first scan, and a second one with what the first recorded. *)
Definition two_scans (size : nat) (o : line_opts) (cv : conv_opts) (c : NoDBCache_t) (fuel : nat)
    (file : list Z) : result (list (list Z) * list (list Z)) :=
  x ← read_lines (NoDBGetNextTupleFromFile size o cv) fuel (ex_scan c file);
  y ← read_lines (NoDBGetNextTupleFromFileWithEOL size o cv) fuel (ex_scan (st_cache x.2) file);
  Ok (x.1, y.1).

(** * Properties *)

(** C3 A first scan of a file that holds NL-terminated lines and then bytes in which
    no line ends (none, or a last line without its newline), with quoted newlines
    and multi-byte characters in the lines and through a buffer of any size above
    the look-ahead, returns exactly the terminated lines in the server's encoding,
    ends, and leaves the length of every such line in the end-of-line cache: a last
    line without its newline is not returned. The lines are shorter than 2^15
    bytes, the width of a recorded length. *)
Theorem first_scan_reads_lines (size : nat) (o : line_opts) (cv : conv_opts) (lines : list (list Z)) (tail : list Z)
    (lay : layout) (n : Z) (st : scan) :
  (4 < size)%nat -> opts_ok o -> (csv_mode o = true -> quote o <> ch_nl) ->
  good_lines o lines -> good_tail o tail -> first_at size o lines tail lay n st 0 ->
  exists st', read_lines (NoDBGetNextTupleFromFile size o cv) (S (length lines)) st
      = Ok (server_line cv <$> lines, st') /\
    recorded (st_cache st') (line_lens lines).
Proof. intros HB Ho Hq Hg Ht Hst. apply (read_lines_FromFile size o cv HB Ho Hq lines tail lay n _ 0); done || lia. Qed.

(** C4 A later scan of a file of fewer than 2^31 NL-terminated lines, each of which
    fits in the buffer, that takes the line lengths from the end-of-line cache
    returns these lines, without their NL, and ends: the header is skipped, every
    load brings as many whole lines as fit, and no byte outside the load is read.
    The carriage return of a CRNL-terminated line is part of the line here, unlike
    in a first scan. *)
Theorem second_scan_reads_lines (size : nat) (o : line_opts) (cv : conv_opts) (lines : list (list Z)) (st : scan) :
  Z.of_nat size + 1 < MAX_LOAD -> second_pass size o st lines 0 ->
  exists st', read_lines (NoDBGetNextTupleFromFileWithEOL size o cv) (S (length lines)) st
    = Ok (server_line cv <$> lines, st').
Proof. intros HS Hst. apply (read_lines_WithEOL size o cv HS lines 0); done || lia. Qed.

(** C37 [NoDBComputeBytesToRead] returns the total length and the number of the
    longest run of recorded lines from a row on that fits in the buffer, for fewer
    than 2^31 lines (its counter is an int) and a buffer of at most 2^61 bytes. *)
Theorem NoDBComputeBytesToRead_correct (c : NoDBCache_t) (lens : list Z) (k : nat) (avail : Z) :
  recorded c lens -> (k <= length lens)%nat -> 0 <= avail <= MAX_LOAD ->
  Z.of_nat (length lens) < 2 ^ 31 -> Forall (fun v => 0 <= v <= MAX_LOAD) lens ->
  exists j, NoDBComputeBytesToRead c (Z.of_nat k) avail = Ok (sumz (take j (drop k lens)), Z.of_nat j) /\
    (k + j <= length lens)%nat /\ sumz (take j (drop k lens)) <= avail /\
    (forall v, drop k lens !! j = Some v -> avail < sumz (take (S j) (drop k lens))).
Proof. apply ComputeBytes_recorded. Qed.

(** The line lengths do not tell CRNL from NL: the test for the two-byte
    terminator comes after the one for its last byte, so that a later scan of a
    CRNL file returns the lines with their carriage return, which the first scan
    dropped. *)
Example second_scan_keeps_carriage_return :
  two_scans 16 text_opts no_conv ex_eol 3 crnl_file = Ok ([[97; 98]; [99]], [[97; 98; 13]; [99; 13]]).
Proof. vm_compute. reflexivity. Qed.

(** ** Witnesses *)
Lemma ex_eol_rep : cache_rep short_codec ex_eol [(Some 0, 2)] 4 ∅.
Proof.
  destruct (new_eol_cache_spec 1 "r" 4) as (c & E & Hc & _); [lia..|].
  unfold ex_eol. by rewrite E.
Qed.

Definition ex_lines : list (list Z) := [[97; 98]; []; [99; 92; 100]].

Definition ex_tail : list Z := [101; 102].

(** Three lines, and a fourth without its newline. *)
Lemma first_scan_witness :
  exists st', read_lines (NoDBGetNextTupleFromFile 5 text_opts no_conv) (S (length ex_lines))
      (ex_scan ex_eol (file_bytes ex_lines ++ ex_tail)) = Ok (server_line no_conv <$> ex_lines, st') /\
    recorded (st_cache st') (line_lens ex_lines).
Proof.
  apply (first_scan_reads_lines 5 text_opts no_conv ex_lines ex_tail [(Some 0, 2)] 4).
  - lia.
  - by constructor.
  - done.
  - repeat constructor; cbn; lia.
  - reflexivity.
  - constructor; [|by vm_compute|by vm_compute|by vm_compute| |].
    + constructor; [constructor; cbn; [lia|done]|by left].
    + intros i Hi. exists 0. split; [unfold in_rows; vm_compute; cbn in Hi; split; [by destruct i|]|].
      * unfold ex_lines in Hi. simpl in Hi. destruct i as [|[|[|i]]]; done || lia.
      * exists 2. split_and!; [by exists [], []|cbn; lia|cbn; lia].
    + exists ∅. split; [apply ex_eol_rep|done].
Defined.

Definition ex_recorded : NoDBCache_t :=
  match read_lines (NoDBGetNextTupleFromFile 5 text_opts no_conv) 4 (ex_scan ex_eol (file_bytes ex_lines)) with
  | Ok (_, st) => st_cache st
  | Fail _ => ex_eol
  end.

Lemma ex_recorded_ok : recorded ex_recorded (line_lens ex_lines).
Proof.
  split; [by vm_compute|]. intros k v Hk.
  destruct k as [|[|[|k]]]; vm_compute in Hk; simplify_eq; by vm_compute.
Qed.

Lemma second_scan_witness :
  exists st', read_lines (NoDBGetNextTupleFromFileWithEOL 5 text_opts no_conv) (S (length ex_lines))
    (ex_scan ex_recorded (file_bytes ex_lines)) = Ok (server_line no_conv <$> ex_lines, st').
Proof.
  apply (second_scan_reads_lines 5 text_opts no_conv ex_lines); [unfold MAX_LOAD; lia|].
  constructor; try done.
  - apply ex_recorded_ok.
  - repeat constructor; cbn; lia.
  - exists 0%nat. split_and!; try done; [cbn; lia|]. exists []. cbn. done.
Defined.

Lemma NoDBComputeBytesToRead_witness :
  exists j, NoDBComputeBytesToRead ex_recorded 0 5 = Ok (sumz (take j [3; 1; 4]), Z.of_nat j) /\
    (j <= 3)%nat /\ sumz (take j [3; 1; 4]) <= 5 /\
    (forall v, [3; 1; 4] !! j = Some v -> 5 < sumz (take (S j) [3; 1; 4])).
Proof.
  apply (NoDBComputeBytesToRead_correct ex_recorded [3; 1; 4] 0 5);
    [apply ex_recorded_ok|simpl; lia|unfold MAX_LOAD; lia|simpl; lia|repeat constructor; unfold MAX_LOAD; lia].
Defined.
