(* ===== verification/CacheSelect.v ===== *)
(** * Choosing caches (NoDBScanStrategy.c, first part)

    The scan strategy looks through the global list of caches: which caches hold
    a row, which of them covers most columns of the query, which can grow, and
    at which rows the answer changes. The lists that these functions build are
    never changed once they are built, and every one of them is private to one
    strategy, so they are values here: [x :: l] is what [NoDBColListArenaAdd]
    makes, [add_unique] and [add_sort_unique] are the list functions that
    LinkedList.v proves of the heap code. A pointer to a cache is its address;
    [NULL] is 0. *)
From S2P Require Import Prelude LinkedList Vectors Bitmap Relation Cache.

(** The caches by address and the global list [NoDBCaches]. *)
Record world := {
  w_caches : gmap Z NoDBCache_t; NoDBCaches : list Z; w_next : Z }.
Implicit Types (w : world) (c : NoDBCache_t).

Definition get_cache w (p : Z) : result NoDBCache_t :=
  match w_caches w !! p with Some c => Ok c | None => Fail NullDeref end.
Definition put_cache w (p : Z) c : world :=
  {| w_caches := <[p := c]> (w_caches w); NoDBCaches := NoDBCaches w; w_next := w_next w |}.

(** ** Maps from caches to lists of columns

    The association maps of AssocMap.v keep the order of insertion. *)
Definition cache_map := list (Z * list Z).

Fixpoint map_get (m : cache_map) (cache : Z) : option (list Z) :=
  match m with
  | [] => None
  | (k, l) :: m' => if k =? cache then Some l else map_get m' cache
  end.
Fixpoint col_map_set (m : cache_map) (cache : Z) (l : list Z) : cache_map :=
  match m with
  | [] => []
  | (k, l') :: m' => if k =? cache then (k, l) :: m' else (k, l') :: col_map_set m' cache l
  end.

Definition AddColToMap (map : cache_map) (cache col : Z) : cache_map :=
  match map_get map cache with
  | Some colList => col_map_set map cache (col :: colList)
  | None => map ++ [(cache, [col])]
  end.

(** [colList != ncolList] compares the heads of the lists. *)
Definition AddUniqueColToMap (map : cache_map) (cache col : Z) : cache_map * bool :=
  match map_get map cache with
  | Some colList => (col_map_set map cache (add_unique colList col), negb (bool_decide (col ∈ colList)))
  | None => (map ++ [(cache, [col])], true)
  end.

Definition MapContainsColumn (map : cache_map) (col : Z) : bool :=
  existsb (fun e => bool_decide (col ∈ e.2)) map.

Definition AddIntToMap (map : cache_map) (cache v : Z) : cache_map :=
  match map_get map cache with
  | Some intList => col_map_set map cache (v :: intList)
  | None => map ++ [(cache, [v])]
  end.

(** [NoDBColumnsPerCache_t] *)
Record NoDBColumnsPerCache_t := { pc_cache : Z; pc_cols : NoDBColVector_t }.

Definition SetColsPerCache (map : cache_map) : Z * list NoDBColumnsPerCache_t :=
  (Z.of_nat (length map), (fun e => {| pc_cache := e.1; pc_cols := col_vector e.2 |}) <$> map).

Definition GetColListFromBitmap (cols : NoDBColVector_t) (bitmap : NoDBBitmap_t) : result (list Z) :=
  for_range 0 (NoDBColVectorSize cols) (fun i colList =>
    b ← NoDBBitmapIsSet bitmap i;
    if (b : bool) then col ← NoDBColVectorGet cols i; Ok (add_unique colList col) else Ok colList) [].

(** ** Lists of caches *)
Fixpoint select_caches w (test : NoDBCache_t -> result bool) (l acc : list Z) : result (list Z) :=
  match l with
  | [] => Ok acc
  | p :: l' =>
      c ← get_cache w p;
      b ← test c;
      select_caches w test l' (if (b : bool) then p :: acc else acc)
  end.

Definition of_rel_type (rel : Z) (cacheType : NoDBCacheType_t) c : bool :=
  (NoDBCacheGetRelation c =? rel) && bool_decide (NoDBCacheGetType c = cacheType).

Definition GetCachesWithRow w (rel : Z) (cacheType : NoDBCacheType_t) (row : Z) : result (list Z) :=
  select_caches w (fun c => Ok (of_rel_type rel cacheType c && NoDBCacheHasRow c row)) (NoDBCaches w) [].

(** The columns of [colList] that a cache has, and how many. *)
Fixpoint count_cols (add : list Z -> Z -> list Z) c (colList : list Z) (cacheCols : list Z) (n : Z)
    : result (list Z * Z) :=
  match colList with
  | [] => Ok (cacheCols, n)
  | col :: l =>
      b ← NoDBCacheHasColumn c col;
      if (b : bool) then count_cols add c l (add cacheCols col) (n + 1)
      else count_cols add c l cacheCols n
  end.

(** [bestCache] and [*bestCacheCols]; [None] while there is none. *)
Fixpoint best_hit w (caches : list Z) (hitCol : Z) (colList : list Z)
    (best : option (Z * list Z)) (bestN : Z) : result (option (Z * list Z)) :=
  match caches with
  | [] => Ok best
  | p :: l =>
      c ← get_cache w p;
      b ← NoDBCacheHasColumn c hitCol;
      if negb b then best_hit w l hitCol colList best bestN
      else
        x ← count_cols add_unique c colList [hitCol] 1;
        if bestN <? x.2 then best_hit w l hitCol colList (Some (p, x.1)) x.2
        else best_hit w l hitCol colList best bestN
  end.
Definition GetBestCacheHit w (caches : list Z) (hitCol : Z) (colList : list Z) :=
  best_hit w caches hitCol colList None 0.

Definition CacheContainsSubset c (cols : list Z) : result bool :=
  search_range 0 (c_usedCols c) (fun i =>
    col ← arr_get (c_cols c) i;
    Ok (if bool_decide (col ∈ cols) then None else Some false)) true.

Fixpoint has_any c (cols : list Z) : result bool :=
  match cols with
  | [] => Ok false
  | col :: l => b ← NoDBCacheHasColumn c col; if (b : bool) then Ok true else has_any c l
  end.
Fixpoint starts_below w (rel : Z) (cacheType : NoDBCacheType_t) (cols : list Z) (row : Z) (l : list Z)
    : result bool :=
  match l with
  | [] => Ok false
  | p :: l' =>
      c ← get_cache w p;
      if of_rel_type rel cacheType c && (row <=? NoDBCacheGetBegin c) then
        b ← has_any c cols;
        if (b : bool) then Ok true else starts_below w rel cacheType cols row l'
      else starts_below w rel cacheType cols row l'
  end.
Definition CacheStartsBelow w (rel : Z) (cacheType : NoDBCacheType_t) (cols : list Z) (row : Z) : result bool :=
  starts_below w rel cacheType cols row (NoDBCaches w).

Definition GetCachesCanGrow w (rel : Z) (cacheType : NoDBCacheType_t) (col row : Z) (cols : list Z)
    : result (list Z) :=
  if row =? 0 then Ok []
  else select_caches w (fun c =>
    if of_rel_type rel cacheType c && NoDBCacheCanGrow c row then
      b1 ← NoDBCacheHasColumn c col;
      if negb b1 then Ok false
      else
        b2 ← CacheContainsSubset c cols;
        if negb b2 then Ok false
        else
          b3 ← CacheStartsBelow w rel cacheType cols (u64 (NoDBCacheGetBegin c + NoDBCacheGetUsedRows c));
          Ok (negb b3)
    else Ok false) (NoDBCaches w) [].

Fixpoint best_grow w (caches : list Z) (colList : list Z) (best : option (Z * list Z)) (bestN : Z)
    : result (option (Z * list Z)) :=
  match caches with
  | [] => Ok best
  | p :: l =>
      c ← get_cache w p;
      x ← count_cols (fun l col => col :: l) c colList [] 0;
      if bestN <? x.2 then best_grow w l colList (Some (p, x.1)) x.2
      else best_grow w l colList best bestN
  end.
Definition GetBestCacheToGrow w (caches : list Z) (colList : list Z) := best_grow w caches colList None 0.

Definition GetCachesFreeColumns w (rel : Z) (cacheType : NoDBCacheType_t) (limit row size : Z) : result (list Z) :=
  select_caches w (fun c => Ok (of_rel_type rel cacheType c && (NoDBCacheGetBegin c =? row) &&
    (size <=? NoDBCacheGetFreeSize c) &&
    ((limit =? 0) || (u64 (NoDBCacheGetBegin c + NoDBCacheGetUsedRows c) <=? limit)))) (NoDBCaches w) [].

Fixpoint best_free w (caches : list Z) (best : Z) (bestFreeSpace : Z) : result Z :=
  match caches with
  | [] => Ok best
  | p :: l =>
      c ← get_cache w p;
      let freeSpace := NoDBCacheGetFreeSize c in
      if bestFreeSpace <? freeSpace then best_free w l p freeSpace else best_free w l best bestFreeSpace
  end.
Definition GetBestCacheToAddColumn w (caches : list Z) : result Z := best_free w caches 0 0.

(** ** Rows where the strategy may change *)
Fixpoint cache_rows w (rel : Z) (l rows : list Z) : result (list Z) :=
  match l with
  | [] => Ok rows
  | p :: l' =>
      c ← get_cache w p;
      cache_rows w rel l'
        (if (NoDBCacheGetRelation c =? rel) && (0 <? NoDBCacheGetUsedRows c) then
           let begin := NoDBCacheGetBegin c in
           add_sort_unique (add_sort_unique rows begin) (u64 (begin + NoDBCacheGetUsedRows c))
         else rows)
  end.
Definition GetInterestingRows w (rel : Z) : result (list Z) :=
  rows ← cache_rows w rel (NoDBCaches w) [];
  if decide (rows = []) then Ok [] else Ok (add_sort_unique rows 0).

(** ** Well-formed worlds *)
Definition rows_ok c : Prop :=
  0 <= c_startRow c /\ 0 <= c_usedRows c /\ c_startRow c + c_usedRows c < 2 ^ 64.

Record world_ok w : Prop := {
  wo_caches : forall p, p ∈ NoDBCaches w -> exists c lay,
    w_caches w !! p = Some c /\ cache_wf c lay /\ rows_ok c;
  wo_null : 0 ∉ NoDBCaches w;
  wo_next : forall p, is_Some (w_caches w !! p) -> p < w_next w;
  wo_pos : 0 < w_next w }.

(** Whether the cache at an address has a column, a row. *)
Definition has_col w (p col : Z) : bool :=
  match w_caches w !! p with
  | Some c => match NoDBCacheHasColumn c col with Ok b => b | Fail _ => false end
  | None => false
  end.
Definition has_row w (p row : Z) : bool :=
  match w_caches w !! p with Some c => NoDBCacheHasRow c row | None => false end.

Lemma get_cache_ok w p : world_ok w -> p ∈ NoDBCaches w ->
  exists c lay, get_cache w p = Ok c /\ w_caches w !! p = Some c /\ cache_wf c lay /\ rows_ok c.
Proof.
  intros Hw Hp. destruct (wo_caches _ Hw p Hp) as (c & lay & E & Hwf & Hr).
  exists c, lay. unfold get_cache. by rewrite E.
Qed.

Lemma has_col_ok w p c lay col :
  w_caches w !! p = Some c -> cache_wf c lay -> 0 <= col ->
  NoDBCacheHasColumn c col = Ok (has_col w p col).
Proof.
  intros E Hwf Hcol. unfold has_col. rewrite E.
  by rewrite (NoDBCacheHasColumn_spec _ _ _ Hwf Hcol).
Qed.

Lemma HasRow_exact c row : rows_ok c ->
  NoDBCacheHasRow c row = bool_decide (c_startRow c <= row < c_startRow c + c_usedRows c).
Proof.
  intros (H0 & H1 & H2). unfold NoDBCacheHasRow, u64. rewrite wrap_small by lia.
  destruct (Z.leb_spec (c_startRow c) row), (Z.ltb_spec row (c_startRow c + c_usedRows c)); simpl;
    symmetry; apply bool_decide_eq_true || apply bool_decide_eq_false; lia.
Qed.

(** ** Selections *)
Lemma select_caches_spec w test (g : Z -> bool) l : forall acc,
  (forall p, p ∈ l -> exists c, get_cache w p = Ok c /\ test c = Ok (g p)) ->
  select_caches w test l acc = Ok (reverse (filter (fun p => g p = true) l) ++ acc).
Proof.
  induction l as [|p l IH]; intros acc H; cbn [select_caches]; [done|].
  destruct (H p) as (c & -> & Ht); [set_solver|]. cbn [mbind result_bind]. rewrite Ht. cbn [mbind result_bind].
  rewrite IH by set_solver. rewrite filter_cons. destruct (g p); simpl; [|done].
  by rewrite reverse_cons, <- app_assoc.
Qed.

Lemma GetCachesWithRow_spec w rel type row :
  world_ok w ->
  exists l, GetCachesWithRow w rel type row = Ok l /\
    forall p, p ∈ l <-> p ∈ NoDBCaches w /\ has_row w p row = true /\
      exists c, w_caches w !! p = Some c /\ of_rel_type rel type c = true.
Proof.
  intros Hw. unfold GetCachesWithRow.
  rewrite (select_caches_spec _ _ (fun p => match w_caches w !! p with
    | Some c => of_rel_type rel type c && NoDBCacheHasRow c row | None => false end)).
  - eexists. split; [done|]. intros p. rewrite app_nil_r, elem_of_reverse, list_elem_of_filter.
    unfold has_row. destruct (w_caches w !! p) as [c|] eqn:E; [|naive_solver].
    rewrite andb_true_iff. naive_solver.
  - intros p Hp. destruct (get_cache_ok _ _ Hw Hp) as (c & lay & E & -> & _). eauto.
Qed.

(** ** Interesting rows *)
Lemma sorted_consecutive (rows : list Z) i lo hi x :
  StronglySorted Z.lt rows -> rows !! i = Some lo -> rows !! S i = Some hi -> x ∈ rows ->
  x <= lo \/ hi <= x.
Proof.
  intros Hs. revert i. induction Hs as [|y rows Hs IH Hf]; intros i Hlo Hhi Hx; [done|].
  rewrite Forall_forall in Hf. destruct i as [|i]; simpl in *.
  - simplify_eq. apply elem_of_cons in Hx as [->|Hx]; [lia|]. right.
    destruct rows as [|z rows]; [done|]. simplify_eq/=. apply elem_of_cons in Hx as [->|Hx]; [lia|].
    inversion_clear Hs as [|? ? _ Hf']. rewrite Forall_forall in Hf'. specialize (Hf' _ Hx). lia.
  - apply elem_of_cons in Hx as [->|Hx]; [|by eapply IH].
    left. assert (y < lo) by (apply Hf; by eapply list_elem_of_lookup_2). lia.
Qed.

Definition row_edges w (rel : Z) (l : list Z) (x : Z) : Prop :=
  exists p c, p ∈ l /\ w_caches w !! p = Some c /\ c_rel c = rel /\ 0 < c_usedRows c /\
    (x = c_startRow c \/ x = c_startRow c + c_usedRows c).

Lemma cache_rows_spec w rel l : forall rows,
  (forall p, p ∈ l -> exists c, w_caches w !! p = Some c /\ rows_ok c) -> StronglySorted Z.lt rows ->
  exists rows', cache_rows w rel l rows = Ok rows' /\ StronglySorted Z.lt rows' /\
    forall x, x ∈ rows' <-> x ∈ rows \/ row_edges w rel l x.
Proof.
  induction l as [|p l IH]; intros rows Hl Hs; cbn [cache_rows].
  - exists rows. split_and!; [done..|]. intros x. split; [by left|]. intros [?|(? & ? & H & _)]; [done|set_solver].
  - destruct (Hl p) as (c & E & Hr0 & Hr1 & Hr2); [set_solver|].
    unfold get_cache. rewrite E. cbn [mbind result_bind].
    destruct (IH (if (NoDBCacheGetRelation c =? rel) && (0 <? NoDBCacheGetUsedRows c) then
       add_sort_unique (add_sort_unique rows (NoDBCacheGetBegin c))
         (u64 (NoDBCacheGetBegin c + NoDBCacheGetUsedRows c)) else rows)) as (rows' & -> & Hs' & Hx).
    { set_solver. } { case_match; [by repeat apply Sorted_add_sort_unique|done]. }
    exists rows'. split_and!; [done..|]. intros x. rewrite Hx. clear IH.
    unfold NoDBCacheGetRelation, NoDBCacheGetUsedRows, NoDBCacheGetBegin, u64. rewrite wrap_small by lia.
    assert (Hcons : row_edges w rel (p :: l) x <-> row_edges w rel l x \/ row_edges w rel [p] x)
      by (unfold row_edges; set_solver).
    rewrite Hcons. clear Hx Hcons Hs'.
    destruct (Z.eqb_spec (c_rel c) rel) as [Hrel|Hrel], (Z.ltb_spec 0 (c_usedRows c)) as [Hu|Hu]; cbn [andb];
      rewrite ?elem_of_add_sort_unique;
      assert (row_edges w rel [p] x <-> c_rel c = rel /\ 0 < c_usedRows c /\
        (x = c_startRow c \/ x = c_startRow c + c_usedRows c)) as ->
        by (unfold row_edges; split; [intros (p' & c' & ->%list_elem_of_singleton & ? & ?); simplify_eq; tauto
            |intros; exists p, c; split_and!; naive_solver set_solver]);
      naive_solver lia.
Qed.

Lemma GetInterestingRows_spec w rel :
  world_ok w ->
  exists rows, GetInterestingRows w rel = Ok rows /\ StronglySorted Z.lt rows /\
    (forall x, x ∈ rows <-> row_edges w rel (NoDBCaches w) x \/ (x = 0 /\ rows <> [])) /\
    (rows <> [] -> exists x, row_edges w rel (NoDBCaches w) x).
Proof.
  intros Hw. unfold GetInterestingRows.
  destruct (cache_rows_spec w rel (NoDBCaches w) []) as (rows & -> & Hs & Hx).
  - intros p Hp. destruct (wo_caches _ Hw p Hp) as (c & lay & ? & _ & ?). eauto.
  - constructor.
  - cbn [mbind result_bind]. case_decide as E; subst.
    + exists []. split_and!; [done|constructor| |done]. intros x. specialize (Hx x). set_solver.
    + exists (add_sort_unique rows 0). split_and!; [done|by apply Sorted_add_sort_unique| |].
      * intros x. rewrite elem_of_add_sort_unique, Hx.
        assert (add_sort_unique rows 0 <> []).
        { intros H. assert (0 ∈ add_sort_unique rows 0) by (apply elem_of_add_sort_unique; by left).
          rewrite H in *. set_solver. }
        set_solver.
      * intros _. destruct rows as [|x rows]; [done|]. exists x. specialize (Hx x). set_solver.
Qed.

Lemma rows_constant w rel rows i lo hi p c row :
  world_ok w -> StronglySorted Z.lt rows ->
  (forall x, row_edges w rel (NoDBCaches w) x -> x ∈ rows) ->
  rows !! i = Some lo -> rows !! S i = Some hi ->
  p ∈ NoDBCaches w -> w_caches w !! p = Some c -> c_rel c = rel -> lo <= row < hi ->
  NoDBCacheHasRow c row = NoDBCacheHasRow c lo.
Proof.
  intros Hw Hs Hx Hlo Hhi Hp Hc Hrel Hrow.
  destruct (wo_caches _ Hw p Hp) as (c' & lay & Hc' & _ & Hr). simplify_eq.
  rewrite !HasRow_exact by done. destruct Hr as (H0 & H1 & H2). apply bool_decide_ext.
  destruct (decide (c_usedRows c = 0)) as [E|E]; [lia|].
  assert (Hb : c_startRow c ∈ rows) by (apply Hx; exists p, c; split_and!; try done; [lia|by left]).
  assert (He : c_startRow c + c_usedRows c ∈ rows) by (apply Hx; exists p, c; split_and!; try done; [lia|by right]).
  destruct (sorted_consecutive _ _ _ _ _ Hs Hlo Hhi Hb), (sorted_consecutive _ _ _ _ _ Hs Hlo Hhi He); lia.
Qed.

(** ** The best cache *)
Definition hits w (colList : list Z) (p : Z) : nat := length (filter (fun col => has_col w p col = true) colList).

Lemma count_cols_spec w p c lay add colList : forall acc n,
  w_caches w !! p = Some c -> cache_wf c lay -> Forall (fun col => 0 <= col) colList ->
  (forall l x y, y ∈ add l x <-> y = x \/ y ∈ l) ->
  exists cols, count_cols add c colList acc n = Ok (cols, n + Z.of_nat (hits w colList p)) /\
    (forall x, x ∈ cols <-> x ∈ acc \/ (x ∈ colList /\ has_col w p x = true)) /\
    ((forall l x, NoDup l -> NoDup (add l x)) -> NoDup acc -> NoDup cols).
Proof.
  intros acc n Hp Hwf Hpos Hadd. revert acc n. induction colList as [|col l IH]; intros acc n; cbn [count_cols].
  - exists acc. rewrite Z.add_0_r. split_and!; [done| |done]. set_solver.
  - apply Forall_cons in Hpos as [Hcol Hpos]. rewrite (has_col_ok _ _ _ _ _ Hp Hwf Hcol). cbn [mbind result_bind].
    unfold hits. rewrite filter_cons. destruct (has_col w p col) eqn:E.
    + destruct (IH Hpos (add acc col) (n + 1)) as (cols & -> & Hx & Hn). exists cols.
      rewrite decide_True by done. cbn [length]. split_and!.
      * do 2 f_equal. unfold hits. lia.
      * intros x. rewrite Hx, Hadd, elem_of_cons. naive_solver.
      * intros Ha Hacc. apply Hn; auto.
    + destruct (IH Hpos acc n) as (cols & -> & Hx & Hn). exists cols. rewrite decide_False by done.
      split_and!; [done| |done]. intros x. rewrite Hx, elem_of_cons. naive_solver congruence.
Qed.

Definition hit_ok w (hitCol : Z) (colList : list Z) (p : Z) (cols : list Z) : Prop :=
  has_col w p hitCol = true /\ NoDup cols /\
  forall x, x ∈ cols <-> (x = hitCol \/ x ∈ colList) /\ has_col w p x = true.

Lemma best_hit_spec w hitCol colList caches : forall best bestN seen,
  world_ok w -> (forall p, p ∈ caches -> p ∈ NoDBCaches w) -> 0 <= hitCol ->
  Forall (fun col => 0 <= col) colList ->
  match best with
  | None => bestN = 0 /\ forall p, p ∈ seen -> has_col w p hitCol = false
  | Some (p, cols) => bestN = 1 + Z.of_nat (hits w colList p) /\ p ∈ seen /\ hit_ok w hitCol colList p cols /\
      forall q, q ∈ seen -> has_col w q hitCol = true -> (hits w colList q <= hits w colList p)%nat
  end ->
  exists best', best_hit w caches hitCol colList best bestN = Ok best' /\
    match best' with
    | None => forall p, p ∈ seen ++ caches -> has_col w p hitCol = false
    | Some (p, cols) => p ∈ seen ++ caches /\ hit_ok w hitCol colList p cols /\
        forall q, q ∈ seen ++ caches -> has_col w q hitCol = true -> (hits w colList q <= hits w colList p)%nat
    end.
Proof.
  induction caches as [|p l IH]; intros best bestN seen Hw Hl Hcol Hpos Hb; cbn [best_hit].
  - exists best. split; [done|]. rewrite app_nil_r. destruct best as [[p cols]|]; tauto.
  - destruct (get_cache_ok w p Hw) as (c & lay & -> & Hp & Hwf & _); [apply Hl; set_solver|].
    cbn [mbind result_bind]. rewrite (has_col_ok _ _ _ _ _ Hp Hwf Hcol). cbn [mbind result_bind].
    rewrite (cons_middle p seen l), app_assoc.
    destruct (has_col w p hitCol) eqn:Eh; cbn [negb].
    + destruct (count_cols_spec w p c lay add_unique colList [hitCol] 1 Hp Hwf Hpos) as (cols & -> & Hx & Hn).
      { intros. apply elem_of_add_unique. }
      cbn [mbind result_bind fst snd].
      destruct (Z.ltb_spec bestN (1 + Z.of_nat (hits w colList p))) as [Hlt|Hge];
        (apply IH; [done|set_solver|done|done|]).
      * split_and!; [done|set_solver| |].
        -- split_and!; [done|apply Hn; [apply NoDup_add_unique|apply NoDup_singleton]|].
           intros x. rewrite Hx, list_elem_of_singleton.
           split; [intros [->|[? ?]]; auto|intros [[->|?] ?]; auto].
        -- intros q [Hq| ->%list_elem_of_singleton]%elem_of_app Hh; [|done].
           destruct best as [[p' cols']|]; [|destruct Hb as [_ Hb]; by rewrite (Hb q Hq) in Hh].
           destruct Hb as (? & _ & _ & Hmax). specialize (Hmax q Hq Hh). lia.
      * destruct best as [[p' cols']|]; [|lia]. destruct Hb as (? & ? & ? & Hmax). split_and!; [done|set_solver|done|].
        intros q [Hq| ->%list_elem_of_singleton]%elem_of_app Hh; [by apply Hmax|lia].
    + apply IH; try done; [set_solver|]. destruct best as [[p' cols']|].
      * destruct Hb as (? & ? & ? & Hmax). split_and!; [done|set_solver|done|].
        intros q [Hq| ->%list_elem_of_singleton]%elem_of_app Hh; [by apply Hmax|congruence].
      * destruct Hb as [? Hb]. split; [done|]. intros q [Hq| ->%list_elem_of_singleton]%elem_of_app; auto.
Qed.

(** ** Caches that can grow, caches with room *)
Lemma select_caches_total w test l :
  (forall p, p ∈ l -> exists c b, w_caches w !! p = Some c /\ test c = Ok b) ->
  exists l', select_caches w test l [] = Ok l' /\
    forall p, p ∈ l' <-> p ∈ l /\ exists c, w_caches w !! p = Some c /\ test c = Ok true.
Proof.
  intros H.
  rewrite (select_caches_spec _ _ (fun p => match w_caches w !! p with
    | Some c => match test c with Ok b => b | Fail _ => false end | None => false end)).
  - eexists. split; [done|]. intros p. rewrite app_nil_r, elem_of_reverse, list_elem_of_filter.
    split.
    + intros [Hg Hp]. split; [done|]. destruct (H p Hp) as (c & b & E & Et). exists c.
      rewrite E, Et in Hg. by subst.
    + intros [Hp (c & E & Et)]. by rewrite E, Et.
  - intros p Hp. destruct (H p Hp) as (c & b & E & Et). exists c. unfold get_cache. by rewrite E, Et.
Qed.

Lemma CacheContainsSubset_spec c lay cols :
  cache_wf c lay ->
  CacheContainsSubset c cols = Ok (bool_decide (Forall (fun col => col ∈ cols) (lay_cols lay))).
Proof.
  intros Hwf. destruct (wf_cols _ _ Hwf) as (cs & tl & Ec & Hp & Hu & _). unfold CacheContainsSubset.
  rewrite (bool_decide_ext _ (Forall (fun col => col ∈ cols) cs)) by by rewrite Hp.
  destruct (search_range_pure 0 (c_usedCols c) (fun i =>
    col ← arr_get (c_cols c) i; Ok (if bool_decide (col ∈ cols) then None else Some false))
    (fun i => if bool_decide (default (-1) (cs !! Z.to_nat i) ∈ cols) then None else Some false) true)
    as [(i & r & Hi & Hg & _ & ->)|(Hg & ->)].
  - intros i Hi. destruct (lookup_lt_is_Some_2 cs (Z.to_nat i)) as [x Hx]; [lia|].
    replace (arr_get (c_cols c) i) with (Ok x); [by rewrite Hx|]. symmetry. apply arr_get_lookup.
    split; [lia|]. rewrite Ec, lookup_app_l by (rewrite length_fmap; lia). by rewrite list_lookup_fmap, Hx.
  - case_bool_decide as Hin; [done|]. simplify_eq. f_equal. symmetry. apply bool_decide_eq_false_2.
    intros Hall. apply Hin. destruct (lookup_lt_is_Some_2 cs (Z.to_nat i)) as [x Hx]; [lia|]. rewrite Hx.
    eapply Forall_lookup_1 in Hall; eauto.
  - f_equal. symmetry. apply bool_decide_eq_true_2, Forall_lookup_2. intros i x Hx.
    pose proof (lookup_lt_Some _ _ _ Hx). specialize (Hg (Z.of_nat i)). rewrite Nat2Z.id, Hx in Hg.
    case_bool_decide; [done|]. specialize (Hg ltac:(lia)). done.
Qed.

Lemma has_any_spec w p c lay cols :
  w_caches w !! p = Some c -> cache_wf c lay -> Forall (fun col => 0 <= col) cols ->
  exists b, has_any c cols = Ok b /\ (b = true <-> exists col, col ∈ cols /\ has_col w p col = true).
Proof.
  intros Hp Hwf. induction cols as [|col l IH]; intros Hpos; cbn [has_any].
  - exists false. split; [done|]. split; [done|]. intros (col & Hc & _). by apply elem_of_nil in Hc.
  - apply Forall_cons in Hpos as [Hcol Hpos]. rewrite (has_col_ok _ _ _ _ _ Hp Hwf Hcol). cbn [mbind result_bind].
    destruct (has_col w p col) eqn:E.
    + exists true. split; [done|]. split; [|done]. intros _. exists col. split; [by left|done].
    + destruct (IH Hpos) as (b & -> & Hb). exists b. split; [done|]. rewrite Hb. split.
      * intros (x & Hx & Hh). exists x. split; [by right|done].
      * intros (x & [->|Hx]%elem_of_cons & Hh); [congruence|eauto].
Qed.

(** A cache of this relation and type that begins at the row or after it, and
    has one of the columns. *)
Definition starts_at_or_after w (rel : Z) (type : NoDBCacheType_t) (cols : list Z) (row : Z) (p : Z) : Prop :=
  exists c, w_caches w !! p = Some c /\ of_rel_type rel type c = true /\ row <= c_startRow c /\
    exists col, col ∈ cols /\ has_col w p col = true.

Lemma starts_below_spec w rel type cols row l :
  world_ok w -> (forall p, p ∈ l -> p ∈ NoDBCaches w) -> Forall (fun col => 0 <= col) cols ->
  exists b, starts_below w rel type cols row l = Ok b /\
    (b = true <-> exists p, p ∈ l /\ starts_at_or_after w rel type cols row p).
Proof.
  intros Hw Hl Hpos. induction l as [|p l IH]; cbn [starts_below].
  - exists false. split; [done|]. split; [done|]. intros (p & Hp & _). by apply elem_of_nil in Hp.
  - destruct IH as (b & Eb & Hb); [intros; apply Hl; by right|].
    destruct (get_cache_ok w p Hw) as (c & lay & -> & Hp & Hwf & _); [apply Hl; by left|]. cbn [mbind result_bind].
    destruct (has_any_spec w p c lay cols Hp Hwf Hpos) as (b' & Eb' & Hb').
    assert (Hrest : ~ starts_at_or_after w rel type cols row p ->
      (b = true <-> exists p0, p0 ∈ p :: l /\ starts_at_or_after w rel type cols row p0)).
    { intros Hn. rewrite Hb. split; [intros (x & ? & ?); exists x; split; [by right|done]|].
      intros (x & [->|Hx]%elem_of_cons & Hs); [done|eauto]. }
    destruct (of_rel_type rel type c && (row <=? NoDBCacheGetBegin c)) eqn:E.
    + apply andb_true_iff in E as [Et Er%Z.leb_le]. rewrite Eb'. cbn [mbind result_bind]. destruct b'.
      * exists true. split; [done|]. split; [|done]. intros _. exists p. split; [by left|].
        exists c. split_and!; [done..|]. by apply Hb'.
      * exists b. split; [done|]. apply Hrest. intros (c' & ? & _ & _ & Hx). simplify_eq. by apply Hb' in Hx.
    + exists b. split; [done|]. apply Hrest. intros (c' & ? & Ht & Hr & _). simplify_eq.
      rewrite Ht in E. cbn [andb] in E. apply Z.leb_gt in E. unfold NoDBCacheGetBegin in E. lia.
Qed.

(** What the search for a cache to grow asks of a cache. *)
Definition can_grow w (rel : Z) (type : NoDBCacheType_t) (col row : Z) (cols : list Z) (p : Z) : Prop :=
  exists c, w_caches w !! p = Some c /\ of_rel_type rel type c = true /\ c_startRow c <= row /\
    has_col w p col = true /\ (forall x, 0 <= x -> has_col w p x = true -> x ∈ cols) /\
    ~ exists p', p' ∈ NoDBCaches w /\
        starts_at_or_after w rel type cols (c_startRow c + c_usedRows c) p'.

Lemma has_col_layout w p c lay col :
  w_caches w !! p = Some c -> cache_wf c lay -> 0 <= col ->
  has_col w p col = bool_decide (col ∈ lay_cols lay).
Proof.
  intros Hp Hwf Hcol. pose proof (has_col_ok _ _ _ _ _ Hp Hwf Hcol) as E.
  rewrite (NoDBCacheHasColumn_spec _ _ _ Hwf Hcol) in E. by injection E.
Qed.

Lemma GetCachesCanGrow_spec w rel type col row cols :
  world_ok w -> 0 <= col -> Forall (fun col => 0 <= col) cols ->
  exists l, GetCachesCanGrow w rel type col row cols = Ok l /\
    forall p, p ∈ l <-> row <> 0 /\ p ∈ NoDBCaches w /\ can_grow w rel type col row cols p.
Proof.
  intros Hw Hcol Hpos. unfold GetCachesCanGrow. destruct (Z.eqb_spec row 0) as [->|Hrow].
  { exists []. split; [done|]. intros p. rewrite elem_of_nil. tauto. }
  match goal with |- context [select_caches w ?t _ _] => set (test := t) end.
  assert (Ht : forall p, p ∈ NoDBCaches w -> exists c b, w_caches w !! p = Some c /\ test c = Ok b /\
    (b = true <-> can_grow w rel type col row cols p)).
  { intros p Hp. destruct (get_cache_ok w p Hw Hp) as (c & lay & _ & Ec & Hwf & Hr). exists c. unfold test.
    assert (Hcan : can_grow w rel type col row cols p <-> of_rel_type rel type c = true /\ c_startRow c <= row /\
      has_col w p col = true /\ Forall (fun col => col ∈ cols) (lay_cols lay) /\
      ~ exists p', p' ∈ NoDBCaches w /\
          starts_at_or_after w rel type cols (c_startRow c + c_usedRows c) p').
    { assert (Hsub : (forall x, 0 <= x -> has_col w p x = true -> x ∈ cols) <->
        Forall (fun col => col ∈ cols) (lay_cols lay)).
      { rewrite Forall_forall. split.
        - intros H x Hx. pose proof (wf_map_cols _ _ Hwf x Hx). apply H; [lia|].
          rewrite (has_col_layout w p c lay) by (done || lia).
          by apply bool_decide_eq_true_2.
        - intros H x H0. rewrite (has_col_layout w p c lay) by (done || lia). intros Hx%bool_decide_eq_true. auto. }
      rewrite <- Hsub. unfold can_grow. split; [intros (c' & ? & ?); simplify_eq; tauto|intros; exists c; tauto]. }
    unfold NoDBCacheCanGrow. destruct (of_rel_type rel type c) eqn:Et; cbn [andb].
    2: { exists false. rewrite Hcan. split_and!; [done..|]. split; [done|]. by intros [? _]. }
    destruct (Z.leb_spec (c_startRow c) row).
    2: { exists false. rewrite Hcan. split_and!; [done..|]. split; [done|]. intros (_ & ? & _). lia. }
    rewrite (has_col_ok _ _ _ _ _ Ec Hwf Hcol). cbn [mbind result_bind]. destruct (has_col w p col); cbn [negb].
    2: { exists false. rewrite Hcan. split_and!; [done..|]. split; [done|]. by intros (_ & _ & ? & _). }
    rewrite (CacheContainsSubset_spec _ _ _ Hwf). cbn [mbind result_bind]. case_bool_decide as Hs; cbn [negb].
    2: { exists false. rewrite Hcan. split_and!; [done..|]. split; [done|]. by intros (_ & _ & _ & ? & _). }
    unfold CacheStartsBelow, NoDBCacheGetBegin, NoDBCacheGetUsedRows, u64. destruct Hr as (? & ? & ?).
    rewrite wrap_small by lia.
    destruct (starts_below_spec w rel type cols (c_startRow c + c_usedRows c) (NoDBCaches w)) as (b & -> & Hb);
      [done..|]. cbn [mbind result_bind]. exists (negb b). split_and!; [done..|]. rewrite Hcan, <- Hb.
    destruct b; naive_solver. }
  destruct (select_caches_total w test (NoDBCaches w)) as (l & -> & Hl).
  { intros p Hp. destruct (Ht p Hp) as (c & b & ? & ? & _). eauto. }
  exists l. split; [done|]. intros p. rewrite Hl. split.
  - intros [Hp (c & Ec & Etc)]. destruct (Ht p Hp) as (c' & b & ? & Eb & Hb). simplify_eq.
    rewrite Etc in Eb. injection Eb as <-. split_and!; [done..|]. by apply Hb.
  - intros (_ & Hp & Hc). split; [done|]. destruct (Ht p Hp) as (c & b & Ec & Eb & Hb). exists c.
    split; [done|]. rewrite Eb. f_equal. by apply Hb.
Qed.

Lemma count_cols_nodup w p c lay colList :
  w_caches w !! p = Some c -> cache_wf c lay -> Forall (fun col => 0 <= col) colList -> NoDup colList ->
  exists cols, count_cols (fun l col => col :: l) c colList [] 0 = Ok (cols, Z.of_nat (hits w colList p)) /\
    (forall x, x ∈ cols <-> x ∈ colList /\ has_col w p x = true) /\ NoDup cols.
Proof.
  intros Hp Hwf Hpos Hnd.
  assert (H : forall acc n, (forall x, x ∈ acc -> x ∉ colList) -> NoDup acc ->
    exists cols, count_cols (fun l col => col :: l) c colList acc n = Ok (cols, n + Z.of_nat (hits w colList p)) /\
    (forall x, x ∈ cols <-> x ∈ acc \/ x ∈ colList /\ has_col w p x = true) /\ NoDup cols).
  { induction colList as [|col l IH]; intros acc n Hacc Hna; cbn [count_cols].
    - exists acc. rewrite Z.add_0_r. split_and!; [done| |done]. intros x. rewrite elem_of_nil. tauto.
    - apply Forall_cons in Hpos as [Hcol Hpos]. apply NoDup_cons in Hnd as [Hnin Hnd].
      rewrite (has_col_ok _ _ _ _ _ Hp Hwf Hcol). cbn [mbind result_bind].
      unfold hits. rewrite filter_cons. destruct (has_col w p col) eqn:E.
      + destruct (IH Hpos Hnd (col :: acc) (n + 1)) as (cols & -> & Hx & Hn).
        { intros x [->|Hx]%elem_of_cons; [done|]. specialize (Hacc x Hx). rewrite elem_of_cons in Hacc. tauto. }
        { apply NoDup_cons. split; [|done]. intros Hc. apply (Hacc _ Hc). by left. }
        exists cols. rewrite decide_True by done. cbn [length]. split_and!; [do 2 f_equal; unfold hits; lia| |done].
        intros x. rewrite Hx, !elem_of_cons. split.
        * intros [[->|?]|[? ?]]; auto.
        * intros [?|[[->|?] ?]]; auto.
      + destruct (IH Hpos Hnd acc n) as (cols & -> & Hx & Hn); [|done|].
        { intros x Hx. specialize (Hacc x Hx). rewrite elem_of_cons in Hacc. tauto. }
        exists cols. rewrite decide_False by congruence. split_and!; [done| |done].
        intros x. rewrite Hx, elem_of_cons. split; [tauto|]. intros [?|[[->|?] ?]]; [auto|congruence|auto]. }
  destruct (H [] 0) as (cols & -> & Hx & Hn); [intros x Hx; by apply elem_of_nil in Hx|constructor|].
  exists cols. split_and!; [done| |done]. intros x. rewrite Hx, elem_of_nil. tauto.
Qed.

Lemma best_grow_spec w colList caches : forall best bestN seen,
  world_ok w -> (forall p, p ∈ caches -> p ∈ NoDBCaches w) -> Forall (fun col => 0 <= col) colList -> NoDup colList ->
  match best with
  | None => bestN = 0 /\ forall p, p ∈ seen -> hits w colList p = 0%nat
  | Some (p, cols) => bestN = Z.of_nat (hits w colList p) /\ p ∈ seen /\ NoDup cols /\
      (forall x, x ∈ cols <-> x ∈ colList /\ has_col w p x = true) /\
      forall q, q ∈ seen -> (hits w colList q <= hits w colList p)%nat
  end ->
  exists best', best_grow w caches colList best bestN = Ok best' /\
    match best' with
    | None => forall p, p ∈ seen ++ caches -> hits w colList p = 0%nat
    | Some (p, cols) => p ∈ seen ++ caches /\ NoDup cols /\
        (forall x, x ∈ cols <-> x ∈ colList /\ has_col w p x = true) /\
        forall q, q ∈ seen ++ caches -> (hits w colList q <= hits w colList p)%nat
    end.
Proof.
  induction caches as [|p l IH]; intros best bestN seen Hw Hl Hpos Hnd Hb; cbn [best_grow].
  - exists best. split; [done|]. rewrite app_nil_r. destruct best as [[p cols]|]; tauto.
  - destruct (get_cache_ok w p Hw) as (c & lay & -> & Hp & Hwf & _); [apply Hl; by left|].
    cbn [mbind result_bind]. rewrite (cons_middle p seen l), app_assoc.
    destruct (count_cols_nodup w p c lay colList Hp Hwf Hpos Hnd) as (cols & -> & Hx & Hn).
    cbn [mbind result_bind fst snd].
    destruct (Z.ltb_spec bestN (Z.of_nat (hits w colList p))) as [Hlt|Hge];
      (apply IH; [done|intros; apply Hl; by right|done|done|]).
    + split_and!; [done|apply elem_of_app; right; by left|done|done|].
      intros q [Hq| ->%list_elem_of_singleton]%elem_of_app; [|done].
      destruct best as [[p' cols']|].
      * destruct Hb as (? & _ & _ & _ & Hmax). specialize (Hmax q Hq). lia.
      * destruct Hb as [-> Hb]. rewrite (Hb q Hq). lia.
    + destruct best as [[p' cols']|].
      * destruct Hb as (? & ? & ? & ? & Hmax). split_and!; [done|apply elem_of_app; by left|done|done|].
        intros q [Hq| ->%list_elem_of_singleton]%elem_of_app; [by apply Hmax|lia].
      * destruct Hb as [-> Hb]. split; [done|]. intros q [Hq| ->%list_elem_of_singleton]%elem_of_app; [by apply Hb|lia].
Qed.

Lemma hits_pos w colList p col : col ∈ colList -> has_col w p col = true -> (0 < hits w colList p)%nat.
Proof.
  intros Hin Hh. unfold hits.
  assert (Hf : col ∈ filter (fun col => has_col w p col = true) colList) by by apply list_elem_of_filter.
  destruct (filter _ colList); [by apply elem_of_nil in Hf|simpl; lia].
Qed.

(** The search for a cache to grow finds one that can grow, if there is one,
    and returns the columns of the list that it has. *)
Lemma GetBestCacheToGrow_spec w colList caches col :
  world_ok w -> (forall p, p ∈ caches -> p ∈ NoDBCaches w /\ has_col w p col = true) ->
  Forall (fun col => 0 <= col) colList -> NoDup colList -> col ∈ colList ->
  (caches = [] /\ GetBestCacheToGrow w caches colList = Ok None) \/
  exists p cols, GetBestCacheToGrow w caches colList = Ok (Some (p, cols)) /\ p ∈ caches /\ NoDup cols /\
    (forall x, x ∈ cols <-> x ∈ colList /\ has_col w p x = true) /\
    forall q, q ∈ caches -> (hits w colList q <= hits w colList p)%nat.
Proof.
  intros Hw Hc Hpos Hnd Hcol. unfold GetBestCacheToGrow.
  destruct (best_grow_spec w colList caches None 0 []) as ([[p cols]|] & -> & Hb); [done|by apply Hc|done|done| | |].
  - split; [done|]. intros p Hp. by apply elem_of_nil in Hp.
  - right. exists p, cols. split; [done|]. rewrite app_nil_l in Hb. destruct Hb as (? & ? & ? & ?). by split_and!.
  - left. destruct caches as [|p l]; [done|]. destruct (Hc p) as [_ Hh]; [by left|].
    rewrite app_nil_l in Hb. pose proof (Hb p ltac:(by left)). pose proof (hits_pos w colList p col Hcol Hh). lia.
Qed.

Lemma GetCachesFreeColumns_spec w rel type limit row size :
  world_ok w ->
  exists l, GetCachesFreeColumns w rel type limit row size = Ok l /\
    forall p, p ∈ l -> p ∈ NoDBCaches w /\ exists c, w_caches w !! p = Some c /\
      of_rel_type rel type c = true /\ c_startRow c = row /\ size <= c_rowFree c.
Proof.
  intros Hw. unfold GetCachesFreeColumns.
  match goal with |- context [select_caches w ?t _ _] => set (test := t) end.
  destruct (select_caches_total w test (NoDBCaches w)) as (l & -> & Hl).
  { intros p Hp. destruct (get_cache_ok w p Hw Hp) as (c & _ & _ & Ec & _). unfold test. eauto. }
  exists l. split; [done|]. intros p [Hp (c & Ec & Ht)]%Hl. split; [done|]. exists c. unfold test in Ht.
  injection Ht as Ht. rewrite !andb_true_iff in Ht. destruct Ht as [[[Ht Hb%Z.eqb_eq] Hf%Z.leb_le] _].
  by split_and!.
Qed.

(** The cache with most free space, or [NULL] when none has any. *)
Lemma best_free_spec w caches : forall best n seen,
  (forall p, p ∈ caches -> exists c, w_caches w !! p = Some c) ->
  0 <= n -> (best = 0 /\ n = 0 \/ best ∈ seen /\ exists c, w_caches w !! best = Some c /\ c_rowFree c = n /\ 0 < n) ->
  (forall q c, q ∈ seen -> w_caches w !! q = Some c -> c_rowFree c <= n) ->
  exists p, best_free w caches best n = Ok p /\ exists n',
    (p = 0 /\ n' = 0 \/ p ∈ seen ++ caches /\ exists c, w_caches w !! p = Some c /\ c_rowFree c = n' /\ 0 < n') /\
    (forall q c, q ∈ seen ++ caches -> w_caches w !! q = Some c -> c_rowFree c <= n').
Proof.
  induction caches as [|p l IH]; intros best n seen Hc Hn Hb Hm; cbn [best_free].
  - exists best. split; [done|]. exists n. rewrite app_nil_r. done.
  - destruct (Hc p) as [c Ec]; [by left|]. unfold get_cache. rewrite Ec. cbn [mbind result_bind].
    rewrite (cons_middle p seen l), app_assoc. unfold NoDBCacheGetFreeSize.
    destruct (Z.ltb_spec n (c_rowFree c)); (apply IH; [intros; apply Hc; by right|lia| |]).
    + right. split; [apply elem_of_app; right; by left|]. exists c. split_and!; [done..|lia].
    + intros q c' [Hq| ->%list_elem_of_singleton]%elem_of_app Eq; simplify_eq; [|done].
      specialize (Hm _ _ Hq Eq). lia.
    + destruct Hb as [?|[? ?]]; [by left|right]. split; [apply elem_of_app; by left|done].
    + intros q c' [Hq| ->%list_elem_of_singleton]%elem_of_app Eq; simplify_eq; [|lia]. by eapply Hm.
Qed.

Lemma GetBestCacheToAddColumn_spec w caches :
  (forall p, p ∈ caches -> exists c, w_caches w !! p = Some c) ->
  exists p, GetBestCacheToAddColumn w caches = Ok p /\
    (p = 0 \/ p ∈ caches /\ exists c, w_caches w !! p = Some c /\ 0 < c_rowFree c /\
      forall q c', q ∈ caches -> w_caches w !! q = Some c' -> c_rowFree c' <= c_rowFree c).
Proof.
  intros Hc. unfold GetBestCacheToAddColumn.
  destruct (best_free_spec w caches 0 0 []) as (p & -> & n & Hp & Hm); [done|done|by left| |].
  { intros q c Hq. by apply elem_of_nil in Hq. }
  exists p. split; [done|]. rewrite app_nil_l in *.
  destruct Hp as [[-> _]|[Hp (c & Ec & <- & Hn)]]; [by left|right]. split; [done|]. exists c. by split_and!.
Qed.

(** ** Caches with one free partition

    Columns are only ever added, so the free space of a row is one partition at
    its end, and a column fits whenever it is not larger than the free space. *)
Definition tail_free (lay : layout) : Prop :=
  exists (us : list (Z * Z)) (t : layout),
    lay = ((fun x => (Some x.1, x.2)) <$> us) ++ t /\ (t = [] \/ exists s, t = [(None, s)]).

Lemma tail_free_split (l1 : layout) s (l2 : layout) :
  tail_free (l1 ++ (None, s) :: l2) -> l2 = [] /\ exists us : list (Z * Z), l1 = (fun x => (Some x.1, x.2)) <$> us.
Proof.
  intros (us & t & E & Ht).
  revert us E. induction l1 as [|x l1 IH]; intros [|u us] E; simpl in E.
  - destruct Ht as [->|[s' ->]]; simplify_eq. split; [done|]. by exists [].
  - simplify_eq.
  - destruct Ht as [->|[s' ->]]; [done|]. destruct l1; simplify_eq/=.
  - simplify_eq. destruct (IH us) as [-> [us' ->]]; [done|]. split; [done|]. by exists (u :: us').
Qed.

Lemma tail_free_take (l1 : layout) col size s (l2 : layout) :
  tail_free (l1 ++ (None, s) :: l2) -> tail_free (take_partition l1 col size s l2).
Proof.
  intros [-> [us ->]]%tail_free_split. unfold take_partition.
  exists (us ++ [(col, size)]), (if s =? size then [] else [(None, s - size)]).
  rewrite fmap_app, <- app_assoc. simpl. split; [by destruct (s =? size)|]. destruct (s =? size); eauto.
Qed.

Lemma lay_free_used (us : list (Z * Z)) : lay_free ((fun x => (Some x.1, x.2)) <$> us) = 0.
Proof. induction us as [|u us IH]; [done|]. rewrite fmap_cons. cbn [lay_free foldr fst]. fold (lay_free ((fun x => (Some x.1, x.2)) <$> us)). lia. Qed.

Lemma tail_free_fits (lay : layout) size : tail_free lay -> 0 < lay_free lay -> size <= lay_free lay -> ~ no_fit lay size.
Proof.
  intros (us & t & -> & Ht) Hpos Hle Hno. rewrite lay_free_app, lay_free_used in *.
  destruct Ht as [->|[s ->]]; simpl in *; [lia|].
  specialize (Hno s). rewrite elem_of_app, list_elem_of_singleton in Hno. specialize (Hno (or_intror eq_refl)). lia.
Qed.

(** Adding a column that fits: the cache has it afterwards, with every column
    it had before, and nothing else changes. *)
Lemma NoDBCacheAddColumn_fits c lay col size :
  cache_wf c lay -> tail_free lay -> 0 <= col < Z.of_nat (length (c_offset c)) ->
  0 <= size <= c_rowFree c -> 0 < c_rowFree c ->
  exists c' r lay', NoDBCacheAddColumn c col size = Ok (c', r) /\ same_rows c c' /\
    cache_wf c' lay' /\ tail_free lay' /\
    forall x, x ∈ lay_cols lay' <-> x = col \/ x ∈ lay_cols lay.
Proof.
  intros Hwf Ht Hcol Hsz Hpos.
  destruct (NoDBCacheAddColumn_spec c lay col size Hwf Hcol) as (c' & r & E & Hs & Hr); [lia|].
  rewrite (wf_free _ _ Hwf) in *.
  destruct Hr as [(-> & _ & l1 & s & l2 & -> & _ & _ & Hwf')|(-> & [Hin|Hno] & Hwf')].
  - exists c', 1, (take_partition l1 col size s l2). split_and!; [done..|by apply tail_free_take|].
    intros x. destruct (taken_cols l1 col size s l2) as [-> ->]. rewrite !elem_of_app, elem_of_cons. tauto.
  - exists c', 0, lay. split_and!; [done..|]. intros x. split; [by right|]. by intros [->|?].
  - exfalso. apply (tail_free_fits lay size); [done|done|lia|done].
Qed.

Lemma set_rows_wf c lay used : cache_wf c lay -> cache_wf (set_rows c used) lay.
Proof. intros []. by split. Qed.

(** A cache made by adding columns to a new one. *)
Fixpoint add_cols c (cols : list (Z * Z)) : result NoDBCache_t :=
  match cols with
  | [] => Ok c
  | (col, size) :: l => x ← NoDBCacheAddColumn c col size; add_cols x.1 l
  end.
Definition make_cache (relp : Z) (rel : NoDBRelation_t) (type : NoDBCacheType_t) (start size : Z)
    (cols : list (Z * Z)) (used : Z) : result NoDBCache_t :=
  c ← NoDBCacheInit relp rel type start size; c' ← add_cols c cols; Ok (set_rows c' used).

Lemma add_cols_wf cols : forall c c' lay,
  cache_wf c lay -> tail_free lay ->
  Forall (fun x => 0 <= x.1 < Z.of_nat (length (c_offset c)) /\ 0 <= x.2) cols ->
  add_cols c cols = Ok c' ->
  exists lay', cache_wf c' lay' /\ tail_free lay' /\ same_rows c c'.
Proof.
  induction cols as [|[col size] l IH]; intros c c' lay Hwf Ht Hall; cbn [add_cols].
  - intros [= <-]. exists lay. split_and!; [done..|apply same_rows_refl].
  - apply Forall_cons in Hall as [[Hc Hs] Hall]. cbn [fst snd] in *.
    destruct (NoDBCacheAddColumn_spec c lay col size Hwf Hc Hs) as (c1 & r & -> & Hsame & Hr).
    cbn [mbind result_bind fst]. intros E.
    assert (exists lay1, cache_wf c1 lay1 /\ tail_free lay1) as (lay1 & Hwf1 & Ht1).
    { destruct Hr as [(_ & _ & l1 & s & l2 & -> & _ & _ & ?)|(_ & _ & ?)]; eauto using tail_free_take. }
    destruct (IH c1 c' lay1 Hwf1 Ht1) as (lay' & ? & ? & Hs'); [|done|].
    + destruct Hsame as (_ & _ & _ & _ & _ & _ & _ & _ & ->). done.
    + exists lay'. split_and!; [done..|]. unfold same_rows in *. intuition congruence.
Qed.

Lemma make_cache_wf relp rel type start size cols used c :
  make_cache relp rel type start size cols used = Ok c ->
  0 <= size < 2 ^ 31 -> 0 <= NoDBRelationGetNumberColumns rel ->
  Forall (fun x => 0 <= x.1 < NoDBRelationGetNumberColumns rel /\ 0 <= x.2) cols ->
  exists lay, cache_wf c lay /\ tail_free lay /\ Z.of_nat (length (c_offset c)) = NoDBRelationGetNumberColumns rel.
Proof.
  intros (c0 & E0 & (c1 & E1 & [= <-])%bind_Ok)%bind_Ok Hsz Hn Hall.
  destruct (NoDBCacheInit_spec relp rel type start size Hsz Hn) as (c0' & E0' & Hwf & Hlen & _).
  rewrite E0 in E0'. injection E0' as <-.
  destruct (add_cols_wf cols c0 c1 [(None, size)] Hwf) as (lay & Hwf1 & Ht1 & Hs); [|by rewrite Hlen|done|].
  { exists [], [(None, size)]. split; [done|]. right. by eexists. }
  exists lay. split_and!; [by apply set_rows_wf|done|]. cbn [set_rows c_offset].
  destruct Hs as (_ & _ & _ & _ & _ & _ & _ & _ & ->). done.
Qed.

Lemma sorted_last (rows : list Z) lo x : StronglySorted Z.lt rows -> last rows = Some lo -> x ∈ rows -> x <= lo.
Proof.
  intros Hs. induction Hs as [|y rows Hs IH Hf]; [done|]. intros Hl Hx. destruct rows as [|z rows].
  - simpl in Hl. simplify_eq. apply list_elem_of_singleton in Hx. lia.
  - rewrite last_cons_cons in Hl. apply elem_of_cons in Hx as [->|Hx]; [|by apply IH].
    rewrite Forall_forall in Hf. apply last_Some_elem_of in Hl. specialize (Hf _ Hl). lia.
Qed.

(** ** Properties *)

(** C32 [GetInterestingRows] cuts the rows of the relation where the caches begin
    and end: the vector is strictly increasing, it is empty exactly when no
    cache of the relation has rows, otherwise it begins with 0 and every other
    entry is the first row of a cache or the row after its last, and no cache
    of the relation gains or loses a row between two neighbours. *)
Theorem GetInterestingRows_partition w rel :
  world_ok w ->
  exists rows, GetInterestingRows w rel = Ok rows /\ StronglySorted Z.lt rows /\
    (rows = [] <-> forall x, ~ row_edges w rel (NoDBCaches w) x) /\
    (rows <> [] -> exists rest, rows = 0 :: rest) /\
    (forall x, x ∈ rows -> x = 0 \/ row_edges w rel (NoDBCaches w) x) /\
    (forall i lo hi p c row, rows !! i = Some lo -> rows !! S i = Some hi ->
       p ∈ NoDBCaches w -> w_caches w !! p = Some c -> c_rel c = rel -> lo <= row < hi ->
       NoDBCacheHasRow c row = NoDBCacheHasRow c lo) /\
    (forall p c lo row, last rows = Some lo -> p ∈ NoDBCaches w -> w_caches w !! p = Some c -> c_rel c = rel ->
       lo <= row -> NoDBCacheHasRow c row = false).
Proof.
  intros Hw. destruct (GetInterestingRows_spec w rel Hw) as (rows & -> & Hs & Hx & Hne).
  exists rows. split_and!; [done|done| | | | |].
  - split.
    + intros -> x Hx'. destruct (Hx x) as [_ H]. by apply elem_of_nil in H; [|left].
    + intros Hno. destruct rows as [|x rows]; [done|]. destruct Hne as [y Hy]; [done|]. by apply Hno in Hy.
  - intros Hn. assert (H0 : 0 ∈ rows) by (apply Hx; by right). destruct rows as [|x rows]; [done|]. exists rows.
    f_equal. apply elem_of_cons in H0 as [->|H0]; [done|].
    inversion_clear Hs as [|? ? _ Hf]. rewrite Forall_forall in Hf. specialize (Hf _ H0).
    destruct (Hx x) as [[(p & c & Hp & Hc & _ & _ & He)|[-> _]] _]; [by left| |done].
    destruct (wo_caches _ Hw p Hp) as (c' & lay & Hc' & _ & (? & ? & ?)). simplify_eq. lia.
  - intros x Hin. apply Hx in Hin as [?|[? _]]; auto.
  - intros i lo hi p c row Hlo Hhi Hp Hc Hrel Hrow.
    apply (rows_constant w rel rows i lo hi p c row); try done. intros x He. apply Hx. by left.
  - intros p c lo row Hlast Hp Hc Hrel Hrow.
    destruct (wo_caches _ Hw p Hp) as (c' & lay & Hc' & _ & Hr). simplify_eq.
    rewrite HasRow_exact by done. destruct Hr as (? & ? & ?). apply bool_decide_eq_false_2. intros Hin.
    assert (He : c_startRow c + c_usedRows c ∈ rows).
    { apply Hx. left. exists p, c. split_and!; try done; [lia|by right]. }
    pose proof (sorted_last rows lo _ Hs Hlast He). lia.
Qed.

(** [GetBestCacheHit] returns [NULL] exactly when no cache of the list has the
    column it is asked for. Otherwise the cache it returns has the column, no
    other cache of the list that has it covers more of the columns to read, and
    the column list is, without duplicates, what the cache has of the column and
    the columns to read. *)
Theorem GetBestCacheHit_correct w caches hitCol colList :
  world_ok w -> (forall p, p ∈ caches -> p ∈ NoDBCaches w) -> 0 <= hitCol ->
  Forall (fun col => 0 <= col) colList ->
  exists best, GetBestCacheHit w caches hitCol colList = Ok best /\
    (best = None <-> forall p, p ∈ caches -> has_col w p hitCol = false) /\
    (forall p cols, best = Some (p, cols) -> p ∈ caches /\ hit_ok w hitCol colList p cols /\
       forall q, q ∈ caches -> has_col w q hitCol = true -> (hits w colList q <= hits w colList p)%nat).
Proof.
  intros Hw Hc Hh Hpos. destruct (best_hit_spec w hitCol colList caches None 0 []) as (best & E & Hb); try done.
  { split; [done|]. intros p Hp. by apply elem_of_nil in Hp. }
  unfold GetBestCacheHit. rewrite E. exists best. split; [done|]. rewrite app_nil_l in Hb.
  destruct best as [[p cols]|].
  - split; [|by intros p' cols' [= <- <-]]. split; [done|]. intros Hn. destruct Hb as (Hp & (Ht & _) & _).
    by rewrite (Hn p Hp) in Ht.
  - split; [|done]. by split.
Qed.

(** ** Witnesses *)
Definition ex_cache (type : NoDBCacheType_t) (start : Z) (cols : list (Z * Z)) (used : Z) : NoDBCache_t :=
  match make_cache 1 example_rel type start 16 cols used with Ok c => c | Fail _ => example_cache end.

(** Two positional maps of relation 1 over rows 0-99 and 50-79. *)
Definition ex_world : world :=
  {| w_caches := {[ 1 := ex_cache NODB_POSITIONS_CACHE 0 [(3, 4)] 100;
                    2 := ex_cache NODB_POSITIONS_CACHE 50 [(3, 4); (5, 4)] 30 ]};
     NoDBCaches := [2; 1]; w_next := 3 |}.

Lemma ex_cache_wf type start cols used c :
  ex_cache type start cols used = c ->
  make_cache 1 example_rel type start 16 cols used = Ok c ->
  Forall (fun x => 0 <= x.1 < 8 /\ 0 <= x.2) cols ->
  exists lay, cache_wf c lay /\ tail_free lay /\ Z.of_nat (length (c_offset c)) = 8.
Proof. intros _ E Hall. by apply (make_cache_wf 1 example_rel type start 16 cols used c E). Qed.

Lemma ex_world_ok : world_ok ex_world.
Proof.
  split.
  - intros p Hp. assert (p = 2 \/ p = 1) as [-> | ->] by (cbn in Hp; rewrite !elem_of_cons, elem_of_nil in Hp; tauto).
    + destruct (ex_cache_wf NODB_POSITIONS_CACHE 50 [(3, 4); (5, 4)] 30 _ eq_refl) as (lay & Hwf & _).
      { by vm_compute. } { repeat constructor; simpl; lia. }
      exists (ex_cache NODB_POSITIONS_CACHE 50 [(3, 4); (5, 4)] 30), lay.
      split_and!; [by vm_compute|done|]. split_and!; vm_compute; done.
    + destruct (ex_cache_wf NODB_POSITIONS_CACHE 0 [(3, 4)] 100 _ eq_refl) as (lay & Hwf & _).
      { by vm_compute. } { repeat constructor; simpl; lia. }
      exists (ex_cache NODB_POSITIONS_CACHE 0 [(3, 4)] 100), lay.
      split_and!; [by vm_compute|done|]. split_and!; vm_compute; done.
  - cbn. rewrite !elem_of_cons, elem_of_nil. lia.
  - intros p [c Hc]. cbn [ex_world w_caches w_next] in *.
    apply lookup_insert_Some in Hc as [[<- _]|[_ Hc]]; [lia|]. apply lookup_singleton_Some in Hc as [<- _]. lia.
  - cbn. lia.
Qed.

Lemma GetInterestingRows_witness :
  exists rows, GetInterestingRows ex_world 1 = Ok rows /\ StronglySorted Z.lt rows /\
    (rows = [] <-> forall x, ~ row_edges ex_world 1 (NoDBCaches ex_world) x) /\
    (rows <> [] -> exists rest, rows = 0 :: rest) /\
    (forall x, x ∈ rows -> x = 0 \/ row_edges ex_world 1 (NoDBCaches ex_world) x) /\
    (forall i lo hi p c row, rows !! i = Some lo -> rows !! S i = Some hi ->
       p ∈ NoDBCaches ex_world -> w_caches ex_world !! p = Some c -> c_rel c = 1 -> lo <= row < hi ->
       NoDBCacheHasRow c row = NoDBCacheHasRow c lo) /\
    (forall p c lo row, last rows = Some lo -> p ∈ NoDBCaches ex_world -> w_caches ex_world !! p = Some c ->
       c_rel c = 1 -> lo <= row -> NoDBCacheHasRow c row = false).
Proof. apply (GetInterestingRows_partition ex_world 1), ex_world_ok. Defined.

(** On the example: the rows where the maps begin and end, and the map that has
    most columns of the query. *)
Example GetInterestingRows_example : GetInterestingRows ex_world 1 = Ok [0; 50; 80; 100].
Proof. by vm_compute. Qed.
Example GetBestCacheHit_example : GetBestCacheHit ex_world [1; 2] 3 [5] = Ok (Some (2, [5; 3])).
Proof. by vm_compute. Qed.

Lemma GetBestCacheHit_witness :
  exists best, GetBestCacheHit ex_world [1; 2] 3 [5] = Ok best /\
    (best = None <-> forall p, p ∈ [1; 2] -> has_col ex_world p 3 = false) /\
    (forall p cols, best = Some (p, cols) -> p ∈ [1; 2] /\ hit_ok ex_world 3 [5] p cols /\
       forall q, q ∈ [1; 2] -> has_col ex_world q 3 = true -> (hits ex_world [5%Z] q <= hits ex_world [5%Z] p)%nat).
Proof.
  apply (GetBestCacheHit_correct ex_world [1; 2] 3 [5]).
  - apply ex_world_ok.
  - intros p. cbn. rewrite !elem_of_cons, elem_of_nil. tauto.
  - lia.
  - repeat constructor. lia.
Defined.
