(* ===== verification/StrategyMatrix.v ===== *)
(** * The matrix of a strategy (NoDBScanStrategy.c, BuildMatrix)

    For every range of rows and every column of the query, [BuildMatrix] decides
    where the value and the position of the field come from: a cache that holds
    it ([CACHE_HIT]), a cache that will be filled ([CACHE_ADD]: an existing cache
    that grows, one that gets a new column, or a new cache), or neither
    ([CACHE_MISS]). It then finds, for each column, the closest column whose
    position some positional map knows. *)
From S2P Require Import Prelude LinkedList Vectors Bitmap Relation Cache CacheData CacheSelect.

Definition NODB_DATA_CACHE_DEFAULT_SIZE : Z := 256.
Definition NODB_POS_CACHE_DEFAULT_SIZE : Z := 4 * 16.
Definition sizeof_NoDBPMPair_t : Z := 4.

Inductive Type_t := UNKNOWN | CACHE_HIT | CACHE_MISS | CACHE_ADD.
#[global] Instance Type_t_eq_dec : EqDecision Type_t.
Proof. solve_decision. Defined.

(** [None] is a member that was not written yet. *)
Record Node_t := {
  dataHit : Type_t; dataCache : option Z;
  pmHit : Type_t; pmCache : option Z;
  closestPMCache : Z; closestColumn : option Z; distance : option Z }.
Abbreviation matrix := (list (list Node_t)).
Implicit Types (m : matrix) (nd : Node_t) (w : world) (c : NoDBCache_t).

Definition node0 : Node_t :=
  {| dataHit := UNKNOWN; dataCache := None; pmHit := UNKNOWN; pmCache := None;
     closestPMCache := 0; closestColumn := None; distance := None |}.

Definition set_data (t : Type_t) (cache : option Z) nd : Node_t :=
  {| dataHit := t; dataCache := match cache with Some p => Some p | None => dataCache nd end;
     pmHit := pmHit nd; pmCache := pmCache nd;
     closestPMCache := closestPMCache nd; closestColumn := closestColumn nd; distance := distance nd |}.
Definition set_pm (t : Type_t) (cache : option Z) nd : Node_t :=
  {| dataHit := dataHit nd; dataCache := dataCache nd;
     pmHit := t; pmCache := match cache with Some p => Some p | None => pmCache nd end;
     closestPMCache := closestPMCache nd; closestColumn := closestColumn nd; distance := distance nd |}.
Definition set_closest (cache col d : Z) nd : Node_t :=
  {| dataHit := dataHit nd; dataCache := dataCache nd; pmHit := pmHit nd; pmCache := pmCache nd;
     closestPMCache := cache; closestColumn := Some col; distance := Some d |}.

(** [matrix[r][k]] *)
Definition mat_get m (r k : Z) : result Node_t :=
  if (0 <=? r) && (0 <=? k) then
    match m !! Z.to_nat r ≫= fun row => row !! Z.to_nat k with
    | Some nd => Ok nd
    | None => Fail OutOfBounds
    end
  else Fail OutOfBounds.
Definition mat_upd m (r k : Z) (f : Node_t -> Node_t) : result matrix :=
  _ ← mat_get m r k; Ok (alter (alter f (Z.to_nat k)) (Z.to_nat r) m).

(** [NoDBQueryInfo_t]: [q_relp] is the address of the relation, [q_rel] what is
    there. *)
Record NoDBQueryInfo_t := {
  q_relp : Z; q_rel : NoDBRelation_t; q_limit : Z;
  q_cols : NoDBColVector_t; q_rows : NoDBRowVector_t;
  q_readBitmap : NoDBBitmap_t; q_readFilterBitmap : NoDBBitmap_t; q_readRestBitmap : NoDBBitmap_t;
  q_writeDataBitmap : NoDBBitmap_t; q_writePositionsBitmap : NoDBBitmap_t;
  q_readCols : list Z }.
Implicit Types (q : NoDBQueryInfo_t).

(** ** Hits *)

(** One row of the loop that marks the columns of [l], with the index of each in
    the columns of the query. *)
Fixpoint mark_cols q (rowIdx : Z) (set : Z -> Node_t -> Node_t) (l : list Z) m : result matrix :=
  match l with
  | [] => Ok m
  | ncol :: l' =>
      ncolIdx ← NoDBColVectorBinarySearch (q_cols q) ncol;
      m' ← mat_upd m rowIdx ncolIdx (set ncol);
      mark_cols q rowIdx set l' m'
  end.

(** [while (NoDBCacheHasRow(cacheHit, rows[nrowIdx]))]: the list of columns is
    used up by the first row. *)
Fixpoint mark_rows (fuel : nat) q c (nrowIdx : Z) (set : Z -> Node_t -> Node_t) (l : list Z) m
    : result matrix :=
  match fuel with
  | O => Fail OutOfFuel
  | S fuel' =>
      row ← NoDBRowVectorGet (q_rows q) nrowIdx;
      if NoDBCacheHasRow c row then
        m' ← mark_cols q nrowIdx set l m;
        mark_rows fuel' q c (nrowIdx + 1) set [] m'
      else Ok m
  end.

Definition rows_fuel q : nat := S (Z.to_nat (NoDBRowVectorSize (q_rows q))).

Definition mark_best w q (rowIdx colIdx : Z) (caches : list Z) (set : Z -> Z -> Node_t -> Node_t) m
    : result matrix :=
  col ← NoDBColVectorGet (q_cols q) colIdx;
  best ← GetBestCacheHit w caches col (q_readCols q);
  match best with
  | None => Ok m
  | Some (p, cacheHitCols) =>
      c ← get_cache w p;
      mark_rows (rows_fuel q) q c rowIdx (set p) cacheHitCols m
  end.

Definition hit_data w q (rowIdx colIdx : Z) (dataCachesWithRow : list Z) m : result matrix :=
  nd ← mat_get m rowIdx colIdx;
  if decide (dataHit nd = UNKNOWN) then
    mark_best w q rowIdx colIdx dataCachesWithRow (fun p _ => set_data CACHE_HIT (Some p)) m
  else Ok m.

(** Whether the position of the column matters. *)
Definition wants_pm q nd (colIdx : Z) : result bool :=
  if decide (pmHit nd = UNKNOWN) then
    if decide (dataHit nd <> CACHE_HIT) then Ok true
    else NoDBBitmapIsSet (q_writePositionsBitmap q) colIdx
  else Ok false.

Definition hit_pm w q (rowIdx colIdx : Z) (pmCachesWithRow : list Z) m : result matrix :=
  nd ← mat_get m rowIdx colIdx;
  b ← wants_pm q nd colIdx;
  if (b : bool) then
    mark_best w q rowIdx colIdx pmCachesWithRow
      (fun p ncol nd => set_closest p ncol 0 (set_pm CACHE_HIT None nd)) m
  else Ok m.

Definition mark_hits w q (rowIdx : Z) m : result matrix :=
  row ← NoDBRowVectorGet (q_rows q) rowIdx;
  dataCaches ← GetCachesWithRow w (q_relp q) NODB_DATA_CACHE row;
  pmCaches ← GetCachesWithRow w (q_relp q) NODB_POSITIONS_CACHE row;
  for_range 0 (NoDBColVectorSize (q_cols q)) (fun colIdx m =>
    m1 ← hit_data w q rowIdx colIdx dataCaches m;
    hit_pm w q rowIdx colIdx pmCaches m1) m.

(** ** Misses *)

(** The columns to write that are no hits, of data and of positions. *)
Definition grow_candidates q (rowIdx : Z) m : result (list Z * list Z) :=
  for_range 0 (NoDBColVectorSize (q_cols q)) (fun colIdx '(growData, growPM) =>
    nd ← mat_get m rowIdx colIdx;
    b1 ← NoDBBitmapIsSet (q_writeDataBitmap q) colIdx;
    growData' ← (if (b1 : bool) && negb (bool_decide (dataHit nd = CACHE_HIT)) then
                   col ← NoDBColVectorGet (q_cols q) colIdx; Ok (col :: growData) else Ok growData);
    b2 ← NoDBBitmapIsSet (q_writePositionsBitmap q) colIdx;
    growPM' ← (if (b2 : bool) && negb (bool_decide (pmHit nd = CACHE_HIT)) then
                 col ← NoDBColVectorGet (q_cols q) colIdx; Ok (col :: growPM) else Ok growPM);
    Ok (growData', growPM')) ([], []).

(** [do { mark } while (NoDBCacheHasRow(cache, rows[nrowIdx]))] *)
Fixpoint mark_column (fuel : nat) q c (nrowIdx colIdx : Z) (set : Node_t -> Node_t) m : result matrix :=
  match fuel with
  | O => Fail OutOfFuel
  | S fuel' =>
      m' ← mat_upd m nrowIdx colIdx set;
      row ← NoDBRowVectorGet (q_rows q) (nrowIdx + 1);
      if NoDBCacheHasRow c row then mark_column fuel' q c (nrowIdx + 1) colIdx set m' else Ok m'
  end.

(** A new cache at the front of the global list. *)
Definition add_cache w c : world * Z :=
  ({| w_caches := <[w_next w := c]> (w_caches w); NoDBCaches := w_next w :: NoDBCaches w;
      w_next := w_next w + 1 |}, w_next w).

(** A column to write that no cache holds: grow a cache, add a column to one, or
    make one. *)
Definition place w q (type : NoDBCacheType_t) (getSize : result Z) (defaultSize : Z) (row rowIdx col colIdx : Z)
    (candidates : list Z) (set : Z -> Node_t -> Node_t) m : result (world * matrix) :=
  cachesToGrow ← GetCachesCanGrow w (q_relp q) type col row candidates;
  grow ← GetBestCacheToGrow w cachesToGrow candidates;
  match grow with
  | Some (p, cacheGrowCols) =>
      c ← get_cache w p;
      c' ← NoDBCacheGrow c row;
      m' ← mark_cols q rowIdx (fun _ => set p) cacheGrowCols m;
      Ok (put_cache w p c', m')
  | None =>
      size ← getSize;
      cachesFreeCols ← GetCachesFreeColumns w (q_relp q) type (q_limit q) row size;
      p ← GetBestCacheToAddColumn w cachesFreeCols;
      if negb (p =? 0) then
        c ← get_cache w p;
        x ← NoDBCacheAddColumn c col size;
        m' ← mark_column (rows_fuel q) q x.1 rowIdx colIdx (set p) m;
        Ok (put_cache w p x.1, m')
      else
        newCache ← NoDBCacheInit (q_relp q) (q_rel q) type row defaultSize;
        x ← NoDBCacheAddColumn newCache col size;
        let '(w', p') := add_cache w x.1 in
        m' ← mat_upd m rowIdx colIdx (set p');
        Ok (w', m')
  end.

Definition miss_data q (row rowIdx colIdx : Z) (candidates : list Z) (wm : world * matrix)
    : result (world * matrix) :=
  let '(w, m) := wm in
  nd ← mat_get m rowIdx colIdx;
  if decide (dataHit nd = UNKNOWN) then
    col ← NoDBColVectorGet (q_cols q) colIdx;
    b ← NoDBBitmapIsSet (q_writeDataBitmap q) colIdx;
    if (b : bool) then
      place w q NODB_DATA_CACHE (NoDBRelationGetColumnSize (q_rel q) col) NODB_DATA_CACHE_DEFAULT_SIZE row rowIdx col colIdx candidates
        (fun p => set_data CACHE_ADD (Some p)) m
    else m' ← mat_upd m rowIdx colIdx (set_data CACHE_MISS None); Ok (w, m')
  else Ok (w, m).

Definition miss_pm q (row rowIdx colIdx : Z) (candidates : list Z) (wm : world * matrix)
    : result (world * matrix) :=
  let '(w, m) := wm in
  nd ← mat_get m rowIdx colIdx;
  b ← wants_pm q nd colIdx;
  if (b : bool) then
    col ← NoDBColVectorGet (q_cols q) colIdx;
    b ← NoDBBitmapIsSet (q_writePositionsBitmap q) colIdx;
    if (b : bool) then
      place w q NODB_POSITIONS_CACHE (Ok sizeof_NoDBPMPair_t) NODB_POS_CACHE_DEFAULT_SIZE row rowIdx col colIdx
        candidates (fun p => set_pm CACHE_ADD (Some p)) m
    else m' ← mat_upd m rowIdx colIdx (set_pm CACHE_MISS None); Ok (w, m')
  else Ok (w, m).

Definition mark_misses q (rowIdx : Z) (wm : world * matrix) : result (world * matrix) :=
  row ← NoDBRowVectorGet (q_rows q) rowIdx;
  cands ← grow_candidates q rowIdx wm.2;
  for_range 0 (NoDBColVectorSize (q_cols q)) (fun colIdx wm =>
    wm1 ← miss_data q row rowIdx colIdx cands.1 wm;
    miss_pm q row rowIdx colIdx cands.2 wm1) wm.

(** ** Closest positions *)

(** [bestCache], [closestCol] and [bestDistance]; [None] while [first]. *)
Definition closest_step (col : Z) (excludeCols : list Z) (p ccol : Z) (best : option (Z * Z * Z))
    : option (Z * Z * Z) :=
  if bool_decide (ccol ∈ excludeCols) then best
  else
    let d := col - ccol in
    match best with
    | None => Some (p, ccol, d)
    | Some (_, _, bestDistance) => if Z.abs d <? Z.abs bestDistance then Some (p, ccol, d) else best
    end.

Fixpoint closest_cache w q (row col : Z) (excludeCols : list Z) (l : list Z) (best : option (Z * Z * Z))
    : result (option (Z * Z * Z)) :=
  match l with
  | [] => Ok best
  | p :: l' =>
      c ← get_cache w p;
      best' ← (if of_rel_type (q_relp q) NODB_POSITIONS_CACHE c && NoDBCacheHasRow c row then
                 for_range 0 (c_usedCols c) (fun i best =>
                   ccol ← arr_get (c_cols c) i;
                   Ok (closest_step col excludeCols p ccol best)) best
               else Ok best);
      closest_cache w q row col excludeCols l' best'
  end.

Definition exclude_cols q (rowIdx : Z) m : result (list Z) :=
  for_range 0 (NoDBColVectorSize (q_cols q)) (fun colIdx excludeCols =>
    nd ← mat_get m rowIdx colIdx;
    if decide (pmHit nd = CACHE_ADD) then
      col ← NoDBColVectorGet (q_cols q) colIdx; Ok (col :: excludeCols)
    else Ok excludeCols) [].

Definition find_closest w q (rowIdx : Z) m : result matrix :=
  row ← NoDBRowVectorGet (q_rows q) rowIdx;
  excludeCols ← exclude_cols q rowIdx m;
  for_range 0 (NoDBColVectorSize (q_cols q)) (fun colIdx m =>
    col ← NoDBColVectorGet (q_cols q) colIdx;
    nd ← mat_get m rowIdx colIdx;
    if decide (pmHit nd = CACHE_HIT) then Ok m
    else
      best ← closest_cache w q row col excludeCols (NoDBCaches w) None;
      match best with
      | Some (p, ccol, d) => mat_upd m rowIdx colIdx (set_closest p ccol d)
      | None => Ok m
      end) m.

(** ** The whole matrix *)
Definition grow_opt w (hit : Type_t) (cache : option Z) (lastRow : Z) : result world :=
  if decide (hit = CACHE_ADD) then
    match cache with
    | None => Fail Indeterminate
    | Some p => c ← get_cache w p; c' ← NoDBCacheGrow c lastRow; Ok (put_cache w p c')
    end
  else Ok w.

Definition GrowToLastRow m (lastRowIdx lastRow ncols : Z) w : result world :=
  for_range 0 ncols (fun colIdx w =>
    nd ← mat_get m lastRowIdx colIdx;
    w1 ← grow_opt w (dataHit nd) (dataCache nd) lastRow;
    grow_opt w1 (pmHit nd) (pmCache nd) lastRow) w.

Definition BuildMatrix q w : result (world * matrix) :=
  let nrows := NoDBRowVectorSize (q_rows q) in
  let ncols := NoDBColVectorSize (q_cols q) in
  let m0 := replicate (Z.to_nat nrows) (replicate (Z.to_nat ncols) node0) in
  m1 ← for_range 0 (nrows - 1) (fun rowIdx m => mark_hits w q rowIdx m) m0;
  wm2 ← for_range 0 (nrows - 1) (fun rowIdx wm => mark_misses q rowIdx wm) (w, m1);
  m3 ← for_range 0 (nrows - 1) (fun rowIdx m => find_closest wm2.1 q rowIdx m) wm2.2;
  last ← NoDBRowVectorGet (q_rows q) (nrows - 1);
  w3 ← GrowToLastRow m3 (nrows - 2) (u64 (last - 1)) ncols wm2.1;
  Ok (w3, m3).
