(* ===== verification/MatrixSound.v ===== *)
(** * The matrix of a strategy is sound

    The proofs about [BuildMatrix] (StrategyMatrix.v). The matrix is seen through
    [cell]; a pass over it is described by the cells it marks ([marked]), and the
    caches it changes by [extends]. *)
From S2P Require Import Prelude LinkedList Vectors Bitmap Relation Cache CacheData CacheSelect StrategyMatrix.

Implicit Types (m : matrix) (nd : Node_t) (w : world) (c : NoDBCache_t) (q : NoDBQueryInfo_t).

(** A query over the columns [cs] and the rows [rs], with the columns whose
    data and whose positions are to be written. *)
Record query_ok q (cs rs : list Z) (wd wp : list bool) : Prop := {
  qo_cols : q_cols q = col_vector cs;
  qo_sorted : StronglySorted Z.lt cs;
  qo_range : Forall (fun col => 0 <= col < NoDBRelationGetNumberColumns (q_rel q)) cs;
  qo_rows : q_rows q = row_vector rs;
  qo_rsorted : StronglySorted Z.lt rs;
  qo_rrange : Forall (fun row => 0 <= row < 2 ^ 64) rs;
  qo_rlen : (2 <= length rs)%nat;
  qo_wd : q_writeDataBitmap q = bitmap_of wd;
  qo_wdlen : length wd = length cs;
  qo_wp : q_writePositionsBitmap q = bitmap_of wp;
  qo_wplen : length wp = length cs;
  qo_read : forall col, col ∈ q_readCols q -> col ∈ cs;
  qo_size : forall col, col ∈ cs -> exists size,
    NoDBRelationGetColumnSize (q_rel q) col = Ok size /\ 0 <= size <= NODB_DATA_CACHE_DEFAULT_SIZE }.

(** The buffer of a cache, if it has one, has the bytes that the number of rows
    asked for; the product is a [size_t]. *)
Definition buf_sized c : Prop := forall b, c_buf c = Some b ->
  exists n, c_nRows c = Some n /\ Z.of_nat (length b) = u64 (n * c_rowSize c).

(** A cache as the operator makes them: the free space of its row is one
    partition, its buffer, if any, has its size, and a cache with rows has a
    column. *)
Definition cache_inv (relp ncols : Z) c : Prop :=
  exists lay, cache_wf c lay /\ tail_free lay /\ rows_ok c /\ buf_sized c /\
    (c_rel c = relp -> Z.of_nat (length (c_offset c)) = ncols) /\
    (0 < c_usedRows c -> exists x, x ∈ lay_cols lay).

Record plan_world q w : Prop := {
  pw_caches : forall p, p ∈ NoDBCaches w -> exists c, w_caches w !! p = Some c /\
    cache_inv (q_relp q) (NoDBRelationGetNumberColumns (q_rel q)) c;
  pw_null : 0 ∉ NoDBCaches w;
  pw_next : forall p, is_Some (w_caches w !! p) -> p < w_next w;
  pw_pos : 0 < w_next w }.

Lemma plan_world_ok q w : plan_world q w -> world_ok w.
Proof.
  intros [Hc Hn Hx Hp]. split; [|done..]. intros p (c & E & lay & Hwf & _ & Hr & _)%Hc. eauto.
Qed.

(** ** Worlds that grow *)
Definition same_info c c' : Prop :=
  c_rel c' = c_rel c /\ c_type c' = c_type c /\ c_startRow c' = c_startRow c /\ c_usedRows c' = c_usedRows c.

Record extends w w' : Prop := {
  ex_in : forall p, p ∈ NoDBCaches w -> p ∈ NoDBCaches w';
  ex_info : forall p c, p ∈ NoDBCaches w -> w_caches w !! p = Some c ->
    exists c', w_caches w' !! p = Some c' /\ same_info c c';
  ex_cols : forall p col, p ∈ NoDBCaches w -> has_col w p col = true -> has_col w' p col = true;
  ex_new : forall p c', p ∈ NoDBCaches w' -> p ∉ NoDBCaches w -> w_caches w' !! p = Some c' -> c_usedRows c' = 0 }.

Lemma same_info_refl c : same_info c c.
Proof. by split_and!. Qed.

Lemma extends_refl w : extends w w.
Proof. split; try done. intros p c _ Hc. exists c. split; [done|apply same_info_refl]. Qed.

Lemma extends_trans w1 w2 w3 : world_ok w2 -> extends w1 w2 -> extends w2 w3 -> extends w1 w3.
Proof.
  intros Hok H12 H23. split.
  - intros p Hp. by apply (ex_in _ _ H23), (ex_in _ _ H12).
  - intros p c Hp Hc. destruct (ex_info _ _ H12 p c Hp Hc) as (c2 & Hc2 & Hi2).
    destruct (ex_info _ _ H23 p c2 (ex_in _ _ H12 p Hp) Hc2) as (c3 & Hc3 & Hi3).
    exists c3. split; [done|]. unfold same_info in *. intuition congruence.
  - intros p col Hp Hh. apply (ex_cols _ _ H23); [by apply (ex_in _ _ H12)|]. by apply (ex_cols _ _ H12).
  - intros p c3 Hp Hn Hc3. destruct (decide (p ∈ NoDBCaches w2)) as [H2|H2]; [|by eapply (ex_new _ _ H23)].
    destruct (wo_caches _ Hok p H2) as (c2 & _ & Hc2 & _).
    destruct (ex_info _ _ H23 p c2 H2 Hc2) as (c3' & Hc3' & (_ & _ & _ & Hu)). simplify_eq.
    rewrite Hu. by eapply (ex_new _ _ H12).
Qed.

Section facts.
Context (q : NoDBQueryInfo_t).

(** The cache at [p] holds the column for the row. *)
Definition known w (type : NoDBCacheType_t) (p row col : Z) : Prop :=
  p ∈ NoDBCaches w /\ exists c, w_caches w !! p = Some c /\ of_rel_type (q_relp q) type c = true /\
    NoDBCacheHasRow c row = true /\ has_col w p col = true.
(** The cache at [p] has the column, and begins at the row or before it. *)
Definition dest w (type : NoDBCacheType_t) (p row col : Z) : Prop :=
  p ∈ NoDBCaches w /\ exists c, w_caches w !! p = Some c /\ of_rel_type (q_relp q) type c = true /\
    c_startRow c <= row /\ has_col w p col = true.

Lemma same_info_rel_type type c c' : same_info c c' ->
  of_rel_type (q_relp q) type c' = of_rel_type (q_relp q) type c.
Proof. intros (Hr & Ht & _). unfold of_rel_type, NoDBCacheGetRelation, NoDBCacheGetType. by rewrite Hr, Ht. Qed.

Lemma same_info_row c c' row : same_info c c' -> NoDBCacheHasRow c' row = NoDBCacheHasRow c row.
Proof. intros (_ & _ & Hs & Hu). unfold NoDBCacheHasRow. by rewrite Hs, Hu. Qed.

Lemma known_mono w w' type p row col : extends w w' -> known w type p row col -> known w' type p row col.
Proof.
  intros He (Hp & c & Hc & Ht & Hr & Hh). split; [by apply (ex_in _ _ He)|].
  destruct (ex_info _ _ He p c Hp Hc) as (c' & Hc' & Hi). exists c'.
  rewrite (same_info_rel_type _ _ _ Hi), (same_info_row _ _ _ Hi). split_and!; [done..|].
  by apply (ex_cols _ _ He).
Qed.

Lemma dest_mono w w' type p row col : extends w w' -> dest w type p row col -> dest w' type p row col.
Proof.
  intros He (Hp & c & Hc & Ht & Hr & Hh). split; [by apply (ex_in _ _ He)|].
  destruct (ex_info _ _ He p c Hp Hc) as (c' & Hc' & Hi). exists c'.
  rewrite (same_info_rel_type _ _ _ Hi). destruct Hi as (_ & _ & Hs & _). rewrite Hs.
  split_and!; [done..|]. by apply (ex_cols _ _ He).
Qed.

End facts.

Lemma sorted_lt_le (l : list Z) : StronglySorted Z.lt l -> StronglySorted Z.le l.
Proof.
  induction 1 as [|x l Hs IH Hf]; [constructor|]. constructor; [done|].
  eapply Forall_impl; [done|]. intros y Hy. simpl in Hy. lia.
Qed.

Lemma sorted_lt_lookup (l : list Z) i j x y :
  StronglySorted Z.lt l -> (i < j)%nat -> l !! i = Some x -> l !! j = Some y -> x < y.
Proof.
  intros Hs. revert i j. induction Hs as [|z l Hs IH Hf]; intros i j Hij Hi Hj; [done|].
  destruct j as [|j]; [lia|]. destruct i as [|i]; simpl in *; [|by eapply IH; [|done..]; lia].
  simplify_eq. rewrite Forall_forall in Hf. apply Hf. by eapply list_elem_of_lookup_2.
Qed.

(** ** Cells *)
Section cells.
Context (q : NoDBQueryInfo_t) (cs rs : list Z).

Definition mat_dims m : Prop := length m = length rs /\ Forall (fun row => length row = length cs) m.
Definition cell m (r k : nat) : Node_t := default node0 (m !! r ≫= fun row => row !! k).

Lemma mat_get_cell m (r k : nat) : mat_dims m -> (r < length rs)%nat -> (k < length cs)%nat ->
  mat_get m (Z.of_nat r) (Z.of_nat k) = Ok (cell m r k) /\
  exists row nd, m !! r = Some row /\ row !! k = Some nd /\ length row = length cs.
Proof.
  intros [Hlen Hall] Hr Hk. destruct (lookup_lt_is_Some_2 m r) as [row Hrow]; [lia|].
  pose proof (Forall_lookup_1 _ _ _ _ Hall Hrow) as Hl. simpl in Hl.
  destruct (lookup_lt_is_Some_2 row k) as [nd Hnd]; [lia|].
  split; [|by exists row, nd]. unfold mat_get, cell. rewrite !Nat2Z.id, Hrow. simpl. rewrite Hnd.
  by rewrite !(proj2 (Z.leb_le _ _)) by lia.
Qed.

Lemma mat_upd_cell m (r k : nat) f : mat_dims m -> (r < length rs)%nat -> (k < length cs)%nat ->
  exists m', mat_upd m (Z.of_nat r) (Z.of_nat k) f = Ok m' /\ mat_dims m' /\
    cell m' r k = f (cell m r k) /\
    forall r' k', (r' <> r \/ k' <> k) -> cell m' r' k' = cell m r' k'.
Proof.
  intros Hd Hr Hk. destruct (mat_get_cell m r k Hd Hr Hk) as (E & row & nd & Hrow & Hnd & Hl).
  unfold mat_upd. rewrite E. cbn [mbind result_bind]. rewrite !Nat2Z.id. eexists. split; [done|].
  destruct Hd as [Hlen Hall]. split_and!.
  - split; [by rewrite length_alter|]. apply Forall_alter; [done|]. intros x Hx Hx'. by rewrite length_alter.
  - unfold cell. rewrite list_lookup_alter_eq, Hrow. simpl. by rewrite list_lookup_alter_eq, Hnd.
  - intros r' k' Hne. unfold cell. destruct (decide (r' = r)) as [->|Hr'].
    + rewrite list_lookup_alter_eq, Hrow. simpl. by rewrite list_lookup_alter_ne by naive_solver.
    + by rewrite list_lookup_alter_ne by done.
Qed.

(** [m'] is [m] with the cells of [M] changed by [f]. *)
Definition marked (M : nat -> nat -> Prop) (f : nat -> Node_t -> Node_t) m m' : Prop :=
  mat_dims m' /\ forall r k, (M r k -> cell m' r k = f k (cell m r k)) /\ (~ M r k -> cell m' r k = cell m r k).

Definition col_at (k : nat) : Z := default 0 (cs !! k).

Lemma marked_iff (M M' : nat -> nat -> Prop) f m m' :
  (forall r k, M r k <-> M' r k) -> marked M f m m' -> marked M' f m m'.
Proof. intros H [Hd Hc]. split; [done|]. intros r k. rewrite <- !H. apply Hc. Qed.

Lemma marked_one m (r k : nat) f : mat_dims m -> (r < length rs)%nat -> (k < length cs)%nat ->
  exists m', mat_upd m (Z.of_nat r) (Z.of_nat k) (f k) = Ok m' /\ marked (fun r' k' => r' = r /\ k' = k) f m m'.
Proof.
  intros Hd Hr Hk. destruct (mat_upd_cell m r k (f k) Hd Hr Hk) as (m' & E & Hd' & Hc & Ho).
  exists m'. split; [done|]. split; [done|]. intros r' k'. split; [by intros [-> ->]|].
  intros Hn. apply Ho. destruct (decide (r' = r)), (decide (k' = k)); tauto.
Qed.

Lemma marked_trans (M1 M2 : nat -> nat -> Prop) f m1 m2 m3 :
  (forall r k, Decision (M1 r k)) -> (forall r k, M1 r k -> ~ M2 r k) ->
  marked M1 f m1 m2 -> marked M2 f m2 m3 -> marked (fun r k => M1 r k \/ M2 r k) f m1 m3.
Proof.
  intros Hdec Hdis [_ H1] [Hd H2]. split; [done|]. intros r k.
  destruct (H1 r k) as [H1a H1b], (H2 r k) as [H2a H2b]. split.
  - intros [HM|HM]; [by rewrite H2b by (by apply Hdis); apply H1a|].
    destruct (Hdec r k) as [HM1|HM1]; [by apply Hdis in HM1|]. by rewrite H2a, H1b.
  - intros Hn. rewrite H2b by tauto. apply H1b. tauto.
Qed.

Context (Hcols : q_cols q = col_vector cs) (Hsorted : StronglySorted Z.lt cs).

Lemma col_index col : col ∈ cs -> exists k : nat, NoDBColVectorBinarySearch (q_cols q) col = Ok (Z.of_nat k) /\
  cs !! k = Some col.
Proof.
  intros Hin. rewrite Hcols. destruct (NoDBColVectorBinarySearch_spec cs col) as [(k & -> & Hk)|(Hn & _)].
  - by apply sorted_lt_le.
  - exists col. split; [done|lia].
  - eauto.
  - by destruct Hn.
Qed.

Lemma cs_NoDup : NoDup cs.
Proof. by apply sorted_lt_NoDup. Qed.

Lemma col_at_inj k k' : (k < length cs)%nat -> (k' < length cs)%nat -> col_at k = col_at k' -> k = k'.
Proof.
  intros Hk Hk'. unfold col_at. destruct (lookup_lt_is_Some_2 cs k Hk) as [x Hx], (lookup_lt_is_Some_2 cs k' Hk') as [y Hy].
  rewrite Hx, Hy. simpl. intros ->. by eapply NoDup_lookup; [apply cs_NoDup|..].
Qed.

Lemma elem_col_at col : col ∈ cs <-> exists k, (k < length cs)%nat /\ col = col_at k.
Proof.
  unfold col_at. split.
  - intros [k Hk]%list_elem_of_lookup. exists k. rewrite Hk. split; [by eapply lookup_lt_Some|done].
  - intros (k & Hk & ->). destruct (lookup_lt_is_Some_2 cs k Hk) as [x Hx]. rewrite Hx. by eapply list_elem_of_lookup_2.
Qed.

Lemma get_col k : (k < length cs)%nat -> NoDBColVectorGet (q_cols q) (Z.of_nat k) = Ok (col_at k).
Proof.
  intros Hk. rewrite Hcols. unfold NoDBColVectorGet, col_vector, col_at. cbn [cv_cols].
  destruct (col_read cs (Z.of_nat k)) as (c & Hc & ->); [lia|]. rewrite Nat2Z.id in Hc. by rewrite Hc.
Qed.

(** Marking a list of columns in a row. *)
Lemma mark_cols_spec (r : nat) set l : forall m,
  mat_dims m -> (r < length rs)%nat -> NoDup l -> (forall col, col ∈ l -> col ∈ cs) ->
  exists m', mark_cols q (Z.of_nat r) set l m = Ok m' /\
    marked (fun r' k => r' = r /\ (k < length cs)%nat /\ col_at k ∈ l) (fun k => set (col_at k)) m m'.
Proof.
  induction l as [|col l IH]; intros m Hd Hr Hnd Hl; cbn [mark_cols].
  - exists m. split; [done|]. split; [done|]. intros r' k. split; [|done]. intros (_ & _ & H). by apply elem_of_nil in H.
  - apply NoDup_cons in Hnd as [Hnin Hnd].
    destruct (col_index col) as (k & -> & Hk); [apply Hl; by left|]. cbn [mbind result_bind].
    pose proof (lookup_lt_Some _ _ _ Hk) as Hkl. assert (Hca : col_at k = col) by (unfold col_at; by rewrite Hk).
    destruct (marked_one m r k (fun k => set (col_at k)) Hd Hr Hkl) as (m1 & E1 & Hm1). rewrite Hca in E1. rewrite E1.
    cbn [mbind result_bind]. destruct (IH m1) as (m2 & -> & Hm2); [apply Hm1|done|done|intros; apply Hl; by right|].
    exists m2. split; [done|]. eapply marked_iff; [|eapply marked_trans; [| |exact Hm1|exact Hm2]].
    + intros r' k'. cbn beta. rewrite elem_of_cons, <- Hca. split.
      * intros [[-> ->]|?]; tauto.
      * intros (-> & Hk' & [He|Hin]); [left|right; tauto]. split; [done|]. by apply col_at_inj.
    + intros r' k'. apply _.
    + intros r' k' [-> ->] (_ & _ & Hin). by rewrite Hca in Hin.
Qed.

End cells.

(** ** Rows *)
Section passes.
Context (q : NoDBQueryInfo_t) (cs rs : list Z) (wd wp : list bool).
Context (Hq : query_ok q cs rs wd wp).

Abbreviation ncols := (length cs).
Abbreviation nranges := (length rs - 1)%nat.

Abbreviation col := (col_at cs).
Definition row_at (r : nat) : Z := default 0 (rs !! r).

Lemma nranges_pos : (0 < nranges)%nat.
Proof. pose proof (qo_rlen _ _ _ _ _ Hq). lia. Qed.

Lemma get_row r : (r < length rs)%nat -> NoDBRowVectorGet (q_rows q) (Z.of_nat r) = Ok (row_at r).
Proof.
  intros Hr. rewrite (qo_rows _ _ _ _ _ Hq). unfold NoDBRowVectorGet, row_vector, row_at. cbn [rv_rows].
  destruct (col_read rs (Z.of_nat r)) as (x & Hx & ->); [lia|]. rewrite Nat2Z.id in Hx. by rewrite Hx.
Qed.

Lemma row_at_mono r r' : (r < r' < length rs)%nat -> row_at r < row_at r'.
Proof.
  intros Hr. unfold row_at. destruct (lookup_lt_is_Some_2 rs r) as [x Hx]; [lia|].
  destruct (lookup_lt_is_Some_2 rs r') as [y Hy]; [lia|]. rewrite Hx, Hy. simpl.
  eapply (sorted_lt_lookup rs r r'); [apply Hq|lia|done|done].
Qed.

Lemma row_at_range r : (r < length rs)%nat -> 0 <= row_at r < 2 ^ 64.
Proof.
  intros Hr. unfold row_at. destruct (lookup_lt_is_Some_2 rs r) as [x Hx]; [lia|]. rewrite Hx.
  apply (Forall_lookup_1 _ _ _ _ (qo_rrange _ _ _ _ _ Hq) Hx).
Qed.

(** No cache of the relation has the last row. *)
Definition rows_end w : Prop :=
  forall p c, p ∈ NoDBCaches w -> w_caches w !! p = Some c -> c_rel c = q_relp q ->
    NoDBCacheHasRow c (row_at nranges) = false.

Lemma mark_rows_rest c set fuel : forall r m,
  (r <= nranges)%nat -> (length rs <= fuel + r)%nat -> NoDBCacheHasRow c (row_at nranges) = false ->
  mark_rows fuel q c (Z.of_nat r) set [] m = Ok m.
Proof.
  induction fuel as [|fuel IH]; intros r m Hr Hf Hend; cbn [mark_rows];
    pose proof nranges_pos; [lia|].
  rewrite get_row by lia. cbn [mbind result_bind]. destruct (NoDBCacheHasRow c (row_at r)) eqn:E; [|done].
  cbn [mark_cols mbind result_bind]. replace (Z.of_nat r + 1) with (Z.of_nat (S r)) by lia.
  destruct (decide (r = nranges)) as [->|]; [congruence|]. apply IH; [lia|lia|done].
Qed.

Lemma mark_rows_spec c (r : nat) set l m :
  mat_dims cs rs m -> (r < nranges)%nat -> NoDup l -> (forall x, x ∈ l -> x ∈ cs) ->
  NoDBCacheHasRow c (row_at r) = true -> NoDBCacheHasRow c (row_at nranges) = false ->
  exists m', mark_rows (rows_fuel q) q c (Z.of_nat r) set l m = Ok m' /\
    marked cs rs (fun r' k => r' = r /\ (k < ncols)%nat /\ col k ∈ l) (fun k => set (col k)) m m'.
Proof.
  intros Hd Hr Hnd Hl Hrow Hend. unfold rows_fuel. cbn [mark_rows].
  rewrite get_row by lia. cbn [mbind result_bind]. rewrite Hrow.
  destruct (mark_cols_spec q cs rs (qo_cols _ _ _ _ _ Hq) (qo_sorted _ _ _ _ _ Hq) r set l m Hd)
    as (m' & -> & Hm); [lia|done|done|].
  cbn [mbind result_bind]. exists m'. split; [|done]. replace (Z.of_nat r + 1) with (Z.of_nat (S r)) by lia.
  apply mark_rows_rest; [lia| |done]. rewrite (qo_rows _ _ _ _ _ Hq). cbn. lia.
Qed.

(** ** Hits *)
Lemma cols_nonneg l : (forall x, x ∈ l -> x ∈ cs) -> Forall (fun col => 0 <= col) l.
Proof.
  intros Hl. apply Forall_forall. intros x Hx%Hl. pose proof (qo_range _ _ _ _ _ Hq) as Hr.
  rewrite Forall_forall in Hr. specialize (Hr x Hx). simpl in Hr. lia.
Qed.

Lemma col_in k : (k < ncols)%nat -> col k ∈ cs.
Proof. intros Hk. apply elem_col_at. eauto. Qed.

Lemma col_range k : (k < ncols)%nat -> 0 <= col k < NoDBRelationGetNumberColumns (q_rel q).
Proof.
  intros Hk%col_in. pose proof (qo_range _ _ _ _ _ Hq) as Hr. rewrite Forall_forall in Hr. by apply Hr.
Qed.

Lemma mark_best_spec w (r k : nat) caches set m :
  world_ok w -> rows_end w -> mat_dims cs rs m -> (r < nranges)%nat -> (k < ncols)%nat ->
  (forall p, p ∈ caches -> p ∈ NoDBCaches w /\ exists c, w_caches w !! p = Some c /\ c_rel c = q_relp q /\
     NoDBCacheHasRow c (row_at r) = true) ->
  exists m', mark_best w q (Z.of_nat r) (Z.of_nat k) caches set m = Ok m' /\
    ((m' = m /\ forall p, p ∈ caches -> has_col w p (col k) = false) \/
     exists p cols, p ∈ caches /\ hit_ok w (col k) (q_readCols q) p cols /\
       marked cs rs (fun r' k' => r' = r /\ (k' < ncols)%nat /\ col k' ∈ cols) (fun k' => set p (col k')) m m').
Proof.
  intros Hw Hend Hd Hr Hk Hc. unfold mark_best. rewrite (get_col q cs) by (done || apply Hq). cbn [mbind result_bind].
  unfold GetBestCacheHit.
  destruct (best_hit_spec w (col k) (q_readCols q) caches None 0 []) as (best & -> & Hb); [done|by apply Hc| | | |].
  { by apply col_range. } { apply cols_nonneg, Hq. }
  { split; [done|]. intros p Hp. by apply elem_of_nil in Hp. }
  rewrite app_nil_l in Hb. cbn [mbind result_bind]. destruct best as [[p cols]|]; [|exists m; eauto].
  destruct Hb as (Hp & Hok & _). destruct (Hc p Hp) as (Hin & c & Ec & Hrel & Hrow).
  unfold get_cache. rewrite Ec. cbn [mbind result_bind].
  destruct (mark_rows_spec c r (set p) cols m) as (m' & -> & Hm); try done.
  - apply Hok.
  - intros x Hx. apply Hok in Hx as [[->|Hx] _]; [by apply col_in|]. by apply Hq.
  - by apply (Hend p).
  - exists m'. split; [done|]. right. by exists p, cols.
Qed.

(** A cell of the first pass is sound; a cell that was visited is complete. *)
Definition hit_cell w (r k : nat) nd : Prop :=
  match dataHit nd with
  | UNKNOWN => True
  | CACHE_HIT => exists p, dataCache nd = Some p /\ known q w NODB_DATA_CACHE p (row_at r) (col k)
  | _ => False
  end /\
  match pmHit nd with
  | UNKNOWN => closestPMCache nd = 0
  | CACHE_HIT => known q w NODB_POSITIONS_CACHE (closestPMCache nd) (row_at r) (col k) /\
      closestColumn nd = Some (col k) /\ distance nd = Some 0
  | _ => False
  end.
Definition wp_at (k : nat) : bool := default false (wp !! k).
Definition wd_at (k : nat) : bool := default false (wd !! k).

Definition data_done w (r k : nat) nd : Prop :=
  dataHit nd = UNKNOWN -> forall p, ~ known q w NODB_DATA_CACHE p (row_at r) (col k).
Definition pm_done w (r k : nat) nd : Prop :=
  pmHit nd = UNKNOWN -> (dataHit nd = CACHE_HIT /\ wp_at k = false) \/
    forall p, ~ known q w NODB_POSITIONS_CACHE p (row_at r) (col k).

Lemma write_pos_bit k : (k < ncols)%nat -> NoDBBitmapIsSet (q_writePositionsBitmap q) (Z.of_nat k) = Ok (wp_at k).
Proof.
  intros Hk. rewrite (qo_wp _ _ _ _ _ Hq), NoDBBitmapIsSet_spec by (rewrite (qo_wplen _ _ _ _ _ Hq); lia).
  by rewrite Nat2Z.id.
Qed.
Lemma write_data_bit k : (k < ncols)%nat -> NoDBBitmapIsSet (q_writeDataBitmap q) (Z.of_nat k) = Ok (wd_at k).
Proof.
  intros Hk. rewrite (qo_wd _ _ _ _ _ Hq), NoDBBitmapIsSet_spec by (rewrite (qo_wdlen _ _ _ _ _ Hq); lia).
  by rewrite Nat2Z.id.
Qed.

(** What the first pass does to a cell: nothing, or it records a hit. *)
Definition hit_step w (r k : nat) nd nd' : Prop :=
  nd' = nd \/
  (exists p, known q w NODB_DATA_CACHE p (row_at r) (col k) /\ nd' = set_data CACHE_HIT (Some p) nd) \/
  (exists p, known q w NODB_POSITIONS_CACHE p (row_at r) (col k) /\
     nd' = set_closest p (col k) 0 (set_pm CACHE_HIT None nd)).

Lemma hit_step_cell w r k nd nd' : hit_step w r k nd nd' -> hit_cell w r k nd -> hit_cell w r k nd'.
Proof.
  intros [->|[(p & Hp & ->)|(p & Hp & ->)]] [H1 H2]; split; cbn; eauto.
Qed.
Lemma hit_step_data_done w r k nd nd' : hit_step w r k nd nd' -> data_done w r k nd -> data_done w r k nd'.
Proof. intros [->|[(p & Hp & ->)|(p & Hp & ->)]]; unfold data_done; cbn; intuition discriminate. Qed.
Lemma hit_step_pm_done w r k nd nd' : hit_step w r k nd nd' -> pm_done w r k nd -> pm_done w r k nd'.
Proof. intros [->|[(p & Hp & ->)|(p & Hp & ->)]]; unfold pm_done; cbn; intuition discriminate. Qed.

(** The cells that the first pass has visited are complete. *)
Definition visited (r0 k0 r k : nat) : Prop := (r < r0)%nat \/ (r = r0 /\ (k < k0)%nat).

Definition hits_inv w (r0 k0 : nat) m : Prop :=
  mat_dims cs rs m /\
  forall r k, (r < nranges)%nat -> (k < ncols)%nat -> hit_cell w r k (cell m r k) /\
    (visited r0 k0 r k -> data_done w r k (cell m r k) /\ pm_done w r k (cell m r k)).

Lemma hits_inv_step w r0 k0 m m' :
  mat_dims cs rs m' -> (forall r k, (r < nranges)%nat -> (k < ncols)%nat -> hit_step w r k (cell m r k) (cell m' r k)) ->
  hits_inv w r0 k0 m -> hits_inv w r0 k0 m'.
Proof.
  intros Hd Hs [_ Hc]. split; [done|]. intros r k Hr Hk. destruct (Hc r k Hr Hk) as [Hcell Hv].
  specialize (Hs r k Hr Hk). split; [by eapply hit_step_cell|]. intros [H1 H2]%Hv.
  split; [by eapply hit_step_data_done|by eapply hit_step_pm_done].
Qed.

Definition with_row w (type : NoDBCacheType_t) (row p : Z) : Prop :=
  p ∈ NoDBCaches w /\ has_row w p row = true /\ exists c, w_caches w !! p = Some c /\ of_rel_type (q_relp q) type c = true.

Lemma known_with_row w type p row x : known q w type p row x <-> with_row w type row p /\ has_col w p x = true.
Proof.
  unfold known, with_row, has_row. split.
  - intros (Hp & c & Ec & Ht & Hr & Hh). rewrite Ec. split_and!; eauto.
  - intros ((Hp & Hr & c & Ec & Ht) & Hh). rewrite Ec in Hr. split; [done|]. exists c. by split_and!.
Qed.

Lemma of_rel_type_rel type c : of_rel_type (q_relp q) type c = true -> c_rel c = q_relp q.
Proof. intros [Hr _]%andb_true_iff. by apply Z.eqb_eq in Hr. Qed.

Lemma mark_best_hits w type (r k : nat) caches (set : Z -> Z -> Node_t -> Node_t) m :
  world_ok w -> rows_end w -> mat_dims cs rs m -> (r < nranges)%nat -> (k < ncols)%nat ->
  (forall p, p ∈ caches <-> with_row w type (row_at r) p) ->
  exists m', mark_best w q (Z.of_nat r) (Z.of_nat k) caches set m = Ok m' /\ mat_dims cs rs m' /\
    (forall r' k', (k' < ncols)%nat -> cell m' r' k' = cell m r' k' \/
       r' = r /\ exists p, known q w type p (row_at r) (col k') /\ cell m' r' k' = set p (col k') (cell m r' k')) /\
    ((m' = m /\ forall p, ~ known q w type p (row_at r) (col k)) \/
     exists p, known q w type p (row_at r) (col k) /\ cell m' r k = set p (col k) (cell m r k)).
Proof.
  intros Hw Hend Hd Hr Hk Hc.
  destruct (mark_best_spec w r k caches set m) as (m' & E & Hm); try done.
  { intros p (Hp & Hrow & c & Ec & Ht)%Hc. split; [done|]. exists c. unfold has_row in Hrow. rewrite Ec in Hrow.
    split_and!; [done|by eapply of_rel_type_rel|done]. }
  exists m'. split; [done|]. destruct Hm as [[-> Hno]|(p & cols & Hp & Hok & Hdm & Hmark)].
  - split_and!; [done|by left|left]. split; [done|]. intros p [Hp Hh]%known_with_row. apply Hc in Hp.
    by rewrite (Hno p Hp) in Hh.
  - assert (Hkn : forall k', col k' ∈ cols -> known q w type p (row_at r) (col k')).
    { intros k' Hin. apply known_with_row. split; [by apply Hc|]. by apply Hok in Hin as [_ ?]. }
    split_and!; [done| |].
    + intros r' k' Hk'. destruct (Hmark r' k') as [H1 H2].
      destruct (decide (r' = r)) as [->|Hne]; [|left; apply H2; tauto].
      destruct (decide (col k' ∈ cols)) as [Hin|Hn]; [|left; apply H2; tauto]. right. split; [done|].
      exists p. split; [by apply Hkn|]. by apply H1.
    + right. exists p. assert (Hin : col k ∈ cols). { apply Hok. split; [by left|]. by destruct Hok. }
      split; [by apply Hkn|]. by apply Hmark.
Qed.

Lemma hit_data_spec w (r k : nat) caches m :
  world_ok w -> rows_end w -> mat_dims cs rs m -> (r < nranges)%nat -> (k < ncols)%nat ->
  (forall p, p ∈ caches <-> with_row w NODB_DATA_CACHE (row_at r) p) ->
  exists m', hit_data w q (Z.of_nat r) (Z.of_nat k) caches m = Ok m' /\ mat_dims cs rs m' /\
    (forall r' k', (k' < ncols)%nat -> hit_step w r' k' (cell m r' k') (cell m' r' k')) /\
    data_done w r k (cell m' r k).
Proof.
  intros Hw Hend Hd Hr Hk Hc. unfold hit_data.
  destruct (mat_get_cell cs rs m r k Hd) as [-> _]; [lia|done|]. cbn [mbind result_bind].
  destruct (decide (dataHit (cell m r k) = UNKNOWN)) as [Hu|Hu].
  - destruct (mark_best_hits w NODB_DATA_CACHE r k caches (fun p _ => set_data CACHE_HIT (Some p)) m)
      as (m' & -> & Hd' & Hs & Hdone); try done.
    exists m'. split_and!; [done|done| |].
    + intros r' k' Hk'. destruct (Hs r' k' Hk') as [->|(-> & p & Hp & ->)]; [by left|right; left; eauto].
    + destruct Hdone as [[-> Hno]|(p & _ & ->)]; [by intros _|by unfold data_done].
  - exists m. split_and!; [done|done|by left|]. by intros ?.
Qed.

Lemma wants_pm_spec nd k : (k < ncols)%nat ->
  wants_pm q nd (Z.of_nat k) =
    Ok (bool_decide (pmHit nd = UNKNOWN /\ (dataHit nd <> CACHE_HIT \/ wp_at k = true))).
Proof.
  intros Hk. unfold wants_pm. rewrite write_pos_bit by done.
  destruct (decide (pmHit nd = UNKNOWN)) as [Hu|Hu].
  - destruct (decide (dataHit nd <> CACHE_HIT)) as [Hn|Hn].
    + by rewrite bool_decide_eq_true_2 by tauto.
    + f_equal. destruct (wp_at k); symmetry;
        [apply bool_decide_eq_true_2; tauto|apply bool_decide_eq_false_2]. intros [_ [?|?]]; done.
  - by rewrite bool_decide_eq_false_2 by tauto.
Qed.

Lemma hit_pm_spec w (r k : nat) caches m :
  world_ok w -> rows_end w -> mat_dims cs rs m -> (r < nranges)%nat -> (k < ncols)%nat ->
  (forall p, p ∈ caches <-> with_row w NODB_POSITIONS_CACHE (row_at r) p) ->
  exists m', hit_pm w q (Z.of_nat r) (Z.of_nat k) caches m = Ok m' /\ mat_dims cs rs m' /\
    (forall r' k', (k' < ncols)%nat -> hit_step w r' k' (cell m r' k') (cell m' r' k')) /\
    pm_done w r k (cell m' r k).
Proof.
  intros Hw Hend Hd Hr Hk Hc. unfold hit_pm.
  destruct (mat_get_cell cs rs m r k Hd) as [-> _]; [lia|done|]. cbn [mbind result_bind].
  rewrite wants_pm_spec by done. cbn [mbind result_bind]. case_bool_decide as Hu.
  - destruct (mark_best_hits w NODB_POSITIONS_CACHE r k caches
      (fun p ncol nd => set_closest p ncol 0 (set_pm CACHE_HIT None nd)) m)
      as (m' & -> & Hd' & Hs & Hdone); try done.
    exists m'. split_and!; [done|done| |].
    + intros r' k' Hk'. destruct (Hs r' k' Hk') as [->|(-> & p & Hp & ->)]; [by left|right; right; eauto].
    + destruct Hdone as [[-> Hno]|(p & _ & ->)]; [by right|by unfold pm_done].
  - exists m. split_and!; [done|done|by left|]. intros Hpm. left.
    destruct (decide (dataHit (cell m r k) = CACHE_HIT)), (wp_at k); tauto.
Qed.

Lemma mark_hits_spec w (r : nat) m :
  world_ok w -> rows_end w -> (r < nranges)%nat -> hits_inv w r 0 m ->
  exists m', mark_hits w q (Z.of_nat r) m = Ok m' /\ hits_inv w (S r) 0 m'.
Proof.
  intros Hw Hend Hr HI. unfold mark_hits. rewrite get_row by lia. cbn [mbind result_bind].
  destruct (GetCachesWithRow_spec w (q_relp q) NODB_DATA_CACHE (row_at r) Hw) as (dc & -> & Hdc).
  destruct (GetCachesWithRow_spec w (q_relp q) NODB_POSITIONS_CACHE (row_at r) Hw) as (pc & -> & Hpc).
  cbn [mbind result_bind]. rewrite (qo_cols _ _ _ _ _ Hq). unfold NoDBColVectorSize. cbn [cv_size col_vector].
  destruct (for_nat_inv (hits_inv w r) ncols (fun colIdx m =>
    m1 ← hit_data w q (Z.of_nat r) colIdx dc m; hit_pm w q (Z.of_nat r) colIdx pc m1) m HI) as (m' & -> & HI').
  - intros k m1 Hk HI1.
    destruct (hit_data_spec w r k dc m1) as (m2 & -> & Hd2 & Hs2 & Hdone2); try done; [apply HI1|].
    cbn [mbind result_bind].
    destruct (hit_pm_spec w r k pc m2) as (m3 & -> & Hd3 & Hs3 & Hdone3); try done.
    exists m3. split; [done|].
    assert (HI3 : hits_inv w r k m3).
    { eapply hits_inv_step; [done|by intros; apply Hs3|]. eapply hits_inv_step; [done|by intros; apply Hs2|done]. }
    split; [done|]. intros r' k' Hr' Hk'. destruct HI3 as [_ HI3]. destruct (HI3 r' k' Hr' Hk') as [Hcell Hv].
    split; [done|]. intros [Hlt|[-> Hlt]]; [apply Hv; by left|].
    destruct (decide (k' = k)) as [->|Hne]; [|apply Hv; right; split; [done|lia]].
    split; [|done]. eapply hit_step_data_done; [by apply Hs3|done].
  - exists m'. split; [done|]. destruct HI' as [Hd HI']. split; [done|]. intros r' k' Hr' Hk'.
    destruct (HI' r' k' Hr' Hk') as [Hcell Hv]. split; [done|]. intros [Hlt|[-> Hlt]]; [|lia]. apply Hv.
    destruct (decide (r' = r)) as [->|]; [right; by split|left; lia].
Qed.

(** ** Changes to caches *)
Abbreviation inv := (cache_inv (q_relp q) (NoDBRelationGetNumberColumns (q_rel q))).

Lemma has_col_HasColumn w p c x : w_caches w !! p = Some c ->
  has_col w p x = true <-> NoDBCacheHasColumn c x = Ok true.
Proof. intros E. unfold has_col. rewrite E. destruct (NoDBCacheHasColumn c x) as [[]|]; split; congruence. Qed.

Lemma NoDBCacheGrow_spec c row : inv c ->
  exists c', NoDBCacheGrow c row = Ok c' /\ same_info c c' /\ inv c' /\
    forall x, NoDBCacheHasColumn c' x = NoDBCacheHasColumn c x.
Proof.
  intros (lay & Hwf & Ht & Hr & Hb & Ho & Hne). unfold NoDBCacheGrow, NoDBCacheSetMaxRows, NoDBCacheGetMaxRows.
  assert (Hset : forall n b, Z.of_nat (length b) = u64 (n * c_rowSize c) -> inv (set_buf c (Some n) (Some b))).
  { intros n b Hn. exists lay. split_and!; [by apply set_buf_wf|done|done| |done|done]. intros b' [= <-]. by exists n. }
  pose proof (fun n => wrap_range 64 (n * c_rowSize c) ltac:(lia)) as Hu.
  destruct (c_buf c) as [buf|] eqn:Eb.
  - destruct (Hb buf Eb) as (n & En & _). rewrite En. cbn [mbind result_bind]. case_match.
    + exists c. split_and!; [done|apply same_info_refl| |done]. by exists lay.
    + eexists. split_and!; [done|by split_and!|apply Hset, length_arr_realloc, Hu|done].
  - eexists. split_and!; [done|by split_and!|apply Hset, length_arr_alloc, Hu|done].
Qed.

Lemma put_cache_lookup w p c p' : w_caches (put_cache w p c) !! p' = if decide (p' = p) then Some c else w_caches w !! p'.
Proof. cbn. case_decide; subst; [by rewrite lookup_insert_eq|by rewrite lookup_insert_ne]. Qed.

Lemma plan_world_put w p c : plan_world q w -> p ∈ NoDBCaches w -> inv c -> plan_world q (put_cache w p c).
Proof.
  intros Hw Hp Hc. split; [| apply (pw_null _ _ Hw) | | apply (pw_pos _ _ Hw)].
  - intros p' Hp'. rewrite put_cache_lookup. case_decide; [eauto|]. by apply (pw_caches _ _ Hw).
  - intros p' Hs. rewrite put_cache_lookup in Hs. cbn [w_next put_cache]. apply (pw_next _ _ Hw).
    case_decide; [|done]. subst. destruct (pw_caches _ _ Hw p Hp) as (c' & E & _). by eexists.
Qed.

Lemma extends_put w p c c' : w_caches w !! p = Some c -> same_info c c' ->
  (forall x, NoDBCacheHasColumn c x = Ok true -> NoDBCacheHasColumn c' x = Ok true) -> extends w (put_cache w p c').
Proof.
  intros E Hi Hcols. split.
  - done.
  - intros p' c0 Hp' E0. rewrite put_cache_lookup. case_decide as Hd; [subst p'; simplify_eq; eauto|].
    exists c0. split; [done|apply same_info_refl].
  - intros p' x Hp' Hh. unfold has_col. rewrite put_cache_lookup. case_decide as Hd; [subst p'|done].
    apply (has_col_HasColumn w p c) in Hh; [|done]. by rewrite (Hcols x Hh).
  - done.
Qed.

Lemma has_col_put w p c p' x : p' <> p -> has_col (put_cache w p c) p' x = has_col w p' x.
Proof. intros Hne. unfold has_col. rewrite put_cache_lookup. by rewrite decide_False. Qed.

Lemma add_cache_fresh w : plan_world q w -> w_next w ∉ NoDBCaches w /\ w_caches w !! w_next w = None /\ w_next w <> 0.
Proof.
  intros Hw. assert (Hn : w_caches w !! w_next w = None).
  { apply eq_None_not_Some. intros Hs%(pw_next _ _ Hw). lia. }
  split_and!; [|done|pose proof (pw_pos _ _ Hw); lia].
  intros Hin. destruct (pw_caches _ _ Hw _ Hin) as (c & E & _). congruence.
Qed.

Lemma plan_world_add w c : plan_world q w -> inv c -> plan_world q (add_cache w c).1.
Proof.
  intros Hw Hc. destruct (add_cache_fresh w Hw) as (Hf & Hn & H0). split; cbn [add_cache fst NoDBCaches w_caches w_next].
  - intros p [->|Hp]%elem_of_cons; [exists c; by rewrite lookup_insert_eq|].
    rewrite lookup_insert_ne by (intros <-; done). by apply (pw_caches _ _ Hw).
  - rewrite elem_of_cons. intros [?|?]; [done|by apply (pw_null _ _ Hw)].
  - intros p [c' Hp]. apply lookup_insert_Some in Hp as [[<- _]|[_ Hp]]; [lia|].
    assert (p < w_next w) by (apply (pw_next _ _ Hw); by eexists). lia.
  - pose proof (pw_pos _ _ Hw). lia.
Qed.

Lemma extends_add w c : plan_world q w -> c_usedRows c = 0 -> extends w (add_cache w c).1.
Proof.
  intros Hw Hu. destruct (add_cache_fresh w Hw) as (Hf & Hn & H0). split; cbn [add_cache fst NoDBCaches w_caches].
  - intros p Hp. by right.
  - intros p c0 Hp E. exists c0. rewrite lookup_insert_ne by (intros <-; done). split; [done|apply same_info_refl].
  - intros p x Hp Hh. unfold has_col in *. cbn [w_caches]. by rewrite lookup_insert_ne by (intros <-; done).
  - intros p c' [->|Hp]%elem_of_cons Hnin Hc'; [|done]. rewrite lookup_insert_eq in Hc'. by simplify_eq.
Qed.

Lemma inv_rows_ok c : inv c -> rows_ok c.
Proof. by intros (lay & _ & _ & ? & _). Qed.

Lemma rows_end_extends w w' : plan_world q w -> plan_world q w' -> extends w w' -> rows_end w -> rows_end w'.
Proof.
  intros Hw Hw' He Hend p c' Hp Hc' Hrel. destruct (decide (p ∈ NoDBCaches w)) as [Hin|Hn].
  - destruct (pw_caches _ _ Hw p Hin) as (c & E & _). destruct (ex_info _ _ He p c Hin E) as (c2 & E2 & Hi).
    simplify_eq. rewrite (same_info_row _ _ _ Hi). apply (Hend p c); [done..|]. destruct Hi as [Hr _]. congruence.
  - pose proof (ex_new _ _ He p c' Hp Hn Hc') as Hu.
    destruct (pw_caches _ _ Hw' p Hp) as (c2 & E2 & Hr%inv_rows_ok). simplify_eq.
    rewrite HasRow_exact by done. apply bool_decide_eq_false_2. lia.
Qed.

(** Marking a column from a row on. *)
Lemma mark_column_spec c (k : nat) set fuel : forall (r : nat) m,
  mat_dims cs rs m -> (r < nranges)%nat -> (k < ncols)%nat -> (nranges <= fuel + r)%nat ->
  rows_ok c -> c_startRow c <= row_at r -> NoDBCacheHasRow c (row_at nranges) = false ->
  exists m', mark_column fuel q c (Z.of_nat r) (Z.of_nat k) set m = Ok m' /\
    marked cs rs (fun r' k' => k' = k /\ (r' = r \/ (r < r' < nranges)%nat /\ NoDBCacheHasRow c (row_at r') = true))
      (fun _ => set) m m'.
Proof.
  induction fuel as [|fuel IH]; intros r m Hd Hr Hk Hf Hok Hs Hend; [lia|]. cbn [mark_column].
  destruct (marked_one cs rs m r k (fun _ => set) Hd) as (m1 & -> & Hm1); [lia|done|]. cbn [mbind result_bind].
  replace (Z.of_nat r + 1) with (Z.of_nat (S r)) by lia. rewrite get_row by lia. cbn [mbind result_bind].
  pose proof (row_at_mono r (S r)) as Hmono.
  destruct (NoDBCacheHasRow c (row_at (S r))) eqn:Erow.
  - assert (S r < nranges)%nat.
    { destruct (decide (S r = nranges)) as [E|]; [rewrite E in Erow; congruence|lia]. }
    destruct (IH (S r) m1) as (m2 & -> & Hm2); try done; [apply Hm1|lia|lia|].
    exists m2. split; [done|].
    eapply marked_iff; [|eapply marked_trans; [| |exact Hm1|exact Hm2]]; cbn beta.
    + intros r' k'. split.
      * intros [[-> ->]|[-> [->|[? ?]]]]; (split; [done|]); [by left|right; split; [lia|done]|right; split; [lia|done]].
      * intros [-> [->|[? ?]]]; [by left|]. right. split; [done|].
        destruct (decide (r' = S r)) as [->|]; [by left|right; split; [lia|done]].
    + apply _.
    + intros r' k' [-> ->] [_ [?|[? _]]]; lia.
  - exists m1. split; [done|]. eapply marked_iff; [|exact Hm1]. cbn beta. intros r' k'. split; [by intros [-> ->]; eauto|].
    intros [-> [->|[Hr' Hrow]]]; [done|]. exfalso.
    rewrite HasRow_exact in Erow, Hrow by done. apply bool_decide_eq_false in Erow. apply bool_decide_eq_true in Hrow.
    apply Erow. pose proof (row_at_mono (S r) r'). destruct (decide (r' = S r)) as [->|]; lia.
Qed.

(** ** Placing a column *)

(** What [place] does to the caches and the matrix: a cache that can grow takes
    the columns it has of the candidates, for this range of rows; or a cache that
    begins here gets the column, for this range and every later one it has. *)
Definition placed (type : NoDBCacheType_t) (r k : nat) (cands : list Z) (set : Z -> Node_t -> Node_t)
    w m w' m' : Prop :=
  exists p c', p ∈ NoDBCaches w' /\ w_caches w' !! p = Some c' /\ of_rel_type (q_relp q) type c' = true /\
    ((exists gcols : list Z, (forall x, x ∈ gcols -> x ∈ cands /\ has_col w' p x = true) /\ col k ∈ gcols /\
        c_startRow c' <= row_at r /\ (forall p' x, has_col w' p' x = true -> has_col w p' x = true) /\
        marked cs rs (fun r' k' => r' = r /\ (k' < ncols)%nat /\ col k' ∈ gcols) (fun _ => set p) m m') \/
     (has_col w' p (col k) = true /\ c_startRow c' = row_at r /\
        (forall p' x, has_col w' p' x = true -> has_col w p' x = true \/ p' = p /\ x = col k) /\
        marked cs rs (fun r' k' => k' = k /\
            (r' = r \/ (r < r' < nranges)%nat /\ NoDBCacheHasRow c' (row_at r') = true)) (fun _ => set p) m m')).

Lemma NoDBCacheInit_info relp rel type startRow rowSize c :
  NoDBCacheInit relp rel type startRow rowSize = Ok c -> c_rel c = relp /\ c_type c = type /\ c_nRows c = None.
Proof. unfold NoDBCacheInit. intros H. inv_ok. done. Qed.

Lemma same_rows_info c c' : same_rows c c' -> same_info c c'.
Proof. intros (? & ? & ? & ? & _). by split_and!. Qed.

Lemma HasColumn_neg c x : c_nMap c = Z.of_nat (length (c_map c)) -> x < 0 -> NoDBCacheHasColumn c x <> Ok true.
Proof.
  intros Hn Hx. unfold NoDBCacheHasColumn. rewrite (proj2 (Z.ltb_lt _ _)) by lia.
  unfold arr_get. by rewrite (proj2 (Z.leb_gt _ _)) by lia.
Qed.

(** A cache with room gets the column. *)
Lemma AddColumn_room c k size :
  inv c -> c_rel c = q_relp q -> (k < ncols)%nat -> 0 <= size <= c_rowFree c -> 0 < c_rowFree c ->
  exists c' x, NoDBCacheAddColumn c (col k) size = Ok (c', x) /\ inv c' /\ same_info c c' /\
    NoDBCacheHasColumn c' (col k) = Ok true /\
    forall x, NoDBCacheHasColumn c' x = Ok true <-> NoDBCacheHasColumn c x = Ok true \/ x = col k.
Proof.
  intros (lay & Hwf & Ht & Hr & Hb & Ho & Hne) Hrel Hk Hsz Hpos. pose proof (col_range k Hk) as Hcol.
  destruct (NoDBCacheAddColumn_fits c lay (col k) size Hwf Ht) as (c' & x & lay' & E & Hs & Hwf' & Ht' & Hx);
    [rewrite Ho by done; lia|lia|lia|].
  assert (Hcols : forall x, NoDBCacheHasColumn c' x = Ok true <-> NoDBCacheHasColumn c x = Ok true \/ x = col k).
  { intros y. destruct (decide (0 <= y)) as [Hy|Hy].
    - rewrite (NoDBCacheHasColumn_spec _ _ _ Hwf Hy), (NoDBCacheHasColumn_spec _ _ _ Hwf' Hy).
      specialize (Hx y). do 2 case_bool_decide; naive_solver.
    - assert (NoDBCacheHasColumn c y <> Ok true) by (apply HasColumn_neg; [apply Hwf|lia]).
      assert (NoDBCacheHasColumn c' y <> Ok true) by (apply HasColumn_neg; [apply Hwf'|lia]).
      assert (y <> col k) by lia. tauto. }
  exists c', x. split_and!; [done| |by apply same_rows_info|apply Hcols; by right|done].
  destruct Hs as (S1 & S2 & S3 & S4 & S5 & S6 & S7 & S8 & S9).
  exists lay'. split_and!; [done|done| | | |].
  - unfold rows_ok. by rewrite S3, S4.
  - unfold buf_sized. by rewrite S8, S7, S5.
  - rewrite S9, S1. done.
  - intros _. exists (col k). apply Hx. by left.
Qed.

Lemma place_grow w type (r k : nat) cands set m p c gcols :
  plan_world q w -> mat_dims cs rs m -> (r < nranges)%nat -> (forall x, x ∈ cands -> x ∈ cs) ->
  p ∈ NoDBCaches w -> w_caches w !! p = Some c -> of_rel_type (q_relp q) type c = true -> c_startRow c <= row_at r ->
  NoDup gcols -> (forall x, x ∈ gcols <-> x ∈ cands /\ has_col w p x = true) -> col k ∈ gcols ->
  exists w' m', (c ← get_cache w p; c' ← NoDBCacheGrow c (row_at r);
      m' ← mark_cols q (Z.of_nat r) (fun _ => set p) gcols m; Ok (put_cache w p c', m')) = Ok (w', m') /\
    plan_world q w' /\ extends w w' /\ placed type r k cands set w m w' m'.
Proof.
  intros Hw Hd Hr Hsub Hp Ec Ht Hs Hng Hg Hin. unfold get_cache. rewrite Ec. cbn [mbind result_bind].
  destruct (pw_caches _ _ Hw p Hp) as (c0 & E0 & Hinv). simplify_eq.
  destruct (NoDBCacheGrow_spec c (row_at r) Hinv) as (c' & -> & Hi & Hinv' & Hcols). cbn [mbind result_bind].
  destruct (mark_cols_spec q cs rs (qo_cols _ _ _ _ _ Hq) (qo_sorted _ _ _ _ _ Hq) r (fun _ => set p) gcols m Hd)
    as (m' & -> & Hm); [lia|done|by intros x [? _]%Hg; auto|].
  cbn [mbind result_bind]. exists (put_cache w p c'), m'.
  assert (Hhas : forall p' x, has_col (put_cache w p c') p' x = true <-> has_col w p' x = true).
  { intros p' x. destruct (decide (p' = p)) as [->|Hne]; [|by rewrite has_col_put].
    rewrite (has_col_HasColumn _ p c') by (by rewrite put_cache_lookup, decide_True).
    by rewrite (has_col_HasColumn w p c), Hcols. }
  split_and!; [done|by apply plan_world_put|apply (extends_put w p c c'); [done|done|]; intros x; by rewrite Hcols|].
  exists p, c'. split_and!; [done|by rewrite put_cache_lookup, decide_True|by rewrite (same_info_rel_type _ _ _ _ Hi)|].
  left. exists gcols. split_and!; [|done| |by intros; apply Hhas|done].
  - intros x Hx. rewrite Hhas. by apply Hg.
  - destruct Hi as (_ & _ & -> & _). done.
Qed.

Lemma place_room w type (r k : nat) cands set m p c size :
  plan_world q w -> rows_end w -> mat_dims cs rs m -> (r < nranges)%nat -> (k < ncols)%nat ->
  p ∈ NoDBCaches w -> w_caches w !! p = Some c -> of_rel_type (q_relp q) type c = true -> c_startRow c = row_at r ->
  0 <= size -> size <= c_rowFree c -> 0 < c_rowFree c ->
  exists w' m', (x ← NoDBCacheAddColumn c (col k) size;
      m' ← mark_column (rows_fuel q) q x.1 (Z.of_nat r) (Z.of_nat k) (set p) m; Ok (put_cache w p x.1, m')) = Ok (w', m') /\
    plan_world q w' /\ extends w w' /\ placed type r k cands set w m w' m'.
Proof.
  intros Hw Hend Hd Hr Hk Hp Ec Ht Hs H0 H1 H2. pose proof (of_rel_type_rel _ _ Ht) as Hrel.
  destruct (pw_caches _ _ Hw p Hp) as (c0 & E0 & Hinv). simplify_eq.
  destruct (AddColumn_room c k size) as (c' & x & -> & Hinv' & Hi & Hhk & Hcols); [done..|].
  cbn [mbind result_bind fst].
  assert (Hext : extends w (put_cache w p c')). { eapply extends_put; eauto. intros y Hy. apply Hcols. by left. }
  assert (Hpw : plan_world q (put_cache w p c')) by by apply plan_world_put.
  assert (Elook : w_caches (put_cache w p c') !! p = Some c') by by rewrite put_cache_lookup, decide_True.
  destruct (mark_column_spec c' k (set p) (rows_fuel q) r m) as (m' & -> & Hm); try done.
  - unfold rows_fuel. rewrite (qo_rows _ _ _ _ _ Hq). cbn. lia.
  - by apply inv_rows_ok.
  - destruct Hi as (_ & _ & -> & _). lia.
  - rewrite (same_info_row _ _ _ Hi). by apply (Hend p c).
  - cbn [mbind result_bind]. exists (put_cache w p c'), m'. split_and!; [done..|].
    exists p, c'. split_and!; [done|done|by rewrite (same_info_rel_type _ _ _ _ Hi)|]. right. split_and!.
    + by apply (has_col_HasColumn _ p c').
    + destruct Hi as (_ & _ & -> & _). done.
    + intros p' y Hh. destruct (decide (p' = p)) as [->|Hne]; [|left; by rewrite has_col_put in Hh].
      apply (has_col_HasColumn _ p c') in Hh; [|done]. apply Hcols in Hh as [Hh| ->]; [left|by right].
      by apply (has_col_HasColumn w p c).
    + done.
Qed.

Lemma place_new w type (r k : nat) cands set m size defaultSize :
  plan_world q w -> mat_dims cs rs m -> (r < nranges)%nat -> (k < ncols)%nat ->
  0 <= size <= defaultSize -> 0 < defaultSize < 2 ^ 31 ->
  exists w' m', (newCache ← NoDBCacheInit (q_relp q) (q_rel q) type (row_at r) defaultSize;
      x ← NoDBCacheAddColumn newCache (col k) size;
      let '(w', p') := add_cache w x.1 in
      m' ← mat_upd m (Z.of_nat r) (Z.of_nat k) (set p'); Ok (w', m')) = Ok (w', m') /\
    plan_world q w' /\ extends w w' /\ placed type r k cands set w m w' m'.
Proof.
  intros Hw Hd Hr Hk Hsz Hdef. pose proof (col_range k Hk) as Hcol.
  destruct (NoDBCacheInit_spec (q_relp q) (q_rel q) type (row_at r) defaultSize) as (c & E & Hwf & Ho & Hs & Hu & _ & _ & Hb);
    [lia|lia|]. destruct (NoDBCacheInit_info _ _ _ _ _ _ E) as (Hrel & Hty & Hnr). rewrite E. cbn [mbind result_bind].
  assert (Hfree : c_rowFree c = defaultSize) by (rewrite (wf_free _ _ Hwf); cbn; lia).
  pose proof (row_at_range r) as Hrange.
  assert (Hinv : inv c).
  { exists [(None, defaultSize)]. split_and!; [done|exists [], [(None, defaultSize)]; eauto| | |done|].
    - unfold rows_ok. rewrite Hs, Hu. lia.
    - intros b. by rewrite Hb.
    - lia. }
  destruct (AddColumn_room c k size) as (c' & x & -> & Hinv' & Hi & Hhk & Hcols); [done|done|done|lia|lia|].
  cbn [mbind result_bind fst add_cache].
  destruct (marked_one cs rs m r k (fun _ => set (w_next w)) Hd) as (m' & -> & Hm); [lia|done|].
  cbn [mbind result_bind]. destruct (add_cache_fresh w Hw) as (Hf & Hn & H0). destruct Hi as (I1 & I2 & I3 & I4).
  pose proof (plan_world_add w c' Hw Hinv') as Hpw. pose proof (extends_add w c' Hw ltac:(congruence)) as Hext.
  exists (add_cache w c').1, m'. split_and!; [done..|]. exists (w_next w), c'.
  assert (El : w_caches (add_cache w c').1 !! w_next w = Some c') by (cbn; by rewrite lookup_insert_eq).
  split_and!; [by left|done| |right; split_and!].
  - unfold of_rel_type, NoDBCacheGetRelation, NoDBCacheGetType.
    rewrite I1, I2, Hrel, Hty, Z.eqb_refl, bool_decide_eq_true_2 by done. done.
  - by apply (has_col_HasColumn _ _ c').
  - congruence.
  - intros p' y Hh. destruct (decide (p' = w_next w)) as [->|Hne].
    + apply (has_col_HasColumn _ _ c') in Hh; [|done]. apply Hcols in Hh as [Hh| ->]; [|by right].
      exfalso. destruct (decide (0 <= y)) as [Hy|Hy].
      * rewrite (NoDBCacheHasColumn_spec _ _ _ Hwf Hy) in Hh. done.
      * by eapply HasColumn_neg; [apply Hwf| |exact Hh]; lia.
    + left. unfold has_col in *. cbn [add_cache fst w_caches] in Hh. by rewrite lookup_insert_ne in Hh.
  - eapply marked_iff; [|exact Hm]. cbn beta. intros r' k'. split; [intros [-> ->]; eauto|].
    intros [-> [->|[_ Hrow]]]; [done|]. exfalso.
    rewrite HasRow_exact in Hrow by by apply inv_rows_ok. apply bool_decide_eq_true in Hrow. lia.
Qed.

Lemma place_spec w type getSize size defaultSize (r k : nat) cands set m :
  plan_world q w -> rows_end w -> mat_dims cs rs m -> (r < nranges)%nat -> (k < ncols)%nat ->
  getSize = Ok size -> 0 <= size <= defaultSize -> 0 < defaultSize < 2 ^ 31 ->
  NoDup cands -> (forall x, x ∈ cands -> x ∈ cs) -> col k ∈ cands ->
  exists w' m', place w q type getSize defaultSize (row_at r) (Z.of_nat r) (col k) (Z.of_nat k) cands set m = Ok (w', m') /\
    plan_world q w' /\ extends w w' /\ placed type r k cands set w m w' m'.
Proof.
  intros Hw Hend Hd Hr Hk Hget Hsz Hdef Hnd Hsub Hin. pose proof (plan_world_ok _ _ Hw) as Hok.
  pose proof (col_range k Hk) as Hcol. unfold place.
  destruct (GetCachesCanGrow_spec w (q_relp q) type (col k) (row_at r) cands) as (l & -> & Hl);
    [done|lia|by apply cols_nonneg|]. cbn [mbind result_bind].
  destruct (GetBestCacheToGrow_spec w cands l (col k)) as [[-> ->]|(p & gcols & -> & Hp & Hng & Hg & _)]; try done.
  { intros p (_ & Hp & c & _ & _ & _ & Hh & _)%Hl. done. } { by apply cols_nonneg. }
  - (* a cache with room, or a new one *)
    cbn [mbind result_bind]. rewrite Hget. cbn [mbind result_bind].
    destruct (GetCachesFreeColumns_spec w (q_relp q) type (q_limit q) (row_at r) size Hok) as (fl & -> & Hfl).
    cbn [mbind result_bind]. destruct (GetBestCacheToAddColumn_spec w fl) as (p & -> & Hp).
    { intros p (_ & c & ? & _)%Hfl. eauto. }
    cbn [mbind result_bind]. destruct Hp as [->|(Hpf & c & Ec & Hfree & _)]; cbn [negb Z.eqb].
    + eapply place_new; eauto.
    + destruct (Hfl p Hpf) as (Hpw & c' & Ec' & Ht & Hs & Hroom). simplify_eq.
      destruct (Z.eqb_spec p 0) as [->|_]; [by destruct (pw_null _ _ Hw)|]. cbn [negb].
      unfold get_cache. rewrite Ec. cbn [mbind result_bind].
      eapply place_room; eauto; lia.
  - cbn [mbind result_bind]. apply Hl in Hp as (_ & Hp & c & Ec & Ht & Hs & Hh & _).
    eapply place_grow; eauto. by apply Hg.
Qed.

(** The same, cell by cell. *)
Lemma placed_cells type r k cands set w m w' m' :
  (r < nranges)%nat -> (k < ncols)%nat -> col k ∈ cands -> plan_world q w' -> placed type r k cands set w m w' m' ->
  mat_dims cs rs m' /\ exists p c', p ∈ NoDBCaches w' /\ w_caches w' !! p = Some c' /\
    of_rel_type (q_relp q) type c' = true /\
    (forall r' k', (r' < nranges)%nat -> (k' < ncols)%nat -> cell m' r' k' = cell m r' k' \/
       cell m' r' k' = set p (cell m r' k') /\ dest q w' type p (row_at r') (col k') /\
       (r' = r /\ col k' ∈ cands \/
        k' = k /\ (r < r')%nat /\ NoDBCacheHasRow c' (row_at r') = true /\ c_startRow c' = row_at r)) /\
    cell m' r k = set p (cell m r k) /\
    (forall p' x, has_col w' p' x = true -> has_col w p' x = true \/
       p' = p /\ x = col k /\ forall r', (r' < nranges)%nat -> NoDBCacheHasRow c' (row_at r') = true ->
         cell m' r' k = set p (cell m r' k)).
Proof.
  intros Hr Hk Hin Hw' (p & c' & Hp & Ec & Ht & [(gcols & Hg & Hkg & Hs & Hc & Hd & Hm)|(Hh & Hs & Hc & Hd & Hm)]).
  - split; [done|]. exists p, c'. split_and!; [done..| | |by intros; left; apply Hc].
    + intros r' k' Hr' Hk'. destruct (Hm r' k') as [H1 H2].
      destruct (decide (r' = r /\ col k' ∈ gcols)) as [[-> Hg']|Hn]; [right|left; apply H2; tauto].
      destruct (Hg _ Hg') as [? ?]. split_and!; [by apply H1| |by left]. split; [done|]. exists c'. by split_and!.
    + by apply Hm.
  - split; [done|]. exists p, c'. split_and!; [done..| | |].
    + intros r' k' Hr' Hk'. destruct (Hm r' k') as [H1 H2].
      destruct (decide (k' = k /\ (r' = r \/ (r < r')%nat /\ NoDBCacheHasRow c' (row_at r') = true)))
        as [[-> Hr2]|Hn]; [right|left; apply H2; intros [? [?|[? ?]]]; tauto].
      split_and!.
      * apply H1. split; [done|]. destruct Hr2 as [?|[? ?]]; [by left|right; split; [lia|done]].
      * split; [done|]. exists c'. split_and!; [done..| |done]. rewrite Hs.
        destruct Hr2 as [->|[Hlt _]]; [lia|]. pose proof (row_at_mono r r'). lia.
      * destruct Hr2 as [->|[Hlt ?]]; [by left|by right].
    + apply Hm. split; [done|by left].
    + intros p' x [?|[-> ->]]%Hc; [by left|right]. split_and!; [done..|]. intros r' Hr' Hrow.
      apply Hm. split; [done|]. destruct (decide (r' = r)) as [|Hne]; [by left|right]. split; [|done].
      destruct (pw_caches _ _ Hw' p Hp) as (c2 & E2 & Hi%inv_rows_ok). simplify_eq.
      rewrite HasRow_exact in Hrow by done. apply bool_decide_eq_true in Hrow.
      pose proof (row_at_mono r' r). lia.
Qed.

(** A cache with rows was there before. *)
Lemma old_cache w w' p c' row :
  plan_world q w -> plan_world q w' -> extends w w' -> p ∈ NoDBCaches w' -> w_caches w' !! p = Some c' ->
  NoDBCacheHasRow c' row = true -> p ∈ NoDBCaches w /\ exists c, w_caches w !! p = Some c /\ same_info c c'.
Proof.
  intros Hw Hw' He Hp Ec Hrow. destruct (decide (p ∈ NoDBCaches w)) as [Hin|Hn].
  - split; [done|]. destruct (pw_caches _ _ Hw p Hin) as (c & E & _).
    destruct (ex_info _ _ He p c Hin E) as (c2 & E2 & Hi). simplify_eq. eauto.
  - exfalso. pose proof (ex_new _ _ He p c' Hp Hn Ec) as Hu0.
    destruct (pw_caches _ _ Hw' p Hp) as (c2 & E2 & Hi%inv_rows_ok). simplify_eq.
    rewrite HasRow_exact in Hrow by done. apply bool_decide_eq_true in Hrow. lia.
Qed.

(** ** Misses *)
Section misses.
Context (w0 : world).

Definition start_of w (p : Z) : Z := default 0 (c_startRow <$> w_caches w !! p).

(** Of the positional maps with the row, one that begins first. *)
Definition first_map (r : nat) (p : Z) : Prop :=
  with_row w0 NODB_POSITIONS_CACHE (row_at r) p /\
  forall p', with_row w0 NODB_POSITIONS_CACHE (row_at r) p' -> start_of w0 p <= start_of w0 p'.

Definition pm_known (r k : nat) : Prop := exists p, known q w0 NODB_POSITIONS_CACHE p (row_at r) (col k).

Definition miss_cell w (r k : nat) nd : Prop :=
  match dataHit nd with
  | UNKNOWN => True
  | CACHE_HIT => exists p, dataCache nd = Some p /\ known q w0 NODB_DATA_CACHE p (row_at r) (col k)
  | CACHE_MISS => wd_at k = false
  | CACHE_ADD => wd_at k = true /\ exists p, dataCache nd = Some p /\ dest q w NODB_DATA_CACHE p (row_at r) (col k)
  end /\
  match pmHit nd with
  | UNKNOWN => True
  | CACHE_HIT => closestPMCache nd <> 0
  | CACHE_MISS => wp_at k = false
  | CACHE_ADD => wp_at k = true /\ exists p, pmCache nd = Some p /\ dest q w NODB_POSITIONS_CACHE p (row_at r) (col k)
  end /\
  (closestPMCache nd = 0 \/
   known q w0 NODB_POSITIONS_CACHE (closestPMCache nd) (row_at r) (col k) /\
     closestColumn nd = Some (col k) /\ distance nd = Some 0) /\
  (wp_at k = true -> pm_known r k -> pmHit nd <> UNKNOWN).

Definition miss_done (k : nat) nd : Prop :=
  dataHit nd <> UNKNOWN /\ (pmHit nd = UNKNOWN -> dataHit nd = CACHE_HIT /\ wp_at k = false).

Record miss_inv (r0 k0 : nat) w m : Prop := {
  mi_world : plan_world q w;
  mi_ext : extends w0 w;
  mi_dims : mat_dims cs rs m;
  mi_cell : forall r k, (r < nranges)%nat -> (k < ncols)%nat -> miss_cell w r k (cell m r k);
  mi_visited : forall r k, (r < nranges)%nat -> (k < ncols)%nat -> visited r0 k0 r k -> miss_done k (cell m r k);
  mi_added : forall p c r x, p ∈ NoDBCaches w -> w_caches w !! p = Some c ->
    of_rel_type (q_relp q) NODB_POSITIONS_CACHE c = true -> (r < nranges)%nat ->
    NoDBCacheHasRow c (row_at r) = true -> has_col w p x = true ->
    has_col w0 p x = true \/ exists k, (k < ncols)%nat /\ x = col k /\ pmHit (cell m r k) = CACHE_ADD;
  mi_first : forall r k p, (r < nranges)%nat -> (k < ncols)%nat -> first_map r p -> has_col w0 p (col k) = true ->
    pmHit (cell m r k) <> CACHE_ADD }.

(** The candidates to grow in a row are the columns to write that are no hits. *)
Record row_cands (r : nat) (candsD candsP : list Z) m : Prop := {
  rc_data : forall x, x ∈ candsD <-> exists k, (k < ncols)%nat /\ x = col k /\ wd_at k = true /\
    dataHit (cell m r k) <> CACHE_HIT;
  rc_pm : forall x, x ∈ candsP <-> exists k, (k < ncols)%nat /\ x = col k /\ wp_at k = true /\
    pmHit (cell m r k) <> CACHE_HIT;
  rc_dnodup : NoDup candsD;
  rc_pnodup : NoDup candsP }.

Lemma miss_cell_mono w w' r k nd : extends w w' -> miss_cell w r k nd -> miss_cell w' r k nd.
Proof.
  intros He (H1 & H2 & H3 & H4). split_and!; [| |done|done].
  - destruct (dataHit nd); try done. destruct H1 as (? & p & ? & ?). split; [done|]. exists p.
    split; [done|]. by eapply dest_mono.
  - destruct (pmHit nd); try done. destruct H2 as (? & p & ? & ?). split; [done|]. exists p.
    split; [done|]. by eapply dest_mono.
Qed.

Lemma miss_cell_data w r k nd p : wd_at k = true -> dest q w NODB_DATA_CACHE p (row_at r) (col k) ->
  miss_cell w r k nd -> miss_cell w r k (set_data CACHE_ADD (Some p) nd).
Proof. intros Hw Hp (H1 & H2 & H3 & H4). split_and!; try done. cbn. eauto. Qed.

Lemma miss_cell_pm w r k nd p : wp_at k = true -> dest q w NODB_POSITIONS_CACHE p (row_at r) (col k) ->
  miss_cell w r k nd -> miss_cell w r k (set_pm CACHE_ADD (Some p) nd).
Proof. intros Hw Hp (H1 & H2 & H3 & H4). split_and!; try done. cbn. eauto. Qed.

Lemma cand_index (k : nat) (l : list Z) (P : nat -> Prop) : (k < ncols)%nat ->
  (forall x, x ∈ l <-> exists k', (k' < ncols)%nat /\ x = col k' /\ P k') -> col k ∈ l <-> P k.
Proof.
  intros Hk Hl. rewrite Hl. split; [|intros; by exists k].
  intros (k' & Hk' & He & HP). by rewrite (col_at_inj cs (qo_sorted _ _ _ _ _ Hq) k k' Hk Hk' He).
Qed.

(** A column whose data is to be written has been placed. *)
Lemma data_step (r k : nat) candsD candsP w m w' m' :
  miss_inv r k w m -> row_cands r candsD candsP m -> (r < nranges)%nat -> (k < ncols)%nat ->
  dataHit (cell m r k) = UNKNOWN -> wd_at k = true -> plan_world q w' -> extends w w' ->
  placed NODB_DATA_CACHE r k candsD (fun p => set_data CACHE_ADD (Some p)) w m w' m' ->
  miss_inv r k w' m' /\ row_cands r candsD candsP m' /\ dataHit (cell m' r k) <> UNKNOWN.
Proof.
  intros HI Hrc Hr Hk Hu Hwd Hw' He Hpl.
  assert (Hkin : col k ∈ candsD). { apply (rc_data _ _ _ _ Hrc). exists k. split_and!; [done..|]. by rewrite Hu. }
  destruct (placed_cells _ _ _ _ _ _ _ _ _ Hr Hk Hkin Hw' Hpl) as (Hd' & p & c' & Hp & Ec & Ht & Hcells & Hkk & Hcols).
  assert (Hpm : forall r' k', (r' < nranges)%nat -> (k' < ncols)%nat -> pmHit (cell m' r' k') = pmHit (cell m r' k')).
  { intros r' k' H1 H2. by destruct (Hcells r' k' H1 H2) as [->|[-> _]]. }
  assert (Hwdk : forall k', (k' < ncols)%nat -> col k' ∈ candsD -> wd_at k' = true /\ dataHit (cell m r k') <> CACHE_HIT).
  { intros k' Hk' Hin. apply (cand_index k' candsD (fun k => wd_at k = true /\ dataHit (cell m r k) <> CACHE_HIT)); try done.
    apply Hrc. }
  assert (Hhit : forall k', (k' < ncols)%nat -> dataHit (cell m' r k') = CACHE_HIT <-> dataHit (cell m r k') = CACHE_HIT).
  { intros k' Hk'. destruct (Hcells r k' Hr Hk') as [->|(-> & _ & [[_ Hin]|(_ & ? & _)])]; [done| |lia].
    destruct (Hwdk k' Hk' Hin) as [_ Hn]. cbn. split; [done|]. by intros ?%Hn. }
  split_and!; [split|split|].
  - done.
  - apply (extends_trans w0 w w'); [eapply plan_world_ok, (mi_world _ _ _ _ HI)|apply (mi_ext _ _ _ _ HI)|done].
  - done.
  - intros r' k' Hr' Hk'. pose proof (miss_cell_mono _ _ _ _ _ He (mi_cell _ _ _ _ HI r' k' Hr' Hk')) as Hc.
    destruct (Hcells r' k' Hr' Hk') as [->|(-> & Hdest & Hwhy)]; [done|]. apply miss_cell_data; [|done|done].
    destruct Hwhy as [[-> Hin]|(-> & _)]; [by apply Hwdk|done].
  - intros r' k' Hr' Hk' Hv. pose proof (mi_visited _ _ _ _ HI r' k' Hr' Hk' Hv) as Hdone.
    destruct (Hcells r' k' Hr' Hk') as [->|(-> & _ & Hwhy)]; [done|]. split; [done|]. cbn. intros Hpu.
    destruct (proj2 Hdone Hpu) as [Hdh _]. exfalso.
    destruct Hwhy as [[-> Hin]|(-> & Hlt & _)]; [by apply Hwdk in Hin as [_ ?]|]. destruct Hv as [?|[? ?]]; lia.
  - intros p' c1 r' x Hp' Ec' Ht' Hr' Hrow Hh. destruct (Hcols p' x Hh) as [Hh0|(-> & _)].
    + destruct (old_cache w w' p' c1 (row_at r') (mi_world _ _ _ _ HI) Hw' He Hp' Ec' Hrow) as (Hin & c0 & E0 & Hi).
      rewrite (same_info_rel_type _ _ _ _ Hi) in Ht'. rewrite (same_info_row _ _ _ Hi) in Hrow.
      destruct (mi_added _ _ _ _ HI p' c0 r' x Hin E0 Ht' Hr' Hrow Hh0) as [?|(k1 & Hk1 & Hx & Ha)]; [by left|right].
      exists k1. by rewrite Hpm.
    + exfalso. simplify_eq. unfold of_rel_type in Ht, Ht'. apply andb_true_iff in Ht as [_ Ht], Ht' as [_ Ht'].
      apply bool_decide_eq_true in Ht, Ht'. congruence.
  - intros r' k' Z0 Hr' Hk'. rewrite Hpm by done. by apply (mi_first _ _ _ _ HI).
  - intros x. rewrite (rc_data _ _ _ _ Hrc). split; intros (k' & Hk' & Hx & Hwd' & Hn); exists k'; split_and!; try done;
      by rewrite Hhit in *.
  - intros x. rewrite (rc_pm _ _ _ _ Hrc). split; intros (k' & Hk' & Hx & Hwd' & Hn); exists k'; split_and!; try done;
      by rewrite Hpm in *.
  - apply Hrc.
  - apply Hrc.
  - by rewrite Hkk.
Qed.

(** A map that begins first among those with a later row has every row between
    its own beginning and that row. *)
Lemma first_map_earlier (r r' : nat) p c p0 x :
  plan_world q w0 -> (r <= r')%nat -> (r' < nranges)%nat ->
  p ∈ NoDBCaches w0 -> w_caches w0 !! p = Some c -> of_rel_type (q_relp q) NODB_POSITIONS_CACHE c = true ->
  NoDBCacheHasRow c (row_at r') = true -> c_startRow c = row_at r -> first_map r' p0 -> has_col w0 p0 x = true ->
  known q w0 NODB_POSITIONS_CACHE p0 (row_at r) x.
Proof.
  intros Hw Hle Hr' Hp Ec Ht Hrow Hs [(Hp0 & Hrow0 & c0 & E0 & Ht0) Hmin] Hh.
  assert (Hst : c_startRow c0 <= row_at r).
  { specialize (Hmin p). unfold start_of in Hmin. rewrite E0, Ec in Hmin. simpl in Hmin. rewrite <- Hs. apply Hmin.
    split_and!; [done| |eauto]. unfold has_row. by rewrite Ec. }
  split; [done|]. exists c0. split_and!; [done..| |done]. unfold has_row in Hrow0. rewrite E0 in Hrow0.
  destruct (pw_caches _ _ Hw p0 Hp0) as (c2 & E2 & Hi%inv_rows_ok). simplify_eq. rewrite HasRow_exact in * by done.
  apply bool_decide_eq_true in Hrow0. apply bool_decide_eq_true_2. split; [done|].
  destruct (decide (r = r')) as [->|]; [lia|]. pose proof (row_at_mono r r'). lia.
Qed.

(** A column whose position is to be written has been placed. *)
Lemma pm_step (r k : nat) candsD candsP w m w' m' :
  plan_world q w0 ->
  miss_inv r k w m -> row_cands r candsD candsP m -> (r < nranges)%nat -> (k < ncols)%nat ->
  pmHit (cell m r k) = UNKNOWN -> wp_at k = true -> plan_world q w' -> extends w w' ->
  placed NODB_POSITIONS_CACHE r k candsP (fun p => set_pm CACHE_ADD (Some p)) w m w' m' ->
  miss_inv r k w' m' /\ row_cands r candsD candsP m' /\ pmHit (cell m' r k) <> UNKNOWN /\
    dataHit (cell m' r k) = dataHit (cell m r k).
Proof.
  intros Hw0 HI Hrc Hr Hk Hu Hwp Hw' He Hpl.
  assert (Hkin : col k ∈ candsP). { apply (rc_pm _ _ _ _ Hrc). exists k. split_and!; [done..|]. by rewrite Hu. }
  destruct (placed_cells _ _ _ _ _ _ _ _ _ Hr Hk Hkin Hw' Hpl) as (Hd' & p & c' & Hp & Ec & Ht & Hcells & Hkk & Hcols).
  assert (Hext : extends w0 w').
  { apply (extends_trans w0 w w'); [eapply plan_world_ok, (mi_world _ _ _ _ HI)|apply (mi_ext _ _ _ _ HI)|done]. }
  assert (Hdat : forall r' k', (r' < nranges)%nat -> (k' < ncols)%nat -> dataHit (cell m' r' k') = dataHit (cell m r' k')).
  { intros r' k' H1 H2. by destruct (Hcells r' k' H1 H2) as [->|[-> _]]. }
  assert (Hwpk : forall k', (k' < ncols)%nat -> col k' ∈ candsP -> wp_at k' = true /\ pmHit (cell m r k') <> CACHE_HIT).
  { intros k' Hk' Hin. apply (cand_index k' candsP (fun k => wp_at k = true /\ pmHit (cell m r k) <> CACHE_HIT)); try done.
    apply Hrc. }
  assert (Hhit : forall k', (k' < ncols)%nat -> pmHit (cell m' r k') = CACHE_HIT <-> pmHit (cell m r k') = CACHE_HIT).
  { intros k' Hk'. destruct (Hcells r k' Hr Hk') as [->|(-> & _ & [[_ Hin]|(_ & ? & _)])]; [done| |lia].
    destruct (Hwpk k' Hk' Hin) as [_ Hn]. cbn. split; [done|]. by intros ?%Hn. }
  split_and!; [split|split| |by apply Hdat].
  - done.
  - done.
  - done.
  - intros r' k' Hr' Hk'. pose proof (miss_cell_mono _ _ _ _ _ He (mi_cell _ _ _ _ HI r' k' Hr' Hk')) as Hc.
    destruct (Hcells r' k' Hr' Hk') as [->|(-> & Hdest & Hwhy)]; [done|]. apply miss_cell_pm; [|done|done].
    destruct Hwhy as [[-> Hin]|(-> & _)]; [by apply Hwpk|done].
  - intros r' k' Hr' Hk' Hv. pose proof (mi_visited _ _ _ _ HI r' k' Hr' Hk' Hv) as Hdone.
    destruct (Hcells r' k' Hr' Hk') as [->|(-> & _ & Hwhy)]; [done|]. split; [by apply Hdone|done].
  - intros p' c1 r' x Hp' Ec' Ht' Hr' Hrow Hh. destruct (Hcols p' x Hh) as [Hh0|(-> & -> & Hall)].
    + destruct (old_cache w w' p' c1 (row_at r') (mi_world _ _ _ _ HI) Hw' He Hp' Ec' Hrow) as (Hin & c0 & E0 & Hi).
      rewrite (same_info_rel_type _ _ _ _ Hi) in Ht'. rewrite (same_info_row _ _ _ Hi) in Hrow.
      destruct (mi_added _ _ _ _ HI p' c0 r' x Hin E0 Ht' Hr' Hrow Hh0) as [?|(k1 & Hk1 & Hx & Ha)]; [by left|right].
      exists k1. split_and!; [done..|]. by destruct (Hcells r' k1 Hr' Hk1) as [->|[-> _]].
    + simplify_eq. right. exists k. split_and!; [done..|]. by rewrite Hall.
  - intros r' k' p0 Hr' Hk' Hf Hh. destruct (Hcells r' k' Hr' Hk') as [->|(-> & _ & Hwhy)]; [by eapply mi_first|].
    intros _. destruct Hwhy as [[-> Hin]|(-> & Hlt & Hrow & Hs)].
    + destruct (Hwpk k' Hk' Hin) as [Hwp' Hnh]. destruct (mi_cell _ _ _ _ HI r k' Hr Hk') as (_ & Hpm & _ & Hcomp).
      pose proof (mi_first _ _ _ _ HI r k' p0 Hr Hk' Hf Hh) as Hna.
      destruct Hf as [Hrow0 _]. specialize (Hcomp Hwp' (ex_intro _ p0 (proj2 (known_with_row _ _ _ _ _) (conj Hrow0 Hh)))).
      destruct (pmHit (cell m r k')); try done. congruence.
    + destruct (old_cache w0 w' p c' (row_at r') Hw0 Hw' Hext Hp Ec Hrow) as (Hin & c0 & E0 & Hi).
      rewrite (same_info_rel_type _ _ _ _ Hi) in Ht. rewrite (same_info_row _ _ _ Hi) in Hrow.
      assert (c_startRow c0 = row_at r) by (destruct Hi as (_ & _ & Hs0 & _); congruence).
      assert (Hkn : known q w0 NODB_POSITIONS_CACHE p0 (row_at r) (col k)).
      { apply (first_map_earlier r r' p c0); try done. lia. }
      destruct (mi_cell _ _ _ _ HI r k Hr Hk) as (_ & _ & _ & Hcomp). apply Hcomp; [done|by exists p0|done].
  - intros x. rewrite (rc_data _ _ _ _ Hrc). split; intros (k' & Hk' & Hx & Hwd' & Hn); exists k'; split_and!; try done;
      by rewrite Hdat in *.
  - intros x. rewrite (rc_pm _ _ _ _ Hrc). split; intros (k' & Hk' & Hx & Hwd' & Hn); exists k'; split_and!; try done;
      by rewrite Hhit in *.
  - apply Hrc.
  - apply Hrc.
  - by rewrite Hkk.
Qed.

(** A column that will not be written is marked as a miss. *)
Lemma miss_one (r k : nat) candsD candsP w m m' f :
  miss_inv r k w m -> row_cands r candsD candsP m -> (r < nranges)%nat -> (k < ncols)%nat ->
  marked cs rs (fun r' k' => r' = r /\ k' = k) (fun _ => f) m m' ->
  miss_cell w r k (f (cell m r k)) ->
  (pmHit (f (cell m r k)) = CACHE_ADD <-> pmHit (cell m r k) = CACHE_ADD) ->
  (wd_at k = true -> dataHit (f (cell m r k)) = dataHit (cell m r k)) ->
  (wp_at k = true -> pmHit (f (cell m r k)) = pmHit (cell m r k)) ->
  miss_inv r k w m' /\ row_cands r candsD candsP m' /\ cell m' r k = f (cell m r k).
Proof.
  intros HI Hrc Hr Hk [Hd Hm] Hc Hadd Hwd Hwp.
  assert (Hkk : cell m' r k = f (cell m r k)) by by apply Hm.
  assert (Ho : forall r' k', ~ (r' = r /\ k' = k) -> cell m' r' k' = cell m r' k') by (intros; by apply Hm).
  assert (Ha : forall r' k', pmHit (cell m' r' k') = CACHE_ADD <-> pmHit (cell m r' k') = CACHE_ADD).
  { intros r' k'. destruct (decide (r' = r /\ k' = k)) as [[-> ->]|Hn]; [by rewrite Hkk|by rewrite Ho]. }
  split_and!; [split|split|done]; try apply HI; try apply Hrc.
  - done.
  - intros r' k' Hr' Hk'. destruct (decide (r' = r /\ k' = k)) as [[-> ->]|Hn]; [by rewrite Hkk|]. rewrite Ho by done.
    by apply HI.
  - intros r' k' Hr' Hk' Hv. rewrite Ho; [by apply (mi_visited _ _ _ _ HI)|]. intros [-> ->]. destruct Hv as [?|[? ?]]; lia.
  - intros p c r' x Hp Ec Ht Hr' Hrow Hh. destruct (mi_added _ _ _ _ HI p c r' x Hp Ec Ht Hr' Hrow Hh)
      as [?|(k' & ? & ? & ?)]; [by left|right]. exists k'. by rewrite Ha.
  - intros r' k' p Hr' Hk' Hf Hh. rewrite Ha. by eapply mi_first.
  - intros x. rewrite (rc_data _ _ _ _ Hrc). split; intros (k' & Hk' & Hx & Hw & Hn); exists k'; split_and!; try done;
      (destruct (decide (k' = k)) as [->|Hne]; [rewrite Hkk, Hwd in *|rewrite Ho in * by tauto]; done).
  - intros x. rewrite (rc_pm _ _ _ _ Hrc). split; intros (k' & Hk' & Hx & Hw & Hn); exists k'; split_and!; try done;
      (destruct (decide (k' = k)) as [->|Hne]; [rewrite Hkk, Hwp in *|rewrite Ho in * by tauto]; done).
Qed.

Context (Hw0 : plan_world q w0) (Hend0 : rows_end w0).

Lemma miss_inv_end r k w m : miss_inv r k w m -> rows_end w.
Proof. intros HI. apply (rows_end_extends w0); [done|apply HI|apply HI|done]. Qed.

Lemma cands_sub r candsD candsP m : row_cands r candsD candsP m ->
  (forall x, x ∈ candsD -> x ∈ cs) /\ (forall x, x ∈ candsP -> x ∈ cs).
Proof.
  intros Hrc. split; intros x Hx; [apply (rc_data _ _ _ _ Hrc) in Hx|apply (rc_pm _ _ _ _ Hrc) in Hx];
    destruct Hx as (k & Hk & -> & _); by apply col_in.
Qed.

Lemma miss_data_spec (r k : nat) candsD candsP w m :
  miss_inv r k w m -> row_cands r candsD candsP m -> (r < nranges)%nat -> (k < ncols)%nat ->
  exists w' m', miss_data q (row_at r) (Z.of_nat r) (Z.of_nat k) candsD (w, m) = Ok (w', m') /\
    miss_inv r k w' m' /\ row_cands r candsD candsP m' /\ dataHit (cell m' r k) <> UNKNOWN.
Proof.
  intros HI Hrc Hr Hk. unfold miss_data.
  destruct (mat_get_cell cs rs m r k (mi_dims _ _ _ _ HI)) as [-> _]; [lia|done|]. cbn [mbind result_bind].
  destruct (decide (dataHit (cell m r k) = UNKNOWN)) as [Hu|Hu]; [|by exists w, m].
  rewrite (get_col q cs) by (done || apply Hq). cbn [mbind result_bind].
  rewrite write_data_bit by done. cbn [mbind result_bind]. destruct (wd_at k) eqn:Ewd.
  - destruct (qo_size _ _ _ _ _ Hq (col k) (col_in k Hk)) as (size & Esz & Hsz).
    destruct (place_spec w NODB_DATA_CACHE (NoDBRelationGetColumnSize (q_rel q) (col k)) size NODB_DATA_CACHE_DEFAULT_SIZE
      r k candsD (fun p => set_data CACHE_ADD (Some p)) m) as (w' & m' & -> & Hw' & He & Hpl); try done.
    + apply HI.
    + by eapply miss_inv_end.
    + apply HI.
    + apply Hrc.
    + apply (proj1 (cands_sub _ _ _ _ Hrc)).
    + apply (rc_data _ _ _ _ Hrc). exists k. split_and!; [done..|]. by rewrite Hu.
    + exists w', m'. split; [done|]. by apply (data_step r k candsD candsP w m w' m').
  - destruct (marked_one cs rs m r k (fun _ => set_data CACHE_MISS None) (mi_dims _ _ _ _ HI)) as (m' & -> & Hm); [lia|done|].
    cbn [mbind result_bind]. exists w, m'. split; [done|].
    destruct (miss_one r k candsD candsP w m m' (set_data CACHE_MISS None)) as (? & ? & Hkk); try done.
    + destruct (mi_cell _ _ _ _ HI r k Hr Hk) as (H1 & H2 & H3 & H4). by split_and!.
    + congruence.
    + split_and!; [done..|]. by rewrite Hkk.
Qed.

Lemma miss_pm_spec (r k : nat) candsD candsP w m :
  miss_inv r k w m -> row_cands r candsD candsP m -> (r < nranges)%nat -> (k < ncols)%nat ->
  dataHit (cell m r k) <> UNKNOWN ->
  exists w' m', miss_pm q (row_at r) (Z.of_nat r) (Z.of_nat k) candsP (w, m) = Ok (w', m') /\
    miss_inv r k w' m' /\ row_cands r candsD candsP m' /\ miss_done k (cell m' r k).
Proof.
  intros HI Hrc Hr Hk Hdat. unfold miss_pm.
  destruct (mat_get_cell cs rs m r k (mi_dims _ _ _ _ HI)) as [-> _]; [lia|done|]. cbn [mbind result_bind].
  rewrite wants_pm_spec by done. cbn [mbind result_bind]. case_bool_decide as Hu.
  - destruct Hu as [Hu Hor]. rewrite (get_col q cs) by (done || apply Hq). cbn [mbind result_bind].
    rewrite write_pos_bit by done. cbn [mbind result_bind]. destruct (wp_at k) eqn:Ewp.
    + destruct (place_spec w NODB_POSITIONS_CACHE (Ok sizeof_NoDBPMPair_t) sizeof_NoDBPMPair_t NODB_POS_CACHE_DEFAULT_SIZE
        r k candsP (fun p => set_pm CACHE_ADD (Some p)) m) as (w' & m' & -> & Hw' & He & Hpl); try done.
      * apply HI.
      * by eapply miss_inv_end.
      * apply HI.
      * apply Hrc.
      * apply (proj2 (cands_sub _ _ _ _ Hrc)).
      * apply (rc_pm _ _ _ _ Hrc). exists k. split_and!; [done..|]. by rewrite Hu.
      * exists w', m'. split; [done|].
        destruct (pm_step r k candsD candsP w m w' m') as (? & ? & ? & Hsame); try done.
        split_and!; [done..|]. split; [by rewrite Hsame|]. by intros ?.
    + destruct (marked_one cs rs m r k (fun _ => set_pm CACHE_MISS None) (mi_dims _ _ _ _ HI)) as (m' & -> & Hm); [lia|done|].
      cbn [mbind result_bind]. exists w, m'. split; [done|].
      destruct (miss_one r k candsD candsP w m m' (set_pm CACHE_MISS None)) as (? & ? & Hkk); try done.
      * destruct (mi_cell _ _ _ _ HI r k Hr Hk) as (H1 & H2 & H3 & H4). by split_and!.
      * by rewrite Hu.
      * congruence.
      * split_and!; [done..|]. rewrite Hkk. split; [done|]. by intros ?.
  - exists w, m. split_and!; [done..|]. split; [done|]. intros Hpu.
    destruct (decide (dataHit (cell m r k) = CACHE_HIT)), (wp_at k); tauto.
Qed.

Lemma grow_candidates_spec (r : nat) m : mat_dims cs rs m -> (r < nranges)%nat ->
  exists candsD candsP, grow_candidates q (Z.of_nat r) m = Ok (candsD, candsP) /\ row_cands r candsD candsP m.
Proof.
  intros Hd Hr. unfold grow_candidates. rewrite (qo_cols _ _ _ _ _ Hq). unfold NoDBColVectorSize at 1.
  cbn [cv_size col_vector]. rewrite <- (qo_cols _ _ _ _ _ Hq).
  match goal with |- context [for_range 0 _ ?b _] => set (body := b) end.
  pose (I := fun (k0 : nat) (s : list Z * list Z) =>
    (forall x, x ∈ s.1 <-> exists k, (k < k0)%nat /\ x = col k /\ wd_at k = true /\ dataHit (cell m r k) <> CACHE_HIT) /\
    (forall x, x ∈ s.2 <-> exists k, (k < k0)%nat /\ x = col k /\ wp_at k = true /\ pmHit (cell m r k) <> CACHE_HIT) /\
    NoDup s.1 /\ NoDup s.2).
  assert (Hstep : forall (P : nat -> Prop) (b : bool) k l, (k < ncols)%nat -> (b = true <-> P k) ->
    (forall x, x ∈ l <-> exists k', (k' < k)%nat /\ x = col k' /\ P k') -> NoDup l ->
    (forall x, x ∈ (if b then col k :: l else l) <-> exists k', (k' < S k)%nat /\ x = col k' /\ P k') /\
    NoDup (if b then col k :: l else l)).
  { intros P b k l Hk Hb Hl Hnd. split.
    - intros x. assert (Hx : x ∈ (if b then col k :: l else l) <-> x ∈ l \/ (x = col k /\ P k)).
      { destruct b; [rewrite elem_of_cons|]; intuition congruence. }
      rewrite Hx, Hl. split.
      + intros [(k' & ? & ? & ?)|[-> ?]]; [exists k'|exists k]; split_and!; done || lia.
      + intros (k' & Hk' & -> & HP). destruct (decide (k' = k)) as [->|]; [by right|left]. exists k'. split_and!; done || lia.
    - destruct b; [|done]. apply NoDup_cons. split; [|done]. intros (k' & Hk' & He & _)%Hl.
      apply (col_at_inj cs (qo_sorted _ _ _ _ _ Hq)) in He; lia. }
  destruct (for_nat_inv I ncols body ([], [])) as ([d p] & -> & H1 & H2 & H3 & H4).
  - split_and!; try constructor; cbn.
    1,3: intros H; by apply elem_of_nil in H. all: intros (k & ? & _); lia.
  - intros k [d p] Hk (H1 & H2 & H3 & H4). unfold body.
    destruct (mat_get_cell cs rs m r k Hd) as [-> _]; [lia|done|]. cbn [mbind result_bind].
    rewrite write_data_bit, write_pos_bit, (get_col q cs) by (done || apply Hq). cbn [mbind result_bind].
    exists (if wd_at k && negb (bool_decide (dataHit (cell m r k) = CACHE_HIT)) then col k :: d else d,
            if wp_at k && negb (bool_decide (pmHit (cell m r k) = CACHE_HIT)) then col k :: p else p).
    split; [by repeat case_match|].
    destruct (Hstep (fun k => wd_at k = true /\ dataHit (cell m r k) <> CACHE_HIT)
      (wd_at k && negb (bool_decide (dataHit (cell m r k) = CACHE_HIT))) k d Hk) as [D1 D2]; [|done|done|].
    { rewrite andb_true_iff, negb_true_iff, bool_decide_eq_false. tauto. }
    destruct (Hstep (fun k => wp_at k = true /\ pmHit (cell m r k) <> CACHE_HIT)
      (wp_at k && negb (bool_decide (pmHit (cell m r k) = CACHE_HIT))) k p Hk) as [P1 P2]; [|done|done|].
    { rewrite andb_true_iff, negb_true_iff, bool_decide_eq_false. tauto. }
    by split_and!.
  - exists d, p. split; [done|]. by split.
Qed.

Lemma mark_misses_spec (r : nat) w m :
  miss_inv r 0 w m -> (r < nranges)%nat ->
  exists w' m', mark_misses q (Z.of_nat r) (w, m) = Ok (w', m') /\ miss_inv (S r) 0 w' m'.
Proof.
  intros HI Hr. unfold mark_misses. rewrite get_row by lia. cbn [mbind result_bind snd].
  destruct (grow_candidates_spec r m) as (candsD & candsP & -> & Hrc); [apply HI|done|]. cbn [mbind result_bind fst snd].
  rewrite (qo_cols _ _ _ _ _ Hq). unfold NoDBColVectorSize. cbn [cv_size col_vector].
  destruct (for_nat_inv (fun k wm => miss_inv r k wm.1 wm.2 /\ row_cands r candsD candsP wm.2) ncols (fun colIdx wm =>
    wm1 ← miss_data q (row_at r) (Z.of_nat r) colIdx candsD wm; miss_pm q (row_at r) (Z.of_nat r) colIdx candsP wm1) (w, m))
    as ([w' m'] & -> & HI' & _).
  - done.
  - intros k [w1 m1] Hk [HI1 Hrc1]. cbn [fst snd] in *.
    destruct (miss_data_spec r k candsD candsP w1 m1) as (w2 & m2 & -> & HI2 & Hrc2 & Hdat); [done..|].
    cbn [mbind result_bind].
    destruct (miss_pm_spec r k candsD candsP w2 m2) as (w3 & m3 & -> & HI3 & Hrc3 & Hdone); [done..|].
    exists (w3, m3). cbn [fst snd]. split_and!; [done| |done]. split; try apply HI3.
    intros r' k' Hr' Hk' [Hlt|[-> Hlt]]; [apply HI3; [done..|by left]|].
    destruct (decide (k' = k)) as [->|]; [done|]. apply HI3; [done..|]. right. split; [done|lia].
  - cbn [fst snd] in HI'. exists w', m'. split; [done|]. split; try apply HI'.
    intros r' k' Hr' Hk' [Hlt|[-> Hlt]]; [|lia]. apply HI'; [done..|].
    destruct (decide (r' = r)) as [->|]; [right; by split|left; lia].
Qed.

Lemma hits_to_misses m : hits_inv w0 nranges 0 m -> miss_inv 0 0 w0 m.
Proof.
  intros [Hd Hc]. split; [done|apply extends_refl|done| | | |].
  - intros r k Hr Hk. destruct (Hc r k Hr Hk) as [[H1 H2] Hv]. destruct Hv as [_ Hpm]; [by left|].
    split_and!.
    + by destruct (dataHit (cell m r k)).
    + destruct (pmHit (cell m r k)); try done. destruct H2 as [[Hp _] _]. intros E. rewrite E in Hp.
      by destruct (pw_null _ _ Hw0).
    + destruct (pmHit (cell m r k)); try done; [by left|by right].
    + intros Hwp [p Hp] Hu. destruct (Hpm Hu) as [[_ ?]|Hno]; [congruence|by apply (Hno p)].
  - intros r k _ _ [?|[? ?]]; lia.
  - intros p c r x _ _ _ _ _ Hh. by left.
  - intros r k p Hr Hk _ _. destruct (Hc r k Hr Hk) as [[_ H2] _]. by destruct (pmHit (cell m r k)).
Qed.

End misses.

(** ** Closest positions *)

(** The best of the candidates [cand] for a column. *)
Definition best_ok (cand : Z -> Z -> Prop) (x : Z) (best : option (Z * Z * Z)) : Prop :=
  match best with
  | None => forall p cc, ~ cand p cc
  | Some (p, cc, d) => cand p cc /\ d = x - cc /\ forall p' cc', cand p' cc' -> Z.abs d <= Z.abs (x - cc')
  end.

Lemma best_ok_iff (cand cand' : Z -> Z -> Prop) x best :
  (forall p cc, cand p cc <-> cand' p cc) -> best_ok cand x best -> best_ok cand' x best.
Proof.
  intros H. destruct best as [[[p cc] d]|]; cbn.
  - intros (? & ? & Hmin). split_and!; [by apply H|done|]. intros p' cc' ?%H. by eapply Hmin.
  - intros Hno p cc ?%H. by eapply Hno.
Qed.

Lemma closest_step_ok cand x excl p ccol best :
  best_ok cand x best ->
  best_ok (fun p' cc => cand p' cc \/ p' = p /\ cc = ccol /\ ccol ∉ excl) x (closest_step x excl p ccol best).
Proof.
  intros Hb. unfold closest_step. case_bool_decide as Hin.
  - eapply best_ok_iff; [|done]. intros p' cc. cbn beta. tauto.
  - destruct best as [[[p0 cc0] d0]|]; cbn in Hb.
    + destruct Hb as (Hc & -> & Hmin). destruct (Z.ltb_spec (Z.abs (x - ccol)) (Z.abs (x - cc0))); cbn.
      * split_and!; [by right|done|]. intros p' cc' [Hc'|(-> & -> & _)]; [|lia]. specialize (Hmin _ _ Hc'). lia.
      * split_and!; [by left|done|]. intros p' cc' [Hc'|(-> & -> & _)]; [by eapply Hmin|lia].
    + cbn. split_and!; [by right|done|]. intros p' cc' [Hc'|(-> & -> & _)]; [by destruct (Hb p' cc')|lia].
Qed.

Lemma closest_fold_ok x excl p l : forall cand best,
  best_ok cand x best ->
  best_ok (fun p' cc => cand p' cc \/ p' = p /\ cc ∈ l /\ cc ∉ excl) x
    (foldl (fun b ccol => closest_step x excl p ccol b) best l).
Proof.
  induction l as [|ccol l IH]; intros cand best Hb; cbn [foldl].
  - eapply best_ok_iff; [|done]. intros p' cc. cbn beta. rewrite elem_of_nil. tauto.
  - eapply best_ok_iff; [|apply IH, closest_step_ok, Hb]. intros p' cc. cbn beta. rewrite elem_of_cons. naive_solver.
Qed.

Lemma for_range_foldl {B} (f : Z -> B -> B) (l : list Z) tl b :
  for_range 0 (Z.of_nat (length l)) (fun i b => x ← arr_get ((Some <$> l) ++ tl) i; Ok (f x b)) b =
  Ok (foldl (fun b x => f x b) b l).
Proof.
  destruct (for_nat_inv (fun k b' => b' = foldl (fun b x => f x b) b (take k l)) (length l)
    (fun i b => x ← arr_get ((Some <$> l) ++ tl) i; Ok (f x b)) b) as (b' & -> & ->).
  - done.
  - intros k b1 Hk ->. destruct (lookup_lt_is_Some_2 l k Hk) as [x Hx].
    assert (arr_get ((Some <$> l) ++ tl) (Z.of_nat k) = Ok x) as ->.
    { apply arr_get_lookup. split; [lia|]. rewrite Nat2Z.id, lookup_app_l by (rewrite length_fmap; lia).
      by rewrite list_lookup_fmap, Hx. }
    cbn [mbind result_bind]. eexists. split; [done|]. by rewrite (take_S_r _ _ _ Hx), foldl_app.
  - by rewrite firstn_all.
Qed.

Definition closest_cand w (row : Z) (excl : list Z) (p cc : Z) : Prop :=
  with_row w NODB_POSITIONS_CACHE row p /\ has_col w p cc = true /\ cc ∉ excl.

Lemma closest_cache_spec w row x excl l : forall cand best,
  plan_world q w -> (forall p, p ∈ l -> p ∈ NoDBCaches w) -> best_ok cand x best ->
  exists best', closest_cache w q row x excl l best = Ok best' /\
    best_ok (fun p cc => cand p cc \/ p ∈ l /\ closest_cand w row excl p cc) x best'.
Proof.
  induction l as [|p l IH]; intros cand best Hw Hl Hb; cbn [closest_cache].
  - exists best. split; [done|]. eapply best_ok_iff; [|done]. intros p' cc. cbn beta. rewrite elem_of_nil. tauto.
  - destruct (pw_caches _ _ Hw p) as (c & Ec & (lay & Hwf & _)); [apply Hl; by left|].
    unfold get_cache. rewrite Ec. cbn [mbind result_bind].
    destruct (wf_cols _ _ Hwf) as (ccs & tl & Ecols & Hperm & Hused & _).
    assert (Hhas : forall cc, has_col w p cc = true <-> cc ∈ ccs).
    { intros cc. rewrite Hperm. destruct (decide (0 <= cc)) as [H0|H0].
      - rewrite (has_col_layout w p c lay) by done. apply bool_decide_eq_true.
      - split; intros Hh; exfalso.
        + apply (has_col_HasColumn w p c) in Hh; [|done]. eapply HasColumn_neg; [apply Hwf| |done]. lia.
        + apply (wf_map_cols _ _ Hwf) in Hh. lia. }
    destruct (of_rel_type (q_relp q) NODB_POSITIONS_CACHE c && NoDBCacheHasRow c row) eqn:E.
    + apply andb_true_iff in E as [Et Er]. rewrite Ecols, Hused.
      rewrite (for_range_foldl (fun ccol b => closest_step x excl p ccol b)). cbn [mbind result_bind].
      destruct (IH _ _ Hw (fun p' Hp' => Hl p' (list_elem_of_further _ _ _ Hp')) (closest_fold_ok x excl p ccs cand best Hb))
        as (best' & -> & Hb'). exists best'. split; [done|]. eapply best_ok_iff; [|done]. intros p' cc. cbn beta.
      rewrite elem_of_cons.
      assert (Hp : closest_cand w row excl p cc <-> cc ∈ ccs /\ cc ∉ excl).
      { unfold closest_cand. rewrite Hhas. split; [tauto|]. intros [? ?]. split_and!; [|done..].
        split_and!; [apply Hl; by left| |eauto]. unfold has_row. by rewrite Ec. }
      split; [intros [[?|(-> & ?)]|?]; tauto|]. intros [?|[[->|?] ?]]; tauto.
    + cbn [mbind result_bind].
      destruct (IH _ _ Hw (fun p' Hp' => Hl p' (list_elem_of_further _ _ _ Hp')) Hb) as (best' & -> & Hb').
      exists best'. split; [done|]. eapply best_ok_iff; [|done]. intros p' cc. cbn beta. rewrite elem_of_cons.
      split; [tauto|]. intros [?|[[->|?] Hcc]]; [tauto| |tauto]. exfalso.
      destruct Hcc as [(_ & Hr & c2 & E2 & Ht2) _]. simplify_eq. unfold has_row in Hr. rewrite Ec in Hr.
      by rewrite Ht2, Hr in E.
Qed.

Lemma list_min (f : Z -> Z) (l : list Z) : l <> [] -> exists x, x ∈ l /\ forall y, y ∈ l -> f x <= f y.
Proof.
  induction l as [|a l IH]; [done|]. intros _. destruct l as [|b l].
  - exists a. split; [by left|]. intros y ->%list_elem_of_singleton. done.
  - destruct IH as (x & Hx & Hmin); [done|]. destruct (Z.le_gt_cases (f a) (f x)).
    + exists a. split; [by left|]. intros y [->|Hy]%elem_of_cons; [done|]. specialize (Hmin y Hy). lia.
    + exists x. split; [by right|]. intros y [->|Hy]%elem_of_cons; [lia|by apply Hmin].
Qed.

Lemma first_map_exists w0 r p : plan_world q w0 -> with_row w0 NODB_POSITIONS_CACHE (row_at r) p ->
  exists p0 x, first_map w0 r p0 /\ has_col w0 p0 x = true.
Proof.
  intros Hw Hp. destruct (GetCachesWithRow_spec w0 (q_relp q) NODB_POSITIONS_CACHE (row_at r)) as (l & _ & Hl);
    [by eapply plan_world_ok|].
  destruct (list_min (start_of w0) l) as (p0 & Hp0 & Hmin). { intros ->. by apply Hl, elem_of_nil in Hp. }
  apply Hl in Hp0 as (Hin & Hrow & c & Ec & Ht). destruct (pw_caches _ _ Hw p0 Hin) as (c' & Ec' & Hinv). simplify_eq.
  pose proof (inv_rows_ok _ Hinv) as Hok. destruct Hinv as (lay & Hwf & _ & _ & _ & _ & Hne).
  unfold has_row in Hrow. rewrite Ec in Hrow. destruct Hne as [x Hx].
  { rewrite HasRow_exact in Hrow by done. apply bool_decide_eq_true in Hrow. lia. }
  exists p0, x. split; [split|].
  - split_and!; [done| |eauto]. unfold has_row. by rewrite Ec.
  - intros p' Hp'. by apply Hmin, Hl.
  - pose proof (wf_map_cols _ _ Hwf x Hx). rewrite (has_col_layout w0 p0 c lay) by (done || lia).
    by apply bool_decide_eq_true_2.
Qed.

Section closest.
Context (w0 w : world) (m2 : matrix).
Context (Hw0 : plan_world q w0) (HI : miss_inv w0 nranges 0 w m2).

(** A position that an earlier scan recorded, and this one will not change. *)
Definition pm_cand (r : nat) (p cc : Z) : Prop :=
  known q w0 NODB_POSITIONS_CACHE p (row_at r) cc /\
  forall k, (k < ncols)%nat -> cc = col k -> pmHit (cell m2 r k) <> CACHE_ADD.

Definition closest_cell (r k : nat) nd : Prop :=
  (closestPMCache nd = 0 /\ forall p cc, ~ pm_cand r p cc) \/
  (closestPMCache nd <> 0 /\ exists cc, pm_cand r (closestPMCache nd) cc /\ closestColumn nd = Some cc /\
     distance nd = Some (col k - cc) /\ forall p cc', pm_cand r p cc' -> Z.abs (col k - cc) <= Z.abs (col k - cc')).

Definition same_plan nd nd' : Prop :=
  dataHit nd' = dataHit nd /\ dataCache nd' = dataCache nd /\ pmHit nd' = pmHit nd /\ pmCache nd' = pmCache nd.

Lemma pm_cand_exists r k : (r < nranges)%nat -> (k < ncols)%nat -> closestPMCache (cell m2 r k) <> 0 ->
  exists p cc, pm_cand r p cc.
Proof.
  intros Hr Hk Hne. destruct (mi_cell _ _ _ _ _ HI r k Hr Hk) as (_ & _ & [?|(Hkn & _)] & _); [done|].
  apply known_with_row in Hkn as [Hrow _].
  destruct (first_map_exists w0 r _ Hw0 Hrow) as (p0 & x & Hf & Hh). exists p0, x. split.
  - apply known_with_row. split; [apply Hf|done].
  - intros k' Hk' ->. by apply (mi_first _ _ _ _ _ HI r k' p0).
Qed.

Lemma exclude_cols_spec (r : nat) m : mat_dims cs rs m -> (r < nranges)%nat ->
  exists excl, exclude_cols q (Z.of_nat r) m = Ok excl /\
    forall x, x ∈ excl <-> exists k, (k < ncols)%nat /\ x = col k /\ pmHit (cell m r k) = CACHE_ADD.
Proof.
  intros Hd Hr. unfold exclude_cols. rewrite (qo_cols _ _ _ _ _ Hq). unfold NoDBColVectorSize at 1.
  cbn [cv_size col_vector]. rewrite <- (qo_cols _ _ _ _ _ Hq).
  match goal with |- context [for_range 0 _ ?b _] => set (body := b) end.
  destruct (for_nat_inv (fun (k0 : nat) (l : list Z) => forall x, x ∈ l <->
    exists k, (k < k0)%nat /\ x = col k /\ pmHit (cell m r k) = CACHE_ADD) ncols body []) as (excl & -> & He); [| |eauto].
  - intros x. rewrite elem_of_nil. split; [done|]. intros (k & ? & _). lia.
  - intros k l Hk Hl. unfold body. destruct (mat_get_cell cs rs m r k Hd) as [-> _]; [lia|done|]. cbn [mbind result_bind].
    rewrite (get_col q cs) by (done || apply Hq). cbn [mbind result_bind].
    destruct (decide (pmHit (cell m r k) = CACHE_ADD)) as [Ha|Ha]; eexists; (split; [done|]); intros x.
    + rewrite elem_of_cons, Hl. split.
      * intros [->|(k' & ? & ? & ?)]; [exists k|exists k']; split_and!; done || lia.
      * intros (k' & Hk' & -> & ?). destruct (decide (k' = k)) as [->|]; [by left|right]. exists k'. split_and!; done || lia.
    + rewrite Hl. split; intros (k' & Hk' & -> & ?); exists k'; split_and!; try done; [lia|].
      destruct (decide (k' = k)) as [->|]; [done|lia].
Qed.

Lemma closest_cand_iff r excl p cc : (r < nranges)%nat ->
  (forall x, x ∈ excl <-> exists k, (k < ncols)%nat /\ x = col k /\ pmHit (cell m2 r k) = CACHE_ADD) ->
  p ∈ NoDBCaches w /\ closest_cand w (row_at r) excl p cc <-> pm_cand r p cc.
Proof.
  intros Hr He. pose proof (mi_ext _ _ _ _ _ HI) as Hext. split.
  - intros (Hp & (_ & Hrow & c & Ec & Ht) & Hh & Hn). unfold has_row in Hrow. rewrite Ec in Hrow.
    assert (Hna : forall k, (k < ncols)%nat -> cc = col k -> pmHit (cell m2 r k) <> CACHE_ADD).
    { intros k Hk -> Ha. apply Hn, He. eauto. }
    split; [|done].
    destruct (old_cache w0 w p c (row_at r) Hw0 (mi_world _ _ _ _ _ HI) Hext Hp Ec Hrow) as (Hin & c0 & E0 & Hi).
    destruct (mi_added _ _ _ _ _ HI p c r cc Hp Ec Ht Hr Hrow Hh) as [Hh0|(k & Hk & Hc & Ha)]; [|by destruct (Hna k Hk Hc)].
    split; [done|]. exists c0.
    rewrite <- (same_info_rel_type _ _ _ _ Hi), <- (same_info_row _ _ _ Hi). by split_and!.
  - intros [Hkn Hna]. apply (known_mono q w0 w _ _ _ _ Hext), known_with_row in Hkn as [Hrow Hh].
    split; [apply Hrow|]. split_and!; [done|done|]. intros (k & Hk & -> & Ha)%He. by apply (Hna k).
Qed.

Lemma find_closest_spec (r : nat) m :
  mat_dims cs rs m -> (r < nranges)%nat -> (forall k, cell m r k = cell m2 r k) ->
  exists m', find_closest w q (Z.of_nat r) m = Ok m' /\ mat_dims cs rs m' /\
    (forall r' k, r' <> r -> cell m' r' k = cell m r' k) /\
    forall k, (k < ncols)%nat -> same_plan (cell m2 r k) (cell m' r k) /\ closest_cell r k (cell m' r k).
Proof.
  intros Hd Hr Heq. unfold find_closest. rewrite get_row by lia. cbn [mbind result_bind].
  destruct (exclude_cols_spec r m Hd Hr) as (excl & -> & He). cbn [mbind result_bind].
  setoid_rewrite Heq in He.
  rewrite (qo_cols _ _ _ _ _ Hq). unfold NoDBColVectorSize at 1. cbn [cv_size col_vector]. rewrite <- (qo_cols _ _ _ _ _ Hq).
  match goal with |- context [for_range 0 _ ?b _] => set (body := b) end.
  destruct (for_nat_inv (fun (k0 : nat) m' => mat_dims cs rs m' /\
    (forall r' k, r' <> r \/ (k0 <= k)%nat -> cell m' r' k = cell m r' k) /\
    forall k, (k < ncols)%nat -> (k < k0)%nat -> same_plan (cell m2 r k) (cell m' r k) /\ closest_cell r k (cell m' r k))
    ncols body m) as (m' & -> & Hd' & Ho & Hc).
  - split_and!; [done|done|]. intros. lia.
  - intros k m1 Hk (Hd1 & Ho1 & Hc1). unfold body. rewrite (get_col q cs) by (done || apply Hq). cbn [mbind result_bind].
    destruct (mat_get_cell cs rs m1 r k Hd1) as [-> _]; [lia|done|]. cbn [mbind result_bind].
    rewrite (Ho1 r k) by (right; lia). rewrite Heq.
    pose proof (mi_cell _ _ _ _ _ HI r k Hr Hk) as (_ & Hpm & Hcl & _).
    destruct (decide (pmHit (cell m2 r k) = CACHE_HIT)) as [Hh|Hh].
    + exists m1. split_and!; [done|done|intros; apply Ho1; naive_solver lia|]. intros k' Hk' Hlt.
      destruct (decide (k' = k)) as [->|]; [|apply Hc1; [done|lia]]. rewrite (Ho1 r k) by (right; lia). rewrite Heq.
      split; [by split_and!|]. right. rewrite Hh in Hpm. split; [done|]. destruct Hcl as [?|(Hkn & Hcc & Hdist)]; [done|].
      exists (col k). split_and!; [|done|by rewrite Z.sub_diag|intros; lia]. split; [done|].
      intros k' Hk'' E. apply (col_at_inj cs (qo_sorted _ _ _ _ _ Hq)) in E; [|done..]. subst. by rewrite Hh.
    + destruct (closest_cache_spec w (row_at r) (col k) excl (NoDBCaches w) (fun _ _ => False) None)
        as (best & -> & Hb); [apply HI|done|cbn; tauto|]. cbn [mbind result_bind].
      eapply best_ok_iff in Hb; [|intros p cc; transitivity (p ∈ NoDBCaches w /\ closest_cand w (row_at r) excl p cc);
        [tauto|by apply closest_cand_iff]].
      destruct best as [[[p cc] d]|]; cbn in Hb.
      * destruct Hb as (Hcand & -> & Hmin).
        destruct (mat_upd_cell cs rs m1 r k (set_closest p cc (col k - cc)) Hd1) as (m3 & -> & Hd3 & Hk3 & Ho3); [lia|done|].
        exists m3. split_and!; [done|done| |].
        -- intros r' k' Hor. rewrite Ho3 by (destruct Hor; [by left|right; lia]). apply Ho1. destruct Hor; [by left|right; lia].
        -- intros k' Hk' Hlt. destruct (decide (k' = k)) as [->|Hne]; [|rewrite Ho3 by (by right); apply Hc1; [done|lia]].
           rewrite Hk3, (Ho1 r k) by (right; lia). rewrite Heq. split; [by split_and!|]. right. cbn. split; [|eauto].
           intros ->. destruct Hcand as [(Hp & _) _]. by destruct (pw_null _ _ Hw0).
      * exists m1. split_and!; [done|done|intros; apply Ho1; naive_solver lia|]. intros k' Hk' Hlt.
        destruct (decide (k' = k)) as [->|]; [|apply Hc1; [done|lia]]. rewrite (Ho1 r k) by (right; lia). rewrite Heq.
        split; [by split_and!|]. left. split; [|done]. destruct (decide (closestPMCache (cell m2 r k) = 0)) as [|Hne]; [done|].
        destruct (pm_cand_exists r k Hr Hk Hne) as (p & cc & Hx). by destruct (Hb p cc).
  - exists m'. split_and!; [done|done|intros; apply Ho; by left|]. intros k Hk. by apply Hc.
Qed.

End closest.

(** ** Room for the rows to write *)
Definition room w (p row : Z) : Prop :=
  exists c n b, w_caches w !! p = Some c /\ c_nRows c = Some n /\ c_buf c = Some b /\ row - c_startRow c < n /\
    Z.of_nat (length b) = u64 (n * c_rowSize c).

(** Growing changes the buffers of caches and nothing else. *)
Record grown w w' : Prop := {
  gr_world : plan_world q w';
  gr_ext : extends w w';
  gr_list : NoDBCaches w' = NoDBCaches w;
  gr_cols : forall p x, has_col w' p x = has_col w p x;
  gr_room : forall p row, room w p row -> room w' p row }.

Lemma grown_refl w : plan_world q w -> grown w w.
Proof. intros Hw. by split; try done; apply extends_refl. Qed.

Lemma grown_trans w1 w2 w3 : grown w1 w2 -> grown w2 w3 -> grown w1 w3.
Proof.
  intros H1 H2. split.
  - apply H2.
  - eapply extends_trans; [eapply plan_world_ok, (gr_world _ _ H1)|apply (gr_ext _ _ H1)|apply (gr_ext _ _ H2)].
  - by rewrite (gr_list _ _ H2), (gr_list _ _ H1).
  - intros p x. by rewrite (gr_cols _ _ H2), (gr_cols _ _ H1).
  - intros p row Hr. by apply (gr_room _ _ H2), (gr_room _ _ H1).
Qed.

Lemma NoDBCacheGrow_room c row : buf_sized c -> 0 <= c_startRow c <= row -> row < 2 ^ 64 - 1 ->
  exists c' n b, NoDBCacheGrow c row = Ok c' /\ c_nRows c' = Some n /\ c_buf c' = Some b /\ row - c_startRow c' < n /\
    forall n0 b0, c_nRows c = Some n0 -> c_buf c = Some b0 -> n0 <= n.
Proof.
  intros Hb Hs Hr. unfold NoDBCacheGrow, NoDBCacheSetMaxRows, NoDBCacheGetMaxRows, u64. rewrite (wrap_small 64 (row - _ + 1)) by lia.
  destruct (c_buf c) as [b|] eqn:Eb.
  - destruct (Hb b Eb) as (n & En & _). rewrite En. cbn [mbind result_bind]. destruct (Z.leb_spec (row - c_startRow c + 1) n).
    + exists c, n, b. split_and!; [done|done|done|lia|]. intros. simplify_eq. lia.
    + eexists _, _, _. split_and!; [done|done|done|cbn; lia|]. intros. simplify_eq. lia.
  - eexists _, _, _. split_and!; [done|done|done|cbn; lia|]. done.
Qed.

Lemma grow_opt_spec w hit cache lastRow :
  plan_world q w -> lastRow < 2 ^ 64 - 1 ->
  (hit = CACHE_ADD -> exists p c, cache = Some p /\ p ∈ NoDBCaches w /\ w_caches w !! p = Some c /\ c_startRow c <= lastRow) ->
  exists w', grow_opt w hit cache lastRow = Ok w' /\ grown w w' /\
    (hit = CACHE_ADD -> forall p, cache = Some p -> room w' p lastRow).
Proof.
  intros Hw Hlast Hadd. unfold grow_opt. destruct (decide (hit = CACHE_ADD)) as [Ha|Ha].
  2: { exists w. split_and!; [done|by apply grown_refl|done]. }
  destruct (Hadd Ha) as (p & c & -> & Hp & Ec & Hs). unfold get_cache. rewrite Ec. cbn [mbind result_bind].
  destruct (pw_caches _ _ Hw p Hp) as (c0 & E0 & Hinv). simplify_eq.
  destruct (NoDBCacheGrow_spec c lastRow Hinv) as (c' & E & Hi & Hinv' & Hcols).
  pose proof (inv_rows_ok _ Hinv) as Hok. destruct Hinv as (lay & _ & _ & _ & Hbuf & _).
  destruct (NoDBCacheGrow_room c lastRow Hbuf) as (c2 & n & b & E2 & Hn & Hb & Hroom & Hmono); [destruct Hok; lia|lia|].
  rewrite E in E2. injection E2 as <-. rewrite E. cbn [mbind result_bind]. exists (put_cache w p c').
  assert (Hlen : Z.of_nat (length b) = u64 (n * c_rowSize c')).
  { destruct Hinv' as (lay' & _ & _ & _ & Hsz & _). destruct (Hsz b Hb) as (n' & En' & Hl). by simplify_eq. }
  assert (Hrm : room (put_cache w p c') p lastRow).
  { exists c', n, b. rewrite put_cache_lookup, decide_True by done. by split_and!. }
  split_and!; [done| |by intros _ p' [= <-]]. split.
  - by apply plan_world_put.
  - apply (extends_put w p c c'); [done|done|]. intros x. by rewrite Hcols.
  - done.
  - intros p' x. destruct (decide (p' = p)) as [->|Hne]; [|by rewrite has_col_put]. unfold has_col.
    by rewrite put_cache_lookup, decide_True, Ec, Hcols by done.
  - intros p' row (c1 & n1 & b1 & E1 & Hn1 & Hb1 & Hr1 & Hl1). unfold room. rewrite put_cache_lookup.
    destruct (decide (p' = p)) as [->|Hne]; [|by exists c1, n1, b1]. simplify_eq. exists c', n, b. split_and!; [done..| |done].
    destruct Hi as (_ & _ & -> & _). specialize (Hmono _ _ Hn1 Hb1). lia.
Qed.

Lemma dest_grown w w' type p row x : grown w w' -> dest q w type p row x -> dest q w' type p row x.
Proof. intros Hg. by apply dest_mono, Hg. Qed.

Definition to_write w (r k : nat) nd : Prop :=
  (dataHit nd = CACHE_ADD -> exists p, dataCache nd = Some p /\ dest q w NODB_DATA_CACHE p (row_at r) (col k)) /\
  (pmHit nd = CACHE_ADD -> exists p, pmCache nd = Some p /\ dest q w NODB_POSITIONS_CACHE p (row_at r) (col k)).

Definition to_write_room w (row : Z) nd : Prop :=
  (dataHit nd = CACHE_ADD -> forall p, dataCache nd = Some p -> room w p row) /\
  (pmHit nd = CACHE_ADD -> forall p, pmCache nd = Some p -> room w p row).

Lemma GrowToLastRow_spec m (r : nat) lastRow w :
  plan_world q w -> mat_dims cs rs m -> (r < nranges)%nat -> row_at r <= lastRow < 2 ^ 64 - 1 ->
  (forall k, (k < ncols)%nat -> to_write w r k (cell m r k)) ->
  exists w', GrowToLastRow m (Z.of_nat r) lastRow (Z.of_nat ncols) w = Ok w' /\ grown w w' /\
    forall k, (k < ncols)%nat -> to_write_room w' lastRow (cell m r k).
Proof.
  intros Hw Hd Hr Hlast Hadd. unfold GrowToLastRow.
  match goal with |- context [for_range 0 _ ?b _] => set (body := b) end.
  destruct (for_nat_inv (fun (k0 : nat) w' => grown w w' /\
    forall k, (k < k0)%nat -> to_write_room w' lastRow (cell m r k)) ncols body w) as (w' & -> & Hg & Hrm); [| |eauto].
  - split; [by apply grown_refl|]. intros. lia.
  - intros k w1 Hk [Hg1 Hrm1]. unfold body. destruct (mat_get_cell cs rs m r k Hd) as [-> _]; [lia|done|].
    cbn [mbind result_bind]. destruct (Hadd k Hk) as [Hdat Hpm].
    destruct (grow_opt_spec w1 (dataHit (cell m r k)) (dataCache (cell m r k)) lastRow) as (w2 & -> & Hg2 & Hrm2);
      [apply Hg1|lia| |].
    { intros Ha. destruct (Hdat Ha) as (p & E & Hdest). apply (dest_grown _ _ _ _ _ _ Hg1) in Hdest as (Hp & c & Ec & _ & Hs & _).
      exists p, c. split_and!; [done..|lia]. }
    cbn [mbind result_bind].
    destruct (grow_opt_spec w2 (pmHit (cell m r k)) (pmCache (cell m r k)) lastRow) as (w3 & -> & Hg3 & Hrm3);
      [apply Hg2|lia| |].
    { intros Ha. destruct (Hpm Ha) as (p & E & Hdest). apply (dest_grown _ _ _ _ _ _ Hg1), (dest_grown _ _ _ _ _ _ Hg2) in Hdest
        as (Hp & c & Ec & _ & Hs & _). exists p, c. split_and!; [done..|lia]. }
    exists w3. pose proof (grown_trans _ _ _ Hg2 Hg3) as Hg23.
    split_and!; [done|by eapply grown_trans|]. intros k' Hk'. destruct (decide (k' = k)) as [->|Hne].
    + split; [intros Ha p E; by apply (gr_room _ _ Hg3), Hrm2|by apply Hrm3].
    + destruct (Hrm1 k') as [H1 H2]; [lia|]. split; intros Ha p E; apply (gr_room _ _ Hg23); [by apply H1|by apply H2].
Qed.

(** ** The whole matrix *)

(** What a cell of the finished matrix promises, for the rows of range [r] and
    the column of index [k]: [w0] holds the caches as they were before, [w] as
    they are now. *)
Record plan_cell w0 w m (r k : nat) nd : Prop := {
  pc_data :
    match dataHit nd with
    | UNKNOWN => False
    | CACHE_HIT => exists p, dataCache nd = Some p /\ known q w0 NODB_DATA_CACHE p (row_at r) (col k)
    | CACHE_MISS => wd_at k = false
    | CACHE_ADD => wd_at k = true /\ exists p, dataCache nd = Some p /\ dest q w NODB_DATA_CACHE p (row_at r) (col k)
    end;
  pc_pm :
    match pmHit nd with
    | UNKNOWN => dataHit nd = CACHE_HIT /\ wp_at k = false
    | CACHE_HIT => known q w0 NODB_POSITIONS_CACHE (closestPMCache nd) (row_at r) (col k) /\ distance nd = Some 0
    | CACHE_MISS => wp_at k = false
    | CACHE_ADD => wp_at k = true /\ exists p, pmCache nd = Some p /\ dest q w NODB_POSITIONS_CACHE p (row_at r) (col k)
    end;
  pc_closest : closest_cell w0 m r k nd }.

Lemma pm_cand_same w0 m m' r p cc :
  (forall k, (k < ncols)%nat -> pmHit (cell m' r k) = pmHit (cell m r k)) -> pm_cand w0 m r p cc <-> pm_cand w0 m' r p cc.
Proof. intros H. unfold pm_cand. split; intros [? Hn]; (split; [done|]); intros k Hk E; [rewrite H|rewrite <- H]; auto. Qed.

Lemma closest_cell_same w0 m m' r k nd :
  (forall k, (k < ncols)%nat -> pmHit (cell m' r k) = pmHit (cell m r k)) -> closest_cell w0 m r k nd -> closest_cell w0 m' r k nd.
Proof.
  intros H [[? Hno]|(? & cc & Hc & ? & ? & Hmin)]; [left|right]; (split; [done|]).
  - intros p cc Hc. apply (pm_cand_same w0 m m' r p cc H) in Hc. by apply Hno in Hc.
  - exists cc. split_and!; [by apply (pm_cand_same w0 m m')|done|done|].
    intros p cc' Hc'. apply (pm_cand_same w0 m m' r p cc' H) in Hc'. by eapply Hmin.
Qed.

Lemma init_matrix_dims : mat_dims cs rs (replicate (length rs) (replicate ncols node0)).
Proof. split; [apply length_replicate|]. apply Forall_replicate, length_replicate. Qed.

Lemma init_cell r k : cell (replicate (length rs) (replicate ncols node0)) r k = node0.
Proof.
  unfold cell. destruct (replicate (length rs) _ !! r) as [row|] eqn:E; [|done]. simpl.
  apply lookup_replicate in E as [-> _]. destruct (replicate ncols node0 !! k) as [nd|] eqn:E2; [|done]. simpl.
  by apply lookup_replicate in E2 as [-> _].
Qed.

Lemma BuildMatrix_spec w0 :
  plan_world q w0 -> rows_end w0 ->
  exists w' m, BuildMatrix q w0 = Ok (w', m) /\ plan_world q w' /\ extends w0 w' /\ mat_dims cs rs m /\
    (forall r k, (r < nranges)%nat -> (k < ncols)%nat -> plan_cell w0 w' m r k (cell m r k)) /\
    (forall k, (k < ncols)%nat -> to_write_room w' (row_at nranges - 1) (cell m (nranges - 1) k)).
Proof.
  intros Hw0 Hend. pose proof nranges_pos as Hpos. unfold BuildMatrix.
  assert (NoDBRowVectorSize (q_rows q) = Z.of_nat (length rs)) as -> by (rewrite (qo_rows _ _ _ _ _ Hq); done).
  assert (NoDBColVectorSize (q_cols q) = Z.of_nat ncols) as -> by (rewrite (qo_cols _ _ _ _ _ Hq); done).
  rewrite !Nat2Z.id. replace (Z.of_nat (length rs) - 1) with (Z.of_nat nranges) by lia.
  (* hits *)
  destruct (for_nat_inv (fun r m => hits_inv w0 r 0 m) nranges (fun rowIdx m => mark_hits w0 q rowIdx m)
    (replicate (length rs) (replicate ncols node0))) as (m1 & -> & HI1).
  { split; [apply init_matrix_dims|]. intros r k Hr Hk. rewrite init_cell. split; [by split|]. intros [?|[? ?]]; lia. }
  { intros r m Hr HI. apply mark_hits_spec; [by eapply plan_world_ok|done..]. }
  cbn [mbind result_bind].
  (* misses *)
  destruct (for_nat_inv (fun r wm => miss_inv w0 r 0 wm.1 wm.2) nranges (fun rowIdx wm => mark_misses q rowIdx wm)
    (w0, m1)) as ([w2 m2] & -> & HI2).
  { by apply hits_to_misses. }
  { intros r [w m] Hr HI. destruct (mark_misses_spec w0 Hw0 Hend r w m) as (w' & m' & -> & HI'); [done..|].
    by exists (w', m'). }
  cbn [mbind result_bind fst snd] in *. pose proof (mi_world _ _ _ _ _ HI2) as Hw2.
  (* closest positions *)
  destruct (for_nat_inv (fun r0 m => mat_dims cs rs m /\
      (forall r k, (r0 <= r)%nat -> cell m r k = cell m2 r k) /\
      (forall r k, (r < r0)%nat -> (k < ncols)%nat -> same_plan (cell m2 r k) (cell m r k) /\
         closest_cell w0 m2 r k (cell m r k))) nranges (fun rowIdx m => find_closest w2 q rowIdx m) m2)
    as (m3 & -> & Hd3 & _ & Hc3).
  { split_and!; [apply HI2|done|]. intros. lia. }
  { intros r m Hr (Hd & Hrest & Hdone).
    destruct (find_closest_spec w0 w2 m2 Hw0 HI2 r m) as (m' & -> & Hd' & Ho & Hc); [done|done|by intros; apply Hrest|].
    exists m'. split_and!; [done|done|intros; rewrite Ho by lia; apply Hrest; lia|].
    intros r' k Hr' Hk. destruct (decide (r' = r)) as [->|Hne]; [by apply Hc|]. rewrite Ho by done. apply Hdone; [lia|done]. }
  cbn [mbind result_bind]. rewrite get_row by lia. cbn [mbind result_bind].
  pose proof (row_at_mono (nranges - 1) nranges) as Hmono. pose proof (row_at_range nranges) as Hrange.
  pose proof (row_at_range (nranges - 1)) as Hrange'.
  replace (Z.of_nat (length rs) - 2) with (Z.of_nat (nranges - 1)) by lia. unfold u64. rewrite wrap_small by lia.
  assert (Hcell : forall r k, (r < nranges)%nat -> (k < ncols)%nat -> miss_done k (cell m3 r k) /\
    miss_cell w0 w2 r k (cell m2 r k) /\ same_plan (cell m2 r k) (cell m3 r k)).
  { intros r k Hr Hk. destruct (Hc3 r k Hr Hk) as [(S1 & S2 & S3 & S4) _]. split_and!; [|by apply HI2|done..].
    pose proof (mi_visited _ _ _ _ _ HI2 r k Hr Hk (or_introl Hr)) as [? ?]. unfold miss_done. rewrite S1, S3. done. }
  destruct (GrowToLastRow_spec m3 (nranges - 1) (row_at nranges - 1) w2) as (w3 & -> & Hg & Hroom); [done|done|lia|lia| |].
  { intros k Hk. destruct (Hcell (nranges - 1)%nat k) as (_ & (H1 & H2 & _) & (S1 & S2 & S3 & S4)); [lia|done|].
    split; [rewrite S1, S2|rewrite S3, S4]; intros Ha; [rewrite Ha in H1|rewrite Ha in H2]; naive_solver. }
  cbn [mbind result_bind]. exists w3, m3. split_and!; [done|apply Hg| |done| |].
  - eapply extends_trans; [by eapply plan_world_ok|apply HI2|apply Hg].
  - intros r k Hr Hk. destruct (Hcell r k Hr Hk) as ([Hnu Hpu] & (H1 & H2 & H3 & H4) & (S1 & S2 & S3 & S4)).
    destruct (Hc3 r k Hr Hk) as [_ Hcl]. split.
    + rewrite S1, S2 in *. destruct (dataHit (cell m2 r k)); try done.
      destruct H1 as (? & p & ? & Hdest). split; [done|]. exists p. split; [done|]. by apply (dest_grown w2 w3 _ _ _ _ Hg).
    + rewrite S3, S4 in *. destruct (pmHit (cell m2 r k)) eqn:Ep; try done.
      * auto.
      * assert (Hcand : pm_cand w0 m2 r (closestPMCache (cell m2 r k)) (col k)).
        { destruct H3 as [?|(Hkn & _)]; [done|]. split; [done|]. intros k' Hk' E.
          apply (col_at_inj cs (qo_sorted _ _ _ _ _ Hq)) in E; [|done..]. subst. by rewrite Ep. }
        destruct Hcl as [[_ Hno]|(_ & cc & [Hkn _] & _ & Hdist & Hmin)]; [by destruct (Hno _ _ Hcand)|].
        specialize (Hmin _ _ Hcand). assert (cc = col k) as -> by lia. by rewrite Hdist, Z.sub_diag.
      * destruct H2 as (? & p & ? & Hdest). split; [done|]. exists p. split; [done|]. by apply (dest_grown w2 w3 _ _ _ _ Hg).
    + eapply closest_cell_same; [|done]. intros k' Hk'. by destruct (Hcell r k' Hr Hk') as (_ & _ & (_ & _ & -> & _)).
  - done.
Qed.

(** Either every column of a range has a closest position, or none has. *)
Lemma closest_uniform w0 w m r k k' nd nd' :
  plan_cell w0 w m r k nd -> plan_cell w0 w m r k' nd' -> closestPMCache nd <> 0 -> closestPMCache nd' <> 0.
Proof.
  intros [_ _ H1] [_ _ H2] Hne. destruct H1 as [[? _]|(_ & cc & Hc & _)]; [done|].
  destruct H2 as [[_ Hno]|[? _]]; [by destruct (Hno _ _ Hc)|done].
Qed.

End passes.

(** ** Properties *)

(** C24 [BuildMatrix] returns, for every query over sorted columns and rows of
    which no cache has the last. In every range of rows the data of every column is
    decided: a hit names a data cache that already held the column and the row; a
    miss is a column that is not to be written; an addition names a cache of the
    relation that now has the column and begins at the range or before it, which says
    nothing of its buffer. The position of a column is decided likewise, or left
    undecided where the data is a hit and the position is not wanted. Where some
    positional map held any position of the range that this scan does not change,
    every column names the closest such position, with its distance; elsewhere none
    does. The caches stay well formed and keep their rows and columns. The caches of
    the additions of the last range, and only these, are shown to have a buffer with
    the last row of the range, whose bytes are its number of rows times the size of a
    row as a [size_t]. *)
Theorem BuildMatrix_sound q cs rs wd wp w0 :
  query_ok q cs rs wd wp -> plan_world q w0 -> rows_end q rs w0 ->
  exists w' m, BuildMatrix q w0 = Ok (w', m) /\ plan_world q w' /\ extends w0 w' /\
    (forall r k, (r < length rs - 1)%nat -> (k < length cs)%nat ->
       plan_cell q cs rs wd wp w0 w' m r k (cell m r k)) /\
    (forall k, (k < length cs)%nat ->
       to_write_room w' (row_at rs (length rs - 1) - 1) (cell m (length rs - 1 - 1) k)).
Proof.
  intros Hq Hw Hend. destruct (BuildMatrix_spec q cs rs wd wp Hq w0 Hw Hend) as (w' & m & E & H1 & H2 & _ & H3 & H4).
  exists w', m. by split_and!.
Qed.

(** A relation of 49 columns and three full data caches over its first three,
    two and one rows; a query then asks for the last column and wants it
    cached. *)
Definition wide_rel : NoDBRelation_t :=
  {| rel_name := "wide"; rel_used := 49; rel_max := 60;
     rel_attrs := (Some <$> replicate 49 {| attr_size := 16; attr_byValue := true |}) ++ replicate 11 None |}.
Definition full_cache (from used : Z) : NoDBCache_t :=
  match make_cache 1 wide_rel NODB_DATA_CACHE 0 256 ((fun i => (from + Z.of_nat i, 16)) <$> seq 0 16) used with
  | Ok c => c | Fail _ => example_cache end.
Definition wide_world : world :=
  {| w_caches := {[ 1 := full_cache 0 3; 2 := full_cache 16 2; 3 := full_cache 32 1 ]};
     NoDBCaches := [3; 2; 1]; w_next := 4 |}.
Definition wide_query (rows : list Z) : NoDBQueryInfo_t :=
  {| q_relp := 1; q_rel := wide_rel; q_limit := 0; q_cols := col_vector [48]; q_rows := row_vector rows;
     q_readBitmap := bitmap_of [true]; q_readFilterBitmap := bitmap_of [false]; q_readRestBitmap := bitmap_of [true];
     q_writeDataBitmap := bitmap_of [true]; q_writePositionsBitmap := bitmap_of [false]; q_readCols := [48] |}.

Lemma wide_run :
  (rows ← GetInterestingRows wide_world 1; wm ← BuildMatrix (wide_query rows) wide_world; c ← get_cache wm.1 4;
   Ok (dataHit (cell wm.2 0 0), dataCache (cell wm.2 0 0), NoDBCacheHasColumn c 48, c_buf c, ComputeOffset c 48 0)) =
  Ok (CACHE_ADD, Some 4, Ok true, None, Ok 0).
Proof. by vm_compute. Qed.

(** Only the caches written in the last range of rows are given room
    ([GrowToLastRow]), and a cache with no row yet never qualifies for growth,
    because [CacheStartsBelow] finds the cache itself. With three full caches
    that end at different rows, the column is placed in a new cache in each
    range, and the cache of the first range has no buffer. *)
Example BuildMatrix_no_buffer :
  exists rows w' m c, GetInterestingRows wide_world 1 = Ok rows /\
    BuildMatrix (wide_query rows) wide_world = Ok (w', m) /\
    dataHit (cell m 0 0) = CACHE_ADD /\ dataCache (cell m 0 0) = Some 4 /\ w_caches w' !! 4 = Some c /\
    NoDBCacheHasColumn c 48 = Ok true /\ c_buf c = None.
Proof.
  destruct (proj1 (bind_Ok _ _ _) wide_run) as (rows & Er & (wm & Ew & (c & Ec & E)%bind_Ok)%bind_Ok).
  destruct wm as [w' m]. unfold get_cache in Ec. cbn [fst snd] in *.
  destruct (w_caches w' !! 4) as [c0|] eqn:E0; [|discriminate Ec]. injection Ec as ->.
  injection E as E1 E2 E3 E4 E5. exists rows, w', m, c. split_and!; [exact Er|exact Ew|exact E1|exact E2|exact E0|exact E3|exact E4].
Qed.

(** ** Witnesses *)
Definition ex_query : NoDBQueryInfo_t :=
  {| q_relp := 1; q_rel := example_rel; q_limit := 0; q_cols := col_vector [1; 3; 5];
     q_rows := row_vector [0; 50; 80; 100];
     q_readBitmap := bitmap_of [true; true; true]; q_readFilterBitmap := bitmap_of [true; false; false];
     q_readRestBitmap := bitmap_of [false; true; true];
     q_writeDataBitmap := bitmap_of [true; true; false]; q_writePositionsBitmap := bitmap_of [true; false; true];
     q_readCols := [5; 3; 1] |}.

Lemma ex_query_ok : query_ok ex_query [1; 3; 5] [0; 50; 80; 100] [true; true; false] [true; false; true].
Proof.
  split; try done.
  - repeat constructor; lia.
  - repeat constructor; cbn; lia.
  - repeat constructor; lia.
  - repeat constructor; lia.
  - cbn. lia.
  - intros x. cbn. rewrite !elem_of_cons. tauto.
  - intros x Hx. exists 2. split; [|unfold NODB_DATA_CACHE_DEFAULT_SIZE; lia].
    cbn in Hx. rewrite !elem_of_cons, elem_of_nil in Hx. by destruct Hx as [->|[->|[->|[]]]].
Qed.

Lemma ex_cache_inv type start cols used c col :
  ex_cache type start cols used = c -> make_cache 1 example_rel type start 16 cols used = Ok c ->
  Forall (fun x => 0 <= x.1 < 8 /\ 0 <= x.2) cols -> rows_ok c -> c_buf c = None -> 0 <= col ->
  NoDBCacheHasColumn c col = Ok true -> cache_inv 1 8 c.
Proof.
  intros Ec Em Hall Hr Hb H0 Hc. destruct (ex_cache_wf type start cols used c Ec Em Hall) as (lay & Hwf & Ht & Hlen).
  exists lay. split_and!; [done|done|done|intros b; by rewrite Hb|done|]. intros _. exists col.
  rewrite (NoDBCacheHasColumn_spec _ _ _ Hwf H0) in Hc. injection Hc as Hc. by apply bool_decide_eq_true in Hc.
Qed.

Lemma ex_plan_world : plan_world ex_query ex_world.
Proof.
  destruct ex_world_ok as [_ H1 H2 H3]. split; [|done..].
  intros p Hp. assert (p = 2 \/ p = 1) as [-> | ->] by (cbn in Hp; rewrite !elem_of_cons, elem_of_nil in Hp; tauto).
  - exists (ex_cache NODB_POSITIONS_CACHE 50 [(3, 4); (5, 4)] 30). split; [by vm_compute|].
    apply (ex_cache_inv NODB_POSITIONS_CACHE 50 [(3, 4); (5, 4)] 30 _ 3); try (by vm_compute).
    repeat constructor; simpl; lia.
  - exists (ex_cache NODB_POSITIONS_CACHE 0 [(3, 4)] 100). split; [by vm_compute|].
    apply (ex_cache_inv NODB_POSITIONS_CACHE 0 [(3, 4)] 100 _ 3); try (by vm_compute).
    repeat constructor; simpl; lia.
Qed.

Lemma ex_rows_end : rows_end ex_query [0; 50; 80; 100] ex_world.
Proof.
  intros p c Hp Ec _. assert (p = 2 \/ p = 1) as [-> | ->] by (cbn in Hp; rewrite !elem_of_cons, elem_of_nil in Hp; tauto);
    vm_compute in Ec; injection Ec as <-; by vm_compute.
Qed.

Lemma BuildMatrix_witness :
  exists w' m, BuildMatrix ex_query ex_world = Ok (w', m) /\ plan_world ex_query w' /\ extends ex_world w' /\
    (forall r k, (r < 4 - 1)%nat -> (k < 3)%nat ->
       plan_cell ex_query [1; 3; 5] [0; 50; 80; 100] [true; true; false] [true; false; true] ex_world w' m r k (cell m r k)) /\
    (forall k, (k < 3)%nat -> to_write_room w' (row_at [0; 50; 80; 100] (4 - 1) - 1) (cell m (4 - 1 - 1) k)).
Proof.
  apply (BuildMatrix_sound ex_query [1; 3; 5] [0; 50; 80; 100] [true; true; false] [true; false; true] ex_world).
  - apply ex_query_ok.
  - apply ex_plan_world.
  - apply ex_rows_end.
Defined.
