(* ===== verification/ScanStrategy.v ===== *)
(** * Scan strategies and their iterator (NoDBScanStrategy.c, second part)

    [FillRow] turns a row of the matrix into the lists of a strategy: which
    columns to read from which cache, which to convert, where their positions
    come from, and what to write. [BuildStrategy] does so for every range of
    rows, before and after the filter of the query, and the iterator hands the
    strategies out, making a new one for each 10,000 rows past the last cache. *)
From S2P Require Import Prelude LinkedList Vectors Bitmap Relation Cache CacheData PositionalMap CacheSelect StrategyMatrix.

Implicit Types (m : matrix) (nd : Node_t) (w : world) (q : NoDBQueryInfo_t).

Definition NODB_CACHE_DEFAULT_ROWS : Z := 10000.

Record ColDistance_t := { forwardDistance : Z; backwardDistance : Z; cd_cache : Z }.

Record FillRowReply_t := {
  mapDataHit : cache_map;
  mapDataAddByValue : cache_map;
  mapDataAddByRef : cache_map;
  convert : list Z;
  collectFromFile : list Z;
  mapPositionsAdd : cache_map;
  mapReadFromPM : cache_map;
  readViaPM : arr NoDBReadViaPM_t;
  nreadViaPM : Z }.

(** ** One row of the matrix *)

(** A member of a node that must have been written. *)
Definition written {A} (o : option A) : result A :=
  match o with Some x => Ok x | None => Fail Indeterminate end.

(** What the loops over the columns build; [fs_collect] is [collectFromFile] or
    [collectFromPMIdx]. *)
Record fill_state := {
  fs_hit : cache_map; fs_byValue : cache_map; fs_byRef : cache_map;
  fs_convert : list Z; fs_collect : list Z; fs_positions : cache_map }.
Implicit Types (s : fill_state).

Definition fill_init : fill_state :=
  {| fs_hit := []; fs_byValue := []; fs_byRef := []; fs_convert := []; fs_collect := []; fs_positions := [] |}.
Definition set_hit s (x : cache_map) : fill_state :=
  {| fs_hit := x; fs_byValue := fs_byValue s; fs_byRef := fs_byRef s; fs_convert := fs_convert s;
     fs_collect := fs_collect s; fs_positions := fs_positions s |}.
Definition set_byValue s (x : cache_map) : fill_state :=
  {| fs_hit := fs_hit s; fs_byValue := x; fs_byRef := fs_byRef s; fs_convert := fs_convert s;
     fs_collect := fs_collect s; fs_positions := fs_positions s |}.
Definition set_byRef s (x : cache_map) : fill_state :=
  {| fs_hit := fs_hit s; fs_byValue := fs_byValue s; fs_byRef := x; fs_convert := fs_convert s;
     fs_collect := fs_collect s; fs_positions := fs_positions s |}.
Definition add_convert s (x : Z) : fill_state :=
  {| fs_hit := fs_hit s; fs_byValue := fs_byValue s; fs_byRef := fs_byRef s;
     fs_convert := add_unique (fs_convert s) x; fs_collect := fs_collect s; fs_positions := fs_positions s |}.
Definition add_collect s (x : Z) : fill_state :=
  {| fs_hit := fs_hit s; fs_byValue := fs_byValue s; fs_byRef := fs_byRef s; fs_convert := fs_convert s;
     fs_collect := add_unique (fs_collect s) x; fs_positions := fs_positions s |}.
Definition set_positions s (x : cache_map) : fill_state :=
  {| fs_hit := fs_hit s; fs_byValue := fs_byValue s; fs_byRef := fs_byRef s; fs_convert := fs_convert s;
     fs_collect := fs_collect s; fs_positions := x |}.

(** The body of both loops over the columns; [v] is what is collected, the
    column when there are no positional maps and its index when there are. *)
Definition fill_read nd (col v : Z) s : result fill_state :=
  if decide (dataHit nd = CACHE_HIT) then
    p ← written (dataCache nd); Ok (set_hit s (AddColToMap (fs_hit s) p col))
  else Ok (add_convert (add_collect s v) col).

Definition fill_data (rel : NoDBRelation_t) nd (col v : Z) s : result fill_state :=
  let s1 := add_convert (add_collect s v) col in
  byValue ← NoDBRelationIsColumnByValue rel col;
  p ← written (dataCache nd);
  if (byValue : bool) then Ok (set_byValue s1 (AddColToMap (fs_byValue s1) p col))
  else Ok (set_byRef s1 (AddColToMap (fs_byRef s1) p col)).

Definition fill_position nd (col v : Z) s : result fill_state :=
  let s1 := add_collect s v in
  p ← written (pmCache nd);
  Ok (set_positions s1 (AddColToMap (fs_positions s1) p col)).

Definition fill_col (rel : NoDBRelation_t) nd (readBit writeData writePositions : bool) (col v : Z) s
    : result fill_state :=
  s1 ← (if readBit then fill_read nd col v s else Ok s);
  s2 ← (if writeData && bool_decide (dataHit nd = CACHE_ADD) then fill_data rel nd col v s1 else Ok s1);
  (if writePositions && bool_decide (pmHit nd = CACHE_ADD) then fill_position nd col v s2 else Ok s2).

Definition fill_cols m (rowIdx : Z) (rel : NoDBRelation_t) (cols : NoDBColVector_t)
    (readBitmap writeDataBitmap writePositionsBitmap : NoDBBitmap_t) (val : Z -> Z -> Z) : result fill_state :=
  for_range 0 (NoDBColVectorSize cols) (fun colIdx s =>
    col ← NoDBColVectorGet cols colIdx;
    nd ← mat_get m rowIdx colIdx;
    b1 ← NoDBBitmapIsSet readBitmap colIdx;
    b2 ← NoDBBitmapIsSet writeDataBitmap colIdx;
    b3 ← NoDBBitmapIsSet writePositionsBitmap colIdx;
    fill_col rel nd b1 b2 b3 col (val colIdx col) s) fill_init.

Definition pm_available m (rowIdx : Z) (cols : NoDBColVector_t) : result bool :=
  search_range 0 (NoDBColVectorSize cols) (fun colIdx =>
    nd ← mat_get m rowIdx colIdx;
    Ok (if closestPMCache nd =? 0 then None else Some true)) false.

(** ** Reading through positional maps *)

(** Step 1: the distances to parse from each closest column. *)
Definition distance_step nd (cd : ColDistance_t) (d : Z) : ColDistance_t :=
  if 0 <=? d then
    if (cd_cache cd =? 0) || (forwardDistance cd <? d) then
      {| forwardDistance := d; backwardDistance := backwardDistance cd; cd_cache := closestPMCache nd |}
    else cd
  else
    if d <? backwardDistance cd then
      {| forwardDistance := forwardDistance cd; backwardDistance := d; cd_cache := closestPMCache nd |}
    else cd.

Fixpoint find_distances m (rowIdx : Z) (list : list Z) (colDistances : arr ColDistance_t) (n : Z)
    : result (arr ColDistance_t * Z) :=
  match list with
  | [] => Ok (colDistances, n)
  | colIdx :: list' =>
      nd ← mat_get m rowIdx colIdx;
      closestColumn ← written (closestColumn nd);
      cd ← arr_get colDistances closestColumn;
      d ← written (distance nd);
      colDistances' ← arr_set colDistances closestColumn (distance_step nd cd d);
      find_distances m rowIdx list' colDistances' (if cd_cache cd =? 0 then n + 1 else n)
  end.

(** Step 2: each closest column is read once. *)
Fixpoint read_via m (rowIdx : Z) (list : list Z) (colDistances : arr ColDistance_t)
    (map : cache_map) (via : arr NoDBReadViaPM_t) (n : Z) : result (cache_map * arr NoDBReadViaPM_t) :=
  match list with
  | [] => Ok (map, via)
  | colIdx :: list' =>
      nd ← mat_get m rowIdx colIdx;
      closestColumn ← written (closestColumn nd);
      cd ← arr_get colDistances closestColumn;
      let '(map', unique) := AddUniqueColToMap map (cd_cache cd) closestColumn in
      if (unique : bool) then
        via' ← arr_set via n {| via_col := closestColumn; via_forward := forwardDistance cd;
                                via_backward := backwardDistance cd |};
        read_via m rowIdx list' colDistances map' via' (n + 1)
      else read_via m rowIdx list' colDistances map' via n
  end.

Definition FillRow m (rowIdx : Z) (rel : NoDBRelation_t) (cols : NoDBColVector_t)
    (readBitmap writeDataBitmap writePositionsBitmap : NoDBBitmap_t) : result FillRowReply_t :=
  pmAvailable ← pm_available m rowIdx cols;
  if negb pmAvailable then
    s ← fill_cols m rowIdx rel cols readBitmap writeDataBitmap writePositionsBitmap (fun _ col => col);
    Ok {| mapDataHit := fs_hit s; mapDataAddByValue := fs_byValue s; mapDataAddByRef := fs_byRef s;
          convert := fs_convert s; collectFromFile := fs_collect s; mapPositionsAdd := fs_positions s;
          mapReadFromPM := []; readViaPM := NULL; nreadViaPM := 0 |}
  else
    s ← fill_cols m rowIdx rel cols readBitmap writeDataBitmap writePositionsBitmap (fun colIdx _ => colIdx);
    let ncols := NoDBRelationGetNumberColumns rel in
    colDistances ← arr_fill 0 ncols {| forwardDistance := 0; backwardDistance := 0; cd_cache := 0 |} (arr_alloc ncols);
    x ← find_distances m rowIdx (fs_collect s) colDistances 0;
    y ← read_via m rowIdx (fs_collect s) x.1 [] (arr_alloc x.2) 0;
    Ok {| mapDataHit := fs_hit s; mapDataAddByValue := fs_byValue s; mapDataAddByRef := fs_byRef s;
          convert := fs_convert s; collectFromFile := []; mapPositionsAdd := fs_positions s;
          mapReadFromPM := y.1; readViaPM := y.2; nreadViaPM := x.2 |}.

(** ** Strategies *)

(** The counters [n...] are with the arrays they count. *)
Record NoDBScanStrategy_t := {
  startRow : Z; nrows : Z;
  readPreFilterWithCache : Z * list NoDBColumnsPerCache_t;
  readPreFilterWithPM : Z * list NoDBColumnsPerCache_t;
  readPreFilterViaPM : Z * arr NoDBReadViaPM_t;
  readPreFilterWithFile : NoDBColVector_t;
  convertPreFilter : NoDBColVector_t;
  readPostFilterWithCache : Z * list NoDBColumnsPerCache_t;
  readPostFilterWithPM : Z * list NoDBColumnsPerCache_t;
  readPostFilterViaPM : Z * arr NoDBReadViaPM_t;
  readPostFilterWithFile : NoDBColVector_t;
  convertPostFilter : NoDBColVector_t;
  writeToCacheByValue : Z * list NoDBColumnsPerCache_t;
  writeToCacheByRef : Z * list NoDBColumnsPerCache_t;
  writeToPM : Z * list NoDBColumnsPerCache_t }.

(** No filter: everything is read after it. *)
Definition strategy_without_filter q m (rowIdx start n : Z) : result NoDBScanStrategy_t :=
  r ← FillRow m rowIdx (q_rel q) (q_cols q) (q_readRestBitmap q) (q_writeDataBitmap q) (q_writePositionsBitmap q);
  Ok {| startRow := start; nrows := n;
        readPreFilterWithCache := (0, []); readPreFilterWithPM := (0, []); readPreFilterViaPM := (0, NULL);
        readPreFilterWithFile := NoDBColVectorArenaInit 0; convertPreFilter := NoDBColVectorArenaInit 0;
        readPostFilterWithCache := SetColsPerCache (mapDataHit r);
        readPostFilterWithPM := SetColsPerCache (mapReadFromPM r);
        readPostFilterViaPM := (nreadViaPM r, readViaPM r);
        readPostFilterWithFile := col_vector (collectFromFile r);
        convertPostFilter := col_vector (convert r);
        writeToCacheByValue := SetColsPerCache (mapDataAddByValue r);
        writeToCacheByRef := SetColsPerCache (mapDataAddByRef r);
        writeToPM := SetColsPerCache (mapPositionsAdd r) |}.

(** The columns that are still to be read after the filter. *)
Definition read_rest q (convertPre : NoDBColVector_t) : result NoDBBitmap_t :=
  b0 ← NoDBBitmapArenaInit (NoDBColVectorSize (q_cols q));
  for_range 0 (NoDBColVectorSize (q_cols q)) (fun colIdx b =>
    col ← NoDBColVectorGet (q_cols q) colIdx;
    rest ← NoDBBitmapIsSet (q_readRestBitmap q) colIdx;
    if (rest : bool) then
      filter ← NoDBBitmapIsSet (q_readFilterBitmap q) colIdx;
      if (filter : bool) then Ok b
      else
        pre ← NoDBColVectorContains convertPre col;
        if (pre : bool) then Ok b else NoDBBitmapSet b colIdx
    else Ok b) b0.

Definition strategy_with_filter q m (rowIdx start n : Z) : result NoDBScanStrategy_t :=
  r ← FillRow m rowIdx (q_rel q) (q_cols q) (q_readFilterBitmap q) (q_writeDataBitmap q) (q_writePositionsBitmap q);
  readRestBitmap ← read_rest q (col_vector (convert r));
  emptyBitmap ← NoDBBitmapArenaInit (NoDBColVectorSize (q_cols q));
  r2 ← FillRow m rowIdx (q_rel q) (q_cols q) readRestBitmap emptyBitmap emptyBitmap;
  Ok {| startRow := start; nrows := n;
        readPreFilterWithCache := SetColsPerCache (mapDataHit r);
        readPreFilterWithPM := SetColsPerCache (mapReadFromPM r);
        readPreFilterViaPM := (nreadViaPM r, readViaPM r);
        readPreFilterWithFile := col_vector (collectFromFile r);
        convertPreFilter := col_vector (convert r);
        readPostFilterWithCache := SetColsPerCache (mapDataHit r2);
        readPostFilterWithPM := SetColsPerCache (mapReadFromPM r2);
        readPostFilterViaPM := (nreadViaPM r2, readViaPM r2);
        readPostFilterWithFile := col_vector (collectFromFile r2);
        convertPostFilter := col_vector (convert r2);
        writeToCacheByValue := SetColsPerCache (mapDataAddByValue r);
        writeToCacheByRef := SetColsPerCache (mapDataAddByRef r);
        writeToPM := SetColsPerCache (mapPositionsAdd r) |}.

(** [it_strategy] holds [it_len] strategies; it is [NULL] until the first
    [BuildStrategy]. *)
Record NoDBScanStrategyIterator_t := {
  it_queryInfo : NoDBQueryInfo_t; it_strategy : arr NoDBScanStrategy_t; it_len : Z; it_cur : Z }.
Implicit Types (it : NoDBScanStrategyIterator_t).

Definition strategy_rows q m (hasFilter : bool) (rowIdx : Z) : result NoDBScanStrategy_t :=
  start ← NoDBRowVectorGet (q_rows q) rowIdx;
  next ← NoDBRowVectorGet (q_rows q) (rowIdx + 1);
  if hasFilter then strategy_with_filter q m rowIdx start (u64 (next - start))
  else strategy_without_filter q m rowIdx start (u64 (next - start)).

Definition BuildStrategy it w : result (world * NoDBScanStrategyIterator_t) :=
  let q := it_queryInfo it in
  wm ← BuildMatrix q w;
  let len := NoDBRowVectorSize (q_rows q) - 1 in
  noFilter ← NoDBBitmapIsAllClear (q_readFilterBitmap q);
  strategy ← for_range 0 len (fun rowIdx strategy =>
    st ← strategy_rows q wm.2 (negb noFilter) rowIdx; arr_set strategy rowIdx st) (arr_alloc len);
  Ok (wm.1, {| it_queryInfo := q; it_strategy := strategy; it_len := len; it_cur := 0 |}).

(** ** The iterator *)
Definition collect_cols (v : NoDBColVector_t) (colList : list Z) : result (list Z) :=
  for_range 0 (NoDBColVectorSize v) (fun i l => col ← NoDBColVectorGet v i; Ok (add_unique l col)) colList.

(** The loop that sets the bitmaps, for one bitmap: the bits of the columns that
    pass a test. *)
Definition column_bitmap (cols : NoDBColVector_t) (test : Z -> result bool) : result NoDBBitmap_t :=
  b0 ← NoDBBitmapArenaInit (NoDBColVectorSize cols);
  for_range 0 (NoDBColVectorSize cols) (fun i b =>
    col ← NoDBColVectorGet cols i;
    x ← test col;
    if (x : bool) then NoDBBitmapSet b i else Ok b) b0.

(** [colList] and [readCols] get the same columns while the read set is
    collected. *)
Definition NoDBScanStrategyIterator w (relp : Z) (rel : NoDBRelation_t) (limit : Z)
    (filter rest writeData writePositions : NoDBColVector_t) : result (world * NoDBScanStrategyIterator_t) :=
  l1 ← collect_cols filter [];
  readCols ← collect_cols rest l1;
  l3 ← collect_cols writeData readCols;
  l4 ← collect_cols writePositions l3;
  cols ← NoDBColVectorSort (col_vector l4);
  readB ← column_bitmap cols (fun col =>
    x ← NoDBColVectorContains filter col; y ← NoDBColVectorContains rest col; Ok (x || y));
  filterB ← column_bitmap cols (NoDBColVectorContains filter);
  restB ← column_bitmap cols (NoDBColVectorContains rest);
  dataB ← column_bitmap cols (NoDBColVectorContains writeData);
  posB ← column_bitmap cols (NoDBColVectorContains writePositions);
  rows ← GetInterestingRows w relp;
  let q := {| q_relp := relp; q_rel := rel; q_limit := limit; q_cols := cols; q_rows := row_vector rows;
              q_readBitmap := readB; q_readFilterBitmap := filterB; q_readRestBitmap := restB;
              q_writeDataBitmap := dataB; q_writePositionsBitmap := posB; q_readCols := readCols |} in
  let it := {| it_queryInfo := q; it_strategy := NULL; it_len := 0; it_cur := 0 |} in
  if NoDBRowVectorSize (q_rows q) =? 0 then Ok (w, it) else BuildStrategy it w.

Definition NoDBScanStrategyIteratorNext it : NoDBScanStrategyIterator_t :=
  {| it_queryInfo := it_queryInfo it; it_strategy := it_strategy it; it_len := it_len it; it_cur := it_cur it + 1 |}.

Definition set_q_rows q (rows : NoDBRowVector_t) : NoDBQueryInfo_t :=
  {| q_relp := q_relp q; q_rel := q_rel q; q_limit := q_limit q; q_cols := q_cols q; q_rows := rows;
     q_readBitmap := q_readBitmap q; q_readFilterBitmap := q_readFilterBitmap q;
     q_readRestBitmap := q_readRestBitmap q; q_writeDataBitmap := q_writeDataBitmap q;
     q_writePositionsBitmap := q_writePositionsBitmap q; q_readCols := q_readCols q |}.

Definition NoDBScanStrategyIteratorGet it w : result (world * NoDBScanStrategyIterator_t * NoDBScanStrategy_t) :=
  wi ← (if it_cur it =? it_len it then
          row ← (if it_len it =? 0 then Ok 0
                 else st ← arr_get (it_strategy it) (it_cur it - 1); Ok (u64 (startRow st + nrows st)));
          rows1 ← NoDBRowVectorSet (NoDBRowVectorArenaInit 2) 0 row;
          rows2 ← NoDBRowVectorSet rows1 1 (u64 (row + NODB_CACHE_DEFAULT_ROWS));
          BuildStrategy {| it_queryInfo := set_q_rows (it_queryInfo it) rows2; it_strategy := it_strategy it;
                           it_len := it_len it; it_cur := it_cur it |} w
        else Ok (w, it));
  st ← arr_get (it_strategy wi.2) (it_cur wi.2);
  Ok (wi.1, wi.2, st).
