(* ===== verification/StrategySound.v ===== *)
(** * Scan strategies cover the query

    The proofs about ScanStrategy.v: the lists that [FillRow] builds are exactly
    those that the matrix asks for, every column to read is read from a cache or
    converted, and the strategies of an iterator follow one another without a
    gap. *)
From S2P Require Import Prelude LinkedList Vectors Bitmap Relation Cache CacheData PositionalMap CacheSelect StrategyMatrix MatrixSound ScanStrategy.

Implicit Types (m : matrix) (nd : Node_t) (w : world) (q : NoDBQueryInfo_t) (s : fill_state) (cm : cache_map).

(** ** Maps of columns *)
Definition in_map cm (p x : Z) : Prop := exists l, (p, l) ∈ cm /\ x ∈ l.

Lemma map_get_Some cm p l : NoDup cm.*1 -> map_get cm p = Some l <-> (p, l) ∈ cm.
Proof.
  induction cm as [|[p0 l0] cm IH]; cbn [map_get]; intros Hnd.
  - split; [done|]. intros H. by apply elem_of_nil in H.
  - csimpl in Hnd. apply NoDup_cons in Hnd as [Hn Hnd]. destruct (Z.eqb_spec p0 p) as [->|Hne].
    + rewrite elem_of_cons. split; [intros [= ->]; by left|]. intros [[= ->]|Hin]; [done|].
      exfalso. apply Hn. by apply (list_elem_of_fmap_2 fst) in Hin.
    + rewrite IH by done. rewrite elem_of_cons. split; [by right|]. intros [[= -> ->]|?]; done.
Qed.

Lemma map_get_None cm p : map_get cm p = None <-> p ∉ cm.*1.
Proof.
  induction cm as [|[p0 l0] cm IH]; cbn [map_get]; csimpl.
  - split; [intros _ H; by apply elem_of_nil in H|done].
  - rewrite elem_of_cons. destruct (Z.eqb_spec p0 p) as [->|Hne]; [split; [done|]; intros H; exfalso; apply H; by left|].
    rewrite IH. split; [intros Hn [E|?]; [by apply Hne|done]|tauto].
Qed.

Lemma map_set_keys cm p l : (col_map_set cm p l).*1 = cm.*1.
Proof.
  induction cm as [|[p0 l0] cm IH]; cbn [col_map_set]; [done|]. destruct (Z.eqb_spec p0 p) as [->|]; csimpl; [done|]. by rewrite IH.
Qed.

Lemma elem_of_map_set cm p l p' l' : NoDup cm.*1 -> p ∈ cm.*1 ->
  (p', l') ∈ col_map_set cm p l <-> (p' = p /\ l' = l) \/ (p' <> p /\ (p', l') ∈ cm).
Proof.
  induction cm as [|[p0 l0] cm IH]; csimpl; intros Hnd Hin; [by apply elem_of_nil in Hin|].
  apply NoDup_cons in Hnd as [Hn Hnd]. cbn [col_map_set]. destruct (Z.eqb_spec p0 p) as [->|Hne].
  - rewrite !elem_of_cons. split.
    + intros [[= -> ->]|Hc]; [by left|]. right. split; [|by right]. intros ->.
      apply Hn. by apply (list_elem_of_fmap_2 fst) in Hc.
    + intros [[-> ->]|[Hne [[= -> ->]|Hc]]]; [by left|done|by right].
  - rewrite !elem_of_cons. rewrite elem_of_cons in Hin. destruct Hin as [->|Hin]; [done|]. rewrite IH by done. split.
    + intros [[= -> ->]|[?|[? ?]]]; [right; split; [done|by left]|by left|right; split; [done|by right]].
    + intros [?|[? [[= -> ->]|?]]]; tauto.
Qed.

(** Adding [x] under [p], by whichever list function. *)
Lemma in_map_set cm p l f x :
  NoDup cm.*1 -> (p, l) ∈ cm -> (forall y, y ∈ f <-> y = x \/ y ∈ l) ->
  NoDup (col_map_set cm p f).*1 /\ forall p' y, in_map (col_map_set cm p f) p' y <-> in_map cm p' y \/ (p' = p /\ y = x).
Proof.
  intros Hnd Hin Hf. split; [by rewrite map_set_keys|]. intros p' y. unfold in_map.
  assert (Hk : p ∈ cm.*1) by by apply (list_elem_of_fmap_2 fst) in Hin.
  split.
  - intros (l' & [[-> ->]|[Hne Hc]]%elem_of_map_set & Hy); [|eauto|done..].
    apply Hf in Hy as [->|Hy]; [by right|left; eauto].
  - intros [(l' & Hc & Hy)|[-> ->]].
    + destruct (decide (p' = p)) as [->|Hne].
      * exists f. rewrite elem_of_map_set by done. split; [by left|]. apply Hf. right.
        apply (map_get_Some cm p l Hnd) in Hin. apply (map_get_Some cm p l' Hnd) in Hc. congruence.
      * exists l'. rewrite elem_of_map_set by done. split; [by right|done].
    + exists f. rewrite elem_of_map_set by done. split; [by left|]. apply Hf. by left.
Qed.

Lemma in_map_app cm p x : NoDup cm.*1 -> p ∉ cm.*1 ->
  NoDup (cm ++ [(p, [x])]).*1 /\ forall p' y, in_map (cm ++ [(p, [x])]) p' y <-> in_map cm p' y \/ (p' = p /\ y = x).
Proof.
  intros Hnd Hn. split.
  - rewrite fmap_app. apply NoDup_app. split_and!; [done| |by apply NoDup_singleton].
    intros y Hy Hc. csimpl in Hc. apply list_elem_of_singleton in Hc. by subst.
  - intros p' y. unfold in_map. setoid_rewrite elem_of_app. setoid_rewrite list_elem_of_singleton. split.
    + intros (l & [Hc|[= -> ->]] & Hy); [left; eauto|right]. by apply list_elem_of_singleton in Hy.
    + intros [(l & Hc & Hy)|[-> ->]]; [eauto|]. exists [x]. split; [by right|by left].
Qed.

Lemma AddColToMap_spec cm p x : NoDup cm.*1 ->
  NoDup (AddColToMap cm p x).*1 /\ forall p' y, in_map (AddColToMap cm p x) p' y <-> in_map cm p' y \/ (p' = p /\ y = x).
Proof.
  intros Hnd. unfold AddColToMap. destruct (map_get cm p) as [l|] eqn:E.
  - apply map_get_Some in E; [|done]. apply (in_map_set cm p l); [done..|]. intros y. apply elem_of_cons.
  - apply map_get_None in E. by apply in_map_app.
Qed.

Lemma AddUniqueColToMap_spec cm p x cm' b : NoDup cm.*1 -> AddUniqueColToMap cm p x = (cm', b) ->
  NoDup cm'.*1 /\ (forall p' y, in_map cm' p' y <-> in_map cm p' y \/ (p' = p /\ y = x)) /\
  (b = true <-> ~ in_map cm p x).
Proof.
  intros Hnd. unfold AddUniqueColToMap. destruct (map_get cm p) as [l|] eqn:E; intros [= <- <-].
  - apply map_get_Some in E; [|done].
    destruct (in_map_set cm p l (add_unique l x) x Hnd E) as [H1 H2]; [intros y; apply elem_of_add_unique|].
    split_and!; [done..|]. rewrite negb_true_iff, bool_decide_eq_false. split.
    + intros Hn (l' & Hc & Hx). apply (map_get_Some cm p l Hnd) in E. apply (map_get_Some cm p l' Hnd) in Hc.
      assert (l' = l) by congruence. by subst.
    + intros Hn Hx. apply Hn. exists l. done.
  - apply map_get_None in E. destruct (in_map_app cm p x Hnd E) as [H1 H2]. split_and!; [done..|].
    split; [|done]. intros _ (l & Hc & _). apply E. by apply (list_elem_of_fmap_2 fst) in Hc.
Qed.

(** The columns that a strategy lists for a cache. *)
Definition listed (cpc : Z * list NoDBColumnsPerCache_t) (p x : Z) : Prop :=
  exists e l, e ∈ cpc.2 /\ pc_cache e = p /\ pc_cols e = col_vector l /\ x ∈ l.

Lemma SetColsPerCache_listed cm p x : listed (SetColsPerCache cm) p x <-> in_map cm p x.
Proof.
  unfold listed, in_map, SetColsPerCache. cbn [snd]. split.
  - intros (e & l & ([p0 l0] & -> & Hin)%list_elem_of_fmap & <- & E & Hx). cbn in *.
    exists l0. split; [done|]. unfold col_vector in E. injection E as _ E.
    apply (inj (fmap Some)) in E. by subst.
  - intros (l & Hin & Hx). eexists _, l. split_and!; [apply list_elem_of_fmap; eexists; split; [done|exact Hin]|done..].
Qed.

(** ** The lists of a row *)

(** The pointers of a node that its marks promise are there. *)
Definition node_ok nd : Prop :=
  (dataHit nd = CACHE_HIT \/ dataHit nd = CACHE_ADD -> is_Some (dataCache nd)) /\
  (pmHit nd = CACHE_ADD -> is_Some (pmCache nd)).

(** The value of the column is to be converted; its position is needed. *)
Definition needs_value (rb db : bool) nd : Prop :=
  rb = true /\ dataHit nd <> CACHE_HIT \/ db = true /\ dataHit nd = CACHE_ADD.
Definition needs_position (rb db pb : bool) nd : Prop :=
  needs_value rb db nd \/ pb = true /\ pmHit nd = CACHE_ADD.

Record state_ok s : Prop := {
  so_hit : NoDup (fs_hit s).*1; so_byValue : NoDup (fs_byValue s).*1; so_byRef : NoDup (fs_byRef s).*1;
  so_positions : NoDup (fs_positions s).*1; so_convert : NoDup (fs_convert s); so_collect : NoDup (fs_collect s) }.

(** One more column: what each list gains. *)
Record fill_gain (rel : NoDBRelation_t) nd (rb db pb : bool) (x v : Z) s s' : Prop := {
  fg_hit : forall p y, in_map (fs_hit s') p y <-> in_map (fs_hit s) p y \/
    (y = x /\ rb = true /\ dataHit nd = CACHE_HIT /\ dataCache nd = Some p);
  fg_byValue : forall p y, in_map (fs_byValue s') p y <-> in_map (fs_byValue s) p y \/
    (y = x /\ db = true /\ dataHit nd = CACHE_ADD /\ dataCache nd = Some p /\ NoDBRelationIsColumnByValue rel x = Ok true);
  fg_byRef : forall p y, in_map (fs_byRef s') p y <-> in_map (fs_byRef s) p y \/
    (y = x /\ db = true /\ dataHit nd = CACHE_ADD /\ dataCache nd = Some p /\ NoDBRelationIsColumnByValue rel x = Ok false);
  fg_positions : forall p y, in_map (fs_positions s') p y <-> in_map (fs_positions s) p y \/
    (y = x /\ pb = true /\ pmHit nd = CACHE_ADD /\ pmCache nd = Some p);
  fg_convert : forall y, y ∈ fs_convert s' <-> y ∈ fs_convert s \/ (y = x /\ needs_value rb db nd);
  fg_collect : forall y, y ∈ fs_collect s' <-> y ∈ fs_collect s \/ (y = v /\ needs_position rb db pb nd) }.

Lemma fill_gain_none rel nd x v s : fill_gain rel nd false false false x v s s.
Proof.
  split; intros; (split; [by left|]); (intros [?|H]; [done|]); unfold needs_position, needs_value in *;
    exfalso; intuition discriminate.
Qed.

(** Three steps, each for one bit. *)
Lemma fill_gain_trans rel nd rb db pb x v s1 s2 s3 s4 :
  fill_gain rel nd rb false false x v s1 s2 -> fill_gain rel nd false db false x v s2 s3 ->
  fill_gain rel nd false false pb x v s3 s4 -> fill_gain rel nd rb db pb x v s1 s4.
Proof.
  intros G1 G2 G3. split.
  - intros p y. rewrite (fg_hit _ _ _ _ _ _ _ _ _ G3), (fg_hit _ _ _ _ _ _ _ _ _ G2), (fg_hit _ _ _ _ _ _ _ _ _ G1).
    intuition discriminate.
  - intros p y. rewrite (fg_byValue _ _ _ _ _ _ _ _ _ G3), (fg_byValue _ _ _ _ _ _ _ _ _ G2), (fg_byValue _ _ _ _ _ _ _ _ _ G1).
    intuition discriminate.
  - intros p y. rewrite (fg_byRef _ _ _ _ _ _ _ _ _ G3), (fg_byRef _ _ _ _ _ _ _ _ _ G2), (fg_byRef _ _ _ _ _ _ _ _ _ G1).
    intuition discriminate.
  - intros p y. rewrite (fg_positions _ _ _ _ _ _ _ _ _ G3), (fg_positions _ _ _ _ _ _ _ _ _ G2), (fg_positions _ _ _ _ _ _ _ _ _ G1).
    intuition discriminate.
  - intros y. rewrite (fg_convert _ _ _ _ _ _ _ _ _ G3), (fg_convert _ _ _ _ _ _ _ _ _ G2), (fg_convert _ _ _ _ _ _ _ _ _ G1).
    unfold needs_value. intuition discriminate.
  - intros y. rewrite (fg_collect _ _ _ _ _ _ _ _ _ G3), (fg_collect _ _ _ _ _ _ _ _ _ G2), (fg_collect _ _ _ _ _ _ _ _ _ G1).
    unfold needs_position, needs_value. intuition discriminate.
Qed.

Ltac gain := split; cbn [fs_hit fs_byValue fs_byRef fs_convert fs_collect fs_positions set_hit set_byValue set_byRef
  add_convert add_collect set_positions]; intros; rewrite ?elem_of_add_unique;
  unfold needs_position, needs_value; intuition (discriminate || congruence).

Lemma fill_read_spec rel nd x v s : state_ok s -> node_ok nd ->
  exists s', fill_read nd x v s = Ok s' /\ state_ok s' /\ fill_gain rel nd true false false x v s s'.
Proof.
  intros [S1 S2 S3 S4 S5 S6] [Hd _]. unfold fill_read. destruct (decide (dataHit nd = CACHE_HIT)) as [Hh|Hh].
  - destruct Hd as [p Ep]; [by left|]. rewrite Ep. cbn [written mbind result_bind]. eexists. split; [done|].
    destruct (AddColToMap_spec (fs_hit s) p x S1) as [Hn Hi]. split; [by split|].
    split; cbn [fs_hit fs_byValue fs_byRef fs_convert fs_collect fs_positions set_hit]; intros.
    + rewrite Hi. intuition congruence.
    + intuition discriminate.
    + intuition discriminate.
    + intuition discriminate.
    + unfold needs_value. intuition discriminate.
    + unfold needs_position, needs_value. intuition discriminate.
  - eexists. split; [done|]. split; [split; cbn; auto using NoDup_add_unique|]. gain.
Qed.

Lemma fill_data_spec rel nd x v s b : state_ok s -> node_ok nd -> NoDBRelationIsColumnByValue rel x = Ok b ->
  dataHit nd = CACHE_ADD ->
  exists s', fill_data rel nd x v s = Ok s' /\ state_ok s' /\ fill_gain rel nd false true false x v s s'.
Proof.
  intros [S1 S2 S3 S4 S5 S6] [Hd _] Hb Ha. unfold fill_data. rewrite Hb. cbn [mbind result_bind].
  destruct Hd as [p Ep]; [by right|]. rewrite Ep. cbn [written mbind result_bind]. destruct b.
  - destruct (AddColToMap_spec (fs_byValue s) p x S2) as [Hn Hi]. eexists. split; [done|].
    split; [split; cbn; auto using NoDup_add_unique|].
    split; cbn [fs_hit fs_byValue fs_byRef fs_convert fs_collect fs_positions set_byValue add_convert add_collect]; intros;
      rewrite ?Hi, ?elem_of_add_unique; unfold needs_position, needs_value; intuition (discriminate || congruence).
  - destruct (AddColToMap_spec (fs_byRef s) p x S3) as [Hn Hi]. eexists. split; [done|].
    split; [split; cbn; auto using NoDup_add_unique|].
    split; cbn [fs_hit fs_byValue fs_byRef fs_convert fs_collect fs_positions set_byRef add_convert add_collect]; intros;
      rewrite ?Hi, ?elem_of_add_unique; unfold needs_position, needs_value; intuition (discriminate || congruence).
Qed.

Lemma fill_position_spec rel nd x v s : state_ok s -> node_ok nd -> pmHit nd = CACHE_ADD ->
  exists s', fill_position nd x v s = Ok s' /\ state_ok s' /\ fill_gain rel nd false false true x v s s'.
Proof.
  intros [S1 S2 S3 S4 S5 S6] [_ Hp] Ha. unfold fill_position. destruct Hp as [p Ep]; [done|]. rewrite Ep.
  cbn [written mbind result_bind]. destruct (AddColToMap_spec (fs_positions s) p x S4) as [Hn Hi]. eexists. split; [done|].
  split; [split; cbn; auto using NoDup_add_unique|].
  split; cbn [fs_hit fs_byValue fs_byRef fs_convert fs_collect fs_positions set_positions add_collect]; intros;
    rewrite ?Hi, ?elem_of_add_unique; unfold needs_position, needs_value; intuition (discriminate || congruence).
Qed.

Lemma fill_gain_skip rel nd (b1 b2 b3 : bool) x v s :
  b1 = false -> (b2 = true -> dataHit nd <> CACHE_ADD) -> (b3 = true -> pmHit nd <> CACHE_ADD) ->
  fill_gain rel nd b1 b2 b3 x v s s.
Proof.
  intros -> H2 H3. split; intros; (split; [by left|]); (intros [?|H]; [done|]); unfold needs_position, needs_value in *;
    exfalso; intuition discriminate.
Qed.

Lemma fill_col_spec rel nd rb db pb x v s b : state_ok s -> node_ok nd -> NoDBRelationIsColumnByValue rel x = Ok b ->
  exists s', fill_col rel nd rb db pb x v s = Ok s' /\ state_ok s' /\ fill_gain rel nd rb db pb x v s s'.
Proof.
  intros Hs Hn Hb. unfold fill_col.
  assert (exists s1, (if rb then fill_read nd x v s else Ok s) = Ok s1 /\ state_ok s1 /\
    fill_gain rel nd rb false false x v s s1) as (s1 & -> & Hs1 & G1).
  { destruct rb; [by apply fill_read_spec|]. exists s. split_and!; [done..|apply fill_gain_none]. }
  cbn [mbind result_bind].
  assert (exists s2, (if db && bool_decide (dataHit nd = CACHE_ADD) then fill_data rel nd x v s1 else Ok s1) = Ok s2 /\
    state_ok s2 /\ fill_gain rel nd false db false x v s1 s2) as (s2 & -> & Hs2 & G2).
  { destruct db; cbn [andb]; [case_bool_decide|]; [by eapply fill_data_spec| |];
      (exists s1; split_and!; [done..|by apply fill_gain_skip]). }
  cbn [mbind result_bind].
  assert (exists s3, (if pb && bool_decide (pmHit nd = CACHE_ADD) then fill_position nd x v s2 else Ok s2) = Ok s3 /\
    state_ok s3 /\ fill_gain rel nd false false pb x v s2 s3) as (s3 & -> & Hs3 & G3).
  { destruct pb; cbn [andb]; [case_bool_decide|]; [by eapply fill_position_spec| |];
      (exists s2; split_and!; [done..|by apply fill_gain_skip]). }
  exists s3. split_and!; [done..|]. by eapply fill_gain_trans.
Qed.

Section fill.
Context (q : NoDBQueryInfo_t) (cs rs : list Z) (wd wp : list bool) (Hq : query_ok q cs rs wd wp).
Context (m : matrix) (r : nat).

Abbreviation ncols := (length cs).
Abbreviation nranges := (length rs - 1)%nat.
Abbreviation col := (col_at cs).
Definition bit_at (l : list bool) (k : nat) : bool := default false (l !! k).

(** The lists after the first [n] columns. *)
Record fill_result (rb db pb : list bool) (val : nat -> Z) (n : nat) s : Prop := {
  fr_ok : state_ok s;
  fr_hit : forall p y, in_map (fs_hit s) p y <-> exists k, (k < n)%nat /\ y = col k /\ bit_at rb k = true /\
    dataHit (cell m r k) = CACHE_HIT /\ dataCache (cell m r k) = Some p;
  fr_byValue : forall p y, in_map (fs_byValue s) p y <-> exists k, (k < n)%nat /\ y = col k /\ bit_at db k = true /\
    dataHit (cell m r k) = CACHE_ADD /\ dataCache (cell m r k) = Some p /\
    NoDBRelationIsColumnByValue (q_rel q) (col k) = Ok true;
  fr_byRef : forall p y, in_map (fs_byRef s) p y <-> exists k, (k < n)%nat /\ y = col k /\ bit_at db k = true /\
    dataHit (cell m r k) = CACHE_ADD /\ dataCache (cell m r k) = Some p /\
    NoDBRelationIsColumnByValue (q_rel q) (col k) = Ok false;
  fr_positions : forall p y, in_map (fs_positions s) p y <-> exists k, (k < n)%nat /\ y = col k /\ bit_at pb k = true /\
    pmHit (cell m r k) = CACHE_ADD /\ pmCache (cell m r k) = Some p;
  fr_convert : forall y, y ∈ fs_convert s <-> exists k, (k < n)%nat /\ y = col k /\
    needs_value (bit_at rb k) (bit_at db k) (cell m r k);
  fr_collect : forall y, y ∈ fs_collect s <-> exists k, (k < n)%nat /\ y = val k /\
    needs_position (bit_at rb k) (bit_at db k) (bit_at pb k) (cell m r k) }.

Lemma exists_S (P : nat -> Prop) n : (exists k, (k < S n)%nat /\ P k) <-> (exists k, (k < n)%nat /\ P k) \/ P n.
Proof.
  split.
  - intros (k & Hk & HP). destruct (decide (k = n)) as [->|]; [by right|left]. exists k. split; [lia|done].
  - intros [(k & Hk & HP)|HP]; [exists k|exists n]; split; done || lia.
Qed.

Lemma by_value_bit k : (k < ncols)%nat -> exists b, NoDBRelationIsColumnByValue (q_rel q) (col k) = Ok b.
Proof.
  intros Hk. destruct (qo_size _ _ _ _ _ Hq (col k) (col_in _ _ Hk)) as (size & E & _).
  unfold NoDBRelationGetColumnSize, NoDBRelationIsColumnByValue in *.
  destruct (arr_get (rel_attrs (q_rel q)) (col k)); [eexists; done|done].
Qed.

Lemma is_set_bit l k : length l = ncols -> (k < ncols)%nat ->
  NoDBBitmapIsSet (bitmap_of l) (Z.of_nat k) = Ok (bit_at l k).
Proof. intros Hl Hk. rewrite NoDBBitmapIsSet_spec by lia. by rewrite Nat2Z.id. Qed.

Lemma fill_cols_spec rb db pb val :
  mat_dims cs rs m -> (r < nranges)%nat -> (forall k, (k < ncols)%nat -> node_ok (cell m r k)) ->
  length rb = ncols -> length db = ncols -> length pb = ncols ->
  exists s, fill_cols m (Z.of_nat r) (q_rel q) (q_cols q) (bitmap_of rb) (bitmap_of db) (bitmap_of pb) val = Ok s /\
    fill_result rb db pb (fun k => val (Z.of_nat k) (col k)) ncols s.
Proof.
  intros Hd Hr Hok Hrb Hdb Hpb. unfold fill_cols.
  assert (NoDBColVectorSize (q_cols q) = Z.of_nat ncols) as -> by (rewrite (qo_cols _ _ _ _ _ Hq); done).
  apply (for_nat_inv (fill_result rb db pb (fun k => val (Z.of_nat k) (col k)))).
  - split; [split; constructor|..]; cbn; intros; (split; [|intros (k & ? & _); lia]).
    1-4: intros (l & Hc & _); by apply elem_of_nil in Hc. all: intros H; by apply elem_of_nil in H.
  - intros k s Hk [F0 F1 F2 F3 F4 F5 F6]. rewrite (get_col q cs) by (done || apply Hq). cbn [mbind result_bind].
    destruct (mat_get_cell cs rs m r k Hd) as [-> _]; [lia|done|]. cbn [mbind result_bind].
    rewrite !is_set_bit by done. cbn [mbind result_bind].
    destruct (by_value_bit k Hk) as [b Hb].
    destruct (fill_col_spec (q_rel q) (cell m r k) (bit_at rb k) (bit_at db k) (bit_at pb k) (col k)
      (val (Z.of_nat k) (col k)) s b F0 (Hok k Hk) Hb) as (s' & -> & Hs' & G).
    exists s'. split; [done|]. split; [done|..].
    + intros p y. rewrite (fg_hit _ _ _ _ _ _ _ _ _ G), F1, exists_S. tauto.
    + intros p y. rewrite (fg_byValue _ _ _ _ _ _ _ _ _ G), F2, exists_S. tauto.
    + intros p y. rewrite (fg_byRef _ _ _ _ _ _ _ _ _ G), F3, exists_S. tauto.
    + intros p y. rewrite (fg_positions _ _ _ _ _ _ _ _ _ G), F4, exists_S. tauto.
    + intros y. rewrite (fg_convert _ _ _ _ _ _ _ _ _ G), F5, exists_S. tauto.
    + intros y. rewrite (fg_collect _ _ _ _ _ _ _ _ _ G), F6, exists_S. tauto.
Qed.

Lemma pm_available_spec : mat_dims cs rs m -> (r < nranges)%nat ->
  exists b, pm_available m (Z.of_nat r) (q_cols q) = Ok b /\
    (b = true <-> exists k, (k < ncols)%nat /\ closestPMCache (cell m r k) <> 0).
Proof.
  intros Hd Hr. unfold pm_available.
  assert (NoDBColVectorSize (q_cols q) = Z.of_nat ncols) as -> by (rewrite (qo_cols _ _ _ _ _ Hq); done).
  destruct (search_range_pure 0 (Z.of_nat ncols) (fun colIdx => nd ← mat_get m (Z.of_nat r) colIdx;
      Ok (if closestPMCache nd =? 0 then None else Some true))
    (fun i => if closestPMCache (cell m r (Z.to_nat i)) =? 0 then None else Some true) false)
    as [(i & b & Hi & Hg & _ & ->)|(Hno & ->)].
  - intros i Hi. destruct (mat_get_cell cs rs m r (Z.to_nat i) Hd) as [E _]; [lia|lia|].
    rewrite Z2Nat.id in E by lia. by rewrite E.
  - exists b. split; [done|]. destruct (Z.eqb_spec (closestPMCache (cell m r (Z.to_nat i))) 0); [done|]. simplify_eq.
    split; [|done]. intros _. exists (Z.to_nat i). split; [lia|done].
  - exists false. split; [done|]. split; [done|]. intros (k & Hk & Hne). specialize (Hno (Z.of_nat k)).
    rewrite Nat2Z.id in Hno. destruct (Z.eqb_spec (closestPMCache (cell m r k)) 0); [done|]. specialize (Hno ltac:(lia)). done.
Qed.

(** ** Reading through positional maps *)
Abbreviation nrel := (NoDBRelationGetNumberColumns (q_rel q)).
Definition cc_of (k : nat) : Z := default 0 (closestColumn (cell m r k)).
Definition via_cell (k : nat) : Prop :=
  closestColumn (cell m r k) = Some (cc_of k) /\ distance (cell m r k) = Some (col k - cc_of k) /\
  closestPMCache (cell m r k) <> 0 /\ 0 <= cc_of k < nrel.

(** The distances recorded for the columns of [K]. *)
Definition cd_ok (K : nat -> Prop) (cc : Z) (cd : ColDistance_t) : Prop :=
  (cd_cache cd = 0 /\ forwardDistance cd = 0 /\ backwardDistance cd = 0 /\ forall k, K k -> cc_of k <> cc) \/
  ((exists k, K k /\ cc_of k = cc /\ cd_cache cd = closestPMCache (cell m r k) /\ cd_cache cd <> 0) /\
   backwardDistance cd <= 0 <= forwardDistance cd /\
   forall k, K k -> cc_of k = cc -> backwardDistance cd <= col k - cc <= forwardDistance cd).

Definition dist_ok (K : nat -> Prop) (cds : arr ColDistance_t) : Prop :=
  Z.of_nat (length cds) = nrel /\ forall cc, 0 <= cc < nrel -> exists cd, arr_get cds cc = Ok cd /\ cd_ok K cc cd.

Definition seen_ok (K : nat -> Prop) (seen : list Z) : Prop :=
  NoDup seen /\ forall cc, cc ∈ seen <-> exists k, K k /\ cc_of k = cc.

Lemma cd_ok_step (K : nat -> Prop) k cd : via_cell k -> cd_ok K (cc_of k) cd ->
  cd_ok (fun k' => K k' \/ k' = k) (cc_of k) (distance_step (cell m r k) cd (col k - cc_of k)).
Proof.
  intros (_ & _ & Hne & _) Hcd. unfold distance_step.
  assert (Hnew : exists k0, (K k0 \/ k0 = k) /\ cc_of k0 = cc_of k /\
    closestPMCache (cell m r k) = closestPMCache (cell m r k0) /\ closestPMCache (cell m r k) <> 0).
  { exists k. split_and!; [by right|done..]. }
  destruct Hcd as [(Hc & Hf & Hb & Hno)|((k0 & HK0 & Hcc0 & Hc0 & Hcn) & Hsgn & Hall)].
  - assert (Hempty : forall k', K k' \/ k' = k -> cc_of k' = cc_of k -> k' = k).
    { intros k' [HK| ->] E; [|done]. by apply Hno in HK. }
    rewrite Hc. cbn [Z.eqb orb]. destruct (Z.leb_spec 0 (col k - cc_of k)); right; cbn.
    + split_and!; [done|lia|lia|]. intros k' HK E. rewrite (Hempty k' HK E). lia.
    + rewrite Hb. destruct (Z.ltb_spec (col k - cc_of k) 0); [|lia]. cbn.
      split_and!; [done|lia|lia|]. intros k' HK E. rewrite (Hempty k' HK E). lia.
  - assert (Hold : exists k1, (K k1 \/ k1 = k) /\ cc_of k1 = cc_of k /\ cd_cache cd = closestPMCache (cell m r k1) /\
      cd_cache cd <> 0) by (exists k0; split_and!; [by left|done..]).
    destruct (Z.eqb_spec (cd_cache cd) 0) as [?|_]; [done|]. cbn [orb]. right.
    destruct (Z.leb_spec 0 (col k - cc_of k)).
    + destruct (Z.ltb_spec (forwardDistance cd) (col k - cc_of k)); cbn; (split_and!; [done|lia|lia|]);
        intros k' [HK| ->] E; try lia; specialize (Hall k' HK E); lia.
    + destruct (Z.ltb_spec (col k - cc_of k) (backwardDistance cd)); cbn; (split_and!; [done|lia|lia|]);
        intros k' [HK| ->] E; try lia; specialize (Hall k' HK E); lia.
Qed.

Lemma cd_ok_other (K : nat -> Prop) k cc cd : cc_of k <> cc -> cd_ok K cc cd -> cd_ok (fun k' => K k' \/ k' = k) cc cd.
Proof.
  intros Hne [(Hc & Hf & Hb & Hno)|((k0 & HK0 & Hcc0 & Hc0 & Hc1) & Hsgn & Hall)]; [left|right]; split_and!; try done.
  - intros k' [HK| ->]; [by apply Hno|done].
  - exists k0. split_and!; [by left|done..].
  - apply Hsgn.
  - apply Hsgn.
  - intros k' [HK| ->] E; [by apply Hall|done].
Qed.

Lemma cd_ok_iff (K K' : nat -> Prop) cc cd : (forall k, K k <-> K' k) -> cd_ok K cc cd -> cd_ok K' cc cd.
Proof.
  intros H [(Hc & Hf & Hb & Hno)|((k0 & HK0 & Hcc0) & Hsgn & Hall)]; [left|right].
  - split_and!; try done. intros k HK%H. by apply Hno.
  - split_and!; [exists k0; split; [by apply H|done]|apply Hsgn|apply Hsgn|]. intros k HK%H. by apply Hall.
Qed.

Definition via_list (l : list Z) : Prop := forall v, v ∈ l -> exists k, (k < ncols)%nat /\ v = Z.of_nat k /\ via_cell k.

Lemma find_distances_spec l : forall (K : nat -> Prop) cds n seen,
  mat_dims cs rs m -> (r < nranges)%nat -> via_list l -> dist_ok K cds -> seen_ok K seen -> n = Z.of_nat (length seen) ->
  exists cds' seen', find_distances m (Z.of_nat r) l cds n = Ok (cds', Z.of_nat (length seen')) /\
    dist_ok (fun k => K k \/ Z.of_nat k ∈ l) cds' /\ seen_ok (fun k => K k \/ Z.of_nat k ∈ l) seen'.
Proof.
  induction l as [|v l IH]; intros K cds n seen Hd Hr Hv Hdist Hseen ->; cbn [find_distances].
  - exists cds, seen. split_and!; [done| |].
    + destruct Hdist as [Hlen Hcd]. split; [done|]. intros cc Hcc. destruct (Hcd cc Hcc) as (cd & E & Hok). exists cd.
      split; [done|]. eapply cd_ok_iff; [|done]. intros k. rewrite elem_of_nil. tauto.
    + destruct Hseen as [Hnd Hin]. split; [done|]. intros cc. rewrite Hin. setoid_rewrite elem_of_nil. naive_solver.
  - destruct (Hv v) as (k & Hk & -> & Hvia); [by left|]. pose proof Hvia as (Ecc & Edist & Hne & Hrange).
    destruct (mat_get_cell cs rs m r k Hd) as [-> _]; [lia|done|]. cbn [mbind result_bind].
    rewrite Ecc. cbn [written mbind result_bind]. destruct Hdist as [Hlen Hcd].
    destruct (Hcd (cc_of k) Hrange) as (cd & Ecd & Hok). rewrite Ecd, Edist. cbn [written mbind result_bind].
    rewrite arr_set_Ok by lia. cbn [mbind result_bind].
    set (cds1 := <[Z.to_nat (cc_of k) := Some (distance_step (cell m r k) cd (col k - cc_of k))]> cds).
    destruct (IH (fun k' => K k' \/ k' = k) cds1 (if cd_cache cd =? 0 then Z.of_nat (length seen) + 1 else Z.of_nat (length seen))
      (if cd_cache cd =? 0 then cc_of k :: seen else seen)) as (cds' & seen' & -> & Hd' & Hs'); [done|done| | | | |].
    + intros v' Hv'. apply Hv. by right.
    + split; [unfold cds1; by rewrite length_insert|]. intros cc Hcc. unfold cds1.
      destruct (decide (cc = cc_of k)) as [->|Hcne].
      * eexists. split; [|by apply cd_ok_step]. apply arr_get_lookup. split; [lia|]. apply list_lookup_insert_eq. lia.
      * destruct (Hcd cc Hcc) as (cd' & E' & Hok'). exists cd'. split; [|apply cd_ok_other; [congruence|done]].
        apply arr_get_lookup in E' as [? E']. apply arr_get_lookup. split; [lia|]. by rewrite list_lookup_insert_ne by lia.
    + destruct Hseen as [Hnd Hin]. destruct Hok as [(Hc & _ & _ & Hno)|((k0 & HK0 & Hcc0 & Hc0 & Hcn) & _)].
      * rewrite Hc. cbn [Z.eqb]. split.
        -- apply NoDup_cons. split; [|done]. intros (k0 & HK0 & E0)%Hin. by apply (Hno k0).
        -- intros cc. rewrite elem_of_cons, Hin. split.
           ++ intros [->|(k0 & ? & ?)]; [exists k|exists k0]; tauto.
           ++ intros (k0 & [HK0| ->] & <-); [right; eauto|by left].
      * destruct (Z.eqb_spec (cd_cache cd) 0) as [?|_]; [done|]. split; [done|]. intros cc. rewrite Hin. split.
        -- intros (k1 & ? & ?). exists k1. tauto.
        -- intros (k1 & [HK1| ->] & <-); [eauto|]. exists k0. done.
    + destruct (cd_cache cd =? 0); [|done]. cbn [length]. lia.
    + exists cds', seen'. split; [done|].
      assert (Hiff : forall k', (K k' \/ k' = k) \/ Z.of_nat k' ∈ l <-> K k' \/ Z.of_nat k' ∈ Z.of_nat k :: l).
      { intros k'. rewrite elem_of_cons. assert (Z.of_nat k' = Z.of_nat k <-> k' = k) by lia. tauto. }
      split.
      * destruct Hd' as [Hl' Hd']. split; [done|]. intros cc Hcc. destruct (Hd' cc Hcc) as (cd' & E' & Hok'). exists cd'.
        split; [done|]. eapply cd_ok_iff; [|exact Hok']. exact Hiff.
      * destruct Hs' as [Hn' Hs']. split; [done|]. intros cc. rewrite Hs'. by setoid_rewrite Hiff.
Qed.

(** The entry that step 2 makes for a closest column. *)
Definition cd_at (cds : arr ColDistance_t) (cc : Z) : ColDistance_t :=
  match arr_get cds cc with
  | Ok cd => cd
  | Fail _ => {| forwardDistance := 0; backwardDistance := 0; cd_cache := 0 |}
  end.
Definition via_entry (cds : arr ColDistance_t) (cc : Z) : NoDBReadViaPM_t :=
  {| via_col := cc; via_forward := forwardDistance (cd_at cds cc); via_backward := backwardDistance (cd_at cds cc) |}.

Record via_state (cds : arr ColDistance_t) (all seen : list Z) cm (via : arr NoDBReadViaPM_t) : Prop := {
  vs_keys : NoDup cm.*1;
  vs_map : forall p x, in_map cm p x <-> x ∈ seen /\ p = cd_cache (cd_at cds x);
  vs_nodup : NoDup seen;
  vs_sub : forall x, x ∈ seen -> x ∈ all;
  vs_via : exists t, via = (Some <$> (via_entry cds <$> seen)) ++ t /\ (length seen + length t = length all)%nat }.

Lemma NoDup_sub_lt (seen all : list Z) x :
  NoDup seen -> (forall y, y ∈ seen -> y ∈ all) -> x ∈ all -> x ∉ seen -> (length seen < length all)%nat.
Proof.
  intros Hn Hs Hx Hnx. apply (submseteq_length (x :: seen) all), NoDup_submseteq; [by apply NoDup_cons|].
  intros y [->|Hy]%elem_of_cons; auto.
Qed.

Lemma read_via_spec (K : nat -> Prop) cds all l : forall seen cm via,
  mat_dims cs rs m -> (r < nranges)%nat -> via_list l -> dist_ok K cds ->
  (forall k, Z.of_nat k ∈ l -> cc_of k ∈ all) -> via_state cds all seen cm via ->
  exists cm' via' seen', read_via m (Z.of_nat r) l cds cm via (Z.of_nat (length seen)) = Ok (cm', via') /\
    via_state cds all seen' cm' via' /\
    forall x, x ∈ seen' <-> x ∈ seen \/ exists k, Z.of_nat k ∈ l /\ cc_of k = x.
Proof.
  induction l as [|v l IH]; intros seen cm via Hd Hr Hv Hdist Hall Hvs; cbn [read_via].
  - exists cm, via, seen. split_and!; [done..|]. intros x. setoid_rewrite elem_of_nil. naive_solver.
  - destruct (Hv v) as (k & Hk & -> & Hvia); [by left|]. pose proof Hvia as (Ecc & _ & _ & Hrange).
    destruct (mat_get_cell cs rs m r k Hd) as [-> _]; [lia|done|]. cbn [mbind result_bind].
    rewrite Ecc. cbn [written mbind result_bind]. destruct (proj2 Hdist (cc_of k) Hrange) as (cd & Ecd & _). rewrite Ecd.
    assert (Hcd : cd_at cds (cc_of k) = cd) by (unfold cd_at; by rewrite Ecd).
    cbn [mbind result_bind]. destruct (AddUniqueColToMap cm (cd_cache cd) (cc_of k)) as [cm' b] eqn:Eadd.
    destruct Hvs as [V1 V2 V3 V4 (t & -> & Hlen)].
    destruct (AddUniqueColToMap_spec _ _ _ _ _ V1 Eadd) as (A1 & A2 & A3).
    assert (Hb : b = true <-> cc_of k ∉ seen).
    { rewrite A3, V2, Hcd. tauto. }
    assert (Hv' : via_list l) by (intros v' Hv'; apply Hv; by right).
    assert (Hall' : forall k0, Z.of_nat k0 ∈ l -> cc_of k0 ∈ all) by (intros; apply Hall; by right).
    assert (Hkall : cc_of k ∈ all) by (apply Hall; by left).
    assert (Hiff : forall (seen' : list Z) x, (forall y, y ∈ seen' <-> y = cc_of k \/ y ∈ seen) ->
      (x ∈ seen' \/ (exists k0, Z.of_nat k0 ∈ l /\ cc_of k0 = x)) <->
      (x ∈ seen \/ exists k0, Z.of_nat k0 ∈ Z.of_nat k :: l /\ cc_of k0 = x)).
    { intros seen' x Hs'. rewrite Hs'. setoid_rewrite elem_of_cons. split.
      - intros [[->|?]|(k0 & ? & ?)]; [right; exists k|left|right; exists k0]; auto.
      - intros [?|(k0 & [E|?] & <-)]; [auto| |eauto]. assert (k0 = k) as -> by lia. auto. }
    destruct b.
    + assert (Hnew : cc_of k ∉ seen) by by apply Hb. pose proof (NoDup_sub_lt seen all (cc_of k) V3 V4 Hkall Hnew).
      destruct (arr_set_cell (via_entry cds <$> seen) t (via_entry cds (cc_of k))) as (t' & E & Ht); [lia|].
      assert (Hent : via_entry cds (cc_of k) = {| via_col := cc_of k; via_forward := forwardDistance cd;
        via_backward := backwardDistance cd |}) by (unfold via_entry; by rewrite Hcd).
      rewrite <- Hent. rewrite length_fmap in E. rewrite E. cbn [mbind result_bind].
      replace (Z.of_nat (length seen) + 1) with (Z.of_nat (length (seen ++ [cc_of k]))) by (rewrite length_app; simpl; lia).
      replace ((via_entry cds <$> seen) ++ [via_entry cds (cc_of k)]) with (via_entry cds <$> (seen ++ [cc_of k]))
        by by rewrite fmap_app.
      destruct (IH (seen ++ [cc_of k]) cm' ((Some <$> (via_entry cds <$> (seen ++ [cc_of k]))) ++ t'))
        as (cm'' & via'' & seen'' & -> & Hvs'' & Hs''); [done..| |].
      { split; [done| | | |].
        - intros p x. rewrite A2, V2, elem_of_app, list_elem_of_singleton, <- Hcd. naive_solver.
        - apply NoDup_app. split_and!; [done| |apply NoDup_singleton]. intros y Hy ->%list_elem_of_singleton. done.
        - intros x [?| ->%list_elem_of_singleton]%elem_of_app; auto.
        - exists t'. split; [done|]. rewrite length_app. simpl. lia. }
      exists cm'', via'', seen''. split_and!; [done..|]. intros x. rewrite Hs''. apply Hiff.
      intros y. rewrite elem_of_app, list_elem_of_singleton. tauto.
    + assert (Hold : cc_of k ∈ seen). { destruct (decide (cc_of k ∈ seen)) as [|Hn]; [done|]. by apply Hb in Hn. }
      destruct (IH seen cm' ((Some <$> (via_entry cds <$> seen)) ++ t)) as (cm'' & via'' & seen'' & -> & Hvs'' & Hs''); [done..| |].
      { split; [done| |done|done|by exists t]. intros p x. rewrite A2, V2, <- Hcd. naive_solver. }
      exists cm'', via'', seen''. split_and!; [done..|]. intros x. rewrite Hs''. apply Hiff.
      intros y. split; [auto|]. by intros [->|?].
Qed.

(** ** The reply *)

(** Where [FillRow] says the position of a column comes from: the file, or the
    fields between a position of a map and the column. *)
Definition from_pm (rep : FillRowReply_t) (x : Z) : Prop :=
  exists e p, Some e ∈ readViaPM rep /\ via_backward e <= x - via_col e <= via_forward e /\
    in_map (mapReadFromPM rep) p (via_col e).

Record reply_ok (rb db pb : list bool) (rep : FillRowReply_t) : Prop := {
  ro_hit : forall p y, in_map (mapDataHit rep) p y <-> exists k, (k < ncols)%nat /\ y = col k /\ bit_at rb k = true /\
    dataHit (cell m r k) = CACHE_HIT /\ dataCache (cell m r k) = Some p;
  ro_byValue : forall p y, in_map (mapDataAddByValue rep) p y <-> exists k, (k < ncols)%nat /\ y = col k /\ bit_at db k = true /\
    dataHit (cell m r k) = CACHE_ADD /\ dataCache (cell m r k) = Some p /\
    NoDBRelationIsColumnByValue (q_rel q) (col k) = Ok true;
  ro_byRef : forall p y, in_map (mapDataAddByRef rep) p y <-> exists k, (k < ncols)%nat /\ y = col k /\ bit_at db k = true /\
    dataHit (cell m r k) = CACHE_ADD /\ dataCache (cell m r k) = Some p /\
    NoDBRelationIsColumnByValue (q_rel q) (col k) = Ok false;
  ro_positions : forall p y, in_map (mapPositionsAdd rep) p y <-> exists k, (k < ncols)%nat /\ y = col k /\ bit_at pb k = true /\
    pmHit (cell m r k) = CACHE_ADD /\ pmCache (cell m r k) = Some p;
  ro_convert : forall y, y ∈ convert rep <-> exists k, (k < ncols)%nat /\ y = col k /\
    needs_value (bit_at rb k) (bit_at db k) (cell m r k);
  ro_position : forall k, (k < ncols)%nat -> needs_position (bit_at rb k) (bit_at db k) (bit_at pb k) (cell m r k) ->
    (closestPMCache (cell m r k) = 0 -> col k ∈ collectFromFile rep) /\
    (closestPMCache (cell m r k) <> 0 -> from_pm rep (col k));
  ro_file : forall y, y ∈ collectFromFile rep -> exists k, (k < ncols)%nat /\ y = col k /\
    needs_position (bit_at rb k) (bit_at db k) (bit_at pb k) (cell m r k) /\ closestPMCache (cell m r k) = 0;
  ro_maps : forall p x, in_map (mapReadFromPM rep) p x -> exists k, (k < ncols)%nat /\
    needs_position (bit_at rb k) (bit_at db k) (bit_at pb k) (cell m r k) /\
    p = closestPMCache (cell m r k) /\ p <> 0 /\ closestColumn (cell m r k) = Some x;
  ro_via : exists vias, readViaPM rep = Some <$> vias /\ nreadViaPM rep = Z.of_nat (length vias) /\ NoDup (via_col <$> vias) }.

Lemma FillRow_spec rb db pb :
  mat_dims cs rs m -> (r < nranges)%nat -> (forall k, (k < ncols)%nat -> node_ok (cell m r k)) ->
  (forall k, (k < ncols)%nat -> closestPMCache (cell m r k) <> 0 -> via_cell k) ->
  (forall k k', (k < ncols)%nat -> (k' < ncols)%nat -> closestPMCache (cell m r k) <> 0 -> closestPMCache (cell m r k') <> 0) ->
  0 <= nrel -> length rb = ncols -> length db = ncols -> length pb = ncols ->
  exists rep, FillRow m (Z.of_nat r) (q_rel q) (q_cols q) (bitmap_of rb) (bitmap_of db) (bitmap_of pb) = Ok rep /\
    reply_ok rb db pb rep.
Proof.
  intros Hd Hr Hok Hvia Huni Hnrel Hrb Hdb Hpb. unfold FillRow.
  destruct (pm_available_spec Hd Hr) as (b & -> & Hb). cbn [mbind result_bind]. destruct b; cbn [negb].
  - destruct (proj1 Hb eq_refl) as (k0 & Hk0 & Hne0).
    destruct (fill_cols_spec rb db pb (fun colIdx _ => colIdx) Hd Hr Hok Hrb Hdb Hpb) as (s & -> & [F0 F1 F2 F3 F4 F5 F6]).
    cbn [mbind result_bind]. rewrite arr_fill_all by (by apply length_arr_alloc). cbn [mbind result_bind].
    assert (Hl : via_list (fs_collect s)).
    { intros v (k & Hk & -> & _)%F6. exists k. split_and!; [done..|]. apply Hvia; [done|]. by apply (Huni k0). }
    destruct (find_distances_spec (fs_collect s) (fun _ => False)
      (Some <$> replicate (Z.to_nat nrel) {| forwardDistance := 0; backwardDistance := 0; cd_cache := 0 |}) 0 [])
      as (cds & all & -> & Hdist & Hall); [done|done|done| | |done|].
    { split; [rewrite length_fmap, length_replicate; lia|]. intros cc Hcc. eexists. split.
      - apply arr_get_holds; [lia|]. apply lookup_replicate_2. lia.
      - left. by split_and!. }
    { split; [constructor|]. intros cc. rewrite elem_of_nil. naive_solver. }
    cbn [mbind result_bind fst snd].
    destruct (read_via_spec _ cds all (fs_collect s) [] [] (arr_alloc (Z.of_nat (length all))) Hd Hr Hl Hdist)
      as (cm & via & seen & Eread & [V1 V2 V3 V4 (t & -> & Ht)] & Hseen).
    { intros k Hk. apply Hall. exists k. split; [by right|done]. }
    { split; [constructor| |constructor| |].
      - intros p x. rewrite elem_of_nil. unfold in_map. setoid_rewrite elem_of_nil. naive_solver.
      - intros x Hx. by apply elem_of_nil in Hx.
      - exists (arr_alloc (Z.of_nat (length all))). split; [done|]. unfold arr_alloc. rewrite length_replicate. simpl. lia. }
    change (Z.of_nat (length [])) with 0 in Eread. rewrite Eread. cbn [mbind result_bind fst snd].
    assert (Hsa : forall x, x ∈ all <-> x ∈ seen).
    { intros x. rewrite Hseen, elem_of_nil. rewrite (proj2 Hall). naive_solver. }
    assert (Hlen : length seen = length all).
    { apply Permutation_length, NoDup_Permutation; [done|apply Hall|]. intros x. by rewrite Hsa. }
    assert (t = []) as -> by (apply length_zero_iff_nil; lia). rewrite app_nil_r.
    assert (Hin : forall k, (k < ncols)%nat -> Z.of_nat k ∈ fs_collect s <->
      needs_position (bit_at rb k) (bit_at db k) (bit_at pb k) (cell m r k)).
    { intros k Hk. rewrite F6. split; [|by eauto]. intros (k' & Hk' & E & Hn). assert (k' = k) as -> by lia. done. }
    eexists. split; [done|]. split; cbn [mapDataHit mapDataAddByValue mapDataAddByRef mapPositionsAdd convert collectFromFile
      mapReadFromPM readViaPM nreadViaPM]; try done.
    + intros k Hk Hn. split; [intros E0; exfalso; by apply (Huni k0 k)|]. intros Hne.
      pose proof (Hvia k Hk Hne) as (_ & _ & _ & Hrange). destruct (proj2 Hdist (cc_of k) Hrange) as (cd & Ecd & Hcd).
      assert (Hat : cd_at cds (cc_of k) = cd) by (unfold cd_at; by rewrite Ecd).
      assert (Hs : cc_of k ∈ seen). { apply Hseen. right. exists k. split; [by apply Hin|done]. }
      exists (via_entry cds (cc_of k)), (cd_cache cd). cbn [via_entry via_col via_backward via_forward readViaPM mapReadFromPM].
      rewrite Hat. split_and!.
      * do 2 apply list_elem_of_fmap_2. done.
      * destruct Hcd as [(_ & _ & _ & Hno)|(_ & _ & Hcd)]; [by destruct (Hno k (or_intror (proj2 (Hin k Hk) Hn)))|].
        by apply (Hcd k (or_intror (proj2 (Hin k Hk) Hn))).
      * destruct Hcd as [(_ & _ & _ & Hno)|(_ & _ & Hcd)]; [by destruct (Hno k (or_intror (proj2 (Hin k Hk) Hn)))|].
        by apply (Hcd k (or_intror (proj2 (Hin k Hk) Hn))).
      * apply V2. by rewrite Hat.
    + intros y Hy. by apply elem_of_nil in Hy.
    + intros p x [Hx ->]%V2. apply Hseen in Hx as [Hx|(k1 & Hk1 & E1)]; [by apply elem_of_nil in Hx|].
      destruct (Hl _ Hk1) as (k2 & Hk2 & E2 & Hv2). assert (k2 = k1) as -> by lia. subst x.
      destruct (proj2 Hdist (cc_of k1) ltac:(apply Hv2)) as (cd & Ecd & Hcd).
      assert (Hat : cd_at cds (cc_of k1) = cd) by (unfold cd_at; by rewrite Ecd). rewrite Hat.
      destruct Hcd as [(_ & _ & _ & Hno)|((k & [[]|HK] & Hcc & Hc & Hcn) & _)]; [by destruct (Hno k1 (or_intror Hk1))|].
      destruct (Hl _ HK) as (k3 & Hk3 & E3 & (Hv3 & _)). assert (k3 = k) as -> by lia.
      exists k. split_and!; [done|by apply Hin|done|done|by rewrite Hv3, Hcc].
    + exists (via_entry cds <$> seen). split_and!; [done|by rewrite length_fmap, Hlen|].
      rewrite <- list_fmap_compose. by rewrite (list_fmap_ext _ id), list_fmap_id.
  - destruct (fill_cols_spec rb db pb (fun _ x => x) Hd Hr Hok Hrb Hdb Hpb) as (s & -> & [F0 F1 F2 F3 F4 F5 F6]).
    cbn [mbind result_bind]. eexists. split; [done|].
    assert (Hz : forall k, (k < ncols)%nat -> closestPMCache (cell m r k) = 0).
    { intros k Hk. destruct (decide (closestPMCache (cell m r k) = 0)) as [|Hn]; [done|]. exfalso.
      assert (false = true) by (apply Hb; eauto). done. }
    split; cbn [mapDataHit mapDataAddByValue mapDataAddByRef mapPositionsAdd convert collectFromFile
      mapReadFromPM readViaPM nreadViaPM]; try done.
    + intros k Hk Hn. split; [intros _; apply F6; eauto|]. intros Hne. by destruct Hne; apply Hz.
    + intros y (k & Hk & -> & Hn)%F6. exists k. split_and!; [done..|by apply Hz].
    + intros p x (l & Hl & _). by apply elem_of_nil in Hl.
    + exists []. split_and!; [done|done|constructor].
Qed.

End fill.

(** ** Bitmaps of columns *)
Lemma bitmap_clear_spec n : NoDBBitmapArenaInit (Z.of_nat n) = Ok (bitmap_of (replicate n false)).
Proof. apply (fill_all_bits n false (arr_alloc (Z.of_nat n))). unfold arr_alloc. rewrite length_replicate. lia. Qed.

Lemma bitmap_loop (n : nat) (P : nat -> bool) (body : Z -> NoDBBitmap_t -> result NoDBBitmap_t) :
  (forall k b, (k < n)%nat -> length b = n ->
     body (Z.of_nat k) (bitmap_of b) = if P k then NoDBBitmapSet (bitmap_of b) (Z.of_nat k) else Ok (bitmap_of b)) ->
  exists b, (b0 ← NoDBBitmapArenaInit (Z.of_nat n); for_range 0 (Z.of_nat n) body b0) = Ok (bitmap_of b) /\
    length b = n /\ forall k, (k < n)%nat -> bit_at b k = P k.
Proof.
  intros Hbody. rewrite bitmap_clear_spec. cbn [mbind result_bind].
  destruct (for_nat_inv (fun k0 bm => exists b, bm = bitmap_of b /\ length b = n /\
    forall k, (k < n)%nat -> bit_at b k = if decide (k < k0)%nat then P k else false) n body (bitmap_of (replicate n false)))
    as (bm & -> & b & -> & Hlen & Hb).
  - exists (replicate n false). split_and!; [done|apply length_replicate|]. intros k Hk. unfold bit_at.
    rewrite lookup_replicate_2 by done. by case_decide; [lia|].
  - intros k bm Hk (b & -> & Hlen & Hb). rewrite Hbody by done. destruct (P k) eqn:EP.
    + rewrite NoDBBitmapSet_spec by lia. eexists. split; [done|]. exists (<[k := true]> b). rewrite Nat2Z.id.
      split_and!; [done|by rewrite length_insert|]. intros k' Hk'. unfold bit_at in *. destruct (decide (k' = k)) as [->|Hne].
      * rewrite list_lookup_insert_eq by lia. rewrite decide_True by lia. by rewrite EP.
      * rewrite list_lookup_insert_ne by done. rewrite Hb by done. repeat case_decide; done || lia.
    + eexists. split; [done|]. exists b. split_and!; [done..|]. intros k' Hk'. rewrite Hb by done.
      repeat case_decide; try done; try lia. assert (k' = k) as -> by lia. by rewrite EP.
  - exists b. split_and!; [done..|]. intros k Hk. by rewrite Hb, decide_True by done.
Qed.

Lemma all_clear_spec (b : list bool) : NoDBBitmapIsAllClear (bitmap_of b) = Ok (bool_decide (true ∉ b)).
Proof.
  rewrite <- search_bits. unfold NoDBBitmapIsAllClear. apply search_range_ext. intros i Hi.
  by destruct (arr_get (bm_bits (bitmap_of b)) i) as [x|]; cbn; [destruct (x =? 0)|].
Qed.

(** ** Strategies *)
Section strategies.
Context (q : NoDBQueryInfo_t) (cs rs : list Z) (wd wp : list bool) (Hq : query_ok q cs rs wd wp).
Context (fb rb : list bool) (Hfb : q_readFilterBitmap q = bitmap_of fb) (Hrb : q_readRestBitmap q = bitmap_of rb).
Context (Hfl : length fb = length cs) (Hrl : length rb = length cs).

Abbreviation ncols := (length cs).
Abbreviation nranges := (length rs - 1)%nat.
Abbreviation col := (col_at cs).

(** The cache holds the column for every row of the range. *)
Definition known_range w (type : NoDBCacheType_t) (p lo hi x : Z) : Prop :=
  forall row, lo <= row < hi -> known q w type p row x.

(** A column is available from one half of a strategy (before the filter or
    after it): it is read from a data cache that has it for every row, or it is
    converted, from a position that is found in the file or by parsing from a
    position that a map has for every row. *)
Definition available w (lo hi : Z) (withCache withPM : Z * list NoDBColumnsPerCache_t) (viaPM : Z * arr NoDBReadViaPM_t)
    (withFile conv : NoDBColVector_t) (x : Z) : Prop :=
  (exists p, listed withCache p x /\ known_range w NODB_DATA_CACHE p lo hi x) \/
  (exists lc, conv = col_vector lc /\ x ∈ lc) /\
   ((exists lf, withFile = col_vector lf /\ x ∈ lf) \/
    exists e p, Some e ∈ viaPM.2 /\ via_backward e <= x - via_col e <= via_forward e /\
      listed withPM p (via_col e) /\ known_range w NODB_POSITIONS_CACHE p lo hi (via_col e)).

Definition available_pre w st (x : Z) : Prop :=
  available w (startRow st) (startRow st + nrows st) (readPreFilterWithCache st) (readPreFilterWithPM st)
    (readPreFilterViaPM st) (readPreFilterWithFile st) (convertPreFilter st) x.
Definition available_post w st (x : Z) : Prop :=
  available w (startRow st) (startRow st + nrows st) (readPostFilterWithCache st) (readPostFilterWithPM st)
    (readPostFilterViaPM st) (readPostFilterWithFile st) (convertPostFilter st) x.

(** What a strategy promises: [w0] holds the caches before it was made, [w] as
    it left them. *)
Record strategy_ok w0 w (lo hi : Z) st : Prop := {
  st_start : startRow st = lo;
  st_rows : startRow st + nrows st = hi;
  st_filter : forall k, (k < ncols)%nat -> bit_at fb k = true -> available_pre w0 st (col k);
  st_rest : forall k, (k < ncols)%nat -> bit_at rb k = true ->
    available_pre w0 st (col k) \/ available_post w0 st (col k);
  st_hit_sound : forall p x, listed (readPreFilterWithCache st) p x \/ listed (readPostFilterWithCache st) p x ->
    known_range w0 NODB_DATA_CACHE p lo hi x;
  st_pm_sound : forall p x, listed (readPreFilterWithPM st) p x \/ listed (readPostFilterWithPM st) p x ->
    known_range w0 NODB_POSITIONS_CACHE p lo hi x;
  st_write : forall p x, listed (writeToCacheByValue st) p x \/ listed (writeToCacheByRef st) p x ->
    dest q w NODB_DATA_CACHE p lo x;
  st_write_pm : forall p x, listed (writeToPM st) p x -> dest q w NODB_POSITIONS_CACHE p lo x;
  st_written : forall k, (k < ncols)%nat -> bit_at wd k = true ->
    (exists p, known_range w0 NODB_DATA_CACHE p lo hi (col k)) \/
    (exists p, listed (writeToCacheByValue st) p (col k) \/ listed (writeToCacheByRef st) p (col k)) }.

(** The rows of the query cut where caches begin and end. *)
Definition rows_const w : Prop :=
  forall r p c row, (r < nranges)%nat -> p ∈ NoDBCaches w -> w_caches w !! p = Some c -> c_rel c = q_relp q ->
    row_at rs r <= row < row_at rs (S r) -> NoDBCacheHasRow c row = NoDBCacheHasRow c (row_at rs r).

Lemma known_to_range w r type p x : rows_const w -> (r < nranges)%nat ->
  known q w type p (row_at rs r) x -> known_range w type p (row_at rs r) (row_at rs (S r)) x.
Proof.
  intros Hc Hr (Hp & c & Ec & Ht & Hrow & Hh) row Hrange. split; [done|]. exists c.
  rewrite (Hc r p c row) by (done || by eapply of_rel_type_rel). by split_and!.
Qed.

Lemma plan_node_ok w0 w m r k nd : plan_cell q cs rs wd wp w0 w m r k nd -> node_ok nd.
Proof.
  intros [Hd Hp _]. split.
  - intros [H|H]; rewrite H in Hd; naive_solver.
  - intros H. rewrite H in Hp. naive_solver.
Qed.

Lemma known_col_range w type p row x : plan_world q w -> known q w type p row x ->
  0 <= x < NoDBRelationGetNumberColumns (q_rel q).
Proof.
  intros Hw (Hp & c & Ec & Ht & _ & Hh). destruct (pw_caches _ _ Hw p Hp) as (c' & Ec' & (lay & Hwf & _ & _ & _ & Ho & _)).
  simplify_eq. apply (has_col_HasColumn w p c) in Hh; [|done].
  destruct (decide (0 <= x)) as [H0|H0]; [|exfalso; eapply HasColumn_neg; [apply Hwf| |done]; lia].
  rewrite (NoDBCacheHasColumn_spec _ _ _ Hwf H0) in Hh. injection Hh as Hh. apply bool_decide_eq_true in Hh.
  apply elem_of_lay_cols in Hh as [s (l1 & l2 & E)%list_elem_of_split].
  pose proof (wf_offset _ _ Hwf l1 x s l2 E) as Hoff. apply arr_get_length in Hoff.
  rewrite <- Ho; [done|]. by eapply of_rel_type_rel.
Qed.

Lemma plan_via_cell w0 w m r k : plan_world q w0 -> plan_cell q cs rs wd wp w0 w m r k (cell m r k) ->
  closestPMCache (cell m r k) <> 0 -> via_cell q cs m r k.
Proof.
  intros Hw [_ _ [[? _]|(Hne & cc & [Hkn _] & Ecc & Edist & _)]] Hn; [done|].
  unfold via_cell, cc_of. rewrite Ecc. cbn [default from_option id]. split_and!; [done..| |].
  - by apply (known_col_range w0 _ _ _ _ Hw) in Hkn as [? ?].
  - by apply (known_col_range w0 _ _ _ _ Hw) in Hkn as [? ?].
Qed.

Section matrix.
Context (w0 w : world) (m : matrix) (Hw0 : plan_world q w0) (Hdims : mat_dims cs rs m) (Hconst : rows_const w0).
Context (Hcells : forall r k, (r < nranges)%nat -> (k < ncols)%nat -> plan_cell q cs rs wd wp w0 w m r k (cell m r k)).
Context (Hn : 0 <= NoDBRelationGetNumberColumns (q_rel q)).

Lemma FillRow_plan r rb' db pb : (r < nranges)%nat -> length rb' = ncols -> length db = ncols -> length pb = ncols ->
  exists rep, FillRow m (Z.of_nat r) (q_rel q) (q_cols q) (bitmap_of rb') (bitmap_of db) (bitmap_of pb) = Ok rep /\
    reply_ok q cs m r rb' db pb rep.
Proof.
  intros Hr L1 L2 L3. apply (FillRow_spec q cs rs wd wp Hq); try done.
  - intros k Hk. by eapply plan_node_ok, Hcells.
  - intros k Hk. by apply plan_via_cell with (w0 := w0) (w := w), Hcells.
  - intros k k' Hk Hk'. eapply closest_uniform; by apply Hcells.
Qed.

(** The position that a reply reads from a map is one that the map has. *)
Lemma reply_maps r rb' db pb rep p x : (r < nranges)%nat -> reply_ok q cs m r rb' db pb rep ->
  in_map (mapReadFromPM rep) p x -> known_range w0 NODB_POSITIONS_CACHE p (row_at rs r) (row_at rs (S r)) x.
Proof.
  intros Hr Hrep (k & Hk & _ & -> & Hne & Ecc)%(ro_maps _ _ _ _ _ _ _ _ Hrep).
  apply known_to_range; [done..|]. destruct (pc_closest _ _ _ _ _ _ _ _ _ _ _ (Hcells r k Hr Hk))
    as [[? _]|(_ & cc & [Hkn _] & Ecc' & _)]; [done|]. assert (cc = x) as <- by congruence. done.
Qed.

Lemma reply_hits r rb' db pb rep p x : (r < nranges)%nat -> reply_ok q cs m r rb' db pb rep ->
  in_map (mapDataHit rep) p x -> known_range w0 NODB_DATA_CACHE p (row_at rs r) (row_at rs (S r)) x.
Proof.
  intros Hr Hrep (k & Hk & -> & _ & Hh & Hp)%(ro_hit _ _ _ _ _ _ _ _ Hrep).
  apply known_to_range; [done..|]. pose proof (pc_data _ _ _ _ _ _ _ _ _ _ _ (Hcells r k Hr Hk)) as Hd.
  rewrite Hh in Hd. destruct Hd as (p' & E & Hkn). assert (p' = p) as <- by congruence. done.
Qed.

Lemma reply_available r rb' db pb rep k : (r < nranges)%nat -> (k < ncols)%nat -> reply_ok q cs m r rb' db pb rep ->
  bit_at rb' k = true \/ needs_value (bit_at rb' k) (bit_at db k) (cell m r k) ->
  available w0 (row_at rs r) (row_at rs (S r)) (SetColsPerCache (mapDataHit rep)) (SetColsPerCache (mapReadFromPM rep))
    (nreadViaPM rep, readViaPM rep) (col_vector (collectFromFile rep)) (col_vector (convert rep)) (col k).
Proof.
  intros Hr Hk Hrep Hb.
  assert (Hnv : needs_value (bit_at rb' k) (bit_at db k) (cell m r k) \/
    bit_at rb' k = true /\ dataHit (cell m r k) = CACHE_HIT).
  { destruct Hb as [Hb|?]; [|by left]. destruct (decide (dataHit (cell m r k) = CACHE_HIT)); [by right|left]. by left. }
  destruct Hnv as [Hnv|[Hb' Hh]].
  - right. split; [exists (convert rep); split; [done|]; apply (ro_convert _ _ _ _ _ _ _ _ Hrep); eauto|].
    destruct (ro_position _ _ _ _ _ _ _ _ Hrep k Hk (or_introl Hnv)) as [Hfile Hpm].
    destruct (decide (closestPMCache (cell m r k) = 0)) as [Hz|Hz].
    + left. exists (collectFromFile rep). split; [done|by apply Hfile].
    + right. destruct (Hpm Hz) as (e & p & He & Hbnd & Hin). exists e, p. split_and!; [done|apply Hbnd|apply Hbnd| |].
      * by apply SetColsPerCache_listed.
      * by eapply reply_maps.
  - left. pose proof (pc_data _ _ _ _ _ _ _ _ _ _ _ (Hcells r k Hr Hk)) as Hd. rewrite Hh in Hd. destruct Hd as (p & E & Hkn).
    exists p. split; [|by apply known_to_range]. apply SetColsPerCache_listed, (ro_hit _ _ _ _ _ _ _ _ Hrep). eauto 10.
Qed.

Lemma reply_writes r rb' rep p x : (r < nranges)%nat -> reply_ok q cs m r rb' wd wp rep ->
  (in_map (mapDataAddByValue rep) p x \/ in_map (mapDataAddByRef rep) p x -> dest q w NODB_DATA_CACHE p (row_at rs r) x) /\
  (in_map (mapPositionsAdd rep) p x -> dest q w NODB_POSITIONS_CACHE p (row_at rs r) x).
Proof.
  intros Hr Hrep. split.
  - assert (H : forall k, (k < ncols)%nat -> dataHit (cell m r k) = CACHE_ADD -> dataCache (cell m r k) = Some p ->
      dest q w NODB_DATA_CACHE p (row_at rs r) (col k)).
    { intros k Hk Ha Ep. pose proof (pc_data _ _ _ _ _ _ _ _ _ _ _ (Hcells r k Hr Hk)) as Hd. rewrite Ha in Hd.
      destruct Hd as (_ & p' & E & Hkn). assert (p' = p) as <- by congruence. done. }
    intros [(k & Hk & -> & _ & Ha & Ep & _)%(ro_byValue _ _ _ _ _ _ _ _ Hrep)
           |(k & Hk & -> & _ & Ha & Ep & _)%(ro_byRef _ _ _ _ _ _ _ _ Hrep)]; by apply H.
  - intros (k & Hk & -> & _ & Ha & Ep)%(ro_positions _ _ _ _ _ _ _ _ Hrep).
    pose proof (pc_pm _ _ _ _ _ _ _ _ _ _ _ (Hcells r k Hr Hk)) as Hd. rewrite Ha in Hd.
    destruct Hd as (_ & p' & E & Hkn). assert (p' = p) as <- by congruence. done.
Qed.

Lemma reply_written r rb' rep k : (r < nranges)%nat -> (k < ncols)%nat -> reply_ok q cs m r rb' wd wp rep ->
  bit_at wd k = true ->
  (exists p, known_range w0 NODB_DATA_CACHE p (row_at rs r) (row_at rs (S r)) (col k)) \/
  exists p, in_map (mapDataAddByValue rep) p (col k) \/ in_map (mapDataAddByRef rep) p (col k).
Proof.
  intros Hr Hk Hrep Hwd. pose proof (pc_data _ _ _ _ _ _ _ _ _ _ _ (Hcells r k Hr Hk)) as Hd.
  destruct (dataHit (cell m r k)) eqn:Ed; [done| | |].
  - left. destruct Hd as (p & _ & Hkn). exists p. by apply known_to_range.
  - unfold wd_at, bit_at in *. congruence.
  - right. destruct Hd as (_ & p & Ep & _). exists p. destruct (by_value_bit q cs rs wd wp Hq k Hk) as [[|] Hb]; [left|right].
    + apply (ro_byValue _ _ _ _ _ _ _ _ Hrep). eauto 10.
    + apply (ro_byRef _ _ _ _ _ _ _ _ Hrep). eauto 10.
Qed.

Lemma row_sub r : (r < nranges)%nat -> u64 (row_at rs (S r) - row_at rs r) = row_at rs (S r) - row_at rs r.
Proof.
  intros Hr. pose proof (row_at_mono q cs rs wd wp Hq r (S r)). pose proof (row_at_range q cs rs wd wp Hq (S r)).
  pose proof (row_at_range q cs rs wd wp Hq r). unfold u64. apply wrap_small. lia.
Qed.

Lemma listed_nil p x : ~ listed (0, []) p x.
Proof. intros (e & l & He & _). by apply elem_of_nil in He. Qed.

Lemma strategy_without_filter_spec r :
  (r < nranges)%nat -> (forall k, (k < ncols)%nat -> bit_at fb k = false) ->
  exists st, strategy_without_filter q m (Z.of_nat r) (row_at rs r) (u64 (row_at rs (S r) - row_at rs r)) = Ok st /\
    strategy_ok w0 w (row_at rs r) (row_at rs (S r)) st.
Proof.
  intros Hr Hnf. unfold strategy_without_filter. rewrite Hrb, (qo_wd _ _ _ _ _ Hq), (qo_wp _ _ _ _ _ Hq).
  destruct (FillRow_plan r rb wd wp) as (rep & -> & Hrep); [done|done|apply Hq|apply Hq|].
  cbn [mbind result_bind]. eexists. split; [done|]. rewrite row_sub by done.
  split; cbn [startRow nrows readPreFilterWithCache readPreFilterWithPM readPostFilterWithCache readPostFilterWithPM
    writeToCacheByValue writeToCacheByRef writeToPM].
  - done.
  - lia.
  - intros k Hk Hf. by rewrite Hnf in Hf.
  - intros k Hk Hb. right. unfold available_post. cbn [startRow nrows readPostFilterWithCache readPostFilterWithPM
      readPostFilterViaPM readPostFilterWithFile convertPostFilter].
    replace (row_at rs r + (row_at rs (S r) - row_at rs r)) with (row_at rs (S r)) by lia.
    apply (reply_available r rb wd wp); auto.
  - intros p x [H|H]; [by apply listed_nil in H|]. apply SetColsPerCache_listed in H. by eapply reply_hits.
  - intros p x [H|H]; [by apply listed_nil in H|]. apply SetColsPerCache_listed in H. by eapply reply_maps.
  - intros p x. rewrite !SetColsPerCache_listed. by apply (reply_writes r rb rep).
  - intros p x. rewrite SetColsPerCache_listed. by apply (reply_writes r rb rep).
  - intros k Hk Hwd. setoid_rewrite SetColsPerCache_listed. by apply (reply_written r rb rep).
Qed.

Lemma read_rest_spec conv : exists b, read_rest q (col_vector conv) = Ok (bitmap_of b) /\ length b = ncols /\
  forall k, (k < ncols)%nat -> bit_at b k = bit_at rb k && negb (bit_at fb k) && negb (bool_decide (col k ∈ conv)).
Proof.
  unfold read_rest.
  assert (NoDBColVectorSize (q_cols q) = Z.of_nat ncols) as -> by (rewrite (qo_cols _ _ _ _ _ Hq); done).
  apply bitmap_loop. intros k b Hk Hl. rewrite (get_col q cs) by (done || apply Hq). cbn [mbind result_bind].
  rewrite Hrb, Hfb, !(is_set_bit cs) by done. cbn [mbind result_bind]. destruct (bit_at rb k); [|done].
  destruct (bit_at fb k); [done|]. cbn [negb andb]. rewrite NoDBColVectorContains_spec. cbn [mbind result_bind].
  by case_bool_decide.
Qed.

Lemma strategy_with_filter_spec r :
  (r < nranges)%nat ->
  exists st, strategy_with_filter q m (Z.of_nat r) (row_at rs r) (u64 (row_at rs (S r) - row_at rs r)) = Ok st /\
    strategy_ok w0 w (row_at rs r) (row_at rs (S r)) st.
Proof.
  intros Hr. unfold strategy_with_filter. rewrite Hfb, (qo_wd _ _ _ _ _ Hq), (qo_wp _ _ _ _ _ Hq).
  destruct (FillRow_plan r fb wd wp) as (rep & -> & Hrep); [done|done|apply Hq|apply Hq|].
  cbn [mbind result_bind]. destruct (read_rest_spec (convert rep)) as (b & -> & Hbl & Hb). cbn [mbind result_bind].
  assert (NoDBColVectorSize (q_cols q) = Z.of_nat ncols) as -> by (rewrite (qo_cols _ _ _ _ _ Hq); done).
  rewrite bitmap_clear_spec. cbn [mbind result_bind].
  destruct (FillRow_plan r b (replicate ncols false) (replicate ncols false)) as (rep2 & -> & Hrep2);
    [done|done|apply length_replicate|apply length_replicate|].
  cbn [mbind result_bind]. eexists. split; [done|]. rewrite row_sub by done.
  assert (Hend : row_at rs r + (row_at rs (S r) - row_at rs r) = row_at rs (S r)) by lia.
  assert (Hpre : forall k, (k < ncols)%nat ->
    bit_at fb k = true \/ needs_value (bit_at fb k) (bit_at wd k) (cell m r k) ->
    available w0 (row_at rs r) (row_at rs (S r)) (SetColsPerCache (mapDataHit rep)) (SetColsPerCache (mapReadFromPM rep))
      (nreadViaPM rep, readViaPM rep) (col_vector (collectFromFile rep)) (col_vector (convert rep)) (col k)).
  { intros k Hk. by apply (reply_available r fb wd wp). }
  split; cbn [startRow nrows readPreFilterWithCache readPreFilterWithPM readPostFilterWithCache readPostFilterWithPM
    writeToCacheByValue writeToCacheByRef writeToPM]; unfold available_pre, available_post; cbn [startRow nrows
    readPreFilterWithCache readPreFilterWithPM readPreFilterViaPM readPreFilterWithFile convertPreFilter
    readPostFilterWithCache readPostFilterWithPM readPostFilterViaPM readPostFilterWithFile convertPostFilter]; rewrite ?Hend.
  - done.
  - done.
  - intros k Hk Hf. apply Hpre; [done|by left].
  - intros k Hk Hrk. destruct (bit_at fb k) eqn:Ef; [left; apply Hpre; auto|].
    destruct (decide (col k ∈ convert rep)) as [Hc|Hc].
    + left. apply Hpre; [done|right]. apply (ro_convert _ _ _ _ _ _ _ _ Hrep) in Hc as (k' & Hk' & E & Hnv).
      apply (col_at_inj cs (qo_sorted _ _ _ _ _ Hq)) in E; [|done..]. by subst.
    + right. apply (reply_available r b (replicate ncols false) (replicate ncols false)); try done. left.
      rewrite Hb, Hrk, Ef by done. by rewrite bool_decide_eq_false_2.
  - intros p x. rewrite !SetColsPerCache_listed. intros [H|H];
      [by apply (reply_hits r fb wd wp rep)|by apply (reply_hits r b (replicate ncols false) (replicate ncols false) rep2)].
  - intros p x. rewrite !SetColsPerCache_listed. intros [H|H];
      [by apply (reply_maps r fb wd wp rep)|by apply (reply_maps r b (replicate ncols false) (replicate ncols false) rep2)].
  - intros p x. rewrite !SetColsPerCache_listed. by apply (reply_writes r fb rep).
  - intros p x. rewrite SetColsPerCache_listed. by apply (reply_writes r fb rep).
  - intros k Hk Hwd. setoid_rewrite SetColsPerCache_listed. by apply (reply_written r fb rep).
Qed.

Lemma strategy_rows_spec r : (r < nranges)%nat ->
  exists st, strategy_rows q m (negb (bool_decide (true ∉ fb))) (Z.of_nat r) = Ok st /\
    strategy_ok w0 w (row_at rs r) (row_at rs (S r)) st.
Proof.
  intros Hr. unfold strategy_rows. rewrite (get_row q cs rs wd wp Hq) by lia. cbn [mbind result_bind].
  replace (Z.of_nat r + 1) with (Z.of_nat (S r)) by lia. rewrite (get_row q cs rs wd wp Hq) by lia. cbn [mbind result_bind].
  case_bool_decide as Hf; cbn [negb]; [|by apply strategy_with_filter_spec].
  apply strategy_without_filter_spec; [done|]. intros k Hk. unfold bit_at. destruct (fb !! k) as [[|]|] eqn:E; try done.
  exfalso. by apply Hf, (list_elem_of_lookup_2 _ k).
Qed.

End matrix.

Lemma BuildStrategy_spec it w0 :
  it_queryInfo it = q -> plan_world q w0 -> rows_end q rs w0 -> rows_const w0 ->
  0 <= NoDBRelationGetNumberColumns (q_rel q) ->
  exists w sts, BuildStrategy it w0 =
      Ok (w, {| it_queryInfo := q; it_strategy := Some <$> sts; it_len := Z.of_nat nranges; it_cur := 0 |}) /\
    plan_world q w /\ extends w0 w /\ length sts = nranges /\
    forall r st, sts !! r = Some st -> strategy_ok w0 w (row_at rs r) (row_at rs (S r)) st.
Proof.
  intros Eq Hw0 Hend Hconst Hn. unfold BuildStrategy. rewrite Eq.
  destruct (BuildMatrix_spec q cs rs wd wp Hq w0 Hw0 Hend) as (w & m & -> & Hw & Hext & Hd & Hcells & _).
  cbn [mbind result_bind fst snd]. rewrite Hfb, all_clear_spec. cbn [mbind result_bind].
  assert (NoDBRowVectorSize (q_rows q) - 1 = Z.of_nat nranges) as ->.
  { rewrite (qo_rows _ _ _ _ _ Hq). pose proof (qo_rlen _ _ _ _ _ Hq). unfold NoDBRowVectorSize, row_vector. cbn [rv_size]. lia. }
  destruct (for_nat_inv (fun (r0 : nat) a => exists sts t, a = (Some <$> sts) ++ t /\ length sts = r0 /\
      (r0 + length t = nranges)%nat /\
      forall r st, sts !! r = Some st -> strategy_ok w0 w (row_at rs r) (row_at rs (S r)) st)
    nranges (fun rowIdx strategy =>
      st ← strategy_rows q m (negb (bool_decide (true ∉ fb))) rowIdx; arr_set strategy rowIdx st) (arr_alloc (Z.of_nat nranges)))
    as (a & -> & sts & t & -> & Hl & Ht & Hall).
  - exists [], (arr_alloc (Z.of_nat nranges)). split_and!; [done|done| |done]. unfold arr_alloc. rewrite length_replicate. lia.
  - intros r a Hr (sts & t & -> & Hl & Ht & Hall).
    destruct (strategy_rows_spec w0 w m Hw0 Hd Hconst Hcells Hn r Hr) as (st & -> & Hst). cbn [mbind result_bind].
    destruct (arr_set_cell sts t st) as (t' & E & Ht'); [lia|]. rewrite <- Hl, E. eexists. split; [done|].
    exists (sts ++ [st]), t'. split_and!; [done|rewrite length_app; simpl; lia|lia|].
    intros r' st' [Hlook|[? Hlook]]%lookup_app_Some; [by apply Hall|].
    apply list_lookup_singleton_Some in Hlook as [Er <-].
    by replace r' with r by lia.
  - assert (t = []) as -> by (apply length_zero_iff_nil; lia). rewrite app_nil_r. cbn [mbind result_bind].
    exists w, sts. by split_and!.
Qed.

End strategies.

(** ** The iterator *)

(** A query whose rows are still to be set. *)
Record query_base q (cs : list Z) (wd wp fb rb : list bool) : Prop := {
  qb_cols : q_cols q = col_vector cs;
  qb_sorted : StronglySorted Z.lt cs;
  qb_range : Forall (fun col => 0 <= col < NoDBRelationGetNumberColumns (q_rel q)) cs;
  qb_wd : q_writeDataBitmap q = bitmap_of wd; qb_wdlen : length wd = length cs;
  qb_wp : q_writePositionsBitmap q = bitmap_of wp; qb_wplen : length wp = length cs;
  qb_fb : q_readFilterBitmap q = bitmap_of fb; qb_fblen : length fb = length cs;
  qb_rb : q_readRestBitmap q = bitmap_of rb; qb_rblen : length rb = length cs;
  qb_read : forall col, col ∈ q_readCols q -> col ∈ cs;
  qb_size : forall col, col ∈ cs -> exists size,
    NoDBRelationGetColumnSize (q_rel q) col = Ok size /\ 0 <= size <= NODB_DATA_CACHE_DEFAULT_SIZE;
  qb_ncols : 0 <= NoDBRelationGetNumberColumns (q_rel q) }.

Definition rows_ok_list (rs : list Z) : Prop :=
  StronglySorted Z.lt rs /\ Forall (fun row => 0 <= row < 2 ^ 64) rs /\ (2 <= length rs)%nat.

Lemma query_base_ok q cs wd wp fb rb rs : query_base q cs wd wp fb rb -> rows_ok_list rs ->
  query_ok (set_q_rows q (row_vector rs)) cs rs wd wp.
Proof. intros [] (? & ? & ?). by split. Qed.

(** The columns that the scan asked for, as the bitmaps record them. *)
Definition bits_for (cs l : list Z) (b : list bool) : Prop :=
  (forall x, x ∈ l -> x ∈ cs) /\ forall k, (k < length cs)%nat -> bit_at b k = bool_decide (col_at cs k ∈ l).

Lemma collect_cols_spec v l : exists l', collect_cols (col_vector v) l = Ok l' /\
  (forall x, x ∈ l' <-> x ∈ l \/ x ∈ v) /\ (NoDup l -> NoDup l').
Proof.
  unfold collect_cols, NoDBColVectorSize, NoDBColVectorGet. cbn [cv_size cv_cols col_vector].
  pose proof (for_range_foldl (fun x l => add_unique l x) v [] l) as E. rewrite app_nil_r in E. rewrite E.
  eexists. split; [done|]. clear E. revert l. induction v as [|y v IH]; intros l; cbn [foldl].
  - split; [|done]. intros x. rewrite elem_of_nil. tauto.
  - destruct (IH (add_unique l y)) as [IH1 IH2]. split; [|intros; by apply IH2, NoDup_add_unique].
    intros x. rewrite IH1, elem_of_add_unique, elem_of_cons. tauto.
Qed.

Lemma column_bitmap_spec cs test (P : Z -> bool) :
  (forall x, x ∈ cs -> test x = Ok (P x)) ->
  exists b, column_bitmap (col_vector cs) test = Ok (bitmap_of b) /\ length b = length cs /\
    forall k, (k < length cs)%nat -> bit_at b k = P (col_at cs k).
Proof.
  intros Ht. unfold column_bitmap, NoDBColVectorSize. cbn [cv_size col_vector].
  apply bitmap_loop. intros k b Hk Hl. unfold NoDBColVectorGet. cbn [cv_cols col_vector].
  destruct (col_read cs (Z.of_nat k)) as (c & Hc & ->); [lia|]. rewrite Nat2Z.id in Hc. cbn [mbind result_bind].
  rewrite Ht by by eapply list_elem_of_lookup_2. cbn [mbind result_bind]. unfold col_at. rewrite Hc. done.
Qed.

Lemma sorted_le_lt (l : list Z) : NoDup l -> StronglySorted Z.le l -> StronglySorted Z.lt l.
Proof.
  intros Hn Hs. induction Hs as [|x l Hs IH Hf]; [constructor|]. apply NoDup_cons in Hn as [Hx Hn].
  constructor; [by apply IH|]. rewrite Forall_forall in *. intros y Hy. specialize (Hf y Hy).
  assert (x <> y) by (intros ->; done). lia.
Qed.

(** What a strategy does for a scan that filters on the columns [filter] and
    then needs [rest], and wants the data of [writeData] cached. *)
Record serves q w0 w (filter rest writeData : list Z) (lo hi : Z) (st : NoDBScanStrategy_t) : Prop := {
  sv_start : startRow st = lo;
  sv_rows : startRow st + nrows st = hi;
  sv_filter : forall x, x ∈ filter -> available_pre q w0 st x;
  sv_rest : forall x, x ∈ rest -> available_pre q w0 st x \/ available_post q w0 st x;
  sv_hits : forall p x, listed (readPreFilterWithCache st) p x \/ listed (readPostFilterWithCache st) p x ->
    known_range q w0 NODB_DATA_CACHE p lo hi x;
  sv_maps : forall p x, listed (readPreFilterWithPM st) p x \/ listed (readPostFilterWithPM st) p x ->
    known_range q w0 NODB_POSITIONS_CACHE p lo hi x;
  sv_write : forall p x, listed (writeToCacheByValue st) p x \/ listed (writeToCacheByRef st) p x ->
    dest q w NODB_DATA_CACHE p lo x;
  sv_write_pm : forall p x, listed (writeToPM st) p x -> dest q w NODB_POSITIONS_CACHE p lo x;
  sv_written : forall x, x ∈ writeData ->
    (exists p, known_range q w0 NODB_DATA_CACHE p lo hi x) \/
    (exists p, listed (writeToCacheByValue st) p x \/ listed (writeToCacheByRef st) p x) }.

Lemma strategy_serves q cs wd fb rb filter rest writeData w0 w lo hi st :
  bits_for cs filter fb -> bits_for cs rest rb -> bits_for cs writeData wd ->
  strategy_ok q cs wd fb rb w0 w lo hi st -> serves q w0 w filter rest writeData lo hi st.
Proof.
  intros [F1 F2] [R1 R2] [W1 W2] [S1 S2 S3 S4 S5 S6 S7 S8 S9].
  assert (Hbit : forall (l : list Z) b x, (forall x, x ∈ l -> x ∈ cs) ->
    (forall k, (k < length cs)%nat -> bit_at b k = bool_decide (col_at cs k ∈ l)) -> x ∈ l ->
    exists k, (k < length cs)%nat /\ x = col_at cs k /\ bit_at b k = true).
  { intros l b x H1 H2 Hx. apply H1 in Hx as Hc. apply elem_col_at in Hc as (k & Hk & ->). exists k.
    split_and!; [done..|]. rewrite H2 by done. by apply bool_decide_eq_true_2. }
  split; try done.
  - intros x Hx. destruct (Hbit filter fb x F1 F2 Hx) as (k & Hk & -> & Hb). by apply S3.
  - intros x Hx. destruct (Hbit rest rb x R1 R2 Hx) as (k & Hk & -> & Hb). by apply S4.
  - intros x Hx. destruct (Hbit writeData wd x W1 W2 Hx) as (k & Hk & -> & Hb). by apply S9.
Qed.

(** The caches of a relation, whatever the query. *)
Record caches_ok (relp : Z) (rel : NoDBRelation_t) w : Prop := {
  co_caches : forall p, p ∈ NoDBCaches w -> exists c, w_caches w !! p = Some c /\
    cache_inv relp (NoDBRelationGetNumberColumns rel) c;
  co_null : 0 ∉ NoDBCaches w;
  co_next : forall p, is_Some (w_caches w !! p) -> p < w_next w;
  co_pos : 0 < w_next w }.

Lemma caches_ok_plan q w : caches_ok (q_relp q) (q_rel q) w <-> plan_world q w.
Proof. split; intros []; by split. Qed.

Lemma caches_ok_world relp rel w : caches_ok relp rel w -> world_ok w.
Proof.
  intros [Hc Hn Hx Hp]. split; [|done..]. intros p (c & E & lay & Hwf & _ & Hr & _)%Hc. eauto.
Qed.

(** No cache of the relation has a row from [lo] on. *)
Definition no_rows_from (relp : Z) w (lo : Z) : Prop :=
  forall p c row, p ∈ NoDBCaches w -> w_caches w !! p = Some c -> c_rel c = relp -> lo <= row ->
    NoDBCacheHasRow c row = false.

Section iterator.
Context (relp : Z) (rel : NoDBRelation_t) (filter rest writeData : list Z).
Abbreviation bound bs i := (default 0 ((bs : list Z) !! (i : nat))).

(** An iterator that was filled when the caches were [w0], leaving them as [w],
    and whose next strategy begins at row [lo]. [bs] are the rows where its
    strategies begin and end. *)
Record iter_at w0 w (it : NoDBScanStrategyIterator_t) (lo : Z) : Prop := {
  ia_query : exists cs wd wp fb rb, query_base (it_queryInfo it) cs wd wp fb rb /\
    bits_for cs filter fb /\ bits_for cs rest rb /\ bits_for cs writeData wd;
  ia_relp : q_relp (it_queryInfo it) = relp;
  ia_rel : q_rel (it_queryInfo it) = rel;
  ia_strategies : exists sts bs (cur : nat), it_strategy it = Some <$> sts /\ it_len it = Z.of_nat (length sts) /\
    it_cur it = Z.of_nat cur /\ (cur <= length sts)%nat /\ length bs = S (length sts) /\
    StronglySorted Z.lt bs /\ Forall (fun row => 0 <= row < 2 ^ 64) bs /\ (sts = [] -> bs = [0]) /\ bound bs cur = lo /\
    no_rows_from relp w0 (bound bs (length sts)) /\
    forall i st, sts !! i = Some st ->
      serves (it_queryInfo it) w0 w filter rest writeData (bound bs i) (bound bs (S i)) st }.

Lemma bound_lt (bs : list Z) i j : StronglySorted Z.lt bs -> (i < j < length bs)%nat -> bound bs i < bound bs j.
Proof.
  intros Hs Hij. destruct (lookup_lt_is_Some_2 bs i) as [x Hx]; [lia|]. destruct (lookup_lt_is_Some_2 bs j) as [y Hy]; [lia|].
  rewrite Hx, Hy. by eapply sorted_lt_lookup; [| |exact Hx|exact Hy]; [|lia].
Qed.

Lemma bound_range (bs : list Z) i : Forall (fun row => 0 <= row < 2 ^ 64) bs -> (i < length bs)%nat -> 0 <= bound bs i < 2 ^ 64.
Proof.
  intros Hf Hi. destruct (lookup_lt_is_Some_2 bs i) as [x Hx]; [lia|]. rewrite Hx. apply (Forall_lookup_1 _ _ _ _ Hf Hx).
Qed.

Lemma serves_rows q w0 w lo hi st q' : q_relp q' = q_relp q ->
  serves q w0 w filter rest writeData lo hi st -> serves q' w0 w filter rest writeData lo hi st.
Proof.
  intros E [S1 S2 S3 S4 S5 S6 S7 S8 S9].
  assert (Hk : forall w type p row x, known q w type p row x -> known q' w type p row x).
  { intros w1 type p row x. unfold known. by rewrite E. }
  assert (Hd : forall w type p row x, dest q w type p row x -> dest q' w type p row x).
  { intros w1 type p row x. unfold dest. by rewrite E. }
  assert (Hr : forall w type p lo hi x, known_range q w type p lo hi x -> known_range q' w type p lo hi x).
  { intros w1 type p l h x H row Hrow. by apply Hk, H. }
  assert (Ha : forall w lo hi wc wpm via wf cv x, available q w lo hi wc wpm via wf cv x -> available q' w lo hi wc wpm via wf cv x).
  { intros w1 l h wc wpm via wf cv x [(p & ? & ?)|[? [?|(e & p & ? & ? & ? & ?)]]]; [left|right; split; [done|]..]; eauto 10. }
  split; try done; unfold available_pre, available_post in *; naive_solver.
Qed.

(** A strategy for the rows [lo, lo + n) of a query. *)
Lemma build_iter it cs wd wp fb rb w0 rs :
  query_base (it_queryInfo it) cs wd wp fb rb -> q_rows (it_queryInfo it) = row_vector rs -> rows_ok_list rs ->
  q_relp (it_queryInfo it) = relp -> q_rel (it_queryInfo it) = rel ->
  bits_for cs filter fb -> bits_for cs rest rb -> bits_for cs writeData wd ->
  caches_ok relp rel w0 ->
  (forall i p c row, (S i < length rs)%nat -> p ∈ NoDBCaches w0 -> w_caches w0 !! p = Some c -> c_rel c = relp ->
     bound rs i <= row < bound rs (S i) -> NoDBCacheHasRow c row = NoDBCacheHasRow c (bound rs i)) ->
  no_rows_from relp w0 (bound rs (length rs - 1)) ->
  exists w it', BuildStrategy it w0 = Ok (w, it') /\ caches_ok relp rel w /\ extends w0 w /\
    iter_at w0 w it' (bound rs 0) /\ it_cur it' = 0 /\
    exists sts, it_strategy it' = Some <$> sts /\ length sts = (length rs - 1)%nat /\
      forall i st, sts !! i = Some st ->
        serves (it_queryInfo it') w0 w filter rest writeData (bound rs i) (bound rs (S i)) st.
Proof.
  intros Hb Erows (Hs & Hf & Hlen) Erelp Erel Bf Br Bw Hw Hconst Hend. set (q := it_queryInfo it) in *.
  assert (Eset : set_q_rows q (row_vector rs) = q) by (rewrite <- Erows; by destruct q).
  assert (Hq : query_ok q cs rs wd wp).
  { rewrite <- Eset. by eapply query_base_ok; [|split_and!]. }
  assert (Hpw : plan_world q w0). { apply caches_ok_plan. by rewrite Erelp, Erel. }
  destruct (BuildStrategy_spec q cs rs wd wp Hq fb rb (qb_fb _ _ _ _ _ _ Hb) (qb_rb _ _ _ _ _ _ Hb)
    (qb_fblen _ _ _ _ _ _ Hb) (qb_rblen _ _ _ _ _ _ Hb) it w0) as (w & sts & -> & Hw' & Hext & Hl & Hall); try done.
  - intros p c Hp Ec Hr. rewrite Erelp in Hr. apply (Hend p c); [done..|]. unfold row_at. lia.
  - intros r p c row Hr Hp Ec Hrel. rewrite Erelp in Hrel. apply (Hconst r p c row); [lia|done..].
  - apply Hb.
  - assert (Hsv : forall i st, sts !! i = Some st -> serves q w0 w filter rest writeData (bound rs i) (bound rs (S i)) st).
    { intros i st Hi. eapply strategy_serves; [done..|]. by apply Hall. }
    eexists w, _. split; [done|]. split_and!; [| done| |done|by exists sts].
    + apply caches_ok_plan in Hw'. by rewrite Erelp, Erel in Hw'.
    + split; cbn [it_queryInfo it_strategy it_len it_cur]; [by eauto 10|done|done|].
      exists sts, rs, 0%nat. split_and!; [done|by rewrite Hl|done|lia|lia|done|done| |done|by rewrite Hl|].
      * intros ->. simpl in Hl. lia.
      * done.
Qed.

Lemma iter_next_step w0 w it lo sts (cur : nat) st :
  iter_at w0 w it lo -> it_strategy it = Some <$> sts -> it_cur it = Z.of_nat cur -> sts !! cur = Some st ->
  exists hi, lo < hi /\ startRow st = lo /\ lo + nrows st = hi /\
    serves (it_queryInfo it) w0 w filter rest writeData lo hi st /\
    iter_at w0 w (NoDBScanStrategyIteratorNext it) hi.
Proof.
  intros [Q1 Q2 Q3 (sts' & bs' & cur' & E1 & E2 & E3 & Hle & Hbl & Hs & Hf & Hnil & Hlo & Hno & Hall)] Es Ec Hst.
  rewrite Es in E1. apply (inj (fmap Some)) in E1. subst sts'. assert (cur' = cur) as -> by lia.
  pose proof (lookup_lt_Some _ _ _ Hst) as Hlt. pose proof (Hall cur st Hst) as Hsv. rewrite Hlo in Hsv.
  exists (bound bs' (S cur)). pose proof (bound_lt bs' cur (S cur) Hs ltac:(lia)) as Hb.
  pose proof (sv_start _ _ _ _ _ _ _ _ _ Hsv). pose proof (sv_rows _ _ _ _ _ _ _ _ _ Hsv).
  split_and!; [lia|done|lia|done|]. split; try done. exists sts, bs', (S cur). cbn.
  split_and!; [done|done|lia|lia|done|done|done|done|done|done|]. done.
Qed.

End iterator.
