(* ===== verification/IteratorSound.v ===== *)
(** * The strategies of a scan

    Making an iterator, taking strategies from it and moving on: the strategies
    cover the rows of the file one after the other without a gap, each serves
    the columns of the query, and every row is reached. *)
From S2P Require Import Prelude LinkedList Vectors Bitmap Relation Cache CacheData PositionalMap CacheSelect StrategyMatrix MatrixSound ScanStrategy StrategySound.

Implicit Types (w : world) (q : NoDBQueryInfo_t) (it : NoDBScanStrategyIterator_t).
Abbreviation bound bs i := (default 0 ((bs : list Z) !! (i : nat))).

(** The columns of a request are columns of the relation, and fit a cache. *)
Record request_ok (rel : NoDBRelation_t) (cols : list Z) : Prop := {
  rq_range : Forall (fun x => 0 <= x < NoDBRelationGetNumberColumns rel) cols;
  rq_size : forall x, x ∈ cols -> exists size,
    NoDBRelationGetColumnSize rel x = Ok size /\ 0 <= size <= NODB_DATA_CACHE_DEFAULT_SIZE;
  rq_ncols : 0 <= NoDBRelationGetNumberColumns rel <= 2 ^ 31 }.

(** [rows] as [GetInterestingRows] returns them. *)
Lemma rows_cut relp w : world_ok w -> exists rows, GetInterestingRows w relp = Ok rows /\
  (rows = [] /\ no_rows_from relp w 0 \/
   rows_ok_list rows /\ bound rows 0 = 0 /\ no_rows_from relp w (bound rows (length rows - 1)) /\
   (forall i p c row, (S i < length rows)%nat -> p ∈ NoDBCaches w -> w_caches w !! p = Some c -> c_rel c = relp ->
     bound rows i <= row < bound rows (S i) -> NoDBCacheHasRow c row = NoDBCacheHasRow c (bound rows i))).
Proof.
  intros Hw. destruct (GetInterestingRows_spec w relp Hw) as (rows & -> & Hs & Hx & Hne). exists rows. split; [done|].
  assert (Hedge : forall x, row_edges w relp (NoDBCaches w) x -> 0 <= x < 2 ^ 64).
  { intros x (p & c & Hp & Ec & _ & _ & He). destruct (wo_caches _ Hw p Hp) as (c' & lay & Ec' & _ & (? & ? & ?)).
    simplify_eq. lia. }
  assert (Hlast : forall p c row lo, p ∈ NoDBCaches w -> w_caches w !! p = Some c -> c_rel c = relp ->
    (forall x, x ∈ rows -> x <= lo) -> lo <= row -> NoDBCacheHasRow c row = false).
  { intros p c row lo Hp Ec Hr Hmax Hlo. destruct (wo_caches _ Hw p Hp) as (c' & lay & Ec' & _ & Hok). simplify_eq.
    rewrite HasRow_exact by done. destruct Hok as (? & ? & ?). apply bool_decide_eq_false_2. intros Hin.
    assert (c_startRow c + c_usedRows c ∈ rows).
    { apply Hx. left. exists p, c. split_and!; try done; [lia|by right]. }
    specialize (Hmax _ H2). lia. }
  destruct (decide (rows = [])) as [->|Hnil]; [left|right].
  - split; [done|]. intros p c row Hp Ec Hr Hrow. apply (Hlast p c row row Hp Ec Hr); [|lia].
    intros x Hin. by apply elem_of_nil in Hin.
  - destruct (Hne Hnil) as [e He]. assert (H0 : 0 ∈ rows) by (apply Hx; by right).
    assert (Hall : Forall (fun row => 0 <= row < 2 ^ 64) rows).
    { apply Forall_forall. intros x [?|[-> _]]%Hx; [by apply Hedge|lia]. }
    assert (Hb0 : bound rows 0 = 0).
    { destruct rows as [|x rows]; [done|]. cbn. apply elem_of_cons in H0 as [?|H0]; [done|].
      inversion_clear Hs as [|? ? _ Hf]. rewrite Forall_forall in Hf. specialize (Hf _ H0).
      apply Forall_cons in Hall as [? _]. lia. }
    assert (Hlen : (2 <= length rows)%nat).
    { destruct He as (p & c & Hp & Ec & Hr & Hu & _).
      assert (H1 : c_startRow c ∈ rows) by (apply Hx; left; exists p, c; split_and!; try done; by left).
      assert (H2 : c_startRow c + c_usedRows c ∈ rows) by (apply Hx; left; exists p, c; split_and!; try done; by right).
      destruct rows as [|a [|b rows]]; simpl; [done| |lia].
      apply list_elem_of_singleton in H1, H2. lia. }
    split_and!; [by split_and!|done| |].
    + intros p c row Hp Ec Hr. apply (Hlast p c row _ Hp Ec Hr). intros x [i Hi]%list_elem_of_lookup.
      pose proof (lookup_lt_Some _ _ _ Hi). destruct (decide (i = length rows - 1)%nat) as [->|]; [by rewrite Hi|].
      pose proof (bound_lt rows i (length rows - 1) Hs ltac:(lia)) as Hlt. rewrite Hi in Hlt. simpl in Hlt. lia.
    + intros i p c row Hi Hp Ec Hr. destruct (lookup_lt_is_Some_2 rows i) as [a Ha]; [lia|].
      destruct (lookup_lt_is_Some_2 rows (S i) Hi) as [b Hb]. rewrite Ha, Hb. cbn [default from_option id]. intros Hrow.
      apply (rows_constant w relp rows i a b p c row); try done. intros x ?. apply Hx. by left.
Qed.

Section scan.
Context (relp : Z) (rel : NoDBRelation_t) (limit : Z) (filter rest writeData writePositions : list Z).
Abbreviation iter_at := (iter_at relp rel filter rest writeData).

(** The query that an iterator is made for: its columns, and the bitmaps of the
    columns that the scan asked for. *)
Lemma iterator_query w : request_ok rel (filter ++ rest ++ writeData ++ writePositions) ->
  exists q cs wd wp fb rb, query_base q cs wd wp fb rb /\ q_relp q = relp /\ q_rel q = rel /\
    bits_for cs filter fb /\ bits_for cs rest rb /\ bits_for cs writeData wd /\ bits_for cs writePositions wp /\
    (forall x, x ∈ cs -> x ∈ filter ++ rest ++ writeData ++ writePositions) /\
    NoDBScanStrategyIterator w relp rel limit (col_vector filter) (col_vector rest) (col_vector writeData) (col_vector writePositions)
    = (rows ← GetInterestingRows w relp;
       let it := {| it_queryInfo := set_q_rows q (row_vector rows); it_strategy := NULL; it_len := 0; it_cur := 0 |} in
       if Z.of_nat (length rows) =? 0 then Ok (w, it) else BuildStrategy it w).
Proof.
  intros [Hrange Hsize Hn]. unfold NoDBScanStrategyIterator.
  destruct (collect_cols_spec filter []) as (l1 & -> & L1 & N1). cbn [mbind result_bind].
  destruct (collect_cols_spec rest l1) as (l2 & -> & L2 & N2). cbn [mbind result_bind].
  destruct (collect_cols_spec writeData l2) as (l3 & -> & L3 & N3). cbn [mbind result_bind].
  destruct (collect_cols_spec writePositions l3) as (l4 & -> & L4 & N4). cbn [mbind result_bind].
  assert (Hl4 : forall x, x ∈ l4 <-> x ∈ filter ++ rest ++ writeData ++ writePositions).
  { intros x. rewrite L4, L3, L2, L1, !elem_of_app, elem_of_nil. tauto. }
  rewrite Forall_forall in Hrange.
  destruct (NoDBColVectorSort_spec l4) as (cs & -> & Hperm & Hle).
  { apply Forall_forall. intros x Hx%Hl4. specialize (Hrange x Hx). simpl in Hrange. lia. }
  cbn [mbind result_bind].
  assert (Hin : forall x, x ∈ cs <-> x ∈ filter ++ rest ++ writeData ++ writePositions) by (intros x; rewrite Hperm; apply Hl4).
  assert (Hsorted : StronglySorted Z.lt cs). { apply sorted_le_lt; [|done]. rewrite Hperm. apply N4, N3, N2, N1. constructor. }
  destruct (column_bitmap_spec cs (fun col => x ← NoDBColVectorContains (col_vector filter) col;
    y ← NoDBColVectorContains (col_vector rest) col; Ok (x || y)) (fun x => bool_decide (x ∈ filter) || bool_decide (x ∈ rest)))
    as (rdb & -> & _ & _); [intros x _; by rewrite !NoDBColVectorContains_spec|]. cbn [mbind result_bind].
  assert (Hbm : forall l, (forall x, x ∈ l -> x ∈ cs) -> exists b, column_bitmap (col_vector cs) (NoDBColVectorContains (col_vector l))
    = Ok (bitmap_of b) /\ length b = length cs /\ bits_for cs l b).
  { intros l Hl. destruct (column_bitmap_spec cs (NoDBColVectorContains (col_vector l)) (fun x => bool_decide (x ∈ l)))
      as (b & E & Hb & Hk); [intros x _; apply NoDBColVectorContains_spec|]. exists b. split_and!; [done..|]. by split. }
  setoid_rewrite elem_of_app in Hin. setoid_rewrite elem_of_app in Hin. setoid_rewrite elem_of_app in Hin.
  destruct (Hbm filter) as (fb & -> & Hfl & Hfb); [intros x ?; apply Hin; tauto|]. cbn [mbind result_bind].
  destruct (Hbm rest) as (rb & -> & Hrl & Hrb); [intros x ?; apply Hin; tauto|]. cbn [mbind result_bind].
  destruct (Hbm writeData) as (wd & -> & Hwl & Hwd); [intros x ?; apply Hin; tauto|]. cbn [mbind result_bind].
  destruct (Hbm writePositions) as (wp & -> & Hpl & Hwp); [intros x ?; apply Hin; tauto|]. cbn [mbind result_bind].
  exists {| q_relp := relp; q_rel := rel; q_limit := limit; q_cols := col_vector cs; q_rows := row_vector [];
     q_readBitmap := bitmap_of rdb; q_readFilterBitmap := bitmap_of fb; q_readRestBitmap := bitmap_of rb;
     q_writeDataBitmap := bitmap_of wd; q_writePositionsBitmap := bitmap_of wp; q_readCols := l2 |}, cs, wd, wp, fb, rb.
  split_and!; try done; [|intros x Hx; rewrite !elem_of_app; by apply Hin].
  split; try done.
  - apply Forall_forall. intros x Hx. apply Hrange. rewrite !elem_of_app. by apply Hin.
  - intros x Hx. apply Hin. apply L2 in Hx. rewrite L1, elem_of_nil in Hx. tauto.
  - intros x Hx. apply Hsize. rewrite !elem_of_app. by apply Hin.
  - cbn. lia.
Qed.

Lemma NoDBScanStrategyIterator_spec w :
  caches_ok relp rel w -> request_ok rel (filter ++ rest ++ writeData ++ writePositions) ->
  exists w' it, NoDBScanStrategyIterator w relp rel limit (col_vector filter) (col_vector rest) (col_vector writeData)
      (col_vector writePositions) = Ok (w', it) /\
    caches_ok relp rel w' /\ extends w w' /\ iter_at w w' it 0.
Proof.
  intros Hw Hreq. destruct (iterator_query w Hreq) as (q & cs & wd & wp & fb & rb & Hb & Erelp & Erel & Hfb & Hrb & Hwd & _ & _ & ->).
  pose proof (caches_ok_world _ _ _ Hw) as Hok.
  destruct (rows_cut relp w Hok) as (rows & -> & Hrows). cbn [mbind result_bind].
  match goal with |- context [BuildStrategy ?i w] => set (it0 := i) end.
  assert (Hbase : query_base (it_queryInfo it0) cs wd wp fb rb) by (destruct Hb; by split).
  destruct Hrows as [[-> Hno]|(Hr & Hb0 & Hend & Hconst)].
  - cbn. exists w, it0. split_and!; [done|done|apply extends_refl|].
    split; [by eauto 10|done|done|]. exists [], [0], 0%nat.
    split_and!; try done; [repeat constructor|repeat constructor; lia].
  - match goal with |- context [if ?b then _ else _] => assert (b = false) as -> end.
    { destruct Hr as (_ & _ & ?). apply Z.eqb_neq. unfold NoDBRowVectorSize. cbn. lia. }
    destruct (build_iter relp rel filter rest writeData it0 cs wd wp fb rb w rows) as (w' & it' & -> & Hw' & Hext & Hat & _);
      try done.
    rewrite Hb0 in Hat. exists w', it'. by split_and!.
Qed.

Lemma no_rows_extends w w' lo : caches_ok relp rel w -> caches_ok relp rel w' -> extends w w' ->
  no_rows_from relp w lo -> no_rows_from relp w' lo.
Proof.
  intros Hw Hw' He Hno p c' row Hp Ec Hrel Hrow. destruct (NoDBCacheHasRow c' row) eqn:E; [|done].
  assert (Hold : p ∈ NoDBCaches w /\ exists c, w_caches w !! p = Some c /\ same_info c c').
  { destruct (decide (p ∈ NoDBCaches w)) as [Hin|Hn].
    - split; [done|]. destruct (co_caches _ _ _ Hw p Hin) as (c & Ec0 & _).
      destruct (ex_info _ _ He p c Hin Ec0) as (c2 & E2 & Hi). simplify_eq. eauto.
    - exfalso. pose proof (ex_new _ _ He p c' Hp Hn Ec) as Hu.
      destruct (co_caches _ _ _ Hw' p Hp) as (c2 & E2 & (lay & _ & _ & Hi & _)). simplify_eq.
      rewrite HasRow_exact in E by done. apply bool_decide_eq_true in E. lia. }
  destruct Hold as (Hin & c & Ec0 & Hi). rewrite (same_info_row _ _ _ Hi) in E.
  rewrite <- E. apply (Hno p c row); try done. destruct Hi as [Hr _]. congruence.
Qed.

Lemma first_row lo : NoDBRowVectorSet (NoDBRowVectorArenaInit 2) 0 lo = Ok {| rv_size := 2; rv_rows := [Some lo; None] |}.
Proof. done. Qed.
Lemma second_row lo hi : NoDBRowVectorSet {| rv_size := 2; rv_rows := [Some lo; None] |} 1 hi = Ok (row_vector [lo; hi]).
Proof. done. Qed.

(** Taking a strategy, when one is left and when a new one is made. *)
Lemma Get_left w0 w1 w it lo :
  iter_at w0 w1 it lo -> it_cur it < it_len it ->
  exists st hi, NoDBScanStrategyIteratorGet it w = Ok (w, it, st) /\ lo < hi /\
    serves (it_queryInfo it) w0 w1 filter rest writeData lo hi st /\ iter_at w0 w1 (NoDBScanStrategyIteratorNext it) hi.
Proof.
  intros Hat Hlt. pose proof Hat as [_ _ _ (sts & bs & cur & E1 & E2 & E3 & Hle & _)].
  destruct (lookup_lt_is_Some_2 sts cur) as [st Hst]; [lia|].
  destruct (iter_next_step _ _ _ _ _ _ _ _ _ _ _ _ Hat E1 E3 Hst) as (hi & Hlo & _ & _ & Hsv & Hn). exists st, hi.
  split_and!; [|done..]. unfold NoDBScanStrategyIteratorGet.
  destruct (Z.eqb_spec (it_cur it) (it_len it)); [lia|]. cbn [mbind result_bind fst snd]. rewrite E1, E3.
  rewrite (arr_get_holds sts (Z.of_nat cur) st) by (rewrite ?Nat2Z.id; (lia || done)). done.
Qed.

Lemma Get_new w0 w1 w it lo :
  iter_at w0 w1 it lo -> it_cur it = it_len it -> caches_ok relp rel w -> no_rows_from relp w lo ->
  lo + NODB_CACHE_DEFAULT_ROWS < 2 ^ 64 ->
  exists w' it' st, NoDBScanStrategyIteratorGet it w = Ok (w', it', st) /\ caches_ok relp rel w' /\ extends w w' /\
    serves (it_queryInfo it') w w' filter rest writeData lo (lo + NODB_CACHE_DEFAULT_ROWS) st /\
    iter_at w w' (NoDBScanStrategyIteratorNext it') (lo + NODB_CACHE_DEFAULT_ROWS).
Proof.
  intros [(cs & wd & wp & fb & rb & Hb & B1 & B2 & B3) Erelp Erel (sts & bs & cur & E1 & E2 & E3 & Hle & Hbl & Hs & Hf & Hnil & Hlo & _ & Hall)]
    Hcur Hw Hno Hmax. unfold NoDBScanStrategyIteratorGet. rewrite Hcur, Z.eqb_refl.
  assert (cur = length sts) as -> by lia. pose proof (bound_range bs (length sts) Hf ltac:(lia)) as Hrange. rewrite Hlo in Hrange.
  assert ((if it_len it =? 0 then Ok 0
    else st ← arr_get (it_strategy it) (it_len it - 1); Ok (u64 (startRow st + nrows st))) = Ok lo) as ->.
  { rewrite E2. destruct sts as [|st0 sts0] eqn:Es.
    - cbn. specialize (Hnil eq_refl). subst bs. cbn in Hlo. by subst.
    - rewrite <- Es in *. destruct (Z.eqb_spec (Z.of_nat (length sts)) 0) as [H0|H0]; [rewrite Es in H0; simpl in H0; lia|].
      destruct (lookup_lt_is_Some_2 sts (length sts - 1)) as [st Hst]; [lia|]. rewrite E1.
      rewrite (arr_get_holds sts _ st) by (lia || by replace (Z.to_nat (Z.of_nat (length sts) - 1)) with (length sts - 1)%nat by lia).
      cbn [mbind result_bind]. rewrite (sv_rows _ _ _ _ _ _ _ _ _ (Hall _ _ Hst)).
      replace (S (length sts - 1)) with (length sts) by lia. rewrite Hlo. unfold u64. by rewrite wrap_small. }
  cbn [mbind result_bind]. unfold u64. rewrite (wrap_small 64 (lo + _)) by (unfold NODB_CACHE_DEFAULT_ROWS in *; lia).
  rewrite first_row. cbn [mbind result_bind]. rewrite second_row. cbn [mbind result_bind]. set (hi := lo + NODB_CACHE_DEFAULT_ROWS) in *.
  assert (Hlt : lo < hi) by (unfold hi, NODB_CACHE_DEFAULT_ROWS; lia).
  match goal with |- context [BuildStrategy ?i w] => set (it0 := i) end.
  destruct (build_iter relp rel filter rest writeData it0 cs wd wp fb rb w [lo; hi]) as (w' & it' & -> & Hw' & Hext & Hat & Hcur' & sts' & Es' & Hl' & Hall');
    try done.
  - destruct Hb. by split.
  - split_and!; [|repeat constructor; lia|simpl; lia]. repeat constructor. done.
  - intros i p c row Hi Hp Ec Hrel Hrow. assert (i = 0%nat) as -> by (simpl in Hi; lia). cbn in Hrow |- *.
    rewrite !(Hno p c) by (done || lia). done.
  - intros p c row Hp Ec Hrel Hrow. cbn in Hrow. apply (Hno p c); (done || lia).
  - cbn [mbind result_bind fst snd]. destruct (lookup_lt_is_Some_2 sts' 0) as [st Hst]; [simpl in Hl'; lia|].
    rewrite Es', Hcur'. rewrite (arr_get_holds sts' 0 st) by (done || lia). cbn [mbind result_bind].
    exists w', it', st. pose proof (Hall' 0%nat st Hst) as Hsv. cbn in Hsv.
    destruct (iter_next_step _ _ _ _ _ _ _ _ _ _ 0 st Hat Es' Hcur' Hst) as (hi' & _ & S1 & S2 & _ & Hn).
    pose proof (sv_rows _ _ _ _ _ _ _ _ _ Hsv). assert (hi' = hi) as -> by (cbn in *; lia). by split_and!.
Qed.

(** Taking strategy after strategy, with nothing read in between. *)
Fixpoint run_iter (n : nat) it w : result (world * NoDBScanStrategyIterator_t * NoDBScanStrategy_t) :=
  x ← NoDBScanStrategyIteratorGet it w;
  match n with
  | O => Ok x
  | S n' => run_iter n' (NoDBScanStrategyIteratorNext x.1.2) x.1.1
  end.

Lemma run_iter_reaches row : row + NODB_CACHE_DEFAULT_ROWS < 2 ^ 64 -> forall (k : nat) w0 w1 w it lo,
  (Z.to_nat (row - lo) <= k)%nat -> lo <= row ->
  iter_at w0 w1 it lo -> caches_ok relp rel w0 -> caches_ok relp rel w -> extends w0 w ->
  exists n w' it' st, (n <= k)%nat /\ run_iter n it w = Ok (w', it', st) /\ startRow st <= row < startRow st + nrows st /\
    exists wa wb, serves (it_queryInfo it') wa wb filter rest writeData (startRow st) (startRow st + nrows st) st.
Proof.
  intros Hmax. induction k as [|k IH]; intros w0 w1 w it lo Hk Hlo Hat Hw0 Hw Hext.
  all: pose proof Hat as [_ _ _ (sts & bs & cur & E1 & E2 & E3 & Hle & Hbl & Hs & Hf & _ & Elo & Hno & _)].
  all: assert (Hget : exists w' it' st hi wa wb, NoDBScanStrategyIteratorGet it w = Ok (w', it', st) /\ lo < hi /\
    caches_ok relp rel wa /\ caches_ok relp rel w' /\ extends wa w' /\
    serves (it_queryInfo it') wa wb filter rest writeData lo hi st /\ iter_at wa wb (NoDBScanStrategyIteratorNext it') hi).
  1,3: destruct (Z.lt_ge_cases (it_cur it) (it_len it)) as [Hlt|Hge];
    [destruct (Get_left w0 w1 w it lo Hat Hlt) as (st & hi & E & ? & ? & ?); exists w, it, st, hi, w0, w1; by split_and!|];
    assert (Hcur : it_cur it = it_len it) by lia; assert (cur = length sts) as -> by lia; rewrite Elo in Hno;
    destruct (Get_new w0 w1 w it lo Hat Hcur Hw) as (w' & it' & st & E & ? & ? & ? & ?);
      [by apply (no_rows_extends w0)|unfold NODB_CACHE_DEFAULT_ROWS in *; lia|];
    exists w', it', st, (lo + NODB_CACHE_DEFAULT_ROWS), w, w'; split_and!; try done; unfold NODB_CACHE_DEFAULT_ROWS; lia.
  all: destruct Hget as (w' & it' & st & hi & wa & wb & E & Hlt & Ha & Hw' & He & Hsv & Hn).
  all: pose proof (sv_start _ _ _ _ _ _ _ _ _ Hsv) as S1; pose proof (sv_rows _ _ _ _ _ _ _ _ _ Hsv) as S2.
  all: assert (Hhere : row < hi -> exists wa wb, serves (it_queryInfo it') wa wb filter rest writeData (startRow st) (startRow st + nrows st) st)
    by (intros _; exists wa, wb; by rewrite S2, S1).
  - exists 0%nat, w', it', st. cbn [run_iter]. rewrite E. split_and!; [lia|done|lia|lia|apply Hhere; lia].
  - destruct (Z.lt_ge_cases row hi) as [Hr|Hr].
    + exists 0%nat, w', it', st. cbn [run_iter]. rewrite E. split_and!; [lia|done|lia|lia|by apply Hhere].
    + destruct (IH wa wb w' (NoDBScanStrategyIteratorNext it') hi) as (n & w2 & it2 & st2 & Hnk & En & Hrest); try done; [lia|].
      exists (S n), w2, it2, st2. split; [lia|]. split; [|done]. cbn [run_iter]. rewrite E. exact En.
Qed.

End scan.

(** ** Properties *)

(** C5 [NoDBScanStrategyIterator] returns for any columns of the relation. The
    caches stay well formed and only gain room, columns and new caches; the
    iterator is at row 0, its strategies begin and end where the caches of the
    relation begin or end, follow one another without a gap and reach past the
    last cached row, and each serves the request: a column of the filter is
    available before the filter, any other column to read before or after it,
    from a data cache that has it for every row of the strategy or by conversion
    from a position found in the file or in a map that has it for every row;
    whatever is listed to be read is in its cache for every row, and what is
    listed to be written has its place in a cache. *)
Theorem NoDBScanStrategyIterator_correct relp rel limit filter rest writeData writePositions w :
  caches_ok relp rel w -> request_ok rel (filter ++ rest ++ writeData ++ writePositions) ->
  exists w' it, NoDBScanStrategyIterator w relp rel limit (col_vector filter) (col_vector rest) (col_vector writeData)
      (col_vector writePositions) = Ok (w', it) /\
    caches_ok relp rel w' /\ extends w w' /\ iter_at relp rel filter rest writeData w w' it 0.
Proof. apply NoDBScanStrategyIterator_spec. Qed.

(** C6 [NoDBScanStrategyIteratorGet] returns the strategy at the iterator. While
    strategies are left it changes nothing. At the end, when no cache of the
    relation has a row from there on, it makes a strategy for the next 10,000
    rows that serves the request with the caches as they are then. Moving on
    leaves the iterator at the row where the strategy ends. *)
Theorem NoDBScanStrategyIteratorGet_correct relp rel filter rest writeData w0 w1 w it lo :
  iter_at relp rel filter rest writeData w0 w1 it lo -> caches_ok relp rel w ->
  (it_cur it = it_len it -> no_rows_from relp w lo /\ lo + NODB_CACHE_DEFAULT_ROWS < 2 ^ 64) ->
  exists w' it' st hi, NoDBScanStrategyIteratorGet it w = Ok (w', it', st) /\ caches_ok relp rel w' /\ lo < hi /\
    ((it_cur it < it_len it /\ w' = w /\ it' = it /\
      serves (it_queryInfo it) w0 w1 filter rest writeData lo hi st /\
      iter_at relp rel filter rest writeData w0 w1 (NoDBScanStrategyIteratorNext it) hi) \/
     (it_cur it = it_len it /\ extends w w' /\ hi = lo + NODB_CACHE_DEFAULT_ROWS /\
      serves (it_queryInfo it') w w' filter rest writeData lo hi st /\
      iter_at relp rel filter rest writeData w w' (NoDBScanStrategyIteratorNext it') hi)).
Proof.
  intros Hat Hw Hend. pose proof Hat as [_ _ _ (sts & bs & cur & E1 & E2 & E3 & Hle & _)].
  destruct (Z.lt_ge_cases (it_cur it) (it_len it)) as [Hlt|Hge].
  - destruct (Get_left relp rel filter rest writeData w0 w1 w it lo Hat Hlt) as (st & hi & E & ? & ? & ?).
    exists w, it, st, hi. split_and!; [done..|]. left. by split_and!.
  - assert (Hcur : it_cur it = it_len it) by lia. destruct (Hend Hcur) as [Hno Hmax].
    destruct (Get_new relp rel filter rest writeData w0 w1 w it lo Hat Hcur Hw Hno Hmax) as (w' & it' & st & E & ? & ? & ? & ?).
    exists w', it', st, (lo + NODB_CACHE_DEFAULT_ROWS).
    split_and!; [done|done|unfold NODB_CACHE_DEFAULT_ROWS; lia|]. right. by split_and!.
Qed.

(** C7 Every row is reached: from a new iterator, taking a strategy and moving on
    at most [row] times yields a strategy whose rows include [row], and it serves
    the request. *)
Theorem NoDBScanStrategyIterator_reaches relp rel limit filter rest writeData writePositions w row :
  caches_ok relp rel w -> request_ok rel (filter ++ rest ++ writeData ++ writePositions) ->
  0 <= row -> row + NODB_CACHE_DEFAULT_ROWS < 2 ^ 64 ->
  exists w' it n w2 it2 st, NoDBScanStrategyIterator w relp rel limit (col_vector filter) (col_vector rest)
      (col_vector writeData) (col_vector writePositions) = Ok (w', it) /\
    (n <= Z.to_nat row)%nat /\ run_iter n it w' = Ok (w2, it2, st) /\ startRow st <= row < startRow st + nrows st /\
    exists wa wb, serves (it_queryInfo it2) wa wb filter rest writeData (startRow st) (startRow st + nrows st) st.
Proof.
  intros Hw Hrq H0 Hmax. destruct (NoDBScanStrategyIterator_spec relp rel limit filter rest writeData writePositions w Hw Hrq)
    as (w' & it & E & Hw' & Hext & Hat).
  destruct (run_iter_reaches relp rel filter rest writeData row Hmax (Z.to_nat row) w w' w' it 0)
    as (n & w2 & it2 & st & Hn & Er & Hrow & Hsv); try done; try lia.
  exists w', it, n, w2, it2, st. split_and!; try done; apply Hrow.
Qed.

(** ** Witnesses *)
Lemma ex_caches_ok : caches_ok 1 example_rel ex_world.
Proof. apply (caches_ok_plan ex_query), ex_plan_world. Qed.

Lemma ex_request_ok : request_ok example_rel ([1] ++ [3; 5] ++ [1; 3] ++ [1; 5]).
Proof.
  split.
  - repeat constructor; cbn; lia.
  - intros x Hx. exists 2. split; [|unfold NODB_DATA_CACHE_DEFAULT_SIZE; lia].
    cbn in Hx. rewrite !elem_of_cons, elem_of_nil in Hx.
    by destruct Hx as [->|[->|[->|[->|[->|[->|[->|[]]]]]]]].
  - cbn. lia.
Qed.

Definition ex_iterator :=
  NoDBScanStrategyIterator ex_world 1 example_rel 0 (col_vector [1]) (col_vector [3; 5]) (col_vector [1; 3]) (col_vector [1; 5]).

Lemma NoDBScanStrategyIterator_witness :
  exists w' it, ex_iterator = Ok (w', it) /\ caches_ok 1 example_rel w' /\ extends ex_world w' /\
    iter_at 1 example_rel [1] [3; 5] [1; 3] ex_world w' it 0.
Proof.
  apply (NoDBScanStrategyIterator_correct 1 example_rel 0 [1] [3; 5] [1; 3] [1; 5] ex_world).
  - apply ex_caches_ok.
  - apply ex_request_ok.
Defined.

(** A relation with no caches yet: the first strategy is made by the first call. *)
Definition empty_world : world := {| w_caches := ∅; NoDBCaches := []; w_next := 1 |}.

Lemma no_caches_ok relp rel : caches_ok relp rel empty_world.
Proof.
  split; cbn.
  - intros p Hp. by apply elem_of_nil in Hp.
  - intros H. by apply elem_of_nil in H.
  - intros p [c Hc]. by rewrite lookup_empty in Hc.
  - lia.
Qed.

Lemma Get_witness :
  exists w1 it, NoDBScanStrategyIterator empty_world 1 example_rel 0 (col_vector [1]) (col_vector [3; 5]) (col_vector [1; 3])
      (col_vector [1; 5]) = Ok (w1, it) /\
  exists w' it' st hi, NoDBScanStrategyIteratorGet it w1 = Ok (w', it', st) /\ caches_ok 1 example_rel w' /\ 0 < hi /\
    ((it_cur it < it_len it /\ w' = w1 /\ it' = it /\
      serves (it_queryInfo it) empty_world w1 [1] [3; 5] [1; 3] 0 hi st /\
      iter_at 1 example_rel [1] [3; 5] [1; 3] empty_world w1 (NoDBScanStrategyIteratorNext it) hi) \/
     (it_cur it = it_len it /\ extends w1 w' /\ hi = 0 + NODB_CACHE_DEFAULT_ROWS /\
      serves (it_queryInfo it') w1 w' [1] [3; 5] [1; 3] 0 hi st /\
      iter_at 1 example_rel [1] [3; 5] [1; 3] w1 w' (NoDBScanStrategyIteratorNext it') hi)).
Proof.
  destruct (NoDBScanStrategyIterator_spec 1 example_rel 0 [1] [3; 5] [1; 3] [1; 5] empty_world) as (w1 & it & E & Hw & He & Hat).
  - apply no_caches_ok.
  - apply ex_request_ok.
  - exists w1, it. split; [exact E|].
    apply (NoDBScanStrategyIteratorGet_correct 1 example_rel [1] [3; 5] [1; 3] empty_world w1 w1 it 0).
    + exact Hat.
    + exact Hw.
    + intros _. split; [|vm_compute; reflexivity].
      intros p c row Hp Ec _ _. destruct (decide (p ∈ NoDBCaches empty_world)) as [Hin|Hn]; [by apply elem_of_nil in Hin|].
      pose proof (ex_new _ _ He p c Hp Hn Ec) as Hu. destruct (co_caches _ _ _ Hw p Hp) as (c' & Ec' & (lay & _ & _ & Hr & _)).
      simplify_eq. rewrite HasRow_exact by done. apply bool_decide_eq_false_2. lia.
Defined.

Lemma NoDBScanStrategyIterator_reaches_witness :
  exists w' it n w2 it2 st, NoDBScanStrategyIterator ex_world 1 example_rel 0 (col_vector [1]) (col_vector [3; 5])
      (col_vector [1; 3]) (col_vector [1; 5]) = Ok (w', it) /\
    (n <= Z.to_nat 20000)%nat /\ run_iter n it w' = Ok (w2, it2, st) /\ startRow st <= 20000 < startRow st + nrows st /\
    exists wa wb, serves (it_queryInfo it2) wa wb [1] [3; 5] [1; 3] (startRow st) (startRow st + nrows st) st.
Proof.
  apply (NoDBScanStrategyIterator_reaches 1 example_rel 0 [1] [3; 5] [1; 3] [1; 5] ex_world 20000).
  - apply ex_caches_ok.
  - apply ex_request_ok.
  - lia.
  - vm_compute. reflexivity.
Defined.

(** The strategies of the example: where each begins and how many rows it has,
    and the columns it converts before and after the filter. *)
Example ex_strategies :
  (wi ← ex_iterator; Ok ((fun o => match o with
     | Some st => (startRow st, nrows st, cv_cols (convertPreFilter st), cv_cols (convertPostFilter st))
     | None => (0, 0, [], []) end) <$> it_strategy wi.2)) =
  Ok [(0, 50, [Some 3; Some 1], [Some 5]); (50, 30, [Some 3; Some 1], [Some 5]); (80, 20, [Some 3; Some 1], [Some 5])].
Proof. vm_compute. reflexivity. Qed.
