(* ===== verification/ExecInfo.v ===== *)
(** * The registry of relations in use (NoDBExecInfo.c)

    One [NoDBExecInfo_t] per relation, in a vector that grows: which columns are
    cached, which columns a running scan may write (a lock per column for the
    data caches and one for the positional maps), and the size of the relation.
    A scan asks the policy for the columns it may write, and gives the locks back
    when it ends or starts again. *)
From S2P Require Import Prelude Vectors Bitmap Relation Cache EOLCache.

Definition FILENAME_SIZE : nat := 256.
Definition NELLEM_ALLOC : Z := 5.
Definition BLCKSZ : Z := 8192.

Record NoDBController_t := { firstTime : bool; disable_need_transcoding : bool }.
Record NoDBWritingLock_t := { lock_size : Z; CacheLock : arr Z; PMLock : arr Z }.
Record NoDBCachedInfo_t := { colsPM : NoDBBitmap_t; colsCache : NoDBBitmap_t }.
Record NoDBStatsInfo_t := { statsCollected : NoDBBitmap_t; blocks : Z; stat_rows : Z }.
Record NoDBExecInfo_t := {
  budgetPM : Z; budgetCache : Z; info : NoDBCachedInfo_t; locks : NoDBWritingLock_t;
  integrityCheck : NoDBController_t; relStats : NoDBStatsInfo_t;
  xi_relp : Z; xi_rel : NoDBRelation_t; filename : string }.
Implicit Types (x : NoDBExecInfo_t) (q : NoDBColVector_t).

(** [xv_block] is the address of the block [vector], which a realloc changes. *)
Record NoDBExecInfoVector_t := { xv_size : Z; xv_used : Z; xv_vector : arr NoDBExecInfo_t; xv_block : Z }.

(** The global [ExecInfo] ([None] when [NULL]); [xw_next] is the next address. *)
Record exec_world := { ExecInfo : option NoDBExecInfoVector_t; xw_next : Z }.
Implicit Types (st : exec_world) (v : NoDBExecInfoVector_t).

(** A [NoDBExecInfo_t *] is a block and an index; one into a block that was
    reallocated is indeterminate. *)
Definition exec_ptr : Type := Z * Z.
Definition get_info st (p : exec_ptr) : result NoDBExecInfo_t :=
  match ExecInfo st with
  | None => Fail NullDeref
  | Some v => if xv_block v =? p.1 then arr_get (xv_vector v) p.2 else Fail Indeterminate
  end.
Definition put_info st (p : exec_ptr) x : result exec_world :=
  match ExecInfo st with
  | None => Fail NullDeref
  | Some v =>
      if xv_block v =? p.1 then
        a ← arr_set (xv_vector v) p.2 x;
        Ok {| ExecInfo := Some {| xv_size := xv_size v; xv_used := xv_used v; xv_vector := a; xv_block := xv_block v |};
              xw_next := xw_next st |}
      else Fail Indeterminate
  end.

(** The vector with a free slot. *)
Definition exec_vector st : NoDBExecInfoVector_t * Z :=
  let '(v, next) := match ExecInfo st with
    | Some v => (v, xw_next st)
    | None => ({| xv_size := NELLEM_ALLOC; xv_used := 0; xv_vector := arr_alloc NELLEM_ALLOC; xv_block := xw_next st |},
               xw_next st + 1)
    end in
  if xv_used v =? xv_size v then
    ({| xv_size := xv_size v + NELLEM_ALLOC; xv_used := xv_used v;
        xv_vector := arr_realloc (xv_vector v) (xv_size v + NELLEM_ALLOC); xv_block := next |}, next + 1)
  else (v, next).

(** [strcpy] into [char filename[FILENAME_SIZE]]. *)
Definition new_info (relp : Z) (rel : NoDBRelation_t) (file : string) (bPM bCache : Z) : result NoDBExecInfo_t :=
  let natts := NoDBRelationGetNumberColumns rel in
  cc ← NoDBBitmapInit natts; cc' ← NoDBBitmapClearAll cc;
  cp ← NoDBBitmapInit natts; cp' ← NoDBBitmapClearAll cp;
  lk ← for_range 0 natts (fun j '(cl, pl) =>
    cl' ← arr_set cl j 0; pl' ← arr_set pl j 0; Ok (cl', pl')) (arr_alloc natts, arr_alloc natts);
  sc ← NoDBBitmapInit natts; sc' ← NoDBBitmapClearAll sc;
  if decide (String.length file < FILENAME_SIZE)%nat then
    Ok {| budgetPM := bPM; budgetCache := bCache; info := {| colsPM := cp'; colsCache := cc' |};
          locks := {| lock_size := natts; CacheLock := lk.1; PMLock := lk.2 |};
          integrityCheck := {| firstTime := true; disable_need_transcoding := false |};
          relStats := {| statsCollected := sc'; blocks := 0; stat_rows := 0 |};
          xi_relp := relp; xi_rel := rel; filename := file |}
  else Fail OutOfBounds.

Definition NoDBExecInfoInit st (relp : Z) (rel : NoDBRelation_t) (file : string) (bPM bCache : Z)
    : result (exec_world * exec_ptr) :=
  let '(v, next) := exec_vector st in
  x ← new_info relp rel file bPM bCache;
  a ← arr_set (xv_vector v) (xv_used v) x;
  Ok ({| ExecInfo := Some {| xv_size := xv_size v; xv_used := xv_used v + 1; xv_vector := a; xv_block := xv_block v |};
         xw_next := next |}, (xv_block v, xv_used v)).

(** [None] is [NULL]. *)
Definition NoDBGetExecInfo st (relation : string) : result (option exec_ptr) :=
  match ExecInfo st with
  | None => Ok None
  | Some v =>
      search_range 0 (xv_used v) (fun i =>
        x ← arr_get (xv_vector v) i;
        Ok (if decide (rel_name (xi_rel x) = relation) then Some (Some (xv_block v, i)) else None)) None
  end.

(** ** Policies *)
Definition NoDBNothingPolicy : NoDBColVector_t := NoDBColVectorInit 0.

(** The columns that are not locked, in order: counted, then collected, marked in
    the bitmap and locked. *)
Definition count_free (lock : arr Z) q : result Z :=
  for_range 0 (NoDBColVectorSize q) (fun i counter =>
    column ← NoDBColVectorGet q i; l ← arr_get lock column;
    Ok (if l =? 0 then counter + 1 else counter)) 0.

Definition take_free (lock : arr Z) (bits : NoDBBitmap_t) q : result (arr Z * NoDBBitmap_t * NoDBColVector_t) :=
  counter ← count_free lock q;
  y ← for_range 0 (NoDBColVectorSize q) (fun i '(lock, bits, cols, j) =>
    column ← NoDBColVectorGet q i; l ← arr_get lock column;
    if l =? 0 then
      cols' ← NoDBColVectorSet cols j column;
      bits' ← NoDBBitmapSet bits column;
      lock' ← arr_set lock column 1;
      Ok (lock', bits', cols', j + 1)
    else Ok (lock, bits, cols, j)) (lock, bits, NoDBColVectorInit counter, 0);
  Ok (y.1).

Definition set_locks x (l : NoDBWritingLock_t) (i : NoDBCachedInfo_t) : NoDBExecInfo_t :=
  {| budgetPM := budgetPM x; budgetCache := budgetCache x; info := i; locks := l; integrityCheck := integrityCheck x;
     relStats := relStats x; xi_relp := xi_relp x; xi_rel := xi_rel x; filename := filename x |}.

Definition NoDBAggressiveCachePolicy x q : result (NoDBExecInfo_t * NoDBColVector_t) :=
  y ← take_free (CacheLock (locks x)) (colsCache (info x)) q;
  let '(lock, bits, cols) := y in
  Ok (set_locks x {| lock_size := lock_size (locks x); CacheLock := lock; PMLock := PMLock (locks x) |}
        {| colsPM := colsPM (info x); colsCache := bits |}, cols).

Definition NoDBAggressivePMPolicy x q : result (NoDBExecInfo_t * NoDBColVector_t) :=
  y ← take_free (PMLock (locks x)) (colsPM (info x)) q;
  let '(lock, bits, cols) := y in
  Ok (set_locks x {| lock_size := lock_size (locks x); CacheLock := CacheLock (locks x); PMLock := lock |}
        {| colsPM := bits; colsCache := colsCache (info x) |}, cols).

(** [changed] tells whether a lock was held. *)
Definition release (lock : arr Z) q : result (arr Z * bool) :=
  for_range 0 (NoDBColVectorSize q) (fun i '(lock, changed) =>
    column ← NoDBColVectorGet q i; l ← arr_get lock column;
    lock' ← arr_set lock column 0;
    Ok (lock', if l =? 0 then changed else true)) (lock, false).

Definition NoDBExecReleaseCacheLocks x q : result (NoDBExecInfo_t * bool) :=
  y ← release (CacheLock (locks x)) q;
  Ok (set_locks x {| lock_size := lock_size (locks x); CacheLock := y.1; PMLock := PMLock (locks x) |} (info x), y.2).

Definition NoDBExecReleasePMLocks x q : result (NoDBExecInfo_t * bool) :=
  y ← release (PMLock (locks x)) q;
  Ok (set_locks x {| lock_size := lock_size (locks x); CacheLock := CacheLock (locks x); PMLock := y.1 |} (info x), y.2).

(** ** Integrity check and size *)
Definition set_check x (c : NoDBController_t) : NoDBExecInfo_t :=
  {| budgetPM := budgetPM x; budgetCache := budgetCache x; info := info x; locks := locks x; integrityCheck := c;
     relStats := relStats x; xi_relp := xi_relp x; xi_rel := xi_rel x; filename := filename x |}.
Definition set_stats x (b r : Z) : NoDBExecInfo_t :=
  {| budgetPM := budgetPM x; budgetCache := budgetCache x; info := info x; locks := locks x;
     integrityCheck := integrityCheck x;
     relStats := {| statsCollected := statsCollected (relStats x); blocks := b; stat_rows := r |};
     xi_relp := xi_relp x; xi_rel := xi_rel x; filename := filename x |}.

Definition NoDBExecIntegrityCheckCompleted x : NoDBExecInfo_t :=
  set_check x {| firstTime := false; disable_need_transcoding := true |}.
Definition NoDBGetNeedTranscoding x : bool := disable_need_transcoding (integrityCheck x).

(** [st_size] is the size that [stat] reports for a file name. *)
Definition NoDBComputeNumberOfBlocks (st_size : string -> Z) (file : string) : Z := u32 (Z.quot (st_size file) BLCKSZ).
Definition NoDBExecSetNumberOffBlocks (st_size : string -> Z) x : NoDBExecInfo_t :=
  let nBlocks := u32 (Z.quot (st_size (filename x)) BLCKSZ) in
  set_stats x (if nBlocks =? 0 then 1 else nBlocks) (stat_rows (relStats x)).
Definition NoDBExecSetNumberOffRows (eol : eol_state) x : result NoDBExecInfo_t :=
  p ← NoDBGetEOLCache eol (rel_name (xi_rel x));
  if p =? 0 then Ok (set_stats x (blocks (relStats x)) 100)
  else match ec_caches eol !! p with
       | Some c => Ok (set_stats x (blocks (relStats x)) (NoDBCacheGetUsedRows c))
       | None => Fail Indeterminate
       end.

(** [getInputFilename] looks the relation up in the configuration. *)
Definition NoDBExecGetNumberOfBlocks (st_size : string -> Z) (getInputFilename : string -> option string)
    (xo : option NoDBExecInfo_t) (relation : string) : Z :=
  match xo with
  | None => match getInputFilename relation with Some f => NoDBComputeNumberOfBlocks st_size f | None => 0 end
  | Some x => blocks (relStats x)
  end.
Definition NoDBExecGetNumberOfRows (xo : option NoDBExecInfo_t) : Z :=
  match xo with None => 0 | Some x => u32 (stat_rows (relStats x)) end.

(** ** Release: the blocks of an entry are gone, the entry stays. *)
Definition NoDBExecInfoDestroy x : NoDBExecInfo_t :=
  set_locks x {| lock_size := 0; CacheLock := NULL; PMLock := NULL |}
    {| colsPM := {| bm_size := 0; bm_bits := NULL |}; colsCache := {| bm_size := 0; bm_bits := NULL |} |}.

(** [ExecInfo] is freed and not reset; the entries are visited up to [size]. *)
Definition NoDBExecInfoVectorDestroy st : result (arr NoDBExecInfo_t) :=
  match ExecInfo st with
  | None => Fail NullDeref
  | Some v => for_range 0 (xv_size v) (fun i a => x ← arr_get a i; arr_set a i (NoDBExecInfoDestroy x)) (xv_vector v)
  end.

(** ** Lemmas *)

(** The locks and the bitmap of a relation with as many columns. *)
Definition locks_of (lk : list bool) : arr Z := Some <$> (bit <$> lk).
Definition mark (b : bool) (lk : list bool) (cs : list Z) : list bool := foldl (fun lk c => <[Z.to_nat c := b]> lk) lk cs.
Definition is_free (lk : list bool) (c : Z) : Prop := lk !! Z.to_nat c = Some false.
#[export] Instance is_free_dec lk c : Decision (is_free lk c).
Proof. unfold is_free. solve_decision. Defined.
Definition cols_of (n : nat) (l : list Z) : Prop := Forall (fun c => 0 <= c < Z.of_nat n) l.

Lemma length_mark b cs : forall lk, length (mark b lk cs) = length lk.
Proof.
  induction cs as [|c cs IH]; intros lk; [done|].
  change (length (mark b (<[Z.to_nat c := b]> lk) cs) = length lk). by rewrite IH, length_insert.
Qed.

Lemma mark_snoc b lk cs c : mark b lk (cs ++ [c]) = <[Z.to_nat c := b]> (mark b lk cs).
Proof. unfold mark. by rewrite foldl_app. Qed.

Lemma mark_other b cs : forall lk c, 0 <= c -> cols_of (length lk) cs -> c ∉ cs -> mark b lk cs !! Z.to_nat c = lk !! Z.to_nat c.
Proof.
  induction cs as [|d cs IH]; intros lk c Hc Hcs Hn; [done|]. apply not_elem_of_cons in Hn as [Hne Hn].
  apply Forall_cons in Hcs as [Hd Hcs]. change (mark b (<[Z.to_nat d := b]> lk) cs !! Z.to_nat c = lk !! Z.to_nat c).
  rewrite IH; [|done|by rewrite length_insert|done]. rewrite list_lookup_insert_ne; [done|lia].
Qed.

Lemma mark_in b cs lk c : cols_of (length lk) cs -> c ∈ cs -> mark b lk cs !! Z.to_nat c = Some b.
Proof.
  revert lk. induction cs as [|d cs IH]; intros lk Hcs Hin; [by apply elem_of_nil in Hin|].
  apply Forall_cons in Hcs as [Hd Hcs]. change (mark b (<[Z.to_nat d := b]> lk) cs !! Z.to_nat c = Some b).
  destruct (decide (c ∈ cs)) as [Hc|Hc]; [apply IH; [by rewrite length_insert|done]|].
  apply elem_of_cons in Hin as [->|Hin]; [|done].
  rewrite mark_other; [|lia|by rewrite length_insert|done]. apply list_lookup_insert_eq. lia.
Qed.

Lemma lock_read lk c : 0 <= c < Z.of_nat (length lk) ->
  exists l, arr_get (locks_of lk) c = Ok l /\ (l =? 0) = bool_decide (is_free lk c).
Proof.
  intros Hc. destruct (bitmap_read lk c Hc) as (b & Hb & E). exists (bit b). split; [exact E|].
  destruct b; [rewrite bool_decide_eq_false_2|rewrite bool_decide_eq_true_2]; unfold is_free; rewrite ?Hb; done.
Qed.

Lemma lock_write lk c (b : bool) : 0 <= c < Z.of_nat (length lk) ->
  arr_set (locks_of lk) c (bit b) = Ok (locks_of (<[Z.to_nat c := b]> lk)).
Proof. apply bitmap_write. Qed.

Lemma count_free_spec lk l : cols_of (length lk) l ->
  count_free (locks_of lk) (col_vector l) = Ok (Z.of_nat (length (filter (is_free lk) l))).
Proof.
  intros Hl. unfold count_free. cbn [NoDBColVectorSize cv_size col_vector].
  destruct (for_nat_inv (fun k n => n = Z.of_nat (length (filter (is_free lk) (take k l)))) (length l) (fun i counter =>
    column ← NoDBColVectorGet (col_vector l) i; l ← arr_get (locks_of lk) column;
    Ok (if l =? 0 then counter + 1 else counter)) 0) as (n & E & ->); [done| |by rewrite E, firstn_all].
  intros k n Hk ->. destruct (col_read l (Z.of_nat k)) as (c & Hc & E); [lia|]. rewrite Nat2Z.id in Hc.
  unfold NoDBColVectorGet. cbn [cv_cols col_vector]. rewrite E. cbn [mbind result_bind].
  destruct (lock_read lk c (proj1 (Forall_lookup _ _) Hl _ _ Hc)) as (x & -> & Ex). cbn [mbind result_bind]. rewrite Ex.
  eexists. split; [done|]. rewrite (take_S_r _ _ _ Hc), filter_app, length_app, filter_cons, filter_nil.
  case_bool_decide; [rewrite decide_True by done|rewrite decide_False by done]; simpl; lia.
Qed.

Lemma list_filter_all {A} (P : A -> Prop) `{!forall y, Decision (P y)} (l : list A) : (forall y, y ∈ l -> P y) -> filter P l = l.
Proof.
  induction l as [|a l IH]; intros Hl; [done|]. rewrite filter_cons, decide_True by (apply Hl; by left). f_equal. apply IH.
  intros y Hy. apply Hl. by right.
Qed.

Lemma Forall_filtered {A} (P Q : A -> Prop) `{!forall y, Decision (P y)} (l : list A) : Forall Q l -> Forall Q (filter P l).
Proof. intros Hl. apply Forall_forall. intros y [_ Hy]%list_elem_of_filter. by apply (proj1 (Forall_forall _ _) Hl). Qed.

Lemma take_free_spec lk bs l : NoDup l -> cols_of (length lk) l -> length bs = length lk ->
  take_free (locks_of lk) (bitmap_of bs) (col_vector l) =
    Ok (locks_of (mark true lk (filter (is_free lk) l)), bitmap_of (mark true bs (filter (is_free lk) l)),
        col_vector (filter (is_free lk) l)).
Proof.
  intros Hnd Hl Hb. unfold take_free. rewrite count_free_spec by done. cbn [mbind result_bind].
  set (fr := filter (is_free lk)) in *. set (body := fun i '(lock, bits, cols, j) => _).
  destruct (for_nat_inv (fun k y => y = (locks_of (mark true lk (fr (take k l))), bitmap_of (mark true bs (fr (take k l))),
      partial (length (fr l)) (fr (take k l)), Z.of_nat (length (fr (take k l))))) (length l) body
    (locks_of lk, bitmap_of bs, NoDBColVectorInit (Z.of_nat (length (fr l))), 0)) as (y & E & ->).
  - rewrite partial_empty, take_0. done.
  - intros k y Hk ->. destruct (col_read l (Z.of_nat k)) as (c & Hc & E); [lia|]. rewrite Nat2Z.id in Hc.
    unfold body, NoDBColVectorGet. cbn [cv_cols col_vector]. rewrite E. cbn [mbind result_bind].
    assert (Hr : 0 <= c < Z.of_nat (length lk)) by (by apply (proj1 (Forall_lookup _ _) Hl k)).
    assert (Hfr : cols_of (length lk) (fr (take k l))) by (by apply Forall_filtered, Forall_take).
    assert (Hn : c ∉ fr (take k l)).
    { intros [_ [i Hi]%list_elem_of_lookup]%list_elem_of_filter. apply lookup_take_Some in Hi as [Hi Hik].
      pose proof (NoDup_lookup _ _ _ _ Hnd Hi Hc). lia. }
    destruct (lock_read (mark true lk (fr (take k l))) c) as (x & -> & Ex); [by rewrite length_mark|]. cbn [mbind result_bind]. rewrite Ex. clear Ex.
    assert (Hiff : is_free (mark true lk (fr (take k l))) c <-> is_free lk c) by (unfold is_free; by rewrite mark_other by (lia || done)).
    rewrite (bool_decide_ext _ _ Hiff).
    assert (fr (take (S k) l) = fr (take k l) ++ (if decide (is_free lk c) then [c] else [])) as ->.
    { unfold fr. rewrite (take_S_r _ _ _ Hc), filter_app, filter_cons, filter_nil. done. }
    case_bool_decide as Hf.
    + rewrite decide_True by done. rewrite partial_set by (by eapply filter_prefix). cbn [mbind result_bind].
      rewrite NoDBBitmapSet_spec by (rewrite length_mark; lia). cbn [mbind result_bind]. change 1 with (bit true).
      rewrite lock_write by (rewrite length_mark; lia). cbn [mbind result_bind]. eexists. split; [done|].
      rewrite !mark_snoc, length_app. simpl. do 2 f_equal. lia.
    + rewrite decide_False by done. eexists. split; [done|]. by rewrite app_nil_r.
  - change (NoDBColVectorSize (col_vector l)) with (Z.of_nat (length l)). fold body. rewrite E. cbn [mbind result_bind fst].
    by rewrite firstn_all, partial_full.
Qed.

(** A lock of [l] is held. *)
Definition some_held (lk : list bool) (l : list Z) : bool := existsb (fun c => bool_decide (lk !! Z.to_nat c = Some true)) l.

Lemma release_spec lk l : NoDup l -> cols_of (length lk) l ->
  release (locks_of lk) (col_vector l) = Ok (locks_of (mark false lk l), some_held lk l).
Proof.
  intros Hnd Hl. unfold release. change (NoDBColVectorSize (col_vector l)) with (Z.of_nat (length l)).
  destruct (for_nat_inv (fun k y => y = (locks_of (mark false lk (take k l)), some_held lk (take k l))) (length l)
    (fun i '(lock, changed) => column ← NoDBColVectorGet (col_vector l) i; l ← arr_get lock column;
       lock' ← arr_set lock column 0; Ok (lock', if l =? 0 then changed else true)) (locks_of lk, false)) as (y & -> & ->).
  - by rewrite take_0.
  - intros k y Hk ->. destruct (col_read l (Z.of_nat k)) as (c & Hc & E); [lia|]. rewrite Nat2Z.id in Hc.
    unfold NoDBColVectorGet. cbn [cv_cols col_vector]. rewrite E. cbn [mbind result_bind].
    assert (Hr : 0 <= c < Z.of_nat (length lk)) by (by apply (proj1 (Forall_lookup _ _) Hl k)).
    destruct (lock_read (mark false lk (take k l)) c) as (x & -> & Ex); [by rewrite length_mark|]. cbn [mbind result_bind].
    pose proof (lock_write (mark false lk (take k l)) c false) as Hw. cbn [bit] in Hw.
    rewrite Hw by (rewrite length_mark; lia). cbn [mbind result_bind].
    eexists. split; [done|]. rewrite (take_S_r _ _ _ Hc), mark_snoc. f_equal. unfold some_held. rewrite existsb_app. cbn [existsb].
    rewrite Ex. assert (Hn : c ∉ take k l).
    { intros [i Hi]%list_elem_of_lookup. apply lookup_take_Some in Hi as [Hi Hik]. pose proof (NoDup_lookup _ _ _ _ Hnd Hi Hc). lia. }
    assert (is_free (mark false lk (take k l)) c <-> is_free lk c) as Hiff.
    { unfold is_free. rewrite mark_other; [done|lia|by apply Forall_take|done]. }
    rewrite (bool_decide_ext _ _ Hiff), orb_false_r. destruct (lookup_lt_is_Some_2 lk (Z.to_nat c)) as [b Hb]; [lia|].
    destruct b; [rewrite (bool_decide_eq_false_2 (is_free lk c)), bool_decide_eq_true_2
      |rewrite (bool_decide_eq_true_2 (is_free lk c)), bool_decide_eq_false_2]; unfold is_free; rewrite ?Hb; try done;
      by rewrite ?orb_true_r, ?orb_false_r.
  - by rewrite firstn_all.
Qed.

(** ** Running scans

    The scans of a relation that are under way, each with the columns it reads
    and those it was given to write. A scan starts ([NoDBScanStateInit]), starts
    again ([NoDBScanStateReInit], which keeps its columns when no lock was held)
    and ends ([standard_ExecutorRun]); the last two give back the locks of all
    columns it reads. [ok] restricts when they may happen. *)
Record scan_cols := { sc_read : list Z; sc_write : list Z }.
Definition writes (ss : list scan_cols) : list Z := ss ≫= sc_write.

Section steps.
Context (n : nat) (ok : scan_cols -> list scan_cols -> Prop).

Inductive lock_step : NoDBExecInfo_t * list scan_cols -> NoDBExecInfo_t * list scan_cols -> Prop :=
  | scan_starts x ss l x' cols : NoDup l -> cols_of n l ->
      NoDBAggressiveCachePolicy x (col_vector l) = Ok (x', col_vector cols) ->
      lock_step (x, ss) (x', {| sc_read := l; sc_write := cols |} :: ss)
  | scan_restarts x ss1 sc ss2 x1 changed x2 cols : ok sc (ss1 ++ ss2) ->
      NoDBExecReleaseCacheLocks x (col_vector (sc_read sc)) = Ok (x1, changed) ->
      (if changed : bool then NoDBAggressiveCachePolicy x1 (col_vector (sc_read sc)) else Ok (x1, col_vector (sc_write sc)))
        = Ok (x2, col_vector cols) ->
      lock_step (x, ss1 ++ sc :: ss2) (x2, {| sc_read := sc_read sc; sc_write := cols |} :: ss1 ++ ss2)
  | scan_ends x ss1 sc ss2 x1 changed : ok sc (ss1 ++ ss2) ->
      NoDBExecReleaseCacheLocks x (col_vector (sc_read sc)) = Ok (x1, changed) ->
      lock_step (x, ss1 ++ sc :: ss2) (x1, ss1 ++ ss2).
End steps.

(** No other scan writes a column that this one reads. *)
Definition own (sc : scan_cols) (others : list scan_cols) : Prop := forall c, c ∈ sc_read sc -> c ∉ writes others.

(** The locked columns are those that running scans write, each by one scan. *)
Record exclusive (n : nat) (y : NoDBExecInfo_t * list scan_cols) (lk bs : list bool) : Prop := {
  ex_locks : CacheLock (locks y.1) = locks_of lk;
  ex_cached : colsCache (info y.1) = bitmap_of bs;
  ex_len : length lk = n;
  ex_blen : length bs = n;
  ex_nodup : NoDup (writes y.2);
  ex_held : forall c, 0 <= c < Z.of_nat n -> (lk !! Z.to_nat c = Some true <-> c ∈ writes y.2);
  ex_cols : Forall (fun sc => NoDup (sc_read sc) /\ cols_of n (sc_read sc) /\ sc_write sc ⊆ sc_read sc) y.2 }.

Lemma writes_perm ss ss' : ss ≡ₚ ss' -> writes ss ≡ₚ writes ss'.
Proof. intros H. unfold writes. by rewrite H. Qed.

Lemma writes_cons sc ss : writes (sc :: ss) = sc_write sc ++ writes ss.
Proof. done. Qed.

Lemma exclusive_perm n x ss ss' lk bs : ss ≡ₚ ss' -> exclusive n (x, ss) lk bs -> exclusive n (x, ss') lk bs.
Proof.
  intros Hp [H1 H2 H3 H4 H5 H6 H7]. cbn [fst snd] in *. split; cbn [fst snd]; try done.
  - by rewrite <- (writes_perm _ _ Hp).
  - intros c Hc. by rewrite <- (writes_perm _ _ Hp), H6.
  - by rewrite <- Hp.
Qed.

Lemma free_or_held lk c : 0 <= c < Z.of_nat (length lk) -> is_free lk c \/ lk !! Z.to_nat c = Some true.
Proof. intros Hc. destruct (lookup_lt_is_Some_2 lk (Z.to_nat c)) as [[] E]; [lia|by right|by left]. Qed.

Lemma exclusive_start n x ss lk bs l : exclusive n (x, ss) lk bs -> NoDup l -> cols_of n l ->
  exists x' bs', NoDBAggressiveCachePolicy x (col_vector l) = Ok (x', col_vector (filter (is_free lk) l)) /\
    exclusive n (x', {| sc_read := l; sc_write := filter (is_free lk) l |} :: ss) (mark true lk (filter (is_free lk) l)) bs'.
Proof.
  intros [H1 H2 H3 H4 H5 H6 H7] Hnd Hl. cbn [fst snd] in *. unfold NoDBAggressiveCachePolicy. rewrite H1, H2.
  rewrite take_free_spec by congruence. cbn [mbind result_bind]. eexists _, _. split; [done|].
  assert (Hf : cols_of (length lk) (filter (is_free lk) l)) by (apply Forall_filtered; by rewrite H3).
  assert (Hfree : forall c, c ∈ filter (is_free lk) l -> c ∉ writes ss).
  { intros c [Hc Hin]%list_elem_of_filter Hw. apply H6 in Hw; [unfold is_free in Hc; congruence|].
    by apply (proj1 (Forall_forall _ _) Hl). }
  split; cbn [fst snd]; try done.
  - by rewrite length_mark.
  - by rewrite length_mark.
  - rewrite writes_cons. apply NoDup_app. split_and!; [by apply NoDup_filter|done|done].
  - intros c Hc. rewrite writes_cons, elem_of_app, <- H6 by done. cbn [sc_write].
    destruct (decide (c ∈ filter (is_free lk) l)) as [Hin|Hin].
    + rewrite (mark_in _ _ _ _ Hf Hin). tauto.
    + rewrite mark_other by (done || lia). tauto.
  - constructor; [|done]. split_and!; [done|done|]. intros c [_ ?]%list_elem_of_filter. done.
Qed.

Lemma exclusive_end n x ss1 sc ss2 lk bs : exclusive n (x, ss1 ++ sc :: ss2) lk bs -> own sc (ss1 ++ ss2) ->
  exists x1, NoDBExecReleaseCacheLocks x (col_vector (sc_read sc)) = Ok (x1, some_held lk (sc_read sc)) /\
    exclusive n (x1, ss1 ++ ss2) (mark false lk (sc_read sc)) bs.
Proof.
  intros H Hown. apply (exclusive_perm _ _ _ (sc :: ss1 ++ ss2)) in H; [|by rewrite Permutation_middle].
  destruct H as [H1 H2 H3 H4 H5 H6 H7]. cbn [fst snd] in *. apply Forall_cons in H7 as [(Hnd & Hc & Hsub) H7].
  rewrite writes_cons in H5. apply NoDup_app in H5 as (N1 & N2 & N3).
  unfold NoDBExecReleaseCacheLocks. rewrite H1, release_spec by (done || by rewrite H3). cbn [mbind result_bind fst snd].
  eexists. split; [done|]. split; cbn [fst snd]; try done.
  - by rewrite length_mark.
  - intros c Hr. specialize (H6 c Hr). rewrite writes_cons, elem_of_app in H6.
    destruct (decide (c ∈ sc_read sc)) as [Hin|Hin].
    + rewrite mark_in by (done || by rewrite H3). split; [done|]. intros Hw. by destruct (Hown c Hin).
    + rewrite mark_other by (lia || done || by rewrite H3). split; [|tauto]. intros [Hw|?]%H6; [by apply Hsub in Hw|done].
Qed.

Lemma given_inj x x' a b : Ok (x, col_vector a) = Ok (x', col_vector b) -> x = x' /\ a = b.
Proof. unfold col_vector. intros [= -> _ E]. split; [done|]. by apply (inj (fmap Some)) in E. Qed.

Lemma lock_step_exclusive n y y' : lock_step n own y y' -> (exists lk bs, exclusive n y lk bs) -> exists lk bs, exclusive n y' lk bs.
Proof.
  intros Hs (lk & bs & H). destruct Hs as [x ss l x' cols Hnd Hl E|x ss1 sc ss2 x1 changed x2 cols Ho E E2|x ss1 sc ss2 x1 changed Ho E].
  - destruct (exclusive_start n x ss lk bs l H Hnd Hl) as (x'' & bs' & E' & H'). rewrite E in E'.
    apply given_inj in E' as [<- ->]. eauto.
  - destruct (exclusive_end n x ss1 sc ss2 lk bs H Ho) as (x1' & E' & H1). rewrite E in E'. injection E' as <- ->.
    pose proof (ex_cols _ _ _ _ H) as Hc. apply Forall_app in Hc as [_ [(Hnd & Hl & Hsub) _]%Forall_cons].
    destruct (some_held lk (sc_read sc)) eqn:Eh.
    + destruct (exclusive_start n x1 (ss1 ++ ss2) _ bs (sc_read sc) H1 Hnd Hl) as (x2' & bs' & E' & H2). rewrite E2 in E'.
      apply given_inj in E' as [<- ->]. eauto.
    + apply given_inj in E2 as [<- <-].
      assert (sc_write sc = []) as Ew.
      { destruct (sc_write sc) as [|c l] eqn:Ew; [done|]. assert (Hin : c ∈ sc_write sc) by (rewrite Ew; by left).
        assert (some_held lk (sc_read sc) = true); [|congruence]. apply existsb_exists. exists c.
        split; [apply list_elem_of_In, Hsub; by left|]. apply bool_decide_eq_true_2. apply (ex_held _ _ _ _ H).
        - apply (proj1 (Forall_forall _ _) Hl), Hsub. by left.
        - unfold writes. cbn [snd]. rewrite bind_app, bind_cons. rewrite !elem_of_app. tauto. }
      exists (mark false lk (sc_read sc)), bs. destruct H1 as [A1 A2 A3 A4 A5 A6 A7]. cbn [fst snd] in *.
      split; cbn [fst snd]; try done; rewrite ?writes_cons; cbn [sc_write]; rewrite ?Ew; try done.
      constructor; [|done]. rewrite Ew in Hsub. done.
  - destruct (exclusive_end n x ss1 sc ss2 lk bs H Ho) as (x1' & E' & H1). rewrite E in E'. injection E' as <- _. eauto.
Qed.

(** A scan that starts again is given all columns it reads, if one of them was
    locked; the columns of the running scans stay apart only if no other scan writes
    one of these. *)
Definition restart_apart x (sc : scan_cols) (others : list scan_cols) : Prop :=
  exists x1 changed x2 cols, NoDBExecReleaseCacheLocks x (col_vector (sc_read sc)) = Ok (x1, changed) /\
    (if changed : bool then NoDBAggressiveCachePolicy x1 (col_vector (sc_read sc)) else Ok (x1, col_vector (sc_write sc)))
      = Ok (x2, col_vector cols) /\
    (NoDup (cols ++ writes others) <-> own sc others).

Lemma restart_exact n x ss1 sc ss2 lk bs : exclusive n (x, ss1 ++ sc :: ss2) lk bs -> restart_apart x sc (ss1 ++ ss2).
Proof.
  intros H. apply (exclusive_perm _ _ _ (sc :: ss1 ++ ss2)) in H; [|by rewrite Permutation_middle].
  destruct H as [H1 H2 H3 H4 H5 H6 H7]. cbn [fst snd] in *. apply Forall_cons in H7 as [(Hnd & Hc & Hsub) H7].
  rewrite writes_cons in H5, H6. assert (Hc' : cols_of (length lk) (sc_read sc)) by (by rewrite H3).
  assert (Hheld : forall c, c ∈ sc_read sc -> c ∈ sc_write sc ++ writes (ss1 ++ ss2) -> some_held lk (sc_read sc) = true).
  { intros c Hin Hw. apply existsb_exists. exists c. split; [by apply list_elem_of_In|]. apply bool_decide_eq_true_2, H6; [|done].
    by apply (proj1 (Forall_forall _ _) Hc). }
  unfold restart_apart, NoDBExecReleaseCacheLocks. rewrite H1, release_spec by done. cbn [mbind result_bind fst snd].
  destruct (some_held lk (sc_read sc)) eqn:Eh.
  - eexists _, true, _, _. split; [done|]. unfold NoDBAggressiveCachePolicy. cbn. rewrite H2.
    rewrite take_free_spec by (rewrite ?length_mark; congruence || done). cbn [mbind result_bind]. split; [done|].
    assert (filter (is_free (mark false lk (sc_read sc))) (sc_read sc) = sc_read sc) as ->.
    { apply list_filter_all. intros c Hin. unfold is_free. by rewrite mark_in. }
    rewrite NoDup_app. apply NoDup_app in H5 as (_ & _ & N). unfold own. naive_solver.
  - eexists _, false, _, (sc_write sc). split_and!; [done|done|]. split; [|done]. intros _ c Hin Hw.
    discriminate (Hheld c Hin). apply elem_of_app. by right.
Qed.

(** ** The registry *)
Lemma clear_bits (n : nat) (a : arr Z) : length a = n ->
  NoDBBitmapClearAll {| bm_size := Z.of_nat n; bm_bits := a |} = Ok (bitmap_of (replicate n false)).
Proof. intros Hn. exact (fill_all_bits n false a Hn). Qed.

Lemma init_bits (n : nat) :
  (b ← NoDBBitmapInit (Z.of_nat n); NoDBBitmapClearAll b) = Ok (bitmap_of (replicate n false)).
Proof.
  unfold NoDBBitmapInit. rewrite clear_bits by (unfold arr_alloc; by rewrite length_replicate, Nat2Z.id). cbn [mbind result_bind].
  unfold bitmap_of at 1. rewrite length_replicate. apply clear_bits. by rewrite !length_fmap, length_replicate.
Qed.

Lemma clear_locks (n : nat) :
  for_range 0 (Z.of_nat n) (fun j '(cl, pl) => cl' ← arr_set cl j 0; pl' ← arr_set pl j 0; Ok (cl', pl'))
    (arr_alloc (Z.of_nat n), arr_alloc (Z.of_nat n)) = Ok (locks_of (replicate n false), locks_of (replicate n false)).
Proof.
  destruct (for_nat_inv (fun k (y : arr Z * arr Z) => y.1 = (Some <$> replicate k 0) ++ replicate (n - k) None /\ y.2 = y.1) n
    (fun j '(cl, pl) => cl' ← arr_set cl j 0; pl' ← arr_set pl j 0; Ok (cl', pl'))
    (arr_alloc (Z.of_nat n), arr_alloc (Z.of_nat n))) as ([a b] & -> & E1 & E2).
  - unfold arr_alloc. cbn [fst snd]. by rewrite Nat2Z.id, Nat.sub_0_r.
  - intros k [a b] Hk [E1 E2]. cbn [fst snd] in *. subst b a.
    rewrite arr_set_Ok by (rewrite length_app, length_fmap, !length_replicate; lia). cbn [mbind result_bind].
    eexists. split; [done|]. cbn [fst snd]. split; [|done]. rewrite Nat2Z.id.
    rewrite insert_app_r_alt by (by rewrite length_fmap, length_replicate). rewrite length_fmap, length_replicate, Nat.sub_diag.
    replace (n - k)%nat with (S (n - S k)) by lia. rewrite (replicate_S_end k 0), fmap_app, <- app_assoc. done.
  - cbn [fst snd] in *. subst b a. rewrite Nat.sub_diag, app_nil_r. unfold locks_of. by rewrite !fmap_replicate.
Qed.

Lemma new_info_spec relp rel file bPM bCache (n : nat) : NoDBRelationGetNumberColumns rel = Z.of_nat n ->
  (String.length file < FILENAME_SIZE)%nat ->
  exists x, new_info relp rel file bPM bCache = Ok x /\ xi_rel x = rel /\ exclusive n (x, []) (replicate n false) (replicate n false).
Proof.
  intros Hn Hf. unfold new_info. rewrite Hn. cbv zeta. pose proof (init_bits n) as Hb.
  destruct (NoDBBitmapInit (Z.of_nat n)) as [b|] eqn:E; [|done]. cbn [mbind result_bind] in Hb |- *. rewrite Hb.
  cbn [mbind result_bind]. rewrite clear_locks. cbn [mbind result_bind fst snd].
  cbn [mbind result_bind]. rewrite decide_True by done. eexists. split; [done|]. split; [done|].
  split; cbn [fst snd]; try done; try (by rewrite length_replicate); [constructor|].
  intros c Hc. rewrite lookup_replicate_2 by lia. split; [done|]. by intros ?%elem_of_nil.
Qed.

(** The registry holds the entries [xs]. *)
Definition registry st (xs : list NoDBExecInfo_t) : Prop :=
  match ExecInfo st with
  | None => xs = []
  | Some v => xv_used v = Z.of_nat (length xs) /\ xv_block v < xw_next st /\ Z.of_nat (length xs) <= xv_size v /\
      xv_vector v = (Some <$> xs) ++ replicate (Z.to_nat (xv_size v) - length xs) None
  end.

(** There is no free slot. *)
Definition full st : bool := match ExecInfo st with Some v => xv_used v =? xv_size v | None => false end.

Lemma exec_vector_spec st xs : registry st xs ->
  exists v next, exec_vector st = (v, next) /\ xv_used v = Z.of_nat (length xs) /\ xv_block v < next /\
    Z.of_nat (length xs) < xv_size v /\ xv_vector v = (Some <$> xs) ++ replicate (Z.to_nat (xv_size v) - length xs) None /\
    (forall v0, ExecInfo st = Some v0 -> xv_used v0 = xv_size v0 -> xv_block v0 < xv_block v) /\
    (forall v0, ExecInfo st = Some v0 -> xv_used v0 <> xv_size v0 -> xv_block v0 = xv_block v).
Proof.
  intros H. unfold exec_vector, registry in *. destruct (ExecInfo st) as [v|].
  - destruct H as (Hu & Hb & Hs & Hv). rewrite Hu. destruct (Z.eqb_spec (Z.of_nat (length xs)) (xv_size v)) as [E|Hne].
    + eexists _, _. split; [done|]. cbn [xv_used xv_block xv_size xv_vector]. split_and!; try (unfold NELLEM_ALLOC; lia).
      * rewrite Hv, <- E, Nat2Z.id, Nat.sub_diag, app_nil_r. unfold arr_realloc.
        rewrite take_ge by (rewrite length_fmap; unfold NELLEM_ALLOC; lia). by rewrite length_fmap.
      * intros v0 [= <-] _. done.
      * intros v0 [= <-]. congruence.
    + eexists _, _. split; [done|]. split_and!; try done; [lia| |].
      * intros v0 [= <-]. congruence.
      * by intros v0 [= <-].
  - subst xs. eexists _, _. split; [done|]. cbn. split_and!; try done; lia.
Qed.

Lemma ExecInfoInit_spec st xs relp rel file bPM bCache x : registry st xs -> new_info relp rel file bPM bCache = Ok x ->
  exists st' p, NoDBExecInfoInit st relp rel file bPM bCache = Ok (st', p) /\ registry st' (xs ++ [x]) /\
    p.2 = Z.of_nat (length xs) /\ get_info st' p = Ok x /\
    (forall (p' : exec_ptr) y, get_info st p' = Ok y ->
       get_info st' p' = if full st then Fail Indeterminate else Ok y).
Proof.
  intros Hr Hx. destruct (exec_vector_spec st xs Hr) as (v & next & Ev & Hu & Hb & Hs & Hv & Hm & Hk).
  unfold NoDBExecInfoInit. rewrite Ev, Hx. cbn [mbind result_bind]. rewrite Hu, Hv.
  rewrite arr_set_Ok by (rewrite length_app, length_fmap, length_replicate; lia). cbn [mbind result_bind].
  rewrite Nat2Z.id, insert_app_r_alt by (by rewrite length_fmap). rewrite length_fmap, Nat.sub_diag.
  assert (<[0%nat := Some x]> (replicate (Z.to_nat (xv_size v) - length xs) None) =
    Some x :: replicate (Z.to_nat (xv_size v) - length (xs ++ [x])) None) as ->.
  { replace (Z.to_nat (xv_size v) - length xs)%nat with (S (Z.to_nat (xv_size v) - length (xs ++ [x])))
      by (rewrite length_app; simpl; lia). done. }
  assert (Hg : forall i y, arr_get (xv_vector v) i = Ok y ->
    arr_get ((Some <$> xs) ++ Some x :: replicate (Z.to_nat (xv_size v) - length (xs ++ [x])) None) i = Ok y).
  { intros i y. rewrite Hv. unfold arr_get. destruct (0 <=? i); [|done].
    destruct (decide (Z.to_nat i < length xs)%nat) as [Hi|Hi].
    - rewrite !lookup_app_l by (rewrite length_fmap; done). done.
    - rewrite (lookup_app_r (Some <$> xs)) by (rewrite length_fmap; lia).
      destruct (replicate _ None !! _) as [[?|]|] eqn:E; try done. by apply lookup_replicate in E as [? _]. }
  eexists _, _. split; [done|]. split_and!.
  - unfold registry. cbn. rewrite length_app. simpl. split_and!; try lia. by rewrite fmap_app, <- app_assoc.
  - done.
  - unfold get_info. cbn [ExecInfo fst snd xv_block xv_vector]. rewrite Z.eqb_refl.
    apply arr_get_lookup. rewrite Nat2Z.id, lookup_app_r by (by rewrite length_fmap). rewrite length_fmap, Nat.sub_diag. split; [lia|done].
  - intros p' y. unfold get_info at 1. destruct (ExecInfo st) as [v0|] eqn:E0; [|done].
    destruct (Z.eqb_spec (xv_block v0) p'.1) as [Eq|]; [|done]. intros Hy. unfold get_info. cbn [ExecInfo xv_block xv_vector].
    unfold full. rewrite E0. destruct (Z.eqb_spec (xv_used v0) (xv_size v0)) as [Hfull|Hne].
    + specialize (Hm v0 eq_refl Hfull). rewrite (proj2 (Z.eqb_neq _ _)); [done|lia].
    + specialize (Hk v0 eq_refl Hne).
      rewrite (proj2 (Z.eqb_eq _ _)) by congruence. apply Hg.
      unfold exec_vector in Ev. rewrite E0, (proj2 (Z.eqb_neq _ _) Hne) in Ev. injection Ev as <- _. done.
Qed.

Lemma GetExecInfo_spec st xs name : registry st xs ->
  (exists (i : nat) y b, xs !! i = Some y /\ rel_name (xi_rel y) = name /\ NoDBGetExecInfo st name = Ok (Some (b, Z.of_nat i)) /\
     get_info st (b, Z.of_nat i) = Ok y) \/
  (Forall (fun y => rel_name (xi_rel y) <> name) xs /\ NoDBGetExecInfo st name = Ok None).
Proof.
  intros H. unfold NoDBGetExecInfo, get_info, registry in *. destruct (ExecInfo st) as [v|]; [|right; subst; by split].
  destruct H as (Hu & Hb & Hs & Hv).
  assert (Hget : forall i y, xs !! i = Some y -> arr_get (xv_vector v) (Z.of_nat i) = Ok y).
  { intros i y Hy. apply arr_get_lookup. split; [lia|]. rewrite Hv, Nat2Z.id. apply lookup_app_l_Some. by rewrite list_lookup_fmap, Hy. }
  destruct (search_range_pure (R := option exec_ptr) 0 (xv_used v) (fun i => x ← arr_get (xv_vector v) i;
      Ok (if decide (rel_name (xi_rel x) = name) then Some (Some (xv_block v, i)) else None))
    (fun i => match xs !! Z.to_nat i with
              | Some y => if decide (rel_name (xi_rel y) = name) then Some (Some (xv_block v, i)) else None
              | None => None end) None) as [(i & r & Hi & Er & _ & ->)|(Hn & ->)].
  - intros i Hi. destruct (lookup_lt_is_Some_2 xs (Z.to_nat i)) as [y Hy]; [lia|]. specialize (Hget _ _ Hy).
    rewrite Z2Nat.id in Hget by lia. by rewrite Hget, Hy.
  - left. destruct (xs !! Z.to_nat i) as [y|] eqn:Hy; [|done]. case_decide; [|done]. injection Er as <-.
    exists (Z.to_nat i), y, (xv_block v). rewrite Z2Nat.id by lia. cbn [fst snd]. rewrite Z.eqb_refl.
    specialize (Hget _ _ Hy). rewrite Z2Nat.id in Hget by lia. done.
  - right. split; [|done]. apply Forall_lookup. intros i y Hy. apply lookup_lt_Some in Hy as Hlt.
    specialize (Hn (Z.of_nat i) ltac:(lia)). rewrite Nat2Z.id, Hy in Hn. by case_decide.
Qed.

(** * Properties *)

(** C12 Over all sequences in which scans of a relation start, and start again or end
    only while no other running scan writes a column that they read ([own], which
    nothing in the code enforces): a column is given to at most one running scan to
    write to the caches, and the locked columns are exactly those that a running scan
    writes. The condition is exact: when any of the running scans is started again
    next, the columns to write are still apart if and only if it holds for that scan. *)
Theorem write_columns_exclusive (n : nat) relp rel file bPM bCache x0 y :
  NoDBRelationGetNumberColumns rel = Z.of_nat n -> (String.length file < FILENAME_SIZE)%nat ->
  new_info relp rel file bPM bCache = Ok x0 -> rtc (lock_step n own) (x0, []) y ->
  NoDup (writes y.2) /\ Forall (fun sc => sc_write sc ⊆ sc_read sc) y.2 /\
  (forall c, 0 <= c < Z.of_nat n -> arr_get (CacheLock (locks y.1)) c = Ok (bit (bool_decide (c ∈ writes y.2)))) /\
  (forall ss1 sc ss2, y.2 = ss1 ++ sc :: ss2 -> restart_apart y.1 sc (ss1 ++ ss2)).
Proof.
  intros Hn Hf E0 Hs. destruct (new_info_spec relp rel file bPM bCache n Hn Hf) as (x & E & _ & H0).
  rewrite E0 in E. injection E as <-.
  assert (H : exists lk bs, exclusive n y lk bs).
  { remember (x0, []) as y0 eqn:Ey. assert (exists lk bs, exclusive n y0 lk bs) as H by (subst; eauto). clear Ey H0.
    induction Hs as [|y0 y1 y2 Hstep _ IH]; [done|]. apply IH. by eapply lock_step_exclusive. }
  destruct H as (lk & bs & Hex). pose proof Hex as [H1 H2 H3 H4 H5 H6 H7]. split_and!; [done| | |].
  - eapply Forall_impl; [exact H7|]. by intros sc (_ & _ & ?).
  - intros c Hc. rewrite H1. destruct (lookup_lt_is_Some_2 lk (Z.to_nat c)) as [b Hb]; [lia|].
    assert (b = bool_decide (c ∈ writes y.2)) as <-.
    { specialize (H6 c Hc). rewrite Hb in H6. destruct b; [rewrite bool_decide_eq_true_2|rewrite bool_decide_eq_false_2]; try done.
      - by apply H6.
      - intros Hw. by apply H6 in Hw. }
    apply arr_get_lookup. split; [lia|]. unfold locks_of. by rewrite !list_lookup_fmap, Hb.
  - intros ss1 sc ss2 Ey. destruct y as [x ss]. cbn [fst snd] in *. subst ss. by apply (restart_exact n x ss1 sc ss2 lk bs).
Qed.

(** C39 An entry that is added to the registry is found by the name of its relation,
    and every other relation is found as before; the pointers to the earlier
    entries, which scans keep, stay valid exactly when the vector had a free slot.
    *)
Theorem NoDBExecInfoInit_roundtrip st xs relp rel file bPM bCache (n : nat) :
  registry st xs -> NoDBRelationGetNumberColumns rel = Z.of_nat n -> (String.length file < FILENAME_SIZE)%nat ->
  Forall (fun y => rel_name (xi_rel y) <> rel_name rel) xs ->
  exists st' p x, NoDBExecInfoInit st relp rel file bPM bCache = Ok (st', p) /\ registry st' (xs ++ [x]) /\
    get_info st' p = Ok x /\ xi_rel x = rel /\ NoDBGetExecInfo st' (rel_name rel) = Ok (Some p) /\
    (forall name i y b, name <> rel_name rel -> NoDBGetExecInfo st name = Ok (Some (b, i)) -> get_info st (b, i) = Ok y ->
       exists i' b', NoDBGetExecInfo st' name = Ok (Some (b', i')) /\ exists y', get_info st' (b', i') = Ok y' /\ y' ∈ xs /\
         rel_name (xi_rel y') = name) /\
    (forall (p' : exec_ptr) y, get_info st p' = Ok y ->
       get_info st' p' = if full st then Fail Indeterminate else Ok y).
Proof.
  intros Hr Hn Hf Hfresh. destruct (new_info_spec relp rel file bPM bCache n Hn Hf) as (x & Ex & Hx & _).
  destruct (ExecInfoInit_spec st xs relp rel file bPM bCache x Hr Ex) as (st' & p & E & Hr' & Hp & Hg & Hold).
  exists st', p, x. split_and!; try done.
  - destruct (GetExecInfo_spec st' (xs ++ [x]) (rel_name rel) Hr') as [(i & y & b & Hi & Hy & -> & Hgy)|[Hno _]].
    + apply lookup_app_Some in Hi as [Hi|[Hle Hi]].
      * by apply (proj1 (Forall_lookup _ _) Hfresh _ _) in Hi.
      * apply list_lookup_singleton_Some in Hi as [Hi <-]. assert (i = length xs) as -> by lia. do 2 f_equal.
        destruct p as [pb pi]. cbn [snd] in Hp. subst pi. f_equal. unfold get_info in Hg, Hgy.
        destruct (ExecInfo st') as [v|]; [|done]. cbn [fst snd] in *. destruct (Z.eqb_spec (xv_block v) pb), (Z.eqb_spec (xv_block v) b); congruence.
    + apply Forall_app in Hno as [_ [Hno _]%Forall_cons]. by rewrite Hx in Hno.
  - intros name i y b Hname Hget Hgy.
    destruct (GetExecInfo_spec st xs name Hr) as [(i0 & y0 & b0 & Hi0 & Hy0 & E0 & Hg0)|[_ E0]]; [|congruence].
    destruct (GetExecInfo_spec st' (xs ++ [x]) name Hr') as [(i' & y' & b' & Hi' & Hy' & E' & Hg')|[Hno _]].
    + exists (Z.of_nat i'), b'. split; [done|]. exists y'. split_and!; [done| |done].
      apply lookup_app_Some in Hi' as [Hi'|[_ Hi']]; [by eapply list_elem_of_lookup_2|].
      apply list_lookup_singleton_Some in Hi' as [_ <-]. congruence.
    + apply Forall_app in Hno as [Hno _]. by apply (proj1 (Forall_lookup _ _) Hno) in Hi0.
Qed.

(** ** Witnesses *)
Definition lock_rel : NoDBRelation_t :=
  {| rel_name := "r"; rel_used := 2; rel_max := 20;
     rel_attrs := (Some <$> replicate 2 {| attr_size := 16; attr_byValue := true |}) ++ replicate 18 None |}.
Definition no_info : NoDBExecInfo_t :=
  {| budgetPM := 0; budgetCache := 0;
     info := {| colsPM := bitmap_of []; colsCache := bitmap_of [] |};
     locks := {| lock_size := 0; CacheLock := []; PMLock := [] |};
     integrityCheck := {| firstTime := true; disable_need_transcoding := false |};
     relStats := {| statsCollected := bitmap_of []; blocks := 0; stat_rows := 0 |};
     xi_relp := 1; xi_rel := lock_rel; filename := "" |}.
Definition fresh_info : NoDBExecInfo_t := match new_info 1 lock_rel "f" 0 0 with Ok x => x | Fail _ => no_info end.
Definition given x (l : list Z) : NoDBExecInfo_t :=
  match NoDBAggressiveCachePolicy x (col_vector l) with Ok y => y.1 | Fail _ => x end.
Definition released x (l : list Z) : NoDBExecInfo_t :=
  match NoDBExecReleaseCacheLocks x (col_vector l) with Ok y => y.1 | Fail _ => x end.

Lemma two_cols : NoDup [0; 1] /\ cols_of 2 [0; 1].
Proof. split; [apply (bool_decide_unpack _); vm_compute; done|repeat constructor; cbn; lia]. Qed.

(** Two scans of both columns start, of which the first is given both to write; it
    ends, and the other one is started again. *)
Definition reads_both (cols : list Z) : scan_cols := {| sc_read := [0; 1]; sc_write := cols |}.

Lemma write_columns_exclusive_witness :
  let y := (released (given fresh_info [0; 1]) [0; 1], [reads_both []]) in
  NoDup (writes y.2) /\ Forall (fun sc => sc_write sc ⊆ sc_read sc) y.2 /\
  (forall c, 0 <= c < Z.of_nat 2 -> arr_get (CacheLock (locks y.1)) c = Ok (bit (bool_decide (c ∈ writes y.2)))) /\
  (forall ss1 sc ss2, y.2 = ss1 ++ sc :: ss2 -> restart_apart y.1 sc (ss1 ++ ss2)).
Proof.
  apply (write_columns_exclusive 2 1 lock_rel "f" 0 0 fresh_info); [done|cbn; unfold FILENAME_SIZE; lia|vm_compute; reflexivity|].
  destruct two_cols as [Hnd Hc]. set (x1 := given fresh_info [0; 1]).
  apply rtc_l with (x1, [reads_both [0; 1]]); [apply scan_starts; [exact Hnd|exact Hc|vm_compute; reflexivity]|].
  apply rtc_l with (x1, [reads_both []; reads_both [0; 1]]); [apply scan_starts; [exact Hnd|exact Hc|vm_compute; reflexivity]|].
  apply rtc_l with (released x1 [0; 1], [reads_both []]).
  - apply (scan_ends 2 own x1 [reads_both []] (reads_both [0; 1]) [] (released x1 [0; 1]) true);
      [intros c _ Hw; cbn in Hw; by apply elem_of_nil in Hw|vm_compute; reflexivity].
  - apply rtc_once, (scan_restarts 2 own (released x1 [0; 1]) [] (reads_both []) [] (released x1 [0; 1]) false (released x1 [0; 1]) []);
      [intros c _ Hw; cbn in Hw; by apply elem_of_nil in Hw|vm_compute; reflexivity|vm_compute; reflexivity].
Defined.

Lemma NoDBExecInfoInit_witness :
  let st := {| ExecInfo := None; xw_next := 1 |} in
  exists st' p x, NoDBExecInfoInit st 1 lock_rel "f" 0 0 = Ok (st', p) /\ registry st' ([] ++ [x]) /\
    get_info st' p = Ok x /\ xi_rel x = lock_rel /\ NoDBGetExecInfo st' "r" = Ok (Some p) /\
    (forall name i y b, name <> "r"%string -> NoDBGetExecInfo st name = Ok (Some (b, i)) -> get_info st (b, i) = Ok y ->
       exists i' b', NoDBGetExecInfo st' name = Ok (Some (b', i')) /\ exists y', get_info st' (b', i') = Ok y' /\ y' ∈ [] /\
         rel_name (xi_rel y') = name) /\
    (forall (p' : exec_ptr) y, get_info st p' = Ok y ->
       get_info st' p' = if full st then Fail Indeterminate else Ok y).
Proof.
  apply (NoDBExecInfoInit_roundtrip _ [] 1 lock_rel "f" 0 0 2); [done|done|cbn; unfold FILENAME_SIZE; lia|constructor].
Defined.

(** A scan that starts again gives back the locks of all columns it reads,
    those of another scan too, and is then given these columns: two scans of the
    same columns, the second started again, both write them. *)
Theorem restart_takes_columns :
  exists x, rtc (lock_step 2 (fun _ _ => True)) (fresh_info, [])
    (x, [{| sc_read := [0; 1]; sc_write := [0; 1] |}; {| sc_read := [0; 1]; sc_write := [0; 1] |}]).
Proof.
  destruct two_cols as [Hnd Hc]. set (x1 := given fresh_info [0; 1]). exists (given (released x1 [0; 1]) [0; 1]).
  apply rtc_l with (x1, [{| sc_read := [0; 1]; sc_write := [0; 1] |}]).
  { apply scan_starts; [done|done|vm_compute; reflexivity]. }
  apply rtc_l with (x1, [{| sc_read := [0; 1]; sc_write := [] |}; {| sc_read := [0; 1]; sc_write := [0; 1] |}]).
  { apply scan_starts; [done|done|vm_compute; reflexivity]. }
  apply rtc_once, (scan_restarts 2 _ x1 [] {| sc_read := [0; 1]; sc_write := [] |}
    [{| sc_read := [0; 1]; sc_write := [0; 1] |}] (released x1 [0; 1]) true); [done|vm_compute; reflexivity|vm_compute; reflexivity].
Qed.
