(* ===== verification/DArray.v ===== *)
(** * Growing arrays (snooping/auxiliary/d_array.c)

    The arrays in which the query descriptor collects the columns that a query
    mentions. Every array holds objects of one size, so that a block is a list of
    objects; the products of a position or a count with [objectSize] are [int]
    products of the code and are checked for overflow. [malloc] and [realloc] are
    the C library's: [gives n] says whether they return a block of [n] bytes, and
    the code asserts that they do. *)
From S2P Require Import Prelude.

Definition INIT_SIZE : Z := 256.
Definition ALLOC_UNIT : Z := 32.

Record D_Array (A : Type) := { da_data : arr A; currentSize : Z; usedObjects : Z; objectSize : Z }.
Arguments Build_D_Array {A} _ _ _ _.
Arguments da_data {A} _.
Arguments currentSize {A} _.
Arguments usedObjects {A} _.
Arguments objectSize {A} _.

Section d_array.
Context {A : Type}.
Implicit Types (array : D_Array A) (object : A) (l : list A).

(** [memmove] of [n] objects; a negative count is a huge [size_t]. *)
Definition memmove (a : arr A) (dst src n : Z) : result (arr A) :=
  if (0 <=? n) && (0 <=? src) && (0 <=? dst)
     && (src + n <=? Z.of_nat (length a)) && (dst + n <=? Z.of_nat (length a))
  then Ok (take (Z.to_nat dst) a ++ take (Z.to_nat n) (drop (Z.to_nat src) a) ++ drop (Z.to_nat (dst + n)) a)
  else Fail OutOfBounds.

(** The position of an object in the block: [objectSize * pos] bytes. *)
Definition object_pos array (pos : Z) : result Z := _ ← c_int (objectSize array * pos); Ok pos.

(** The object at a position of the array, which the callers read. *)
Definition GetObjectPos array (pos : Z) : result A := p ← object_pos array pos; arr_get (da_data array) p.

Definition IncreaseArraySize (gives : Z -> bool) array (additionalObjects : Z) : result (D_Array A) :=
  _ ← c_assert (0 <=? additionalObjects);
  n ← c_int (currentSize array + (if additionalObjects =? 0 then ALLOC_UNIT else additionalObjects));
  bytes ← c_int (n * objectSize array);
  _ ← c_assert (gives bytes);
  Ok {| da_data := arr_realloc (da_data array) n; currentSize := n;
        usedObjects := usedObjects array; objectSize := objectSize array |}.

Definition InitializeArray (gives : Z -> bool) (size object_size : Z) : result (D_Array A) :=
  _ ← c_assert (0 <? size);
  _ ← c_assert (0 <? object_size);
  bytes ← c_int (object_size * size);
  _ ← c_assert (gives bytes);
  Ok {| da_data := arr_alloc size; currentSize := size; usedObjects := 0; objectSize := object_size |}.

(** [freeObject] is called on every object; the block is gone after it. *)
Definition FreeArray array (freeObject : option (A -> A)) : result (D_Array A) :=
  _ ← match freeObject with
      | None => Ok (da_data array)
      | Some f => for_range 0 (usedObjects array)
          (fun i d => p ← object_pos array i; x ← arr_get d p; arr_set d p (f x)) (da_data array)
      end;
  Ok {| da_data := NULL; currentSize := currentSize array; usedObjects := 0;
        objectSize := objectSize array |}.

Definition grow_if_full (gives : Z -> bool) array : result (D_Array A) :=
  if currentSize array =? usedObjects array then IncreaseArraySize gives array 0 else Ok array.

Definition InsertToArray (gives : Z -> bool) array object : result (D_Array A) :=
  _ ← c_assert (0 <=? usedObjects array);
  a ← grow_if_full gives array;
  p ← object_pos a (usedObjects a);
  d ← arr_set (da_data a) p object;
  u ← c_int (usedObjects a + 1);
  Ok {| da_data := d; currentSize := currentSize a; usedObjects := u; objectSize := objectSize a |}.

(** The guard is as the code has it: it stops negative positions only. *)
Definition InsertToArrayAt (gives : Z -> bool) array object (pos : Z) : result (D_Array A) :=
  if (pos <? 0) && (pos <=? currentSize array) then Ok array
  else
    a ← grow_if_full gives array;
    which ← object_pos a pos;
    dst ← object_pos a (pos + 1);
    _ ← c_int (objectSize a * (usedObjects a - pos));
    d ← memmove (da_data a) dst which (usedObjects a - pos);
    d ← arr_set d which object;
    u ← c_int (usedObjects a + 1);
    Ok {| da_data := d; currentSize := currentSize a; usedObjects := u; objectSize := objectSize a |}.

(** The object that the caller's [object] holds afterwards: the assignment of
    [NULL] to the parameter leaves the caller's object as it was. *)
Definition ReturnObject array (pos : Z) object : result A :=
  _ ← c_assert (0 <=? pos);
  if usedObjects array <=? pos then Ok object else GetObjectPos array pos.

Definition RemoveObject array (pos : Z) (freeObject : option (A -> A)) : result (D_Array A) :=
  _ ← c_assert ((0 <=? pos) && (pos <? usedObjects array));
  which ← object_pos array pos;
  d ← match freeObject with
      | None => Ok (da_data array)
      | Some f => x ← arr_get (da_data array) which; arr_set (da_data array) which (f x)
      end;
  src ← object_pos array (pos + 1);
  _ ← c_int (objectSize array * (usedObjects array - pos - 1));
  d ← memmove d which src (usedObjects array - pos - 1);
  Ok {| da_data := d; currentSize := currentSize array; usedObjects := usedObjects array - 1;
        objectSize := objectSize array |}.

Definition SearchArray array object (compare : option (A -> A -> bool)) : result bool :=
  match compare with
  | None => Ok false
  | Some cmp => search_range 0 (usedObjects array)
      (fun i => x ← GetObjectPos array i; Ok (if cmp x object then Some true else None)) false
  end.

(** ** Abstraction: the list of the used objects *)

(** The positions of the used objects are [int]s, in bytes too. *)
Definition da_fits array : Prop := usedObjects array = 0 \/ (0 < objectSize array /\ objectSize array * usedObjects array <= INT_MAX).
Definition da_rep array l : Prop :=
  usedObjects array = Z.of_nat (length l) /\ take (length l) (da_data array) = Some <$> l /\ da_fits array.
(** The whole block is an [int] number of bytes. *)
Definition da_wf array l : Prop :=
  da_rep array l /\ Z.of_nat (length (da_data array)) = currentSize array /\
  0 < objectSize array /\ objectSize array * currentSize array <= INT_MAX.

Lemma object_pos_Ok array n pos : 0 < objectSize array -> objectSize array * n <= INT_MAX -> 0 <= pos <= n -> object_pos array pos = Ok pos.
Proof. intros Ho Hn Hp. unfold object_pos. rewrite c_int_Ok; [done|]. nia. Qed.

Lemma da_fits_at array l i : da_rep array l -> (i < length l)%nat -> object_pos array (Z.of_nat i) = Ok (Z.of_nat i).
Proof.
  intros (Hu & _ & [H0|[Ho Hf]]) Hi; [lia|]. apply (object_pos_Ok _ (usedObjects array)); [done|done|lia].
Qed.

Lemma da_rep_lookup array l i x :
  da_rep array l -> l !! i = Some x -> arr_get (da_data array) (Z.of_nat i) = Ok x.
Proof.
  intros (_ & Ht & _) Hi. apply arr_get_lookup. rewrite Nat2Z.id. split; [lia|].
  pose proof (lookup_lt_Some _ _ _ Hi).
  rewrite <- (lookup_take_lt _ (length l)), Ht, list_lookup_fmap, Hi by done. done.
Qed.

Lemma GetObjectPos_spec array l i x : da_rep array l -> l !! i = Some x -> GetObjectPos array (Z.of_nat i) = Ok x.
Proof.
  intros Hr Hi. unfold GetObjectPos. rewrite (da_fits_at _ _ _ Hr) by (by eapply lookup_lt_Some).
  by apply (da_rep_lookup _ l).
Qed.

Lemma da_rep_length array l : da_rep array l -> (length l <= length (da_data array))%nat.
Proof.
  intros (_ & Ht & _). apply (f_equal length) in Ht. rewrite length_take, length_fmap in Ht. lia.
Qed.

Lemma da_rep_app array l : da_rep array l -> exists rest, da_data array = (Some <$> l) ++ rest.
Proof. intros (_ & <- & _). eexists. symmetry. apply take_drop. Qed.

Lemma da_wf_intro (d : arr A) l rest n sz :
  d = (Some <$> l) ++ rest -> Z.of_nat (length d) = n -> 0 < sz -> sz * n <= INT_MAX ->
  da_wf {| da_data := d; currentSize := n; usedObjects := Z.of_nat (length l); objectSize := sz |} l.
Proof.
  intros -> Hn Hsz Hfit. pose proof Hn as Hn'. rewrite length_app, length_fmap in Hn'.
  split; [|done]. split; [done|]. split; cbn [da_data].
  - rewrite take_app_le by (rewrite length_fmap; lia). apply take_ge. rewrite length_fmap. lia.
  - right. cbn [objectSize usedObjects]. split; [done|]. nia.
Qed.

Lemma InitializeArray_spec gives size object_size :
  0 < size -> 0 < object_size -> object_size * size <= INT_MAX -> gives (object_size * size) = true ->
  exists a, InitializeArray gives size object_size = Ok a /\ da_wf a [] /\ objectSize a = object_size.
Proof.
  intros Hs Ho Hfit Hg. unfold InitializeArray, c_assert.
  destruct (Z.ltb_spec 0 size); [|lia]. destruct (Z.ltb_spec 0 object_size); [|lia]. cbn [mbind result_bind].
  rewrite c_int_Ok by (unfold INT_MAX in *; lia). cbn [mbind result_bind]. rewrite Hg. cbn [mbind result_bind].
  eexists. split; [done|]. split; [|done]. apply (da_wf_intro _ [] (arr_alloc size)); [done| |done|done].
  by apply length_arr_alloc; lia.
Qed.

(** There is room for one more object: the array is not full, or the larger block
    is an [int] number of bytes and is given. *)
Definition has_space (gives : Z -> bool) array : bool :=
  negb (currentSize array =? usedObjects array) ||
  ((objectSize array * (currentSize array + ALLOC_UNIT) <=? INT_MAX) && gives ((currentSize array + ALLOC_UNIT) * objectSize array)).

Lemma da_wf_sizes array l : da_wf array l ->
  usedObjects array = Z.of_nat (length l) /\ Z.of_nat (length l) <= currentSize array <= INT_MAX.
Proof.
  intros (Hr & Hn & Ho & Hf). pose proof (da_rep_length _ _ Hr). destruct Hr as [Hu _]. split; [done|]. nia.
Qed.

(** A full array is made larger; the objects stay. *)
Lemma grown_spec gives array l :
  da_wf array l -> has_space gives array = true ->
  exists a rest, grow_if_full gives array = Ok a /\ da_data a = (Some <$> l) ++ rest /\
    (0 < length rest)%nat /\ usedObjects a = Z.of_nat (length l) /\
    Z.of_nat (length (da_data a)) = currentSize a /\ 0 < objectSize a /\ objectSize a * currentSize a <= INT_MAX.
Proof.
  intros Hw Hsp. destruct (da_wf_sizes _ _ Hw) as [Hu Hlen]. destruct Hw as (Hr & Hn & Ho & Hf).
  destruct (da_rep_app _ _ Hr) as [rest Ed].
  unfold grow_if_full, has_space in *. destruct (Z.eqb_spec (currentSize array) (usedObjects array)) as [E|E].
  - cbn [negb orb] in Hsp. apply andb_prop in Hsp as [Hfit%Z.leb_le Hg]. unfold IncreaseArraySize, c_assert.
    change (0 <=? 0) with true. change (0 =? 0) with true. cbn [mbind result_bind].
    rewrite c_int_Ok by (unfold ALLOC_UNIT, INT_MAX in *; nia). cbn [mbind result_bind].
    rewrite c_int_Ok by (unfold ALLOC_UNIT, INT_MAX in *; nia). cbn [mbind result_bind]. rewrite Hg. cbn [mbind result_bind].
    eexists _, (rest ++ replicate (Z.to_nat ALLOC_UNIT) None). split; [done|].
    cbn [da_data usedObjects currentSize objectSize].
    assert (arr_realloc (da_data array) (currentSize array + ALLOC_UNIT)
      = da_data array ++ replicate (Z.to_nat ALLOC_UNIT) None) as ->.
    { unfold arr_realloc. assert (0 < ALLOC_UNIT) by done. rewrite take_ge by lia. f_equal.
      replace (Z.to_nat (currentSize array + ALLOC_UNIT) - length (da_data array))%nat with (Z.to_nat ALLOC_UNIT) by lia. done. }
    split_and!; [by rewrite Ed, <- app_assoc| |done| |done|lia].
    + rewrite length_app, length_replicate. unfold ALLOC_UNIT. lia.
    + rewrite length_app, length_replicate. unfold ALLOC_UNIT in *. lia.
  - exists array, rest. split_and!; try done. rewrite Ed, length_app, length_fmap in Hn. lia.
Qed.

(** Without room the code stops: on the overflow or on the assertion. *)
Lemma grow_fails gives array l :
  da_wf array l -> has_space gives array = false ->
  grow_if_full gives array = Fail IntOverflow \/ grow_if_full gives array = Fail AssertFail.
Proof.
  intros Hw Hsp. destruct (da_wf_sizes _ _ Hw) as [Hu Hlen]. destruct Hw as (_ & _ & Ho & Hf).
  unfold grow_if_full, has_space in *. destruct (Z.eqb_spec (currentSize array) (usedObjects array)) as [E|E]; [|done].
  cbn [negb orb] in Hsp. unfold IncreaseArraySize, c_assert.
  change (0 <=? 0) with true. change (0 =? 0) with true. cbn [mbind result_bind].
  destruct (decide (currentSize array + ALLOC_UNIT <= INT_MAX)).
  2: { left. by rewrite c_int_overflow by lia. }
  rewrite c_int_Ok by (unfold ALLOC_UNIT, INT_MAX in *; lia). cbn [mbind result_bind].
  destruct (Z.leb_spec (objectSize array * (currentSize array + ALLOC_UNIT)) INT_MAX).
  2: { left. by rewrite c_int_overflow by lia. }
  right. rewrite c_int_Ok by (unfold ALLOC_UNIT, INT_MAX in *; nia). cbn [mbind result_bind]. cbn in Hsp. by rewrite Hsp.
Qed.

Lemma InsertToArray_spec gives array l x :
  da_wf array l -> has_space gives array = true -> exists a, InsertToArray gives array x = Ok a /\ da_wf a (l ++ [x]).
Proof.
  intros Hw Hsp. destruct (grown_spec _ _ _ Hw Hsp) as (a & rest & E & Ed & Hrest & Hu & Hn & Ho & Hf).
  destruct (da_wf_sizes _ _ Hw) as [Hu0 _]. unfold InsertToArray, c_assert.
  assert (Hlen : (length (da_data a) = length l + length rest)%nat) by (by rewrite Ed, length_app, length_fmap).
  destruct (Z.leb_spec 0 (usedObjects array)); [|lia]. cbn [mbind result_bind]. rewrite E. cbn [mbind result_bind].
  rewrite (object_pos_Ok _ (currentSize a)) by lia. cbn [mbind result_bind].
  rewrite arr_set_Ok by lia. cbn [mbind result_bind].
  rewrite c_int_Ok by (unfold INT_MAX in *; nia). cbn [mbind result_bind].
  eexists. split; [done|]. destruct rest as [|y rest]; [simpl in Hrest; lia|].
  assert (<[Z.to_nat (usedObjects a) := Some x]> (da_data a) = (Some <$> (l ++ [x])) ++ rest) as ->.
  { rewrite Ed, Hu, Nat2Z.id, fmap_app, <- app_assoc. rewrite insert_app_r_alt by (rewrite length_fmap; lia).
    rewrite length_fmap, Nat.sub_diag. done. }
  replace (usedObjects a + 1) with (Z.of_nat (length (l ++ [x]))) by (rewrite length_app; simpl; lia).
  eapply da_wf_intro; [done| |done|done]. rewrite <- Hn, Hlen, !length_app, length_fmap, length_app. simpl. lia.
Qed.

Lemma InsertToArray_fails gives array l x :
  da_wf array l -> has_space gives array = false ->
  InsertToArray gives array x = Fail IntOverflow \/ InsertToArray gives array x = Fail AssertFail.
Proof.
  intros Hw Hsp. destruct (da_wf_sizes _ _ Hw) as [Hu _]. unfold InsertToArray, c_assert.
  destruct (Z.leb_spec 0 (usedObjects array)); [|lia]. cbn [mbind result_bind].
  destruct (grow_fails _ _ _ Hw Hsp) as [-> | ->]; [by left|by right].
Qed.

Lemma InsertToArrayAt_spec gives array l x (i : nat) :
  da_wf array l -> has_space gives array = true -> (i <= length l)%nat ->
  exists a, InsertToArrayAt gives array x (Z.of_nat i) = Ok a /\ da_wf a (take i l ++ x :: drop i l).
Proof.
  intros Hw Hsp Hi. destruct (grown_spec _ _ _ Hw Hsp) as (a & rest & E & Ed & Hrest & Hu & Hn & Ho & Hf).
  unfold InsertToArrayAt. destruct (Z.ltb_spec (Z.of_nat i) 0); [lia|]. cbn [andb]. rewrite E. cbn [mbind result_bind].
  assert (Hlen : length (da_data a) = (length l + length rest)%nat) by (rewrite Ed, length_app, length_fmap; lia).
  rewrite !(object_pos_Ok _ (currentSize a)) by lia. cbn [mbind result_bind].
  rewrite c_int_Ok by (unfold INT_MAX in *; nia). cbn [mbind result_bind].
  set (m := Some <$> take i l ++ drop i l).
  assert (Hm : memmove (da_data a) (Z.of_nat i + 1) (Z.of_nat i) (usedObjects a - Z.of_nat i)
    = Ok (take (S i) (da_data a) ++ (Some <$> drop i l) ++ drop 1 rest)).
  { unfold memmove. rewrite Hu, Hlen.
    destruct (Z.leb_spec 0 (Z.of_nat (length l) - Z.of_nat i)); [|lia].
    destruct (Z.leb_spec 0 (Z.of_nat i)); [|lia]. destruct (Z.leb_spec 0 (Z.of_nat i + 1)); [|lia].
    destruct (Z.leb_spec (Z.of_nat i + (Z.of_nat (length l) - Z.of_nat i)) (Z.of_nat (length l + length rest))); [|lia].
    destruct (Z.leb_spec (Z.of_nat i + 1 + (Z.of_nat (length l) - Z.of_nat i)) (Z.of_nat (length l + length rest))); [|lia].
    cbn [andb]. do 2 f_equal; [f_equal; lia|]. f_equal.
    - rewrite Ed, Nat2Z.id, drop_app_le by (rewrite length_fmap; lia).
      rewrite <- fmap_drop. rewrite take_app_le by (rewrite length_fmap, length_drop; lia).
      apply take_ge. rewrite length_fmap, length_drop. lia.
    - rewrite Ed. rewrite drop_app_ge by (rewrite length_fmap; lia). f_equal. rewrite length_fmap. lia. }
  clear m. rewrite Hm. cbn [mbind result_bind].
  rewrite arr_set_Ok by (rewrite length_app, length_take, Hlen; lia). cbn [mbind result_bind].
  rewrite c_int_Ok by (unfold INT_MAX in *; nia). cbn [mbind result_bind].
  eexists. split; [done|].
  assert (<[Z.to_nat (Z.of_nat i) := Some x]> (take (S i) (da_data a) ++ (Some <$> drop i l) ++ drop 1 rest)
    = (Some <$> (take i l ++ x :: drop i l)) ++ drop 1 rest) as ->.
  { rewrite Nat2Z.id. rewrite insert_app_l by (rewrite length_take, Hlen; lia).
    assert (<[i := Some x]> (take (S i) (da_data a)) = (Some <$> take i l) ++ [Some x]) as ->.
    { destruct (lookup_lt_is_Some_2 (da_data a) i) as [y Hy]; [lia|].
      rewrite (take_S_r _ _ _ Hy). rewrite insert_app_r_alt by (rewrite length_take; lia).
      rewrite length_take, Nat.min_l, Nat.sub_diag by lia. f_equal.
      rewrite Ed, take_app_le by (rewrite length_fmap; lia). by rewrite fmap_take. }
    rewrite fmap_app, fmap_cons, <- !app_assoc. done. }
  replace (usedObjects a + 1) with (Z.of_nat (length (take i l ++ x :: drop i l)))
    by (rewrite length_app, length_take; simpl; rewrite length_drop; lia).
  eapply da_wf_intro; [done| |done|done]. rewrite <- Hn, Hlen, length_app, length_fmap, length_app, length_take.
  simpl. rewrite !length_drop. lia.
Qed.

Lemma RemoveObject_spec array l (i : nat) f :
  da_wf array l -> (i < length l)%nat ->
  exists a, RemoveObject array (Z.of_nat i) f = Ok a /\ da_wf a (take i l ++ drop (S i) l).
Proof.
  intros Hw Hi. destruct (da_wf_sizes _ _ Hw) as [Hu Hlen0]. destruct Hw as (Hr & Hn & Ho & Hf).
  destruct (da_rep_app _ _ Hr) as [rest Ed].
  destruct (lookup_lt_is_Some_2 l i Hi) as [x Hx]. unfold RemoveObject, c_assert.
  destruct (Z.leb_spec 0 (Z.of_nat i)); [|lia]. destruct (Z.ltb_spec (Z.of_nat i) (usedObjects array)); [|lia].
  cbn [andb mbind result_bind]. rewrite !(object_pos_Ok _ (currentSize array)) by lia. cbn [mbind result_bind].
  assert (exists d y, match f with
    | Some g => (x0 ← arr_get (da_data array) (Z.of_nat i); arr_set (da_data array) (Z.of_nat i) (g x0))
    | None => Ok (da_data array) end = Ok d /\ d = (Some <$> <[i := y]> l) ++ rest) as (d & y & E & Hd).
  { destruct f as [g|].
    - rewrite (da_rep_lookup _ _ _ _ Hr Hx). cbn [mbind result_bind].
      rewrite arr_set_Ok by (rewrite Ed, length_app, length_fmap; lia). eexists _, (g x). split; [done|].
      rewrite Nat2Z.id, Ed, insert_app_l by (by rewrite length_fmap). by rewrite list_fmap_insert.
    - exists (da_data array), x. split; [done|]. by rewrite list_insert_id. }
  rewrite E. cbn [mbind result_bind]. rewrite c_int_Ok by (unfold INT_MAX in *; nia). cbn [mbind result_bind].
  assert (Hm : memmove d (Z.of_nat i) (Z.of_nat i + 1) (usedObjects array - Z.of_nat i - 1)
    = Ok ((Some <$> (take i l ++ drop (S i) l)) ++ drop (length l - 1) d)).
  { assert (Hlen : length d = (length l + length rest)%nat) by (rewrite Hd, length_app, length_fmap, length_insert; lia).
    unfold memmove. rewrite Hu, Hlen.
    destruct (Z.leb_spec 0 (Z.of_nat (length l) - Z.of_nat i - 1)); [|lia].
    destruct (Z.leb_spec 0 (Z.of_nat i)); [|lia]. destruct (Z.leb_spec 0 (Z.of_nat i + 1)); [|lia].
    destruct (Z.leb_spec (Z.of_nat i + 1 + (Z.of_nat (length l) - Z.of_nat i - 1)) (Z.of_nat (length l + length rest))); [|lia].
    destruct (Z.leb_spec (Z.of_nat i + (Z.of_nat (length l) - Z.of_nat i - 1)) (Z.of_nat (length l + length rest))); [|lia].
    cbn [andb]. f_equal. rewrite fmap_app, <- app_assoc. f_equal; [|f_equal].
    - rewrite Nat2Z.id, Hd, take_app_le by (rewrite length_fmap, length_insert; lia).
      rewrite <- fmap_take, take_insert_ge by lia. done.
    - rewrite Hd, drop_app_le by (rewrite length_fmap, length_insert; lia).
      rewrite <- fmap_drop, drop_insert_lt by lia.
      rewrite take_app_le by (rewrite length_fmap, length_drop; lia).
      rewrite take_ge by (rewrite length_fmap, length_drop; lia). do 2 f_equal. lia.
    - f_equal. lia. }
  rewrite Hm. cbn [mbind result_bind]. eexists. split; [done|].
  replace (usedObjects array - 1) with (Z.of_nat (length (take i l ++ drop (S i) l)))
    by (rewrite length_app, length_take, length_drop; lia).
  eapply da_wf_intro; [done| |done|done].
  rewrite <- Hn, Ed, Hd, length_app, length_fmap, length_app, length_take, !length_drop,
      !length_app, !length_fmap, length_insert. lia.
Qed.

Lemma SearchArray_spec array l x (cmp : A -> A -> bool) :
  da_rep array l -> SearchArray array x (Some cmp) = Ok (existsb (fun y => cmp y x) l).
Proof.
  intros Hr. unfold SearchArray. pose proof Hr as [-> _].
  destruct (search_range_pure 0 (Z.of_nat (length l))
    (fun i => y ← GetObjectPos array i; Ok (if cmp y x then Some true else None))
    (fun i => y ← l !! Z.to_nat i; if cmp y x then Some true else None) false)
    as [(i & r & Hi & Hg & _ & E)|(Hn & E)].
  - intros i Hi. destruct (lookup_lt_is_Some_2 l (Z.to_nat i)) as [y Hy]; [lia|].
    rewrite <- (Z2Nat.id i) at 1 by lia. rewrite (GetObjectPos_spec _ _ _ _ Hr Hy), Hy. done.
  - rewrite E. destruct (l !! Z.to_nat i) as [y|] eqn:Hy; simpl in Hg; [|done].
    destruct (cmp y x) eqn:Hc; [|done]. simplify_eq. f_equal. symmetry. apply existsb_exists.
    exists y. split; [|done]. by apply list_elem_of_In, list_elem_of_lookup_2 with (Z.to_nat i).
  - rewrite E. f_equal. symmetry. apply not_true_is_false. intros (y & Hy & Hc)%existsb_exists.
    apply list_elem_of_In, list_elem_of_lookup in Hy as [i Hi].
    specialize (Hn (Z.of_nat i)). rewrite Nat2Z.id, Hi in Hn. simpl in Hn. rewrite Hc in Hn.
    apply lookup_lt_Some in Hi. discriminate Hn. lia.
Qed.

Lemma FreeArray_spec array l f : da_rep array l -> exists a, FreeArray array f = Ok a /\ usedObjects a = 0.
Proof.
  intros Hr. unfold FreeArray. destruct f as [f|]; [|by eexists].
  pose proof Hr as (Hu & Ht & _). rewrite Hu.
  destruct (for_nat_inv (fun i (d : arr A) => exists l', length l' = length l /\ take (length l) d = Some <$> l')
    (length l) (fun i d => p ← object_pos array i; x ← arr_get d p; arr_set d p (f x)) (da_data array)) as (d & E & _).
  - by exists l.
  - intros i d Hi (l' & Hl & Hd). rewrite (da_fits_at _ _ _ Hr Hi). cbn [mbind result_bind]. destruct (lookup_lt_is_Some_2 l' i) as [x Hx]; [lia|].
    assert (d !! i = Some (Some x)) as Hdi.
    { rewrite <- (lookup_take_lt _ (length l)), Hd, list_lookup_fmap, Hx by done. done. }
    assert (arr_get d (Z.of_nat i) = Ok x) as -> by (apply arr_get_lookup; rewrite Nat2Z.id; split; [lia|done]).
    cbn [mbind result_bind]. apply lookup_lt_Some in Hdi. rewrite arr_set_Ok by lia. eexists. split; [done|].
    exists (<[i := f x]> l'). rewrite length_insert, Nat2Z.id. split; [done|].
    rewrite take_insert_lt by done. by rewrite Hd, list_fmap_insert.
  - rewrite E. by eexists.
Qed.

(** C23 The growing array refines the list of its objects. With room for one more
    object ([has_space]: the array is not full, or the block that is 32 objects
    larger is an [int] number of bytes and the allocator gives it) inserting, at
    the end or at a position of the list, acts as on the list; without it the code
    stops on the overflow or on its assertion, and nothing is written. Removing
    and searching act as on the list. *)
Theorem D_Array_refines_list gives array l x i f cmp :
  da_wf array l ->
  (if has_space gives array
   then (exists a, InsertToArray gives array x = Ok a /\ da_wf a (l ++ [x])) /\
     ((i <= length l)%nat ->
        exists a, InsertToArrayAt gives array x (Z.of_nat i) = Ok a /\ da_wf a (take i l ++ x :: drop i l))
   else InsertToArray gives array x = Fail IntOverflow \/ InsertToArray gives array x = Fail AssertFail) /\
  ((i < length l)%nat -> exists a, RemoveObject array (Z.of_nat i) f = Ok a /\ da_wf a (take i l ++ drop (S i) l)) /\
  SearchArray array x (Some cmp) = Ok (existsb (fun y => cmp y x) l).
Proof.
  intros Hw. split_and!.
  - destruct (has_space gives array) eqn:Hsp; [|by eapply InsertToArray_fails].
    split; [by apply InsertToArray_spec|by apply InsertToArrayAt_spec].
  - by apply RemoveObject_spec.
  - apply SearchArray_spec, Hw.
Qed.

(** A position past the end is not refused: the count of objects to move is
    negative, and [memmove] takes it for a huge one. *)
Lemma InsertToArrayAt_past_end gives array l x pos :
  da_wf array l -> has_space gives array = true -> Z.of_nat (length l) < pos ->
  objectSize array * (pos + 1) <= INT_MAX -> InsertToArrayAt gives array x pos = Fail OutOfBounds.
Proof.
  intros Hw Hsp Hpos Hfit. destruct (grown_spec _ _ _ Hw Hsp) as (a & rest & E & _ & _ & Hu & _ & Ho & _).
  assert (objectSize a = objectSize array) as Eo.
  { unfold grow_if_full, IncreaseArraySize in E. destruct (_ =? _); inv_ok; done. }
  unfold InsertToArrayAt. destruct (Z.ltb_spec pos 0); [lia|]. cbn [andb]. rewrite E. cbn [mbind result_bind].
  rewrite !(object_pos_Ok _ (pos + 1)) by (rewrite ?Eo; lia). cbn [mbind result_bind].
  assert (0 <= objectSize a * Z.of_nat (length l) /\ objectSize a * (Z.of_nat (length l) - pos) < 0) as [H1 H2] by nia.
  assert (objectSize a * (pos + 1) <= INT_MAX) as H3 by (by rewrite Eo).
  rewrite (c_int_Ok (objectSize a * _)) by (rewrite Hu; unfold INT_MAX in *; lia). cbn [mbind result_bind].
  unfold memmove. rewrite Hu. by destruct (Z.leb_spec 0 (Z.of_nat (length l) - pos)); [lia|].
Qed.
End d_array.

Definition ex_darray : D_Array Z := {| da_data := Some <$> [4; 5; 6]; currentSize := 3; usedObjects := 3; objectSize := 8 |}.
Lemma D_Array_refines_list_witness :
  exists a, InsertToArrayAt (fun n => n <=? 4096) ex_darray 9 1 = Ok a /\ da_wf a [4; 9; 5; 6].
Proof.
  assert (da_wf ex_darray [4; 5; 6]) as Hw.
  { apply (da_wf_intro _ [4; 5; 6] []); [reflexivity|reflexivity|lia|unfold INT_MAX; lia]. }
  destruct (D_Array_refines_list (fun n => n <=? 4096) ex_darray [4; 5; 6] 9 1 None Z.eqb Hw) as (H & _).
  change (has_space (fun n => n <=? 4096) ex_darray) with true in H. destruct H as [_ H].
  apply H. simpl. lia.
Defined.
