(* ===== verification/QueryDescriptor.v ===== *)
(** * The query descriptor (snooping/queryDescriptor.c)

    While a query is parsed and planned, the parser reports the columns it meets
    and the clause they are in, and the aliases of tables. The scan of a relation
    asks which of its columns the query reads, and which its filter reads. *)
From S2P Require Import Prelude Vectors DArray.

Definition NUMBER_OF_RELATIONS : Z := 50.
Definition MAX_RELATION_NAME : nat := 64.
(** [sizeof(ColumnDescriptor)]: five pointers and a flag. *)
Definition sizeof_ColumnDescriptor : Z := 48.

(** A [char *] is [None] when [NULL]. The field [alias] of the C structure is
    never written nor read. *)
Record ColumnDescriptor := {
  columnName : option string; tableName : option string;
  schemaName : option string; catalogName : option string; whole_row : bool }.

(** Two arrays of [MAX_RELATION_NAME] characters. *)
Record AliasMapEntry := { am_tableName : string; am_aliasName : string }.

Inductive ParseStatus :=
  PS_idle | PS_targetList | PS_groupList | PS_orderByList | PS_whereList | PS_havingList | PS_filterList.

Record QueryDescriptor := {
  aliasMap : arr AliasMapEntry;
  targetList : D_Array ColumnDescriptor; groupList : D_Array ColumnDescriptor;
  orderByList : D_Array ColumnDescriptor; whereList : D_Array ColumnDescriptor;
  havingList : D_Array ColumnDescriptor; filterList : D_Array ColumnDescriptor;
  allAttributes : D_Array ColumnDescriptor; limit : Z }.

(** The globals of the file. *)
Record qd_state := { NoDBQueryDesc : QueryDescriptor; isInitialized : bool; PSStatus : ParseStatus }.
Implicit Types (s : qd_state) (q : QueryDescriptor) (d : ColumnDescriptor).

(** The names of the columns, from a [TupleDesc]. *)
Abbreviation tuple_desc := (list string).
Implicit Types (tupDesc : tuple_desc).

Definition strcmp_eq (a b : string) : bool := bool_decide (a = b).
(** [strcpy] into an array of [MAX_RELATION_NAME] characters. *)
Definition strcpy_name (src : string) : result string :=
  if (String.length src <? MAX_RELATION_NAME)%nat then Ok src else Fail OutOfBounds.

Definition set_aliases q (m : arr AliasMapEntry) : QueryDescriptor :=
  {| aliasMap := m; targetList := targetList q; groupList := groupList q; orderByList := orderByList q;
     whereList := whereList q; havingList := havingList q; filterList := filterList q;
     allAttributes := allAttributes q; limit := limit q |}.
Definition set_limit q (n : Z) : QueryDescriptor :=
  {| aliasMap := aliasMap q; targetList := targetList q; groupList := groupList q; orderByList := orderByList q;
     whereList := whereList q; havingList := havingList q; filterList := filterList q;
     allAttributes := allAttributes q; limit := n |}.
Definition set_all q (a : D_Array ColumnDescriptor) : QueryDescriptor :=
  {| aliasMap := aliasMap q; targetList := targetList q; groupList := groupList q; orderByList := orderByList q;
     whereList := whereList q; havingList := havingList q; filterList := filterList q;
     allAttributes := a; limit := limit q |}.
Definition with_desc s q : qd_state :=
  {| NoDBQueryDesc := q; isInitialized := isInitialized s; PSStatus := PSStatus s |}.

(** ** Life cycle *)
Definition clear_aliases (m : arr AliasMapEntry) : result (arr AliasMapEntry) :=
  for_range 0 NUMBER_OF_RELATIONS (fun i m => arr_set m i {| am_tableName := ""; am_aliasName := "" |}) m.

Definition initializeQueryDescriptor (gives : Z -> bool) s : result qd_state :=
  let q := NoDBQueryDesc s in
  m ← clear_aliases (aliasMap q);
  t ← InitializeArray gives INIT_SIZE sizeof_ColumnDescriptor;
  g ← InitializeArray gives INIT_SIZE sizeof_ColumnDescriptor;
  h ← InitializeArray gives INIT_SIZE sizeof_ColumnDescriptor;
  o ← InitializeArray gives INIT_SIZE sizeof_ColumnDescriptor;
  w ← InitializeArray gives INIT_SIZE sizeof_ColumnDescriptor;
  f ← InitializeArray gives INIT_SIZE sizeof_ColumnDescriptor;
  a ← InitializeArray gives INIT_SIZE sizeof_ColumnDescriptor;
  Ok {| NoDBQueryDesc :=
          {| aliasMap := m; targetList := t; groupList := g; orderByList := o; whereList := w; havingList := h;
             filterList := f; allAttributes := a; limit := 0 |};
        isInitialized := true; PSStatus := PSStatus s |}.

Definition freeColumnDescriptor d : ColumnDescriptor :=
  {| columnName := None; tableName := None; schemaName := None; catalogName := None; whole_row := whole_row d |}.

Definition resetQueryDescriptor s : result qd_state :=
  let q := NoDBQueryDesc s in
  q' ← (if isInitialized s then
          m ← clear_aliases (aliasMap q);
          t ← FreeArray (targetList q) (Some freeColumnDescriptor);
          g ← FreeArray (groupList q) (Some freeColumnDescriptor);
          h ← FreeArray (havingList q) (Some freeColumnDescriptor);
          o ← FreeArray (orderByList q) (Some freeColumnDescriptor);
          w ← FreeArray (whereList q) (Some freeColumnDescriptor);
          f ← FreeArray (filterList q) (Some freeColumnDescriptor);
          a ← FreeArray (allAttributes q) (Some freeColumnDescriptor);
          Ok {| aliasMap := m; targetList := t; groupList := g; orderByList := o; whereList := w;
                havingList := h; filterList := f; allAttributes := a; limit := limit q |}
        else Ok q);
  Ok {| NoDBQueryDesc := set_limit q' 0; isInitialized := false; PSStatus := PS_idle |}.

Definition changeParseStatus s (newStatus : ParseStatus) : qd_state :=
  {| NoDBQueryDesc := NoDBQueryDesc s; isInitialized := isInitialized s; PSStatus := newStatus |}.
Definition getParseStatus s : ParseStatus := PSStatus s.
Definition setQueryLimit s (n : Z) : qd_state := with_desc s (set_limit (NoDBQueryDesc s) n).
Definition getQueryLimit s : Z := limit (NoDBQueryDesc s).

(** ** Aliases *)
Definition getTableNameFromAlias s (alias : string) : result (option string) :=
  search_range 0 NUMBER_OF_RELATIONS
    (fun i => e ← arr_get (aliasMap (NoDBQueryDesc s)) i;
       Ok (if strcmp_eq (am_aliasName e) alias then Some (Some (am_tableName e)) else None)) None.

Definition getAliasFromTableName s (table : string) : result (option string) :=
  search_range 0 NUMBER_OF_RELATIONS
    (fun i => e ← arr_get (aliasMap (NoDBQueryDesc s)) i;
       Ok (if strcmp_eq (am_tableName e) table then Some (Some (am_aliasName e)) else None)) None.

Definition hasTableAlias s (table alias : string) : result bool :=
  search_range 0 NUMBER_OF_RELATIONS
    (fun i => e ← arr_get (aliasMap (NoDBQueryDesc s)) i;
       Ok (if strcmp_eq (am_tableName e) table && strcmp_eq (am_aliasName e) alias then Some true else None)) false.

Definition initialized (gives : Z -> bool) s : result qd_state :=
  if isInitialized s then Ok s else initializeQueryDescriptor gives s.

(** [pos] is assigned only when a free entry is found, and read after the loop. *)
Definition addTableAliasInformation (gives : Z -> bool) s (table alias : string) : result qd_state :=
  s ← initialized gives s;
  known ← hasTableAlias s table alias;
  if known : bool then Ok s
  else
    pos ← search_range 0 NUMBER_OF_RELATIONS
      (fun i => e ← arr_get (aliasMap (NoDBQueryDesc s)) i;
         Ok (if (String.length (am_tableName e) =? 0)%nat then Some (Some i) else None)) None;
    match pos with
    | None => Fail Indeterminate
    | Some i =>
        a ← strcpy_name alias;
        t ← strcpy_name table;
        m ← arr_set (aliasMap (NoDBQueryDesc s)) i {| am_tableName := t; am_aliasName := a |};
        Ok (with_desc s (set_aliases (NoDBQueryDesc s) m))
    end.

(** ** Columns *)
Definition opt_eq (a b : option string) : Z :=
  (match a, b with Some x, Some y => if strcmp_eq x y then 1 else 0 | _, _ => 0 end)
  + (match a, b with None, None => 1 | _, _ => 0 end).

(** [val] is a [bool] of PostgreSQL, a [char] that counts the equal fields. *)
Definition equalColDesc (desc1 desc2 : ColumnDescriptor) : bool :=
  let val := opt_eq (columnName desc1) (columnName desc2) in
  let val := val + opt_eq (tableName desc1) (tableName desc2) in
  let val := val + opt_eq (schemaName desc1) (schemaName desc2) in
  let val := val + opt_eq (catalogName desc1) (catalogName desc2) in
  let val := val + (if eqb (whole_row desc1) (whole_row desc2) then 1 else 0) in
  val =? 5.

Definition copyColumnDescriptor (old : ColumnDescriptor) : ColumnDescriptor :=
  {| columnName := columnName old; tableName := tableName old; schemaName := schemaName old;
     catalogName := catalogName old; whole_row := whole_row old |}.

(** The table name of a column of the filter: an alias is replaced by its table. *)
Definition resolve_alias s d : result ColumnDescriptor :=
  match tableName d with
  | None => Ok d
  | Some t =>
      o ← getTableNameFromAlias s t;
      Ok (match o with
          | None => d
          | Some t' => {| columnName := columnName d; tableName := Some t'; schemaName := schemaName d;
                          catalogName := catalogName d; whole_row := whole_row d |}
          end)
  end.

(** The list that the status of the parser selects. *)
Definition insert_by_status (gives : Z -> bool) s d : result QueryDescriptor :=
  let q := NoDBQueryDesc s in
  let put t g o w h f :=
    {| aliasMap := aliasMap q; targetList := t; groupList := g; orderByList := o; whereList := w;
       havingList := h; filterList := f; allAttributes := allAttributes q; limit := limit q |} in
  match PSStatus s with
  | PS_idle => Ok q
  | PS_targetList =>
      t ← InsertToArray gives (targetList q) d;
      Ok (put t (groupList q) (orderByList q) (whereList q) (havingList q) (filterList q))
  | PS_groupList =>
      g ← InsertToArray gives (groupList q) d;
      Ok (put (targetList q) g (orderByList q) (whereList q) (havingList q) (filterList q))
  | PS_orderByList =>
      o ← InsertToArray gives (orderByList q) d;
      Ok (put (targetList q) (groupList q) o (whereList q) (havingList q) (filterList q))
  | PS_whereList =>
      d' ← resolve_alias s d;
      w ← InsertToArray gives (whereList q) d';
      Ok (put (targetList q) (groupList q) (orderByList q) w (havingList q) (filterList q))
  | PS_havingList =>
      h ← InsertToArray gives (havingList q) d;
      Ok (put (targetList q) (groupList q) (orderByList q) (whereList q) h (filterList q))
  | PS_filterList =>
      d' ← resolve_alias s d;
      f ← InsertToArray gives (filterList q) d';
      Ok (put (targetList q) (groupList q) (orderByList q) (whereList q) (havingList q) f)
  end.

Definition addColumnInformation (gives : Z -> bool) s (column table schema catalog : option string) (whole : bool) : result qd_state :=
  s ← initialized gives s;
  let columnDesc := {| columnName := column; tableName := table; schemaName := schema; catalogName := catalog;
                       whole_row := whole |} in
  let clone := copyColumnDescriptor columnDesc in
  q ← insert_by_status gives s columnDesc;
  found ← SearchArray (allAttributes q) clone (Some equalColDesc);
  q' ← (if found : bool then Ok q else a ← InsertToArray gives (allAttributes q) clone; Ok (set_all q a));
  Ok (with_desc s q').

(** ** The columns of a relation *)

(** The inner loop: the first column of that name that is not marked yet. *)
Definition mark_attribute tupDesc (name : string) (wc : arr Z * Z) : result (arr Z * Z) :=
  let '(which, counter) := wc in
  j ← search_range 0 (Z.of_nat (length tupDesc))
        (fun j => att ← arr_get (Some <$> tupDesc) j;
           w ← arr_get which j;
           Ok (if strcmp_eq att name && negb (w =? 1) then Some (Some j) else None)) None;
  match j with
  | None => Ok (which, counter)
  | Some j => which' ← arr_set which j 1; Ok (which', counter + 1)
  end.

(** The marked columns, in order. *)
Definition marked_columns tupDesc (wc : arr Z * Z) : result NoDBColVector_t :=
  let '(which, counter) := wc in
  '(v, _) ← for_range 0 (Z.of_nat (length tupDesc))
    (fun i '(v, j) => w ← arr_get which i;
       if negb (w =? 0) then v' ← NoDBColVectorSet v j i; Ok (v', j + 1) else Ok (v, j))
    (NoDBColVectorInit counter, 0);
  Ok v.

(** The loop over the descriptors, which [break]s at [*]. *)
Fixpoint query_loop (n : nat) s tupDesc (relation : string) (array : D_Array ColumnDescriptor) (i : Z)
    (wc : arr Z * Z) : result (arr Z * Z) :=
  match n with
  | O => Ok wc
  | S n' =>
      columnDesc ← GetObjectPos array i;
      skip ← match tableName columnDesc with
             | None => Ok false
             | Some t =>
                 if negb (strcmp_eq t relation) then b ← hasTableAlias s relation t; Ok (negb b) else Ok false
             end;
      if skip : bool then query_loop n' s tupDesc relation array (i + 1) wc
      else if whole_row columnDesc then
        which ← arr_fill 0 (Z.of_nat (length tupDesc)) 1 wc.1;
        Ok (which, Z.of_nat (length tupDesc))
      else
        wc' ← match columnName columnDesc with
              | None => Ok wc
              | Some c => mark_attribute tupDesc c wc
              end;
        query_loop n' s tupDesc relation array (i + 1) wc'
  end.

Definition getQueryAttributes s tupDesc (relation : string) : result NoDBColVector_t :=
  which ← arr_fill 0 (Z.of_nat (length tupDesc)) 0 (arr_alloc (Z.of_nat (length tupDesc)));
  let array := allAttributes (NoDBQueryDesc s) in
  wc ← (if negb (usedObjects array =? 0)
        then query_loop (Z.to_nat (usedObjects array)) s tupDesc relation array 0 (which, 0)
        else Ok (which, 0));
  marked_columns tupDesc wc.

Definition getQueryFilterAttributes s tupDesc (relation : string) : result NoDBColVector_t :=
  which ← arr_fill 0 (Z.of_nat (length tupDesc)) 0 (arr_alloc (Z.of_nat (length tupDesc)));
  let array := filterList (NoDBQueryDesc s) in
  wc ← (if negb (usedObjects array =? 0)
        then for_range 0 (usedObjects array)
          (fun i wc =>
             columnDesc ← GetObjectPos array i;
             let other := match tableName columnDesc with None => false | Some t => negb (strcmp_eq t relation) end in
             if other then Ok wc
             else
               _ ← c_assert (negb (whole_row columnDesc));
               match columnName columnDesc with
               | None => Ok wc
               | Some c => mark_attribute tupDesc c wc
               end) (which, 0)
        else Ok (which, 0));
  marked_columns tupDesc wc.

Definition getQueryRestAttributes (queryAtts filterAtts : NoDBColVector_t) : result NoDBColVector_t :=
  '(v, _) ← for_range 0 (NoDBColVectorSize queryAtts)
    (fun i '(restAttrs, j) =>
       col ← NoDBColVectorGet queryAtts i;
       c ← NoDBColVectorContains filterAtts col;
       if negb c then v' ← NoDBColVectorSet restAttrs j col; Ok (v', j + 1) else Ok (restAttrs, j))
    (NoDBColVectorInit (NoDBColVectorSize queryAtts - NoDBColVectorSize filterAtts), 0);
  Ok v.

Definition mergeAttributeVectors (a b : NoDBColVector_t) : result NoDBColVector_t :=
  ret ← for_range 0 (NoDBColVectorSize a)
    (fun i ret => c ← NoDBColVectorGet a i; NoDBColVectorSet ret i c)
    (NoDBColVectorInit (NoDBColVectorSize a - NoDBColVectorSize b));
  '(ret, _) ← for_range 0 (NoDBColVectorSize b)
    (fun i '(ret, j) =>
       col ← NoDBColVectorGet b i;
       c ← NoDBColVectorContains b col;
       if negb c then ret' ← NoDBColVectorSet ret j col; Ok (ret', j + 1) else Ok (ret, j)) (ret, 0);
  NoDBColVectorSort ret.

(** ** Searching a table that is fully set *)
#[global] Instance alias_entry_eq_dec : EqDecision AliasMapEntry.
Proof. solve_decision. Defined.
#[global] Instance column_descriptor_eq_dec : EqDecision ColumnDescriptor.
Proof. solve_decision. Defined.

Lemma search_list {B R} (l : list B) (f : B -> option R) (dflt : R) :
  search_range 0 (Z.of_nat (length l)) (fun i => e ← arr_get (Some <$> l) i; Ok (f e)) dflt
    = Ok (default dflt (head (omap f l))).
Proof.
  unfold search_range. rewrite Z.sub_0_r, Nat2Z.id.
  assert (forall pre post, l = pre ++ post ->
    search_n (length post) (Z.of_nat (length pre)) (fun i => e ← arr_get (Some <$> l) i; Ok (f e)) dflt
      = Ok (default dflt (head (omap f post)))) as H; [|by apply (H [] l)].
  intros pre post. revert pre. induction post as [|e post IH]; intros pre Hl; [done|].
  cbn [length search_n].
  assert (l !! length pre = Some e) as He by (rewrite Hl, lookup_app_r, Nat.sub_diag by lia; done).
  rewrite (arr_get_holds l (Z.of_nat (length pre)) e) by (rewrite ?Nat2Z.id; lia || done).
  cbn [mbind result_bind]. destruct (f e) as [r|] eqn:E; cbn; rewrite E; [done|].
  replace (Z.of_nat (length pre) + 1) with (Z.of_nat (length (pre ++ [e]))) by (rewrite length_app; simpl; lia).
  apply IH. by rewrite <- app_assoc.
Qed.

Lemma head_omap_none {B R} (f : B -> option R) (l : list B) :
  head (omap f l) = None <-> forall e, e ∈ l -> f e = None.
Proof.
  induction l as [|e l IH]; cbn; [set_solver|]. destruct (f e) as [r|] eqn:E; cbn.
  - split; [done|]. intros H. rewrite (H e) in E; [done|set_solver].
  - rewrite IH. set_solver.
Qed.

Lemma head_omap_some {B R} (f : B -> option R) (l : list B) r :
  head (omap f l) = Some r -> exists e, e ∈ l /\ f e = Some r.
Proof.
  induction l as [|e l IH]; cbn; [done|]. destruct (f e) as [r'|] eqn:E; cbn; intros H.
  - simplify_eq. exists e. set_solver.
  - destruct (IH H) as (e' & ? & ?). exists e'. set_solver.
Qed.

(** ** Aliases *)
Definition alias_entry (table alias : string) : AliasMapEntry := {| am_tableName := table; am_aliasName := alias |}.
Definition al_rep s (m : list AliasMapEntry) : Prop :=
  aliasMap (NoDBQueryDesc s) = Some <$> m /\ Z.of_nat (length m) = NUMBER_OF_RELATIONS.

Lemma search_aliases {R} s m (f : AliasMapEntry -> option R) dflt : al_rep s m ->
  search_range 0 NUMBER_OF_RELATIONS (fun i => e ← arr_get (aliasMap (NoDBQueryDesc s)) i; Ok (f e)) dflt
    = Ok (default dflt (head (omap f m))).
Proof. intros [-> <-]. apply search_list. Qed.

Lemma hasTableAlias_spec s m table alias : al_rep s m ->
  hasTableAlias s table alias = Ok (bool_decide (alias_entry table alias ∈ m)).
Proof.
  intros Hm. unfold hasTableAlias. rewrite (search_aliases s m _ _ Hm). f_equal.
  set (f := fun e : AliasMapEntry => _). destruct (head (omap f m)) as [r|] eqn:E; simpl; symmetry.
  - destruct (head_omap_some _ _ _ E) as ([t a] & He & Hf). unfold f, strcmp_eq in Hf. cbn in Hf.
    repeat case_bool_decide; simplify_eq/=; by apply bool_decide_eq_true_2 || done.
  - apply bool_decide_eq_false_2. intros H. apply (proj1 (head_omap_none _ _) E) in H. unfold f, strcmp_eq in H.
    cbn in H. by rewrite !bool_decide_eq_true_2 in H.
Qed.

Lemma getTableNameFromAlias_spec s m alias : al_rep s m ->
  (exists t, getTableNameFromAlias s alias = Ok (Some t) /\ alias_entry t alias ∈ m) \/
  (getTableNameFromAlias s alias = Ok None /\ forall t, alias_entry t alias ∉ m).
Proof.
  intros Hm. unfold getTableNameFromAlias. rewrite (search_aliases s m _ _ Hm).
  set (f := fun e : AliasMapEntry => _). destruct (head (omap f m)) as [r|] eqn:E; simpl.
  - left. destruct (head_omap_some _ _ _ E) as ([t a] & He & Hf). unfold f, strcmp_eq in Hf. cbn in Hf.
    case_bool_decide; simplify_eq. by exists t.
  - right. split; [done|]. intros t H. apply (proj1 (head_omap_none _ _) E) in H. unfold f, strcmp_eq in H.
    cbn in H. by rewrite bool_decide_eq_true_2 in H.
Qed.

(** ** Marked columns *)
Definition marks (bs : list bool) : arr Z := Some <$> (Z.b2z <$> bs).

Fixpoint indices (i : Z) (bs : list bool) : list Z :=
  match bs with
  | [] => []
  | b :: bs => if b then i :: indices (i + 1) bs else indices (i + 1) bs
  end.
Definition count (bs : list bool) : Z := Z.of_nat (length (indices 0 bs)).

Lemma indices_app i bs1 bs2 : indices i (bs1 ++ bs2) = indices i bs1 ++ indices (i + Z.of_nat (length bs1)) bs2.
Proof.
  revert i. induction bs1 as [|b bs1 IH]; intros i; [by rewrite Z.add_0_r|].
  replace (i + Z.of_nat (length (b :: bs1))) with (i + 1 + Z.of_nat (length bs1)) by (simpl; lia).
  cbn [app indices]. rewrite IH. by destruct b.
Qed.

Lemma indices_elem bs : forall i c, c ∈ indices i bs <-> i <= c /\ bs !! Z.to_nat (c - i) = Some true.
Proof.
  induction bs as [|b bs IH]; intros i c; simpl; [rewrite elem_of_nil; naive_solver|].
  assert (c = i \/ c <> i) as [->|Hc] by lia.
  - rewrite Z.sub_diag. cbn. destruct b.
    + rewrite elem_of_cons. split; [|by left]. intros _. split; [lia|done].
    + rewrite IH. split; [lia|naive_solver].
  - assert (c ∈ indices (i + 1) bs <-> i <= c /\ (b :: bs) !! Z.to_nat (c - i) = Some true) as H.
    { rewrite IH. split; intros [Hi Hl]; split; try lia.
      - replace (Z.to_nat (c - i)) with (S (Z.to_nat (c - (i + 1)))) by lia. done.
      - replace (Z.to_nat (c - i)) with (S (Z.to_nat (c - (i + 1)))) in Hl by lia. done. }
    destruct b; [|done]. rewrite elem_of_cons. naive_solver.
Qed.

Lemma indices_sorted bs : forall i, StronglySorted Z.lt (indices i bs).
Proof.
  induction bs as [|b bs IH]; intros i; simpl; [constructor|]. destruct b; [|done].
  constructor; [done|]. apply Forall_forall. intros c [Hc _]%indices_elem. lia.
Qed.

Lemma indices_insert j : forall i bs, bs !! j = Some false ->
  length (indices i (<[j := true]> bs)) = S (length (indices i bs)).
Proof.
  induction j as [|j IH]; intros i [|b bs] H; simplify_eq/=; [done|]. pose proof (IH (i + 1) bs H). destruct b; simpl; lia.
Qed.

Lemma indices_all n : forall i, length (indices i (replicate n true)) = n.
Proof. induction n as [|n IH]; intros i; simpl; [done|]. by rewrite IH. Qed.

Lemma marks_get bs i b : bs !! i = Some b -> arr_get (marks bs) (Z.of_nat i) = Ok (Z.b2z b).
Proof. intros H. apply arr_get_holds; [lia|]. by rewrite Nat2Z.id, list_lookup_fmap, H. Qed.

(** The inner loop marks the column of that name. *)
Lemma mark_query_column_spec tupDesc bs name :
  NoDup tupDesc -> length bs = length tupDesc ->
  exists bs', mark_attribute tupDesc name (marks bs, count bs) = Ok (marks bs', count bs') /\ length bs' = length bs /\
    forall i, bs' !! i = Some true <-> bs !! i = Some true \/ tupDesc !! i = Some name.
Proof.
  intros Hnd Hlen. unfold mark_attribute.
  destruct (search_range_pure 0 (Z.of_nat (length tupDesc))
    (fun j => att ← arr_get (Some <$> tupDesc) j; w ← arr_get (marks bs) j;
       Ok (if strcmp_eq att name && negb (w =? 1) then Some (Some j) else None))
    (fun j => att ← tupDesc !! Z.to_nat j; b ← bs !! Z.to_nat j;
       if bool_decide (att = name) && negb b then Some (Some j) else None) None)
    as [(j & r & Hj & Hg & _ & ->)|(Hn & ->)].
  - intros j Hj. destruct (lookup_lt_is_Some_2 tupDesc (Z.to_nat j)) as [att Ha]; [lia|].
    destruct (lookup_lt_is_Some_2 bs (Z.to_nat j)) as [b Hb]; [lia|].
    rewrite (arr_get_holds tupDesc j att) by (lia || done). cbn [mbind result_bind].
    assert (arr_get (marks bs) j = Ok (Z.b2z b)) as -> by (rewrite <- (marks_get bs _ b Hb); f_equal; lia).
    rewrite Ha, Hb. cbn. by destruct b.
  - destruct (tupDesc !! Z.to_nat j) as [att|] eqn:Ha; cbn in Hg; [|done].
    destruct (bs !! Z.to_nat j) as [b|] eqn:Hb; cbn in Hg; [|done].
    case_bool_decide; [subst att|done]. destruct b; simplify_eq/=.
    rewrite arr_set_Ok by (unfold marks; rewrite !length_fmap; lia). cbn [mbind result_bind].
    exists (<[Z.to_nat j := true]> bs). split_and!.
    + do 2 f_equal; [unfold marks; by rewrite !list_fmap_insert|]. unfold count. rewrite indices_insert by done. lia.
    + by rewrite length_insert.
    + intros i. destruct (decide (i = Z.to_nat j)) as [->|Hi].
      * rewrite list_lookup_insert_eq by lia. naive_solver.
      * rewrite list_lookup_insert_ne by done. split; [naive_solver|]. intros [|Hi']; [done|].
        by destruct (Hi (NoDup_lookup _ _ _ _ Hnd Hi' Ha)).
  - cbn [mbind result_bind]. exists bs. split_and!; [done|done|]. intros i. split; [naive_solver|]. intros [|Hi]; [done|].
    specialize (Hn (Z.of_nat i)). rewrite Nat2Z.id, Hi in Hn. cbn in Hn. pose proof (lookup_lt_Some _ _ _ Hi).
    destruct (lookup_lt_is_Some_2 bs i) as [b Hb]; [lia|]. rewrite Hb in Hn. cbn in Hn.
    rewrite bool_decide_eq_true_2 in Hn by done. destruct b; [done|]. discriminate Hn. lia.
Qed.

Lemma marked_columns_spec tupDesc bs : length bs = length tupDesc ->
  marked_columns tupDesc (marks bs, count bs) = Ok (col_vector (indices 0 bs)).
Proof.
  intros Hlen. unfold marked_columns, count. rewrite partial_empty.
  set (body := fun (i : Z) '(v, j) => _).
  destruct (for_nat_inv (fun k y => y = (partial (length (indices 0 bs)) (indices 0 (take k bs)),
      Z.of_nat (length (indices 0 (take k bs))))) (length tupDesc) body (partial (length (indices 0 bs)) [], 0))
    as (y & E & ->).
  - by rewrite take_0.
  - intros k y Hk ->. destruct (lookup_lt_is_Some_2 bs k) as [b Hb]; [lia|]. unfold body.
    rewrite (marks_get _ _ _ Hb). cbn [mbind result_bind].
    rewrite (take_S_r _ _ _ Hb), indices_app, length_take, Nat.min_l, Z.add_0_l by lia.
    destruct b; cbn [Z.b2z Z.eqb negb indices].
    + rewrite partial_set.
      * cbn [mbind result_bind]. eexists. split; [done|]. rewrite length_app. simpl. f_equal. lia.
      * rewrite <- (take_drop_middle bs k true Hb) at 2. rewrite indices_app, length_app. simpl. lia.
    + eexists. split; [done|]. by rewrite app_nil_r.
  - rewrite E. cbn [mbind result_bind]. by rewrite <- Hlen, firstn_all, partial_full.
Qed.

(** ** The columns of a relation *)

(** The descriptor is about the relation: it names no table, the relation or an
    alias of it. *)
Definition concerns (m : list AliasMapEntry) (relation : string) d : Prop :=
  match tableName d with None => True | Some t => t = relation \/ alias_entry relation t ∈ m end.
(** The descriptor covers the column at position [i]. *)
Definition covers tupDesc d (i : nat) : Prop :=
  (i < length tupDesc)%nat /\ (whole_row d = true \/ exists c, columnName d = Some c /\ tupDesc !! i = Some c).

Lemma covers_name tupDesc d i : whole_row d = false ->
  covers tupDesc d i <-> exists c, columnName d = Some c /\ tupDesc !! i = Some c.
Proof.
  intros Hw. unfold covers. rewrite Hw. split; [naive_solver|]. intros (c & Hc & Hi). split; [|naive_solver].
  by eapply lookup_lt_Some.
Qed.

(** Marking the column that a descriptor without [*] names. *)
Lemma mark_descriptor tupDesc d bs :
  NoDup tupDesc -> length bs = length tupDesc -> whole_row d = false ->
  exists bs', match columnName d with None => Ok (marks bs, count bs) | Some c => mark_attribute tupDesc c (marks bs, count bs) end
      = Ok (marks bs', count bs') /\ length bs' = length bs /\
    forall i, bs' !! i = Some true <-> bs !! i = Some true \/ covers tupDesc d i.
Proof.
  intros Hnd Hlen Hw. destruct (columnName d) as [c|] eqn:Hc.
  - destruct (mark_query_column_spec tupDesc bs c Hnd Hlen) as (bs' & -> & Hl & Hb). exists bs'. split_and!; [done|done|].
    intros i. rewrite Hb, covers_name, Hc by done. naive_solver.
  - exists bs. split_and!; [done|done|]. intros i. rewrite covers_name, Hc by done. naive_solver.
Qed.

Section query_columns.
Context (s : qd_state) (m : list AliasMapEntry) (Hm : al_rep s m) (tupDesc : tuple_desc) (Hnd : NoDup tupDesc)
  (relation : string).

Lemma clear_marks : arr_fill 0 (Z.of_nat (length tupDesc)) 0 (arr_alloc (Z.of_nat (length tupDesc)))
  = Ok (marks (replicate (length tupDesc) false)).
Proof.
  rewrite arr_fill_all by (apply length_arr_alloc; lia). rewrite Nat2Z.id. unfold marks. by rewrite !fmap_replicate.
Qed.

Lemma count_clear n : count (replicate n false) = 0.
Proof.
  unfold count. generalize 0 at 1. induction n as [|n IH]; intros i; simpl; [done|]. apply IH.
Qed.

Lemma skip_spec d :
  exists b, match tableName d with
    | None => Ok false
    | Some t => if negb (strcmp_eq t relation) then b ← hasTableAlias s relation t; Ok (negb b) else Ok false
    end = Ok b /\ (b = true <-> ~ concerns m relation d).
Proof.
  unfold concerns, strcmp_eq. destruct (tableName d) as [t|]; [|exists false; naive_solver].
  case_bool_decide as Ht; cbn [negb]; [exists false; naive_solver|].
  rewrite (hasTableAlias_spec s m relation t Hm). cbn [mbind result_bind]. eexists. split; [done|].
  rewrite negb_true_iff, bool_decide_eq_false. naive_solver.
Qed.

Lemma query_loop_spec (array : D_Array ColumnDescriptor) l : da_rep array l -> forall rest pre bs,
  l = pre ++ rest -> length bs = length tupDesc ->
  exists bs', query_loop (length rest) s tupDesc relation array (Z.of_nat (length pre)) (marks bs, count bs)
      = Ok (marks bs', count bs') /\ length bs' = length bs /\
    forall i, bs' !! i = Some true <->
      bs !! i = Some true \/ exists d, d ∈ rest /\ concerns m relation d /\ covers tupDesc d i.
Proof.
  intros Hr rest. induction rest as [|d rest IH]; intros pre bs Hl Hlen.
  { exists bs. split_and!; [done|done|]. set_solver. }
  cbn [length query_loop].
  rewrite (GetObjectPos_spec _ _ _ d Hr) by (rewrite Hl, lookup_app_r, Nat.sub_diag by lia; done). cbn [mbind result_bind].
  assert (Hl' : l = (pre ++ [d]) ++ rest) by (by rewrite <- app_assoc).
  assert (Hi : Z.of_nat (length pre) + 1 = Z.of_nat (length (pre ++ [d]))) by (rewrite length_app; simpl; lia).
  destruct (skip_spec d) as (b & -> & Hb). cbn [mbind result_bind]. destruct b.
  - rewrite Hi. destruct (IH (pre ++ [d]) bs Hl' Hlen) as (bs' & -> & Hlen' & Hbs). exists bs'.
    split_and!; [done|done|]. intros i. rewrite Hbs. set_solver.
  - assert (concerns m relation d) as Hc.
    { unfold concerns in *. destruct (tableName d) as [t|]; [|done].
      destruct (decide (t = relation \/ alias_entry relation t ∈ m)); naive_solver. }
    destruct (whole_row d) eqn:Hw.
    + rewrite arr_fill_all by (unfold marks; cbn [fst]; rewrite !length_fmap; lia). cbn [mbind result_bind].
      exists (replicate (length tupDesc) true). split_and!.
      * rewrite Nat2Z.id. unfold marks, count. rewrite indices_all, !fmap_replicate. done.
      * by rewrite length_replicate.
      * intros i. rewrite lookup_replicate. split.
        -- intros [_ Hi']. right. exists d. split_and!; [set_solver|done|]. split; [done|by left].
        -- intros [Hi'|(d' & _ & _ & Hd' & _)]; split; try done. apply lookup_lt_Some in Hi'. lia.
    + destruct (mark_descriptor tupDesc d bs Hnd Hlen Hw) as (bs1 & -> & Hlen1 & Hb1). cbn [mbind result_bind]. rewrite Hi.
      destruct (IH (pre ++ [d]) bs1 Hl') as (bs' & -> & Hlen' & Hbs); [lia|]. exists bs'.
      split_and!; [done|lia|]. intros i. rewrite Hbs, Hb1. set_solver.
Qed.

Lemma getQueryAttributes_spec l : da_rep (allAttributes (NoDBQueryDesc s)) l ->
  exists bs, getQueryAttributes s tupDesc relation = Ok (col_vector (indices 0 bs)) /\ length bs = length tupDesc /\
    forall i, bs !! i = Some true <-> exists d, d ∈ l /\ concerns m relation d /\ covers tupDesc d i.
Proof.
  intros Hr. unfold getQueryAttributes. rewrite clear_marks. cbn [mbind result_bind].
  assert (Hw : (marks (replicate (length tupDesc) false), 0)
    = (marks (replicate (length tupDesc) false), count (replicate (length tupDesc) false))) by (by rewrite count_clear).
  rewrite Hw.
  destruct (query_loop_spec _ l Hr l [] (replicate (length tupDesc) false)) as (bs & E & Hlen & Hbs);
    [done|by rewrite length_replicate|].
  rewrite length_replicate in Hlen. exists bs. split; [|split; [done|]].
  - pose proof Hr as [Hu _]. destruct (Z.eqb_spec (usedObjects (allAttributes (NoDBQueryDesc s))) 0) as [E0|E0]; cbn [negb].
    + destruct l as [|d l]; [|simpl in Hu; lia]. cbn [mbind result_bind]. cbn [length query_loop] in E.
      injection E as E1 E2. rewrite E1, E2. by apply marked_columns_spec.
    + rewrite Hu, Nat2Z.id. cbn [length] in E. change (Z.of_nat 0) with 0 in E. rewrite E. cbn [mbind result_bind].
      by apply marked_columns_spec.
  - intros i. rewrite Hbs. split; [|naive_solver]. intros [Hi|Hi]; [|done].
    apply lookup_replicate in Hi as [? _]. done.
Qed.

(** The filter names its relation by name: aliases were replaced before. *)
Definition filters (d : ColumnDescriptor) : Prop :=
  match tableName d with None => True | Some t => t = relation end.

Lemma filters_spec d :
  match tableName d with None => false | Some t => negb (strcmp_eq t relation) end = false <-> filters d.
Proof.
  unfold filters, strcmp_eq. destruct (tableName d) as [t|]; [|done]. case_bool_decide; naive_solver.
Qed.

Lemma getQueryFilterAttributes_spec l : da_rep (filterList (NoDBQueryDesc s)) l ->
  (forall d, d ∈ l -> filters d -> whole_row d = false) ->
  exists bs, getQueryFilterAttributes s tupDesc relation = Ok (col_vector (indices 0 bs)) /\
    length bs = length tupDesc /\
    forall i, bs !! i = Some true <-> exists d, d ∈ l /\ filters d /\ covers tupDesc d i.
Proof.
  intros Hr Hwhole. unfold getQueryFilterAttributes. rewrite clear_marks. cbn [mbind result_bind].
  set (body := fun (i : Z) wc => _).
  pose (I := fun (k : nat) (y : arr Z * Z) => exists bs, y = (marks bs, count bs) /\ length bs = length tupDesc /\
    forall i, bs !! i = Some true <-> exists d, d ∈ take k l /\ filters d /\ covers tupDesc d i).
  assert (I0 : I O (marks (replicate (length tupDesc) false), 0)).
  { exists (replicate (length tupDesc) false). rewrite count_clear, length_replicate. split_and!; [done|done|].
    intros i. rewrite lookup_replicate, take_0. set_solver. }
  assert (Hend : forall y, I (length l) y -> exists bs, marked_columns tupDesc y = Ok (col_vector (indices 0 bs)) /\
    length bs = length tupDesc /\ forall i, bs !! i = Some true <-> exists d, d ∈ l /\ filters d /\ covers tupDesc d i).
  { intros y (bs & -> & Hlen & Hbs). exists bs. rewrite firstn_all in Hbs. split_and!; [|done|done].
    by apply marked_columns_spec. }
  pose proof Hr as [Hu _]. rewrite Hu.
  destruct (Z.eqb_spec (Z.of_nat (length l)) 0) as [E0|E0]; cbn [negb].
  { apply Hend. by replace (length l) with O by lia. }
  destruct (for_nat_inv I (length l) body (marks (replicate (length tupDesc) false), 0) I0) as (y & -> & HI); [|by apply Hend].
  intros k y Hk (bs & -> & Hlen & Hbs). destruct (lookup_lt_is_Some_2 l k Hk) as [d Hd].
  unfold body. rewrite (GetObjectPos_spec _ _ _ _ Hr Hd). cbn [mbind result_bind].
  unfold I. rewrite (take_S_r _ _ _ Hd). pose proof (filters_spec d) as Hf.
  destruct (match tableName d with None => false | Some t => negb (strcmp_eq t relation) end).
  - eexists. split; [done|]. exists bs. split_and!; [done|done|]. intros i. rewrite Hbs. set_solver.
  - destruct Hf as [Hf _]. specialize (Hf eq_refl).
    rewrite (Hwhole d) by (done || by eapply list_elem_of_lookup_2). cbn [negb c_assert mbind result_bind].
    destruct (mark_descriptor tupDesc d bs Hnd Hlen) as (bs' & -> & Hlen' & Hbs').
    { apply Hwhole; [by eapply list_elem_of_lookup_2|done]. }
    eexists. split; [done|]. exists bs'. split_and!; [done|lia|]. intros i. rewrite Hbs', Hbs. set_solver.
Qed.
End query_columns.

(** The columns of the query that the filter does not read. *)
Lemma getQueryRestAttributes_spec (qs fs : list Z) : NoDup qs -> NoDup fs -> (forall c, c ∈ fs -> c ∈ qs) ->
  getQueryRestAttributes (col_vector qs) (col_vector fs) = Ok (col_vector (filter (fun c => c ∉ fs) qs)).
Proof.
  intros Hq Hf Hsub. unfold getQueryRestAttributes, NoDBColVectorSize. cbn [cv_size col_vector].
  set (rest := filter (fun c => c ∉ fs)).
  assert (length qs = length fs + length (rest qs))%nat as Hlen.
  { rewrite <- length_app. apply Permutation_length, NoDup_Permutation.
    - done.
    - apply NoDup_app. split_and!; [done| |by apply NoDup_filter].
      intros c Hc [Hn _]%list_elem_of_filter. done.
    - intros c. unfold rest. rewrite elem_of_app, list_elem_of_filter. destruct (decide (c ∈ fs)); naive_solver. }
  replace (Z.of_nat (length qs) - Z.of_nat (length fs)) with (Z.of_nat (length (rest qs))) by lia.
  rewrite partial_empty. set (body := fun (i : Z) '(v, j) => _).
  destruct (for_nat_inv (fun k y => y = (partial (length (rest qs)) (rest (take k qs)), Z.of_nat (length (rest (take k qs)))))
    (length qs) body (partial (length (rest qs)) [], 0)) as (y & E & ->).
  - by rewrite take_0.
  - intros k y Hk ->. destruct (col_read qs (Z.of_nat k)) as (c & Hc & E); [lia|]. rewrite Nat2Z.id in Hc.
    unfold body, NoDBColVectorGet. cbn [cv_cols col_vector]. rewrite E. cbn [mbind result_bind].
    rewrite NoDBColVectorContains_spec. cbn [mbind result_bind].
    assert (rest (take (S k) qs) = rest (take k qs) ++ (if decide (c ∉ fs) then [c] else [])) as ->.
    { unfold rest. rewrite (take_S_r _ _ _ Hc), filter_app, filter_cons, filter_nil. done. }
    case_bool_decide as Hin; cbn [negb].
    + rewrite decide_False by (intros H; by apply H). eexists. split; [done|]. by rewrite app_nil_r.
    + rewrite decide_True by done. rewrite partial_set by (by eapply filter_prefix). cbn [mbind result_bind].
      eexists. split; [done|]. rewrite length_app. simpl. f_equal. lia.
  - rewrite E. cbn [mbind result_bind]. by rewrite firstn_all, partial_full.
Qed.

(** ** The states of the descriptor *)
Lemma opt_eq_spec a b : opt_eq a b = if decide (a = b) then 1 else 0.
Proof.
  unfold opt_eq, strcmp_eq. destruct a as [x|], b as [y|]; cbn; repeat case_bool_decide; repeat case_decide; simplify_eq; done.
Qed.

(** Five fields are compared, and all must be equal. *)
Lemma equalColDesc_spec d1 d2 : equalColDesc d1 d2 = bool_decide (d1 = d2).
Proof.
  unfold equalColDesc. rewrite !opt_eq_spec. destruct d1 as [c1 t1 s1 k1 w1], d2 as [c2 t2 s2 k2 w2].
  cbn [columnName tableName schemaName catalogName whole_row].
  destruct (eqb w1 w2) eqn:Ew; [apply eqb_prop in Ew; subst|];
    repeat case_decide; subst; symmetry; try (by apply bool_decide_eq_true_2);
    apply bool_decide_eq_false_2; intros H'; injection H'; intros; subst; try done; by rewrite eqb_reflx in Ew.
Qed.

Lemma copyColumnDescriptor_id d : copyColumnDescriptor d = d.
Proof. by destruct d. Qed.

Definition no_array : D_Array ColumnDescriptor :=
  {| da_data := NULL; currentSize := 0; usedObjects := 0; objectSize := 0 |}.
(** The globals of a process that has not parsed a query. *)
Definition qd_start : qd_state :=
  {| NoDBQueryDesc :=
       {| aliasMap := Some <$> replicate 50 (alias_entry "" ""); targetList := no_array; groupList := no_array;
          orderByList := no_array; whereList := no_array; havingList := no_array; filterList := no_array;
          allAttributes := no_array; limit := 0 |};
     isInitialized := false; PSStatus := PS_idle |}.

(** What the allocator gives may differ from one call to the next. *)
Inductive qd_step : qd_state -> qd_state -> Prop :=
  | step_status s st : qd_step s (changeParseStatus s st)
  | step_limit s n : qd_step s (setQueryLimit s n)
  | step_column gives s c t sc ca w s' : addColumnInformation gives s c t sc ca w = Ok s' -> qd_step s s'
  | step_alias gives s t a s' : addTableAliasInformation gives s t a = Ok s' -> qd_step s s'
  | step_reset s s' : resetQueryDescriptor s = Ok s' -> qd_step s s'.

(** The array holds [l] when the descriptor is initialised, and nothing before. *)
Definition arr_ok (init : bool) (array : D_Array ColumnDescriptor) (l : list ColumnDescriptor) : Prop :=
  if init then da_wf array l else usedObjects array = 0 /\ l = [].
Definition some_ok (init : bool) (array : D_Array ColumnDescriptor) : Prop := exists l, arr_ok init array l.

(** A column of the filter was reported, under the alias that it stood for. *)
Definition covered (m : list AliasMapEntry) d (c : ColumnDescriptor) : Prop :=
  columnName d = columnName c /\ whole_row d = whole_row c /\
  match tableName d with
  | None => tableName c = None
  | Some t => tableName c = Some t \/ exists a, tableName c = Some a /\ (t = "" \/ alias_entry t a ∈ m)
  end.

Record qd_inv s (m : list AliasMapEntry) (fl al : list ColumnDescriptor) : Prop := {
  inv_aliases : al_rep s m;
  inv_target : some_ok (isInitialized s) (targetList (NoDBQueryDesc s));
  inv_group : some_ok (isInitialized s) (groupList (NoDBQueryDesc s));
  inv_order : some_ok (isInitialized s) (orderByList (NoDBQueryDesc s));
  inv_where : some_ok (isInitialized s) (whereList (NoDBQueryDesc s));
  inv_having : some_ok (isInitialized s) (havingList (NoDBQueryDesc s));
  inv_filter : arr_ok (isInitialized s) (filterList (NoDBQueryDesc s)) fl;
  inv_all : arr_ok (isInitialized s) (allAttributes (NoDBQueryDesc s)) al;
  inv_nodup : NoDup al;
  inv_covered : forall d, d ∈ fl -> exists c, c ∈ al /\ covered m d c }.

Lemma arr_ok_rep b array l : arr_ok b array l -> da_rep array l.
Proof. destruct b; [by intros [? _]|]. intros [? ->]. split_and!; [done|done|by left]. Qed.

Lemma qd_start_inv : qd_inv qd_start (replicate 50 (alias_entry "" "")) [] [].
Proof.
  split; try (by exists []); try done.
  - constructor.
  - set_solver.
Qed.

(** Clearing the alias map. *)
Lemma clear_aliases_spec (m : list AliasMapEntry) : Z.of_nat (length m) = NUMBER_OF_RELATIONS ->
  clear_aliases (Some <$> m) = Ok (Some <$> replicate 50 (alias_entry "" "")).
Proof.
  intros Hm. change (clear_aliases (Some <$> m)) with (arr_fill 0 NUMBER_OF_RELATIONS (alias_entry "" "") (Some <$> m)).
  by rewrite arr_fill_all by (by rewrite length_fmap).
Qed.

(** The bytes of a new array. *)
Definition new_bytes : Z := sizeof_ColumnDescriptor * INIT_SIZE.

Lemma new_array gives : gives new_bytes = true ->
  exists a : D_Array ColumnDescriptor, InitializeArray gives INIT_SIZE sizeof_ColumnDescriptor = Ok a /\ da_wf a [] /\
    has_space gives a = true.
Proof.
  intros Hg. destruct (InitializeArray_spec (A := ColumnDescriptor) gives INIT_SIZE sizeof_ColumnDescriptor) as (a & E & Hw & _); [done..|].
  exists a. split; [done|]. split; [done|]. unfold InitializeArray in E. cbn in E. inv_ok. done.
Qed.

(** The array of the clause that is parsed. *)
Definition status_list s : option (D_Array ColumnDescriptor) :=
  let q := NoDBQueryDesc s in
  match PSStatus s with
  | PS_idle => None
  | PS_targetList => Some (targetList q)
  | PS_groupList => Some (groupList q)
  | PS_orderByList => Some (orderByList q)
  | PS_whereList => Some (whereList q)
  | PS_havingList => Some (havingList q)
  | PS_filterList => Some (filterList q)
  end.

(** There is memory to report a column: for new arrays, or in the two arrays that
    take it. *)
Definition can_report (gives : Z -> bool) s : bool :=
  if isInitialized s then
    from_option (has_space gives) true (status_list s) && has_space gives (allAttributes (NoDBQueryDesc s))
  else gives new_bytes.
Definition stops {A} (r : result A) : Prop := r = Fail IntOverflow \/ r = Fail AssertFail.

Lemma initialized_inv gives s m fl al : qd_inv s m fl al ->
  (exists s' m', initialized gives s = Ok s' /\ qd_inv s' m' fl al /\ isInitialized s' = true /\ PSStatus s' = PSStatus s /\
     can_report gives s' = can_report gives s) \/
  (can_report gives s = false /\ initialized gives s = Fail AssertFail).
Proof.
  intros H. unfold initialized. destruct (isInitialized s) eqn:Hi; [left; by exists s, m|].
  destruct H as [[Ha Hm] _ _ _ _ _ Hf Hal _ _]. rewrite Hi in *. destruct Hf as [_ ->], Hal as [_ ->].
  unfold initializeQueryDescriptor. rewrite Ha, clear_aliases_spec by done. cbn [mbind result_bind].
  unfold can_report. rewrite Hi. destruct (gives new_bytes) eqn:Hg.
  - left. destruct (new_array gives Hg) as (a & E & Hw & Hsp). rewrite !E. cbn [mbind result_bind].
    eexists _, (replicate 50 (alias_entry "" "")). split; [done|]. split_and!; [|done|done|].
    + split; cbn [NoDBQueryDesc isInitialized targetList groupList orderByList whereList havingList filterList allAttributes];
        try (by exists []); try done; [constructor|set_solver].
    + unfold status_list. cbn [PSStatus NoDBQueryDesc isInitialized targetList groupList orderByList whereList havingList
        filterList allAttributes]. destruct (PSStatus s); cbn [from_option]; by rewrite Hsp.
  - right. split; [done|]. unfold InitializeArray. change (0 <? INIT_SIZE) with true. change (0 <? sizeof_ColumnDescriptor) with true.
    cbn [c_assert mbind result_bind]. rewrite c_int_Ok by done. cbn [mbind result_bind]. fold new_bytes. by rewrite Hg.
Qed.

Lemma covered_refl m d : covered m d d.
Proof. unfold covered. split_and!; [done|done|]. destruct (tableName d); [by left|done]. Qed.

Lemma resolve_alias_spec s m d : al_rep s m -> exists d', resolve_alias s d = Ok d' /\ covered m d' d.
Proof.
  intros Hm. unfold resolve_alias. destruct (tableName d) as [t|] eqn:Ht.
  - destruct (getTableNameFromAlias_spec s m t Hm) as [(t' & -> & Hin)|[-> _]]; cbn [mbind result_bind].
    + eexists. split; [done|]. split_and!; [done|done|]. cbn. right. exists t. naive_solver.
    + exists d. split; [done|]. apply covered_refl.
  - exists d. split; [done|]. apply covered_refl.
Qed.

Lemma insert_ok gives array d : some_ok true array -> has_space gives array = true ->
  exists a, InsertToArray gives array d = Ok a /\ some_ok true a.
Proof. intros [l Hl] Hsp. destruct (InsertToArray_spec gives array l d Hl Hsp) as (a & -> & Ha). exists a. split; [done|]. by eexists. Qed.

Lemma insert_stops gives array d : some_ok true array -> has_space gives array = false -> stops (InsertToArray gives array d).
Proof. intros [l Hl] Hsp. by apply (InsertToArray_fails _ _ l). Qed.

(** Without room in the array of the clause the report stops. *)
Lemma insert_by_status_stops gives s m fl al d : qd_inv s m fl al -> isInitialized s = true ->
  from_option (has_space gives) true (status_list s) = false -> stops (insert_by_status gives s d).
Proof.
  intros [Ha Ht Hg Ho Hw Hh Hf _ _ _] Hi Hsp. unfold insert_by_status, status_list in *. rewrite Hi in *.
  assert (Hf' : some_ok true (filterList (NoDBQueryDesc s))) by (by eexists).
  destruct (resolve_alias_spec s m d Ha) as (d' & Er & _).
  destruct (PSStatus s); cbn [from_option] in Hsp; [done|..]; rewrite ?Er; cbn [mbind result_bind].
  - destruct (insert_stops gives _ d Ht Hsp) as [-> | ->]; [by left|by right].
  - destruct (insert_stops gives _ d Hg Hsp) as [-> | ->]; [by left|by right].
  - destruct (insert_stops gives _ d Ho Hsp) as [-> | ->]; [by left|by right].
  - destruct (insert_stops gives _ d' Hw Hsp) as [-> | ->]; [by left|by right].
  - destruct (insert_stops gives _ d Hh Hsp) as [-> | ->]; [by left|by right].
  - destruct (insert_stops gives _ d' Hf' Hsp) as [-> | ->]; [by left|by right].
Qed.

Lemma insert_by_status_inv gives s m fl al d : qd_inv s m fl al -> isInitialized s = true ->
  from_option (has_space gives) true (status_list s) = true ->
  exists q fl', insert_by_status gives s d = Ok q /\ allAttributes q = allAttributes (NoDBQueryDesc s) /\
    (forall x, x ∈ fl' -> x ∈ fl \/ covered m x d) /\
    forall al' a, arr_ok true a al' -> NoDup al' -> (forall c, c ∈ al -> c ∈ al') -> d ∈ al' ->
      qd_inv (with_desc s (set_all q a)) m fl' al'.
Proof.
  intros [Ha Ht Hg Ho Hw Hh Hf Hal Hnd Hc] Hi Hsp. unfold insert_by_status, status_list in *. rewrite Hi in *.
  assert (Hold : forall al' : list ColumnDescriptor, (forall c, c ∈ al -> c ∈ al') -> forall x, x ∈ fl -> exists c, c ∈ al' /\ covered m x c).
  { intros al' Hsub x Hx. destruct (Hc x Hx) as (c & ? & ?). exists c. split; [by apply Hsub|done]. }
  destruct (PSStatus s); cbn [from_option] in Hsp.
  2: destruct (insert_ok gives _ d Ht Hsp) as (b & -> & Hb). 3: destruct (insert_ok gives _ d Hg Hsp) as (b & -> & Hb).
  4: destruct (insert_ok gives _ d Ho Hsp) as (b & -> & Hb).
  5: destruct (resolve_alias_spec s m d Ha) as (d' & -> & Hd'); cbn [mbind result_bind];
     destruct (insert_ok gives _ d' Hw Hsp) as (b & -> & Hb).
  6: destruct (insert_ok gives _ d Hh Hsp) as (b & -> & Hb).
  7: destruct (resolve_alias_spec s m d Ha) as (d' & -> & Hd'); cbn [mbind result_bind];
     destruct (InsertToArray_spec gives _ _ d' Hf Hsp) as (b & -> & Hb).
  1-6: cbn [mbind result_bind]; eexists _, fl; split_and!; [done|done|by left|];
    intros al' a Hal' Hnd' Hsub Hd; split; cbn [NoDBQueryDesc isInitialized with_desc set_all targetList groupList
      orderByList whereList havingList filterList allAttributes]; rewrite ?Hi; try done; by apply Hold.
  cbn [mbind result_bind]. eexists _, (fl ++ [d']). split_and!; [done|done|set_solver|].
  intros al' a Hal' Hnd' Hsub Hd. split; cbn [NoDBQueryDesc isInitialized with_desc set_all targetList groupList
      orderByList whereList havingList filterList allAttributes]; rewrite ?Hi; try done.
  intros x [Hx|Hx]%elem_of_app; [by apply Hold|]. apply list_elem_of_singleton in Hx as ->. by exists d.
Qed.

Lemma known_column (al : list ColumnDescriptor) d : existsb (fun y => equalColDesc y d) al = bool_decide (d ∈ al).
Proof.
  apply eq_true_iff_eq. rewrite existsb_exists, bool_decide_eq_true. setoid_rewrite <- list_elem_of_In. split.
  - intros (y & Hy & E). rewrite equalColDesc_spec in E. by apply bool_decide_eq_true_1 in E as ->.
  - intros Hd. exists d. rewrite equalColDesc_spec. split; [done|]. by apply bool_decide_eq_true_2.
Qed.

(** Reporting a column adds it to what is known; without memory it stops. *)
Lemma addColumnInformation_inv gives s m fl al column table schema catalog whole :
  let d := {| columnName := column; tableName := table; schemaName := schema; catalogName := catalog; whole_row := whole |} in
  qd_inv s m fl al ->
  (exists s' m' fl' al', addColumnInformation gives s column table schema catalog whole = Ok s' /\ qd_inv s' m' fl' al' /\
    (forall x, x ∈ al' <-> x ∈ al \/ x = d)) \/
  (can_report gives s = false /\ stops (addColumnInformation gives s column table schema catalog whole)).
Proof.
  intros d H. unfold addColumnInformation.
  destruct (initialized_inv gives _ _ _ _ H) as [(s1 & m1 & -> & H1 & Hi & _ & <-)|[Hcr ->]]; [|by right; split; [|right]].
  cbn [mbind result_bind]. fold d. unfold can_report. rewrite Hi.
  destruct (from_option (has_space gives) true (status_list s1)) eqn:Hsp.
  2: { right. split; [done|]. destruct (insert_by_status_stops gives _ _ _ _ d H1 Hi Hsp) as [-> | ->]; [by left|by right]. }
  destruct (insert_by_status_inv gives _ _ _ _ d H1 Hi Hsp) as (q & fl' & -> & Eq & _ & Hinv). cbn [mbind result_bind andb].
  rewrite copyColumnDescriptor_id, Eq. pose proof (inv_all _ _ _ _ H1) as Hal. rewrite Hi in Hal.
  rewrite (SearchArray_spec _ al d equalColDesc) by apply Hal. cbn [mbind result_bind].
  rewrite known_column. case_bool_decide as Hd.
  - left. cbn [mbind result_bind]. eexists _, m1, fl', al. split; [done|]. split; [|naive_solver].
    replace q with (set_all q (allAttributes (NoDBQueryDesc s1))) by (rewrite <- Eq; by destruct q).
    apply Hinv; [done|apply H1|done|done].
  - destruct (has_space gives (allAttributes (NoDBQueryDesc s1))) eqn:Hsa.
    + left. destruct (InsertToArray_spec gives _ _ d Hal Hsa) as (a & -> & Ha). cbn [mbind result_bind].
      eexists _, m1, fl', (al ++ [d]). split; [done|]. split; [|set_solver].
      apply Hinv; [done| |set_solver|set_solver]. apply NoDup_app. split_and!; [apply H1|set_solver|apply NoDup_singleton].
    + right. split; [done|]. destruct (InsertToArray_fails gives _ _ d Hal Hsa) as [-> | ->]; [by left|by right].
Qed.

Lemma covered_mono m m' d c : covered m d c ->
  (forall t a, t <> "" -> alias_entry t a ∈ m -> alias_entry t a ∈ m') -> covered m' d c.
Proof.
  intros (Hc & Hw & Ht) Hsub. split_and!; [done|done|]. destruct (tableName d) as [t|]; [|done].
  destruct Ht as [|(a & Ha & Hm)]; [by left|]. right. exists a. split; [done|].
  destruct (decide (t = "")); [by left|]. right. apply Hsub; naive_solver.
Qed.

(** An alias goes to the first free entry. *)
Lemma addTableAliasInformation_inv gives s m fl al table alias s' : qd_inv s m fl al ->
  addTableAliasInformation gives s table alias = Ok s' -> exists m', qd_inv s' m' fl al.
Proof.
  intros H. unfold addTableAliasInformation.
  destruct (initialized_inv gives _ _ _ _ H) as [(s1 & m1 & -> & H1 & Hi & _)|[_ ->]]; [|done].
  cbn [mbind result_bind]. pose proof (inv_aliases _ _ _ _ H1) as Hm.
  rewrite (hasTableAlias_spec _ _ _ _ Hm). cbn [mbind result_bind]. case_bool_decide; [intros; simplify_eq; by exists m1|].
  pose proof Hm as [Em Hlen]. rewrite Em, <- Hlen.
  destruct (search_range_pure 0 (Z.of_nat (length m1))
    (fun i => e ← arr_get (Some <$> m1) i;
       Ok (if (String.length (am_tableName e) =? 0)%nat then Some (Some i) else None))
    (fun i => e ← m1 !! Z.to_nat i; if (String.length (am_tableName e) =? 0)%nat then Some (Some i) else None) None)
    as [(i & r & Hir & Hg & _ & ->)|(_ & ->)]; [| |done].
  { intros i Hir. destruct (lookup_lt_is_Some_2 m1 (Z.to_nat i)) as [e He]; [lia|].
    rewrite (arr_get_holds m1 i e) by (lia || done). rewrite He. done. }
  cbn [mbind result_bind]. destruct (m1 !! Z.to_nat i) as [e|] eqn:He; cbn in Hg; [|done].
  destruct (Nat.eqb_spec (String.length (am_tableName e)) 0) as [E0|]; [|done]. simplify_eq.
  intros H2. inv_ok. apply arr_set_inv in H4 as (_ & ->).
  exists (<[Z.to_nat i := alias_entry x0 x]> m1). destruct H1 as [_ Ht Hg Ho Hw Hh Hf Hal Hnd Hc].
  split; cbn [NoDBQueryDesc isInitialized with_desc set_aliases targetList groupList
      orderByList whereList havingList filterList allAttributes]; try done.
  - split; [|by rewrite length_insert]. cbn. by rewrite list_fmap_insert.
  - intros d Hd. destruct (Hc d Hd) as (c & Hcin & Hcov). exists c. split; [done|]. apply (covered_mono m1); [done|].
    intros t a Ht' [k Hk]%list_elem_of_lookup. apply list_elem_of_lookup. exists k.
    destruct (decide (k = Z.to_nat i)) as [->|]; [|by rewrite list_lookup_insert_ne].
    rewrite He in Hk. simplify_eq. cbn in E0. by destruct t.
Qed.

Lemma free_ok array b : some_ok b array -> exists a, FreeArray array (Some freeColumnDescriptor) = Ok a /\ usedObjects a = 0.
Proof.
  intros [l Hl%arr_ok_rep]. destruct (FreeArray_spec _ _ (Some freeColumnDescriptor) Hl) as (a & -> & Ha). by exists a.
Qed.

Lemma resetQueryDescriptor_inv s m fl al : qd_inv s m fl al ->
  exists s' m', resetQueryDescriptor s = Ok s' /\ qd_inv s' m' [] [] /\ isInitialized s' = false.
Proof.
  intros [[Ha Hm] Ht Hg Ho Hw Hh Hf Hal _ _]. unfold resetQueryDescriptor.
  assert (Hf' : some_ok (isInitialized s) (filterList (NoDBQueryDesc s))) by (by eexists).
  assert (Hal' : some_ok (isInitialized s) (allAttributes (NoDBQueryDesc s))) by (by eexists).
  destruct (isInitialized s) eqn:Hi.
  - rewrite Ha, clear_aliases_spec by done. cbn [mbind result_bind].
    destruct (free_ok _ _ Ht) as (a1 & -> & H1), (free_ok _ _ Hg) as (a2 & -> & H2), (free_ok _ _ Hh) as (a3 & -> & H3),
      (free_ok _ _ Ho) as (a4 & -> & H4), (free_ok _ _ Hw) as (a5 & -> & H5), (free_ok _ _ Hf') as (a6 & -> & H6),
      (free_ok _ _ Hal') as (a7 & -> & H7). cbn [mbind result_bind].
    eexists _, (replicate 50 (alias_entry "" "")). split; [done|]. split; [|done].
    split; cbn [NoDBQueryDesc isInitialized set_limit targetList groupList orderByList whereList havingList filterList
      allAttributes]; try (by exists []); try done; [constructor|set_solver].
  - cbn [mbind result_bind]. eexists _, m. split; [done|]. split; [|done].
    split; cbn [NoDBQueryDesc isInitialized set_limit targetList groupList orderByList whereList havingList filterList
      allAttributes]; try done; [by split; [apply Hf|] | by split; [apply Hal|] |constructor|set_solver].
Qed.

Lemma qd_step_inv s s' m fl al : qd_step s s' -> qd_inv s m fl al -> exists m' fl' al', qd_inv s' m' fl' al'.
Proof.
  intros Hs H. destruct Hs as [s st|s n|gives s c t sc ca w s' E|gives s t a s' E|s s' E].
  - destruct H. by exists m, fl, al.
  - destruct H. by exists m, fl, al.
  - destruct (addColumnInformation_inv gives _ _ _ _ c t sc ca w H) as [(s1 & m' & fl' & al' & E1 & H1 & _)|[_ [E1|E1]]];
      rewrite E1 in E; simplify_eq; eauto.
  - destruct (addTableAliasInformation_inv _ _ _ _ _ _ _ _ H E) as [m' H']. eauto.
  - destruct (resetQueryDescriptor_inv _ _ _ _ H) as (s1 & m' & E1 & H' & _). rewrite E1 in E. simplify_eq. eauto.
Qed.

Lemma reachable_inv s : rtc qd_step qd_start s -> exists m fl al, qd_inv s m fl al.
Proof.
  assert (forall s0 m fl al, rtc qd_step s0 s -> qd_inv s0 m fl al -> exists m fl al, qd_inv s m fl al) as H.
  { intros s0 m fl al Hr. revert m fl al. induction Hr as [|s1 s2 s3 Hs _ IH]; intros m fl al H; [by eauto|].
    destruct (qd_step_inv _ _ _ _ _ Hs H) as (m' & fl' & al' & H'). eauto. }
  intros Hr. eapply H; [done|]. apply qd_start_inv.
Qed.

(** ** What a state knows *)
Definition used_objects {A} (array : D_Array A) : list A := omap id (take (Z.to_nat (usedObjects array)) (da_data array)).
Definition reported s : list ColumnDescriptor := used_objects (allAttributes (NoDBQueryDesc s)).
Definition filtered s : list ColumnDescriptor := used_objects (filterList (NoDBQueryDesc s)).
Definition aliases s : list AliasMapEntry := omap id (aliasMap (NoDBQueryDesc s)).

Lemma omap_some {A} (l : list A) : omap id (Some <$> l) = l.
Proof. induction l as [|x l IH]; cbn; [done|]. by f_equal. Qed.

Lemma used_objects_rep {A} (array : D_Array A) l : da_rep array l -> used_objects array = l.
Proof. intros (Hu & Ht & _). unfold used_objects. rewrite Hu, Nat2Z.id, Ht. apply omap_some. Qed.

Lemma inv_known s m fl al : qd_inv s m fl al -> reported s = al /\ filtered s = fl /\ aliases s = m.
Proof.
  intros H. split_and!.
  - eapply used_objects_rep, arr_ok_rep, H.
  - eapply used_objects_rep, arr_ok_rep, H.
  - unfold aliases. destruct H as [[-> _] _ _ _ _ _ _ _ _ _]. apply omap_some.
Qed.

Lemma indices_range (bs : list bool) c : c ∈ indices 0 bs <-> 0 <= c /\ bs !! Z.to_nat c = Some true.
Proof. by rewrite indices_elem, Z.sub_0_r. Qed.

Lemma getQueryAttributes_reachable s tupDesc relation : rtc qd_step qd_start s -> NoDup tupDesc ->
  exists qs, getQueryAttributes s tupDesc relation = Ok (col_vector qs) /\ StronglySorted Z.lt qs /\
    forall c, c ∈ qs <-> 0 <= c /\ exists d, d ∈ reported s /\ concerns (aliases s) relation d /\
      covers tupDesc d (Z.to_nat c).
Proof.
  intros Hr Hnd. destruct (reachable_inv s Hr) as (m & fl & al & H).
  destruct (inv_known _ _ _ _ H) as (Er & _ & Ea). rewrite Er, Ea.
  destruct (getQueryAttributes_spec s m (inv_aliases _ _ _ _ H) tupDesc Hnd relation al) as (bs & E & _ & Hbs).
  { eapply arr_ok_rep, H. }
  exists (indices 0 bs). split; [done|]. split; [apply indices_sorted|]. intros c. by rewrite indices_range, Hbs.
Qed.

(** The columns of the filter are columns of the query. *)
Lemma filter_reachable s tupDesc relation qs :
  rtc qd_step qd_start s -> NoDup tupDesc -> relation <> "" ->
  (forall d, d ∈ filtered s -> whole_row d = false) -> getQueryAttributes s tupDesc relation = Ok (col_vector qs) ->
  exists fs, getQueryFilterAttributes s tupDesc relation = Ok (col_vector fs) /\ StronglySorted Z.lt fs /\
    (forall c, c ∈ fs -> c ∈ qs).
Proof.
  intros Hr Hnd Hrel Hwhole Hq. destruct (reachable_inv s Hr) as (m & fl & al & H).
  destruct (inv_known _ _ _ _ H) as (_ & Ef & _). rewrite Ef in Hwhole.
  destruct (getQueryAttributes_spec s m (inv_aliases _ _ _ _ H) tupDesc Hnd relation al) as (bq & Eq & Hlq & Hbq).
  { eapply arr_ok_rep, H. }
  destruct (getQueryFilterAttributes_spec s m (inv_aliases _ _ _ _ H) tupDesc Hnd relation fl) as (bf & Efl & Hlf & Hbf).
  { eapply arr_ok_rep, H. }
  { intros d Hd _. by apply Hwhole. }
  exists (indices 0 bf). split_and!; [done|apply indices_sorted|].
  rewrite Hq in Eq. injection Eq as _ Eq. apply (inj (fmap Some)) in Eq as ->.
  intros c. rewrite !indices_range. intros [Hc Hb]. split; [done|]. apply Hbq.
  apply Hbf in Hb as (d & Hd & Hfil & Hcov). destruct (inv_covered _ _ _ _ H d Hd) as (x & Hx & Hn & Hw & Ht).
  exists x. split; [done|]. split.
  - unfold filters, concerns in *. destruct (tableName d) as [t|]; [|by rewrite Ht]. subst t.
    destruct Ht as [->|(a & -> & Ht)]; [by left|]. right. naive_solver.
  - unfold covers in *. by rewrite <- Hn, <- Hw.
Qed.

(** C16 The columns of a relation that a query reads are, in increasing order,
    those that some reported descriptor covers: by name or as [*], and without a
    table name, under the name of the relation or under one of its aliases.
    Reporting a column adds exactly it to what is known; it stops, on the overflow
    of a size or on the assertion after the allocation, only when an array that
    takes the column is full and cannot be made larger ([can_report]). *)
Theorem getQueryAttributes_correct gives s tupDesc relation column table schema catalog whole :
  rtc qd_step qd_start s -> NoDup tupDesc ->
  (exists qs, getQueryAttributes s tupDesc relation = Ok (col_vector qs) /\ StronglySorted Z.lt qs /\
    forall c, c ∈ qs <-> 0 <= c /\ exists d, d ∈ reported s /\ concerns (aliases s) relation d /\
      covers tupDesc d (Z.to_nat c)) /\
  ((exists s', addColumnInformation gives s column table schema catalog whole = Ok s' /\
    forall x, x ∈ reported s' <-> x ∈ reported s \/ x = {| columnName := column; tableName := table;
      schemaName := schema; catalogName := catalog; whole_row := whole |}) \/
   (can_report gives s = false /\ stops (addColumnInformation gives s column table schema catalog whole))).
Proof.
  intros Hr Hnd. split; [by apply getQueryAttributes_reachable|]. destruct (reachable_inv s Hr) as (m & fl & al & H).
  destruct (addColumnInformation_inv gives _ _ _ _ column table schema catalog whole H)
    as [(s' & m' & fl' & al' & E & H' & Hal)|Hstop]; [left|by right].
  exists s'. split; [done|]. destruct (inv_known _ _ _ _ H) as (-> & _ & _), (inv_known _ _ _ _ H') as (-> & _ & _). done.
Qed.

(** C17 In every state that the parser can reach in which the filter mentions no
    whole row, the columns of the filter are columns of the query, and the remaining
    columns are found without leaving the vector that was made for them and are
    exactly the columns of the query that are not columns of the filter. *)
Theorem query_columns_split s tupDesc relation :
  rtc qd_step qd_start s -> NoDup tupDesc -> relation <> "" ->
  (forall d, d ∈ filtered s -> whole_row d = false) ->
  exists qs fs, getQueryAttributes s tupDesc relation = Ok (col_vector qs) /\
    getQueryFilterAttributes s tupDesc relation = Ok (col_vector fs) /\
    getQueryRestAttributes (col_vector qs) (col_vector fs) = Ok (col_vector (filter (fun c => c ∉ fs) qs)) /\
    StronglySorted Z.lt qs /\ StronglySorted Z.lt fs /\ (forall c, c ∈ fs -> c ∈ qs).
Proof.
  intros Hr Hnd Hrel Hwhole. destruct (getQueryAttributes_reachable s tupDesc relation Hr Hnd) as (qs & Eq & Hs & _).
  destruct (filter_reachable s tupDesc relation qs Hr Hnd Hrel Hwhole Eq) as (fs & Ef & Hf & Hsub).
  exists qs, fs. split_and!; try done. apply getQueryRestAttributes_spec; [| |done]; by apply sorted_lt_NoDup.
Qed.

(** The union of two vectors is made in a block of the difference of their sizes:
    with a non-empty second vector the copy of the first leaves the block. *)
Lemma mergeAttributeVectors_overruns (a b : list Z) : a <> [] -> b <> [] ->
  mergeAttributeVectors (col_vector a) (col_vector b) = Fail OutOfBounds.
Proof.
  intros Ha Hb. unfold mergeAttributeVectors, NoDBColVectorSize. cbn [cv_size col_vector].
  assert (0 < length b)%nat by (destruct b; [done|simpl; lia]).
  set (n := Z.of_nat (length a) - Z.of_nat (length b)).
  set (k := Z.to_nat n). assert (Hk : (k < length a)%nat) by (unfold k, n; destruct a; [done|simpl in *; lia]).
  set (body := fun (i : Z) (ret : NoDBColVector_t) => c ← NoDBColVectorGet (col_vector a) i; NoDBColVectorSet ret i c).
  assert (Hbody : forall j v, (j < length a)%nat -> body (Z.of_nat j) v =
    (x ← arr_set (cv_cols v) (Z.of_nat j) (a !!! j); Ok {| cv_size := cv_size v; cv_cols := x |})).
  { intros j v Hj. destruct (col_read a (Z.of_nat j)) as (c & Hc & E); [lia|]. rewrite Nat2Z.id in Hc.
    unfold body, NoDBColVectorGet. cbn [cv_cols col_vector]. rewrite E. cbn [mbind result_bind].
    by rewrite (list_lookup_total_correct _ _ _ Hc). }
  assert (Hrun : forall j v, (j <= k)%nat -> length (cv_cols v) = k ->
    for_n (length a - j) (Z.of_nat j) body v = Fail OutOfBounds).
  { intros j v Hj. remember (k - j)%nat as r eqn:Hr. revert j v Hj Hr. induction r as [|r IH]; intros j v Hj Hr Hv.
    - replace (length a - j)%nat with (S (length a - j - 1)) by lia. cbn [for_n].
      rewrite Hbody, arr_set_oob by lia. done.
    - replace (length a - j)%nat with (S (length a - S j)) by lia. cbn [for_n].
      rewrite Hbody, arr_set_Ok by lia. cbn [mbind result_bind].
      replace (Z.of_nat j + 1) with (Z.of_nat (S j)) by lia. apply IH; [lia|lia|]. cbn [cv_cols]. by rewrite length_insert. }
  assert (for_range 0 (Z.of_nat (length a)) body (NoDBColVectorInit n) = Fail OutOfBounds) as ->; [|done].
  unfold for_range. rewrite Z.sub_0_r, Nat2Z.id. specialize (Hrun O (NoDBColVectorInit n)).
  rewrite Nat.sub_0_r in Hrun. change (Z.of_nat 0) with 0 in Hrun. rewrite Hrun; [done|lia|].
  unfold NoDBColVectorInit, arr_alloc. cbn [cv_cols]. destruct (Z.eqb_spec n 0); [simpl; lia|]. by rewrite length_replicate.
Qed.

Definition plenty : Z -> bool := fun n => n <=? 2 ^ 30.

(** ** An example: [SELECT x.b FROM t AS x WHERE x.a > 1] *)
Definition ex_ops : result qd_state :=
  s ← addTableAliasInformation plenty (changeParseStatus qd_start PS_idle) "t" "x";
  s ← addColumnInformation plenty (changeParseStatus s PS_targetList) (Some "b") (Some "x") None None false;
  addColumnInformation plenty (changeParseStatus s PS_filterList) (Some "a") (Some "x") None None false.
Definition ex_qd : qd_state := match ex_ops with Ok s => s | Fail _ => qd_start end.

Lemma ex_qd_reachable : rtc qd_step qd_start ex_qd.
Proof.
  eapply rtc_l; [apply (step_status _ PS_idle)|]. eapply rtc_l; [eapply (step_alias plenty _ "t" "x"); by vm_compute|].
  eapply rtc_l; [apply (step_status _ PS_targetList)|].
  eapply rtc_l; [eapply (step_column plenty _ (Some "b") (Some "x") None None false); by vm_compute|].
  eapply rtc_l; [apply (step_status _ PS_filterList)|].
  eapply rtc_l; [eapply (step_column plenty _ (Some "a") (Some "x") None None false); by vm_compute|].
  vm_compute. apply rtc_refl.
Qed.

Lemma ex_names : NoDup ["a"; "b"; "c"].
Proof. apply (bool_decide_unpack (NoDup ["a"; "b"; "c"])). by vm_compute. Qed.

Lemma getQueryAttributes_correct_witness :
  (exists qs, getQueryAttributes ex_qd ["a"; "b"; "c"] "t" = Ok (col_vector qs) /\ StronglySorted Z.lt qs) /\
  exists s', addColumnInformation plenty ex_qd None None None None true = Ok s'.
Proof.
  destruct (getQueryAttributes_correct plenty ex_qd ["a"; "b"; "c"] "t" None None None None true ex_qd_reachable ex_names)
    as [(qs & E & Hs & _) H2]. split; [exists qs; split; [exact E|exact Hs]|].
  destruct H2 as [(s' & E' & _)|[H2 _]]; [exists s'; exact E'|vm_compute in H2; discriminate H2].
Defined.

Lemma query_columns_split_witness :
  exists qs fs, getQueryAttributes ex_qd ["a"; "b"; "c"] "t" = Ok (col_vector qs) /\
    getQueryFilterAttributes ex_qd ["a"; "b"; "c"] "t" = Ok (col_vector fs).
Proof.
  destruct (query_columns_split ex_qd ["a"; "b"; "c"] "t" ex_qd_reachable ex_names) as (qs & fs & E1 & E2 & _).
  - discriminate.
  - assert (filtered ex_qd = [{| columnName := Some "a"; tableName := Some "t"; schemaName := None; catalogName := None;
      whole_row := false |}]) as -> by (by vm_compute).
    intros d Hd. apply list_elem_of_singleton in Hd as ->. reflexivity.
  - exists qs, fs. split; [exact E1|exact E2].
Defined.
