(* ===== verification/Config.v ===== *)
(** * The configuration file (snooping/auxiliary/common.c)

    [snoop.conf] names the raw file, the relation, the delimiter and whether there
    is a header, in lines such as [filename-1 = 'people.csv']. [loadEnvironment]
    reads its lines into the table [CF], which the scan operator asks. *)
From Stdlib Require Import Ascii.
From S2P Require Import Prelude QueryDescriptor.

Definition MAX_FILENAME : nat := 128.
Definition DELIMITER_SIZE : nat := 5.
Definition MAX_ARGS : Z := 16.

(** A C string, without its terminator. *)
Abbreviation text := (list ascii).
Definition text_of (s : string) : text := String.list_ascii_of_string s.

Record InputFile := {
  if_filename : text; if_relation : text; if_delimiter : text; if_header : bool; if_id : Z }.
(** The members [conf_file], [pg_data] and [path] say where the file is. *)
Record ConfigurationFile := { files : arr InputFile; how_many : Z; loaded : bool }.
Implicit Types (CF : ConfigurationFile) (f : InputFile) (buf : text).

(** ** Questions to the table *)

(** The first used entry of the relation. *)
Definition find_file {R} CF (relation : text) (get : InputFile -> R) (dflt : R) : result R :=
  search_range 0 NUMBER_OF_RELATIONS
    (fun i => f ← arr_get (files CF) i;
       Ok (if negb (if_id f =? -1) && bool_decide (if_relation f = relation) then Some (get f) else None)) dflt.

Definition getInputFilename CF (relation : text) : result (option text) :=
  if negb (loaded CF) then Ok None else find_file CF relation (fun f => Some (if_filename f)) None.
Definition getDelimiter CF (relation : text) : result (option text) :=
  if negb (loaded CF) then Ok None else find_file CF relation (fun f => Some (if_delimiter f)) None.
Definition getHeader CF (relation : text) : result bool :=
  if negb (loaded CF) then Ok false else find_file CF relation if_header false.
Definition isLoaded CF : bool := loaded CF.
Definition isInConfigFile CF (relation : text) : result bool := find_file CF relation (fun _ => true) false.

(** ** The table *)

(** [header] is left as it was. *)
Definition initialiazeConfiguration CF : result ConfigurationFile :=
  fs ← for_range 0 NUMBER_OF_RELATIONS (fun i fs =>
    f ← arr_get fs i;
    arr_set fs i {| if_filename := []; if_relation := []; if_delimiter := []; if_header := if_header f; if_id := -1 |})
    (files CF);
  Ok {| files := fs; how_many := 0; loaded := false |}.

Definition checkConfiguration CF : result Z :=
  search_range 0 NUMBER_OF_RELATIONS
    (fun i => f ← arr_get (files CF) i;
       Ok (if negb (if_id f =? -1) &&
              ((length (if_filename f) =? 0)%nat || (length (if_relation f) =? 0)%nat || (length (if_delimiter f) =? 0)%nat)
           then Some (-1) else None)) 1.

(** The entry of the number, or a free one, which is counted. *)
Definition searchSlotInConfiguration CF (value : Z) : result (ConfigurationFile * Z) :=
  i ← search_range 0 NUMBER_OF_RELATIONS
    (fun i => f ← arr_get (files CF) i; Ok (if if_id f =? value then Some i else None)) (-1);
  if negb (i =? -1) then Ok (CF, i)
  else
    j ← search_range 0 NUMBER_OF_RELATIONS
      (fun i => f ← arr_get (files CF) i; Ok (if if_id f =? -1 then Some i else None)) (-1);
    if negb (j =? -1) then Ok ({| files := files CF; how_many := how_many CF + 1; loaded := loaded CF |}, j)
    else Ok (CF, -1).

Definition getFirstFreeFromMap (map : arr Z) (size : Z) : result Z :=
  search_range 0 size (fun i => x ← arr_get map i; Ok (if x =? -1 then Some i else None)) (-1).

(** ** The lines of a file *)
Definition nl : ascii := "010"%char.
Definition is_sep (c : ascii) : bool :=
  bool_decide (c = " "%char) || bool_decide (c = "009"%char) || bool_decide (c = nl).

(** The first pass: the number of lines and the length of the longest. *)
Fixpoint measure_file (l : text) (linelen maxlength nlines : Z) : Z * Z :=
  match l with
  | [] => (if linelen =? 0 then nlines else nlines + 1, if maxlength <? linelen then linelen else maxlength)
  | c :: l =>
      if bool_decide (c = nl)
      then measure_file l 0 (if maxlength <? linelen + 1 then linelen + 1 else maxlength) (nlines + 1)
      else measure_file l (linelen + 1) maxlength nlines
  end.

(** [fgets] of at most [n] characters: what was read and what is left. *)
Fixpoint fgets (n : nat) (l : text) : text * text :=
  match n, l with
  | O, _ | _, [] => ([], l)
  | S n', c :: l' =>
      if bool_decide (c = nl) then ([c], l') else let '(a, r) := fgets n' l' in (c :: a, r)
  end.

(** A copy of a string, [xstrdup], ends at its first NUL. *)
Definition nul : ascii := "000"%char.
Fixpoint xstrdup (l : text) : text :=
  match l with c :: l' => if bool_decide (c = nul) then [] else c :: xstrdup l' | [] => [] end.

(** The second pass stores the lines. *)
Fixpoint read_all (fuel : nat) (max : nat) (l : text) (res : arr text) (n : Z) : result (arr text * Z) :=
  match fuel with
  | O => Fail OutOfFuel
  | S fuel' =>
      match l with
      | [] => Ok (res, n)
      | _ => let '(line, rest) := fgets max l in
             res' ← arr_set res n (xstrdup line); read_all fuel' max rest res' (n + 1)
      end
  end.

(** The lines of a file that can be opened; the array ends with a [NULL]. *)
Definition readfile (contents : text) : result (list text) :=
  let '(nlines, maxlength) := measure_file contents 0 1 0 in
  x ← read_all (S (length contents)) (Z.to_nat maxlength) contents (arr_alloc (nlines + 1)) 0;
  let '(res, n) := x in
  _ ← arr_set res n [];
  arr_load res 0 (Z.to_nat n).

(** ** The words of a line *)

(** The separators before a word, which become terminators, and the word. *)
Fixpoint skip_sep (l : text) : text :=
  match l with c :: l' => if is_sep c then skip_sep l' else l | [] => [] end.
Fixpoint word (l : text) : text * text :=
  match l with
  | c :: l' => if is_sep c then ([], l) else let '(a, r) := word l' in (c :: a, r)
  | [] => ([], [])
  end.

(** [args] gets a pointer per turn; a pointer is the string that begins there,
    since the separators become terminators. *)
Fixpoint parse_loop (fuel : nat) (l : text) (args : arr (option text)) (counter : Z) : result (arr (option text) * Z) :=
  match fuel with
  | O => Fail OutOfFuel
  | S fuel' =>
      match l with
      | [] => Ok (args, counter)
      | _ =>
          let '(w, r) := word (skip_sep l) in
          args' ← arr_set args counter (Some w);
          parse_loop fuel' r args' (counter + 1)
      end
  end.

(** The last pointer is set to [NULL] and not counted. *)
Definition parse buf (args : arr (option text)) : result (arr (option text) * Z) :=
  x ← parse_loop (S (length buf)) buf args 0;
  let '(args1, counter) := x in
  args2 ← arr_set args1 (counter - 1) None;
  Ok (args2, counter - 1).

(** ** [atoi] *)
Definition digit (c : ascii) : option Z :=
  let n := Z.of_nat (nat_of_ascii c) in if (48 <=? n) && (n <=? 57) then Some (n - 48) else None.
Fixpoint atoi_digits (l : text) (v : Z) : Z :=
  match l with
  | c :: l' => match digit c with Some d => atoi_digits l' (10 * v + d) | None => v end
  | [] => v
  end.
Definition is_space (c : ascii) : bool :=
  let n := Z.of_nat (nat_of_ascii c) in (n =? 32) || ((9 <=? n) && (n <=? 13)).
Fixpoint skip_space (l : text) : text :=
  match l with c :: l' => if is_space c then skip_space l' else l | [] => [] end.
(** [strtol] gives the nearest [long]. *)
Definition strtol (l : text) : Z :=
  let clamp v := Z.max (- 2 ^ 63) (Z.min (2 ^ 63 - 1) v) in
  match skip_space l with
  | c :: l' =>
      if bool_decide (c = "-"%char) then clamp (- atoi_digits l' 0)
      else if bool_decide (c = "+"%char) then clamp (atoi_digits l' 0)
      else clamp (atoi_digits (c :: l') 0)
  | [] => 0
  end.
(** The C standard leaves a number out of range undefined; the GNU library
    converts the result of [strtol] to [int]. *)
Definition atoi (l : text) : Z := i32 (strtol l).

Definition tolower (c : ascii) : ascii :=
  let n := nat_of_ascii c in if ((65 <=? n) && (n <=? 90))%nat then ascii_of_nat (n + 32) else c.

(** ** A line of the configuration *)

(** [strncpy] of [size - 1] characters from [args[2] + 1] into an array of [cap]
    characters, then a terminator at [size - 2]: the value without its first and last character. *)
Definition copy_value (cap : nat) (v : text) : result text :=
  let size := length v in
  if (cap <? size - 1)%nat || (size <? 2)%nat then Fail OutOfBounds else Ok (take (size - 2) (drop 1 v)).

Definition has_prefix (p l : text) : bool := bool_decide (take (length p) l = p).

(** The entry of the number, updated. *)
Definition update_file CF (val : Z) (upd : InputFile -> result InputFile) : result ConfigurationFile :=
  x ← searchSlotInConfiguration CF val;
  let '(CF1, pos) := x in
  if negb (pos =? -1) then
    f ← arr_get (files CF1) pos;
    f' ← upd f;
    fs ← arr_set (files CF1) pos f';
    Ok {| files := fs; how_many := how_many CF1; loaded := loaded CF1 |}
  else Ok CF1.

Definition set_filename (val : Z) (v : text) f : result InputFile :=
  s ← copy_value MAX_FILENAME v;
  Ok {| if_filename := s; if_relation := if_relation f; if_delimiter := if_delimiter f; if_header := if_header f; if_id := val |}.
Definition set_relation (val : Z) (v : text) f : result InputFile :=
  s ← copy_value MAX_RELATION_NAME v;
  Ok {| if_filename := if_filename f; if_relation := map tolower s; if_delimiter := if_delimiter f; if_header := if_header f; if_id := val |}.
Definition set_delimiter (val : Z) (v : text) f : result InputFile :=
  s ← copy_value DELIMITER_SIZE v;
  Ok {| if_filename := if_filename f; if_relation := if_relation f; if_delimiter := s; if_header := if_header f; if_id := val |}.
(** The array has [size - 1] characters. *)
Definition set_header_flag (val : Z) (v : text) f : result InputFile :=
  s ← copy_value (length v - 1) v;
  Ok {| if_filename := if_filename f; if_relation := if_relation f; if_delimiter := if_delimiter f;
        if_header := bool_decide (s = text_of "True"); if_id := val |}.

Definition arg (args : arr (option text)) (i : Z) : result text :=
  a ← arr_get args i; match a with Some t => Ok t | None => Fail NullDeref end.

Definition config_line CF (line : text) : result ConfigurationFile :=
  if negb (1 <? length line)%nat then Ok CF
  else
    x ← parse line (arr_alloc MAX_ARGS);
    let '(args, n) := x in
    if negb (n =? 3) then Ok CF
    else
      v ← arg args 2;
      a0 ← arg args 0;
      a1 ← arg args 1;
      let eq := bool_decide (a1 = text_of "=") in
      if has_prefix (text_of "filename-") a0 && eq then
        let val := atoi (drop 9 a0) in update_file CF val (set_filename val v)
      else if has_prefix (text_of "relation-") a0 && eq then
        let val := atoi (drop 9 a0) in update_file CF val (set_relation val v)
      else if has_prefix (text_of "delimiter-") a0 && eq then
        let val := atoi (drop 10 a0) in update_file CF val (set_delimiter val v)
      else if has_prefix (text_of "header-") a0 && eq then
        let val := atoi (drop 7 a0) in update_file CF val (set_header_flag val v)
      else Ok CF.

Fixpoint config_lines CF (lines : list text) : result ConfigurationFile :=
  match lines with
  | [] => Ok CF
  | line :: lines => CF' ← config_line CF line; config_lines CF' lines
  end.

(** [file] is the contents of the file, [None] when it cannot be opened. *)
Definition loadEnvironment CF (file : option text) : result ConfigurationFile :=
  CF0 ← initialiazeConfiguration CF;
  CF1 ← match file with
        | None => Ok CF0
        | Some contents => lines ← readfile contents; config_lines CF0 lines
        end;
  let CF2 := {| files := files CF1; how_many := how_many CF1; loaded := true |} in
  _ ← c_assert (how_many CF2 <? NUMBER_OF_RELATIONS);
  r ← checkConfiguration CF2;
  _ ← c_assert (negb (r =? -1));
  Ok CF2.

(** ** Reading the lines *)
Fixpoint split_lines (l : text) : list text :=
  match l with
  | [] => []
  | c :: l' =>
      if bool_decide (c = nl) then [c] :: split_lines l'
      else match split_lines l' with [] => [[c]] | x :: xs => (c :: x) :: xs end
  end.

Lemma split_lines_nil l : split_lines l = [] -> l = [].
Proof.
  destruct l as [|c l]; [done|]. cbn. destruct (bool_decide (c = nl)); [done|]. by destruct (split_lines l).
Qed.

Lemma measure_file_spec l : forall linelen maxlength nlines, 0 <= linelen -> 0 <= maxlength ->
  let '(n, mx) := measure_file l linelen maxlength nlines in
  n = nlines + Z.of_nat (length (split_lines l)) + (if (linelen =? 0) || negb (bool_decide (l = [])) then 0 else 1) /\
  maxlength <= mx /\ (forall i x, split_lines l !! i = Some x -> Z.of_nat (length x) + (if (i =? 0)%nat then linelen else 0) <= mx) /\
  (l = [] -> linelen <= mx).
Proof.
  induction l as [|c l IH]; intros linelen maxlength nlines H0 H1; cbn [measure_file split_lines].
  - rewrite bool_decide_eq_true_2 by done. cbn [negb length]. rewrite orb_false_r.
    split_and!; try done; [destruct (Z.eqb_spec linelen 0); cbn; lia| |]; destruct (Z.ltb_spec maxlength linelen); intros; lia.
  - rewrite (bool_decide_eq_false_2 (c :: l = [])) by done. cbn [negb]. rewrite orb_true_r. destruct (bool_decide_reflect (c = nl)) as [Hc|Hc].
    + specialize (IH 0 (if maxlength <? linelen + 1 then linelen + 1 else maxlength) (nlines + 1) ltac:(lia)).
      destruct (measure_file l _ _ _) as [n mx]. destruct IH as (En & Hm & Hl & _); [destruct (Z.ltb_spec maxlength (linelen + 1)); lia|].
      cbn [Z.eqb orb] in En. cbn beta iota. split_and!; [cbn [length]; lia|destruct (Z.ltb_spec maxlength (linelen + 1)); lia| |done].
      intros [|i] x Hx; cbn in Hx |- *.
      * injection Hx as <-. cbn. destruct (Z.ltb_spec maxlength (linelen + 1)); lia.
      * specialize (Hl i x Hx). destruct (i =? 0)%nat; lia.
    + specialize (IH (linelen + 1) maxlength nlines ltac:(lia) H1).
      destruct (measure_file l _ _ _) as [n mx]. destruct IH as (En & Hm & Hl & Hnil).
      destruct (Z.eqb_spec (linelen + 1) 0) as [|_]; [lia|]. cbn [orb] in En. cbn beta iota.
      destruct (split_lines l) as [|x xs] eqn:Es.
      * apply split_lines_nil in Es as ->.
        rewrite bool_decide_eq_true_2 in En by done. cbn in En. specialize (Hnil eq_refl).
        split_and!; [cbn; lia|lia| |done]. intros [|i] y Hy; cbn in Hy |- *; [injection Hy as <-; cbn; lia|done].
      * assert (l <> []) by (by intros ->). rewrite bool_decide_eq_false_2 in En by done. cbn in En.
        split_and!; [cbn; lia|lia| |done]. intros [|i] y Hy; cbn in Hy |- *.
        -- injection Hy as <-. specialize (Hl 0%nat x eq_refl). cbn in Hl |- *. lia.
        -- specialize (Hl (S i) y Hy). cbn in Hl. lia.
Qed.

Lemma fgets_spec l : forall max line rest, split_lines l = line :: rest -> (length line <= max)%nat ->
  exists l', fgets max l = (line, l') /\ split_lines l' = rest /\ (length l' < length l)%nat.
Proof.
  induction l as [|c l IH]; intros max line rest Hs Hmax; [done|]. cbn in Hs.
  case_bool_decide as Hc.
  - injection Hs as <- <-. cbn in Hmax. destruct max as [|max]; [lia|]. cbn. rewrite bool_decide_eq_true_2 by done.
    exists l. split_and!; [done|done|lia].
  - destruct (split_lines l) as [|x xs] eqn:Es; injection Hs as <- <-; cbn in Hmax; (destruct max as [|max]; [lia|]); cbn;
      rewrite bool_decide_eq_false_2 by done.
    + apply split_lines_nil in Es as ->.
      exists []. split_and!; [by destruct max|done|cbn; lia].
    + destruct (IH max x xs eq_refl) as (l' & -> & ? & ?); [lia|]. exists l'. split_and!; [done|done|lia].
Qed.

Lemma read_all_spec max : forall fuel l (done_ : list text) k, (length l < fuel)%nat ->
  Forall (fun x => (length x <= max)%nat) (split_lines l) -> (length (split_lines l) <= k)%nat ->
  read_all fuel max l ((Some <$> done_) ++ replicate k None) (Z.of_nat (length done_))
    = Ok ((Some <$> (done_ ++ (xstrdup <$> split_lines l))) ++ replicate (k - length (split_lines l)) None,
          Z.of_nat (length (done_ ++ (xstrdup <$> split_lines l)))).
Proof.
  induction fuel as [|fuel IH]; intros l done_ k Hf Hmax Hk; [lia|]. cbn [read_all].
  destruct (split_lines l) as [|line rest] eqn:Es.
  - apply split_lines_nil in Es as ->. cbn. by rewrite app_nil_r, Nat.sub_0_r.
  - apply Forall_cons in Hmax as [Hm Hmax]. cbn in Hk. destruct (fgets_spec l max line rest Es Hm) as (l' & Ef & El' & Hlt).
    destruct l as [|c l1] eqn:El; [done|]. rewrite <- El in *. rewrite Ef.
    rewrite arr_set_Ok by (rewrite length_app, length_fmap, length_replicate; lia). cbn [mbind result_bind].
    rewrite Nat2Z.id, insert_app_r_alt by (by rewrite length_fmap). rewrite length_fmap, Nat.sub_diag.
    destruct k as [|k]; [lia|]. cbn [replicate insert list_insert].
    replace ((Some <$> done_) ++ Some (xstrdup line) :: replicate k None) with ((Some <$> (done_ ++ [xstrdup line])) ++ replicate k None)
      by (by rewrite fmap_app, <- app_assoc).
    replace (Z.of_nat (length done_) + 1) with (Z.of_nat (length (done_ ++ [xstrdup line]))) by (rewrite length_app; simpl; lia).
    rewrite IH by (rewrite ?El'; done || lia). rewrite El', <- app_assoc. done.
Qed.

Lemma readfile_spec contents : readfile contents = Ok (xstrdup <$> split_lines contents).
Proof.
  unfold readfile. pose proof (measure_file_spec contents 0 1 0 ltac:(lia) ltac:(lia)) as H.
  destruct (measure_file contents 0 1 0) as [n mx]. destruct H as (-> & Hm & Hl & _). cbn [Z.eqb orb].
  set (ls := split_lines contents) in *. replace (0 + Z.of_nat (length ls) + 0 + 1) with (Z.of_nat (S (length ls))) by lia.
  unfold arr_alloc. rewrite Nat2Z.id.
  pose proof (read_all_spec (Z.to_nat mx) (S (length contents)) contents [] (S (length ls))) as H. cbn [fmap list_fmap app length] in H.
  change (Z.of_nat 0) with 0 in H. rewrite H; [|lia| |fold ls; lia].
  - fold ls. cbn [mbind result_bind]. rewrite arr_set_Ok by (rewrite length_app, !length_fmap, length_replicate; lia).
    cbn [mbind result_bind]. rewrite Nat2Z.id. apply (arr_load_spec _ (xstrdup <$> ls) 0).
    intros i x Hx. apply arr_get_lookup. rewrite Z.add_0_l, Nat2Z.id. split; [lia|]. rewrite lookup_app_l by (rewrite length_fmap; by eapply lookup_lt_Some). by rewrite list_lookup_fmap, Hx.
  - apply Forall_lookup. intros i x Hx. specialize (Hl i x Hx). destruct (i =? 0)%nat; lia.
Qed.

(** ** The words of a line *)

(** The pointers that [parse] stores: a word per turn, the last one empty when the
    line ends with a separator. *)
Inductive words : text -> list text -> Prop :=
  | words_end : words [] []
  | words_next l w r ws : l <> [] -> word (skip_sep l) = (w, r) -> words r ws -> words l (w :: ws).

Lemma word_length l : forall w r, word l = (w, r) -> (length w + length r = length l)%nat.
Proof.
  induction l as [|c l IH]; intros w r E; cbn in E; [by injection E as <- <-|].
  destruct (is_sep c); [by injection E as <- <-|]. destruct (word l) as [a b]. injection E as <- <-.
  specialize (IH a b eq_refl). cbn. lia.
Qed.

Lemma skip_sep_length l : (length (skip_sep l) <= length l)%nat.
Proof. induction l as [|c l IH]; cbn; [lia|]. destruct (is_sep c); cbn; lia. Qed.

(** Every turn takes a character. *)
Lemma word_progress l w r : l <> [] -> word (skip_sep l) = (w, r) -> (length r < length l)%nat.
Proof.
  destruct l as [|c l]; [done|]. intros _. cbn [skip_sep]. destruct (is_sep c) eqn:Ec.
  - intros E%word_length. pose proof (skip_sep_length l). cbn. lia.
  - cbn. rewrite Ec. destruct (word l) as [a b] eqn:E. intros [= <- <-]. apply word_length in E. lia.
Qed.

Lemma words_total l : exists ws, words l ws /\ (length ws <= length l)%nat.
Proof.
  remember (length l) as n eqn:Hn. revert l Hn. induction (lt_wf n) as [n _ IH]. intros l ->.
  destruct (decide (l = [])) as [->|Hl]; [exists []; split; [constructor|cbn; lia]|].
  destruct (word (skip_sep l)) as [w r] eqn:E. pose proof (word_progress l w r Hl E) as Hlt.
  destruct (IH (length r) Hlt r eq_refl) as (ws & Hws & Hle). exists (w :: ws). split; [by econstructor|]. cbn. lia.
Qed.

(** [args] with the first pointers set. *)
Definition args_of (ws : list (option text)) : arr (option text) := (Some <$> ws) ++ replicate (16 - length ws) None.

Lemma args_set ws w : (length ws < 16)%nat -> arr_set (args_of ws) (Z.of_nat (length ws)) w = Ok (args_of (ws ++ [w])).
Proof.
  intros Hl. unfold args_of. rewrite arr_set_Ok by (rewrite length_app, length_fmap, length_replicate; lia).
  rewrite Nat2Z.id, insert_app_r_alt by (by rewrite length_fmap). rewrite length_fmap, Nat.sub_diag, fmap_app, <- app_assoc.
  replace (16 - length ws)%nat with (S (16 - length (ws ++ [w]))) by (rewrite length_app; simpl; lia). done.
Qed.

Lemma parse_loop_spec l ws : words l ws -> forall fuel pre, (length l < fuel)%nat -> (length pre <= 16)%nat ->
  parse_loop fuel l (args_of (Some <$> pre)) (Z.of_nat (length pre)) =
    if decide (length (pre ++ ws) <= 16)%nat
    then Ok (args_of (Some <$> (pre ++ ws)), Z.of_nat (length (pre ++ ws)))
    else Fail OutOfBounds.
Proof.
  induction 1 as [|l w r ws Hl E Hws IH]; intros fuel pre Hf Hp; (destruct fuel as [|fuel]; [lia|]); cbn [parse_loop].
  - rewrite app_nil_r, decide_True by done. done.
  - pose proof (word_progress l w r Hl E) as Hlt. destruct l as [|c l']; [done|]. rewrite E.
    replace (length (pre ++ w :: ws)) with (length ((pre ++ [w]) ++ ws)) by (rewrite <- app_assoc; done).
    destruct (decide (length pre = 16)%nat) as [E16|E16].
    + rewrite decide_False by (rewrite !length_app, E16; simpl; lia).
      rewrite arr_set_oob; [done|]. unfold args_of. rewrite length_app, length_replicate, !length_fmap. lia.
    + pose proof (args_set (Some <$> pre) (Some w)) as Hset. rewrite length_fmap in Hset.
      rewrite Hset by lia. cbn [mbind result_bind].
      replace ((Some <$> pre) ++ [Some w]) with (Some <$> (pre ++ [w])) by (by rewrite fmap_app).
      replace (Z.of_nat (length pre) + 1) with (Z.of_nat (length (pre ++ [w]))) by (rewrite length_app; simpl; lia).
      rewrite IH by (rewrite ?length_app; simpl in *; lia). rewrite <- app_assoc. done.
Qed.

Lemma parse_spec buf ws w : words buf (ws ++ [w]) ->
  parse buf (arr_alloc MAX_ARGS) =
    if decide (length ws < 16)%nat
    then Ok (args_of ((Some <$> ws) ++ [None]), Z.of_nat (length ws))
    else Fail OutOfBounds.
Proof.
  intros Hws. unfold parse. change (arr_alloc MAX_ARGS) with (args_of (Some <$> ([] : list text))).
  change 0 with (Z.of_nat (length ([] : list text))) at 1. rewrite (parse_loop_spec _ _ Hws) by (cbn; lia). cbn [app].
  rewrite length_app. cbn [length]. case_decide as H1; [rewrite decide_True by lia|by rewrite decide_False by lia].
  cbn [mbind result_bind]. replace (Z.of_nat (length ws + 1) - 1) with (Z.of_nat (length (Some <$> ws))) by (rewrite length_fmap; lia).
  unfold args_of. rewrite fmap_app. cbn [fmap list_fmap].
  rewrite arr_set_Ok by (rewrite !length_app, !length_fmap, length_app, length_replicate, length_fmap; simpl; lia).
  cbn [mbind result_bind]. rewrite Nat2Z.id, length_fmap. f_equal. f_equal.
  rewrite fmap_app, <- !app_assoc. rewrite insert_app_r_alt by (by rewrite !length_fmap).
  rewrite !length_fmap, Nat.sub_diag. cbn. rewrite fmap_app, <- !app_assoc. cbn. rewrite !length_app, !length_fmap. done.
Qed.

(** C22 [parse] ends for every line: each turn of its loop takes a character. It
    returns the words of the line, without the last pointer, when there are at most
    16 pointers, and otherwise writes outside the array of 16. *)
Theorem parse_terminates buf : buf <> [] ->
  exists ws w, words buf (ws ++ [w]) /\ (length ws < length buf)%nat /\
    parse buf (arr_alloc MAX_ARGS) =
      if decide (length ws < 16)%nat
      then Ok (args_of ((Some <$> ws) ++ [None]), Z.of_nat (length ws))
      else Fail OutOfBounds.
Proof.
  intros Hb. destruct (words_total buf) as (all & Hall & Hle).
  destruct all as [|w ws _] using rev_ind; [inversion Hall; by subst|].
  exists ws, w. rewrite length_app in Hle. simpl in Hle. split_and!; [done|lia|by apply (parse_spec _ _ w)].
Qed.

Lemma parse_terminates_witness :
  exists ws w, words (text_of "a = 'b' c ") (ws ++ [w]) /\ (length ws < 10)%nat /\
    parse (text_of "a = 'b' c ") (arr_alloc MAX_ARGS) =
      if decide (length ws < 16)%nat
      then Ok (args_of ((Some <$> ws) ++ [None]), Z.of_nat (length ws))
      else Fail OutOfBounds.
Proof. exact (parse_terminates (text_of "a = 'b' c ") ltac:(discriminate)). Defined.

(** ** A line that sets a value *)
(** A word: without separators, and without the NUL that ends a C string. *)
Definition no_sep (w : text) : Prop := Forall (fun c => is_sep c = false /\ c <> nul) w.
Definition quoted (v : text) : text := "'"%char :: v ++ ["'"%char].
Definition setting (key num v : text) : text := (key ++ num) ++ text_of " = " ++ quoted v.
Definition setting_line (key num v : text) : text := setting key num v ++ [nl].

Lemma word_app w r : no_sep w -> (forall c r', r = c :: r' -> is_sep c = true) -> word (w ++ r) = (w, r).
Proof.
  intros Hw Hr. induction Hw as [|c w [Hc _] Hw IH]; cbn [app word].
  - destruct r as [|c r]; [done|]. cbn. by rewrite (Hr c r eq_refl).
  - by rewrite Hc, IH.
Qed.

(** A separator-free word, after any separators and before one or the end. *)
Lemma words_cons seps w r ws :
  Forall (fun c => is_sep c = true) seps -> w <> [] -> no_sep w -> (forall c r', r = c :: r' -> is_sep c = true) ->
  words r ws -> words (seps ++ w ++ r) (w :: ws).
Proof.
  intros Hs Hw Hn Hr Hws. apply (words_next _ w r); [by destruct seps, w| |done].
  replace (skip_sep (seps ++ w ++ r)) with (w ++ r); [by apply word_app|].
  induction Hs as [|c seps Hc Hs IH]; cbn [app skip_sep]; [|by rewrite Hc].
  destruct w as [|c w]; [done|]. inversion Hn as [|? ? [Hc _] _]; subst. cbn. by rewrite Hc.
Qed.

Lemma no_sep_app a b : no_sep a -> no_sep b -> no_sep (a ++ b).
Proof. apply Forall_app_2. Qed.

Lemma quoted_no_sep v : no_sep v -> no_sep (quoted v).
Proof. intros Hv. constructor; [done|]. apply no_sep_app; [done|]. by repeat constructor. Qed.

Lemma words_setting key num v rest ws : key <> [] -> no_sep key -> no_sep num -> no_sep v ->
  (forall c r', rest = c :: r' -> is_sep c = true) -> words rest ws ->
  words (setting key num v ++ rest) ((key ++ num) :: text_of "=" :: quoted v :: ws).
Proof.
  intros Hk Hks Hn Hv Hr Hws.
  replace (setting key num v ++ rest) with ([] ++ (key ++ num) ++ [" "%char] ++ text_of "=" ++ [" "%char] ++ quoted v ++ rest)
    by (unfold setting; rewrite <- !app_assoc; done).
  apply words_cons; [done|by destruct key|by apply no_sep_app|by intros c r' [= <- _]|].
  apply words_cons; [by repeat constructor|done|by repeat constructor|by intros c r' [= <- _]|].
  apply words_cons; [by repeat constructor|done|by apply quoted_no_sep|done|done].
Qed.

Lemma words_newline : words [nl] [[]].
Proof. apply (words_next _ [] []); [done|done|constructor]. Qed.

(** The three words of a setting. *)
Lemma parse_setting key num v : key <> [] -> no_sep key -> no_sep num -> no_sep v ->
  parse (setting_line key num v) (arr_alloc MAX_ARGS)
    = Ok (args_of [Some (key ++ num); Some (text_of "="); Some (quoted v); None], 3).
Proof.
  intros Hk Hks Hn Hv. unfold setting_line.
  assert (words (setting key num v ++ [nl]) ([key ++ num; text_of "="; quoted v] ++ [[]])) as Hw
    by (apply (words_setting _ _ _ _ [[]]); [done..|by intros c r' [= <- _]|apply words_newline]).
  rewrite (parse_spec _ _ _ Hw). by rewrite decide_True by (cbn; lia).
Qed.

Lemma copy_quoted cap v : (length v + 1 <= cap)%nat -> copy_value cap (quoted v) = Ok v.
Proof.
  intros Hc. unfold copy_value, quoted. cbn [length skipn]. rewrite length_app. cbn [length].
  destruct (Nat.ltb_spec cap (S (length v + 1) - 1)); [lia|]. destruct (Nat.ltb_spec (S (length v + 1)) 2); [lia|]. cbn [orb].
  replace (S (length v + 1) - 2)%nat with (length v) by lia. by rewrite drop_0, take_app_length.
Qed.

(** The four kinds of line. *)
Lemma setting_line_long key num v : (1 <? length (setting_line key num v))%nat = true.
Proof. apply Nat.ltb_lt. unfold setting_line, setting. rewrite !length_app. cbn. lia. Qed.

Lemma config_line_gen CF key num v : key <> [] -> no_sep key -> no_sep num -> no_sep v ->
  config_line CF (setting_line key num v) =
    (let a0 := key ++ num in
     if has_prefix (text_of "filename-") a0 then
       let val := atoi (drop 9 a0) in update_file CF val (set_filename val (quoted v))
     else if has_prefix (text_of "relation-") a0 then
       let val := atoi (drop 9 a0) in update_file CF val (set_relation val (quoted v))
     else if has_prefix (text_of "delimiter-") a0 then
       let val := atoi (drop 10 a0) in update_file CF val (set_delimiter val (quoted v))
     else if has_prefix (text_of "header-") a0 then
       let val := atoi (drop 7 a0) in update_file CF val (set_header_flag val (quoted v))
     else Ok CF).
Proof.
  intros Hk Hks Hn Hv. unfold config_line. rewrite setting_line_long. cbn [negb].
  rewrite parse_setting by done. cbn [mbind result_bind Z.eqb Pos.eqb negb].
  change (arg (args_of [Some (key ++ num); Some (text_of "="); Some (quoted v); None]) 2) with (Ok (quoted v)).
  change (arg (args_of [Some (key ++ num); Some (text_of "="); Some (quoted v); None]) 0) with (Ok (key ++ num)).
  change (arg (args_of [Some (key ++ num); Some (text_of "="); Some (quoted v); None]) 1) with (Ok (text_of "=")).
  cbn [mbind result_bind]. rewrite (bool_decide_eq_true_2 (text_of "=" = text_of "=")) by done. by rewrite !andb_true_r.
Qed.

Lemma has_prefix_app p l : has_prefix p (p ++ l) = true.
Proof. apply bool_decide_eq_true_2. apply take_app_length. Qed.

Ltac prefix_miss := rewrite (bool_decide_eq_false_2 _) by (cbn; discriminate).

Lemma config_line_filename CF num v : no_sep num -> no_sep v ->
  config_line CF (setting_line (text_of "filename-") num v) = update_file CF (atoi num) (set_filename (atoi num) (quoted v)).
Proof.
  intros. rewrite config_line_gen by (done || by repeat constructor). cbn zeta. by rewrite has_prefix_app.
Qed.
Lemma config_line_relation CF num v : no_sep num -> no_sep v ->
  config_line CF (setting_line (text_of "relation-") num v) = update_file CF (atoi num) (set_relation (atoi num) (quoted v)).
Proof.
  intros. rewrite config_line_gen by (done || by repeat constructor). cbn zeta.
  unfold has_prefix at 1. prefix_miss. by rewrite has_prefix_app.
Qed.
Lemma config_line_delimiter CF num v : no_sep num -> no_sep v ->
  config_line CF (setting_line (text_of "delimiter-") num v) = update_file CF (atoi num) (set_delimiter (atoi num) (quoted v)).
Proof.
  intros. rewrite config_line_gen by (done || by repeat constructor). cbn zeta.
  unfold has_prefix at 1 2. do 2 prefix_miss. by rewrite has_prefix_app.
Qed.
Lemma config_line_header CF num v : no_sep num -> no_sep v ->
  config_line CF (setting_line (text_of "header-") num v) = update_file CF (atoi num) (set_header_flag (atoi num) (quoted v)).
Proof.
  intros. rewrite config_line_gen by (done || by repeat constructor). cbn zeta.
  unfold has_prefix at 1 2 3. do 3 prefix_miss. by rewrite has_prefix_app.
Qed.

(** ** The table of entries *)

(** A search of the table finds the first entry that passes the test. *)
Lemma search_files_hit {R} (l : list InputFile) (p : InputFile -> bool) (g : Z -> InputFile -> R) d pre f post :
  l = pre ++ f :: post -> Forall (fun f => p f = false) pre -> p f = true ->
  search_range 0 (Z.of_nat (length l))
    (fun i => f ← arr_get (Some <$> l) i; Ok (if p f then Some (g i f) else None)) d = Ok (g (Z.of_nat (length pre)) f).
Proof.
  intros -> Hpre Hf. set (l := pre ++ f :: post).
  destruct (search_range_pure 0 (Z.of_nat (length l))
    (fun i => f ← arr_get (Some <$> l) i; Ok (if p f then Some (g i f) else None))
    (fun i => x ← l !! Z.to_nat i; if p x then Some (g i x) else None) d) as [(i & r & Hi & Hr & Hj & E)|[Hn E]].
  - intros i Hi. destruct (lookup_lt_is_Some_2 l (Z.to_nat i)) as [x Hx]; [lia|]. rewrite Hx.
    rewrite (arr_get_holds l i x); done || lia.
  - rewrite E. f_equal. destruct (l !! Z.to_nat i) as [x|] eqn:Hx; [|done]. cbn in Hr.
    destruct (p x) eqn:Hp; [|done]. injection Hr as <-.
    destruct (decide (Z.to_nat i < length pre)%nat) as [Hlt|Hge].
    { unfold l in Hx. rewrite lookup_app_l in Hx by done. rewrite Forall_lookup in Hpre. specialize (Hpre _ _ Hx). congruence. }
    destruct (decide (i = Z.of_nat (length pre))) as [->|Hne].
    { unfold l in Hx. rewrite Nat2Z.id, list_lookup_middle in Hx by done. by injection Hx as ->. }
    specialize (Hj (Z.of_nat (length pre)) ltac:(lia)). unfold l in Hj. rewrite Nat2Z.id, list_lookup_middle in Hj by done.
    cbn in Hj. by rewrite Hf in Hj.
  - specialize (Hn (Z.of_nat (length pre))). unfold l in Hn at 2. rewrite Nat2Z.id, list_lookup_middle in Hn by done.
    cbn in Hn. rewrite Hf in Hn. unfold l in Hn. rewrite length_app in Hn. cbn in Hn. specialize (Hn ltac:(lia)). done.
Qed.

Lemma search_files_miss {R} (l : list InputFile) (p : InputFile -> bool) (g : Z -> InputFile -> R) d :
  Forall (fun f => p f = false) l ->
  search_range 0 (Z.of_nat (length l))
    (fun i => f ← arr_get (Some <$> l) i; Ok (if p f then Some (g i f) else None)) d = Ok d.
Proof.
  intros Hl.
  destruct (search_range_pure 0 (Z.of_nat (length l))
    (fun i => f ← arr_get (Some <$> l) i; Ok (if p f then Some (g i f) else None))
    (fun i => x ← l !! Z.to_nat i; if p x then Some (g i x) else None) d) as [(i & r & Hi & Hr & _)|[_ E]]; [| |done].
  - intros i Hi. destruct (lookup_lt_is_Some_2 l (Z.to_nat i)) as [x Hx]; [lia|]. rewrite Hx.
    rewrite (arr_get_holds l i x); done || lia.
  - destruct (l !! Z.to_nat i) as [x|] eqn:Hx; [|done]. cbn in Hr. rewrite Forall_lookup in Hl. by rewrite (Hl _ _ Hx) in Hr.
Qed.

(** The table holds the entries [l]. *)
Definition holds_files CF (l : list InputFile) : Prop :=
  files CF = Some <$> l /\ Z.of_nat (length l) = NUMBER_OF_RELATIONS.

Definition free_file f : Prop := if_id f = -1.
Definition with_files CF (l : list InputFile) (n : Z) : ConfigurationFile :=
  {| files := Some <$> l; how_many := n; loaded := loaded CF |}.

Lemma ids_differ (val : Z) fs : val ∉ (if_id <$> fs) -> Forall (fun f => (if_id f =? val) = false) fs.
Proof.
  intros Hv. apply Forall_forall. intros f Hf. apply Z.eqb_neq. intros E. apply Hv. apply list_elem_of_fmap. eauto.
Qed.

Lemma store_file CF pre f post val upd f' n :
  holds_files CF (pre ++ f :: post) ->
  searchSlotInConfiguration CF val = Ok (with_files CF (pre ++ f :: post) n, Z.of_nat (length pre)) ->
  upd f = Ok f' -> update_file CF val upd = Ok (with_files CF (pre ++ f' :: post) n).
Proof.
  intros [_ Hl] Es Hu. unfold update_file. rewrite Es. cbn [mbind result_bind].
  destruct (Z.eqb_spec (Z.of_nat (length pre)) (-1)) as [|_]; [lia|]. cbn [negb files with_files].
  rewrite (arr_get_holds _ _ f); [|lia|by rewrite Nat2Z.id, list_lookup_middle]. cbn [mbind result_bind]. rewrite Hu.
  cbn [mbind result_bind]. rewrite length_app in Hl. cbn in Hl.
  rewrite arr_set_Ok by (rewrite length_fmap, length_app; cbn; lia). cbn [mbind result_bind how_many loaded].
  rewrite Nat2Z.id, fmap_app, insert_app_r_alt by (by rewrite length_fmap). rewrite length_fmap, Nat.sub_diag.
  cbn. unfold with_files. by rewrite fmap_app.
Qed.

(** A number that is known updates its entry. *)
Lemma update_known CF pre f post val upd f' :
  holds_files CF (pre ++ f :: post) -> val ∉ (if_id <$> pre) -> if_id f = val -> upd f = Ok f' ->
  update_file CF val upd = Ok (with_files CF (pre ++ f' :: post) (how_many CF)).
Proof.
  intros Hh Hv Hf Hu. apply (store_file CF pre f post); [done| |done]. destruct Hh as [Ef Hl].
  unfold searchSlotInConfiguration. rewrite Ef, <- Hl.
  rewrite (search_files_hit _ (fun f => if_id f =? val) (fun i _ => i) _ pre f post);
    [|done|by apply ids_differ|by apply Z.eqb_eq].
  cbn [mbind result_bind]. destruct (Z.eqb_spec (Z.of_nat (length pre)) (-1)) as [|_]; [lia|]. cbn [negb].
  unfold with_files. rewrite <- Ef. by destruct CF.
Qed.

(** A new number takes the first free entry. *)
Lemma update_new CF pre f post val upd f' :
  holds_files CF (pre ++ f :: post) -> val ∉ (if_id <$> pre) -> -1 ∉ (if_id <$> pre) -> val <> -1 ->
  Forall free_file (f :: post) -> upd f = Ok f' ->
  update_file CF val upd = Ok (with_files CF (pre ++ f' :: post) (how_many CF + 1)).
Proof.
  intros Hh Hv Hpre Hv1 Hfree Hu. apply (store_file CF pre f post); [done| |done]. destruct Hh as [Ef Hl].
  unfold searchSlotInConfiguration. rewrite Ef, <- Hl.
  rewrite (search_files_miss _ (fun f => if_id f =? val) (fun i _ => i)).
  - cbn [mbind result_bind Z.eqb Z.opp negb Pos.eqb].
    rewrite (search_files_hit _ (fun f => if_id f =? -1) (fun i _ => i) _ pre f post);
      [|done|by apply ids_differ|inversion Hfree; by apply Z.eqb_eq].
    cbn [mbind result_bind]. destruct (Z.eqb_spec (Z.of_nat (length pre)) (-1)) as [|_]; [lia|]. done.
  - apply Forall_app_2; [by apply ids_differ|]. eapply Forall_impl; [exact Hfree|]. intros g Hg. unfold free_file in Hg. apply Z.eqb_neq. congruence.
Qed.

(** ** Printing and loading a configuration *)
Record entry := { e_num : text; e_filename : text; e_relation : text; e_delimiter : text; e_header : bool }.
Implicit Types (e : entry) (es : list entry).

Definition flag (b : bool) : text := text_of (if b then "True" else "False").
Definition entry_lines e : list text :=
  [setting_line (text_of "filename-") (e_num e) (e_filename e);
   setting_line (text_of "relation-") (e_num e) (e_relation e);
   setting_line (text_of "delimiter-") (e_num e) (e_delimiter e);
   setting_line (text_of "header-") (e_num e) (flag (e_header e))].
Definition print_config es : text := concat (concat (entry_lines <$> es)).

(** The lengths that fit the arrays of [InputFile], and words without blanks. *)
Record entry_ok e : Prop := {
  ok_num : no_sep (e_num e); ok_id : atoi (e_num e) <> -1;
  ok_filename : no_sep (e_filename e); ok_filename_len : (0 < length (e_filename e) < MAX_FILENAME)%nat;
  ok_relation : no_sep (e_relation e); ok_relation_len : (0 < length (e_relation e) < MAX_RELATION_NAME)%nat;
  ok_delimiter : no_sep (e_delimiter e); ok_delimiter_len : (0 < length (e_delimiter e) < DELIMITER_SIZE)%nat }.

Definition lower_relation e : text := map tolower (e_relation e).
Definition file_of e : InputFile :=
  {| if_filename := e_filename e; if_relation := lower_relation e; if_delimiter := e_delimiter e;
     if_header := e_header e; if_id := atoi (e_num e) |}.

Lemma split_lines_line l rest : nl ∉ l -> split_lines ((l ++ [nl]) ++ rest) = (l ++ [nl]) :: split_lines rest.
Proof.
  rewrite <- app_assoc. induction l as [|c l IH]; intros Hn; cbn [app split_lines].
  - by rewrite bool_decide_eq_true_2.
  - apply not_elem_of_cons in Hn as [Hc Hn]. rewrite bool_decide_eq_false_2 by congruence. cbn [app] in IH. by rewrite IH.
Qed.

Lemma no_sep_nl l : no_sep l -> nl ∉ l.
Proof. intros Hl Hn. unfold no_sep in Hl. rewrite Forall_forall in Hl. by destruct (Hl _ Hn). Qed.

Lemma split_setting key num v rest : no_sep key -> no_sep num -> no_sep v ->
  split_lines (setting_line key num v ++ rest) = setting_line key num v :: split_lines rest.
Proof.
  intros. apply split_lines_line. unfold setting. rewrite !elem_of_app.
  intros [[?|?]|[Hb|Hq]]; [by apply (no_sep_nl key)|by apply (no_sep_nl num)| |apply (no_sep_nl _ (quoted_no_sep v ltac:(done)) Hq)].
  repeat (apply elem_of_cons in Hb as [Hb|Hb]; [discriminate|]). by apply elem_of_nil in Hb.
Qed.

Lemma flag_no_sep b : no_sep (flag b).
Proof. destruct b; by repeat constructor. Qed.

Lemma xstrdup_id l : nul ∉ l -> xstrdup l = l.
Proof.
  induction l as [|c l IH]; intros Hn; cbn [xstrdup]; [done|]. apply not_elem_of_cons in Hn as [Hc Hn].
  rewrite bool_decide_eq_false_2 by congruence. by rewrite IH.
Qed.

Lemma no_sep_nul l : no_sep l -> nul ∉ l.
Proof. intros Hl Hn. unfold no_sep in Hl. rewrite Forall_forall in Hl. by destruct (Hl _ Hn). Qed.

Lemma xstrdup_setting key num v : no_sep key -> no_sep num -> no_sep v ->
  xstrdup (setting_line key num v) = setting_line key num v.
Proof.
  intros Hk Hn Hv. apply xstrdup_id. unfold setting_line, setting. rewrite !elem_of_app.
  intros [[[?|?]|[Hb|Hq]]|Hb]; [by apply (no_sep_nul key)|by apply (no_sep_nul num)| |apply (no_sep_nul _ (quoted_no_sep v Hv) Hq)|];
    repeat (apply elem_of_cons in Hb as [Hb|Hb]; [discriminate|]); by apply elem_of_nil in Hb.
Qed.

Lemma xstrdup_print es : Forall entry_ok es -> xstrdup <$> concat (entry_lines <$> es) = concat (entry_lines <$> es).
Proof.
  induction 1 as [|e es [] Hes IH]; [done|]. cbn [fmap list_fmap concat entry_lines app] in *.
  rewrite !xstrdup_setting by (done || apply flag_no_sep || by repeat constructor). by rewrite IH.
Qed.

Lemma split_print es : Forall entry_ok es -> split_lines (print_config es) = concat (entry_lines <$> es).
Proof.
  induction 1 as [|e es [] Hes IH]; [done|]. unfold print_config in *. cbn [fmap list_fmap concat entry_lines app].
  do 4 (rewrite split_setting by (done || apply flag_no_sep || by repeat constructor)). by rewrite IH.
Qed.

Lemma config_lines_cons CF CF' line lines :
  config_line CF line = Ok CF' -> config_lines CF (line :: lines) = config_lines CF' lines.
Proof. intros E. cbn. by rewrite E. Qed.

Lemma holds_with CF l n : Z.of_nat (length l) = NUMBER_OF_RELATIONS -> holds_files (with_files CF l n) l.
Proof. by split. Qed.

(** The four lines of an entry fill the first free place. *)
Lemma config_entry CF pre f post e rest :
  entry_ok e -> holds_files CF (pre ++ f :: post) -> atoi (e_num e) ∉ (if_id <$> pre) -> -1 ∉ (if_id <$> pre) ->
  Forall free_file (f :: post) ->
  config_lines CF (entry_lines e ++ rest)
    = config_lines (with_files CF (pre ++ file_of e :: post) (how_many CF + 1)) rest.
Proof.
  intros [] Hh Hnew Hpre Hfree. cbn [entry_lines app].
  assert (Hlen : forall g, Z.of_nat (length (pre ++ g :: post)) = NUMBER_OF_RELATIONS)
    by (intros g; destruct Hh as [_ Hl]; rewrite length_app in *; exact Hl).
  rewrite (config_lines_cons _ (with_files CF (pre ++ {| if_filename := e_filename e; if_relation := if_relation f;
    if_delimiter := if_delimiter f; if_header := if_header f; if_id := atoi (e_num e) |} :: post) (how_many CF + 1))).
  2:{ rewrite config_line_filename by done. apply (update_new CF pre f post); [done..|].
      unfold set_filename. by rewrite copy_quoted by lia. }
  erewrite config_lines_cons.
  2:{ rewrite config_line_relation by done. eapply (update_known _ pre _ post); [by apply holds_with|done|done|].
      unfold set_relation. by rewrite copy_quoted by lia. }
  erewrite config_lines_cons.
  2:{ rewrite config_line_delimiter by done. eapply (update_known _ pre _ post); [by apply holds_with|done|done|].
      unfold set_delimiter. by rewrite copy_quoted by lia. }
  erewrite config_lines_cons.
  2:{ rewrite config_line_header by (done || apply flag_no_sep).
      eapply (update_known _ pre _ post); [by apply holds_with|done|done|].
      unfold set_header_flag. rewrite copy_quoted by (cbn; rewrite length_app; cbn; lia). done. }
  cbn. by destruct (e_header e) eqn:Eh; unfold file_of; rewrite Eh.
Qed.

Lemma config_entries es : forall CF pre free,
  Forall entry_ok es -> holds_files CF (pre ++ free) -> Forall free_file free -> (length es <= length free)%nat ->
  NoDup ((if_id <$> pre) ++ ((fun e => atoi (e_num e)) <$> es)) -> -1 ∉ (if_id <$> pre) ->
  config_lines CF (concat (entry_lines <$> es))
    = Ok (with_files CF (pre ++ (file_of <$> es) ++ drop (length es) free) (how_many CF + Z.of_nat (length es))).
Proof.
  induction es as [|e es IH]; intros CF pre free Hok Hh Hfree Hlen Hnd Hpre.
  - cbn [length fmap list_fmap concat config_lines app Z.of_nat]. rewrite drop_0, Z.add_0_r. destruct Hh as [Ef _]. unfold with_files. rewrite <- Ef. by destruct CF.
  - apply Forall_cons in Hok as [He Hok]. destruct free as [|f free]; [cbn in Hlen; lia|].
    cbn [fmap list_fmap concat] in *.
    assert (Hnew : atoi (e_num e) ∉ (if_id <$> pre))
      by (apply NoDup_app in Hnd as (_ & Hd & _); intros Hin; apply (Hd _ Hin); apply elem_of_cons; by left).
    rewrite (config_entry CF pre f free) by done.
    rewrite (IH (with_files CF (pre ++ file_of e :: free) (how_many CF + 1)) (pre ++ [file_of e]) free).
    + cbn [how_many with_files length skipn]. rewrite <- app_assoc. unfold with_files. cbn [app loaded].
      do 2 f_equal. lia.
    + done.
    + rewrite <- app_assoc. apply holds_with. destruct Hh as [_ Hl]. rewrite length_app in *. exact Hl.
    + by inversion Hfree.
    + cbn in Hlen. lia.
    + rewrite fmap_app, <- app_assoc. exact Hnd.
    + rewrite fmap_app, elem_of_app. intros [?|Hin]; [done|]. apply elem_of_cons in Hin as [Hin|Hin]; [|by apply elem_of_nil in Hin].
      destruct He. by symmetry in Hin.
Qed.

(** What the questions find. *)
Lemma find_file_spec {R} CF es free (get : InputFile -> R) d e :
  holds_files CF ((file_of <$> es) ++ free) -> e ∈ es -> entry_ok e -> NoDup (lower_relation <$> es) ->
  find_file CF (lower_relation e) get d = Ok (get (file_of e)).
Proof.
  intros [Ef Hl] He [] Hnd. unfold find_file. rewrite Ef, <- Hl.
  apply list_elem_of_split in He as (es1 & es2 & ->). rewrite fmap_app in Hnd. cbn [fmap list_fmap] in Hnd.
  rewrite (search_files_hit _ (fun f => negb (if_id f =? -1) && bool_decide (if_relation f = lower_relation e))
    (fun _ f => get f) d (file_of <$> es1) (file_of e) ((file_of <$> es2) ++ free)); [done| | |].
  - by rewrite fmap_app, <- app_assoc.
  - apply Forall_fmap, Forall_forall. intros e' He'. apply NoDup_app in Hnd as (_ & Hd & _). cbn.
    rewrite bool_decide_eq_false_2; [apply andb_false_r|]. intros E.
    apply (Hd (lower_relation e')); [by apply list_elem_of_fmap; eauto|]. rewrite E. apply elem_of_cons. by left.
  - cbn. rewrite (proj2 (Z.eqb_neq _ _)) by done. by rewrite bool_decide_eq_true_2.
Qed.

Lemma find_file_miss {R} CF es free (get : InputFile -> R) d r :
  holds_files CF ((file_of <$> es) ++ free) -> Forall free_file free -> r ∉ (lower_relation <$> es) ->
  find_file CF r get d = Ok d.
Proof.
  intros [Ef Hl] Hfree Hr. unfold find_file. rewrite Ef, <- Hl.
  apply (search_files_miss _ (fun f => negb (if_id f =? -1) && bool_decide (if_relation f = r)) (fun _ f => get f)).
  apply Forall_app_2.
  - apply Forall_fmap, Forall_forall. intros e He. cbn. rewrite bool_decide_eq_false_2; [apply andb_false_r|].
    intros <-. apply Hr, list_elem_of_fmap. eauto.
  - eapply Forall_impl; [exact Hfree|]. intros f Hf. unfold free_file in Hf. by rewrite Hf.
Qed.

Lemma initialiazeConfiguration_spec CF l : holds_files CF l ->
  exists l', initialiazeConfiguration CF = Ok {| files := Some <$> l'; how_many := 0; loaded := false |} /\
    length l' = length l /\ Forall free_file l'.
Proof.
  intros [Ef Hl]. unfold initialiazeConfiguration. rewrite <- Hl.
  destruct (for_nat_inv (fun i fs => exists l', fs = Some <$> l' /\ length l' = length l /\ Forall free_file (take i l'))
    (length l) (fun i fs => f ← arr_get fs i; arr_set fs i {| if_filename := []; if_relation := []; if_delimiter := [];
      if_header := if_header f; if_id := -1 |}) (files CF)) as (fs & E & l' & -> & El & Hf).
  - exists l. by rewrite take_0.
  - intros i fs Hi (l' & -> & El & Hf). destruct (lookup_lt_is_Some_2 l' i) as [f Hfi]; [lia|].
    rewrite (arr_get_holds l' _ f) by (lia || by rewrite Nat2Z.id). cbn [mbind result_bind].
    rewrite arr_set_Ok by (rewrite length_fmap; lia). eexists. split; [done|].
    rewrite Nat2Z.id, <- list_fmap_insert. eexists. split; [done|]. rewrite length_insert. split; [done|].
    rewrite (take_S_r _ i _ (list_lookup_insert_eq l' i _ ltac:(lia))), take_insert_ge by lia.
    apply Forall_app_2; [done|]. by repeat constructor.
  - rewrite E. exists l'. rewrite <- El, firstn_all in Hf. done.
Qed.

Lemma checkConfiguration_spec CF es free : Forall entry_ok es -> Forall free_file free ->
  holds_files CF ((file_of <$> es) ++ free) -> checkConfiguration CF = Ok 1.
Proof.
  intros Hok Hfree [Ef Hl]. unfold checkConfiguration. rewrite Ef, <- Hl.
  apply (search_files_miss _ (fun f => negb (if_id f =? -1) &&
    ((length (if_filename f) =? 0)%nat || (length (if_relation f) =? 0)%nat || (length (if_delimiter f) =? 0)%nat)) (fun _ _ => -1)).
  apply Forall_app_2; [|eapply Forall_impl; [exact Hfree|]; intros f Hf; unfold free_file in Hf; by rewrite Hf].
  apply Forall_fmap. eapply Forall_impl; [exact Hok|]. intros e []. cbn. unfold lower_relation. rewrite length_map.
  rewrite !(proj2 (Nat.eqb_neq _ 0)) by lia. by rewrite andb_false_r.
Qed.

Lemma loadEnvironment_spec CF l es : holds_files CF l -> Forall entry_ok es ->
  NoDup ((fun e => atoi (e_num e)) <$> es) -> Z.of_nat (length es) < NUMBER_OF_RELATIONS ->
  exists CF' free, loadEnvironment CF (Some (print_config es)) = Ok CF' /\ loaded CF' = true /\
    how_many CF' = Z.of_nat (length es) /\
    holds_files CF' ((file_of <$> es) ++ free) /\ Forall free_file free.
Proof.
  intros Hh Hok Hnd Hlen. unfold loadEnvironment.
  destruct (initialiazeConfiguration_spec CF l Hh) as (l' & -> & El & Hfree). cbn [mbind result_bind].
  rewrite readfile_spec, split_print, xstrdup_print by done. cbn [mbind result_bind]. destruct Hh as [_ Hl].
  rewrite (config_entries es _ [] l') by (done || lia || (split; [done|cbn [app]; lia]) || apply not_elem_of_nil).
  cbn [mbind result_bind how_many with_files files app].
  rewrite (proj2 (Z.ltb_lt _ _)) by lia. cbn [c_assert mbind result_bind].
  assert (Hd : Forall free_file (drop (length es) l')) by by apply Forall_drop.
  assert (Z.of_nat (length ((file_of <$> es) ++ drop (length es) l')) = NUMBER_OF_RELATIONS) as Hn
    by (rewrite length_app, length_fmap, length_drop; lia).
  rewrite (checkConfiguration_spec _ es (drop (length es) l')) by done. cbn [mbind result_bind Z.eqb Z.opp negb c_assert].
  eexists _, _. split_and!; [done|done|done|by split|done].
Qed.

(** C19 Loading a configuration that lists files, with values that fit and distinct
    numbers and relations, answers every question with what was written: the file,
    the delimiter and the header of each relation, by its lower-case name, and no
    other relation is known. *)
Theorem loadEnvironment_roundtrip CF l es : holds_files CF l -> Forall entry_ok es ->
  NoDup ((fun e => atoi (e_num e)) <$> es) -> NoDup (lower_relation <$> es) ->
  Z.of_nat (length es) < NUMBER_OF_RELATIONS ->
  exists CF', loadEnvironment CF (Some (print_config es)) = Ok CF' /\ isLoaded CF' = true /\
    (forall e, e ∈ es ->
       isInConfigFile CF' (lower_relation e) = Ok true /\
       getInputFilename CF' (lower_relation e) = Ok (Some (e_filename e)) /\
       getDelimiter CF' (lower_relation e) = Ok (Some (e_delimiter e)) /\
       getHeader CF' (lower_relation e) = Ok (e_header e)) /\
    (forall r, r ∉ (lower_relation <$> es) -> isInConfigFile CF' r = Ok false /\ getInputFilename CF' r = Ok None).
Proof.
  intros Hh Hok Hnd Hndr Hlen. destruct (loadEnvironment_spec CF l es Hh Hok Hnd Hlen) as (CF' & free & E & Hld & _ & Hh' & Hfree).
  exists CF'. split_and!; [done|done| |].
  - intros e He. pose proof (proj1 (Forall_forall _ _) Hok e He) as Hoke.
    unfold isInConfigFile, getInputFilename, getDelimiter, getHeader. rewrite Hld. cbn [negb].
    split_and!; by apply (find_file_spec CF' es free).
  - intros r Hr. unfold isInConfigFile, getInputFilename. rewrite Hld. cbn [negb]. split; by apply (find_file_miss CF' es free).
Qed.

(** The tables of C's static storage. *)
Definition zero_file : InputFile :=
  {| if_filename := []; if_relation := []; if_delimiter := []; if_header := false; if_id := 0 |}.
Definition zero_config : ConfigurationFile :=
  {| files := Some <$> replicate (Z.to_nat NUMBER_OF_RELATIONS) zero_file; how_many := 0; loaded := false |}.
Definition ex_entry (num file rel delim : string) (h : bool) : entry :=
  {| e_num := text_of num; e_filename := text_of file; e_relation := text_of rel; e_delimiter := text_of delim; e_header := h |}.
Definition ex_entries : list entry :=
  [ex_entry "1" "people.csv" "People" "," true; ex_entry "2" "towns.csv" "towns" "|" false].

Lemma ex_entries_ok : Forall entry_ok ex_entries.
Proof. repeat constructor; try done; cbn; unfold MAX_FILENAME, MAX_RELATION_NAME, DELIMITER_SIZE; cbn; lia. Qed.

Lemma loadEnvironment_roundtrip_witness :
  exists CF', loadEnvironment zero_config (Some (print_config ex_entries)) = Ok CF' /\
    getInputFilename CF' (text_of "people") = Ok (Some (text_of "people.csv")) /\
    isInConfigFile CF' (text_of "People") = Ok false.
Proof.
  destruct (loadEnvironment_roundtrip zero_config (replicate (Z.to_nat NUMBER_OF_RELATIONS) zero_file) ex_entries)
    as (CF' & E & _ & Hin & Hout).
  - split; reflexivity.
  - exact ex_entries_ok.
  - apply (bool_decide_unpack _). reflexivity.
  - apply (bool_decide_unpack _). reflexivity.
  - reflexivity.
  - exists CF'. split; [exact E|]. split.
    + destruct (Hin (ex_entry "1" "people.csv" "People" "," true)) as (_ & H & _); [apply list_elem_of_here|exact H].
    + apply Hout. apply (bool_decide_unpack _). reflexivity.
Defined.

(** ** What a configuration does not say *)

(** A setting on a last line without a newline is dropped: [parse] counts one
    word less than the line has, so the line is not one of three words. *)
Lemma setting_without_newline_ignored CF key num v :
  key <> [] -> no_sep key -> no_sep num -> no_sep v -> config_line CF (setting key num v) = Ok CF.
Proof.
  intros Hk Hks Hn Hv. unfold config_line. destruct (1 <? length (setting key num v))%nat; [|done]. cbn [negb].
  assert (words (setting key num v) ([key ++ num; text_of "="] ++ [quoted v])) as Hw.
  { pose proof (words_setting key num v [] [] Hk Hks Hn Hv ltac:(done) words_end) as H. by rewrite app_nil_r in H. }
  rewrite (parse_spec _ _ _ Hw). by rewrite decide_True by (cbn; lia).
Qed.

(** A line of seventeen words, such as a long comment, writes past [args]. *)
Lemma long_comment_overflows CF :
  config_line CF (text_of "# a comment is a line whose first character is a hash and it may have any number of words") = Fail OutOfBounds.
Proof. vm_compute. reflexivity. Qed.

(** The value of one character writes before the array. *)
Lemma bare_value_overflows v f : length v = 1%nat -> set_filename 1 v f = Fail OutOfBounds.
Proof. intros Hv. unfold set_filename, copy_value. rewrite Hv. by rewrite orb_true_r. Qed.
