(* ===== verification/ScanCommand.v ===== *)
(** * The COPY command of a scan (NoDBScanOperatorInit in NoDBScan.c)

    A scan of a configured relation is set up from a COPY command that is printed
    into a buffer of 512 characters, from what the configuration says about the
    relation. *)
From S2P Require Import Prelude QueryDescriptor Config.

Definition MAX_COMMAND_SIZE : nat := 512.
Definition MAX_OPTION_SIZE : nat := 50.

(** [sprintf] into a block of [cap] characters, terminator included. *)
Definition sprintf (cap : nat) (s : text) : result text :=
  if (length s <? cap)%nat then Ok s else Fail OutOfBounds.

(** A delimiter that is written as an escape. *)
Definition is_escape (delimiter : text) : bool :=
  bool_decide (delimiter = text_of "\t") || bool_decide (delimiter = text_of "\r") || bool_decide (delimiter = text_of "\n").

(** Without a delimiter the default is stored through the null pointer. *)
Definition copy_command (CF : ConfigurationFile) (relation : text) : result text :=
  _ ← c_assert (isLoaded CF);
  filename ← getInputFilename CF relation;
  delimiter ← getDelimiter CF relation;
  header ← getHeader CF relation;
  _ ← c_assert (bool_decide (filename <> None));
  match filename, delimiter with
  | Some filename, Some delimiter =>
      delimiterOption ← sprintf MAX_OPTION_SIZE
        (text_of (if is_escape delimiter then "DELIMITER E'" else "DELIMITER '") ++ delimiter ++ text_of "'");
      headerOption ← sprintf MAX_OPTION_SIZE (text_of (if header : bool then "HEADER TRUE" else "HEADER FALSE"));
      sprintf MAX_COMMAND_SIZE
        (text_of "COPY " ++ relation ++ text_of " FROM '" ++ filename ++ text_of "' WITH (FORMAT csv, " ++
         delimiterOption ++ text_of ", " ++ headerOption ++ text_of ");")
  | _, _ => Fail NullDeref
  end.

Lemma sprintf_Ok cap s : (length s < cap)%nat -> sprintf cap s = Ok s.
Proof. intros H. unfold sprintf. by rewrite (proj2 (Nat.ltb_lt _ _) H). Qed.

(** The command of an entry of the configuration. *)
Definition command_of (e : entry) : text :=
  text_of "COPY " ++ lower_relation e ++ text_of " FROM '" ++ e_filename e ++ text_of "' WITH (FORMAT csv, " ++
  (text_of (if is_escape (e_delimiter e) then "DELIMITER E'" else "DELIMITER '") ++ e_delimiter e ++ text_of "'") ++
  text_of ", " ++ text_of (if e_header e then "HEADER TRUE" else "HEADER FALSE") ++ text_of ");".

Lemma command_of_length e : entry_ok e -> (length (command_of e) < MAX_COMMAND_SIZE)%nat.
Proof.
  intros [_ _ _ Hf _ Hr _ Hd]. unfold MAX_FILENAME, MAX_RELATION_NAME, DELIMITER_SIZE, MAX_COMMAND_SIZE in *.
  unfold command_of, lower_relation. rewrite !length_app, length_map.
  destruct (is_escape _), (e_header e); cbn [text_of String.list_ascii_of_string length]; lia.
Qed.

Lemma copy_command_spec CF es free e :
  loaded CF = true -> holds_files CF ((file_of <$> es) ++ free) -> e ∈ es -> entry_ok e -> NoDup (lower_relation <$> es) ->
  copy_command CF (lower_relation e) = Ok (command_of e).
Proof.
  intros Hl Hh He Hok Hnd. pose proof (command_of_length e Hok) as Hlen.
  unfold copy_command, isLoaded, getInputFilename, getDelimiter, getHeader. rewrite Hl. cbn [c_assert mbind result_bind negb].
  rewrite !(find_file_spec CF es free) by done. cbn [mbind result_bind file_of if_filename if_delimiter if_header].
  rewrite bool_decide_eq_true_2 by done. cbn [c_assert mbind result_bind].
  destruct Hok as [_ _ _ _ _ _ _ Hd]. unfold DELIMITER_SIZE in Hd.
  do 2 (rewrite sprintf_Ok by (rewrite ?length_app; unfold MAX_OPTION_SIZE; destruct (is_escape (e_delimiter e)), (e_header e);
    cbn [text_of String.list_ascii_of_string length]; lia)).
  cbn [mbind result_bind].
  by apply sprintf_Ok.
Qed.

(** C21 After loading a configuration whose values fit, the command of every listed
    relation is printed inside the buffers of 50 and 512 characters, with the file,
    the delimiter and the header of the relation. *)
Theorem copy_command_fits CF l es e : holds_files CF l -> Forall entry_ok es ->
  NoDup ((fun e => atoi (e_num e)) <$> es) -> NoDup (lower_relation <$> es) ->
  Z.of_nat (length es) < NUMBER_OF_RELATIONS -> e ∈ es ->
  exists CF', loadEnvironment CF (Some (print_config es)) = Ok CF' /\
    copy_command CF' (lower_relation e) = Ok (command_of e) /\ (length (command_of e) < MAX_COMMAND_SIZE)%nat.
Proof.
  intros Hh Hok Hnd Hndr Hlen He.
  destruct (loadEnvironment_spec CF l es Hh Hok Hnd Hlen) as (CF' & free & E & Hld & _ & Hh' & _).
  pose proof (proj1 (Forall_forall _ _) Hok e He) as Hoke. exists CF'.
  split_and!; [done|by apply (copy_command_spec CF' es free)|by apply command_of_length].
Qed.

Lemma copy_command_fits_witness :
  exists CF', loadEnvironment zero_config (Some (print_config ex_entries)) = Ok CF' /\
    copy_command CF' (text_of "people")
      = Ok (text_of "COPY people FROM 'people.csv' WITH (FORMAT csv, DELIMITER ',', HEADER TRUE);").
Proof.
  destruct (copy_command_fits zero_config (replicate (Z.to_nat NUMBER_OF_RELATIONS) zero_file) ex_entries
    (ex_entry "1" "people.csv" "People" "," true)) as (CF' & E & Hc & _).
  - split; reflexivity.
  - exact ex_entries_ok.
  - apply (bool_decide_unpack _). reflexivity.
  - apply (bool_decide_unpack _). reflexivity.
  - reflexivity.
  - apply list_elem_of_here.
  - exists CF'. split; [exact E|exact Hc].
Defined.

(** A relation that is not configured has no file. *)
Lemma copy_command_unknown CF es free r :
  loaded CF = true -> holds_files CF ((file_of <$> es) ++ free) -> Forall free_file free -> r ∉ (lower_relation <$> es) ->
  copy_command CF r = Fail AssertFail.
Proof.
  intros Hl Hh Hf Hr. unfold copy_command, isLoaded, getInputFilename, getDelimiter, getHeader. rewrite Hl. cbn [c_assert mbind result_bind negb].
  by rewrite !(find_file_miss CF es free) by done.
Qed.
