(* ===== verification/Executor.v ===== *)
(** * Executing a strategy (NoDBExecutor.c, NoDBScan.c)

    [NoDBExecPlan] and its three variants produce the next tuple of a scan: they
    read the line, take values and positions from the caches of the strategy,
    parse and convert the other columns, write values and positions to the
    caches, and move on to the next strategy when the rows of this one are done
    ([NoDBUpdateStrategy], [NoDBFinalizeStrategy]). *)
From S2P Require Import Prelude Vectors Bitmap Relation Cache CacheData FieldParser PositionalMap LineReader TupleReader CacheSelect ScanStrategy.

Implicit Types (w : world) (att : attributes_t).

(** [plan->readFile] and [cstate->execNoDBPlan] are function pointers. *)
Inductive read_file := ReadFromFile | ReadFromFileWithEOL.
Inductive exec_plan := ExecPlan | ExecPlanWithFilters | ExecPlanCacheOnly | ExecPlanWithFiltersCacheOnly.

(** [plan->eolCache] is with the file of the reader. *)
Record NoDBPlanState_t := {
  readFile : read_file; iterator : NoDBScanStrategyIterator_t; curStrategy : NoDBScanStrategy_t;
  tuplesToRead : Z; nRows : Z; nEOL : Z; nMin : Z; hasEOL : bool }.

(** [NoDBScanStateData_t]: the members that executing a plan changes, the caches
    and the statistics of the relation. *)
Record cstate := {
  cs_scan : scan; cs_fields : fields_t; cs_values : arr Z; cs_nulls : arr Z;
  cs_mem : objects; cs_world : world; cs_plan : NoDBPlanState_t; execNoDBPlan : exec_plan;
  relStats_rows : Z }.
Implicit Types (s : cstate) (pl : NoDBPlanState_t) (st : NoDBScanStrategy_t).

(** The members that a scan does not change, and the functions of PostgreSQL that
    it calls: the input functions of the types, the check of a multi-byte string,
    the size of a datum and the evaluation of the filter on the values. *)
Record exec_env := {
  e_copy : copy_opts; e_line : line_opts; e_conv : conv_opts; e_bufsize : nat;
  nfields : Z; lastfield : Z; attrlen : arr Z; has_qual : bool; readFilterAtts : NoDBColVector_t;
  input_function : Z -> list Z -> result Z;
  pg_verifymbstr : list Z -> bool;
  datumGetSize : list Z -> Z -> nat;
  ExecQual : objects -> arr Z -> arr Z -> result bool }.

(** ** Updates of the state *)
Definition set_scan s (sc : scan) : cstate :=
  {| cs_scan := sc; cs_fields := cs_fields s; cs_values := cs_values s; cs_nulls := cs_nulls s;
     cs_mem := cs_mem s; cs_world := cs_world s; cs_plan := cs_plan s; execNoDBPlan := execNoDBPlan s;
     relStats_rows := relStats_rows s |}.
Definition set_fields s (f : fields_t) : cstate :=
  {| cs_scan := cs_scan s; cs_fields := f; cs_values := cs_values s; cs_nulls := cs_nulls s;
     cs_mem := cs_mem s; cs_world := cs_world s; cs_plan := cs_plan s; execNoDBPlan := execNoDBPlan s;
     relStats_rows := relStats_rows s |}.
Definition set_values s (v : arr Z * arr Z) : cstate :=
  {| cs_scan := cs_scan s; cs_fields := cs_fields s; cs_values := v.1; cs_nulls := v.2;
     cs_mem := cs_mem s; cs_world := cs_world s; cs_plan := cs_plan s; execNoDBPlan := execNoDBPlan s;
     relStats_rows := relStats_rows s |}.
Definition set_world s w : cstate :=
  {| cs_scan := cs_scan s; cs_fields := cs_fields s; cs_values := cs_values s; cs_nulls := cs_nulls s;
     cs_mem := cs_mem s; cs_world := w; cs_plan := cs_plan s; execNoDBPlan := execNoDBPlan s;
     relStats_rows := relStats_rows s |}.
Definition set_mem s (mem : objects) : cstate :=
  {| cs_scan := cs_scan s; cs_fields := cs_fields s; cs_values := cs_values s; cs_nulls := cs_nulls s;
     cs_mem := mem; cs_world := cs_world s; cs_plan := cs_plan s; execNoDBPlan := execNoDBPlan s;
     relStats_rows := relStats_rows s |}.
Definition set_plan s pl : cstate :=
  {| cs_scan := cs_scan s; cs_fields := cs_fields s; cs_values := cs_values s; cs_nulls := cs_nulls s;
     cs_mem := cs_mem s; cs_world := cs_world s; cs_plan := pl; execNoDBPlan := execNoDBPlan s;
     relStats_rows := relStats_rows s |}.
Definition set_exec s (x : exec_plan) : cstate :=
  {| cs_scan := cs_scan s; cs_fields := cs_fields s; cs_values := cs_values s; cs_nulls := cs_nulls s;
     cs_mem := cs_mem s; cs_world := cs_world s; cs_plan := cs_plan s; execNoDBPlan := x;
     relStats_rows := relStats_rows s |}.
Definition set_rel_rows s (n : Z) : cstate :=
  {| cs_scan := cs_scan s; cs_fields := cs_fields s; cs_values := cs_values s; cs_nulls := cs_nulls s;
     cs_mem := cs_mem s; cs_world := cs_world s; cs_plan := cs_plan s; execNoDBPlan := execNoDBPlan s;
     relStats_rows := n |}.
Definition set_attributes (f : fields_t) att : fields_t :=
  {| attribute_buf := attribute_buf f; buf_maxlen := buf_maxlen f; fieldvals := fieldvals f; attributes := att |}.

Definition cs_line s : list Z := line_buf (rd (cs_scan s)).
Definition cs_row s : Z := processed (cs_scan s).
Definition cs_eol s : NoDBCache_t := st_cache (cs_scan s).

(** [cstate->attributes] as an array of pairs: a pair can be copied when both of
    its members were written, and a copied pair replaces both. *)
Definition att_pairs att : arr NoDBPMPair_t :=
  zip_with (fun p x => match p, x with Some p, Some x => Some (p, x) | _, _ => None end)
    (at_pointer att) (at_width att).
Definition att_merge att (pv : arr NoDBPMPair_t) : attributes_t :=
  {| at_pointer := zip_with (fun p v => match v with Some x => Some x.1 | None => p end) (at_pointer att) pv;
     at_width := zip_with (fun y v => match v with Some x => Some x.2 | None => y end) (at_width att) pv |}.

(** [for (i = 0; i < n; i++)] over the caches of a strategy with their columns. *)
Definition each_cache {S} (cpc : Z * list NoDBColumnsPerCache_t) (f : Z -> NoDBColVector_t -> S -> result S) (x : S)
    : result S :=
  for_range 0 cpc.1 (fun i x =>
    match cpc.2 !! Z.to_nat i with
    | Some e => f (pc_cache e) (pc_cols e) x
    | None => Fail OutOfBounds
    end) x.

(** ** Reading *)
Definition read_cached w cpc (row : Z) (v : arr Z * arr Z) : result (arr Z * arr Z) :=
  each_cache cpc (fun p cols v => c ← get_cache w p; NoDBCacheGetDatumVector c v.1 v.2 cols row) v.

Definition read_positions w cpc (row : Z) att : result attributes_t :=
  each_cache cpc (fun p cols att =>
    c ← get_cache w p;
    pv ← NoDBCacheGetPMPairVector c (replicate (length (at_pointer att)) None) cols row;
    Ok (att_merge att pv)) att.

Definition read_via_pm (o : copy_opts) (line : list Z) (via : Z * arr NoDBReadViaPM_t) att : result attributes_t :=
  for_range 0 via.1 (fun i att => e ← arr_get via.2 i; NoDBGetNextTupleViaPM o line att e) att.

Section exec.
Context (env : exec_env).
Abbreviation o := (e_copy env).

Definition read_attributes (line : list Z) (f : fields_t) : result fields_t :=
  if csv_mode (e_line env) then NoDBCopyReadAttributesCSV o (nfields env) (lastfield env) line f
  else NoDBCopyReadAttributesText (pg_verifymbstr env) o (nfields env) (lastfield env) line f.

(** The part of a strategy before or after the filter. With the file, the
    columns [convFile] are converted; without, the columns [conv], which writes
    terminators into the line. *)
Definition read_half s (withCache withPM : Z * list NoDBColumnsPerCache_t) (viaPM : Z * arr NoDBReadViaPM_t)
    (withFile convFile conv : NoDBColVector_t) : result cstate :=
  v1 ← read_cached (cs_world s) withCache (cs_row s) (cs_values s, cs_nulls s);
  att1 ← read_positions (cs_world s) withPM (cs_row s) (attributes (cs_fields s));
  att2 ← read_via_pm o (cs_line s) viaPM att1;
  let s1 := set_fields (set_values s v1) (set_attributes (cs_fields s) att2) in
  if 0 <? NoDBColVectorSize withFile then
    f ← read_attributes (cs_line s1) (cs_fields s1);
    v2 ← NoDBGetValues (input_function env) f (cs_values s1) (cs_nulls s1) convFile;
    Ok (set_values (set_fields s1 f) v2)
  else
    x ← NoDBGetValuesWithPM (input_function env) (cs_line s1 ++ [0]) att2 (cs_values s1) (cs_nulls s1) conv;
    let '(line, values, nulls) := x in
    let sc := cs_scan s1 in
    Ok (set_scan (set_values s1 (values, nulls))
          (set_rd sc (set_line (rd sc) (take (length (cs_line s1)) line)))).

(** ** Writing *)
Definition write_values s cpc : result cstate :=
  w ← each_cache cpc (fun p cols w =>
    c ← get_cache w p;
    c' ← NoDBCacheSetDatumVector c (cs_values s) (cs_nulls s) cols (cs_row s);
    Ok (put_cache w p c')) (cs_world s);
  Ok (set_world s w).

Definition write_refs s cpc : result cstate :=
  x ← each_cache cpc (fun p cols '(mem, w) =>
    c ← get_cache w p;
    y ← NoDBCacheSetDatumRefVector (datumGetSize env) mem c (cs_values s) (attrlen env) cols (cs_row s);
    Ok (y.1, put_cache w p y.2)) (cs_mem s, cs_world s);
  Ok (set_world (set_mem s x.1) x.2).

Definition write_positions s cpc : result cstate :=
  w ← each_cache cpc (fun p cols w =>
    c ← get_cache w p;
    c' ← NoDBCacheSetPMPairVector c (att_pairs (attributes (cs_fields s))) cols (cs_row s);
    Ok (put_cache w p c')) (cs_world s);
  Ok (set_world s w).

Definition write_back s st : result cstate :=
  s1 ← write_values s (writeToCacheByValue st);
  s2 ← write_refs s1 (writeToCacheByRef st);
  write_positions s2 (writeToPM st).

(** ** The next strategy *)
Definition NoDBReadFromCacheOnly st : bool :=
  ((readPostFilterWithPM st).1 =? 0) && ((readPreFilterWithPM st).1 =? 0) &&
  (NoDBColVectorSize (readPreFilterWithFile st) =? 0) &&
  ((readPostFilterViaPM st).1 =? 0) && (NoDBColVectorSize (readPostFilterWithFile st) =? 0) &&
  ((0 <? (readPostFilterWithCache st).1) || (0 <? (readPreFilterWithCache st).1)).

Definition NoDBGetExecPlan st : exec_plan :=
  let filters := has_qual env && (0 <? NoDBColVectorSize (readFilterAtts env)) in
  if negb (NoDBReadFromCacheOnly st) then if filters then ExecPlanWithFilters else ExecPlan
  else if filters then ExecPlanWithFiltersCacheOnly else ExecPlanCacheOnly.

Definition NoDBGetReadFile (nEOL : Z) : read_file := if 0 <? nEOL then ReadFromFileWithEOL else ReadFromFile.

(** The end-of-line cache is the one that the registry returns for the relation. *)
Definition min_rows st (nEOL : Z) : Z :=
  if negb (NoDBReadFromCacheOnly st) && (0 <? nEOL) then
    if nEOL <? nrows st then nEOL else nrows st
  else nrows st.

Definition NoDBPlanStateInit st (it : NoDBScanStrategyIterator_t) (eol : NoDBCache_t) : NoDBPlanState_t :=
  let nEOL := NoDBCacheGetUsedRows eol in
  {| readFile := NoDBGetReadFile nEOL; iterator := it; curStrategy := st; tuplesToRead := min_rows st nEOL;
     nRows := nrows st; nEOL := nEOL; nMin := min_rows st nEOL; hasEOL := 0 <? nEOL |}.

(** The loop counter is an [int], compared with the unsigned [lastTuple]. *)
Definition NoDBComputeBytesToSeek (cache : NoDBCache_t) (firstTuple lastTuple : Z) : result Z :=
  for_range (u64 (swrap 32 firstTuple)) lastTuple (fun i bytes =>
    v ← NoDBCacheGetShortInt cache 0 i; Ok (u64 (bytes + v))) 0.

Definition used_rows w cpc (processed : Z) : result world :=
  each_cache cpc (fun p _ w =>
    c ← get_cache w p;
    Ok (put_cache w p (NoDBCacheSetUsedRows c (u64 (processed - NoDBCacheGetBegin c))))) w.

(** [NoDBExecSetNumberOffRows] takes the rows of the end-of-line cache of the
    relation, which is the one of the plan. *)
Definition NoDBFinalizeStrategy s : result cstate :=
  let st := curStrategy (cs_plan s) in
  w1 ← used_rows (cs_world s) (writeToCacheByRef st) (cs_row s);
  w2 ← used_rows w1 (writeToCacheByValue st) (cs_row s);
  w3 ← used_rows w2 (writeToPM st) (cs_row s);
  Ok (set_rel_rows (set_world s w3) (NoDBCacheGetUsedRows (cs_eol s))).

Definition set_source_pos (r : reader) (p : nat) : reader :=
  {| raw_buf := []; raw_buf_index := 0; line_buf := line_buf r;
     copy_file := {| contents := contents (copy_file r); pos := p; read_header := read_header (copy_file r);
                     eolCache := eolCache (copy_file r) |};
     eol_type := eol_type r; cur_lineno := cur_lineno r |}.

Definition eol_end s : Z := u64 (NoDBCacheGetBegin (cs_eol s) + NoDBCacheGetUsedRows (cs_eol s)).

(** [fseek] over the lines that were not read because their columns came from the
    caches. *)
Definition seek_to_row s : result cstate :=
  let sc := cs_scan s in
  if tupleRead sc =? processed sc then Ok s
  else
    _ ← c_assert (processed sc <=? eol_end s);
    bytes ← NoDBComputeBytesToSeek (cs_eol s) (tupleRead sc) (processed sc);
    header ← (if header_line (e_line env) then
                h ← (if read_header (copy_file (rd sc)) then Ok true
                     else z ← NoDBCacheGetHeaderSize (cs_eol s); Ok (0 <? z));
                if (h : bool) then NoDBCacheGetHeaderSize (cs_eol s) else Ok 0
              else Ok 0);
    Ok (set_scan s {| rd := set_source_pos (rd sc) (pos (copy_file (rd sc)) + Z.to_nat (bytes + header));
                      processed := processed sc; tupleRead := processed sc; tupleStored := 0;
                      line_buf_converted := line_buf_converted sc |}).

(** [NoDBCacheSetMaxRows] of the end-of-line cache, when it has too few free rows. *)
Definition extend_eol s (rows : Z) : result cstate :=
  max ← NoDBCacheGetMaxRows (cs_eol s);
  if u64 (max - NoDBCacheGetUsedRows (cs_eol s)) <? rows then
    c ← NoDBCacheSetMaxRows (cs_eol s) (u64 (cs_row s + rows));
    let sc := cs_scan s in Ok (set_scan s (set_rd sc (set_cache (rd sc) c)))
  else Ok s.

Definition next_strategy s : result cstate :=
  let pl := cs_plan s in
  x ← NoDBScanStrategyIteratorGet (NoDBScanStrategyIteratorNext (iterator pl)) (cs_world s);
  let '(w, it, st) := x in
  s1 ← extend_eol (set_world s w) (nrows st);
  let nMin := min_rows st (nEOL pl) in
  Ok (set_exec (set_plan s1
        {| readFile := readFile pl; iterator := it; curStrategy := st; tuplesToRead := nMin;
           nRows := nrows st; nEOL := nEOL pl; nMin := nMin; hasEOL := hasEOL pl |}) (NoDBGetExecPlan st)).

Definition set_counts pl (nRows nEOL nMin tuples : Z) (rf : read_file) (has : bool) : NoDBPlanState_t :=
  {| readFile := rf; iterator := iterator pl; curStrategy := curStrategy pl; tuplesToRead := tuples;
     nRows := nRows; nEOL := nEOL; nMin := nMin; hasEOL := has |}.

Definition NoDBUpdateStrategy s : result cstate :=
  let pl := cs_plan s in
  let nEOL' := if 0 <? nEOL pl then nEOL pl - tuplesToRead pl else nEOL pl in
  let nRows' := if 0 <? nRows pl then nRows pl - tuplesToRead pl else nRows pl in
  let hasEOL' := if nEOL' =? 0 then false else hasEOL pl in
  let readFile' := if nEOL' =? 0 then NoDBGetReadFile nEOL' else readFile pl in
  if nRows' =? 0 then
    s1 ← NoDBFinalizeStrategy (set_plan s (set_counts pl nRows' nEOL' (nMin pl) (tuplesToRead pl) readFile' hasEOL'));
    s2 ← seek_to_row s1;
    if eol_end s2 <=? tupleRead (cs_scan s2) then
      x ← NoDBTryReFillRawBuf (e_bufsize env) (e_line env) (rd (cs_scan s2));
      let s3 := set_scan s2 (set_rd (cs_scan s2) x.1) in
      if (x.2 : bool) then
        let pl3 := cs_plan s3 in
        Ok (set_exec (set_plan s3 (set_counts pl3 (nRows pl3) (nEOL pl3) (nMin pl3) (tuplesToRead pl3)
              (NoDBGetReadFile (nEOL pl3)) (hasEOL pl3))) ExecPlan)
      else next_strategy s3
    else next_strategy s2
  else Ok (set_plan s (set_counts pl nRows' nEOL' nRows' nRows' readFile' hasEOL')).

(** ** The next tuple *)

(** [cstate->plan->readFile(cstate)] *)
Definition read_file_line s : result (cstate * bool) :=
  x ← match readFile (cs_plan s) with
      | ReadFromFile => NoDBGetNextTupleFromFile (e_bufsize env) (e_line env) (e_conv env) (cs_scan s)
      | ReadFromFileWithEOL => NoDBGetNextTupleFromFileWithEOL (e_bufsize env) (e_line env) (e_conv env) (cs_scan s)
      end;
  Ok (set_scan s x.1, x.2).

(** [processed++], [nMin--] and the next strategy when the rows are used up. *)
Definition advance s : result cstate :=
  let pl := cs_plan s in
  let nMin' := nMin pl - 1 in
  let s1 := set_plan (set_scan s (next_row (cs_scan s)))
    (set_counts pl (nRows pl) (nEOL pl) nMin' (tuplesToRead pl) (readFile pl) (hasEOL pl)) in
  if nMin' =? 0 then NoDBUpdateStrategy s1 else Ok s1.

(** The slot points to [values] and [nulls]; [None] is the end of the scan. *)
Definition generateTupleTableSlot s : option (arr Z * arr Z) := Some (cs_values s, cs_nulls s).

Definition NoDBExecPlan s : result (cstate * option (arr Z * arr Z)) :=
  x ← read_file_line s;
  let '(s1, done) := x in
  if (done : bool) then Ok (s1, None)
  else
    let st := curStrategy (cs_plan s1) in
    s2 ← read_half s1 (readPostFilterWithCache st) (readPostFilterWithPM st) (readPostFilterViaPM st)
           (readPostFilterWithFile st) (convertPostFilter st) (convertPostFilter st);
    s3 ← write_back s2 st;
    s4 ← advance s3;
    Ok (s4, generateTupleTableSlot s4).

Definition NoDBExecPlanWithFilters s : result (cstate * option (arr Z * arr Z) * bool) :=
  x ← read_file_line s;
  let '(s1, done) := x in
  if (done : bool) then Ok (s1, None, false)
  else
    let st := curStrategy (cs_plan s1) in
    s2 ← read_half s1 (readPreFilterWithCache st) (readPreFilterWithPM st) (readPreFilterViaPM st)
           (readPreFilterWithFile st) (convertPreFilter st) (convertPreFilter st);
    pass ← ExecQual env (cs_mem s2) (cs_values s2) (cs_nulls s2);
    s3 ← (if (pass : bool) then
            read_half s2 (readPostFilterWithCache st) (readPostFilterWithPM st) (readPostFilterViaPM st)
              (readPostFilterWithFile st) (readPostFilterWithFile st) (convertPostFilter st)
          else Ok s2);
    s4 ← write_back s3 st;
    s5 ← advance s4;
    Ok (s5, generateTupleTableSlot s5, pass).

Definition NoDBExecPlanCacheOnly s : result (cstate * option (arr Z * arr Z)) :=
  v ← read_cached (cs_world s) (readPostFilterWithCache (curStrategy (cs_plan s))) (cs_row s) (cs_values s, cs_nulls s);
  s1 ← advance (set_values s v);
  Ok (s1, generateTupleTableSlot s1).

Definition NoDBExecPlanWithFiltersCacheOnly s : result (cstate * option (arr Z * arr Z) * bool) :=
  let st := curStrategy (cs_plan s) in
  v ← read_cached (cs_world s) (readPreFilterWithCache st) (cs_row s) (cs_values s, cs_nulls s);
  let s1 := set_values s v in
  pass ← ExecQual env (cs_mem s1) (cs_values s1) (cs_nulls s1);
  s2 ← (if (pass : bool) then
          v' ← read_cached (cs_world s1) (readPostFilterWithCache st) (cs_row s1) (cs_values s1, cs_nulls s1);
          Ok (set_values s1 v')
        else Ok s1);
  s3 ← advance s2;
  Ok (s3, generateTupleTableSlot s3, pass).

(** ** The scan node (execScan.c) *)

(** [cstate->execNoDBPlan(cstate, &pass)]: the two plans without a filter leave
    [pass] as it is. *)
Definition run_plan s (pass : bool) : result (cstate * option (arr Z * arr Z) * bool) :=
  match execNoDBPlan s with
  | ExecPlan => x ← NoDBExecPlan s; Ok (x, pass)
  | ExecPlanWithFilters => NoDBExecPlanWithFilters s
  | ExecPlanCacheOnly => x ← NoDBExecPlanCacheOnly s; Ok (x, pass)
  | ExecPlanWithFiltersCacheOnly => NoDBExecPlanWithFiltersCacheOnly s
  end.

Inductive ExprDoneCond := ExprSingleResult | ExprMultipleResult | ExprEndResult.

(** The state of the projection is PostgreSQL's, [None] without a projection. *)
Context {P : Type} (ExecProject : P -> arr Z * arr Z -> result (P * (arr Z * arr Z) * ExprDoneCond)).

Record ScanState := { sn_cstate : cstate; ps_TupFromTlist : bool; ps_ProjInfo : option P }.

(** [for (;;)]: the next tuple that passes the filter and that the projection
    does not drop; [None] is the empty slot. *)
Fixpoint scan_loop (fuel : nat) (s : cstate) (proj : option P) : result (ScanState * option (arr Z * arr Z)) :=
  match fuel with
  | O => Fail OutOfFuel
  | S fuel' =>
      x ← run_plan s true;
      let '(s', slot, pass) := x in
      match slot with
      | None => Ok ({| sn_cstate := s'; ps_TupFromTlist := false; ps_ProjInfo := proj |}, None)
      | Some v =>
          if (pass : bool) then
            match proj with
            | Some p =>
                y ← ExecProject p v;
                match y.2 with
                | ExprEndResult => scan_loop fuel' s' (Some y.1.1)
                | isDone => Ok ({| sn_cstate := s';
                                   ps_TupFromTlist := match isDone with ExprMultipleResult => true | _ => false end;
                                   ps_ProjInfo := Some y.1.1 |}, Some y.1.2)
                end
            | None => Ok ({| sn_cstate := s'; ps_TupFromTlist := false; ps_ProjInfo := proj |}, Some v)
            end
          else scan_loop fuel' s' proj
      end
  end.

(** The branch of [ExecScan] for a raw file. *)
Definition ExecScan (fuel : nat) (node : ScanState) : result (ScanState * option (arr Z * arr Z)) :=
  let s := sn_cstate node in
  match ps_ProjInfo node, has_qual env, ps_TupFromTlist node with
  | None, false, b =>
      x ← run_plan s false;
      Ok ({| sn_cstate := x.1.1; ps_TupFromTlist := b; ps_ProjInfo := None |}, x.1.2)
  | None, true, true => Fail AssertFail
  | Some p, _, true =>
      y ← ExecProject p (cs_values s, cs_nulls s);
      match y.2 with
      | ExprMultipleResult => Ok ({| sn_cstate := s; ps_TupFromTlist := true; ps_ProjInfo := Some y.1.1 |}, Some y.1.2)
      | _ => scan_loop fuel s (Some y.1.1)
      end
  | proj, _, false => scan_loop fuel s proj
  end.

End exec.
