(* ===== verification/ExecutorSound.v ===== *)
(** * Reading and writing a row through a strategy

    The proofs about the steps of [NoDBExecPlan] (Executor.v). A row of the file
    is given by its fields; a state of the caches is right where its cells hold
    the values and positions of those fields. Reading a half of a strategy gives
    the values of the file, and what is written to the caches is right again. *)
From S2P Require Import Prelude Vectors Relation Cache CacheData FieldParser PositionalMap LineReader TupleReader CacheSelect ScanStrategy StrategySound Executor.

Implicit Types (w : world) (cm : cache_map) (raws : list (list Z)).

(** ** Loops over the caches of a strategy *)
Lemma each_cache_map {A} (I : cache_map -> A -> Prop) cm f (x : A) :
  I [] x ->
  (forall dn p cols rest y, cm = dn ++ (p, cols) :: rest -> I dn y ->
     exists y', f p (col_vector cols) y = Ok y' /\ I (dn ++ [(p, cols)]) y') ->
  exists y, each_cache (SetColsPerCache cm) f x = Ok y /\ I cm y.
Proof.
  intros H0 Hstep. unfold each_cache, SetColsPerCache. cbn [fst snd].
  destruct (for_nat_inv (fun k y => I (take k cm) y) (length cm)
    (fun i y => match ((fun e => {| pc_cache := e.1; pc_cols := col_vector e.2 |}) <$> cm) !! Z.to_nat i with
       | Some e => f (pc_cache e) (pc_cols e) y | None => Fail OutOfBounds end) x) as (y & -> & Hy).
  - by rewrite take_0.
  - intros k y Hk Hy. rewrite Nat2Z.id, list_lookup_fmap.
    destruct (lookup_lt_is_Some_2 cm k Hk) as [[p cols] E]. rewrite E. cbn [fmap option_fmap option_map pc_cache pc_cols fst snd].
    destruct (Hstep (take k cm) p cols (drop (S k) cm) y) as (y' & -> & Hy'); [by rewrite take_drop_middle|done|].
    exists y'. split; [done|]. by rewrite (take_S_r _ _ _ E).
  - exists y. split; [done|]. by rewrite firstn_all in Hy.
Qed.

Lemma elem_middle {A} (l1 l2 l : list A) x : l = l1 ++ x :: l2 -> x ∈ l.
Proof. intros ->. apply elem_of_app. right. by left. Qed.

(** ** Values *)

(** [val x] is the datum of column [x] with its null flag. *)
Definition vright (val : Z -> NoDBDatum_t) (v : arr Z * arr Z) (x : Z) : Prop :=
  arr_get v.1 x = Ok (val x).1 /\ arr_get v.2 x = Ok (val x).2.

(** Every value that is not as before is right. *)
Record vimproves (val : Z -> NoDBDatum_t) (v v' : arr Z * arr Z) : Prop := {
  vi_len1 : length v'.1 = length v.1;
  vi_len2 : length v'.2 = length v.2;
  vi_cell : forall x, vright val v' x \/ (arr_get v'.1 x = arr_get v.1 x /\ arr_get v'.2 x = arr_get v.2 x) }.

Lemma vimproves_refl val v : vimproves val v v.
Proof. split; try done. by right. Qed.

Lemma vimproves_trans val v1 v2 v3 : vimproves val v1 v2 -> vimproves val v2 v3 -> vimproves val v1 v3.
Proof.
  intros [A1 A2 A3] [B1 B2 B3]. split; [congruence|congruence|]. intros x.
  destruct (B3 x) as [?|[E1 E2]]; [by left|]. destruct (A3 x) as [[K1 K2]|[K1 K2]].
  - left. split; congruence.
  - right. split; congruence.
Qed.

Lemma vimproves_right val v v' x : vimproves val v v' -> vright val v x -> vright val v' x.
Proof. intros [_ _ H] [K1 K2]. destruct (H x) as [?|[E1 E2]]; [done|]. split; congruence. Qed.

Lemma vimproves_set val v x d n : val x = (d, n) -> 0 <= x < Z.of_nat (length v.1) -> 0 <= x < Z.of_nat (length v.2) ->
  exists v1 v2, arr_set v.1 x d = Ok v1 /\ arr_set v.2 x n = Ok v2 /\ vimproves val v (v1, v2) /\ vright val (v1, v2) x.
Proof.
  intros Ev H1 H2. destruct (arr_set v.1 x d) as [v1|] eqn:E1; [|by rewrite arr_set_Ok in E1].
  destruct (arr_set v.2 x n) as [v2|] eqn:E2; [|by rewrite arr_set_Ok in E2]. exists v1, v2.
  assert (Hr : vright val (v1, v2) x).
  { split; rewrite Ev; cbn [fst snd]; by eapply arr_get_set_eq. }
  split_and!; [done..| |done]. split; [by eapply arr_set_length|by eapply arr_set_length|].
  intros y. destruct (decide (y = x)) as [->|Hne]; [by left|]. right. cbn [fst snd].
  by rewrite (arr_get_set_ne _ _ _ _ _ E1), (arr_get_set_ne _ _ _ _ _ E2) by done.
Qed.

(** What a cell of a data cache must hold: the cache at [p] has the value [val x]
    of column [x] for the row. *)
Definition data_cells w (row : Z) (val : Z -> NoDBDatum_t) cm : Prop :=
  forall p cols, (p, cols) ∈ cm -> exists c lay n m, w_caches w !! p = Some c /\ cache_rep nodbdatum_codec c lay n m /\
    forall x, x ∈ cols -> m !! (x, row) = Some (val x).

Definition cols_in cm (n : Z) : Prop := forall p x, in_map cm p x -> 0 <= x < n.

Lemma read_cached_spec w cm row val v :
  data_cells w row val cm -> cols_in cm (Z.of_nat (length v.1)) -> cols_in cm (Z.of_nat (length v.2)) ->
  exists v', read_cached w (SetColsPerCache cm) row v = Ok v' /\ vimproves val v v' /\
    forall p x, in_map cm p x -> vright val v' x.
Proof.
  intros Hc H1 H2. destruct (each_cache_map (fun dn v' => vimproves val v v' /\ forall p x, in_map dn p x -> vright val v' x) cm
    (fun p cols v => c ← get_cache w p; NoDBCacheGetDatumVector c v.1 v.2 cols row) v) as (v' & E & Hv'); [| |by exists v'].
  - split; [apply vimproves_refl|]. intros p x (l & Hl & _). by apply elem_of_nil in Hl.
  - intros dn p cols rest y Ecm [Hi Hr]. destruct (Hc p cols (elem_middle _ _ _ _ Ecm)) as (c & lay & n & m & Ec & Hrep & Hm).
    unfold get_cache. rewrite Ec. cbn [mbind result_bind].
    assert (Hin : forall x, x ∈ cols -> in_map cm p x) by (intros x Hx; exists cols; split; [by eapply elem_middle|done]).
    destruct (GetDatumVector_spec c lay n m cols row val y.1 y.2 Hrep Hm) as (dv & nv & -> & F1 & F2).
    { intros x Hx. rewrite (vi_len1 _ _ _ Hi), (vi_len2 _ _ _ Hi). split; [by apply (H1 p), Hin|by apply (H2 p), Hin]. }
    pose proof (proj1 F1) as L1. pose proof (proj1 F2) as L2.
    apply filled_done in F1 as [F1 G1], F2 as [F2 G2]. exists (dv, nv). split; [done|].
    assert (Hstep : vimproves val y (dv, nv)).
    { split; [done|done|]. intros x. destruct (decide (x ∈ cols)) as [Hx|Hx].
      - left. split; [by apply F1|by apply F2].
      - right. split; [by apply G1|by apply G2]. }
    split; [by eapply vimproves_trans|]. intros p' x (l & Hl & Hx).
    apply elem_of_app in Hl as [Hl|[= -> ->]%list_elem_of_singleton].
    + apply (vimproves_right _ _ _ _ Hstep), (Hr p'). by exists l.
    + split; [by apply F1|by apply F2].
Qed.

(** ** Positions *)
Lemma att_merge_get att (pv : arr (Z * Z)) j : length pv = length (at_pointer att) -> length pv = length (at_width att) ->
  arr_get (at_pointer (att_merge att pv)) j = match arr_get pv j with Ok x => Ok x.1 | Fail _ => arr_get (at_pointer att) j end /\
  arr_get (at_width (att_merge att pv)) j = match arr_get pv j with Ok x => Ok x.2 | Fail _ => arr_get (at_width att) j end.
Proof.
  intros L1 L2. unfold arr_get. destruct (0 <=? j); [|done]. cbn [att_merge at_pointer at_width].
  rewrite !lookup_zip_with. destruct (decide (Z.to_nat j < length pv)%nat) as [Hj|Hj].
  - destruct (lookup_lt_is_Some_2 pv (Z.to_nat j)) as [v ->]; [lia|].
    destruct (lookup_lt_is_Some_2 (at_pointer att) (Z.to_nat j)) as [a ->]; [lia|].
    destruct (lookup_lt_is_Some_2 (at_width att) (Z.to_nat j)) as [b ->]; [lia|]. by destruct v.
  - rewrite !lookup_ge_None_2 by lia. done.
Qed.

Lemma att_merge_lengths att (pv : arr (Z * Z)) : length pv = length (at_pointer att) -> length pv = length (at_width att) ->
  length (at_pointer (att_merge att pv)) = length (at_pointer att) /\
  length (at_width (att_merge att pv)) = length (at_width att).
Proof. intros L1 L2. cbn [att_merge at_pointer at_width]. rewrite !length_zip_with, <- L1, <- L2. lia. Qed.

Lemma att_pairs_get att x p n : arr_get (at_pointer att) x = Ok p -> arr_get (at_width att) x = Ok n ->
  arr_get (att_pairs att) x = Ok (p, n).
Proof.
  unfold arr_get, att_pairs. destruct (0 <=? x); [|done]. rewrite lookup_zip_with.
  destruct (at_pointer att !! Z.to_nat x) as [[?|]|]; try done. cbn.
  destruct (at_width att !! Z.to_nat x) as [[?|]|]; try done. cbn. by intros [= ->] [= ->].
Qed.

(** The position and the width of field [x]. *)
Definition pos_of raws (x : Z) : NoDBPMPair_t :=
  (fstart raws (Z.to_nat x), Z.of_nat (length (default [] (raws !! Z.to_nat x)))).

Lemma fstart_le raws k : (k <= length raws)%nat -> fstart raws k <= fstart raws (length raws).
Proof.
  intros Hk. pose proof (fstart_drop raws k (length raws - k)) as H. pose proof (fstart_nonneg (drop k raws) (length raws - k)).
  replace (k + (length raws - k))%nat with (length raws) in H by lia. lia.
Qed.

Lemma u16_pos raws k r : fstart raws (length raws) < 2 ^ 16 -> raws !! k = Some r ->
  u16 (fstart raws k) = fstart raws k /\ u16 (Z.of_nat (length r)) = Z.of_nat (length r).
Proof.
  intros Hlt Hr. pose proof (lookup_lt_Some _ _ _ Hr) as Hk. destruct (fstart_mono raws k Hk) as (r' & Hr' & E).
  assert (r' = r) as -> by congruence. pose proof (fstart_le raws (S k) ltac:(lia)). pose proof (fstart_nonneg raws k).
  unfold u16. rewrite !wrap_small; lia.
Qed.

Lemma known_pos raws att x : fstart raws (length raws) < 2 ^ 16 -> 0 <= x < Z.of_nat (length raws) ->
  known raws att (Z.to_nat x) (Z.to_nat x) <->
  arr_get (at_pointer att) x = Ok (pos_of raws x).1 /\ arr_get (at_width att) x = Ok (pos_of raws x).2.
Proof.
  intros Hlt Hx. destruct (lookup_lt_is_Some_2 raws (Z.to_nat x)) as [r Hr]; [lia|].
  destruct (u16_pos raws (Z.to_nat x) r Hlt Hr) as [U1 U2]. unfold pos_of. rewrite Hr. cbn [fst snd default from_option id].
  split.
  - intros Hk. destruct (Hk (Z.to_nat x) r) as [K1 K2]; [lia|done|]. rewrite Z2Nat.id in K1, K2 by lia. by rewrite K1, K2, U1, U2.
  - intros [K1 K2] j r' Hj Hr'. assert (j = Z.to_nat x) as -> by lia. simplify_eq. rewrite Z2Nat.id by lia.
    by rewrite K1, K2, U1, U2.
Qed.

Definition pm_cells w (row : Z) (pos : Z -> NoDBPMPair_t) cm : Prop :=
  forall p cols, (p, cols) ∈ cm -> exists c lay n m, w_caches w !! p = Some c /\ cache_rep pmpair_codec c lay n m /\
    forall x, x ∈ cols -> m !! (x, row) = Some (pos x).

Lemma read_positions_spec w cm row raws att :
  fstart raws (length raws) < 2 ^ 16 -> length (at_width att) = length (at_pointer att) ->
  pm_cells w row (pos_of raws) cm -> cols_in cm (Z.of_nat (length raws)) -> att_sizes raws att ->
  exists att', read_positions w (SetColsPerCache cm) row att = Ok att' /\ improves raws att att' /\
    forall p x, in_map cm p x -> known raws att' (Z.to_nat x) (Z.to_nat x).
Proof.
  intros Hlt Hlen Hc Hin Hsz. destruct (each_cache_map (fun dn att' => improves raws att att' /\
    forall p x, in_map dn p x -> known raws att' (Z.to_nat x) (Z.to_nat x)) cm
    (fun p cols att => c ← get_cache w p;
       pv ← NoDBCacheGetPMPairVector c (replicate (length (at_pointer att)) None) cols row;
       Ok (att_merge att pv)) att) as (att' & E & H); [| |by exists att'].
  - split; [apply improves_refl|]. intros p x (l & Hl & _). by apply elem_of_nil in Hl.
  - intros dn p cols rest y Ecm [Hi Hk]. destruct (Hc p cols (elem_middle _ _ _ _ Ecm)) as (c & lay & n & m & Ec & Hrep & Hm).
    unfold get_cache. rewrite Ec. cbn [mbind result_bind].
    assert (Hx : forall x, x ∈ cols -> 0 <= x < Z.of_nat (length raws)).
    { intros x Hx. apply (Hin p). exists cols. split; [by eapply elem_middle|done]. }
    pose proof (improves_sizes _ _ _ Hi Hsz) as [S1 S2]. pose proof (im_plen _ _ _ Hi) as P1. pose proof (im_wlen _ _ _ Hi) as P2.
    destruct (GetPMPairVector_spec c lay n m cols row (pos_of raws) (replicate (length (at_pointer y)) None) Hrep Hm)
      as (pv & -> & F). { intros x ?%Hx. rewrite length_replicate. lia. }
    pose proof (proj1 F) as L. rewrite length_replicate in L. apply filled_done in F as [F G].
    cbn [mbind result_bind]. exists (att_merge y pv). split; [done|].
    assert (L2 : length pv = length (at_width y)) by congruence. pose proof (att_merge_lengths y pv L L2) as [M1 M2].
    assert (Hold : forall x, x ∉ cols -> exists e, arr_get pv x = Fail e).
    { intros x Hn. rewrite G by done. unfold arr_get. destruct (0 <=? x); [|by eexists].
      destruct (replicate _ _ !! _) as [a|] eqn:E; [|by eexists]. apply lookup_replicate in E as [-> _]. by eexists. }
    assert (Hnew : forall x, x ∈ cols -> known raws (att_merge y pv) (Z.to_nat x) (Z.to_nat x)).
    { intros x Hxc. apply known_pos; [done|by apply Hx|]. destruct (att_merge_get y pv x L L2) as [-> ->]. by rewrite F. }
    assert (Hstep : improves raws y (att_merge y pv)).
    { split; [done|done|..]; intros j; destruct (att_merge_get y pv j L L2) as [Ep Ew];
        (destruct (decide (j ∈ cols)) as [Hj|Hj];
         [right; pose proof (Hx j Hj); destruct (lookup_lt_is_Some_2 raws (Z.to_nat j)) as [r Hr]; [lia|];
          destruct (Hnew j Hj (Z.to_nat j) r) as [K1 K2]; [lia|done|]; rewrite Z2Nat.id in K1, K2 by lia
         |left; destruct (Hold j Hj) as [e Ee]]).
      - exists (Z.to_nat j). split; [lia|done].
      - unfold NoDBPMPair_t in Ee. by rewrite Ep, Ee.
      - exists (Z.to_nat j), r. split_and!; [lia|done..].
      - unfold NoDBPMPair_t in Ee. by rewrite Ew, Ee. }
    split; [by eapply improves_trans|]. intros p' x (l & Hl & Hxl).
    apply elem_of_app in Hl as [Hl|[= -> ->]%list_elem_of_singleton]; [|by apply Hnew].
    eapply improves_known; [exact Hstep|]. apply (Hk p'). by exists l.
Qed.

(** ** Parsing from known positions *)

(** The lines that the positional map handles: no field is empty, or holds a
    delimiter, a quote, a backslash or a zero byte. *)
Record line_ok (o : copy_opts) raws : Prop := {
  lo_opts : FieldParser.opts_ok o;
  lo_delim : delimc o <> ch_backslash;
  lo_null : null_print o = [];
  lo_ne : raws <> [];
  lo_plain : Forall (plain o) raws;
  lo_quote : Forall (fun r => quotec o ∉ r) raws;
  lo_text : Forall (fun r => r <> [] /\ 0 ∉ r) raws;
  lo_len : fstart raws (length raws) < 2 ^ 16 }.

(** The fields that a step through the map covers are fields of the line. *)
Definition via_ok raws (e : NoDBReadViaPM_t) : Prop :=
  0 <= via_col e + via_backward e /\ via_backward e <= 0 <= via_forward e /\
  via_col e + via_forward e < Z.of_nat (length raws).

Lemma read_via_pm_spec o raws att vias : line_ok o raws -> att_sizes raws att ->
  (forall e, e ∈ vias -> via_ok raws e /\ known raws att (Z.to_nat (via_col e)) (Z.to_nat (via_col e))) ->
  exists att', read_via_pm o (join (delimc o) raws) (Z.of_nat (length vias), Some <$> vias) att = Ok att' /\
    improves raws att att' /\
    forall e, e ∈ vias -> known raws att' (Z.to_nat (via_col e + via_backward e)) (Z.to_nat (via_col e + via_forward e)).
Proof.
  intros Hl Hsz Hv. unfold read_via_pm. cbn [fst snd].
  destruct (for_nat_inv (fun k att' => improves raws att att' /\ forall i e, (i < k)%nat -> vias !! i = Some e ->
      known raws att' (Z.to_nat (via_col e + via_backward e)) (Z.to_nat (via_col e + via_forward e))) (length vias)
    (fun i att => e ← arr_get (Some <$> vias) i; NoDBGetNextTupleViaPM o (join (delimc o) raws) att e) att)
    as (att' & E & Hi & Hk).
  - split; [apply improves_refl|]. intros; lia.
  - intros k y Hk [Hi Hkn]. destruct (lookup_lt_is_Some_2 vias k Hk) as [e Ee].
    rewrite (arr_get_holds vias (Z.of_nat k) e) by (lia || by rewrite Nat2Z.id). cbn [mbind result_bind].
    destruct (Hv e ltac:(by eapply list_elem_of_lookup_2)) as [(V1 & V2 & V3) Hc].
    destruct (via_pm_spec o raws y (Z.to_nat (via_col e)) (Z.to_nat (via_forward e)) (Z.to_nat (- via_backward e)))
      as (y' & E & K & I); [apply Hl|apply Hl|apply Hl|by eapply improves_sizes|apply Hl|lia| |lia|lia|].
    { by eapply improves_known. }
    rewrite !Z2Nat.id, Z.opp_involutive in E by lia. destruct e as [ec ef eb]. cbn in *. rewrite E.
    exists y'. split; [done|]. split; [by eapply improves_trans|]. intros i e' Hik He'.
    destruct (decide (i = k)) as [->|Hne].
    + simplify_eq. cbn. replace (Z.to_nat (ec + eb)) with (Z.to_nat ec - Z.to_nat (- eb))%nat by lia.
      by replace (Z.to_nat (ec + ef)) with (Z.to_nat ec + Z.to_nat ef)%nat by lia.
    + eapply improves_known; [done|]. apply (Hkn i); [lia|done].
  - exists att'. split_and!; [done..|]. intros e [i Hi']%list_elem_of_lookup. apply (Hk i); [|done].
    by eapply lookup_lt_Some.
Qed.

(** ** Converting *)
Lemma c_string_of_app t rest : 0 ∉ t -> c_string_of (t ++ 0 :: rest) = t.
Proof.
  induction t as [|b t IH]; intros Hn; cbn [c_string_of app]; [done|].
  apply not_elem_of_cons in Hn as [Hb Hn]. rewrite (proj2 (Z.eqb_neq b 0)) by done. by rewrite IH.
Qed.

Lemma str_at_string buf off t : str_at buf off t -> 0 ∉ t -> c_string buf off = t.
Proof.
  intros (pre & post & -> & ->) Hn. unfold c_string. rewrite Nat2Z.id, drop_app_length. by apply c_string_of_app.
Qed.

Section convert.
Context (input : Z -> list Z -> result Z) (text : Z -> list Z) (val : Z -> NoDBDatum_t).

(** The input functions read the fields of the columns in [cols]. *)
Definition converts (cols : list Z) (nv : Z) : Prop :=
  forall x, x ∈ cols -> (exists d, input x (text x) = Ok d /\ val x = (d, 0)) /\ 0 <= x < nv.

Lemma GetValues_spec f cols v : converts cols (Z.of_nat (length v.1)) -> length v.2 = length v.1 ->
  (forall x, x ∈ cols -> exists off, arr_get (fieldvals f) x = Ok (Some off) /\ c_string (attribute_buf f) off = text x) ->
  exists v', NoDBGetValues input f v.1 v.2 (col_vector cols) = Ok v' /\ vimproves val v v' /\
    forall x, x ∈ cols -> vright val v' x.
Proof.
  intros Hc Hlen Hf. unfold NoDBGetValues.
  destruct (for_range_inv (fun i v' => vimproves val v v' /\ forall k x, cols !! k = Some x -> Z.of_nat k < i -> vright val v' x)
    0 (NoDBColVectorSize (col_vector cols)) (fun j '(values, nulls) =>
    i ← NoDBColVectorGet (col_vector cols) j; s ← arr_get (fieldvals f) i;
    match s with
    | None => values' ← arr_set values i 0; nulls' ← arr_set nulls i 1; Ok (values', nulls')
    | Some off => d ← input i (c_string (attribute_buf f) off);
        values' ← arr_set values i d; nulls' ← arr_set nulls i 0; Ok (values', nulls')
    end) v) as (v' & E & Hi & Hr).
  - cbn. lia.
  - split; [apply vimproves_refl|]. intros; lia.
  - cbn. intros i [y1 y2] Hi [Hy Hk]. destruct (col_read cols i Hi) as (x & Hx & Eg). unfold NoDBColVectorGet. cbn. rewrite Eg.
    cbn [mbind result_bind]. assert (Hin : x ∈ cols) by (by eapply list_elem_of_lookup_2).
    destruct (Hf x Hin) as (off & -> & Es). cbn [mbind result_bind]. rewrite Es. destruct (Hc x Hin) as [(d & -> & Ev) Hr].
    cbn [mbind result_bind]. pose proof (vi_len1 _ _ _ Hy) as L1. pose proof (vi_len2 _ _ _ Hy) as L2. cbn in L1, L2.
    destruct (vimproves_set val (y1, y2) x d 0 Ev) as (v1 & v2 & E1 & E2 & Hs & Hn); [cbn; lia|cbn; lia|].
    cbn [fst snd] in E1, E2. rewrite E1. cbn [mbind result_bind]. rewrite E2. cbn [mbind result_bind].
    eexists. split; [done|]. split; [by eapply vimproves_trans|]. intros k z Hz Hlt.
    destruct (decide (Z.of_nat k = i)) as [<-|Hne]; [rewrite Nat2Z.id in Hx; by simplify_eq|].
    eapply vimproves_right; [done|]. apply (Hk k); [done|lia].
  - exists v'. destruct v. split_and!; [done..|]. intros x [k Hk]%list_elem_of_lookup. apply (Hr k); [done|].
    cbn. apply lookup_lt_Some in Hk. lia.
Qed.
End convert.

(** The fields are still in the line, whatever became of the delimiters. *)
Definition fields_kept raws (line : list Z) : Prop :=
  forall k r j, raws !! k = Some r -> (j < length r)%nat -> line !! (Z.to_nat (fstart raws k) + j)%nat = r !! j.

Lemma fields_kept_join d raws rest : fields_kept raws (join d raws ++ rest).
Proof.
  intros k r j Hr Hj. pose proof (join_slice d raws k r Hr) as Hs. destruct (lookup_lt_is_Some_2 r j Hj) as [c Hc].
  rewrite Hc. rewrite <- Hs, lookup_take_lt, lookup_drop in Hc by done. by apply lookup_app_l_Some.
Qed.

Lemma field_end raws k r : raws !! k = Some r ->
  fstart raws (S k) = fstart raws k + Z.of_nat (length r) + 1 /\ 0 <= fstart raws k /\
  fstart raws (S k) <= fstart raws (length raws).
Proof.
  intros Hr. pose proof (lookup_lt_Some _ _ _ Hr) as Hk. destruct (fstart_mono raws k Hk) as (r' & Hr' & E).
  assert (r' = r) as -> by congruence. pose proof (fstart_le raws (S k) ltac:(lia)). pose proof (fstart_nonneg raws k). lia.
Qed.

Lemma fstart_lt raws k k' : (k < k' <= length raws)%nat -> fstart raws (S k) <= fstart raws k'.
Proof.
  intros Hk. pose proof (fstart_drop raws (S k) (k' - S k)) as H. pose proof (fstart_nonneg (drop (S k) raws) (k' - S k)).
  replace (S k + (k' - S k))%nat with k' in H by lia. lia.
Qed.

(** A terminator after a field leaves the fields alone. *)
Lemma fields_kept_end raws line k r : fields_kept raws line -> raws !! k = Some r ->
  fields_kept raws (<[Z.to_nat (fstart raws k + Z.of_nat (length r)) := 0]> line).
Proof.
  intros Hk Hr k' r' j Hr' Hj. rewrite list_lookup_insert_ne; [by apply Hk|].
  destruct (field_end raws k r Hr) as (E & H0 & _). destruct (field_end raws k' r' Hr') as (E' & H0' & _).
  pose proof (lookup_lt_Some _ _ _ Hr). pose proof (lookup_lt_Some _ _ _ Hr').
  destruct (Nat.lt_trichotomy k k') as [Hlt|[->|Hlt]].
  - pose proof (fstart_lt raws k k' ltac:(lia)). lia.
  - simplify_eq. lia.
  - pose proof (fstart_lt raws k' k ltac:(lia)). lia.
Qed.

Lemma field_string raws line k r : fields_kept raws line -> raws !! k = Some r -> 0 ∉ r ->
  line !! Z.to_nat (fstart raws k + Z.of_nat (length r)) = Some 0 -> c_string line (fstart raws k) = r.
Proof.
  intros Hk Hr Hn Hz. unfold c_string. destruct (field_end raws k r Hr) as (_ & H0 & _).
  rewrite <- (take_drop (length r) (drop (Z.to_nat (fstart raws k)) line)).
  assert (take (length r) (drop (Z.to_nat (fstart raws k)) line) = r) as ->.
  { apply list_eq. intros j. destruct (decide (j < length r)%nat) as [Hj|Hj].
    - rewrite lookup_take_lt, lookup_drop by done. by apply Hk.
    - rewrite lookup_take_ge, lookup_ge_None_2 by lia. done. }
  rewrite drop_drop. replace (Z.to_nat (fstart raws k) + length r)%nat
    with (Z.to_nat (fstart raws k + Z.of_nat (length r))) by lia. erewrite drop_S by done. by apply c_string_of_app.
Qed.

Definition field_of raws (x : Z) : list Z := default [] (raws !! Z.to_nat x).

Lemma GetValuesWithPM_spec o input val raws att cols v :
  line_ok o raws -> converts input (field_of raws) val cols (Z.of_nat (length v.1)) -> length v.2 = length v.1 ->
  (forall x, x ∈ cols -> 0 <= x < Z.of_nat (length raws) /\ known raws att (Z.to_nat x) (Z.to_nat x)) ->
  exists line v', NoDBGetValuesWithPM input (join (delimc o) raws ++ [0]) att v.1 v.2 (col_vector cols) = Ok (line, v'.1, v'.2) /\
    vimproves val v v' /\ (forall x, x ∈ cols -> vright val v' x).
Proof.
  intros Hl Hc Hlen Hf. unfold NoDBGetValuesWithPM.
  set (body := fun j '(line, values, nulls) => _).
  destruct (for_range_inv (fun i '(line, v1, v2) => length line = S (length (join (delimc o) raws)) /\ fields_kept raws line /\
      vimproves val v (v1, v2) /\ forall k x, cols !! k = Some x -> Z.of_nat k < i -> vright val (v1, v2) x)
    0 (NoDBColVectorSize (col_vector cols)) body (join (delimc o) raws ++ [0], v.1, v.2)) as ([[line v1] v2] & E & _ & _ & Hi & Hr).
  - cbn. lia.
  - split_and!; [rewrite length_app; simpl; lia|apply fields_kept_join|destruct v; apply vimproves_refl|]. intros; lia.
  - cbn. intros i [[line y1] y2] Hi (Hll & Hk & Hy & Hrt). destruct (col_read cols i Hi) as (x & Hx & Eg).
    unfold body, NoDBColVectorGet. cbn. rewrite Eg.
    cbn [mbind result_bind]. assert (Hin : x ∈ cols) by (by eapply list_elem_of_lookup_2).
    destruct (Hf x Hin) as [Hxr Hkn]. destruct (lookup_lt_is_Some_2 raws (Z.to_nat x)) as [r Hr]; [lia|].
    apply (known_pos raws att x (lo_len _ _ Hl) Hxr) in Hkn as [-> ->]. cbn [mbind result_bind]. unfold pos_of. rewrite Hr.
    cbn [fst snd default from_option id].
    destruct (proj1 (Forall_lookup _ _) (lo_text _ _ Hl) _ _ Hr) as [Hne Hz].
    destruct (proj1 (Forall_lookup _ _) (lo_plain _ _ Hl) _ _ Hr) as [_ Hb].
    assert (0 < Z.of_nat (length r)) as Hpos by (destruct r; [done|simpl; lia]).
    rewrite (proj2 (Z.ltb_lt _ _) Hpos). cbn [c_assert mbind result_bind].
    destruct (field_end raws _ r Hr) as (Ee & H0 & Hend). pose proof (length_join (delimc o) raws (lo_ne _ _ Hl)) as Hj.
    rewrite (proj2 (Z.ltb_ge _ _)) by lia.
    set (line' := <[Z.to_nat (fstart raws (Z.to_nat x) + Z.of_nat (length r)) := 0]> line).
    assert (Hk' : fields_kept raws line') by (by apply fields_kept_end).
    rewrite (field_string raws line' (Z.to_nat x) r Hk' Hr Hz)
      by (subst line'; rewrite list_lookup_insert_eq by lia; done).
    rewrite bool_decide_eq_false_2 by (intros ->; apply Hb; unfold slash_N, ch_backslash; set_solver).
    destruct (Hc x Hin) as [(d & Ed & Ev) Hxv]. unfold field_of in Ed. rewrite Hr in Ed. cbn in Ed. rewrite Ed.
    cbn [mbind result_bind]. pose proof (vi_len1 _ _ _ Hy) as L1. pose proof (vi_len2 _ _ _ Hy) as L2. cbn in L1, L2.
    destruct (vimproves_set val (y1, y2) x d 0 Ev) as (v1 & v2 & E1 & E2 & Hs & Hn); [cbn; lia|cbn; lia|].
    cbn [fst snd] in E1, E2. rewrite E1. cbn [mbind result_bind]. rewrite E2. cbn [mbind result_bind].
    eexists. split; [done|]. split_and!; [subst line'; by rewrite length_insert|done|by eapply vimproves_trans|].
    intros k z Hz' Hlt. destruct (decide (Z.of_nat k = i)) as [<-|Hnek]; [rewrite Nat2Z.id in Hx; by simplify_eq|].
    eapply vimproves_right; [done|]. apply (Hrt k); [done|lia].
  - exists line, (v1, v2). split_and!; [done..|]. intros x [k Hk]%list_elem_of_lookup. apply (Hr k); [done|].
    cbn. apply lookup_lt_Some in Hk. lia.
Qed.

(** Reading the whole line gives every field up to [lastfield] its position and
    its string. *)
Lemma read_attributes_spec env raws f : csv_mode (e_line env) = true -> line_ok (e_copy env) raws ->
  Z.of_nat (length raws) <= nfields env -> 0 <= lastfield env -> sizes_ok f (nfields env) ->
  arr_get (at_pointer (attributes f)) 0 = Ok 0 ->
  exists f', read_attributes env (join (delimc (e_copy env)) raws) f = Ok f' /\ same_lengths f f' /\
    forall x, 0 <= x < Z.of_nat (length raws) -> x <= lastfield env ->
      known raws (attributes f') (Z.to_nat x) (Z.to_nat x) /\
      exists off, arr_get (fieldvals f') x = Ok (Some off) /\ c_string (attribute_buf f') off = field_of raws x.
Proof.
  intros Hcsv Hl Hn Hlast Hs H0. unfold read_attributes. rewrite Hcsv.
  destruct (ReadAttributesCSV_spec (e_copy env) (nfields env) (lastfield env) (Plain <$> raws) f) as (f' & E & _ & Hf);
    [apply Hl| | |by rewrite length_fmap|done..|].
  { intros Hnil. apply fmap_nil_inv in Hnil. by apply (lo_ne _ _ Hl). }
  { apply Forall_fmap, Forall_forall. intros r Hr. split; [by apply (proj1 (Forall_forall _ _) (lo_plain _ _ Hl))|].
    by apply (proj1 (Forall_forall _ _) (lo_quote _ _ Hl)). }
  rewrite csv_raw_plain in E, Hf. exists f'. split_and!; [done|by eapply ReadAttributesCSV_lengths|].
  intros x Hx Hxl. destruct (lookup_lt_is_Some_2 raws (Z.to_nat x)) as [r Hr]; [lia|].
  destruct (Hf (Z.to_nat x) (Plain r)) as (F1 & _ & F2 & F3); [by rewrite list_lookup_fmap, Hr|lia|].
  rewrite Z2Nat.id in F1, F2, F3 by lia. destruct (proj1 (Forall_lookup _ _) (lo_text _ _ Hl) _ _ Hr) as [Hne Hz].
  split.
  - intros j r' Hj Hr'. assert (j = Z.to_nat x) as -> by lia. simplify_eq. by rewrite Z2Nat.id by lia.
  - cbn [csv_null csv_text] in F3. rewrite (lo_null _ _ Hl), bool_decide_eq_false_2 in F3 by done.
    destruct F3 as (off & Eo & Hstr). exists off. split; [done|]. unfold field_of. rewrite Hr. by apply str_at_string.
Qed.

(** ** What the caches hold *)

(** The caches of a type hold the value of [val] in the cells of [H], and have
    room for those of [R]; a cell is a cache, a column and a row. *)
Definition holds {V} (cd : codec V) (type : NoDBCacheType_t) w (H R : Z -> Z -> Z -> Prop) (val : Z -> Z -> V) : Prop :=
  forall p, (exists x row, H p x row \/ R p x row) -> exists c lay n m, w_caches w !! p = Some c /\ c_type c = type /\
    cache_rep cd c lay n m /\ (forall x row, H p x row -> m !! (x, row) = Some (val row x)) /\
    (forall x row, R p x row -> exists off, cell_ok cd c lay n x row off).

(** Only the buffers differ. *)
Definition bufs_only w w' : Prop :=
  NoDBCaches w' = NoDBCaches w /\ w_next w' = w_next w /\
  forall p, match w_caches w !! p, w_caches w' !! p with
            | Some c, Some c' => exists nr buf, c' = set_buf c nr buf
            | None, None => True
            | _, _ => False
            end.

Lemma bufs_only_refl w : bufs_only w w.
Proof.
  split_and!; [done..|]. intros p. destruct (w_caches w !! p) as [c|]; [|done]. exists (c_nRows c), (c_buf c). by destruct c.
Qed.

Lemma bufs_only_trans w1 w2 w3 : bufs_only w1 w2 -> bufs_only w2 w3 -> bufs_only w1 w3.
Proof.
  intros (A1 & A2 & A3) (B1 & B2 & B3). split_and!; [congruence..|]. intros p. specialize (A3 p). specialize (B3 p).
  destruct (w_caches w1 !! p) as [c1|], (w_caches w2 !! p) as [c2|], (w_caches w3 !! p) as [c3|]; try done.
  destruct A3 as (n1 & b1 & ->), B3 as (n2 & b2 & ->). by exists n2, b2.
Qed.

Lemma bufs_only_put w p c nr buf : w_caches w !! p = Some c -> bufs_only w (put_cache w p (set_buf c nr buf)).
Proof.
  intros Ec. split_and!; [done..|]. intros p'. cbn [put_cache w_caches]. destruct (decide (p' = p)) as [->|Hne].
  - rewrite lookup_insert_eq, Ec. by exists nr, buf.
  - rewrite lookup_insert_ne by done. destruct (bufs_only_refl w) as (_ & _ & H). apply H.
Qed.

Lemma holds_data {V} (cd : codec V) type w H R val cm row :
  holds cd type w H R val -> (forall p x, in_map cm p x -> H p x row) -> (forall p cols, (p, cols) ∈ cm -> cols <> []) ->
  forall p cols, (p, cols) ∈ cm -> exists c lay n m, w_caches w !! p = Some c /\ cache_rep cd c lay n m /\
    forall x, x ∈ cols -> m !! (x, row) = Some (val row x).
Proof.
  intros Hh Hc Hne p cols Hin. assert (Hx : forall x, x ∈ cols -> H p x row) by (intros x Hx; apply Hc; by exists cols).
  destruct cols as [|x0 cols]; [by apply Hne in Hin|].
  destruct (Hh p) as (c & lay & n & m & Ec & _ & Hrep & Hm & _); [exists x0, row; left; apply Hx; by left|].
  exists c, lay, n, m. split_and!; [done..|]. intros x ?. by apply Hm, Hx.
Qed.

Section write.
Context {V : Type} (cd : codec V) (type : NoDBCacheType_t) (row : Z) (val : Z -> Z -> V).
Context (set : NoDBCache_t -> NoDBColVector_t -> result NoDBCache_t) (ready : Z -> Prop).
(** [set] writes the row of some columns. *)
Hypothesis set_rep : forall c lay n m cols, cache_rep cd c lay n m ->
  (forall x, x ∈ cols -> ready x /\ exists off, cell_ok cd c lay n x row off) ->
  exists c' m', set c (col_vector cols) = Ok c' /\ (exists nr buf, c' = set_buf c nr buf) /\ cache_rep cd c' lay n m' /\
    (forall x, x ∈ cols -> m' !! (x, row) = Some (val row x)) /\
    (forall x row', x ∉ cols \/ row' <> row -> m' !! (x, row') = m !! (x, row')).

Definition gains cm (H : Z -> Z -> Z -> Prop) (p x r : Z) : Prop := H p x r \/ (r = row /\ in_map cm p x).

Lemma holds_other {V2} (cd2 : codec V2) type2 w p c nr buf H R val2 :
  type2 <> type -> w_caches w !! p = Some c -> c_type c = type -> holds cd2 type2 w H R val2 ->
  holds cd2 type2 (put_cache w p (set_buf c nr buf)) H R val2.
Proof.
  intros Ht Ec Et Hh p' Hp'. destruct (Hh p' Hp') as (c' & lay & n & m & Ec' & Et' & Hrep).
  exists c', lay, n, m. cbn [put_cache w_caches]. rewrite lookup_insert_ne by congruence. done.
Qed.

Lemma write_step w H R cm p cols : holds cd type w H R val -> cols <> [] ->
  (forall x, x ∈ cols -> ready x /\ R p x row) ->
  exists c nr buf, w_caches w !! p = Some c /\ c_type c = type /\ set c (col_vector cols) = Ok (set_buf c nr buf) /\
    holds cd type (put_cache w p (set_buf c nr buf)) (gains [(p, cols)] H) R val.
Proof.
  intros Hh Hne Hx. destruct cols as [|x0 cols]; [done|]. set (cs := x0 :: cols) in *.
  destruct (Hh p) as (c & lay & n & m & Ec & Et & Hrep & Hm & Hroom).
  { exists x0, row. right. apply Hx. by left. }
  destruct (set_rep c lay n m cs Hrep) as (c' & m' & Es & (nr & buf & ->) & Hrep' & Hnew & Hold).
  { intros x Hin. destruct (Hx x Hin) as [Hr HR]. split; [done|]. by apply Hroom. }
  exists c, nr, buf. split_and!; [done..|]. intros p' Hp'. cbn [put_cache w_caches].
  destruct (decide (p' = p)) as [->|Hne'].
  - exists (set_buf c nr buf), lay, n, m'. rewrite lookup_insert_eq. split_and!; [done|done|done| |].
    + intros x r [HH|[-> (l & [= ->]%list_elem_of_singleton & Hxl)]]; [|by apply Hnew].
      destruct (decide (x ∈ cs /\ r = row)) as [[Hxc ->]|Hnot]; [by apply Hnew|].
      rewrite Hold; [by apply Hm|]. destruct (decide (r = row)) as [->|]; [left|by right]. intros ?. by apply Hnot.
    + exact Hroom.
  - destruct (Hh p') as (c1 & lay1 & n1 & m1 & E1 & T1 & Hrep1 & Hm1 & Hr1).
    { destruct Hp' as (x & r & [[?|[_ (l & [= ?]%list_elem_of_singleton & _)]]|?]); [exists x, r; by left|done|exists x, r; by right]. }
    exists c1, lay1, n1, m1. rewrite lookup_insert_ne by done. split_and!; [done..| |done].
    intros x r [?|[_ (l & [= ?]%list_elem_of_singleton & _)]]; [by apply Hm1|done].
Qed.

(** Writing the row of the columns of a strategy. *)
Lemma write_spec w H R cm : holds cd type w H R val -> (forall p cols, (p, cols) ∈ cm -> cols <> []) ->
  (forall p x, in_map cm p x -> ready x /\ R p x row) ->
  exists w', each_cache (SetColsPerCache cm) (fun p cols w => c ← get_cache w p; c' ← set c cols; Ok (put_cache w p c')) w = Ok w' /\
    bufs_only w w' /\ holds cd type w' (gains cm H) R val /\
    forall V2 (cd2 : codec V2) type2 H2 R2 val2, type2 <> type -> holds cd2 type2 w H2 R2 val2 -> holds cd2 type2 w' H2 R2 val2.
Proof.
  intros Hh Hne Hx. apply (each_cache_map (fun dn w' => bufs_only w w' /\ holds cd type w' (gains dn H) R val /\
    forall V2 (cd2 : codec V2) type2 H2 R2 val2, type2 <> type -> holds cd2 type2 w H2 R2 val2 -> holds cd2 type2 w' H2 R2 val2)).
  - split_and!; [apply bufs_only_refl| |done]. intros p Hp. destruct (Hh p) as (c & lay & n & m & Ec & Et & Hrep & Hm & Hr).
    { destruct Hp as (x & r & [[?|[_ (l & Hl & _)]]|?]); [exists x, r; by left|by apply elem_of_nil in Hl|exists x, r; by right]. }
    exists c, lay, n, m. split_and!; [done..| |done]. intros x r [?|[_ (l & Hl & _)]]; [by apply Hm|by apply elem_of_nil in Hl].
  - intros dn p cols rest y Ecm (Hb & Hy & Ho). pose proof (elem_middle _ _ _ _ Ecm) as Hin.
    destruct (write_step y (gains dn H) R cm p cols Hy) as (c & nr & buf & Ec & Et & Es & Hn); [by eapply Hne| |].
    { intros x ?. apply Hx. by exists cols. }
    unfold get_cache. rewrite Ec. cbn [mbind result_bind]. rewrite Es. cbn [mbind result_bind].
    eexists. split; [done|]. split_and!.
    + eapply bufs_only_trans; [done|]. by apply bufs_only_put.
    + intros p' Hp'. destruct (Hn p') as (c1 & lay1 & n1 & m1 & E1 & T1 & Hrep1 & Hm1 & Hr1).
      { destruct Hp' as (x & r & [[?|[-> (l & Hl & Hxl)]]|?]); exists x; [exists r; left; left; by left| |exists r; by right].
        exists row. left. apply elem_of_app in Hl as [Hl|Hl]; [left; right|right]; (split; [done|by exists l]). }
      exists c1, lay1, n1, m1. split_and!; [done..| |done]. intros x r [?|[-> (l & Hl & Hxl)]]; apply Hm1.
      * left. by left.
      * apply elem_of_app in Hl as [Hl|Hl]; [left; right|right]; (split; [done|by exists l]).
    + intros V2 cd2 type2 H2 R2 val2 Ht H2'. apply holds_other; auto.
Qed.
End write.

Lemma write_values_spec s H R D HP RP pos cm :
  holds nodbdatum_codec NODB_DATA_CACHE (cs_world s) H R D ->
  holds pmpair_codec NODB_POSITIONS_CACHE (cs_world s) HP RP pos ->
  (forall p cols, (p, cols) ∈ cm -> cols <> []) ->
  (forall p x, in_map cm p x -> vright (D (cs_row s)) (cs_values s, cs_nulls s) x /\
     valid nodbdatum_codec (D (cs_row s) x) /\ R p x (cs_row s)) ->
  exists w', write_values s (SetColsPerCache cm) = Ok (set_world s w') /\ bufs_only (cs_world s) w' /\
    holds nodbdatum_codec NODB_DATA_CACHE w' (gains (cs_row s) cm H) R D /\
    holds pmpair_codec NODB_POSITIONS_CACHE w' HP RP pos.
Proof.
  intros Hd Hp Hne Hx. unfold write_values.
  destruct (write_spec nodbdatum_codec NODB_DATA_CACHE (cs_row s) D
    (fun c cols => NoDBCacheSetDatumVector c (cs_values s) (cs_nulls s) cols (cs_row s))
    (fun x => vright (D (cs_row s)) (cs_values s, cs_nulls s) x /\ valid nodbdatum_codec (D (cs_row s) x))) with (w := cs_world s) (H := H) (R := R) (cm := cm)
    as (w' & -> & Hb & Hh & Ho); [|done|done| |].
  - intros c lay n m cols Hrep Hcols. rewrite SetDatumVector_unfold.
    apply (vector_store_rep nodbdatum_codec c lay n m cols (cs_row s) _ (D (cs_row s)) Hrep). intros x Hin.
    destruct (Hcols x Hin) as [[[E1 E2] Hv] Hok]. cbn [fst snd] in E1, E2. rewrite E1, E2. cbn [mbind result_bind].
    split_and!; [by destruct (D (cs_row s) x)|done|done].
  - intros p x Hin. destruct (Hx p x Hin) as (H1 & H2 & H3). done.
  - cbn [mbind result_bind]. exists w'. split_and!; [done..|]. by apply Ho.
Qed.

Lemma write_positions_spec s H R D HP RP pos cm :
  holds nodbdatum_codec NODB_DATA_CACHE (cs_world s) H R D ->
  holds pmpair_codec NODB_POSITIONS_CACHE (cs_world s) HP RP pos ->
  (forall p cols, (p, cols) ∈ cm -> cols <> []) ->
  (forall p x, in_map cm p x -> arr_get (att_pairs (attributes (cs_fields s))) x = Ok (pos (cs_row s) x) /\
     valid pmpair_codec (pos (cs_row s) x) /\ RP p x (cs_row s)) ->
  exists w', write_positions s (SetColsPerCache cm) = Ok (set_world s w') /\ bufs_only (cs_world s) w' /\
    holds nodbdatum_codec NODB_DATA_CACHE w' H R D /\
    holds pmpair_codec NODB_POSITIONS_CACHE w' (gains (cs_row s) cm HP) RP pos.
Proof.
  intros Hd Hp Hne Hx. unfold write_positions.
  destruct (write_spec pmpair_codec NODB_POSITIONS_CACHE (cs_row s) pos
    (fun c cols => NoDBCacheSetPMPairVector c (att_pairs (attributes (cs_fields s))) cols (cs_row s))
    (fun x => arr_get (att_pairs (attributes (cs_fields s))) x = Ok (pos (cs_row s) x) /\ valid pmpair_codec (pos (cs_row s) x)))
    with (w := cs_world s) (H := HP) (R := RP) (cm := cm) as (w' & -> & Hb & Hh & Ho); [|done|done| |].
  - intros c lay n m cols Hrep Hcols.
    apply (vector_store_rep pmpair_codec c lay n m cols (cs_row s) _ (pos (cs_row s)) Hrep). intros x Hin.
    by destruct (Hcols x Hin) as [[E1 Hv] Hok].
  - intros p x Hin. destruct (Hx p x Hin) as (H1 & H2 & H3). done.
  - cbn [mbind result_bind]. exists w'. split_and!; [done..| |done]. by apply Ho.
Qed.

(** ** One half of a strategy *)
Definition ncols_of raws : Z := Z.of_nat (length raws).

(** The arrays of the scan state have an element per column (one more for the
    positions). *)
Record arrays_ok env s : Prop := {
  ao_values : Z.of_nat (length (cs_values s)) = nfields env;
  ao_nulls : Z.of_nat (length (cs_nulls s)) = nfields env;
  ao_fieldvals : Z.of_nat (length (fieldvals (cs_fields s))) = nfields env;
  ao_pointer : Z.of_nat (length (at_pointer (attributes (cs_fields s)))) = nfields env + 1;
  ao_width : length (at_width (attributes (cs_fields s))) = length (at_pointer (attributes (cs_fields s)));
  ao_zero : arr_get (at_pointer (attributes (cs_fields s))) 0 = Ok 0;
  ao_buf : 0 < buf_maxlen (cs_fields s) }.

(** What a half of a strategy needs at a row: what it reads from caches is
    there, the columns it parses from are there, and the columns [conv] to
    convert and those whose positions are wanted besides ([extra]) are fields of
    the line that the file or a step through the map yields. *)
Record half_ready env raws (row : Z) (H HP : Z -> Z -> Z -> Prop) (hm pmm : cache_map) (vias : list NoDBReadViaPM_t)
    (lf conv : list Z) (extra : Z -> Prop) : Prop := {
  hr_hit : forall p x, in_map hm p x -> H p x row /\ 0 <= x < ncols_of raws;
  hr_hit_ne : forall p cols, (p, cols) ∈ hm -> cols <> [];
  hr_pm : forall p x, in_map pmm p x -> HP p x row /\ 0 <= x < ncols_of raws;
  hr_pm_ne : forall p cols, (p, cols) ∈ pmm -> cols <> [];
  hr_via : forall e, e ∈ vias -> via_ok raws e /\ exists p, in_map pmm p (via_col e);
  hr_pos : forall x, x ∈ conv \/ extra x -> 0 <= x < ncols_of raws /\
    (lf <> [] -> x <= lastfield env) /\
    (lf = [] -> exists e, e ∈ vias /\ via_backward e <= x - via_col e <= via_forward e) }.

(** The row of the file: its fields, and the values they convert to. *)
Record row_ok env raws (d : Z -> NoDBDatum_t) : Prop := {
  ro_csv : csv_mode (e_line env) = true;
  ro_line : line_ok (e_copy env) raws;
  ro_ncols : ncols_of raws = nfields env;
  ro_last : 0 <= lastfield env < nfields env;
  ro_value : forall x, 0 <= x < nfields env -> x <= lastfield env ->
    exists v, input_function env x (field_of raws x) = Ok v /\ d x = (v, 0) }.

(** The state after a half: only the line, the fields and the values changed. *)
Record half_done env raws (d : Z -> NoDBDatum_t) s s' : Prop := {
  hd_world : cs_world s' = cs_world s;
  hd_mem : cs_mem s' = cs_mem s;
  hd_plan : cs_plan s' = cs_plan s;
  hd_exec : execNoDBPlan s' = execNoDBPlan s;
  hd_rows : relStats_rows s' = relStats_rows s;
  hd_scan : exists line, cs_scan s' = set_rd (cs_scan s) (set_line (rd (cs_scan s)) line);
  hd_arrays : arrays_ok env s';
  hd_values : vimproves d (cs_values s, cs_nulls s) (cs_values s', cs_nulls s');
  hd_known : forall x, 0 <= x < ncols_of raws -> x <= lastfield env ->
    known raws (attributes (cs_fields s)) (Z.to_nat x) (Z.to_nat x) ->
    known raws (attributes (cs_fields s')) (Z.to_nat x) (Z.to_nat x) }.

Lemma set_line_id s : set_rd (cs_scan s) (set_line (rd (cs_scan s)) (cs_line s)) = cs_scan s.
Proof. unfold set_rd, set_line, cs_line. by destruct (cs_scan s) as [[] ? ? ? ?]. Qed.

Lemma set_line_row s line : processed (set_rd (cs_scan s) (set_line (rd (cs_scan s)) line)) = cs_row s.
Proof. done. Qed.

Section half.
Context (env : exec_env) (raws : list (list Z)) (d : Z -> Z -> NoDBDatum_t) (s : cstate).
Context (H R HP RP : Z -> Z -> Z -> Prop) (pos : Z -> Z -> NoDBPMPair_t).
Hypothesis Hrow : row_ok env raws (d (cs_row s)).
Hypothesis Hpos : pos (cs_row s) = pos_of raws.
Hypothesis Harr : arrays_ok env s.
Hypothesis Hline : cs_line s = join (delimc (e_copy env)) raws.
Hypothesis Hdata : holds nodbdatum_codec NODB_DATA_CACHE (cs_world s) H R d.
Hypothesis Hpm : holds pmpair_codec NODB_POSITIONS_CACHE (cs_world s) HP RP pos.

Lemma arrays_sizes : att_sizes raws (attributes (cs_fields s)) /\ sizes_ok (cs_fields s) (nfields env).
Proof.
  destruct Harr as [A1 A2 A3 A4 A5 A6 A7]. pose proof (ro_ncols _ _ _ Hrow) as En. unfold ncols_of in En.
  unfold att_sizes, sizes_ok. lia.
Qed.

Lemma known_at x lo hi att : known raws att lo hi -> (lo <= Z.to_nat x <= hi)%nat -> known raws att (Z.to_nat x) (Z.to_nat x).
Proof. intros Hk Hx j r Hj. apply Hk. lia. Qed.

Lemma improves_arrays att2 : improves raws (attributes (cs_fields s)) att2 ->
  length (at_width att2) = length (at_pointer att2) /\ arr_get (at_pointer att2) 0 = Ok 0.
Proof.
  intros [P1 P2 P3 _]. destruct Harr as [_ _ _ _ A5 A6 _]. split; [congruence|].
  destruct (P3 0) as [->|(k & Ek & ->)]; [done|]. assert (k = 0%nat) as -> by lia. done.
Qed.

Lemma read_half_spec hm pmm vias lf convF conv extra :
  half_ready env raws (cs_row s) H HP hm pmm vias lf conv extra ->
  (lf <> [] -> forall x, x ∈ convF <-> x ∈ conv) -> (forall x, x ∈ conv -> x <= lastfield env) ->
  exists s', read_half env s (SetColsPerCache hm) (SetColsPerCache pmm) (Z.of_nat (length vias), Some <$> vias)
      (col_vector lf) (col_vector convF) (col_vector conv) = Ok s' /\
    half_done env raws (d (cs_row s)) s s' /\ (lf <> [] \/ conv = [] -> cs_line s' = cs_line s) /\
    (forall x, (exists p, in_map hm p x) \/ x ∈ conv -> vright (d (cs_row s)) (cs_values s', cs_nulls s') x) /\
    (forall x, x ∈ conv \/ extra x -> known raws (attributes (cs_fields s')) (Z.to_nat x) (Z.to_nat x)).
Proof.
  intros Hh Hcf Hlast. pose proof Hrow as [Hcsv Hl Hn Hlf Hval]. pose proof Harr as [A1 A2 A3 A4 A5 A6].
  assert (Hn' : Z.of_nat (length raws) = nfields env) by exact Hn.
  destruct arrays_sizes as [Hs1 Hs2]. unfold read_half. rewrite Hline.
  destruct (read_cached_spec (cs_world s) hm (cs_row s) (d (cs_row s)) (cs_values s, cs_nulls s)) as (v1 & -> & Hv1 & Hr1).
  { intros p cols Hin. apply (holds_data nodbdatum_codec _ _ _ _ _ hm (cs_row s) Hdata); [|apply Hh|done].
    intros p' x ?. by apply Hh. }
  { intros p x Hx. cbn [fst]. rewrite A1, <- Hn. by apply (hr_hit _ _ _ _ _ _ _ _ _ _ _ Hh p). }
  { intros p x Hx. cbn [snd]. rewrite A2, <- Hn. by apply (hr_hit _ _ _ _ _ _ _ _ _ _ _ Hh p). }
  cbn [mbind result_bind].
  destruct (read_positions_spec (cs_world s) pmm (cs_row s) raws (attributes (cs_fields s))) as (att1 & -> & Hi1 & Hk1);
    [apply Hl|done| | |done|].
  { rewrite <- Hpos. intros p cols Hin. apply (holds_data pmpair_codec _ _ _ _ _ pmm (cs_row s) Hpm); [|apply Hh|done].
    intros p' x ?. by apply Hh. }
  { intros p x Hx. by apply (hr_pm _ _ _ _ _ _ _ _ _ _ _ Hh p). }
  cbn [mbind result_bind].
  destruct (read_via_pm_spec (e_copy env) raws att1 vias Hl) as (att2 & -> & Hi2 & Hk2); [by eapply improves_sizes| |].
  { intros e He. destruct (hr_via _ _ _ _ _ _ _ _ _ _ _ Hh e He) as (Hv & p & Hp). split; [done|]. by apply (Hk1 p). }
  cbn [mbind result_bind]. pose proof (improves_trans _ _ _ _ Hi1 Hi2) as Hi.
  destruct (improves_arrays att2 Hi) as [B1 B2].
  pose proof (im_plen _ _ _ Hi) as P1. pose proof (vi_len1 _ _ _ Hv1) as L1. pose proof (vi_len2 _ _ _ Hv1) as L2. cbn in L1, L2.
  assert (Hconv : converts (input_function env) (field_of raws) (d (cs_row s)) conv (Z.of_nat (length v1.1))).
  { intros x Hx. destruct (hr_pos _ _ _ _ _ _ _ _ _ _ _ Hh x (or_introl Hx)) as [Hxr _]. split; [apply Hval; [lia|auto]|]. lia. }
  change (NoDBColVectorSize (col_vector lf)) with (Z.of_nat (length lf)).
  set (s1 := set_fields (set_values s v1) (set_attributes (cs_fields s) att2)).
  change (cs_line s1) with (cs_line s). rewrite Hline. change (cs_fields s1) with (set_attributes (cs_fields s) att2).
  change (cs_values s1) with v1.1. change (cs_nulls s1) with v1.2. change (cs_scan s1) with (cs_scan s).
  destruct (Z.ltb_spec 0 (Z.of_nat (length lf))) as [Hpl|Hpl].
  - assert (lf <> []) as Hnlf by (by intros ->).
    destruct (read_attributes_spec env raws (set_attributes (cs_fields s) att2)) as (f & -> & (SL0 & SL1 & SL2 & SL3) & Hf);
      [done|done|unfold ncols_of in Hn; lia|lia| |done|].
    { unfold sizes_ok, set_attributes in *. cbn in *. lia. }
    cbn [mbind result_bind]. cbn [set_attributes fieldvals attributes] in SL1, SL2, SL3.
    destruct (GetValues_spec (input_function env) (field_of raws) (d (cs_row s)) f convF v1) as (v2 & -> & Hv2 & Hr2).
    { intros x Hx. apply Hconv. by apply Hcf. } { congruence || lia. }
    { intros x Hx%Hcf; [|done]. destruct (hr_pos _ _ _ _ _ _ _ _ _ _ _ Hh x (or_introl Hx)) as (Hxr & Hxl & _).
      by apply Hf; [apply Hxr|apply Hxl]. }
    cbn [mbind result_bind]. eexists. split; [done|]. pose proof (vimproves_trans _ _ _ _ Hv1 Hv2) as Hv.
    pose proof (vi_len1 _ _ _ Hv) as M1. pose proof (vi_len2 _ _ _ Hv) as M2. cbn in M1, M2.
    split_and!.
    + split; cbn; try done.
      * exists (cs_line s). by rewrite set_line_id.
      * split; cbn; [lia|lia|lia|lia|congruence| |by apply SL0]. destruct (Hf 0) as [Hk0 _]; [lia|lia|].
        destruct raws as [|r0 raws']; [by destruct (lo_ne _ _ Hl)|]. by destruct (Hk0 0%nat r0) as [K _].
      * by destruct v2.
      * intros x Hx Hxl _. by apply Hf.
    + intros _. cbn. exact Hline.
    + cbn. intros x [[p Hp]|Hx]; destruct v2; [|by apply Hr2, Hcf].
      eapply vimproves_right; [exact Hv2|]. by apply (Hr1 p).
    + cbn. intros x Hx. destruct (hr_pos _ _ _ _ _ _ _ _ _ _ _ Hh x Hx) as (Hxr & Hxl & _). by apply Hf; [apply Hxr|apply Hxl].
  - assert (lf = []) as -> by (destruct lf; [done|simpl in Hpl; lia]).
    assert (Hk : forall x, x ∈ conv \/ extra x -> known raws att2 (Z.to_nat x) (Z.to_nat x)).
    { intros x Hx. destruct (hr_pos _ _ _ _ _ _ _ _ _ _ _ Hh x Hx) as (Hxr & _ & Hxv). destruct (Hxv eq_refl) as (e & He & Hb).
      destruct (hr_via _ _ _ _ _ _ _ _ _ _ _ Hh e He) as ((V1 & V2 & V3) & _).
      eapply known_at; [by apply (Hk2 e)|]. lia. }
    destruct (GetValuesWithPM_spec (e_copy env) (input_function env) (d (cs_row s)) raws att2 conv v1 Hl Hconv)
      as (line & v2 & E2 & Hv2 & Hr2); [lia| |].
    { intros x Hx. destruct (hr_pos _ _ _ _ _ _ _ _ _ _ _ Hh x (or_introl Hx)) as [Hxr _]. split; [done|]. apply Hk. by left. }
    rewrite E2. cbn [mbind result_bind]. eexists. split; [done|]. pose proof (vimproves_trans _ _ _ _ Hv1 Hv2) as Hv.
    pose proof (vi_len1 _ _ _ Hv) as M1. pose proof (vi_len2 _ _ _ Hv) as M2. cbn in M1, M2.
    split_and!.
    + split; cbn; try done.
      * by eexists.
      * split; cbn; [lia|lia|done|lia|done|done|done].
      * by destruct v2.
      * intros x Hx _ Hkn. by eapply improves_known.
    + intros [?| ->]; [done|]. cbn. cbn in E2. injection E2 as <- _ _. by rewrite take_app_length.
    + cbn. intros x [[p Hp]|Hx]; destruct v2; [|by apply Hr2].
      eapply vimproves_right; [exact Hv2|]. by apply (Hr1 p).
    + cbn. exact Hk.
Qed.
End half.
