(* ===== verification/PlanSound.v ===== *)
(** * Executing a plan is correct

    The proofs about [NoDBExecPlan], [NoDBExecPlanWithFilters] and
    [NoDBExecPlanCacheOnly] (Executor.v): the tuples of the rows of a strategy
    have the values of the file, the scan ends with the file, and the caches hold
    what was read, so that a later scan from the caches gives the same values. *)
From S2P Require Import Prelude Vectors Bitmap Relation Cache CacheData FieldParser PositionalMap LineReader TupleReader CacheSelect StrategyMatrix ScanStrategy StrategySound Executor ExecutorSound.

Implicit Types (w : world) (cm : cache_map) (raws : list (list Z)).

(** ** A whole row *)

(** The lists of a strategy: what is read before and after the filter, and what
    is written. *)
Record pre_lists (st : NoDBScanStrategy_t) (hm pmm : cache_map) (vias : list NoDBReadViaPM_t) (lf conv : list Z) : Prop := {
  pr_hit : readPreFilterWithCache st = SetColsPerCache hm;
  pr_pm : readPreFilterWithPM st = SetColsPerCache pmm;
  pr_via : readPreFilterViaPM st = (Z.of_nat (length vias), Some <$> vias);
  pr_file : readPreFilterWithFile st = col_vector lf;
  pr_conv : convertPreFilter st = col_vector conv }.

Record post_lists (st : NoDBScanStrategy_t) (hm pmm : cache_map) (vias : list NoDBReadViaPM_t) (lf conv : list Z) : Prop := {
  pl_hit : readPostFilterWithCache st = SetColsPerCache hm;
  pl_pm : readPostFilterWithPM st = SetColsPerCache pmm;
  pl_via : readPostFilterViaPM st = (Z.of_nat (length vias), Some <$> vias);
  pl_file : readPostFilterWithFile st = col_vector lf;
  pl_conv : convertPostFilter st = col_vector conv }.

(** No column is written by reference. *)
Record write_lists (st : NoDBScanStrategy_t) (vm pw : cache_map) : Prop := {
  pl_values : writeToCacheByValue st = SetColsPerCache vm;
  pl_refs : writeToCacheByRef st = SetColsPerCache [];
  pl_positions : writeToPM st = SetColsPerCache pw }.

(** The cells that a row writes: there is room for them, and their values are
    converted. *)
Record write_ready (row : Z) (R RP : Z -> Z -> Z -> Prop) (conv : list Z) (vm pw : cache_map) : Prop := {
  wr_values : forall p x, in_map vm p x -> x ∈ conv /\ R p x row;
  wr_values_ne : forall p cols, (p, cols) ∈ vm -> cols <> [];
  wr_positions : forall p x, in_map pw p x -> RP p x row;
  wr_positions_ne : forall p cols, (p, cols) ∈ pw -> cols <> [] }.

Lemma datum_valid env raws (d : Z -> NoDBDatum_t) x : row_ok env raws d -> (forall x, 0 <= (d x).1 < 2 ^ 64) ->
  0 <= x < nfields env -> x <= lastfield env -> valid nodbdatum_codec (d x).
Proof.
  intros Hr Hd Hx Hl. destruct (ro_value _ _ _ Hr x Hx Hl) as (v & _ & E). specialize (Hd x). rewrite E in *. cbn in *.
  split; [exact Hd|]. cbn. lia.
Qed.

Lemma pos_valid o raws x : line_ok o raws -> 0 <= x < ncols_of raws -> valid pmpair_codec (pos_of raws x).
Proof.
  intros Hl Hx. unfold ncols_of in Hx. destruct (lookup_lt_is_Some_2 raws (Z.to_nat x)) as [r Hr]; [lia|].
  destruct (field_end raws _ r Hr) as (E & H0 & Hle). pose proof (lo_len _ _ Hl). unfold pos_of. rewrite Hr. cbn. lia.
Qed.

Lemma write_refs_nil env s : write_refs env s (SetColsPerCache []) = Ok s.
Proof. unfold write_refs, each_cache. cbn. by destruct s. Qed.

Section row.
Context (env : exec_env) (raws : list (list Z)) (D : Z -> Z -> NoDBDatum_t) (pos : Z -> Z -> NoDBPMPair_t).
Context (H R HP RP : Z -> Z -> Z -> Prop).
Hypothesis Hd64 : forall row x, 0 <= (D row x).1 < 2 ^ 64.

Lemma write_back_spec s st conv vm pw :
  write_lists st vm pw -> row_ok env raws (D (cs_row s)) -> pos (cs_row s) = pos_of raws ->
  write_ready (cs_row s) R RP conv vm pw ->
  (forall x, x ∈ conv -> 0 <= x < ncols_of raws /\ x <= lastfield env) ->
  (forall p x, in_map pw p x -> 0 <= x < ncols_of raws) ->
  (forall x, x ∈ conv -> vright (D (cs_row s)) (cs_values s, cs_nulls s) x) ->
  (forall x, (exists p, in_map pw p x) -> known raws (attributes (cs_fields s)) (Z.to_nat x) (Z.to_nat x)) ->
  holds nodbdatum_codec NODB_DATA_CACHE (cs_world s) H R D ->
  holds pmpair_codec NODB_POSITIONS_CACHE (cs_world s) HP RP pos ->
  exists w', write_back env s st = Ok (set_world s w') /\ bufs_only (cs_world s) w' /\
    holds nodbdatum_codec NODB_DATA_CACHE w' (gains (cs_row s) vm H) R D /\
    holds pmpair_codec NODB_POSITIONS_CACHE w' (gains (cs_row s) pw HP) RP pos.
Proof.
  intros Hl Hrow Hpos Hw Hc Hx Hv Hk Hd Hp. unfold write_back. rewrite (pl_values _ _ _ Hl).
  pose proof (ro_ncols _ _ _ Hrow) as En.
  destruct (write_values_spec s H R D HP RP pos vm Hd Hp) as (w1 & -> & Hb1 & Hd1 & Hp1); [apply Hw| |].
  { intros p x Hin. destruct (wr_values _ _ _ _ _ _ Hw p x Hin) as [Hin' HR]. destruct (Hc x Hin') as [Hxr Hxl].
    split_and!; [by apply Hv| |done]. apply (datum_valid env raws _ _ Hrow); [done|lia|done]. }
  cbn [mbind result_bind]. rewrite (pl_refs _ _ _ Hl), write_refs_nil. cbn [mbind result_bind].
  rewrite (pl_positions _ _ _ Hl).
  destruct (write_positions_spec (set_world s w1) (gains (cs_row s) vm H) R D HP RP pos pw Hd1 Hp1)
    as (w2 & -> & Hb2 & Hd2 & Hp2); [apply Hw| |].
  { intros p x Hin. change (cs_row (set_world s w1)) with (cs_row s). rewrite Hpos.
    pose proof (Hx p x Hin) as Hxr. pose proof (Hk x (ex_intro _ p Hin)) as Hkn.
    apply known_pos in Hkn as [K1 K2]; [|apply (ro_line _ _ _ Hrow)|done].
    split_and!; [|by eapply pos_valid; [apply (ro_line _ _ _ Hrow)|]|by apply Hw].
    change (attributes (cs_fields (set_world s w1))) with (attributes (cs_fields s)).
    rewrite (att_pairs_get _ _ _ _ K1 K2). by destruct (pos_of raws x). }
  exists w2. split_and!; [by destruct s|by eapply bufs_only_trans|done|done].
Qed.

(** A row of [NoDBExecPlan], up to the step to the next row. *)
Lemma exec_row_spec s s1 hm pmm vias lf conv vm pw :
  read_file_line env s = Ok (s1, false) -> cs_line s1 = join (delimc (e_copy env)) raws ->
  post_lists (curStrategy (cs_plan s1)) hm pmm vias lf conv -> write_lists (curStrategy (cs_plan s1)) vm pw ->
  row_ok env raws (D (cs_row s1)) -> pos (cs_row s1) = pos_of raws -> arrays_ok env s1 ->
  half_ready env raws (cs_row s1) H HP hm pmm vias lf conv (fun x => exists p, in_map pw p x) ->
  (forall x, x ∈ conv -> x <= lastfield env) ->
  write_ready (cs_row s1) R RP conv vm pw ->
  holds nodbdatum_codec NODB_DATA_CACHE (cs_world s1) H R D ->
  holds pmpair_codec NODB_POSITIONS_CACHE (cs_world s1) HP RP pos ->
  exists s2 w', NoDBExecPlan env s = (s4 ← advance env (set_world s2 w'); Ok (s4, generateTupleTableSlot s4)) /\
    half_done env raws (D (cs_row s1)) s1 s2 /\ bufs_only (cs_world s1) w' /\
    holds nodbdatum_codec NODB_DATA_CACHE w' (gains (cs_row s1) vm H) R D /\
    holds pmpair_codec NODB_POSITIONS_CACHE w' (gains (cs_row s1) pw HP) RP pos /\
    (forall x, (exists p, in_map hm p x) \/ x ∈ conv -> vright (D (cs_row s1)) (cs_values s2, cs_nulls s2) x).
Proof.
  intros Er Hline Hl Hwl Hrow Hpos Harr Hh Hlast Hw Hd Hp. unfold NoDBExecPlan. rewrite Er. cbn [mbind result_bind].
  pose proof Hl as [-> -> -> -> ->].
  destruct (read_half_spec env raws D s1 H R HP RP pos Hrow Hpos Harr Hline Hd Hp hm pmm vias lf conv conv _ Hh)
    as (s2 & -> & Hdone & _ & Hv & Hk); [done|done|]. cbn [mbind result_bind].
  assert (Erow : cs_row s2 = cs_row s1) by (destruct (hd_scan _ _ _ _ _ Hdone) as [line E]; unfold cs_row; by rewrite E).
  destruct (write_back_spec s2 (curStrategy (cs_plan s1)) conv vm pw Hwl) as (w' & -> & Hb & Hd' & Hp');
    rewrite ?Erow, ?(hd_world _ _ _ _ _ Hdone); try done.
  - intros x Hx. split; [|by apply Hlast]. by apply (hr_pos _ _ _ _ _ _ _ _ _ _ _ Hh x (or_introl Hx)).
  - intros p x Hx. apply (hr_pos _ _ _ _ _ _ _ _ _ _ _ Hh x). right. by exists p.
  - intros x Hx. apply Hv. by right.
  - intros x Hx. apply Hk. by right.
  - cbn [mbind result_bind]. exists s2, w'. rewrite Erow, (hd_world _ _ _ _ _ Hdone) in *. split_and!; done.
Qed.

Lemma half_done_row d s s' : half_done env raws d s s' -> cs_row s' = cs_row s.
Proof. intros Hdone. destruct (hd_scan _ _ _ _ _ Hdone) as [line E]. unfold cs_row. by rewrite E. Qed.

Lemma half_done_trans d s s' s'' : half_done env raws d s s' -> half_done env raws d s' s'' -> half_done env raws d s s''.
Proof.
  intros [W M P X N (l & E) A V K] [W' M' P' X' N' (l' & E') A' V' K']. split; try congruence.
  - exists l'. by rewrite E', E.
  - by eapply vimproves_trans.
  - auto.
Qed.

(** A row of [NoDBExecPlanWithFilters], when the first half leaves the line
    alone: the filter is evaluated on the values of its columns, and the other
    columns are read when it holds. *)
Lemma filter_row_spec s s1 hm1 pmm1 vias1 lf1 conv1 hm2 pmm2 vias2 lf2 conv2 vm pw (Q : bool) :
  read_file_line env s = Ok (s1, false) -> cs_line s1 = join (delimc (e_copy env)) raws ->
  pre_lists (curStrategy (cs_plan s1)) hm1 pmm1 vias1 lf1 conv1 ->
  post_lists (curStrategy (cs_plan s1)) hm2 pmm2 vias2 lf2 conv2 -> write_lists (curStrategy (cs_plan s1)) vm pw ->
  row_ok env raws (D (cs_row s1)) -> pos (cs_row s1) = pos_of raws -> arrays_ok env s1 ->
  half_ready env raws (cs_row s1) H HP hm1 pmm1 vias1 lf1 conv1 (fun x => exists p, in_map pw p x) ->
  half_ready env raws (cs_row s1) H HP hm2 pmm2 vias2 lf2 conv2 (fun _ => False) ->
  lf1 <> [] \/ conv1 = [] -> (lf2 <> [] -> forall x, x ∈ lf2 <-> x ∈ conv2) ->
  (forall x, x ∈ conv1 \/ x ∈ conv2 \/ (exists p, in_map pw p x) -> x <= lastfield env) ->
  write_ready (cs_row s1) R RP conv1 vm pw ->
  (forall mem v, (forall x, (exists p, in_map hm1 p x) \/ x ∈ conv1 -> vright (D (cs_row s1)) v x) ->
     ExecQual env mem v.1 v.2 = Ok Q) ->
  holds nodbdatum_codec NODB_DATA_CACHE (cs_world s1) H R D ->
  holds pmpair_codec NODB_POSITIONS_CACHE (cs_world s1) HP RP pos ->
  exists s2 w', NoDBExecPlanWithFilters env s = (s5 ← advance env (set_world s2 w'); Ok (s5, generateTupleTableSlot s5, Q)) /\
    half_done env raws (D (cs_row s1)) s1 s2 /\ bufs_only (cs_world s1) w' /\
    holds nodbdatum_codec NODB_DATA_CACHE w' (gains (cs_row s1) vm H) R D /\
    holds pmpair_codec NODB_POSITIONS_CACHE w' (gains (cs_row s1) pw HP) RP pos /\
    (forall x, (exists p, in_map hm1 p x) \/ x ∈ conv1 -> vright (D (cs_row s1)) (cs_values s2, cs_nulls s2) x) /\
    (Q = true -> forall x, (exists p, in_map hm2 p x) \/ x ∈ conv2 -> vright (D (cs_row s1)) (cs_values s2, cs_nulls s2) x).
Proof.
  intros Er Hline Hl1 Hl2 Hwl Hrow Hpos Harr Hh1 Hh2 Hkeep Hcf Hlast Hw HQ Hd Hp.
  unfold NoDBExecPlanWithFilters. rewrite Er. cbn [mbind result_bind].
  pose proof Hl1 as [-> -> -> -> ->]. pose proof Hl2 as [-> -> -> -> ->].
  destruct (read_half_spec env raws D s1 H R HP RP pos Hrow Hpos Harr Hline Hd Hp hm1 pmm1 vias1 lf1 conv1 conv1 _ Hh1)
    as (s2 & -> & Hd1 & Hln & Hv1 & Hk1); [done|auto|]. cbn [mbind result_bind].
  pose proof (half_done_row _ _ _ Hd1) as Er1.
  pose proof (HQ (cs_mem s2) (cs_values s2, cs_nulls s2) Hv1) as Eq. cbn [fst snd] in Eq. rewrite Eq. cbn [mbind result_bind].
  assert (Hs3 : exists s3, (if Q then read_half env s2 (SetColsPerCache hm2) (SetColsPerCache pmm2)
        (Z.of_nat (length vias2), Some <$> vias2) (col_vector lf2) (col_vector lf2) (col_vector conv2) else Ok s2) = Ok s3 /\
      half_done env raws (D (cs_row s1)) s2 s3 /\
      (Q = true -> forall x, (exists p, in_map hm2 p x) \/ x ∈ conv2 -> vright (D (cs_row s1)) (cs_values s3, cs_nulls s3) x)).
  { destruct Q.
    - destruct (read_half_spec env raws D s2 H R HP RP pos) with (hm := hm2) (pmm := pmm2) (vias := vias2) (lf := lf2)
        (convF := lf2) (conv := conv2) (extra := fun _ : Z => False) as (s3 & -> & Hd2 & _ & Hv2 & _);
        rewrite ?Er1, ?(hd_world _ _ _ _ _ Hd1), ?Hln in *; try done; [apply Hd1|auto|]. by exists s3.
    - exists s2. split_and!; [done| |done]. destruct Hd1 as [W M P X N (l & E) A V K]. split; try done.
      + exists (cs_line s2). by rewrite set_line_id.
      + apply vimproves_refl. }
  destruct Hs3 as (s3 & -> & Hd2 & Hv2). cbn [mbind result_bind]. pose proof (half_done_trans _ _ _ _ Hd1 Hd2) as Hd12.
  pose proof (half_done_row _ _ _ Hd12) as Er3.
  assert (Hv3 : forall x, (exists p, in_map hm1 p x) \/ x ∈ conv1 -> vright (D (cs_row s1)) (cs_values s3, cs_nulls s3) x).
  { intros x Hx. eapply vimproves_right; [apply Hd2|]. by apply Hv1. }
  destruct (write_back_spec s3 (curStrategy (cs_plan s1)) conv1 vm pw Hwl) as (w' & -> & Hb & Hd' & Hp');
    rewrite ?Er3, ?(hd_world _ _ _ _ _ Hd12); try done.
  - intros x Hx. split; [|by apply Hlast; left]. by apply (hr_pos _ _ _ _ _ _ _ _ _ _ _ Hh1 x (or_introl Hx)).
  - intros p x Hx. apply (hr_pos _ _ _ _ _ _ _ _ _ _ _ Hh1 x). right. by exists p.
  - intros x Hx. apply Hv3. by right.
  - intros x Hx. apply Hd2; [apply (hr_pos _ _ _ _ _ _ _ _ _ _ _ Hh1 x); by right|auto|]. apply Hk1. by right.
  - cbn [mbind result_bind]. exists s3, w'. rewrite Er3, (hd_world _ _ _ _ _ Hd12) in *. split_and!; done.
Qed.
End row.

(** ** The rows of a strategy *)

(** What executing a plan needs of a way to read lines: [at_ sc k] says that the
    state [sc] is before line [k] of [lines]. *)
Class LineSource (read : scan -> result (scan * bool)) (lines : list (list Z)) (at_ : scan -> nat -> Prop) : Prop := {
  ls_row : forall sc k, at_ sc k -> processed sc = Z.of_nat k;
  ls_line : forall sc k line, at_ sc k -> lines !! k = Some line ->
    exists sc', read sc = Ok (sc', false) /\ line_buf (rd sc') = line /\ at_ (next_row sc') (S k);
  ls_end : forall sc, at_ sc (length lines) ->
    exists sc', read sc = Ok (sc', true) /\ processed sc' = processed sc /\ st_cache sc' = st_cache sc;
  ls_buf : forall sc k l, at_ sc k -> at_ (set_rd sc (set_line (rd sc) l)) k }.

Definition server_lines (env : exec_env) (lines : list (list Z)) : list (list Z) := server_line (e_conv env) <$> lines.

#[export] Instance file_source (env : exec_env) (lines : list (list Z)) (tail : list Z) (lay : layout) (n : Z)
    (HB : (4 < e_bufsize env)%nat) (Ho : LineReader.opts_ok (e_line env))
    (Hq : csv_mode (e_line env) = true -> quote (e_line env) <> ch_nl) (Hg : good_lines (e_line env) lines)
    (Ht : good_tail (e_line env) tail) :
  LineSource (NoDBGetNextTupleFromFile (e_bufsize env) (e_line env) (e_conv env)) (server_lines env lines)
    (first_at (e_bufsize env) (e_line env) lines tail lay n).
Proof.
  split.
  - intros sc k Hk. apply Hk.
  - intros sc k line Hk Hl. unfold server_lines in Hl. rewrite list_lookup_fmap in Hl.
    destruct (lines !! k) as [l|] eqn:El; [|done]. injection Hl as <-.
    by apply (FromFile_step _ _ _ HB Ho Hq lines tail lay n sc k l).
  - intros sc. unfold server_lines. rewrite length_fmap. intros Hk.
    destruct (FromFile_end _ _ (e_conv env) HB Ho lines tail lay n sc Ht Hk) as (sc' & E & _ & E1 & E2). by exists sc'.
  - intros sc k l [[[Hi Hse] He] Hr Hrow Hu Hc Hm]. by constructor.
Qed.

#[export] Instance recorded_source (env : exec_env) (lines : list (list Z)) (HS : Z.of_nat (e_bufsize env) + 1 < MAX_LOAD) :
  LineSource (NoDBGetNextTupleFromFileWithEOL (e_bufsize env) (e_line env) (e_conv env)) (server_lines env lines)
    (fun sc => second_pass (e_bufsize env) (e_line env) sc lines).
Proof.
  split.
  - intros sc k Hk. apply Hk.
  - intros sc k line Hk Hl. unfold server_lines in Hl. rewrite list_lookup_fmap in Hl.
    destruct (lines !! k) as [l|] eqn:El; [|done]. injection Hl as <-.
    destruct (WithEOL_line _ _ (e_conv env) HS sc lines k l Hk El) as (sc' & E & Hl' & _ & Hn). by exists sc'.
  - intros sc. unfold server_lines. rewrite length_fmap. intros Hk. by apply WithEOL_end with (lines := lines).
  - intros sc k l []. by constructor.
Qed.

Definition reader_of (env : exec_env) (rf : read_file) : scan -> result (scan * bool) :=
  match rf with
  | ReadFromFile => NoDBGetNextTupleFromFile (e_bufsize env) (e_line env) (e_conv env)
  | ReadFromFileWithEOL => NoDBGetNextTupleFromFileWithEOL (e_bufsize env) (e_line env) (e_conv env)
  end.

(** [n] tuples, one after the other. *)
Fixpoint exec_rows (exec : cstate -> result (cstate * option (arr Z * arr Z))) (n : nat) s
    : result (list (option (arr Z * arr Z)) * cstate) :=
  match n with
  | O => Ok ([], s)
  | S n' =>
      x ← exec s;
      y ← exec_rows exec n' x.1;
      Ok (x.2 :: y.1, y.2)
  end.

(** A scan: tuples until the end of the file. *)
Fixpoint exec_scan (exec : cstate -> result (cstate * option (arr Z * arr Z))) (fuel : nat) s
    : result (list (arr Z * arr Z) * cstate) :=
  match fuel with
  | O => Fail OutOfFuel
  | S fuel' =>
      x ← exec s;
      match x.2 with
      | None => Ok ([], x.1)
      | Some t => y ← exec_scan exec fuel' x.1; Ok (t :: y.1, y.2)
      end
  end.

Lemma holds_mono {V} (cd : codec V) type w (H H' R : Z -> Z -> Z -> Prop) val :
  holds cd type w H R val -> (forall p x row, H' p x row -> H p x row) -> holds cd type w H' R val.
Proof.
  intros Hh Hs p Hp. destruct (Hh p) as (c & lay & n & m & E & T & Hrep & Hm & Hr).
  { destruct Hp as (x & row & [?|?]); exists x, row; [left; auto|by right]. }
  exists c, lay, n, m. split_and!; [done..| |done]. intros x row ?. by apply Hm, Hs.
Qed.

(** The cells of [H], and those that the rows from [lo] to [hi] wrote. *)
Definition rows_written (lo hi : Z) cm (H : Z -> Z -> Z -> Prop) (p x row : Z) : Prop :=
  H p x row \/ (lo <= row < hi /\ in_map cm p x).

Section rows.
Context (env : exec_env) (rf : read_file) (lines : list (list Z)) (at_ : scan -> nat -> Prop).
Context {Hsrc : LineSource (reader_of env rf) lines at_}.
(** The fields of every row, and the values they convert to. *)
Context (rows : Z -> list (list Z)) (D : Z -> Z -> NoDBDatum_t).
Context (st : NoDBScanStrategy_t) (hm pmm : cache_map) (vias : list NoDBReadViaPM_t) (lf conv : list Z) (vm pw : cache_map).
Context (H R HP RP : Z -> Z -> Z -> Prop).
Abbreviation pos := (fun row => pos_of (rows row)).

(** A strategy that can be executed at a row. *)
Record ready_at (row : Z) : Prop := {
  ra_line : lines !! Z.to_nat row = Some (join (delimc (e_copy env)) (rows row));
  ra_row : row_ok env (rows row) (D row);
  ra_half : half_ready env (rows row) row H HP hm pmm vias lf conv (fun x => exists p, in_map pw p x);
  ra_write : write_ready row R RP conv vm pw }.

(** The state before row [k] of the strategy, which began at row [lo] and has
    [left] rows before the next decision. *)
Record run_at (lo k left : Z) s : Prop := {
  rn_at : at_ (cs_scan s) (Z.to_nat k);
  rn_k : 0 <= lo <= k;
  rn_arrays : arrays_ok env s;
  rn_plan : curStrategy (cs_plan s) = st;
  rn_read : readFile (cs_plan s) = rf;
  rn_left : nMin (cs_plan s) = left;
  rn_data : holds nodbdatum_codec NODB_DATA_CACHE (cs_world s) (rows_written lo k vm H) R D;
  rn_pm : holds pmpair_codec NODB_POSITIONS_CACHE (cs_world s) (rows_written lo k pw HP) RP pos }.

Definition right_tuple (row : Z) (t : option (arr Z * arr Z)) : Prop :=
  exists v, t = Some v /\ forall x, (exists p, in_map hm p x) \/ x ∈ conv -> vright (D row) v x.

Hypothesis Hd64 : forall row x, 0 <= (D row x).1 < 2 ^ 64.
Hypothesis Hlists : post_lists st hm pmm vias lf conv.
Hypothesis Hwrites : write_lists st vm pw.
Hypothesis Hlast : forall x, x ∈ conv -> x <= lastfield env.

Lemma read_step lo k left s line : run_at lo k left s -> lines !! Z.to_nat k = Some line ->
  exists sc', read_file_line env s = Ok (set_scan s sc', false) /\ line_buf (rd sc') = line /\ processed sc' = k /\
    at_ (next_row sc') (S (Z.to_nat k)) /\ arrays_ok env (set_scan s sc').
Proof.
  intros [Ha Hk Harr Hpl Hrf Hleft Hd Hp] Hline. destruct (ls_line _ _ _ Ha Hline) as (sc' & Eread & El & Hnext).
  pose proof (ls_row _ _ Hnext) as Erow. cbn [next_row processed] in Erow. exists sc'. split_and!; [|done|lia|done|].
  - unfold read_file_line. rewrite Hrf. unfold reader_of in Eread. destruct rf; rewrite Eread; done.
  - destruct Harr. by split.
Qed.

(** The step to the next row of the strategy. *)
Lemma advance_run lo k left s sc' s2 w' : run_at lo k left s -> 1 < left -> processed sc' = k ->
  at_ (next_row sc') (S (Z.to_nat k)) -> half_done env (rows k) (D k) (set_scan s sc') s2 ->
  holds nodbdatum_codec NODB_DATA_CACHE w' (gains k vm (rows_written lo k vm H)) R D ->
  holds pmpair_codec NODB_POSITIONS_CACHE w' (gains k pw (rows_written lo k pw HP)) RP pos ->
  exists s4, advance env (set_world s2 w') = Ok s4 /\ cs_values s4 = cs_values s2 /\ cs_nulls s4 = cs_nulls s2 /\
    run_at lo (k + 1) (left - 1) s4 /\ execNoDBPlan s4 = execNoDBPlan s /\ cs_world s4 = w'.
Proof.
  intros [Ha Hk Harr Hpl Hrf Hleft Hd Hp] Hlt Hrow Hnext [Ew Em Epl Eex Err (line & Esc) Harr' Hvi Hkn] Hd' Hp'.
  unfold advance. cbn [set_world cs_plan cs_scan]. rewrite Epl, Esc. cbn [set_scan cs_plan cs_scan].
  rewrite Hleft. rewrite (proj2 (Z.eqb_neq (left - 1) 0)) by lia.
  eexists. split; [done|]. split_and!; [done|done| |done|done]. split; cbn; try done.
  - replace (Z.to_nat (k + 1)) with (S (Z.to_nat k)) by lia. apply (ls_buf (next_row sc') _ line Hnext).
  - lia.
  - destruct Harr'. by split.
  - eapply holds_mono; [exact Hd'|]. intros p x r [?|[Hr Hin]]; [by left; left|].
    destruct (decide (r = k)) as [->|]; [by right|]. left. right. split; [lia|done].
  - eapply holds_mono; [exact Hp'|]. intros p x r [?|[Hr Hin]]; [by left; left|].
    destruct (decide (r = k)) as [->|]; [by right|]. left. right. split; [lia|done].
Qed.

Lemma half_ready_written lo k (rws : list (list Z)) row hm' pmm' vias' lf' conv' extra :
  half_ready env rws row H HP hm' pmm' vias' lf' conv' extra ->
  half_ready env rws row (rows_written lo k vm H) (rows_written lo k pw HP) hm' pmm' vias' lf' conv' extra.
Proof.
  intros [B1 B2 B3 B4 B5 B6]. split; try done.
  - intros p x Hx. destruct (B1 p x Hx). split; [by left|done].
  - intros p x Hx. destruct (B3 p x Hx). split; [by left|done].
Qed.

Lemma exec_step lo k left s : run_at lo k left s -> ready_at k -> 1 < left ->
  exists s' t, NoDBExecPlan env s = Ok (s', t) /\ right_tuple k t /\ run_at lo (k + 1) (left - 1) s' /\ execNoDBPlan s' = execNoDBPlan s /\
    bufs_only (cs_world s) (cs_world s').
Proof.
  intros Hrun [Hline Hrow Hh Hw] Hlt. destruct (read_step lo k left s _ Hrun Hline) as (sc' & Er & El & Erow & Hnext & Harr).
  pose proof Hrun as [_ _ _ Hpl _ _ Hd Hp]. assert (Erow1 : cs_row (set_scan s sc') = k) by done.
  destruct (exec_row_spec env (rows k) D pos (rows_written lo k vm H) R (rows_written lo k pw HP) RP Hd64 s (set_scan s sc')
    hm pmm vias lf conv vm pw Er) as (s2 & w' & E & Hdone & Hb & Hd' & Hp' & Hv);
    rewrite ?Erow1; try done; [cbn; by rewrite Hpl..|by apply half_ready_written|].
  rewrite Erow1 in *. destruct (advance_run lo k left s sc' s2 w') as (s4 & E4 & Ev & En & Hrun' & Ex & Ew); try done.
  rewrite E, E4. cbn [mbind result_bind]. eexists _, _. split_and!; [done| |done|done|by rewrite Ew].
  eexists. split; [done|]. by rewrite Ev, En.
Qed.

Lemma exec_end lo left s : run_at lo (Z.of_nat (length lines)) left s ->
  exists s', NoDBExecPlan env s = Ok (s', None) /\ cs_world s' = cs_world s /\ cs_plan s' = cs_plan s /\
    cs_row s' = cs_row s /\ cs_eol s' = cs_eol s.
Proof.
  intros [Ha _ _ _ Hrf _ _ _]. rewrite Nat2Z.id in Ha. destruct (ls_end _ Ha) as (sc' & E & E1 & E2).
  unfold NoDBExecPlan, read_file_line. rewrite Hrf. unfold reader_of in E. destruct rf; rewrite E; by eexists.
Qed.

(** The rows from [k] to the end of the file. *)
Lemma exec_scan_spec (n : nat) : forall lo k left s, run_at lo k left s -> k + Z.of_nat n = Z.of_nat (length lines) ->
  Z.of_nat n < left -> (forall row, k <= row < Z.of_nat (length lines) -> ready_at row) ->
  exists ts s', exec_scan (NoDBExecPlan env) (S n) s = Ok (ts, s') /\ length ts = n /\
    (forall i t, ts !! i = Some t -> right_tuple (k + Z.of_nat i) (Some t)) /\
    holds nodbdatum_codec NODB_DATA_CACHE (cs_world s') (rows_written lo (Z.of_nat (length lines)) vm H) R D /\
    holds pmpair_codec NODB_POSITIONS_CACHE (cs_world s') (rows_written lo (Z.of_nat (length lines)) pw HP) RP pos.
Proof.
  induction n as [|n IH]; intros lo k left s Hs Hk Hn Hr; cbn [exec_scan].
  - assert (k = Z.of_nat (length lines)) as -> by lia. destruct (exec_end lo left s Hs) as (s' & -> & Ew & _).
    cbn [mbind result_bind fst snd]. exists [], s'. rewrite Ew. destruct Hs. split_and!; done.
  - destruct (exec_step lo k left s Hs) as (s1 & t & -> & Ht & Hs1 & _); [apply Hr; lia|lia|]. cbn [mbind result_bind fst snd].
    pose proof Ht as (v & -> & _).
    destruct (IH lo (k + 1) (left - 1) s1 Hs1) as (ts & s' & E & Hl & Hts & Hd & Hp); [lia|lia|intros; apply Hr; lia|].
    cbn [exec_scan] in E. rewrite E. cbn [mbind result_bind fst snd]. exists (v :: ts), s'. split_and!; [done|simpl; lia| |done|done].
    intros [|i] t' Hi; cbn in Hi; [simplify_eq; by rewrite Z.add_0_r|].
    replace (k + Z.of_nat (S i)) with (k + 1 + Z.of_nat i) by lia. by apply Hts.
Qed.
End rows.

(** ** Scans with a filter *)

(** The tuples that [ExecScan] returns, one call after the other. *)
Fixpoint exec_query (env : exec_env) (fuel : nat) (node : @ScanState unit) : result (list (arr Z * arr Z) * @ScanState unit) :=
  match fuel with
  | O => Fail OutOfFuel
  | S fuel' =>
      x ← ExecScan env (fun _ _ => Fail NullDeref) fuel node;
      match x.2 with
      | None => Ok ([], x.1)
      | Some t => y ← exec_query env fuel' x.1; Ok (t :: y.1, y.2)
      end
  end.

(** A scan node without a projection. *)
Definition plain_node s : @ScanState unit := {| sn_cstate := s; ps_TupFromTlist := false; ps_ProjInfo := None |}.

Section filtered.
Context (env : exec_env) (rf : read_file) (lines : list (list Z)) (at_ : scan -> nat -> Prop).
Context {Hsrc : LineSource (reader_of env rf) lines at_}.
Context (rows : Z -> list (list Z)) (D : Z -> Z -> NoDBDatum_t) (Q : Z -> bool).
Context (st : NoDBScanStrategy_t) (hm1 pmm1 : cache_map) (vias1 : list NoDBReadViaPM_t) (lf1 conv1 : list Z).
Context (hm2 pmm2 : cache_map) (vias2 : list NoDBReadViaPM_t) (lf2 conv2 : list Z) (vm pw : cache_map).
Context (H R HP RP : Z -> Z -> Z -> Prop).
Abbreviation pos := (fun row => pos_of (rows row)).
Abbreviation run := (run_at env rf at_ rows D st vm pw H R HP RP).

Record filter_ready_at (row : Z) : Prop := {
  fr_line : lines !! Z.to_nat row = Some (join (delimc (e_copy env)) (rows row));
  fr_row : row_ok env (rows row) (D row);
  fr_pre : half_ready env (rows row) row H HP hm1 pmm1 vias1 lf1 conv1 (fun x => exists p, in_map pw p x);
  fr_post : half_ready env (rows row) row H HP hm2 pmm2 vias2 lf2 conv2 (fun _ => False);
  fr_write : write_ready row R RP conv1 vm pw }.

(** The columns of the query. *)
Definition wanted (x : Z) : Prop :=
  ((exists p, in_map hm1 p x) \/ x ∈ conv1) \/ ((exists p, in_map hm2 p x) \/ x ∈ conv2).

(** [ExecQual] depends on the columns of the filter only, and is [Q] of the row. *)
Definition qual_is : Prop := forall row mem v,
  (forall x, (exists p, in_map hm1 p x) \/ x ∈ conv1 -> vright (D row) v x) -> ExecQual env mem v.1 v.2 = Ok (Q row).

Record filter_strategy : Prop := {
  fs_pre : pre_lists st hm1 pmm1 vias1 lf1 conv1;
  fs_post : post_lists st hm2 pmm2 vias2 lf2 conv2;
  fs_write : write_lists st vm pw;
  fs_keep : lf1 <> [] \/ conv1 = [];
  fs_file : lf2 <> [] -> forall x, x ∈ lf2 <-> x ∈ conv2;
  fs_last : forall x, x ∈ conv1 \/ x ∈ conv2 \/ (exists p, in_map pw p x) -> x <= lastfield env }.

Hypothesis Hd64 : forall row x, 0 <= (D row x).1 < 2 ^ 64.
Hypothesis Hst : filter_strategy.
Hypothesis HQ : qual_is.
Hypothesis Hqual : has_qual env = true.

Lemma filter_step lo k left s : run lo k left s -> filter_ready_at k -> 1 < left ->
  exists s' t, NoDBExecPlanWithFilters env s = Ok (s', Some t, Q k) /\
    (Q k = true -> forall x, wanted x -> vright (D k) t x) /\ run lo (k + 1) (left - 1) s' /\
    execNoDBPlan s' = execNoDBPlan s.
Proof.
  intros Hrun [Hline Hrow Hh1 Hh2 Hw] Hlt. destruct Hst as [F1 F2 F3 F4 F5 F6].
  destruct (read_step env rf lines at_ rows D st vm pw H R HP RP lo k left s _ Hrun Hline) as (sc' & Er & El & Erow & Hnext & Harr).
  pose proof Hrun as [_ _ _ Hpl _ _ Hd Hp]. assert (Erow1 : cs_row (set_scan s sc') = k) by done.
  destruct (filter_row_spec env (rows k) D pos (rows_written lo k vm H) R (rows_written lo k pw HP) RP Hd64 s (set_scan s sc')
    hm1 pmm1 vias1 lf1 conv1 hm2 pmm2 vias2 lf2 conv2 vm pw (Q k) Er) as (s2 & w' & E & Hdone & Hb & Hd' & Hp' & Hv1 & Hv2);
    rewrite ?Erow1; try done; [cbn; by rewrite Hpl..|by apply half_ready_written|by apply half_ready_written|by apply (HQ k)|].
  rewrite Erow1 in *.
  destruct (advance_run env rf lines at_ rows D st vm pw H R HP RP lo k left s sc' s2 w') as (s4 & E4 & Ev & En & Hrun' & Ex & _); try done.
  rewrite E, E4. cbn [mbind result_bind]. eexists _, _. split_and!; [done| |done|done].
  intros Hq x [Hx|Hx]; rewrite Ev, En; [by apply Hv1|by apply Hv2].
Qed.

(** [ExecScan] from row [k]: the next row that passes, or the end of the file. *)
Lemma scan_loop_spec (n : nat) : forall fuel lo k left s, run lo k left s -> execNoDBPlan s = ExecPlanWithFilters ->
  k + Z.of_nat n = Z.of_nat (length lines) -> Z.of_nat n < left -> (n < fuel)%nat ->
  (forall row, k <= row < Z.of_nat (length lines) -> filter_ready_at row) ->
  exists s' t, scan_loop env (fun _ _ => Fail NullDeref) fuel s None = Ok (plain_node s', t) /\
    match filter (fun row => Q row = true) (seqZ k (Z.of_nat n)) with
    | [] => t = None
    | row :: rest => exists v, t = Some v /\ (forall x, wanted x -> vright (D row) v x) /\ k <= row < Z.of_nat (length lines) /\
        run lo (row + 1) (left - (row + 1 - k)) s' /\ execNoDBPlan s' = ExecPlanWithFilters /\
        rest = filter (fun row => Q row = true) (seqZ (row + 1) (Z.of_nat (length lines) - (row + 1)))
    end.
Proof.
  induction n as [|n IH]; intros fuel lo k left s Hs Hx Hk Hn Hf Hr; (destruct fuel as [|fuel]; [lia|]);
    cbn [scan_loop]; unfold run_plan; rewrite Hx.
  - assert (k = Z.of_nat (length lines)) as -> by lia. destruct Hs as [Ha _ _ _ Hrf _ _ _].
    rewrite Nat2Z.id in Ha. destruct (ls_end _ Ha) as (sc' & E & _).
    unfold NoDBExecPlanWithFilters, read_file_line. rewrite Hrf. unfold reader_of in E. destruct rf; rewrite E; by eexists _, _.
  - destruct (filter_step lo k left s Hs) as (s1 & t & -> & Ht & Hs1 & Ex); [apply Hr; lia|lia|]. cbn [mbind result_bind].
    rewrite seqZ_cons by lia. rewrite filter_cons. destruct (Q k) eqn:Eq.
    + rewrite decide_True by done. eexists _, _. split; [done|]. exists t. split_and!; [done|by apply Ht|lia|lia| |congruence|].
      * by replace (left - (k + 1 - k)) with (left - 1) by lia.
      * f_equal. f_equal; lia.
    + rewrite decide_False by done. replace (Z.succ k) with (k + 1) by lia. replace (Z.pred (Z.of_nat (S n))) with (Z.of_nat n) by lia.
      destruct (IH fuel lo (k + 1) (left - 1) s1 Hs1) as (s' & t' & -> & Hm); [congruence|lia|lia|lia|intros; apply Hr; lia|].
      eexists _, _. split; [done|]. destruct (filter _ _) as [|row rest]; [done|].
      destruct Hm as (v & -> & Hv & Hrow & Hrun & Ex' & Erest). exists v. split_and!; [done|done|lia|lia| |done|done].
      by replace (left - (row + 1 - k)) with (left - 1 - (row + 1 - (k + 1))) by lia.
Qed.

Lemma exec_query_spec (n : nat) : forall fuel lo k left s, run lo k left s -> execNoDBPlan s = ExecPlanWithFilters ->
  k + Z.of_nat n = Z.of_nat (length lines) -> Z.of_nat n < left -> (n < fuel)%nat ->
  (forall row, k <= row < Z.of_nat (length lines) -> filter_ready_at row) ->
  exists ts node, exec_query env fuel (plain_node s) = Ok (ts, node) /\
    Forall2 (fun row t => forall x, wanted x -> vright (D row) t x)
      (filter (fun row => Q row = true) (seqZ k (Z.of_nat n))) ts.
Proof.
  induction n as [n IH] using lt_wf_ind; intros fuel lo k left s Hs Hx Hk Hn Hf Hr. destruct fuel as [|fuel]; [lia|].
  destruct (scan_loop_spec n (S fuel) lo k left s Hs Hx Hk Hn ltac:(lia) Hr) as (s' & t & E & Hm).
  cbn [exec_query]. unfold ExecScan. cbn [ps_ProjInfo plain_node sn_cstate ps_TupFromTlist]. rewrite Hqual, E.
  cbn [mbind result_bind fst snd]. destruct (filter _ (seqZ k _)) as [|row rest].
  - rewrite Hm. eexists _, _. split; [done|]. constructor.
  - destruct Hm as (v & -> & Hv & Hrow & Hrun & Ex' & Erest).
    destruct (IH (Z.to_nat (Z.of_nat (length lines) - (row + 1))) ltac:(lia) fuel lo (row + 1) _ s' Hrun Ex')
      as (ts & node & -> & Hts); [lia|lia|lia|intros; apply Hr; lia|].
    cbn [mbind result_bind fst snd]. eexists _, _. split; [done|]. constructor; [done|].
    rewrite Z2Nat.id in Hts by lia. by rewrite Erest.
Qed.
End filtered.

(** ** Scans of the caches *)
Section cached.
Context (env : exec_env) (D : Z -> Z -> NoDBDatum_t) (hm : cache_map) (H R : Z -> Z -> Z -> Prop).
Hypothesis Hne : forall p cols, (p, cols) ∈ hm -> cols <> [].
Hypothesis Hcols : cols_in hm (nfields env).

Record cached_at (k left : Z) s : Prop := {
  ca_row : cs_row s = k;
  ca_left : nMin (cs_plan s) = left;
  ca_plan : readPostFilterWithCache (curStrategy (cs_plan s)) = SetColsPerCache hm;
  ca_values : Z.of_nat (length (cs_values s)) = nfields env;
  ca_nulls : Z.of_nat (length (cs_nulls s)) = nfields env }.

Lemma cached_step k left s : cached_at k left s -> holds nodbdatum_codec NODB_DATA_CACHE (cs_world s) H R D -> 1 < left ->
  (forall p x, in_map hm p x -> H p x k) ->
  exists s' t, NoDBExecPlanCacheOnly env s = Ok (s', Some t) /\
    (forall p x, in_map hm p x -> vright (D k) t x) /\ cached_at (k + 1) (left - 1) s' /\ cs_world s' = cs_world s.
Proof.
  intros [<- Hl Hpl Hv Hn] Hd Hlt Hh. unfold NoDBExecPlanCacheOnly. rewrite Hpl.
  destruct (read_cached_spec (cs_world s) hm (cs_row s) (D (cs_row s)) (cs_values s, cs_nulls s)) as (v & -> & Hi & Hr).
  { intros p cols Hin. by apply (holds_data nodbdatum_codec _ _ _ _ _ hm (cs_row s) Hd). }
  { cbn [fst]. by rewrite Hv. } { cbn [snd]. by rewrite Hn. }
  cbn [mbind result_bind]. unfold advance. cbn [set_values cs_plan]. rewrite Hl, (proj2 (Z.eqb_neq (left - 1) 0)) by lia.
  cbn [mbind result_bind]. eexists _, _. split; [done|]. pose proof (vi_len1 _ _ _ Hi). pose proof (vi_len2 _ _ _ Hi). cbn in *.
  split; [by destruct v|]. split; [|done]. split; cbn; try done; lia.
Qed.

Lemma cached_rows_spec (n : nat) : forall k left s, cached_at k left s ->
  holds nodbdatum_codec NODB_DATA_CACHE (cs_world s) H R D -> Z.of_nat n < left ->
  (forall p x row, in_map hm p x -> k <= row < k + Z.of_nat n -> H p x row) ->
  exists ts s', exec_rows (NoDBExecPlanCacheOnly env) n s = Ok (ts, s') /\ length ts = n /\
    forall i t, ts !! i = Some t -> exists v, t = Some v /\ forall p x, in_map hm p x -> vright (D (k + Z.of_nat i)) v x.
Proof.
  induction n as [|n IH]; intros k left s Hs Hd Hn Hh; cbn [exec_rows]; [by exists [], s|].
  destruct (cached_step k left s Hs Hd) as (s1 & t & -> & Ht & Hs1 & Ew); [lia|intros p x Hx; apply Hh; [done|lia]|].
  cbn [mbind result_bind fst snd].
  destruct (IH (k + 1) (left - 1) s1 Hs1) as (ts & s' & -> & Hl & Hts); [by rewrite Ew|lia|intros; apply Hh; [done|lia]|].
  cbn [mbind result_bind fst snd]. exists (Some t :: ts), s'. split_and!; [done|simpl; lia|].
  intros [|i] t' Hi; cbn in Hi; [simplify_eq; rewrite Z.add_0_r; by exists t|].
  replace (k + Z.of_nat (S i)) with (k + 1 + Z.of_nat i) by lia. by apply Hts.
Qed.
End cached.

Definition with_qual (env : exec_env) (q : objects -> arr Z -> arr Z -> result bool) : exec_env :=
  {| e_copy := e_copy env; e_line := e_line env; e_conv := e_conv env; e_bufsize := e_bufsize env;
     nfields := nfields env; lastfield := lastfield env; attrlen := attrlen env; has_qual := has_qual env;
     readFilterAtts := readFilterAtts env; input_function := input_function env;
     pg_verifymbstr := pg_verifymbstr env; datumGetSize := datumGetSize env; ExecQual := q |}.

(** * Properties *)

(** C8 A scan with [NoDBExecPlan], from whatever source of lines, inside one
    strategy (fewer lines than the strategy has rows) that writes only columns
    passed by value, over CSV lines of less than 2^16 bytes whose fields are not
    empty and hold no delimiter, quote, backslash or zero byte, returns one tuple
    for every line and ends. Every column that the strategy takes from a cache,
    parses from a known position or reads from the line has the value of the file,
    and the caches then hold the values and the positions of every row that the
    strategy has to write, besides what they held. *)
Theorem NoDBExecPlan_scan_correct (env : exec_env) (rf : read_file) (lines : list (list Z)) (at_ : scan -> nat -> Prop)
    (rows : Z -> list (list Z)) (D : Z -> Z -> NoDBDatum_t) (st : NoDBScanStrategy_t) (hm pmm : cache_map)
    (vias : list NoDBReadViaPM_t) (lf conv : list Z) (vm pw : cache_map) (H R HP RP : Z -> Z -> Z -> Prop) (left : Z) s :
  LineSource (reader_of env rf) lines at_ -> (forall row x, 0 <= (D row x).1 < 2 ^ 64) ->
  post_lists st hm pmm vias lf conv -> write_lists st vm pw -> (forall x, x ∈ conv -> x <= lastfield env) ->
  (forall row, 0 <= row < Z.of_nat (length lines) ->
     ready_at env lines rows D hm pmm vias lf conv vm pw H R HP RP row) ->
  run_at env rf at_ rows D st vm pw H R HP RP 0 0 left s -> Z.of_nat (length lines) < left ->
  exists ts s', exec_scan (NoDBExecPlan env) (S (length lines)) s = Ok (ts, s') /\ length ts = length lines /\
    (forall i t, ts !! i = Some t ->
       forall x, (exists p, in_map hm p x) \/ x ∈ conv -> vright (D (Z.of_nat i)) t x) /\
    holds nodbdatum_codec NODB_DATA_CACHE (cs_world s') (rows_written 0 (Z.of_nat (length lines)) vm H) R D /\
    holds pmpair_codec NODB_POSITIONS_CACHE (cs_world s') (rows_written 0 (Z.of_nat (length lines)) pw HP) RP
      (fun row => pos_of (rows row)).
Proof.
  intros Hsrc Hd64 Hl Hw Hlast Hr Hs Hleft.
  destruct (exec_scan_spec env rf lines at_ rows D st hm pmm vias lf conv vm pw H R HP RP Hd64 Hl Hw Hlast
    (length lines) 0 0 left s Hs) as (ts & s' & E & Hlen & Hts & Hd & Hp); [lia|lia|intros; apply Hr; lia|].
  exists ts, s'. split_and!; [done|done| |done|done]. intros i t Ht. destruct (Hts i t Ht) as (v & [= ->] & Hv). exact Hv.
Qed.

(** C9 A scan of the caches ([NoDBExecPlanCacheOnly]) after a scan that filled them,
    within one strategy, with columns passed by value and over lines as for
    [NoDBExecPlan_scan], returns, in every column that was written, the values that
    the scan of the file returned for the row. *)
Theorem cached_scan_equals_file_scan (env : exec_env) (rf : read_file) (lines : list (list Z)) (at_ : scan -> nat -> Prop)
    (rows : Z -> list (list Z)) (D : Z -> Z -> NoDBDatum_t) (st : NoDBScanStrategy_t) (hm pmm : cache_map)
    (vias : list NoDBReadViaPM_t) (lf conv : list Z) (vm pw : cache_map) (H R HP RP : Z -> Z -> Z -> Prop) (left : Z) s
    (hm2 : cache_map) (left2 : Z) s2 ts s' :
  LineSource (reader_of env rf) lines at_ -> (forall row x, 0 <= (D row x).1 < 2 ^ 64) ->
  post_lists st hm pmm vias lf conv -> write_lists st vm pw -> (forall x, x ∈ conv -> x <= lastfield env) ->
  (forall row, 0 <= row < Z.of_nat (length lines) ->
     ready_at env lines rows D hm pmm vias lf conv vm pw H R HP RP row) ->
  run_at env rf at_ rows D st vm pw H R HP RP 0 0 left s -> Z.of_nat (length lines) < left ->
  exec_scan (NoDBExecPlan env) (S (length lines)) s = Ok (ts, s') ->
  (forall p x, in_map hm2 p x -> in_map vm p x) -> (forall p cols, (p, cols) ∈ hm2 -> cols <> []) ->
  cs_world s2 = cs_world s' -> cached_at env hm2 0 left2 s2 -> Z.of_nat (length lines) < left2 ->
  exists ts2 s2', exec_rows (NoDBExecPlanCacheOnly env) (length lines) s2 = Ok (ts2, s2') /\ length ts2 = length ts /\
    forall i t t2, ts !! i = Some t -> ts2 !! i = Some t2 -> exists v, t2 = Some v /\
      forall p x, in_map hm2 p x -> arr_get v.1 x = arr_get t.1 x /\ arr_get v.2 x = arr_get t.2 x.
Proof.
  intros Hsrc Hd64 Hl Hw Hlast Hr Hs Hleft E Hsub Hne Ew Hc Hleft2.
  destruct (exec_scan_spec env rf lines at_ rows D st hm pmm vias lf conv vm pw H R HP RP Hd64 Hl Hw Hlast
    (length lines) 0 0 left s Hs) as (ts' & s'' & E' & Hlen & Hts & Hd & _); [lia|lia|intros; apply Hr; lia|].
  rewrite E in E'. injection E' as <- <-.
  assert (Hrow : forall p x i, in_map hm2 p x -> (i < length lines)%nat -> x ∈ conv /\ 0 <= x < nfields env).
  { intros p x i Hx%Hsub Hi. destruct (Hr (Z.of_nat i) ltac:(lia)) as [_ Hrw Hh Hwr].
    destruct (wr_values _ _ _ _ _ _ Hwr p x Hx) as [Hin _]. split; [done|]. rewrite <- (ro_ncols _ _ _ Hrw).
    by apply (hr_pos _ _ _ _ _ _ _ _ _ _ _ Hh x (or_introl Hin)). }
  destruct (decide (length lines = 0)%nat) as [E0|E0].
  { rewrite E0 in *. exists [], s2. split_and!; [done|simpl; lia|]. intros i t t2 _ Ht2. done. }
  destruct (cached_rows_spec env D hm2 (rows_written 0 (Z.of_nat (length lines)) vm H) R Hne
    (fun p x Hx => proj2 (Hrow p x 0%nat Hx ltac:(lia))) (length lines) 0 left2 s2 Hc)
    as (ts2 & s2' & -> & Hl2 & Hts2); [by rewrite Ew|done|intros p x row Hx Hrw; right; split; [lia|auto]|].
  exists ts2, s2'. split_and!; [done|lia|]. intros i t t2 Ht Ht2.
  destruct (Hts2 i t2 Ht2) as (v & -> & Hv). exists v. split; [done|]. intros p x Hx.
  destruct (Hts i t Ht) as (v' & [= <-] & Hv'). apply lookup_lt_Some in Ht.
  destruct (Hv p x Hx) as [-> ->]. destruct (Hv' x) as [-> ->]; [|done]. right. apply (Hrow p x i); [done|lia].
Qed.

(** C10 With a filter, inside one strategy that writes only columns passed by value,
    over CSV lines whose fields are not empty and hold no delimiter, quote,
    backslash or zero byte, and when the columns of the filter come from the line or
    the caches and not through the positional map: [ExecScan] returns exactly the
    rows of the file for which [ExecQual] holds, in the order of the file and with
    the values of the file in every column of the query, and then the empty slot. *)
Theorem ExecScan_filter_correct (env : exec_env) (rf : read_file) (lines : list (list Z)) (at_ : scan -> nat -> Prop)
    (rows : Z -> list (list Z)) (D : Z -> Z -> NoDBDatum_t) (Q : Z -> bool) (st : NoDBScanStrategy_t)
    (hm1 pmm1 : cache_map) (vias1 : list NoDBReadViaPM_t) (lf1 conv1 : list Z)
    (hm2 pmm2 : cache_map) (vias2 : list NoDBReadViaPM_t) (lf2 conv2 : list Z)
    (vm pw : cache_map) (H R HP RP : Z -> Z -> Z -> Prop) (left : Z) s :
  LineSource (reader_of env rf) lines at_ -> (forall row x, 0 <= (D row x).1 < 2 ^ 64) ->
  filter_strategy env st hm1 pmm1 vias1 lf1 conv1 hm2 pmm2 vias2 lf2 conv2 vm pw ->
  qual_is env D Q hm1 conv1 -> has_qual env = true ->
  (forall row, 0 <= row < Z.of_nat (length lines) -> filter_ready_at env lines rows D hm1 pmm1 vias1 lf1 conv1
     hm2 pmm2 vias2 lf2 conv2 vm pw H R HP RP row) ->
  run_at env rf at_ rows D st vm pw H R HP RP 0 0 left s -> execNoDBPlan s = ExecPlanWithFilters ->
  Z.of_nat (length lines) < left ->
  exists ts node, exec_query env (S (length lines)) (plain_node s) = Ok (ts, node) /\
    Forall2 (fun row t => forall x, wanted hm1 conv1 hm2 conv2 x -> vright (D row) t x)
      (filter (fun row => Q row = true) (seqZ 0 (Z.of_nat (length lines)))) ts.
Proof.
  intros Hsrc Hd64 Hst HQ Hq Hr Hs Hx Hleft.
  apply (exec_query_spec env rf lines at_ rows D Q st hm1 pmm1 vias1 lf1 conv1 hm2 pmm2 vias2 lf2 conv2 vm pw H R HP RP
    Hd64 Hst HQ Hq (length lines) (S (length lines)) 0 0 left s Hs Hx); [lia|lia|lia|intros; apply Hr; lia].
Qed.

(** A filter without columns of the relation is not evaluated: the plan that
    [NoDBGetExecPlan] selects returns the same tuples whatever [ExecQual] is, and
    reports every one of them as passing. *)
Theorem filter_without_columns_ignored (env : exec_env) (q : objects -> arr Z -> arr Z -> result bool)
    (st : NoDBScanStrategy_t) s :
  NoDBColVectorSize (readFilterAtts env) = 0 -> execNoDBPlan s = NoDBGetExecPlan env st ->
  run_plan (with_qual env q) s true = run_plan env s true /\
  (forall s' t pass, run_plan env s true = Ok (s', t, pass) -> pass = true).
Proof.
  intros H0 Hx. unfold run_plan. rewrite Hx. unfold NoDBGetExecPlan. rewrite H0, andb_false_r. split.
  - destruct (negb _); reflexivity.
  - intros s' t pass. destruct (negb _).
    + destruct (NoDBExecPlan env s); [|done]. by intros [= _ <-].
    + destruct (NoDBExecPlanCacheOnly env s); [|done]. by intros [= _ <-].
Qed.

(** ** Witnesses: a file of two rows of four columns *)
Definition ex_rel4 : NoDBRelation_t :=
  {| rel_name := "r"; rel_used := 4; rel_max := 20;
     rel_attrs := (Some <$> replicate 4 {| attr_size := 16; attr_byValue := true |}) ++ replicate 16 None |}.

(** A cache with one column and room for two rows. *)
Definition col_cache (type : NoDBCacheType_t) (col size : Z) : result NoDBCache_t :=
  c ← NoDBCacheInit 1 ex_rel4 type 0 size;
  x ← NoDBCacheAddColumn c col size;
  NoDBCacheSetMaxRows x.1 2.

Lemma col_cache_rep {V} (cd : codec V) type col size c : 0 <= col < 4 -> 0 < size < 100 ->
  col_cache type col size = Ok c -> cache_rep cd c [(Some col, size)] 2 ∅ /\ c_startRow c = 0.
Proof.
  intros Hcol Hsz. unfold col_cache.
  destruct (NoDBCacheInit_spec 1 ex_rel4 type 0 size) as (c0 & -> & Hwf & Hlen & Hst & _ & Hso & Hrs & Hb); [lia|cbn; lia|].
  cbn [mbind result_bind]. destruct (NoDBCacheAddColumn_spec c0 _ col size Hwf) as (c1 & r & -> & Hs & Hr); [cbn in *; lia|lia|].
  cbn [mbind result_bind fst]. unfold same_rows in Hs. destruct Hs as (S1 & S2 & S3 & S4 & S5 & S6 & S7 & S8 & S9).
  destruct Hr as [(_ & _ & l1 & s & l2 & El & _ & _ & H)|(_ & [Hc|Hf] & _)].
  - destruct l1 as [|x [|y l1]]; simplify_eq/=. unfold take_partition in H. rewrite Z.eqb_refl in H. cbn [app] in H.
    destruct (SetMaxRows_first cd c1 _ 2 H) as (c' & E & H'); [congruence|congruence|lia|lia|].
    rewrite E. intros [= <-]. split; [exact H'|]. unfold NoDBCacheSetMaxRows in E. 
    rewrite S8, Hb in E. injection E as <-. cbn. congruence.
  - by apply elem_of_nil in Hc.
  - specialize (Hf size ltac:(by left)). lia.
Qed.

Definition ex_datum (row x : Z) : NoDBDatum_t := ((4 * row + x + 1) mod 256, 0).
Definition ex_fields (row : Z) : list (list Z) := (fun x => [48 + (ex_datum row x).1]) <$> [0; 1; 2; 3].
Definition ex_text : list (list Z) := (fun row => join 44 (ex_fields row)) <$> [0; 1].
Definition ex_env (cols : list Z) : exec_env :=
  {| e_copy := csv_defaults;
     e_line := {| csv_mode := true; quote := 34; escape := 34; header_line := false;
                  encoding_embeds_ascii := false; pg_encoding_mblen := fun _ => 1 |};
     e_conv := no_conv; e_bufsize := 32; nfields := 4; lastfield := 3; attrlen := Some <$> [8; 8; 8; 8];
     has_qual := true; readFilterAtts := col_vector cols;
     input_function := fun _ s => Ok (foldl (fun v c => v * 10 + (c - 48)) 0 s);
     pg_verifymbstr := fun _ => true; datumGetSize := fun _ _ => 0%nat;
     ExecQual := fun _ v _ => d ← arr_get v 1; Ok (d =? 6) |}.

Definition no_cols : NoDBColVector_t := col_vector [].
Definition ex_strategy (hm pmm : cache_map) (vias : list NoDBReadViaPM_t) (lf conv : list Z) (vm pw : cache_map)
    : NoDBScanStrategy_t :=
  {| startRow := 0; nrows := 10; readPreFilterWithCache := SetColsPerCache []; readPreFilterWithPM := SetColsPerCache [];
     readPreFilterViaPM := (0, []); readPreFilterWithFile := no_cols; convertPreFilter := no_cols;
     readPostFilterWithCache := SetColsPerCache hm; readPostFilterWithPM := SetColsPerCache pmm;
     readPostFilterViaPM := (Z.of_nat (length vias), Some <$> vias); readPostFilterWithFile := col_vector lf;
     convertPostFilter := col_vector conv; writeToCacheByValue := SetColsPerCache vm;
     writeToCacheByRef := SetColsPerCache []; writeToPM := SetColsPerCache pw |}.
Definition no_bitmap : NoDBBitmap_t := {| bm_size := 0; bm_bits := [] |}.
Definition idle_iterator : NoDBScanStrategyIterator_t :=
  {| it_queryInfo := {| q_relp := 1; q_rel := ex_rel4; q_limit := 0; q_cols := no_cols; q_rows := row_vector [];
       q_readBitmap := no_bitmap; q_readFilterBitmap := no_bitmap; q_readRestBitmap := no_bitmap;
       q_writeDataBitmap := no_bitmap; q_writePositionsBitmap := no_bitmap; q_readCols := [] |};
     it_strategy := NULL; it_len := 0; it_cur := 0 |}.

(** The caches: positions of column 0 and values of column 2 are there, values of
    column 1 and positions of column 3 are to be written. *)
Definition filled_cache {V} (cd : codec V) (type : NoDBCacheType_t) (col size : Z) (v0 v1 : V) : result NoDBCache_t :=
  c ← col_cache type col size; c1 ← cell_set cd c col 0 v0; cell_set cd c1 col 1 v1.
Definition ex_caches : result world :=
  c1 ← filled_cache pmpair_codec NODB_POSITIONS_CACHE 0 4 (0, 1) (0, 1);
  c2 ← filled_cache nodbdatum_codec NODB_DATA_CACHE 2 16 (3, 0) (7, 0);
  c3 ← col_cache NODB_DATA_CACHE 1 16; c4 ← col_cache NODB_POSITIONS_CACHE 3 4;
  Ok {| w_caches := {[1 := c1; 2 := c2; 3 := c3; 4 := c4]}; NoDBCaches := [4; 3; 2; 1]; w_next := 5 |}.
Lemma col_cell {V} (cd : codec V) c col size row : c_startRow c = 0 -> 0 <= row < 2 -> (0 < width cd)%nat -> Z.of_nat (width cd) <= size ->
  cell_ok cd c [(Some col, size)] 2 col row 0.
Proof. intros E Hr H0 H1. split; [unfold in_rows; lia|]. exists size. split_and!; [by exists [], []|done..]. Qed.

Lemma cell_set_rows {V} (cd : codec V) c col row v c' : cell_set cd c col row v = Ok c' -> c_startRow c' = c_startRow c.
Proof.
  unfold cell_set, store_at. intros (o & _ & (buf & _ & (buf' & _ & [= <-])%bind_Ok)%bind_Ok)%bind_Ok. done.
Qed.

Lemma filled_cache_rep {V} (cd : codec V) type col size v0 v1 c : 0 <= col < 4 -> 0 < size < 100 ->
  (0 < width cd)%nat -> Z.of_nat (width cd) <= size -> valid cd v0 -> valid cd v1 ->
  filled_cache cd type col size v0 v1 = Ok c ->
  cache_rep cd c [(Some col, size)] 2 (<[(col, 1) := v1]> (<[(col, 0) := v0]> ∅)).
Proof.
  intros Hcol Hsz Hw0 Hw V0 V1 (c0 & E0 & (c1 & E1 & E2)%bind_Ok)%bind_Ok.
  destruct (col_cache_rep cd type col size c0 Hcol Hsz E0) as [Hrep Hst].
  destruct (cell_set_rep cd c0 _ 2 _ col 0 0 v0 Hrep) as (c1' & E1' & Hrep1); [apply col_cell; done || lia|done|].
  rewrite E1 in E1'. injection E1' as <-. pose proof (cell_set_rows _ _ _ _ _ _ E1) as Hst1.
  destruct (cell_set_rep cd c1 _ 2 _ col 1 0 v1 Hrep1) as (c2' & E2' & Hrep2); [apply col_cell; congruence || lia|done|].
  rewrite E2 in E2'. by injection E2' as <-.
Qed.

Definition or_empty (x : result world) : world :=
  match x with Ok w => w | Fail _ => {| w_caches := ∅; NoDBCaches := []; w_next := 0 |} end.

Definition ex_state (w : world) (st : NoDBScanStrategy_t) (x : exec_plan) : cstate :=
  {| cs_scan := ex_scan ex_eol (file_bytes ex_text);
     cs_fields := {| attribute_buf := []; buf_maxlen := 1024; fieldvals := arr_alloc 4;
                     attributes := {| at_pointer := Some 0 :: arr_alloc 4; at_width := arr_alloc 5 |} |};
     cs_values := Some <$> [0; 0; 0; 0]; cs_nulls := Some <$> [1; 1; 1; 1]; cs_mem := []; cs_world := w;
     cs_plan := {| readFile := ReadFromFile; iterator := idle_iterator; curStrategy := st; tuplesToRead := 10;
                   nRows := 10; nEOL := 0; nMin := 10; hasEOL := false |};
     execNoDBPlan := x; relStats_rows := 0 |}.
Definition ex_vias : list NoDBReadViaPM_t := [{| via_col := 0; via_forward := 3; via_backward := 0 |}].
Definition ex_st1 : NoDBScanStrategy_t := ex_strategy [(2, [2])] [(1, [0])] ex_vias [] [1; 3] [(3, [1])] [(4, [3])].

(** What the caches hold, and have room for. *)
Definition only_cells (q x0 : Z) (p x row : Z) : Prop := p = q /\ x = x0 /\ 0 <= row < 2.

Lemma only_cell (q x0 p : Z) (A : Prop) : (exists x row, only_cells q x0 p x row) -> (p = q -> A) -> A.
Proof. intros (x & row & -> & _) H. by apply H. Qed.

Lemma ex_world_caches : exists c1 c2 c3 c4,
  filled_cache pmpair_codec NODB_POSITIONS_CACHE 0 4 (0, 1) (0, 1) = Ok c1 /\
  filled_cache nodbdatum_codec NODB_DATA_CACHE 2 16 (3, 0) (7, 0) = Ok c2 /\
  col_cache NODB_DATA_CACHE 1 16 = Ok c3 /\ col_cache NODB_POSITIONS_CACHE 3 4 = Ok c4 /\
  w_caches (or_empty ex_caches) !! 1 = Some c1 /\ w_caches (or_empty ex_caches) !! 2 = Some c2 /\
  w_caches (or_empty ex_caches) !! 3 = Some c3 /\ w_caches (or_empty ex_caches) !! 4 = Some c4.
Proof. do 4 eexists. split_and!; vm_compute; reflexivity. Qed.

Lemma ex_holds_data :
  holds nodbdatum_codec NODB_DATA_CACHE (or_empty ex_caches) (only_cells 2 2) (only_cells 3 1) ex_datum.
Proof.
  destruct ex_world_caches as (c1 & c2 & c3 & c4 & E1 & E2 & E3 & E4 & W1 & W2 & W3 & W4).
  intros p (x & row & [(-> & _)|(-> & _)]).
  - exists c2, [(Some 2, 16)], 2, (<[(2, 1) := (7, 0)]> (<[(2, 0) := (3, 0)]> ∅)). split_and!; [done| | | |].
    + vm_compute in E2. by injection E2 as <-.
    + eapply filled_cache_rep; [..|exact E2]; repeat split; cbn; lia.
    + intros x' r (_ & -> & Hr). assert (r = 0 \/ r = 1) as [-> | ->] by lia; reflexivity.
    + by intros x' r (? & _).
  - exists c3, [(Some 1, 16)], 2, ∅. destruct (col_cache_rep nodbdatum_codec _ 1 16 c3 ltac:(lia) ltac:(lia) E3) as [Hrep Hst].
    split_and!; [done| |done| |].
    + vm_compute in E3. by injection E3 as <-.
    + by intros x' r (? & _).
    + intros x' r (_ & -> & Hr). exists 0. apply col_cell; [exact Hst|lia|cbn; lia|cbn; lia].
Qed.

Lemma ex_holds_pm : holds pmpair_codec NODB_POSITIONS_CACHE (or_empty ex_caches) (only_cells 1 0) (only_cells 4 3)
  (fun row => pos_of (ex_fields row)).
Proof.
  destruct ex_world_caches as (c1 & c2 & c3 & c4 & E1 & E2 & E3 & E4 & W1 & W2 & W3 & W4).
  intros p (x & row & [(-> & _)|(-> & _)]).
  - exists c1, [(Some 0, 4)], 2, (<[(0, 1) := (0, 1)]> (<[(0, 0) := (0, 1)]> ∅)). split_and!; [done| | | |].
    + vm_compute in E1. by injection E1 as <-.
    + eapply filled_cache_rep; [..|exact E1]; repeat split; cbn; lia.
    + intros x' r (_ & -> & Hr). assert (r = 0 \/ r = 1) as [-> | ->] by lia; reflexivity.
    + by intros x' r (? & _).
  - exists c4, [(Some 3, 4)], 2, ∅. destruct (col_cache_rep pmpair_codec _ 3 4 c4 ltac:(lia) ltac:(lia) E4) as [Hrep Hst].
    split_and!; [done| |done| |].
    + vm_compute in E4. by injection E4 as <-.
    + by intros x' r (? & _).
    + intros x' r (_ & -> & Hr). exists 0. apply col_cell; [exact Hst|lia|cbn; lia|cbn; lia].
Qed.

Lemma two_rows (row : Z) (A : Z -> Prop) : 0 <= row < 2 -> A 0 -> A 1 -> A row.
Proof. intros Hr H0 H1. assert (row = 0 \/ row = 1) as [-> | ->] by lia; done. Qed.

Definition ex_at := first_at 32 (e_line (ex_env [])) ex_text [] [(Some 0, 2)] 4.

Lemma ex_source cols : LineSource (reader_of (ex_env cols) ReadFromFile) (server_lines (ex_env cols) ex_text) ex_at.
Proof.
  apply (file_source (ex_env cols) ex_text [] [(Some 0, 2)] 4).
  - cbn. lia.
  - by split.
  - done.
  - repeat constructor; cbn; lia.
  - reflexivity.
Qed.

Lemma ex_start : ex_at (ex_scan ex_eol (file_bytes ex_text)) 0.
Proof.
  constructor; [|by vm_compute|by vm_compute|by vm_compute| |].
  - constructor; [constructor; cbn; [lia|done]|by left].
  - intros i Hi. exists 0. split; [unfold in_rows; vm_compute; cbn in Hi; split; [by destruct i|]|].
    + unfold ex_text in Hi. simpl in Hi. destruct i as [|[|i]]; done || lia.
    + exists 2. split_and!; [by exists [], []|cbn; lia|cbn; lia].
  - exists ∅. split; [apply ex_eol_rep|done].
Qed.

Lemma ex_row_ok cols row : 0 <= row < 2 -> row_ok (ex_env cols) (ex_fields row) (ex_datum row).
Proof.
  intros Hr. apply (two_rows row (fun row => row_ok (ex_env cols) (ex_fields row) (ex_datum row)) Hr).
  all: split; [done| |done|cbn; lia|].
  1, 3: split; try done.
  all: try (apply (bool_decide_unpack _); vm_compute; done).
  all: intros x Hx _; cbn in Hx; assert (x = 0 \/ x = 1 \/ x = 2 \/ x = 3) as [-> |[-> |[-> | ->]]] by lia;
    eexists; split; vm_compute; reflexivity.
Qed.

Lemma in_map_one (q : Z) (l : list Z) p x : in_map [(q, l)] p x -> p = q /\ x ∈ l.
Proof. intros (l' & [= -> ->]%list_elem_of_singleton & Hx). done. Qed.

Lemma ex_arrays cols w st x : arrays_ok (ex_env cols) (ex_state w st x).
Proof. by split. Qed.

Lemma ex_lines cols row : 0 <= row < 2 ->
  server_lines (ex_env cols) ex_text !! Z.to_nat row = Some (join 44 (ex_fields row)).
Proof.
  intros Hr. apply (two_rows row (fun row => server_lines (ex_env cols) ex_text !! Z.to_nat row = Some (join 44 (ex_fields row))) Hr);
    reflexivity.
Qed.

Lemma ex_pos_via (x : Z) : 1 <= x < 4 ->
  exists e, e ∈ ex_vias /\ via_backward e <= x - via_col e <= via_forward e.
Proof. intros Hx. eexists. split; [by left|]. cbn. lia. Qed.

Lemma ex_ncols row : ncols_of (ex_fields row) = 4.
Proof. done. Qed.

Lemma ex_ready row : 0 <= row < 2 ->
  ready_at (ex_env []) (server_lines (ex_env []) ex_text) ex_fields ex_datum [(2, [2])] [(1, [0])] ex_vias [] [1; 3]
    [(3, [1])] [(4, [3])] (only_cells 2 2) (only_cells 3 1) (only_cells 1 0) (only_cells 4 3) row.
Proof.
  intros Hr. split; [by apply ex_lines|by apply ex_row_ok| |].
  - split.
    + intros p x [-> ->%list_elem_of_singleton]%in_map_one. rewrite ex_ncols. split; [done|lia].
    + by intros p cols [= -> ->]%list_elem_of_singleton.
    + intros p x [-> ->%list_elem_of_singleton]%in_map_one. rewrite ex_ncols. split; [done|lia].
    + by intros p cols [= -> ->]%list_elem_of_singleton.
    + intros e ->%list_elem_of_singleton. split; [unfold via_ok; cbn; lia|]. exists 1, [0]. split; by left.
    + intros x Hx. assert (x = 1 \/ x = 3) as Hx'.
      { destruct Hx as [[->|[->|Hx]%elem_of_cons]%elem_of_cons|(p & [_ ->%list_elem_of_singleton]%in_map_one)]; auto.
        by apply elem_of_nil in Hx. }
      rewrite ex_ncols. split_and!; [lia|lia|done|intros _; apply ex_pos_via; lia].
  - split.
    + intros p x [-> ->%list_elem_of_singleton]%in_map_one. split; [by left|done].
    + by intros p cols [= -> ->]%list_elem_of_singleton.
    + by intros p x [-> ->%list_elem_of_singleton]%in_map_one.
    + by intros p cols [= -> ->]%list_elem_of_singleton.
Qed.

Lemma ex_datum_range row x : 0 <= (ex_datum row x).1 < 2 ^ 64.
Proof. unfold ex_datum. cbn [fst]. pose proof (Z.mod_pos_bound (4 * row + x + 1) 256 ltac:(lia)). lia. Qed.

Lemma holds_none {V} (cd : codec V) type w (H R : Z -> Z -> Z -> Prop) lo val :
  holds cd type w H R val -> forall cm, holds cd type w (rows_written lo lo cm H) R val.
Proof. intros Hh cm. eapply holds_mono; [exact Hh|]. intros p x row [?|[? _]]; [done|lia]. Qed.

Lemma ex_run x : run_at (ex_env []) ReadFromFile ex_at ex_fields ex_datum ex_st1 [(3, [1])] [(4, [3])]
  (only_cells 2 2) (only_cells 3 1) (only_cells 1 0) (only_cells 4 3) 0 0 10 (ex_state (or_empty ex_caches) ex_st1 x).
Proof.
  split; [exact ex_start|lia|apply ex_arrays|done|done|done|apply holds_none, ex_holds_data|apply holds_none, ex_holds_pm].
Qed.

(** The tuples of a scan with values and positions from the caches. *)
Lemma NoDBExecPlan_scan_witness : exists ts s',
  exec_scan (NoDBExecPlan (ex_env [])) 3 (ex_state (or_empty ex_caches) ex_st1 ExecPlan) = Ok (ts, s') /\ length ts = 2%nat /\
  (forall i t, ts !! i = Some t -> forall x, (exists p, in_map [(2, [2])] p x) \/ x ∈ [1; 3] ->
     vright (ex_datum (Z.of_nat i)) t x) /\
  holds nodbdatum_codec NODB_DATA_CACHE (cs_world s') (rows_written 0 2 [(3, [1])] (only_cells 2 2)) (only_cells 3 1) ex_datum /\
  holds pmpair_codec NODB_POSITIONS_CACHE (cs_world s') (rows_written 0 2 [(4, [3])] (only_cells 1 0)) (only_cells 4 3)
    (fun row => pos_of (ex_fields row)).
Proof.
  apply (NoDBExecPlan_scan_correct (ex_env []) ReadFromFile (server_lines (ex_env []) ex_text) ex_at ex_fields ex_datum ex_st1
    [(2, [2])] [(1, [0])] ex_vias [] [1; 3] [(3, [1])] [(4, [3])] (only_cells 2 2) (only_cells 3 1) (only_cells 1 0)
    (only_cells 4 3) 10).
  - apply ex_source.
  - apply ex_datum_range.
  - by split.
  - by split.
  - intros x [->|[->|Hx]%elem_of_cons]%elem_of_cons; [cbn; lia|cbn; lia|by apply elem_of_nil in Hx].
  - intros row Hr. by apply ex_ready.
  - apply ex_run.
  - cbn. lia.
Defined.

Definition ex_after : list (arr Z * arr Z) * cstate :=
  match exec_scan (NoDBExecPlan (ex_env [])) 3 (ex_state (or_empty ex_caches) ex_st1 ExecPlan) with
  | Ok x => x
  | Fail _ => ([], ex_state (or_empty ex_caches) ex_st1 ExecPlan)
  end.
Lemma ex_after_ok : exec_scan (NoDBExecPlan (ex_env [])) 3 (ex_state (or_empty ex_caches) ex_st1 ExecPlan) = Ok ex_after.
Proof.
  assert (H : match exec_scan (NoDBExecPlan (ex_env [])) 3 (ex_state (or_empty ex_caches) ex_st1 ExecPlan) with
              | Ok _ => true | Fail _ => false end = true) by (vm_compute; reflexivity).
  unfold ex_after. destruct (exec_scan _ _ _); [reflexivity|discriminate].
Qed.

Lemma ex_state_world w st x : cs_world (ex_state w st x) = w.
Proof. reflexivity. Qed.

Lemma ex_state_cached w cm x : cached_at (ex_env []) cm 0 10 (ex_state w (ex_strategy cm [] [] [] [] [] []) x).
Proof. by split. Qed.

Definition ex_second : cstate :=
  ex_state (cs_world ex_after.2) (ex_strategy [(3, [1])] [] [] [] [] [] []) ExecPlanCacheOnly.

Lemma cached_scan_witness : exists ts2 s2',
  exec_rows (NoDBExecPlanCacheOnly (ex_env [])) 2 ex_second = Ok (ts2, s2') /\ length ts2 = length ex_after.1 /\
  forall i t t2, ex_after.1 !! i = Some t -> ts2 !! i = Some t2 -> exists v, t2 = Some v /\
    forall p x, in_map [(3, [1])] p x -> arr_get v.1 x = arr_get t.1 x /\ arr_get v.2 x = arr_get t.2 x.
Proof.
  apply (cached_scan_equals_file_scan (ex_env []) ReadFromFile (server_lines (ex_env []) ex_text) ex_at ex_fields ex_datum ex_st1
    [(2, [2])] [(1, [0])] ex_vias [] [1; 3] [(3, [1])] [(4, [3])] (only_cells 2 2) (only_cells 3 1) (only_cells 1 0)
    (only_cells 4 3) 10 (ex_state (or_empty ex_caches) ex_st1 ExecPlan) [(3, [1])] 10 ex_second ex_after.1 ex_after.2).
  - apply ex_source.
  - apply ex_datum_range.
  - by split.
  - by split.
  - intros x [->|[->|Hx]%elem_of_cons]%elem_of_cons; [cbn; lia|cbn; lia|by apply elem_of_nil in Hx].
  - intros row Hr. by apply ex_ready.
  - apply ex_run.
  - cbn. lia.
  - rewrite <- surjective_pairing. apply ex_after_ok.
  - intros p x Hx. exact Hx.
  - by intros p cols [= -> ->]%list_elem_of_singleton.
  - apply ex_state_world.
  - apply ex_state_cached.
  - cbn. lia.
Defined.

(** A filter on column 1, which is written to a cache with the positions of
    column 3; column 2 is in a cache and column 3 is read from the line. *)
Definition ex_st2 : NoDBScanStrategy_t :=
  {| startRow := 0; nrows := 10; readPreFilterWithCache := SetColsPerCache []; readPreFilterWithPM := SetColsPerCache [];
     readPreFilterViaPM := (0, []); readPreFilterWithFile := col_vector [1]; convertPreFilter := col_vector [1];
     readPostFilterWithCache := SetColsPerCache [(2, [2])]; readPostFilterWithPM := SetColsPerCache [];
     readPostFilterViaPM := (0, []); readPostFilterWithFile := col_vector [3];
     convertPostFilter := col_vector [3]; writeToCacheByValue := SetColsPerCache [(3, [1])];
     writeToCacheByRef := SetColsPerCache []; writeToPM := SetColsPerCache [(4, [3])] |}.

Lemma no_map p x : ~ in_map [] p x.
Proof. intros (l & Hl & _). by apply elem_of_nil in Hl. Qed.

Lemma ex_filter_ready row : 0 <= row < 2 ->
  filter_ready_at (ex_env [1]) (server_lines (ex_env [1]) ex_text) ex_fields ex_datum [] [] [] [1] [1] [(2, [2])] [] [] [3] [3]
    [(3, [1])] [(4, [3])] (only_cells 2 2) (only_cells 3 1) (only_cells 1 0) (only_cells 4 3) row.
Proof.
  intros Hr. split; [by apply ex_lines|by apply ex_row_ok| | |]; split.
  all: try by intros p x ?%no_map.
  all: try by intros ? ?%elem_of_nil.
  all: try by intros ? ? ?%elem_of_nil.
  all: try by intros p cols [= -> ->]%list_elem_of_singleton.
  - intros x Hx. assert (x = 1 \/ x = 3) by (destruct Hx as [->%list_elem_of_singleton|(p & [_ ->%list_elem_of_singleton]%in_map_one)]; auto).
    rewrite ex_ncols. split_and!; [lia|lia|cbn; lia|done].
  - intros p x [-> ->%list_elem_of_singleton]%in_map_one. rewrite ex_ncols. split; [done|lia].
  - intros x [->%list_elem_of_singleton|[]]. rewrite ex_ncols. split_and!; [lia|lia|cbn; lia|done].
  - intros p x [-> ->%list_elem_of_singleton]%in_map_one. split; [by left|done].
  - by intros p x [-> ->%list_elem_of_singleton]%in_map_one.
Qed.

Lemma ExecScan_filter_witness : exists ts node,
  exec_query (ex_env [1]) 3 (plain_node (ex_state (or_empty ex_caches) ex_st2 ExecPlanWithFilters)) = Ok (ts, node) /\
  Forall2 (fun row t => forall x, wanted [] [1] [(2, [2])] [3] x -> vright (ex_datum row) t x) [1] ts.
Proof.
  apply (ExecScan_filter_correct (ex_env [1]) ReadFromFile (server_lines (ex_env [1]) ex_text) ex_at ex_fields ex_datum
    (fun row => (ex_datum row 1).1 =? 6) ex_st2 [] [] [] [1] [1] [(2, [2])] [] [] [3] [3] [(3, [1])] [(4, [3])]
    (only_cells 2 2) (only_cells 3 1) (only_cells 1 0) (only_cells 4 3) 10).
  - apply ex_source.
  - apply ex_datum_range.
  - split; [by split|by split|by split|by left|done|].
    intros x [->%list_elem_of_singleton|[->%list_elem_of_singleton|(p & [_ ->%list_elem_of_singleton]%in_map_one)]]; cbn; lia.
  - intros row mem v Hv. destruct (Hv 1) as [E _]; [right; by left|]. cbn [ExecQual ex_env]. by rewrite E.
  - reflexivity.
  - intros row Hr. by apply ex_filter_ready.
  - split; [exact ex_start|lia|apply ex_arrays|done|done|done|apply holds_none, ex_holds_data|apply holds_none, ex_holds_pm].
  - reflexivity.
  - cbn. lia.
Defined.

Lemma filter_without_columns_witness :
  let s := ex_state (or_empty ex_caches) ex_st1 (NoDBGetExecPlan (ex_env []) ex_st1) in
  run_plan (with_qual (ex_env []) (fun _ _ _ => Ok false)) s true = run_plan (ex_env []) s true /\
  (forall s' t pass, run_plan (ex_env []) s true = Ok (s', t, pass) -> pass = true).
Proof. apply (filter_without_columns_ignored (ex_env []) _ ex_st1); reflexivity. Defined.

(** A scan whose strategy comes from the iterator, with the positions of column 0
    of both rows in the positional map. *)
Definition pm_scan (filter rest : list Z) : result cstate :=
  c ← filled_cache pmpair_codec NODB_POSITIONS_CACHE 0 4 (0, 1) (0, 1);
  let w := {| w_caches := {[ 1 := set_rows c 2 ]}; NoDBCaches := [1]; w_next := 2 |} in
  x ← NoDBScanStrategyIterator w 1 ex_rel4 0 (col_vector filter) (col_vector rest) (col_vector []) (col_vector []);
  y ← NoDBScanStrategyIteratorGet x.2 x.1;
  let '(w', it, st) := y in
  let s := ex_state w' st (NoDBGetExecPlan (ex_env filter) st) in
  Ok (set_plan s (NoDBPlanStateInit st it ex_eol)).

(** [NoDBGetValuesWithPM] ends the fields of the filter with zero bytes in the
    line, over the delimiters that finding the other fields through the
    positional map needs afterwards: with a filter on column 1 the position of
    column 3 is used without being set, where the same columns without a filter
    are read correctly. *)
Example filter_overwrites_line :
  (s ← pm_scan [1] [3]; x ← exec_query (ex_env [1]) 3 (plain_node s); Ok x.1) = Fail Indeterminate /\
  (s ← pm_scan [] [1; 3]; x ← exec_scan (NoDBExecPlan (ex_env [])) 3 s; Ok x.1) =
    Ok [([Some 0; Some 2; Some 0; Some 4], [Some 1; Some 0; Some 1; Some 0]);
        ([Some 0; Some 6; Some 0; Some 8], [Some 1; Some 0; Some 1; Some 0])].
Proof. split; vm_compute; reflexivity. Qed.
