(* ===== verification/StrategySwitch.v ===== *)
(** * From one strategy to the next

    The proofs about [NoDBFinalizeStrategy] and the seek of [NoDBUpdateStrategy]
    (Executor.v): the rows that a strategy wrote become visible to later scans,
    and hold the values of the file; the file is positioned for the next
    strategy, except with a header or with lines that were loaded ahead. *)
From S2P Require Import Prelude Vectors Bitmap Relation Cache CacheData FieldParser PositionalMap LineReader TupleReader CacheSelect StrategyMatrix ScanStrategy StrategySound Executor ExecutorSound PlanSound.

Implicit Types (w : world) (cm : cache_map).

(** ** Publishing the rows that were written *)
Definition listed_in cm (p : Z) : Prop := exists cols, (p, cols) ∈ cm.

(** [c] with the rows up to [row] in use. *)
Definition published (row : Z) (c : NoDBCache_t) : NoDBCache_t := set_rows c (u64 (row - c_startRow c)).

(** The caches of [w'] are those of [w], those in [ps] with their rows in use. *)
Definition publishes (row : Z) (ps : Z -> Prop) w w' : Prop :=
  NoDBCaches w' = NoDBCaches w /\
  (w_next w' = w_next w /\ forall p, is_Some (w_caches w' !! p) -> is_Some (w_caches w !! p)) /\
  forall p c, w_caches w !! p = Some c -> exists c', w_caches w' !! p = Some c' /\
    ((ps p /\ c' = published row c) \/ (~ ps p /\ c' = c)).

Lemma published_idem row c : published row (published row c) = published row c.
Proof. done. Qed.

Lemma publishes_none row w : publishes row (fun _ => False) w w.
Proof. split_and!; [done..|]. intros p c Hc. exists c. split; [done|]. right. split; [tauto|done]. Qed.

Lemma publishes_ext row (ps ps' : Z -> Prop) w w' : (forall p, ps p <-> ps' p) -> publishes row ps w w' -> publishes row ps' w w'.
Proof.
  intros He (H1 & (H2 & Hdom) & H3). split_and!; [done..|]. intros p c Hc. destruct (H3 p c Hc) as (c' & Hc' & Hp).
  exists c'. split; [done|]. by rewrite <- He.
Qed.

Lemma publishes_put row ps w w1 p c : publishes row ps w w1 -> w_caches w1 !! p = Some c ->
  publishes row (fun q => q = p \/ ps q) w (put_cache w1 p (published row c)).
Proof.
  intros (H1 & (H2 & Hdom) & H3) Hc. split_and!; [done..| |].
  { intros q [c1 Hq]. cbn [put_cache w_caches] in Hq. destruct (decide (q = p)) as [->|]; [apply Hdom; by eexists|].
    rewrite lookup_insert_ne in Hq by done. apply Hdom. by eexists. }
  intros q c0 Hq. destruct (H3 q c0 Hq) as (c1 & Hc1 & Hp).
  cbn [put_cache w_caches]. destruct (decide (q = p)) as [->|Hne].
  - rewrite lookup_insert_eq. simplify_eq. eexists. split; [done|]. left. split; [by left|].
    destruct Hp as [[_ ->]|[_ ->]]; done.
  - rewrite lookup_insert_ne by done. exists c1. split; [done|]. destruct Hp as [[? ->]|[? ->]]; [left|right]; tauto.
Qed.

Lemma used_rows_spec w w0 ps cm row : publishes row ps w0 w -> (forall p, listed_in cm p -> is_Some (w_caches w0 !! p)) ->
  exists w', used_rows w (SetColsPerCache cm) row = Ok w' /\ publishes row (fun p => listed_in cm p \/ ps p) w0 w'.
Proof.
  intros Hp Hin. unfold used_rows.
  destruct (each_cache_map (fun dn w' => publishes row (fun p => listed_in dn p \/ ps p) w0 w') cm
    (fun p _ w => c ← get_cache w p;
       Ok (put_cache w p (NoDBCacheSetUsedRows c (u64 (row - NoDBCacheGetBegin c))))) w) as (w' & -> & H); [| |by exists w'].
  - eapply publishes_ext; [|exact Hp]. intros p. split; [by right|]. intros [(c & ?%elem_of_nil)|]; done.
  - intros dn p cols rest w1 Ecm Hw1. destruct (Hin p) as [c0 Hc0]; [exists cols; by eapply elem_middle|].
    pose proof Hw1 as (_ & _ & H3). destruct (H3 p c0 Hc0) as (c1 & Hc1 & _).
    unfold get_cache. rewrite Hc1. cbn [mbind result_bind]. eexists. split; [done|].
    eapply publishes_ext; [|exact (publishes_put row _ w0 w1 p c1 Hw1 Hc1)]. intros q. cbn beta. unfold listed_in.
    setoid_rewrite elem_of_app. setoid_rewrite list_elem_of_singleton. split.
    + intros [->|[[c ?]|?]]; [left; exists cols; by right|left; exists c; by left|by right].
    + intros [(c & [?|[= -> ->]])|?]; [right; left; by exists c|by left|by right; right].
Qed.

Lemma FinalizeStrategy_spec s cmr cmv cmp :
  writeToCacheByRef (curStrategy (cs_plan s)) = SetColsPerCache cmr ->
  writeToCacheByValue (curStrategy (cs_plan s)) = SetColsPerCache cmv ->
  writeToPM (curStrategy (cs_plan s)) = SetColsPerCache cmp ->
  (forall p, listed_in cmr p \/ listed_in cmv p \/ listed_in cmp p -> is_Some (w_caches (cs_world s) !! p)) ->
  exists w', NoDBFinalizeStrategy s = Ok (set_rel_rows (set_world s w') (NoDBCacheGetUsedRows (cs_eol s))) /\
    publishes (cs_row s) (fun p => listed_in cmr p \/ listed_in cmv p \/ listed_in cmp p) (cs_world s) w'.
Proof.
  intros Er Ev Ep Hin. unfold NoDBFinalizeStrategy. rewrite Er, Ev, Ep.
  destruct (used_rows_spec (cs_world s) (cs_world s) _ cmr (cs_row s) (publishes_none _ _)) as (w1 & -> & H1); [auto|].
  cbn [mbind result_bind]. destruct (used_rows_spec w1 (cs_world s) _ cmv (cs_row s) H1) as (w2 & -> & H2); [auto|].
  cbn [mbind result_bind]. destruct (used_rows_spec w2 (cs_world s) _ cmp (cs_row s) H2) as (w3 & -> & H3); [auto|].
  cbn [mbind result_bind]. exists w3. split; [done|]. eapply publishes_ext; [|exact H3]. cbn beta. tauto.
Qed.

Lemma published_rep {V} (cd : codec V) row c lay n m : cache_rep cd c lay n m -> cache_rep cd (published row c) lay n m.
Proof. apply set_rows_rep. Qed.

Lemma published_HasRow row c r : 0 <= c_startRow c <= row -> row < 2 ^ 64 ->
  NoDBCacheHasRow (published row c) r = bool_decide (c_startRow c <= r < row).
Proof.
  intros H0 H1. unfold NoDBCacheHasRow, published. cbn [set_rows c_startRow c_usedRows]. unfold u64.
  rewrite (wrap_small 64 (row - _)) by lia. replace (c_startRow c + (row - c_startRow c)) with row by lia.
  rewrite wrap_small by lia. destruct (Z.leb_spec (c_startRow c) r), (Z.ltb_spec r row); simpl;
    [rewrite bool_decide_eq_true_2|rewrite bool_decide_eq_false_2..]; done || lia.
Qed.

(** ** Moving the file to the next row *)
Lemma sumz_app l1 l2 : sumz (l1 ++ l2) = sumz l1 + sumz l2.
Proof. unfold sumz. induction l1 as [|v l1 IH]; simpl; [done|]. rewrite IH. lia. Qed.

Lemma sumz_nonneg l : Forall (fun v => 0 <= v) l -> 0 <= sumz l.
Proof. unfold sumz. induction 1; simpl; lia. Qed.

Lemma sumz_take_le l (i j : nat) : Forall (fun v => 0 <= v) l -> (i <= j)%nat -> sumz (take i l) <= sumz (take j l).
Proof.
  intros Hl Hij. replace (take j l) with (take i l ++ take (j - i) (drop i l)).
  - rewrite sumz_app. pose proof (sumz_nonneg (take (j - i) (drop i l)) ltac:(by apply Forall_take, Forall_drop)). lia.
  - rewrite take_take_drop. f_equal. lia.
Qed.

Lemma BytesToSeek_spec c lens (i j : nat) : recorded c lens -> Forall (fun v => 0 <= v) lens -> sumz lens < 2 ^ 64 ->
  (i <= j <= length lens)%nat -> Z.of_nat i < 2 ^ 31 ->
  NoDBComputeBytesToSeek c (Z.of_nat i) (Z.of_nat j) = Ok (sumz (take j lens) - sumz (take i lens)).
Proof.
  intros [_ Hg] Hpos Hlt Hij Hi. unfold NoDBComputeBytesToSeek.
  assert (u64 (swrap 32 (Z.of_nat i)) = Z.of_nat i) as ->.
  { rewrite swrap_small by lia. unfold u64. by rewrite wrap_small by lia. }
  destruct (for_range_inv (fun k bytes => bytes = sumz (take (Z.to_nat k) lens) - sumz (take i lens)) (Z.of_nat i) (Z.of_nat j)
    (fun k bytes => v ← NoDBCacheGetShortInt c 0 k; Ok (u64 (bytes + v))) 0) as (b & -> & ->); [lia| | |].
  - rewrite Nat2Z.id. lia.
  - intros k b Hk ->. destruct (lookup_lt_is_Some_2 lens (Z.to_nat k)) as [v Hv]; [lia|].
    pose proof (Hg _ _ Hv) as Hgk. rewrite Z2Nat.id in Hgk by lia. rewrite Hgk. cbn [mbind result_bind].
    eexists. split; [done|]. replace (Z.to_nat (k + 1)) with (S (Z.to_nat k)) by lia. rewrite (take_S_r _ _ _ Hv), sumz_app.
    pose proof (sumz_take_le lens i (Z.to_nat k) Hpos ltac:(lia)).
    pose proof (sumz_take_le lens (S (Z.to_nat k)) (length lens) Hpos ltac:(lia)) as Hle.
    rewrite firstn_all, (take_S_r _ _ _ Hv), sumz_app in Hle. pose proof (sumz_nonneg (take i lens) ltac:(by apply Forall_take)).
    assert (sumz [v] = v) as E1 by (unfold sumz; simpl; lia). assert (0 <= v) by (by apply (proj1 (Forall_lookup _ _) Hpos (Z.to_nat k))).
    unfold u64. rewrite wrap_small; lia.
  - by rewrite Nat2Z.id.
Qed.

(** The cells of a cache that are in use hold the values of [val]. *)
Definition right_cells {V} (cd : codec V) (type : NoDBCacheType_t) w (hi : Z) cm (val : Z -> Z -> V) : Prop :=
  forall p x, in_map cm p x -> exists c, w_caches w !! p = Some c /\ c_type c = type /\
    (forall row, NoDBCacheHasRow c row = bool_decide (c_startRow c <= row < hi)) /\
    (forall row, NoDBCacheHasRow c row = true -> cell_get cd c x row = Ok (val row x)).

(** The rows before [lo] of the caches to write were right already. *)
Definition starts_right w (lo hi : Z) (H : Z -> Z -> Z -> Prop) cm : Prop :=
  forall p x, in_map cm p x -> exists c, w_caches w !! p = Some c /\ 0 <= c_startRow c <= hi /\
    forall row, c_startRow c <= row < lo -> H p x row.

Lemma publish_right {V} (cd : codec V) type w w' lo hi (H R : Z -> Z -> Z -> Prop) cm (val : Z -> Z -> V) (ps : Z -> Prop) :
  publishes hi ps w w' -> (forall p, listed_in cm p -> ps p) -> hi < 2 ^ 64 -> lo < hi ->
  starts_right w lo hi H cm -> holds cd type w (rows_written lo hi cm H) R val -> right_cells cd type w' hi cm val.
Proof.
  intros (_ & _ & Hp) Hps Hhi Hlo Hs Hh p x Hx. destruct (Hs p x Hx) as (c & Hc & Hst & Hold).
  destruct (Hh p) as (c0 & lay & n & m & Hc0 & Ht & Hrep & Hm & _). { exists x, lo. left. right. split; [lia|done]. }
  rewrite Hc in Hc0. injection Hc0 as <-. destruct (Hp p c Hc) as (c' & Hc' & [[_ ->]|[Hn _]]).
  2: { destruct Hn. apply Hps. destruct Hx as (l & Hl & _). by exists l. }
  exists (published hi c). split_and!; [done|done|intros r; exact (published_HasRow hi c r Hst Hhi)|].
  intros row Hr. rewrite published_HasRow, bool_decide_eq_true in Hr by done.
  eapply cell_get_rep; [by apply published_rep|]. apply Hm. destruct (decide (row < lo)); [left; apply Hold; lia|].
  right. split; [lia|done].
Qed.

(** * Properties *)

(** C11 When a strategy that wrote the rows from [lo] to the current row, and only
    columns passed by value, ends, [NoDBFinalizeStrategy] makes exactly the rows
    before the current row of the caches it wrote visible to other scans, and every
    visible cell of the columns that were written holds the value, or the position,
    of the file. *)
Theorem NoDBFinalizeStrategy_publishes s lo (rows : Z -> list (list Z)) (D : Z -> Z -> NoDBDatum_t) (vm pw : cache_map)
    (H R HP RP : Z -> Z -> Z -> Prop) :
  write_lists (curStrategy (cs_plan s)) vm pw -> lo < cs_row s < 2 ^ 64 ->
  (forall p, listed_in vm p \/ listed_in pw p -> is_Some (w_caches (cs_world s) !! p)) ->
  starts_right (cs_world s) lo (cs_row s) H vm -> starts_right (cs_world s) lo (cs_row s) HP pw ->
  holds nodbdatum_codec NODB_DATA_CACHE (cs_world s) (rows_written lo (cs_row s) vm H) R D ->
  holds pmpair_codec NODB_POSITIONS_CACHE (cs_world s) (rows_written lo (cs_row s) pw HP) RP (fun row => pos_of (rows row)) ->
  exists s', NoDBFinalizeStrategy s = Ok s' /\ relStats_rows s' = c_usedRows (cs_eol s) /\ cs_plan s' = cs_plan s /\
    right_cells nodbdatum_codec NODB_DATA_CACHE (cs_world s') (cs_row s) vm D /\
    right_cells pmpair_codec NODB_POSITIONS_CACHE (cs_world s') (cs_row s) pw (fun row => pos_of (rows row)).
Proof.
  intros [Hv Hr Hp] Hlo Hin Hsv Hsp Hd Hpm.
  destruct (FinalizeStrategy_spec s [] vm pw Hr Hv Hp) as (w' & -> & Hpub).
  { intros p [(c & ?%elem_of_nil)|?]; [done|by apply Hin]. }
  eexists. split; [done|]. split_and!; [done|done| |].
  - by apply (publish_right nodbdatum_codec _ (cs_world s) w' lo (cs_row s) H R vm D _ Hpub); [tauto|lia|lia|..].
  - by apply (publish_right pmpair_codec _ (cs_world s) w' lo (cs_row s) HP RP pw _ _ Hpub); [tauto|lia|lia|..].
Qed.

(** C13 The seek before the next strategy moves the file from the line of the last
    row that was read to the line of the current row, when the file has no header
    and no lines were loaded ahead. *)
Theorem seek_to_row_correct (env : exec_env) s (lens : list Z) (i j : nat) :
  header_line (e_line env) = false -> recorded (cs_eol s) lens -> c_startRow (cs_eol s) = 0 ->
  Forall (fun v => 0 <= v) lens -> sumz lens < 2 ^ 64 -> Z.of_nat (length lens) < 2 ^ 31 -> (i <= j <= length lens)%nat ->
  tupleRead (cs_scan s) = Z.of_nat i -> processed (cs_scan s) = Z.of_nat j ->
  pos (copy_file (rd (cs_scan s))) = Z.to_nat (sumz (take i lens)) ->
  exists s', seek_to_row env s = Ok s' /\ pos (copy_file (rd (cs_scan s'))) = Z.to_nat (sumz (take j lens)) /\
    tupleRead (cs_scan s') = Z.of_nat j /\ processed (cs_scan s') = Z.of_nat j /\ cs_eol s' = cs_eol s /\
    (i <> j -> raw_buf (rd (cs_scan s')) = [] /\ tupleStored (cs_scan s') = 0).
Proof.
  intros Hh Hrec Hst Hpos Hlt Hlen Hij Ei Ej Ep. unfold seek_to_row. rewrite Ei, Ej.
  destruct (Z.eqb_spec (Z.of_nat i) (Z.of_nat j)) as [E|Hne].
  - assert (i = j) as <- by lia. exists s. split_and!; done.
  - assert (eol_end s = Z.of_nat (length lens)) as ->.
    { unfold eol_end, NoDBCacheGetBegin, NoDBCacheGetUsedRows. rewrite Hst, (proj1 Hrec). unfold u64. by rewrite wrap_small by lia. }
    rewrite (proj2 (Z.leb_le _ _)) by lia. cbn [c_assert mbind result_bind].
    rewrite (BytesToSeek_spec _ lens i j Hrec Hpos Hlt) by lia. cbn [mbind result_bind]. rewrite Hh. cbn [mbind result_bind].
    eexists. split; [done|]. cbn. rewrite Ep.
    pose proof (sumz_take_le lens i j Hpos ltac:(lia)). pose proof (sumz_nonneg (take i lens) ltac:(by apply Forall_take)).
    split_and!; try done. lia.
Qed.

(** What the file has in front of its first line, as the end-of-line cache has it. *)
Definition header_is (env : exec_env) s (hs : Z) : Prop :=
  if header_line (e_line env) then c_sizeOfHeader (cs_eol s) = Some hs /\ 0 < hs else hs = 0.

Lemma seek_header env s hs : header_is env s hs ->
  (if header_line (e_line env) then
     h ← (if read_header (copy_file (rd (cs_scan s))) then Ok true else z ← NoDBCacheGetHeaderSize (cs_eol s); Ok (0 <? z));
     if (h : bool) then NoDBCacheGetHeaderSize (cs_eol s) else Ok 0
   else Ok 0) = Ok hs.
Proof.
  unfold header_is, NoDBCacheGetHeaderSize. destruct (header_line (e_line env)); [|by intros ->]. intros [-> H0].
  destruct (read_header _); cbn [mbind result_bind]; [done|]. by rewrite (proj2 (Z.ltb_lt _ _) H0).
Qed.

Lemma sumz_take_lt l (i j : nat) : Forall (fun v => 0 < v) l -> (i < j <= length l)%nat -> sumz (take i l) < sumz (take j l).
Proof.
  intros Hl Hij. destruct (lookup_lt_is_Some_2 l i) as [v Hv]; [lia|]. pose proof (proj1 (Forall_lookup _ _) Hl i v Hv) as Hp. cbn in Hp.
  pose proof (sumz_take_le l (S i) j ltac:(eapply Forall_impl; [exact Hl|]; intros v0 Hv0; cbn in *; lia) ltac:(lia)) as Hle.
  rewrite (take_S_r _ _ _ Hv), sumz_app in Hle. assert (sumz [v] = v) by (unfold sumz; simpl; lia). lia.
Qed.

(** C35 The seek before the next strategy, in a file with a header of [hs] bytes (0
    without one) of which the lines before [k] are loaded while row [i] was the last
    one read: the seek is relative to the end of what was loaded, and adds the header
    once more, so that the file is then that many bytes behind the line of the
    current row [j]. It is at that line exactly when the file has no header and no
    line was loaded ahead. *)
Theorem seek_to_row_lands (env : exec_env) s (lens : list Z) (i j k : nat) (hs : Z) :
  recorded (cs_eol s) lens -> c_startRow (cs_eol s) = 0 -> header_is env s hs ->
  Forall (fun v => 0 < v) lens -> sumz lens < 2 ^ 64 -> Z.of_nat (length lens) < 2 ^ 31 ->
  (i < j <= length lens)%nat -> (i <= k <= length lens)%nat ->
  tupleRead (cs_scan s) = Z.of_nat i -> processed (cs_scan s) = Z.of_nat j ->
  pos (copy_file (rd (cs_scan s))) = Z.to_nat (hs + sumz (take k lens)) ->
  exists s', seek_to_row env s = Ok s' /\ raw_buf (rd (cs_scan s')) = [] /\ tupleRead (cs_scan s') = Z.of_nat j /\
    pos (copy_file (rd (cs_scan s'))) =
      Z.to_nat (hs + sumz (take j lens) + (sumz (take k lens) - sumz (take i lens)) + hs) /\
    (pos (copy_file (rd (cs_scan s'))) = Z.to_nat (hs + sumz (take j lens)) <-> header_line (e_line env) = false /\ k = i).
Proof.
  intros Hrec Hst Hh Hpos Hlt Hlen Hij Hik Ei Ej Ep. unfold seek_to_row. rewrite Ei, Ej.
  assert (Hnn : Forall (fun v => 0 <= v) lens) by (eapply Forall_impl; [exact Hpos|]; intros v0 Hv0; cbn in *; lia).
  rewrite (proj2 (Z.eqb_neq _ _)) by lia.
  assert (eol_end s = Z.of_nat (length lens)) as ->.
  { unfold eol_end, NoDBCacheGetBegin, NoDBCacheGetUsedRows. rewrite Hst, (proj1 Hrec). unfold u64. by rewrite wrap_small by lia. }
  rewrite (proj2 (Z.leb_le _ _)) by lia. cbn [c_assert mbind result_bind].
  rewrite (BytesToSeek_spec _ lens i j Hrec Hnn Hlt) by lia. cbn [mbind result_bind]. rewrite (seek_header _ _ _ Hh). cbn [mbind result_bind].
  assert (0 <= hs /\ (hs = 0 <-> header_line (e_line env) = false)) as [H0 Hhs].
  { unfold header_is in Hh. destruct (header_line (e_line env)); [destruct Hh; split; [lia|split; [lia|done]]|]. subst. done. }
  pose proof (sumz_take_le lens i j Hnn ltac:(lia)). pose proof (sumz_take_le lens i k Hnn ltac:(lia)).
  pose proof (sumz_nonneg (take i lens) ltac:(by apply Forall_take)).
  eexists. split; [done|]. cbn. rewrite Ep. split_and!; [done|done|lia|]. rewrite <- Hhs. split; [|intros [-> ->]; lia].
  intros E. destruct (decide (i < k)%nat) as [Hk|Hk]; [|split; lia].
  pose proof (sumz_take_lt lens i k Hpos ltac:(lia)). lia.
Qed.

(** ** Witnesses *)
Lemma ex_after_holds :
  holds nodbdatum_codec NODB_DATA_CACHE (cs_world ex_after.2) (rows_written 0 2 [(3, [1])] (only_cells 2 2)) (only_cells 3 1) ex_datum /\
  holds pmpair_codec NODB_POSITIONS_CACHE (cs_world ex_after.2) (rows_written 0 2 [(4, [3])] (only_cells 1 0)) (only_cells 4 3)
    (fun row => pos_of (ex_fields row)).
Proof.
  destruct (exec_scan_spec (ex_env []) ReadFromFile (server_lines (ex_env []) ex_text) ex_at (Hsrc := ex_source []) ex_fields ex_datum
    ex_st1 [(2, [2])] [(1, [0])] ex_vias [] [1; 3] [(3, [1])] [(4, [3])] (only_cells 2 2) (only_cells 3 1) (only_cells 1 0)
    (only_cells 4 3) ex_datum_range) with (n := 2%nat) (lo := 0) (k := 0) (left := 10)
    (s := ex_state (or_empty ex_caches) ex_st1 ExecPlan) as (ts & s' & E & _ & _ & Hd & Hp).
  - by split.
  - by split.
  - intros x [->|[->|Hx]%elem_of_cons]%elem_of_cons; [cbn; lia|cbn; lia|by apply elem_of_nil in Hx].
  - apply ex_run.
  - done.
  - lia.
  - intros row Hr. by apply ex_ready.
  - assert (E2 : ex_after.2 = s').
    { exact (f_equal (fun r => match r with Ok x => x.2 | Fail _ => s' end) (eq_trans (eq_sym ex_after_ok) E)). }
    rewrite E2. split; [exact Hd|exact Hp].
Qed.

Lemma ex_after_start p : p = 3 \/ p = 4 ->
  exists c, w_caches (cs_world ex_after.2) !! p = Some c /\ c_startRow c = 0.
Proof. intros [-> | ->]; eexists; split; vm_compute; reflexivity. Qed.

Lemma NoDBFinalizeStrategy_witness : exists s',
  NoDBFinalizeStrategy ex_after.2 = Ok s' /\ relStats_rows s' = c_usedRows (cs_eol ex_after.2) /\
  cs_plan s' = cs_plan ex_after.2 /\
  right_cells nodbdatum_codec NODB_DATA_CACHE (cs_world s') (cs_row ex_after.2) [(3, [1])] ex_datum /\
  right_cells pmpair_codec NODB_POSITIONS_CACHE (cs_world s') (cs_row ex_after.2) [(4, [3])] (fun row => pos_of (ex_fields row)).
Proof.
  assert (Erow : cs_row ex_after.2 = 2) by (vm_compute; reflexivity).
  apply (NoDBFinalizeStrategy_publishes ex_after.2 0 ex_fields ex_datum [(3, [1])] [(4, [3])]
    (only_cells 2 2) (only_cells 3 1) (only_cells 1 0) (only_cells 4 3)); rewrite ?Erow.
  - split; vm_compute; reflexivity.
  - lia.
  - intros p [(c & [= -> _]%list_elem_of_singleton)|(c & [= -> _]%list_elem_of_singleton)];
      [destruct (ex_after_start 3) as (c0 & -> & _)|destruct (ex_after_start 4) as (c0 & -> & _)]; by eauto.
  - intros p x [-> _]%in_map_one. destruct (ex_after_start 3) as (c & Hc & Hst); [by left|]. exists c. rewrite Hst.
    split_and!; [exact Hc|lia|lia|intros; lia].
  - intros p x [-> _]%in_map_one. destruct (ex_after_start 4) as (c & Hc & Hst); [by right|]. exists c. rewrite Hst.
    split_and!; [exact Hc|lia|lia|intros; lia].
  - apply ex_after_holds.
  - apply ex_after_holds.
Defined.

(** A file of four rows with its recorded line lengths. *)
Definition four_rows : list (list Z) := (fun row => join 44 (ex_fields row)) <$> [0; 1; 2; 3].
Definition file_opts (header : bool) : line_opts :=
  {| csv_mode := true; quote := 34; escape := 34; header_line := header; encoding_embeds_ascii := false;
     pg_encoding_mblen := fun _ => 1 |}.
Definition file_env (header : bool) (size : nat) : exec_env :=
  {| e_copy := csv_defaults; e_line := file_opts header; e_conv := no_conv; e_bufsize := size; nfields := 4; lastfield := 3;
     attrlen := Some <$> [8; 8; 8; 8]; has_qual := false; readFilterAtts := no_cols;
     input_function := input_function (ex_env []); pg_verifymbstr := fun _ => true; datumGetSize := fun _ _ => 0%nat;
     ExecQual := fun _ _ _ => Ok true |}.
Definition file_of (header : bool) : list Z := (if header then [104; 10] else []) ++ file_bytes four_rows.
Definition recorded_lines (header : bool) : NoDBCache_t :=
  match read_lines (NoDBGetNextTupleFromFile 64 (file_opts header) no_conv) 5 (ex_scan ex_eol (file_of header)) with
  | Ok (_, st) => st_cache st
  | Fail _ => ex_eol
  end.

Definition seek_state : cstate :=
  let sc := ex_scan (recorded_lines false) (file_of false) in
  set_scan (ex_state (or_empty ex_caches) ex_st1 ExecPlan)
    {| rd := set_source_pos (rd sc) 8; processed := 3; tupleRead := 1; tupleStored := 0; line_buf_converted := false |}.

Lemma seek_to_row_witness : exists s',
  seek_to_row (file_env false 8) seek_state = Ok s' /\ pos (copy_file (rd (cs_scan s'))) = 24%nat /\
  tupleRead (cs_scan s') = 3 /\ processed (cs_scan s') = 3 /\ cs_eol s' = cs_eol seek_state /\
  (1%nat <> 3%nat -> raw_buf (rd (cs_scan s')) = [] /\ tupleStored (cs_scan s') = 0).
Proof.
  apply (seek_to_row_correct (file_env false 8) seek_state [8; 8; 8; 8] 1 3).
  - reflexivity.
  - split; [vm_compute; reflexivity|]. intros k v Hk.
    destruct k as [|[|[|[|k]]]]; vm_compute in Hk; simplify_eq; vm_compute; reflexivity.
  - vm_compute; reflexivity.
  - repeat constructor; lia.
  - cbn. lia.
  - cbn. lia.
  - cbn. lia.
  - reflexivity.
  - reflexivity.
  - reflexivity.
Defined.

(** With a header, or with two lines loaded ahead, row 3 is missed. *)
Definition seek_file (header : bool) (p : nat) : cstate :=
  let sc := ex_scan (recorded_lines header) (file_of header) in
  set_scan (ex_state (or_empty ex_caches) ex_st1 ExecPlan)
    {| rd := set_source_pos (rd sc) p; processed := 3; tupleRead := 1; tupleStored := 0; line_buf_converted := false |}.

Lemma seek_to_row_lands_witness :
  (exists s', seek_to_row (file_env true 8) (seek_file true 10) = Ok s' /\ pos (copy_file (rd (cs_scan s'))) = 28%nat) /\
  exists s', seek_to_row (file_env false 24) (seek_file false 24) = Ok s' /\ pos (copy_file (rd (cs_scan s'))) = 40%nat.
Proof.
  split.
  - destruct (seek_to_row_lands (file_env true 8) (seek_file true 10) [8; 8; 8; 8] 1 3 1 2) as (s' & E & _ & _ & Hp & _);
      [split; [vm_compute; reflexivity|]|vm_compute; reflexivity|split; [vm_compute; reflexivity|lia]|repeat constructor; lia|cbn; lia
      |cbn; lia|cbn; lia|cbn; lia|reflexivity|reflexivity|reflexivity|exists s'; split; [exact E|exact Hp]].
    intros k v Hk. destruct k as [|[|[|[|k]]]]; vm_compute in Hk; simplify_eq; vm_compute; reflexivity.
  - destruct (seek_to_row_lands (file_env false 24) (seek_file false 24) [8; 8; 8; 8] 1 3 3 0) as (s' & E & _ & _ & Hp & _);
      [split; [vm_compute; reflexivity|]|vm_compute; reflexivity|reflexivity|repeat constructor; lia|cbn; lia
      |cbn; lia|cbn; lia|cbn; lia|reflexivity|reflexivity|reflexivity|exists s'; split; [exact E|exact Hp]].
    intros k v Hk. destruct k as [|[|[|[|k]]]]; vm_compute in Hk; simplify_eq; vm_compute; reflexivity.
Defined.

(** ** Scans that change strategies *)
Fixpoint run_rows (env : exec_env) (n : nat) s : result (list (option (arr Z * arr Z))) :=
  match n with
  | O => Ok []
  | S n' => x ← run_plan env s true; y ← run_rows env n' x.1.1; Ok (x.1.2 :: y)
  end.

(** The second scan of the file for column 1, whose value of row 1 is in a cache:
    the strategies read row 0 from the file, row 1 from the cache and the other
    rows from the file. *)
Definition mixed_scan (header : bool) (size : nat) : result cstate :=
  c ← NoDBCacheInit 1 ex_rel4 NODB_DATA_CACHE 1 16;
  x ← NoDBCacheAddColumn c 1 16;
  c1 ← NoDBCacheSetMaxRows x.1 1;
  c2 ← cell_set nodbdatum_codec c1 1 1 (6, 0);
  let w := {| w_caches := {[ 1 := NoDBCacheSetUsedRows c2 1 ]}; NoDBCaches := [1]; w_next := 2 |} in
  x ← NoDBScanStrategyIterator w 1 ex_rel4 0 no_cols (col_vector [1]) no_cols no_cols;
  y ← NoDBScanStrategyIteratorGet x.2 x.1;
  let '(w', it, st) := y in
  let s := ex_state w' st (NoDBGetExecPlan (file_env header size) st) in
  Ok (set_plan (set_scan s (ex_scan (recorded_lines header) (file_of header)))
        (NoDBPlanStateInit st it (recorded_lines header))).

Definition column1 (x : result (list (option (arr Z * arr Z)))) : result (list (option (result Z))) :=
  match x with
  | Ok l => Ok (map (option_map (fun v => arr_get v.1 1)) l)
  | Fail e => Fail e
  end.

(** A scan that takes a row from a cache returns the four rows when every load is one
    line, and reads past the end of the file when a load brought the following lines
    too, or when the file has a header. *)
Example seek_misplaces_file :
  column1 (s ← mixed_scan false 8; run_rows (file_env false 8) 5 s) =
    Ok [Some (Ok 2); Some (Ok 6); Some (Ok 10); Some (Ok 14); None] /\
  column1 (s ← mixed_scan false 64; run_rows (file_env false 64) 2 s) = Ok [Some (Ok 2); Some (Ok 6)] /\
  column1 (s ← mixed_scan false 64; run_rows (file_env false 64) 3 s) = Fail AssertFail /\
  column1 (s ← mixed_scan true 8; run_rows (file_env true 8) 2 s) = Ok [Some (Ok 2); Some (Ok 6)] /\
  column1 (s ← mixed_scan true 8; run_rows (file_env true 8) 4 s) = Fail AssertFail.
Proof. split_and!; vm_compute; reflexivity. Qed.
