(* ===== verification/NewCaches.v ===== *)
(** * The caches that a first query makes

    A query on a relation that has no caches yet makes them all: they begin at the
    first row, hold no rows, have room for the rows of the first strategy and keep
    a full cell for every column. [BuildMatrix] keeps this of the caches of the
    relation, whatever the caches of other relations are. *)
From S2P Require Import Prelude Vectors Bitmap Relation Cache CacheData PositionalMap CacheSelect StrategyMatrix MatrixSound ScanStrategy StrategySound.

Implicit Types (w : world) (q : NoDBQueryInfo_t) (c : NoDBCache_t).

(** The bytes of a cell. *)
Definition cell_width (type : NoDBCacheType_t) : Z :=
  match type with
  | NODB_DATA_CACHE => Z.of_nat (width nodbdatum_codec)
  | NODB_POSITIONS_CACHE => Z.of_nat (width pmpair_codec)
  end.

Section caches.
Context (relp ncols last : Z) (Hlast : 0 <= last < 2 ^ 48).

Record new_cache c : Prop := {
  nc_lay : exists lay, cache_wf c lay /\ forall x s, (Some x, s) ∈ lay -> cell_width (c_type c) <= s;
  nc_start : c_startRow c = 0;
  nc_offset : c_startOffset c = 0;
  nc_used : c_usedRows c = 0;
  nc_cols : Z.of_nat (length (c_offset c)) = ncols;
  nc_size : c_rowSize c <= 256;
  nc_rows : c_buf c = None \/ exists n buf, c_nRows c = Some n /\ c_buf c = Some buf /\ 0 <= n <= last + 1 /\
    Z.of_nat (length buf) = n * c_rowSize c }.

Definition new_caches w : Prop := forall p c, w_caches w !! p = Some c -> c_rel c = relp -> new_cache c.

Lemma AddColumn_new c col size c' r :
  new_cache c -> 0 <= col < ncols -> cell_width (c_type c) <= size -> 0 <= size ->
  NoDBCacheAddColumn c col size = Ok (c', r) -> new_cache c' /\ c_rel c' = c_rel c.
Proof.
  intros [(lay & Hwf & Hw) N1 N2 N3 N4 N5 N6] Hcol Hsize H0 E.
  destruct (NoDBCacheAddColumn_spec c lay col size Hwf) as (c1 & r1 & E1 & (S1 & S2 & S3 & S4 & S5 & S6 & S7 & S8 & S9) & Hr); [lia|done|].
  rewrite E in E1. injection E1 as <- <-. split; [|done].
  split; rewrite ?S2, ?S3, ?S4, ?S5, ?S6, ?S7, ?S8, ?S9; try done.
  destruct Hr as [(_ & _ & l1 & s & l2 & -> & _ & _ & Hwf')|(_ & _ & Hwf')]; [|by exists lay].
  eexists. split; [exact Hwf'|]. intros x s' Hin. unfold take_partition in Hin.
  apply elem_of_app in Hin as [Hin|Hin]; [apply (Hw x), elem_of_app; by left|].
  apply elem_of_cons in Hin as [[= -> ->]|Hin]; [done|].
  destruct (s =? size); [|apply elem_of_cons in Hin as [Hin|Hin]; [done|]]; apply (Hw x), elem_of_app; right; by apply elem_of_cons; right.
Qed.

Lemma Init_new rel type rowSize c : 0 <= rowSize <= 256 -> NoDBRelationGetNumberColumns rel = ncols -> 0 <= ncols ->
  NoDBCacheInit relp rel type 0 rowSize = Ok c -> new_cache c /\ c_rel c = relp /\ c_type c = type.
Proof.
  intros Hs Hn H0 E. destruct (NoDBCacheInit_spec relp rel type 0 rowSize) as (c1 & E1 & Hwf & Ho & H1 & H2 & H3 & H4 & H5); [lia|lia|].
  rewrite E in E1. injection E1 as <-. destruct (NoDBCacheInit_info _ _ _ _ _ _ E) as (? & ? & _). split; [|done].
  split; try done; try lia.
  - eexists. split; [exact Hwf|]. intros x s Hin. apply list_elem_of_singleton in Hin. done.
  - rewrite H3, Z.mul_0_r. done.
  - by left.
Qed.

Lemma Grow_new c c' : new_cache c -> NoDBCacheGrow c last = Ok c' -> new_cache c' /\ c_rel c' = c_rel c.
Proof.
  intros [(lay & Hwf & Hw) N1 N2 N3 N4 N5 N6]. unfold NoDBCacheGrow, NoDBCacheSetMaxRows, NoDBCacheGetMaxRows.
  rewrite N1, Z.sub_0_r. unfold u64. rewrite (wrap_small 64 (last + 1)) by lia.
  pose proof (lay_sum_nonneg lay (wf_pos _ _ Hwf)) as Hrs. rewrite (wf_sum _ _ Hwf) in Hrs.
  assert (0 <= (last + 1) * c_rowSize c < 2 ^ 64) as Hb by nia.
  assert (Hset : forall nr buf, new_cache c -> (exists n b, nr = Some n /\ buf = Some b /\ 0 <= n <= last + 1 /\
    Z.of_nat (length b) = n * c_rowSize c) -> new_cache (set_buf c nr buf)).
  { intros nr buf _ (n & b & -> & -> & Hn & Hl). split; try done; cbn.
    - exists lay. split; [by apply set_buf_wf|done].
    - right. by exists n, b. }
  assert (Hc : new_cache c) by (split; try done; by exists lay).
  destruct N6 as [Eb|(n & buf & En & Eb & Hn & Hlen)]; rewrite Eb.
  - intros [= <-]. split; [|done]. apply Hset; [done|]. eexists _, _. split_and!; [done|done|lia|lia|].
    rewrite wrap_small by done. apply length_arr_alloc. lia.
  - rewrite En. cbn [mbind result_bind]. destruct (Z.leb_spec (last + 1) n); intros [= <-]; [by split|].
    split; [|done]. apply Hset; [done|]. eexists _, _. split_and!; [done|done|lia|lia|].
    rewrite wrap_small by done. apply length_arr_realloc. lia.
Qed.

Lemma new_caches_put w p c : new_caches w -> (c_rel c = relp -> new_cache c) -> new_caches (put_cache w p c).
Proof.
  intros Hw Hc p' c' E. cbn in E. destruct (decide (p' = p)) as [->|Hne].
  - rewrite lookup_insert_eq in E. by simplify_eq.
  - rewrite lookup_insert_ne in E by done. by apply (Hw p').
Qed.

(** A cache that was selected passed the test. *)
Lemma select_caches_in w test l : forall acc l', select_caches w test l acc = Ok l' ->
  forall p, p ∈ l' -> p ∈ acc \/ exists c, w_caches w !! p = Some c /\ test c = Ok true.
Proof.
  induction l as [|p0 l IH]; intros acc l' E p Hp; cbn [select_caches] in E; [simplify_eq; by left|].
  unfold get_cache in E. destruct (w_caches w !! p0) as [c|] eqn:Ec; [|done]. cbn [mbind result_bind] in E.
  destruct (test c) as [b|] eqn:Et; [|done]. cbn [mbind result_bind] in E.
  destruct (IH _ _ E p Hp) as [Hin|?]; [|by right]. destruct b; [|by left].
  apply elem_of_cons in Hin as [->|?]; [right; by exists c|by left].
Qed.

Lemma best_free_in w l : forall best space p, best_free w l best space = Ok p -> p = best \/ p ∈ l.
Proof.
  induction l as [|p0 l IH]; intros best space p E; cbn [best_free] in E; [simplify_eq; by left|].
  unfold get_cache in E. destruct (w_caches w !! p0) as [c|]; [|done]. cbn [mbind result_bind] in E.
  destruct (space <? NoDBCacheGetFreeSize c); apply IH in E as [->|?]; auto; right; apply elem_of_cons; auto.
Qed.
End caches.

(** ** The matrix of a first query *)
Section first.
Context (q : NoDBQueryInfo_t) (hi : Z) (Hhi : 0 < hi < 2 ^ 48).
Context (Hrows : q_rows q = row_vector [0; hi]).
Context (Hsize : forall x, x ∈ cv_cols (q_cols q) -> forall x', x = Some x' -> 0 <= x' < NoDBRelationGetNumberColumns (q_rel q) /\
  exists size, NoDBRelationGetColumnSize (q_rel q) x' = Ok size /\ cell_width NODB_DATA_CACHE <= size).
Abbreviation ok := (new_caches (q_relp q) (NoDBRelationGetNumberColumns (q_rel q)) (hi - 1)).

Lemma column_ok i x : NoDBColVectorGet (q_cols q) i = Ok x -> 0 <= x < NoDBRelationGetNumberColumns (q_rel q) /\
  exists size, NoDBRelationGetColumnSize (q_rel q) x = Ok size /\ cell_width NODB_DATA_CACHE <= size.
Proof.
  intros E. unfold NoDBColVectorGet in E. apply arr_get_lookup in E as [_ E]. apply (Hsize (Some x)); [|done].
  by eapply list_elem_of_lookup_2.
Qed.

(** At row 0 no cache is grown. *)
Lemma place_first w type getSize defaultSize rowIdx col colIdx cands set m w' m' :
  0 <= col < NoDBRelationGetNumberColumns (q_rel q) -> (forall size, getSize = Ok size -> cell_width type <= size) ->
  0 <= defaultSize <= 256 ->
  place w q type getSize defaultSize 0 rowIdx col colIdx cands set m = Ok (w', m') -> ok w -> ok w'.
Proof.
  intros Hcol Hget Hdef E Hw. unfold place, GetCachesCanGrow in E. cbn [Z.eqb mbind result_bind] in E.
  unfold GetBestCacheToGrow in E. cbn [best_grow mbind result_bind] in E.
  destruct getSize as [size|]; [|done]. cbn [mbind result_bind] in E. specialize (Hget size eq_refl).
  assert (0 <= size) by (destruct type; cbn in Hget; lia).
  destruct (GetCachesFreeColumns w (q_relp q) type (q_limit q) 0 size) as [fl|] eqn:Ef; [|done]. cbn [mbind result_bind] in E.
  destruct (GetBestCacheToAddColumn w fl) as [p|] eqn:Ep; [|done]. cbn [mbind result_bind] in E.
  destruct (Z.eqb_spec p 0) as [->|Hp]; cbn [negb] in E.
  - destruct (NoDBCacheInit (q_relp q) (q_rel q) type 0 defaultSize) as [c|] eqn:Ec; [|done]. cbn [mbind result_bind] in E.
    destruct (Init_new (q_relp q) _ (hi - 1) (q_rel q) type defaultSize c Hdef eq_refl ltac:(lia) Ec) as (Hc & Hr & Ht).
    destruct (NoDBCacheAddColumn c col size) as [[c' r]|] eqn:Ea; [|done]. cbn [mbind result_bind fst add_cache] in E.
    destruct (AddColumn_new _ _ c col size c' r Hc Hcol) as [Hc' _]; [by rewrite Ht|done|done|].
    destruct (mat_upd m rowIdx colIdx (set (w_next w))) as [m1|]; [|done]. cbn [mbind result_bind] in E. injection E as <- _.
    intros p' c2 E2 Hr2. cbn in E2. destruct (decide (p' = w_next w)) as [->|Hne].
    + rewrite lookup_insert_eq in E2. by simplify_eq.
    + rewrite lookup_insert_ne in E2 by done. by apply (Hw p').
  - unfold get_cache in E. destruct (w_caches w !! p) as [c|] eqn:Ec; [|done]. cbn [mbind result_bind] in E.
    destruct (NoDBCacheAddColumn c col size) as [[c' r]|] eqn:Ea; [|done]. cbn [mbind result_bind fst] in E.
    destruct (mark_column _ _ _ _ _ _ _) as [m1|]; [|done]. cbn [mbind result_bind] in E. injection E as <- _.
    apply best_free_in in Ep as [->|Ep]; [done|]. destruct (select_caches_in _ _ _ _ _ Ef p Ep) as [Hin|(c2 & Ec2 & Ht)]; [by apply elem_of_nil in Hin|].
    simplify_eq. do 3 apply andb_prop in Ht as [Ht _]. unfold of_rel_type in Ht.
    apply andb_prop in Ht as [Hrel Hty]. apply Z.eqb_eq in Hrel. apply bool_decide_eq_true in Hty.
    unfold NoDBCacheGetRelation, NoDBCacheGetType in *.
    apply new_caches_put; [done|]. intros _. eapply AddColumn_new; [by eapply Hw| | | |exact Ea]; [done|by rewrite Hty|done].
Qed.

Lemma miss_data_first rowIdx colIdx cands w m w' m' :
  miss_data q 0 rowIdx colIdx cands (w, m) = Ok (w', m') -> ok w -> ok w'.
Proof.
  unfold miss_data. intros E Hw. destruct (mat_get m rowIdx colIdx) as [nd|]; [|done]. cbn [mbind result_bind] in E.
  case_decide; [|by simplify_eq]. destruct (NoDBColVectorGet (q_cols q) colIdx) as [col|] eqn:Ec; [|done].
  destruct (column_ok _ _ Ec) as (Hcol & size & Esz & Hsz). cbn [mbind result_bind] in E.
  destruct (NoDBBitmapIsSet _ _) as [[|]|]; cbn [mbind result_bind] in E; [| |done].
  - eapply place_first in E; [done|done| |by vm_compute|done]. intros s' E'. rewrite E' in Esz. by simplify_eq.
  - destruct (mat_upd _ _ _ _); cbn [mbind result_bind] in E; by simplify_eq.
Qed.

Lemma miss_pm_first rowIdx colIdx cands w m w' m' :
  miss_pm q 0 rowIdx colIdx cands (w, m) = Ok (w', m') -> ok w -> ok w'.
Proof.
  unfold miss_pm. intros E Hw. destruct (mat_get m rowIdx colIdx) as [nd|]; [|done]. cbn [mbind result_bind] in E.
  destruct (wants_pm q nd colIdx) as [[|]|]; cbn [mbind result_bind] in E; [|by simplify_eq|done].
  destruct (NoDBColVectorGet (q_cols q) colIdx) as [col|] eqn:Ec; [|done].
  destruct (column_ok _ _ Ec) as (Hcol & _). cbn [mbind result_bind] in E.
  destruct (NoDBBitmapIsSet _ _) as [[|]|]; cbn [mbind result_bind] in E; [| |done].
  - eapply place_first in E; [done|done| |by vm_compute|done]. intros s' [= <-]. by vm_compute.
  - destruct (mat_upd _ _ _ _); cbn [mbind result_bind] in E; by simplify_eq.
Qed.

Lemma grow_first w hit cache w' : grow_opt w hit cache (hi - 1) = Ok w' -> ok w -> ok w'.
Proof.
  unfold grow_opt. intros E Hw. case_decide; [|by simplify_eq]. destruct cache as [p|]; [|done].
  unfold get_cache in E. destruct (w_caches w !! p) as [c|] eqn:Ec; [|done]. cbn [mbind result_bind] in E.
  destruct (NoDBCacheGrow c (hi - 1)) as [c'|] eqn:Eg; [|done]. cbn [mbind result_bind] in E. injection E as <-.
  apply new_caches_put; [done|]. intros Hr.
  assert (Hrel : c_rel c = q_relp q).
  { rewrite <- Hr. unfold NoDBCacheGrow, NoDBCacheSetMaxRows in Eg. destruct (c_buf c); [|by injection Eg as <-].
    destruct (NoDBCacheGetMaxRows c) as [n|]; [|done]. cbn [mbind result_bind] in Eg.
    destruct (u64 (hi - 1 - c_startRow c + 1) <=? n); by injection Eg as <-. }
  eapply Grow_new; [|by eapply Hw|exact Eg]. lia.
Qed.

Lemma BuildMatrix_first w w' m : BuildMatrix q w = Ok (w', m) -> ok w -> ok w'.
Proof.
  unfold BuildMatrix. rewrite Hrows. unfold NoDBRowVectorSize. cbn [rv_size row_vector length]. intros E Hw.
  apply bind_Ok in E as (m1 & _ & E). apply bind_Ok in E as ([w2 m2] & E2 & E). apply bind_Ok in E as (m3 & _ & E).
  apply bind_Ok in E as (last & El & E). apply bind_Ok in E as (w3 & Eg & E). injection E as <- _. cbn [fst snd] in *.
  change (NoDBRowVectorGet (row_vector [0; hi]) (Z.of_nat 2 - 1)) with (Ok hi) in El. injection El as <-.
  assert (ok w2) as Hw2.
  { apply (for_range_ind (fun _ wm => ok wm.1) 0 (Z.of_nat 2 - 1) (fun rowIdx wm => mark_misses q rowIdx wm) (w, m1) (w2, m2));
      [lia|exact Hw| |exact E2].
    intros i [wa ma] [wb mb] Hi Ha E. unfold mark_misses in E. rewrite Hrows in E. assert (i = 0) as -> by lia.
    cbn [fst snd] in *. change (NoDBRowVectorGet (row_vector [0; hi]) 0) with (Ok 0) in E. cbn [mbind result_bind] in E.
    apply bind_Ok in E as (cands & _ & E). unfold NoDBColVectorSize in E.
    destruct (Z.le_gt_cases 0 (cv_size (q_cols q))) as [Hn|Hn].
    - apply (for_range_ind (fun _ (wm : world * matrix) => ok wm.1) _ _ _ (wa, ma) (wb, mb) Hn Ha) in E; [exact E|]. intros j [w4 m4] [w5 m5] _ H4 E5.
      apply bind_Ok in E5 as ([w6 m6] & E6 & E7). eapply miss_pm_first; [exact E7|]. by eapply miss_data_first.
    - rewrite for_range_empty in E by lia. by simplify_eq. }
  unfold GrowToLastRow in Eg. unfold u64 in Eg. rewrite wrap_small in Eg by lia. unfold NoDBColVectorSize in Eg.
  destruct (Z.le_gt_cases 0 (cv_size (q_cols q))) as [Hn|Hn].
  - apply (for_range_ind (fun _ w => ok w) _ _ _ _ w3 Hn Hw2) in Eg; [exact Eg|]. intros j w4 w5 _ H4 E5.
    apply bind_Ok in E5 as (nd & _ & E5). apply bind_Ok in E5 as (w6 & E6 & E7).
    eapply grow_first; [exact E7|]. by eapply grow_first.
  - rewrite for_range_empty in Eg by lia. by simplify_eq.
Qed.
End first.
