(* ===== verification/ScanOperator.v ===== *)
(** * The scan operator (NoDBScan.c)

    A scan of a raw file is set up ([NoDBScanStateInit]), started again
    ([NoDBScanStateReInit], from [ExecScanReScan]) and ended (in [ExecutePlan2]).
    The set-up puts the components together: the query descriptor says which
    columns are read, the registry of relations which of them the scan may write,
    the iterator gives the first strategy and the registry of end-of-line caches
    the cache of line lengths. *)
From S2P Require Import Prelude Vectors Bitmap Relation Cache CacheData EOLCache FieldParser LineReader TupleReader CacheSelect ScanStrategy ExecInfo QueryDescriptor Executor.

(** The globals of the process; [p_next] is the address of the next relation
    descriptor. The data caches are in the state of the scan. *)
Record process := { p_desc : qd_state; p_exec : exec_world; p_eol : eol_state; p_next : Z }.
Implicit Types (p : process) (w : world).

(** What [GetScanState] makes from the COPY statement: the options, the file, and
    the columns of the relation. *)
Record copy_state := {
  k_env : exec_env; k_reader : reader; k_names : tuple_desc; k_byval : list bool; k_filename : string }.

(** [NoDBScanOperator_t] and the members of its [cstate] that executing a plan
    does not change. [so_eolp] is the address of [plan->eolCache]. *)
Record scan_oper := {
  so_relation : string; so_state : cstate; so_env : exec_env; so_readAll : NoDBColVector_t;
  so_readRest : NoDBColVector_t; so_writeData : NoDBColVector_t; so_writePositions : NoDBColVector_t;
  so_info : exec_ptr; so_eolp : Z }.
Implicit Types (so : scan_oper).

Definition with_state so (s : cstate) : scan_oper :=
  {| so_relation := so_relation so; so_state := s; so_env := so_env so; so_readAll := so_readAll so;
     so_readRest := so_readRest so; so_writeData := so_writeData so; so_writePositions := so_writePositions so;
     so_info := so_info so; so_eolp := so_eolp so |}.
Definition with_exec p (x : exec_world) (eol : eol_state) : process :=
  {| p_desc := p_desc p; p_exec := x; p_eol := eol; p_next := p_next p |}.

Definition sizeof_NoDBDatum : Z := 16.

(** [st_size] is the file size that [stat] reports. *)
Section scan_operator.
Context (st_size : string -> Z).

(** ** Set-up *)

(** The columns that are read, those of the filter and the others. *)
Definition query_columns (d : qd_state) (names : tuple_desc) (relation : string) (qual : bool)
    : result (NoDBColVector_t * NoDBColVector_t * NoDBColVector_t) :=
  all ← getQueryAttributes d names relation;
  if qual then
    filter ← getQueryFilterAttributes d names relation;
    rest ← getQueryRestAttributes all filter;
    Ok (all, filter, rest)
  else
    rest ← getQueryAttributes d names relation;
    Ok (all, NoDBColVectorInit 0, rest).

(** The entry of the relation, made when there is none. *)
Definition relation_info p (relation : string) (byval : list bool) (file : string) : result (process * exec_ptr) :=
  o ← NoDBGetExecInfo (p_exec p) relation;
  match o with
  | Some x => Ok (p, x)
  | None =>
      rel ← add_columns (NoDBRelationInit relation) ((fun b => (sizeof_NoDBDatum, b)) <$> byval);
      y ← NoDBExecInfoInit (p_exec p) (p_next p) rel file 0 0;
      x ← get_info y.1 y.2;
      e ← put_info y.1 y.2 (NoDBExecSetNumberOffBlocks st_size x);
      Ok ({| p_desc := p_desc p; p_exec := e; p_eol := p_eol p; p_next := p_next p + 1 |}, y.2)
  end.

(** [readAllAtts[size - 1]], or 0. *)
Definition last_field (all : NoDBColVector_t) : result Z :=
  let size := NoDBColVectorSize all in
  if 0 <? size then NoDBColVectorGet all (size - 1) else Ok 0.

(** The iterator of the query and its first strategy. *)
Definition first_strategy w (x : NoDBExecInfo_t) (limit : Z) (filter rest writeData writePositions : NoDBColVector_t)
    : result (world * NoDBScanStrategyIterator_t * NoDBScanStrategy_t) :=
  y ← NoDBScanStrategyIterator w (xi_relp x) (xi_rel x) limit filter rest writeData writePositions;
  NoDBScanStrategyIteratorGet y.2 y.1.

(** The end-of-line cache that the registry has for the relation. *)
Definition eol_of (eol : eol_state) (relation : string) (rows : Z) : result (eol_state * Z * NoDBCache_t) :=
  y ← NoDBInitEOLCache eol relation rows;
  match ec_caches y.1 !! y.2 with
  | Some c => Ok (y.1, y.2, c)
  | None => Fail Indeterminate
  end.

(** The members of the state that are set up once. *)
Definition scan_env (e : exec_env) (qual : bool) (filter : NoDBColVector_t) (last : Z) : exec_env :=
  {| e_copy := e_copy e; e_line := e_line e; e_conv := e_conv e; e_bufsize := e_bufsize e; nfields := nfields e;
     lastfield := last; attrlen := attrlen e; has_qual := qual; readFilterAtts := filter;
     input_function := input_function e; pg_verifymbstr := pg_verifymbstr e; datumGetSize := datumGetSize e;
     ExecQual := ExecQual e |}.

Definition new_attributes (natts : Z) : result attributes_t :=
  a ← arr_set (arr_alloc (natts + 1)) 0 0;
  Ok {| at_pointer := a; at_width := arr_alloc (natts + 1) |}.

Definition NoDBScanStateInit p w (k : copy_state) (relation : string) (qual : bool) : result (process * scan_oper) :=
  let natts := Z.of_nat (length (k_names k)) in
  att ← new_attributes natts;
  cols ← query_columns (p_desc p) (k_names k) relation qual;
  let '(all, filter, rest) := cols in
  values ← arr_fill 0 natts 0 (arr_alloc natts);
  nulls ← arr_fill 0 natts 1 (arr_alloc natts);
  pi ← relation_info p relation (k_byval k) (k_filename k);
  let '(p1, ptr) := pi in
  last ← last_field all;
  x ← get_info (p_exec p1) ptr;
  y ← NoDBAggressiveCachePolicy x all;
  z ← NoDBAggressivePMPolicy y.1 all;
  e1 ← put_info (p_exec p1) ptr z.1;
  it ← first_strategy w z.1 (getQueryLimit (p_desc p1)) filter rest y.2 z.2;
  let '(w1, iter, st) := it in
  ec ← eol_of (p_eol p1) relation (nrows st);
  let '(eol, ep, c) := ec in
  let env := scan_env (k_env k) qual filter last in
  Ok (with_exec p1 e1 eol,
      {| so_relation := relation;
         so_state :=
           {| cs_scan := {| rd := set_cache (k_reader k) c; processed := 0; tupleRead := 0; tupleStored := 0;
                            line_buf_converted := false |};
              cs_fields := {| attribute_buf := []; buf_maxlen := 1024; fieldvals := arr_alloc natts; attributes := att |};
              cs_values := values; cs_nulls := nulls; cs_mem := []; cs_world := w1;
              cs_plan := NoDBPlanStateInit st iter c; execNoDBPlan := NoDBGetExecPlan env st;
              relStats_rows := stat_rows (relStats z.1) |};
         so_env := env; so_readAll := all; so_readRest := rest; so_writeData := y.2; so_writePositions := z.2;
         so_info := ptr; so_eolp := ep |}).

(** ** Starting again *)

(** The caches of line lengths, with what the scan recorded. *)
Definition sync_eol (eol : eol_state) (ep : Z) (c : NoDBCache_t) : eol_state :=
  {| ec_world := ec_world eol; ec_caches := <[ep := c]> (ec_caches eol); ec_next := ec_next eol |}.

Definition rewind (r : reader) : reader :=
  {| raw_buf := []; raw_buf_index := 0; line_buf := line_buf r;
     copy_file := {| contents := contents (copy_file r); pos := 0; read_header := false;
                     eolCache := eolCache (copy_file r) |};
     eol_type := eol_type r; cur_lineno := cur_lineno r |}.

(** The locks of all columns that are read are given back; if one was held, the
    columns to write are asked for again. *)
Definition renew_locks (x : NoDBExecInfo_t) so : result (NoDBExecInfo_t * NoDBColVector_t * NoDBColVector_t) :=
  y ← NoDBExecReleaseCacheLocks x (so_readAll so);
  d ← (if y.2 : bool then NoDBAggressiveCachePolicy y.1 (so_readAll so) else Ok (y.1, so_writeData so));
  z ← NoDBExecReleasePMLocks d.1 (so_readAll so);
  m ← (if z.2 : bool then NoDBAggressivePMPolicy z.1 (so_readAll so) else Ok (z.1, so_writePositions so));
  Ok (m.1, d.2, m.2).

(** The second part of [NoDBScanStateReInit]. The end-of-line cache is extended by
    the rows of the old strategy. *)
Definition restart p so : result (process * scan_oper) :=
  let s := so_state so in
  let env := so_env so in
  let s1 := set_scan s {| rd := rewind (rd (cs_scan s)); processed := 0; tupleRead := 0; tupleStored := 0;
                          line_buf_converted := line_buf_converted (cs_scan s) |} in
  x ← get_info (p_exec p) (so_info so);
  l ← renew_locks x so;
  let '(x1, wd, wp) := l in
  e1 ← put_info (p_exec p) (so_info so) x1;
  it ← first_strategy (cs_world s1) x1 (getQueryLimit (p_desc p)) (readFilterAtts env) (so_readRest so) wd wp;
  let '(w1, iter, st) := it in
  s2 ← extend_eol (set_world s1 w1) (nrows (curStrategy (cs_plan s1)));
  ec ← eol_of (sync_eol (p_eol p) (so_eolp so) (cs_eol s2)) (so_relation so) (nrows st);
  let '(eol, ep, c) := ec in
  let s3 := set_scan s2 (set_rd (cs_scan s2) (set_cache (rd (cs_scan s2)) c)) in
  Ok (with_exec p e1 eol,
      {| so_relation := so_relation so;
         so_state := set_exec (set_plan s3 (NoDBPlanStateInit st iter c)) (NoDBGetExecPlan env st);
         so_env := env; so_readAll := so_readAll so; so_readRest := so_readRest so; so_writeData := wd;
         so_writePositions := wp; so_info := so_info so; so_eolp := ep |}).

(** [NoDBExecSetNumberOffRows], which executing a plan does in its own copy. *)
Definition sync_rows p so (s : cstate) : result process :=
  x ← get_info (p_exec p) (so_info so);
  e ← put_info (p_exec p) (so_info so) (set_stats x (blocks (relStats x)) (relStats_rows s));
  Ok (with_exec p e (p_eol p)).

(** [processed >= 0] always holds for the unsigned [processed]. *)
Definition NoDBScanStateReInit p so : result (process * scan_oper) :=
  let env := so_env so in
  s1 ← NoDBFinalizeStrategy (so_state so);
  p ← sync_rows p so s1;
  s2 ← seek_to_row env s1;
  x ← (if eol_end s2 <=? tupleRead (cs_scan s2) then
         y ← NoDBTryReFillRawBuf (e_bufsize env) (e_line env) (rd (cs_scan s2));
         Ok (set_scan s2 (set_rd (cs_scan s2) y.1), negb y.2)
       else Ok (s2, false));
  let '(s3, more) := x in
  if more : bool then
    let pl := cs_plan s3 in
    Ok (p, with_state so (set_plan (set_exec s3 (NoDBGetExecPlan env (curStrategy pl)))
             (set_counts pl (nRows pl) (nEOL pl) (nMin pl) (tuplesToRead pl) (NoDBGetReadFile (nEOL pl)) (hasEOL pl))))
  else restart p (with_state so s3).

(** ** The end of a scan (ExecutePlan2, when the plan has no more tuples) *)
Definition close_scan p so : result (process * world) :=
  s1 ← NoDBFinalizeStrategy (so_state so);
  p ← sync_rows p so s1;
  x ← get_info (p_exec p) (so_info so);
  y ← NoDBExecReleasePMLocks x (so_readAll so);
  z ← NoDBExecReleaseCacheLocks y.1 (so_readAll so);
  e ← put_info (p_exec p) (so_info so) (NoDBExecIntegrityCheckCompleted z.1);
  Ok (with_exec p e (sync_eol (p_eol p) (so_eolp so) (cs_eol s1)), cs_world s1).

End scan_operator.
