(* ===== verification/ScanOperatorSound.v ===== *)
(** * Setting up and restarting a scan

    The proofs about ScanOperator.v: the set-up of a scan returns, reads the
    columns of the query, locks the ones it writes and begins with a strategy that
    serves them; a scan that starts again after its end reads the file from the
    beginning, and one that starts again before its end does not. *)
From S2P Require Import Prelude Vectors Bitmap Relation Cache CacheData EOLCache FieldParser LineReader TupleReader CacheSelect StrategyMatrix MatrixSound ScanStrategy StrategySound IteratorSound ExecInfo DArray QueryDescriptor Executor ExecutorSound PlanSound StrategySwitch ScanOperator.

Implicit Types (w : world) (so : scan_oper).

(** ** The first strategy *)
Lemma first_strategy_spec w x limit filter rest writeData writePositions :
  caches_ok (xi_relp x) (xi_rel x) w -> request_ok (xi_rel x) (filter ++ rest ++ writeData ++ writePositions) ->
  exists w' it st hi, first_strategy w x limit (col_vector filter) (col_vector rest) (col_vector writeData)
      (col_vector writePositions) = Ok (w', it, st) /\ caches_ok (xi_relp x) (xi_rel x) w' /\ 0 < hi < 2 ^ 64 /\
    exists w0, extends w w' /\ serves (it_queryInfo it) w0 w' filter rest writeData 0 hi st /\ (w0 = w \/ extends w w0).
Proof.
  intros Hw Hreq. unfold first_strategy.
  destruct (NoDBScanStrategyIterator_spec (xi_relp x) (xi_rel x) limit filter rest writeData writePositions w Hw Hreq)
    as (w1 & it & -> & Hw1 & He1 & Hat). cbn [mbind result_bind fst snd].
  pose proof Hat as [_ _ _ (sts & bs & cur & E1 & E2 & E3 & Hle & Hbl & Hs & Hf & _ & Elo & Hno & _)].
  destruct (Z.lt_ge_cases (it_cur it) (it_len it)) as [Hlt|Hge].
  - destruct (Get_left _ _ _ _ _ _ _ w1 it 0 Hat Hlt) as (st & hi & -> & Hhi & Hsv & Hn).
    exists w1, it, st, hi. split_and!; [done|done|done| |].
    + pose proof Hn as [_ _ _ (sts' & bs' & cur' & _ & _ & _ & _ & Hbl' & _ & Hf' & _ & Elo' & _)].
      destruct (bs' !! cur') as [b|] eqn:Eb; cbn in Elo'; [|lia]. subst b. by apply (Forall_lookup_1 _ _ _ _ Hf' Eb).
    + exists w. split_and!; [done|done|by left].
  - assert (Hcur : it_cur it = it_len it) by lia. assert (cur = length sts) as -> by lia. rewrite Elo in Hno.
    destruct (Get_new _ _ _ _ _ _ _ w1 it 0 Hat Hcur Hw1) as (w' & it' & st & -> & Hw' & He & Hsv & _).
    + by apply (no_rows_extends (xi_relp x) (xi_rel x) w).
    + by vm_compute.
    + exists w', it', st, (0 + NODB_CACHE_DEFAULT_ROWS). split_and!; [done|done|done|by vm_compute|].
      exists w1. split_and!; [|done|by right]. exact (extends_trans _ _ _ (caches_ok_world _ _ _ Hw1) He1 He).
Qed.

(** ** The entry of the relation *)

(** An entry for [byval] columns of a datum each: its locks and bitmaps have a cell
    per column. *)
Record info_ok (x : NoDBExecInfo_t) (byval : list bool) (lk lp bs bp : list bool) : Prop := {
  io_rel : rel_rep (xi_rel x) ((fun b => (sizeof_NoDBDatum, b)) <$> byval);
  io_cache : CacheLock (locks x) = locks_of lk;
  io_pm : PMLock (locks x) = locks_of lp;
  io_bits : colsCache (info x) = bitmap_of bs;
  io_pmbits : colsPM (info x) = bitmap_of bp;
  io_lk : length lk = length byval;
  io_lp : length lp = length byval;
  io_bs : length bs = length byval;
  io_bp : length bp = length byval }.

Lemma info_columns x byval lk lp bs bp : info_ok x byval lk lp bs bp ->
  NoDBRelationGetNumberColumns (xi_rel x) = Z.of_nat (length byval).
Proof. intros [(Hu & _) _ _ _ _ _ _ _ _]. unfold NoDBRelationGetNumberColumns. by rewrite Hu, length_fmap. Qed.

Lemma rel_rep_size rel byval i : rel_rep rel ((fun b => (sizeof_NoDBDatum, b)) <$> byval) ->
  0 <= i < Z.of_nat (length byval) -> NoDBRelationGetColumnSize rel i = Ok sizeof_NoDBDatum.
Proof.
  intros (_ & Ha & _) Hi. unfold NoDBRelationGetColumnSize.
  destruct (lookup_lt_is_Some_2 byval (Z.to_nat i)) as [b Hb]; [lia|].
  assert (arr_get (rel_attrs rel) i = Ok (attr_of (sizeof_NoDBDatum, b))) as ->; [|done].
  apply arr_get_lookup. split; [lia|]. rewrite Ha. apply lookup_app_l_Some. by rewrite !list_lookup_fmap, Hb.
Qed.

Lemma info_request x byval lk lp bs bp cols : info_ok x byval lk lp bs bp -> Z.of_nat (length byval) <= 2 ^ 31 ->
  cols_of (length byval) cols -> request_ok (xi_rel x) cols.
Proof.
  intros Hx Hn Hc. pose proof (info_columns _ _ _ _ _ _ Hx) as E. split; rewrite ?E.
  - done.
  - intros c Hin. exists sizeof_NoDBDatum. split; [|by vm_compute]. eapply rel_rep_size; [apply Hx|].
    unfold cols_of in Hc. rewrite Forall_forall in Hc. by apply Hc.
  - lia.
Qed.

Lemma put_info_spec st (ptr : exec_ptr) x y : get_info st ptr = Ok x ->
  exists st', put_info st ptr y = Ok st' /\ get_info st' ptr = Ok y.
Proof.
  unfold get_info, put_info. destruct (ExecInfo st) as [v|]; [|done]. destruct (xv_block v =? ptr.1) eqn:E; [|done].
  intros H. pose proof (arr_get_length _ _ _ H). rewrite arr_set_Ok by lia. cbn [mbind result_bind]. eexists. split; [done|].
  cbn. rewrite E. apply arr_get_lookup. split; [lia|]. apply list_lookup_insert_eq. lia.
Qed.

Lemma new_info_ok relp rel file byval : rel_rep rel ((fun b => (sizeof_NoDBDatum, b)) <$> byval) ->
  (String.length file < FILENAME_SIZE)%nat ->
  let none := replicate (length byval) false in
  exists x, new_info relp rel file 0 0 = Ok x /\ xi_relp x = relp /\ xi_rel x = rel /\ info_ok x byval none none none none.
Proof.
  intros Hr Hf none. unfold new_info. assert (NoDBRelationGetNumberColumns rel = Z.of_nat (length byval)) as ->.
  { destruct Hr as (Hu & _). unfold NoDBRelationGetNumberColumns. by rewrite Hu, length_fmap. }
  cbv zeta. pose proof (init_bits (length byval)) as Hb.
  destruct (NoDBBitmapInit (Z.of_nat (length byval))) as [b|] eqn:E; [|done]. cbn [mbind result_bind] in Hb |- *. rewrite Hb.
  cbn [mbind result_bind]. rewrite clear_locks. cbn [mbind result_bind fst snd].
  rewrite decide_True by done. eexists. split; [done|]. split_and!; [done|done|].
  split; try done; unfold none; by rewrite length_replicate.
Qed.

Lemma set_stats_ok x b r byval lk lp bs bp : info_ok x byval lk lp bs bp -> info_ok (set_stats x b r) byval lk lp bs bp.
Proof. by intros []. Qed.

Section setup.
Context (st_size : string -> Z).

Lemma relation_info_spec p xs relation byval file : registry (p_exec p) xs ->
  (forall x, x ∈ xs -> rel_name (xi_rel x) = relation -> exists lk lp bs bp, info_ok x byval lk lp bs bp) ->
  (String.length file < FILENAME_SIZE)%nat ->
  exists p1 ptr x lk lp bs bp, relation_info st_size p relation byval file = Ok (p1, ptr) /\ get_info (p_exec p1) ptr = Ok x /\
    info_ok x byval lk lp bs bp /\ p_desc p1 = p_desc p /\ p_eol p1 = p_eol p /\
    (x ∈ xs /\ rel_name (xi_rel x) = relation \/ xi_relp x = p_next p /\ lk = replicate (length byval) false).
Proof.
  intros Hreg Hold Hfile. unfold relation_info.
  destruct (GetExecInfo_spec _ _ relation Hreg) as [(i & y & b & Hy & Hn & -> & Hget)|[_ ->]]; cbn [mbind result_bind].
  - destruct (Hold y) as (lk & lp & bs & bp & Hx); [by eapply list_elem_of_lookup_2|done|].
    exists p, (b, Z.of_nat i), y, lk, lp, bs, bp. split_and!; try done. left. split; [by eapply list_elem_of_lookup_2|done].
  - destruct (add_columns_spec ((fun b => (sizeof_NoDBDatum, b)) <$> byval) _ _ (NoDBRelationInit_rep relation)) as (rel & -> & Hrel).
    cbn [mbind result_bind]. destruct (new_info_ok (p_next p) rel file byval Hrel Hfile) as (x & Ex & Hp & _ & Hx).
    destruct (ExecInfoInit_spec _ _ _ _ _ _ _ _ Hreg Ex) as (st' & ptr & -> & _ & _ & Hget & _). cbn [mbind result_bind fst snd].
    rewrite Hget. cbn [mbind result_bind].
    destruct (put_info_spec st' ptr x (NoDBExecSetNumberOffBlocks st_size x) Hget) as (st2 & -> & Hget2). cbn [mbind result_bind].
    eexists _, ptr, _, _, _, _, _. split; [done|]. cbn [p_exec p_desc p_eol]. split; [exact Hget2|].
    split; [by apply set_stats_ok|]. split_and!; [done|done|]. by right.
Qed.
(** The columns that are not locked are taken, and are locked then. *)
Lemma cache_policy_spec x byval lk lp bs bp qs : info_ok x byval lk lp bs bp -> NoDup qs -> cols_of (length byval) qs ->
  let fr := filter (is_free lk) qs in
  exists x', NoDBAggressiveCachePolicy x (col_vector qs) = Ok (x', col_vector fr) /\
    info_ok x' byval (mark true lk fr) lp (mark true bs fr) bp /\ xi_relp x' = xi_relp x /\ xi_rel x' = xi_rel x /\
    relStats x' = relStats x.
Proof.
  intros [H1 H2 H3 H4 H5 H6 H7 H8 H9] Hnd Hc fr. unfold NoDBAggressiveCachePolicy. rewrite H2, H4.
  rewrite take_free_spec by (rewrite ?H6; done || congruence). cbn [mbind result_bind]. fold fr.
  eexists. split; [done|]. split; [|done]. split; cbn; rewrite ?length_mark; done.
Qed.

Lemma pm_policy_spec x byval lk lp bs bp qs : info_ok x byval lk lp bs bp -> NoDup qs -> cols_of (length byval) qs ->
  let fr := filter (is_free lp) qs in
  exists x', NoDBAggressivePMPolicy x (col_vector qs) = Ok (x', col_vector fr) /\
    info_ok x' byval lk (mark true lp fr) bs (mark true bp fr) /\ xi_relp x' = xi_relp x /\ xi_rel x' = xi_rel x /\
    relStats x' = relStats x.
Proof.
  intros [H1 H2 H3 H4 H5 H6 H7 H8 H9] Hnd Hc fr. unfold NoDBAggressivePMPolicy. rewrite H3, H5.
  rewrite take_free_spec by (rewrite ?H7; done || congruence). cbn [mbind result_bind]. fold fr.
  eexists. split; [done|]. split; [|done]. split; cbn; rewrite ?length_mark; done.
Qed.

(** All columns that were asked for are locked afterwards. *)
Lemma mark_free_all lk qs n : cols_of n qs -> length lk = n ->
  forall c, c ∈ qs -> mark true lk (filter (is_free lk) qs) !! Z.to_nat c = Some true.
Proof.
  intros Hc Hl c Hin. unfold cols_of in Hc. assert (Hr : 0 <= c < Z.of_nat n) by (by apply (proj1 (Forall_forall _ _) Hc)).
  assert (Hfr : cols_of (length lk) (filter (is_free lk) qs)) by (rewrite Hl; by apply Forall_filtered).
  destruct (free_or_held lk c) as [Hf|Hh]; [rewrite Hl; done| |].
  - apply mark_in; [done|]. by apply list_elem_of_filter.
  - destruct (decide (c ∈ filter (is_free lk) qs)) as [Hi|Hi]; [by apply mark_in|]. rewrite mark_other; (done || lia).
Qed.

(** ** The end-of-line cache *)
Lemma eol_of_spec eol m relation rows : eol_rep eol m -> relation <> "" ->
  (String.length relation < EOLCache.EOL_NAME_SIZE)%nat ->
  exists eol' ep c, eol_of eol relation rows = Ok (eol', ep, c) /\ ec_caches eol' !! ep = Some c /\
    match m !! relation with
    | Some q => ep = q /\ ec_caches eol' = ec_caches eol
    | None => new_eol_cache (ec_next eol) relation rows = Ok c
    end.
Proof.
  intros Hr Hne Hlen. unfold eol_of. pose proof (find_relation_spec eol m relation Hr Hne) as Hf.
  destruct (m !! relation) as [q|] eqn:Em.
  - destruct Hf as [i Hf]. destruct (er_live _ _ Hr _ _ Em) as [c Hc].
    unfold NoDBInitEOLCache. rewrite Hf. cbn [slot_get slot_cache mbind result_bind fst snd ec_caches]. rewrite Hc.
    eexists _, q, c. split; [done|]. split_and!; done.
  - destruct (new_eol_cache_total (ec_next eol) relation rows) as (c & Ec & _).
    assert (exists i v1, match list_find (fun s => slot_relation s = ""%string) (slots eol) with
      | Some (i, _) => (i, slots eol)
      | None => (length (slots eol), slots eol ++ replicate EOLCache.NELLEM_ALLOC free_slot)
      end = (i, v1)) as (i & v1 & Ep) by (destruct (list_find _ _) as [[]|]; eauto).
    pose proof (NoDBInitEOLCache_new eol relation rows i v1 c Hf Ep Hlen Ec) as E. cbv zeta in E. rewrite E.
    cbn [mbind result_bind fst snd ec_caches]. rewrite lookup_insert_eq. eexists _, _, c. split; [done|].
    cbn [ec_caches]. rewrite lookup_insert_eq. done.
Qed.

(** ** The columns of the query *)
Definition filter_columns (qual : bool) (d : qd_state) : Prop :=
  qual = true -> forall x, x ∈ filtered d -> whole_row x = false.

Lemma without_none (l : list Z) : filter (fun c => c ∉ []) l = l.
Proof. induction l as [|c l IH]; [done|]. rewrite filter_cons, decide_True by (apply not_elem_of_nil). by rewrite IH. Qed.

Lemma query_columns_spec d names relation qual :
  rtc qd_step qd_start d -> NoDup names -> relation <> "" -> filter_columns qual d ->
  exists qs fs, query_columns d names relation qual
      = Ok (col_vector qs, col_vector fs, col_vector (filter (fun c => c ∉ fs) qs)) /\
    StronglySorted Z.lt qs /\ StronglySorted Z.lt fs /\ (forall c, c ∈ fs -> c ∈ qs) /\ cols_of (length names) qs /\
    forall c, c ∈ qs <-> 0 <= c /\ exists x, x ∈ reported d /\ concerns (aliases d) relation x /\
      covers names x (Z.to_nat c).
Proof.
  intros Hr Hnd Hne Hf. unfold query_columns.
  destruct (getQueryAttributes_reachable d names relation Hr Hnd) as (qs & Eq & Hs & Hin). rewrite Eq. cbn [mbind result_bind].
  assert (Hcols : cols_of (length names) qs).
  { apply Forall_forall. intros c [Hc (x & _ & _ & Hlt & _)]%Hin. lia. }
  destruct qual.
  - destruct (filter_reachable d names relation qs Hr Hnd Hne (Hf eq_refl) Eq) as (fs & -> & Hsf & Hsub).
    cbn [mbind result_bind]. rewrite getQueryRestAttributes_spec by (done || by apply sorted_lt_NoDup).
    exists qs, fs. by split_and!.
  - exists qs, []. split_and!; try done.
    + by rewrite without_none.
    + constructor.
    + by intros c ?%elem_of_nil.
Qed.

(** ** The set-up *)

(** The process before a scan of the relation: its descriptor was filled by the
    parser, the entry of the relation, if any, has a lock per column, the caches
    are as the operator makes them and the end-of-line caches are registered. *)
Record process_ok p w (relation : string) (byval : list bool) (xs : list NoDBExecInfo_t) (m : gmap string Z) : Prop := {
  po_desc : rtc qd_step qd_start (p_desc p);
  po_reg : registry (p_exec p) xs;
  po_info : forall x, x ∈ xs -> rel_name (xi_rel x) = relation -> exists lk lp bs bp, info_ok x byval lk lp bs bp;
  po_caches : forall relp rel, NoDBRelationGetNumberColumns rel = Z.of_nat (length byval) ->
    (relp = p_next p \/ exists x, x ∈ xs /\ rel_name (xi_rel x) = relation /\ xi_relp x = relp) -> caches_ok relp rel w;
  po_eol : eol_rep (p_eol p) m }.

(** What the statement gives: its columns have different names, and the names fit
    their buffers. *)
Record copy_ok (k : copy_state) (relation : string) : Prop := {
  ko_names : NoDup (k_names k);
  ko_byval : length (k_byval k) = length (k_names k);
  ko_natts : Z.of_nat (length (k_names k)) <= 2 ^ 31;
  ko_relation : relation <> "";
  ko_name : (String.length relation < EOLCache.EOL_NAME_SIZE)%nat;
  ko_file : (String.length (k_filename k) < FILENAME_SIZE)%nat }.

(** A scan that is about to return its first tuple. *)
Record scan_ready so (filter rest writeData : list Z) (hi : Z) : Prop := {
  sr_row : processed (cs_scan (so_state so)) = 0 /\ tupleRead (cs_scan (so_state so)) = 0;
  sr_rows : nRows (cs_plan (so_state so)) = hi;
  sr_lines : nEOL (cs_plan (so_state so)) = NoDBCacheGetUsedRows (cs_eol (so_state so)) /\
    readFile (cs_plan (so_state so)) = NoDBGetReadFile (NoDBCacheGetUsedRows (cs_eol (so_state so)));
  sr_plan : execNoDBPlan (so_state so) = NoDBGetExecPlan (so_env so) (curStrategy (cs_plan (so_state so)));
  sr_serves : exists w0, serves (it_queryInfo (iterator (cs_plan (so_state so)))) w0 (cs_world (so_state so))
    filter rest writeData 0 hi (curStrategy (cs_plan (so_state so))) }.

Lemma new_attributes_ok natts : 0 <= natts -> exists att, new_attributes natts = Ok att.
Proof.
  intros Hn. unfold new_attributes. rewrite arr_set_Ok by (rewrite length_arr_alloc; lia). by eexists.
Qed.

Lemma fill_ok n (v : Z) : 0 <= n -> exists a, arr_fill 0 n v (arr_alloc n) = Ok a.
Proof. intros Hn. rewrite arr_fill_all by (by apply length_arr_alloc). by eexists. Qed.

Lemma last_field_ok qs : exists c, last_field (col_vector qs) = Ok c.
Proof.
  unfold last_field, NoDBColVectorSize, NoDBColVectorGet. cbn [cv_size cv_cols col_vector].
  destruct (Z.ltb_spec 0 (Z.of_nat (length qs))); [|by eexists].
  destruct (col_read qs (Z.of_nat (length qs) - 1)) as (c & _ & ->); [lia|]. by eexists.
Qed.

Lemma request_columns n qs fs wd wp : cols_of n qs -> (forall c, c ∈ fs -> c ∈ qs) -> (forall c, c ∈ wd -> c ∈ qs) ->
  (forall c, c ∈ wp -> c ∈ qs) -> cols_of n (fs ++ filter (fun c => c ∉ fs) qs ++ wd ++ wp).
Proof.
  unfold cols_of. rewrite !Forall_forall. intros Hq Hf Hd Hp c. rewrite !elem_of_app, list_elem_of_filter.
  intros [?|[[_ ?]|[?|?]]]; apply Hq; auto.
Qed.

Lemma Init_spec p w k relation qual xs m :
  process_ok p w relation (k_byval k) xs m -> copy_ok k relation -> filter_columns qual (p_desc p) ->
  exists p' so qs fs wd hi, NoDBScanStateInit st_size p w k relation qual = Ok (p', so) /\
    so_readAll so = col_vector qs /\ so_writeData so = col_vector wd /\
    (forall c, c ∈ qs <-> 0 <= c /\ exists x, x ∈ reported (p_desc p) /\ concerns (aliases (p_desc p)) relation x /\
      covers (k_names k) x (Z.to_nat c)) /\
    (forall c, c ∈ fs -> c ∈ qs) /\ (forall c, c ∈ wd -> c ∈ qs) /\
    scan_ready so fs (filter (fun c => c ∉ fs) qs) wd hi /\ 0 < hi < 2 ^ 64 /\
    (exists x lk lp bs bp, get_info (p_exec p') (so_info so) = Ok x /\ info_ok x (k_byval k) lk lp bs bp /\
      (forall c, c ∈ qs -> lk !! Z.to_nat c = Some true /\ lp !! Z.to_nat c = Some true) /\
      caches_ok (xi_relp x) (xi_rel x) (cs_world (so_state so))).
Proof.
  intros [Hd Hreg Hinfo Hcaches Heol] [Hn Hb Hna Hr Hl Hfile] Hqual. unfold NoDBScanStateInit.
  set (natts := Z.of_nat (length (k_names k))). assert (0 <= natts) by lia.
  destruct (new_attributes_ok natts) as (att & ->); [done|]. cbn [mbind result_bind].
  destruct (query_columns_spec _ _ _ qual Hd Hn Hr Hqual) as (qs & fs & -> & Hsq & Hsf & Hsub & Hcols & Hin).
  cbn [mbind result_bind]. destruct (fill_ok natts 0) as (values & ->); [done|]. cbn [mbind result_bind].
  destruct (fill_ok natts 1) as (nulls & ->); [done|]. cbn [mbind result_bind].
  destruct (relation_info_spec p xs relation (k_byval k) (k_filename k) Hreg Hinfo Hfile)
    as (p1 & ptr & x & lk & lp & bs & bp & -> & Hget & Hx & Ed & Ee & Hrelp). cbn [mbind result_bind].
  destruct (last_field_ok qs) as (last & ->). cbn [mbind result_bind]. rewrite Hget. cbn [mbind result_bind].
  rewrite <- Hb in Hcols. pose proof (sorted_lt_NoDup qs Hsq) as Hnd.
  destruct (cache_policy_spec _ _ _ _ _ _ qs Hx Hnd Hcols) as (y & -> & Hy & Ey1 & Ey2 & _). cbn [mbind result_bind fst snd].
  destruct (pm_policy_spec _ _ _ _ _ _ qs Hy Hnd Hcols) as (z & -> & Hz & Ez1 & Ez2 & _). cbn [mbind result_bind fst snd].
  set (wd := filter (is_free lk) qs) in *. set (wp := filter (is_free lp) qs) in *.
  destruct (put_info_spec _ _ _ z Hget) as (e1 & -> & Hget1). cbn [mbind result_bind].
  assert (Hwd : forall c, c ∈ wd -> c ∈ qs) by (intros c [_ ?]%list_elem_of_filter; done).
  assert (Hwp : forall c, c ∈ wp -> c ∈ qs) by (intros c [_ ?]%list_elem_of_filter; done).
  assert (Hok : caches_ok (xi_relp z) (xi_rel z) w).
  { rewrite Ez1, Ez2, Ey1, Ey2. apply Hcaches; [by eapply info_columns|].
    destruct Hrelp as [[Hi He]|[He _]]; [right; by exists x|by left]. }
  destruct (first_strategy_spec w z (getQueryLimit (p_desc p1)) fs (filter (fun c => c ∉ fs) qs) wd wp Hok)
    as (w1 & it & st & hi & -> & Hw1 & Hhi & w0 & _ & Hsv & _).
  { eapply info_request; [exact Hz|lia|]. by apply request_columns. }
  cbn [mbind result_bind]. rewrite Ee.
  destruct (eol_of_spec (p_eol p) m relation (nrows st) Heol Hr Hl) as (eol & ep & c & -> & _). cbn [mbind result_bind].
  assert (Hrows : nrows st = hi).
  { pose proof (sv_start _ _ _ _ _ _ _ _ _ Hsv). pose proof (sv_rows _ _ _ _ _ _ _ _ _ Hsv). lia. }
  eexists _, _, qs, fs, wd, hi. split; [done|]. destruct Hhi. split_and!; try done.
  - split; try done. by exists w0.
  - exists z, (mark true lk wd), (mark true lp wp), (mark true bs wd), (mark true bp wp). split_and!; [done|done| |done].
    intros c0 Hc0. split; [apply (mark_free_all lk qs (length (k_byval k)))|apply (mark_free_all lp qs (length (k_byval k)))]; done || apply Hx.
Qed.
End setup.

(** C14 Setting up a scan returns, for every query on a relation whose filter, if it
    has one, mentions no whole row (for which the code asserts): it reads exactly
    the columns that the query mentions, takes the write locks of all of them, and
    stands before row 0 with a strategy that serves the columns of the filter and
    the others; the lines are read with the recorded lengths when there are any. *)
Theorem NoDBScanStateInit_correct st_size p w k relation qual xs m :
  process_ok p w relation (k_byval k) xs m -> copy_ok k relation -> filter_columns qual (p_desc p) ->
  exists p' so qs fs wd hi, NoDBScanStateInit st_size p w k relation qual = Ok (p', so) /\
    so_readAll so = col_vector qs /\ so_writeData so = col_vector wd /\
    (forall c, c ∈ qs <-> 0 <= c /\ exists x, x ∈ reported (p_desc p) /\ concerns (aliases (p_desc p)) relation x /\
      covers (k_names k) x (Z.to_nat c)) /\
    (forall c, c ∈ fs -> c ∈ qs) /\ (forall c, c ∈ wd -> c ∈ qs) /\
    scan_ready so fs (filter (fun c => c ∉ fs) qs) wd hi /\ 0 < hi < 2 ^ 64 /\
    (exists x lk lp bs bp, get_info (p_exec p') (so_info so) = Ok x /\ info_ok x (k_byval k) lk lp bs bp /\
      (forall c, c ∈ qs -> lk !! Z.to_nat c = Some true /\ lp !! Z.to_nat c = Some true) /\
      caches_ok (xi_relp x) (xi_rel x) (cs_world (so_state so))).
Proof. apply Init_spec. Qed.

(** ** Witness: [SELECT x.b FROM t AS x WHERE x.a > 1] as the first query *)
Definition so_process : process :=
  {| p_desc := ex_qd; p_exec := {| ExecInfo := None; xw_next := 1 |}; p_eol := eol_empty; p_next := 1 |}.
Definition so_copy : copy_state :=
  {| k_env := ex_env []; k_reader := rd (ex_scan ex_eol (file_bytes ex_text)); k_names := ["a"; "b"; "c"; "d"];
     k_byval := replicate 4 true; k_filename := "file" |}.

Lemma so_process_ok : process_ok so_process empty_world "t" (replicate 4 true) [] ∅.
Proof.
  split.
  - apply ex_qd_reachable.
  - reflexivity.
  - by intros x ?%elem_of_nil.
  - intros relp rel _ _. apply no_caches_ok.
  - apply eol_empty_rep.
Qed.

Lemma so_copy_ok : copy_ok so_copy "t".
Proof.
  split; try (by vm_compute).
  - apply (bool_decide_unpack (NoDup ["a"; "b"; "c"; "d"])). by vm_compute.
  - unfold EOLCache.EOL_NAME_SIZE. simpl. lia.
  - unfold FILENAME_SIZE. simpl. lia.
Qed.

Lemma NoDBScanStateInit_witness :
  exists p' so qs fs wd hi, NoDBScanStateInit (fun _ => 0) so_process empty_world so_copy "t" true = Ok (p', so) /\
    so_readAll so = col_vector qs /\ scan_ready so fs (filter (fun c => c ∉ fs) qs) wd hi.
Proof.
  destruct (NoDBScanStateInit_correct (fun _ => 0) so_process empty_world so_copy "t" true [] ∅ so_process_ok so_copy_ok)
    as (p' & so & qs & fs & wd & hi & E & Eq & _ & _ & _ & _ & Hr & _).
  - intros _. assert (filtered (p_desc so_process) = [{| columnName := Some "a"; tableName := Some "t"; schemaName := None;
      catalogName := None; whole_row := false |}]) as -> by (by vm_compute).
    intros d Hd. apply list_elem_of_singleton in Hd as ->. reflexivity.
  - exists p', so, qs, fs, wd, hi. split; [exact E|]. split; [exact Eq|exact Hr].
Defined.
