(* ===== verification/Rescan.v ===== *)
(** * Starting a scan again

    The proofs about [NoDBScanStateReInit] (ScanOperator.v). At the end of a first
    scan it goes back to the first line and reads with the recorded lengths; before
    the end it goes on with the line where the scan stood. *)
From S2P Require Import Prelude Vectors Bitmap Relation Cache CacheData EOLCache FieldParser LineReader TupleReader CacheSelect StrategyMatrix MatrixSound ScanStrategy StrategySound IteratorSound ExecInfo DArray QueryDescriptor Executor ExecutorSound PlanSound StrategySwitch ScanOperator ScanOperatorSound.

Implicit Types (w : world) (so : scan_oper).

(** ** Is there more to read? *)
Lemma NoDBCopyGetData_contents o n src b src' : NoDBCopyGetData o n src = Ok (b, src') -> contents src' = contents src.
Proof.
  unfold NoDBCopyGetData, fread. destruct (header_line o && negb (read_header src)); [|by intros [= _ <-]].
  case_decide; [by intros [= _ <-]|]. intros E. inv_ok. done.
Qed.

Lemma NoDBTryReFillRawBuf_spec size o r : (0 < size)%nat -> reader_ok size o r ->
  exists r', NoDBTryReFillRawBuf size o r = Ok (r', bool_decide (reader_rest r = [])) /\ reader_rest r' = reader_rest r /\
    reader_ok size o r' /\ eol_type r' = eol_type r /\ eolCache (copy_file r') = eolCache (copy_file r) /\
    contents (copy_file r') = contents (copy_file r).
Proof.
  intros Hs [Hidx Hset]. unfold NoDBTryReFillRawBuf. case_decide as Hd.
  - unfold REFILL_LINEBUF. rewrite decide_False by lia. unfold NoDBCopyLoadRawBuf. rewrite (drop_ge (raw_buf r)) by lia.
    cbn [length app]. rewrite Nat.sub_0_r.
    destruct (NoDBCopyGetData_settled o size (copy_file r) Hset) as (src & E & Hf & Hset' & Hec). rewrite E.
    cbn [mbind result_bind raw_buf]. unfold reader_rest. rewrite (drop_ge (raw_buf r)) by lia. cbn [app].
    set (file := file_rest (copy_file r)) in *.
    assert (Hnil : take size file = [] <-> file = []).
    { split; [|intros ->; by rewrite take_nil]. destruct file as [|x file]; [done|]. destruct size; [lia|done]. }
    eexists. split; [f_equal; f_equal|].
    + destruct (decide (file = [])) as [E0|E0].
      * rewrite (bool_decide_eq_true_2 (file = [])), (bool_decide_eq_true_2 (take size file = [])) by tauto. done.
      * rewrite (bool_decide_eq_false_2 (file = [])), (bool_decide_eq_false_2 (take size file = [])),
          (bool_decide_eq_true_2 (take size file <> [])) by tauto. done.
    + cbn [raw_buf raw_buf_index copy_file eol_type]. rewrite Hf, drop_0, take_drop. split_and!; try done.
      * constructor; cbn; [rewrite length_take; lia|done].
      * by eapply NoDBCopyGetData_contents.
  - exists r. rewrite bool_decide_eq_false_2; [by split_and!|]. unfold reader_rest.
    intros [Hn _]%app_eq_nil. apply (f_equal length) in Hn. rewrite length_drop in Hn. simpl in Hn. lia.
Qed.

(** ** The rows that the strategy wrote *)

(** The caches that the strategy writes begin at or before the current row, and
    have a column. *)
Definition writes_ok (s : cstate) : Prop := exists cmr cmv cmp,
  writeToCacheByRef (curStrategy (cs_plan s)) = SetColsPerCache cmr /\
  writeToCacheByValue (curStrategy (cs_plan s)) = SetColsPerCache cmv /\
  writeToPM (curStrategy (cs_plan s)) = SetColsPerCache cmp /\
  forall q, listed_in cmr q \/ listed_in cmv q \/ listed_in cmp q -> exists c x, w_caches (cs_world s) !! q = Some c /\
    0 <= c_startRow c <= cs_row s /\ 0 <= x /\ has_col (cs_world s) q x = true.

Lemma finalize_ok s : writes_ok s ->
  exists w', NoDBFinalizeStrategy s = Ok (set_rel_rows (set_world s w') (NoDBCacheGetUsedRows (cs_eol s))).
Proof.
  intros (cmr & cmv & cmp & E1 & E2 & E3 & Hw).
  destruct (FinalizeStrategy_spec s cmr cmv cmp E1 E2 E3) as (w' & E & _); [|by exists w'].
  intros q Hq. destruct (Hw q Hq) as (c & _ & Hc & _). by eexists.
Qed.

Lemma published_inv relp ncols row c : 0 <= c_startRow c <= row -> row < 2 ^ 64 ->
  (exists x, 0 <= x /\ NoDBCacheHasColumn c x = Ok true) -> cache_inv relp ncols c -> cache_inv relp ncols (published row c).
Proof.
  intros Hs Hr (x & Hx & Hc) (lay & Hwf & Ht & (H1 & H2 & H3) & Hb & Ho & Hne). exists lay. split_and!; try done.
  - destruct Hwf; by split.
  - unfold rows_ok, published. cbn [set_rows c_startRow c_usedRows]. unfold u64. rewrite wrap_small by lia. lia.
  - intros _. exists x. rewrite (NoDBCacheHasColumn_spec _ _ _ Hwf Hx) in Hc. injection Hc as Hc.
    by apply bool_decide_eq_true in Hc.
Qed.

Lemma finalize_caches relp rel s : writes_ok s -> caches_ok relp rel (cs_world s) -> cs_row s < 2 ^ 64 ->
  exists w', NoDBFinalizeStrategy s = Ok (set_rel_rows (set_world s w') (NoDBCacheGetUsedRows (cs_eol s))) /\ caches_ok relp rel w'.
Proof.
  intros (cmr & cmv & cmp & E1 & E2 & E3 & Hw) [C1 C2 C3 C4] Hrow.
  destruct (FinalizeStrategy_spec s cmr cmv cmp E1 E2 E3) as (w' & E & Hl & (Hn & Hdom) & Hp).
  { intros q Hq. destruct (Hw q Hq) as (c & _ & Hc & _). by eexists. }
  exists w'. split; [done|]. split; [|by rewrite Hl| |by rewrite Hn].
  - intros q Hq. rewrite Hl in Hq. destruct (C1 q Hq) as (c & Hc & Hinv). destruct (Hp q c Hc) as (c' & Hc' & Hpub).
    exists c'. split; [done|]. destruct Hpub as [[Hlist ->]|[_ ->]]; [|done].
    destruct (Hw q Hlist) as (c2 & x & Hc2 & Hs & Hx & Hcol). simplify_eq.
    apply published_inv; try done. exists x. split; [done|]. destruct Hinv as (lay & Hwf & _).
    rewrite (has_col_ok _ _ _ _ _ Hc Hwf Hx). by f_equal.
  - intros q Hq%Hdom. rewrite Hn. by apply C3.
Qed.

(** ** A first scan that starts again *)
Section first_scan.
Context (lines : list (list Z)) (rest : list Z) (lay : layout) (n : Z).

(** A first scan after [k] of [lines], which [rest] follows in the file: nothing
    was read ahead of the current row. *)
Record scanning so (k : nat) : Prop := {
  sg_size : (4 < e_bufsize (so_env so))%nat;
  sg_lines : first_at (e_bufsize (so_env so)) (e_line (so_env so)) lines rest lay n (cs_scan (so_state so)) k;
  sg_read : tupleRead (cs_scan (so_state so)) = Z.of_nat k;
  sg_begin : c_startRow (cs_eol (so_state so)) = 0;
  sg_writes : writes_ok (so_state so);
  sg_rows : Z.of_nat (length lines) < 2 ^ 31 }.

(** The beginning of [NoDBScanStateReInit]: nothing is skipped, and the question is
    whether the file has more. *)
Lemma ReInit_start p so k x w' : scanning so k -> (k < length lines)%nat \/ k = length lines /\ rest = [] -> get_info (p_exec p) (so_info so) = Ok x ->
  NoDBFinalizeStrategy (so_state so)
    = Ok (set_rel_rows (set_world (so_state so) w') (NoDBCacheGetUsedRows (cs_eol (so_state so)))) ->
  let s1 := set_rel_rows (set_world (so_state so) w') (NoDBCacheGetUsedRows (cs_eol (so_state so))) in
  exists p1 r, get_info (p_exec p1) (so_info so)
      = Ok (set_stats x (blocks (relStats x)) (relStats_rows s1)) /\ p_desc p1 = p_desc p /\ p_eol p1 = p_eol p /\
    first_at (e_bufsize (so_env so)) (e_line (so_env so)) lines rest lay n (set_rd (cs_scan (so_state so)) r) k /\
    st_cache (set_rd (cs_scan (so_state so)) r) = cs_eol (so_state so) /\
    contents (copy_file r) = contents (copy_file (rd (cs_scan (so_state so)))) /\
    NoDBScanStateReInit p so =
      (let s3 := set_scan s1 (set_rd (cs_scan (so_state so)) r) in
       if decide (k = length lines) then restart p1 (with_state so s3)
       else
         let pl := cs_plan s3 in
         Ok (p1, with_state so (set_plan (set_exec s3 (NoDBGetExecPlan (so_env so) (curStrategy pl)))
             (set_counts pl (nRows pl) (nEOL pl) (nMin pl) (tuplesToRead pl) (NoDBGetReadFile (nEOL pl)) (hasEOL pl))))).
Proof.
  intros [Hsize Hfa Hread Hbegin _ Hlt] Hk Hget Hfin s1. pose proof Hfa as [Hpass Hrest Hrow Hused Hcells Hrep].
  destruct (put_info_spec _ _ _ (set_stats x (blocks (relStats x)) (relStats_rows s1)) Hget) as (e & Ee & Hget').
  destruct (NoDBTryReFillRawBuf_spec (e_bufsize (so_env so)) (e_line (so_env so)) (rd (cs_scan (so_state so)))) as (r & Er & Hr1 & Hr2 & Hr3 & Hr4 & Hr5);
    [lia|apply Hpass|].
  assert (Hmore : bool_decide (reader_rest (rd (cs_scan (so_state so))) = []) = bool_decide (k = length lines)).
  { apply bool_decide_ext. rewrite Hrest. split.
    - intros H0. destruct (lines !! k) as [l|] eqn:El; [|apply lookup_ge_None in El; lia].
      rewrite (drop_S _ _ _ El), file_bytes_cons in H0. by destruct l.
    - intros ->. destruct Hk as [?|[_ ->]]; [lia|]. by rewrite drop_ge. }
  exists (with_exec p e (p_eol p)), r. split_and!; try done.
  - destruct Hpass as [Hok He]. constructor; try done.
    + constructor; [done|]. cbn [rd set_rd]. by rewrite Hr3.
    + cbn [rd set_rd]. by rewrite Hr1.
    + unfold st_cache in *. cbn [rd set_rd]. by rewrite Hr4.
    + unfold st_cache in *. cbn [rd set_rd]. by rewrite Hr4.
    + unfold st_cache in *. cbn [rd set_rd]. by rewrite Hr4.
  - unfold NoDBScanStateReInit. rewrite Hfin. cbn [mbind result_bind]. fold s1. unfold sync_rows. rewrite Hget. cbn [mbind result_bind].
    rewrite Ee. cbn [mbind result_bind]. unfold seek_to_row.
    change (cs_scan s1) with (cs_scan (so_state so)). rewrite Hread, Hrow, Z.eqb_refl. cbn [mbind result_bind].
    change (cs_scan s1) with (cs_scan (so_state so)).
    assert (eol_end s1 <=? tupleRead (cs_scan (so_state so)) = true) as ->.
    { unfold eol_end. change (cs_eol s1) with (cs_eol (so_state so)). unfold NoDBCacheGetBegin, NoDBCacheGetUsedRows.
      rewrite Hbegin, Hread. change (c_usedRows (cs_eol (so_state so))) with (c_usedRows (st_cache (cs_scan (so_state so)))).
      rewrite Hused. unfold u64. rewrite wrap_small by lia. apply Z.leb_le. lia. }
    rewrite Er. cbn [mbind result_bind fst snd]. rewrite Hmore.
    destruct (decide (k = length lines)) as [E0|E0]; [rewrite bool_decide_eq_true_2 by done|rewrite bool_decide_eq_false_2 by done];
      reflexivity.
Qed.

Lemma rescan_continues p so k x (cv : conv_opts) : scanning so k -> (k < length lines)%nat -> good_lines (e_line (so_env so)) lines ->
  good_tail (e_line (so_env so)) rest ->
  opts_ok (e_line (so_env so)) -> (csv_mode (e_line (so_env so)) = true -> quote (e_line (so_env so)) <> ch_nl) ->
  nEOL (cs_plan (so_state so)) = 0 -> get_info (p_exec p) (so_info so) = Ok x ->
  exists p' so' st', NoDBScanStateReInit p so = Ok (p', so') /\ processed (cs_scan (so_state so')) = Z.of_nat k /\
    readFile (cs_plan (so_state so')) = ReadFromFile /\
    read_lines (NoDBGetNextTupleFromFile (e_bufsize (so_env so)) (e_line (so_env so)) cv) (S (length lines))
      (cs_scan (so_state so')) = Ok (server_line cv <$> drop k lines, st').
Proof.
  intros Hsc Hk Hg Ht Ho Hq Hn Hget. destruct (finalize_ok _ (sg_writes _ _ Hsc)) as (w' & Hfin).
  destruct (ReInit_start p so k x w' Hsc) as (p1 & r & _ & _ & _ & Hfa & _ & _ & ->); [by left|done|done|].
  cbv zeta. rewrite decide_False by lia.
  destruct (read_lines_FromFile _ _ cv (sg_size _ _ Hsc) Ho Hq lines rest lay n (S (length lines)) k _ Hg Ht Hfa) as (st' & E & _); [lia|lia|].
  eexists _, _, st'. split; [done|]. split_and!.
  - apply (fa_row _ _ _ _ _ _ _ _ Hfa).
  - change (NoDBGetReadFile (nEOL (cs_plan (so_state so))) = ReadFromFile). by rewrite Hn.
  - exact E.
Qed.

(** ** Starting again at the end *)

(** The locks are given back and taken again. *)
Lemma release_cache_ok x byval lk lp bs bp qs : info_ok x byval lk lp bs bp -> NoDup qs -> cols_of (length byval) qs ->
  exists x' b, NoDBExecReleaseCacheLocks x (col_vector qs) = Ok (x', b) /\ info_ok x' byval (mark false lk qs) lp bs bp /\
    xi_relp x' = xi_relp x /\ xi_rel x' = xi_rel x.
Proof.
  intros [H1 H2 H3 H4 H5 H6 H7 H8 H9] Hnd Hc. unfold NoDBExecReleaseCacheLocks. rewrite H2, release_spec by (rewrite ?H6; done).
  cbn [mbind result_bind fst snd]. eexists _, _. split; [done|]. split; [|done]. split; cbn; rewrite ?length_mark; done.
Qed.

Lemma release_pm_ok x byval lk lp bs bp qs : info_ok x byval lk lp bs bp -> NoDup qs -> cols_of (length byval) qs ->
  exists x' b, NoDBExecReleasePMLocks x (col_vector qs) = Ok (x', b) /\ info_ok x' byval lk (mark false lp qs) bs bp /\
    xi_relp x' = xi_relp x /\ xi_rel x' = xi_rel x.
Proof.
  intros [H1 H2 H3 H4 H5 H6 H7 H8 H9] Hnd Hc. unfold NoDBExecReleasePMLocks. rewrite H3, release_spec by (rewrite ?H7; done).
  cbn [mbind result_bind fst snd]. eexists _, _. split; [done|]. split; [|done]. split; cbn; rewrite ?length_mark; done.
Qed.

Lemma renew_locks_spec x byval lk lp bs bp so qs wd wp : info_ok x byval lk lp bs bp -> so_readAll so = col_vector qs ->
  so_writeData so = col_vector wd -> so_writePositions so = col_vector wp -> NoDup qs -> cols_of (length byval) qs ->
  (forall c, c ∈ wd -> c ∈ qs) -> (forall c, c ∈ wp -> c ∈ qs) ->
  exists x' wd' wp', renew_locks x so = Ok (x', col_vector wd', col_vector wp') /\
    (exists lk lp bs bp, info_ok x' byval lk lp bs bp) /\ xi_relp x' = xi_relp x /\ xi_rel x' = xi_rel x /\
    (forall c, c ∈ wd' -> c ∈ qs) /\ (forall c, c ∈ wp' -> c ∈ qs).
Proof.
  intros Hx Eq Ed Ep Hnd Hc Hwd Hwp. unfold renew_locks. rewrite Eq, Ed, Ep.
  assert (Hfree : forall lk (c : Z), c ∈ filter (is_free lk) qs -> c ∈ qs) by (intros l c [_ ?]%list_elem_of_filter; done).
  destruct (release_cache_ok _ _ _ _ _ _ qs Hx Hnd Hc) as (x1 & b & -> & H1 & Ra & Rb). cbn [mbind result_bind fst snd].
  assert (exists x2 wd', (if b then NoDBAggressiveCachePolicy x1 (col_vector qs) else Ok (x1, col_vector wd)) = Ok (x2, col_vector wd') /\
    (exists lk lp bs bp, info_ok x2 byval lk lp bs bp) /\ xi_relp x2 = xi_relp x /\ xi_rel x2 = xi_rel x /\
    (forall c, c ∈ wd' -> c ∈ qs)) as (x2 & wd' & -> & (lk2 & lp2 & bs2 & bp2 & H2) & Rc & Rd & Hwd').
  { destruct b; [|exists x1, wd; split_and!; eauto 10].
    destruct (cache_policy_spec _ _ _ _ _ _ qs H1 Hnd Hc) as (x2 & -> & H2 & Rc & Rd & _).
    eexists _, _. split; [done|]. split_and!; [eauto 10|congruence|congruence|apply Hfree]. }
  cbn [mbind result_bind fst snd].
  destruct (release_pm_ok _ _ _ _ _ _ qs H2 Hnd Hc) as (x3 & b3 & -> & H3 & Re & Rf). cbn [mbind result_bind fst snd].
  destruct b3.
  - destruct (pm_policy_spec _ _ _ _ _ _ qs H3 Hnd Hc) as (x4 & -> & H4 & Rg & Rh & _). cbn [mbind result_bind fst snd].
    eexists x4, wd', _. split; [done|]. split_and!; [eauto 10|congruence|congruence|done|apply Hfree].
  - cbn [mbind result_bind fst snd]. exists x3, wd', wp. split; [done|]. split_and!; [eauto 10|congruence|congruence|done|done].
Qed.

(** More rows for the line lengths, which stay. *)
Lemma set_cache_same s : set_scan s (set_rd (cs_scan s) (set_cache (rd (cs_scan s)) (cs_eol s))) = s.
Proof. destruct s as [[[? ? ? [] ? ?] ? ? ? ?] ? ? ? ? ? ? ? ?]. done. Qed.

Lemma extend_eol_spec s rows lay0 n0 m0 : cache_rep short_codec (cs_eol s) lay0 n0 m0 -> 0 <= rows -> cs_row s = 0 ->
  rows * c_rowSize (cs_eol s) < 2 ^ 64 -> rows < 2 ^ 64 ->
  exists c n1, extend_eol s rows = Ok (set_scan s (set_rd (cs_scan s) (set_cache (rd (cs_scan s)) c))) /\
    cache_rep short_codec c lay0 n1 m0 /\ c_usedRows c = c_usedRows (cs_eol s) /\ c_sizeOfHeader c = c_sizeOfHeader (cs_eol s).
Proof.
  intros Hrep H0 Hrow Hmul Hlt. unfold extend_eol.
  assert (NoDBCacheGetMaxRows (cs_eol s) = Ok n0) as ->.
  { destruct Hrep as [_ (buf & (_ & B2 & _) & _)]. unfold NoDBCacheGetMaxRows. by rewrite B2. }
  cbn [mbind result_bind]. destruct (_ <? rows).
  - unfold u64. rewrite Hrow, Z.add_0_l, wrap_small by lia.
    destruct (SetMaxRows_grow short_codec _ _ _ _ rows Hrep H0 Hmul) as (c & E & Hrep' & _). rewrite E. cbn [mbind result_bind].
    exists c, (Z.max n0 rows). split_and!; [done|done|..]; unfold NoDBCacheSetMaxRows in E;
      destruct (c_buf (cs_eol s)); inv_ok; try done; by case_match; simplify_eq.
  - exists (cs_eol s), n0. rewrite set_cache_same. done.
Qed.

(** The registry with the lengths that the scan recorded still has the relation. *)
Lemma sync_eol_rep eol m relation ep c : eol_rep eol m -> m !! relation = Some ep -> eol_rep (sync_eol eol ep c) m.
Proof.
  intros [H1 H2 H3 H4 H5] Hm. split; try done; cbn.
  - intros q Hq. destruct (decide (q = ep)) as [->|]; [by apply H4, (H5 relation)|].
    apply H4. by rewrite lookup_insert_ne in Hq by done.
  - intros r q Hq. destruct (decide (q = ep)) as [->|]; [rewrite lookup_insert_eq; eauto|].
    rewrite lookup_insert_ne by done. by eapply H5.
Qed.

(** The file, as a second scan needs it: the lines are behind the header, whose
    size was recorded, and before a last line without its newline, if there is one. *)
Definition file_is so (tail : list Z) : Prop :=
  let file := contents (copy_file (rd (cs_scan (so_state so)))) in
  Forall (fun l => (length l + 1 <= e_bufsize (so_env so))%nat) lines /\
  if header_line (e_line (so_env so)) then
    exists hs, c_sizeOfHeader (cs_eol (so_state so)) = Some hs /\ 0 <= hs <= Z.of_nat (e_bufsize (so_env so)) + 1 /\
      hs <= Z.of_nat (length file) /\ drop (Z.to_nat hs) file = file_bytes lines ++ tail
  else file = file_bytes lines ++ tail.

(** The columns of the scan, and its entry. *)
Record scan_columns so (x : NoDBExecInfo_t) (byval : list bool) (qs fs wd wp : list Z) : Prop := {
  sc_info : exists lk lp bs bp, info_ok x byval lk lp bs bp;
  sc_natts : Z.of_nat (length byval) <= 2 ^ 31;
  sc_all : so_readAll so = col_vector qs;
  sc_filter : readFilterAtts (so_env so) = col_vector fs;
  sc_rest : so_readRest so = col_vector (filter (fun c => c ∉ fs) qs);
  sc_data : so_writeData so = col_vector wd;
  sc_positions : so_writePositions so = col_vector wp;
  sc_nodup : NoDup qs;
  sc_range : cols_of (length byval) qs;
  sc_sub : (forall c, c ∈ fs -> c ∈ qs) /\ (forall c, c ∈ wd -> c ∈ qs) /\ (forall c, c ∈ wp -> c ∈ qs) }.

Lemma rescan_restarts p so x byval qs fs wd wp m tail :
  rest = [] -> scanning so (length lines) -> lines <> [] -> file_is so tail -> get_info (p_exec p) (so_info so) = Ok x ->
  scan_columns so x byval qs fs wd wp -> caches_ok (xi_relp x) (xi_rel x) (cs_world (so_state so)) ->
  eol_rep (p_eol p) m -> m !! so_relation so = Some (so_eolp so) -> so_relation so <> "" ->
  (String.length (so_relation so) < EOLCache.EOL_NAME_SIZE)%nat ->
  let rows := nrows (curStrategy (cs_plan (so_state so))) in
  0 <= rows < 2 ^ 64 -> rows * c_rowSize (cs_eol (so_state so)) < 2 ^ 64 ->
  exists p' so' wd' hi, NoDBScanStateReInit p so = Ok (p', so') /\
    second_pass (e_bufsize (so_env so)) (e_line (so_env so)) (cs_scan (so_state so')) lines 0 /\
    readFile (cs_plan (so_state so')) = ReadFromFileWithEOL /\
    scan_ready so' fs (filter (fun c => c ∉ fs) qs) wd' hi /\ 0 < hi < 2 ^ 64 /\ (forall c, c ∈ wd' -> c ∈ qs).
Proof.
  intros Hr0 Hsc Hne [Hfits Hfile] Hget [(lk & lp & bs & bp & Hx) Hnat Eall Ef Er Ed Ep Hnd Hc (Hsf & Hsd & Hsp)] Hw Heol Hm Hrel Hlen rows Hrows Hmul.
  pose proof Hsc as [Hsize Hfa0 Hread Hbegin Hwr Hmax].
  destruct (finalize_caches (xi_relp x) (xi_rel x) (so_state so) Hwr Hw) as (w' & Hfin & Hw').
  { unfold cs_row. rewrite (fa_row _ _ _ _ _ _ _ _ Hfa0). lia. }
  destruct (ReInit_start p so _ x w' Hsc (or_intror (conj eq_refl Hr0)) Hget Hfin) as (p1 & r & Hget1 & Ed1 & Ee1 & Hfa & Hcache & Hcont & ->).
  cbv zeta. rewrite decide_True by done. unfold restart. cbn [so_state so_env so_info so_relation so_eolp so_readRest with_state].
  rewrite Hget1. cbn [mbind result_bind].
  set (x1 := set_stats x _ _). assert (Hx1 : info_ok x1 byval lk lp bs bp) by (by apply set_stats_ok).
  match goal with |- context [renew_locks x1 ?o] => set (so1 := o) end.
  destruct (renew_locks_spec x1 byval lk lp bs bp so1 qs wd wp Hx1) as (x2 & wd' & wp' & -> & (lk2 & lp2 & bs2 & bp2 & Hx2) & Ra & Rb & Hwd' & Hwp'); try done.
  cbn [mbind result_bind]. destruct (put_info_spec _ _ _ x2 Hget1) as (e2 & -> & _). cbn [mbind result_bind].
  rewrite Ef, Er.
  destruct (first_strategy_spec w' x2 (getQueryLimit (p_desc p1)) fs (filter (fun c => c ∉ fs) qs) wd' wp') as (w1 & it & st & hi & E & Hw1 & Hhi & w0 & _ & Hsv & _).
  { by rewrite Ra, Rb. }
  { eapply info_request; [exact Hx2|lia|]. by apply request_columns. }
  match goal with |- context [first_strategy ?a _ _ _ _ _ _] => change a with w' end. rewrite E. cbn [mbind result_bind].
  match goal with |- context [extend_eol ?a ?b] => set (s2 := a); change b with rows end.
  destruct Hfa as [_ _ _ Hu _ (mm & Hrep & Hmm)].
  assert (Hcs : cs_eol s2 = cs_eol (so_state so)) by exact Hcache.
  destruct (extend_eol_spec s2 rows lay n mm) as (c & n1 & -> & Hrep' & Hu' & Hh'); [exact Hrep|lia|done|by rewrite Hcs|lia|].
  cbn [mbind result_bind]. rewrite Hcs in Hu', Hh'.
  match goal with |- context [eol_of ?a _ _] => change a with (sync_eol (p_eol p1) (so_eolp so) c) end.
  rewrite Ee1. destruct (eol_of_spec (sync_eol (p_eol p) (so_eolp so) c) m (so_relation so) (nrows st)) as (eol & ep & c2 & -> & Hc2 & Hold);
    [by eapply sync_eol_rep|done|done|].
  rewrite Hm in Hold. destruct Hold as [-> Hold]. rewrite Hold in Hc2. cbn [sync_eol ec_caches] in Hc2. rewrite lookup_insert_eq in Hc2. injection Hc2 as <-.
  cbn [mbind result_bind]. rewrite Hcache in Hu. change (st_cache (cs_scan (so_state so))) with (cs_eol (so_state so)) in Hu.
  assert (Huse : c_usedRows c = Z.of_nat (length lines)) by congruence.
  assert (Hhirow : nrows st = hi).
  { pose proof (sv_start _ _ _ _ _ _ _ _ _ Hsv). pose proof (sv_rows _ _ _ _ _ _ _ _ _ Hsv). lia. }
  eexists _, _, wd', hi. split; [done|]. split; [|split; [|split; [|split_and!; [apply Hhi|apply Hhi|done]]]].
  - constructor; try done.
    + split; [unfold line_lens; by rewrite length_fmap|]. intros k v Hk. apply (cell_get_rep _ _ _ _ _ _ _ _ Hrep'), Hmm.
      rewrite take_ge; [done|]. unfold line_lens. rewrite length_fmap. lia.
    + cbn. intros Hp. apply andb_prop in Hp as [Hhdr _]. rewrite Hhdr in Hfile. destruct Hfile as (hs & H1 & H2 & H3 & _).
      split; [done|]. exists hs. split_and!; [by rewrite Hh'|lia|lia|]. unfold file_rest. cbn. rewrite drop_0, Hcont. done.
    + exists 0%nat. cbn. split_and!; [done|lia|done|]. exists tail. unfold file_rest. cbn.
      rewrite !drop_0, Hcont, andb_true_r. destruct (header_line (e_line (so_env so))); [|done].
      destruct Hfile as (hs & H1 & _ & _ & H4). cbn. unfold st_cache. cbn. by rewrite Hh', H1.
  - cbn. unfold NoDBGetReadFile, NoDBCacheGetUsedRows. rewrite Huse. destruct (Z.ltb_spec 0 (Z.of_nat (length lines))); [done|].
    destruct lines; [done|simpl in *; lia].
  - split; try done. by exists w0.
Qed.
End first_scan.

(** ** Properties *)

(** C36 A first scan (no recorded line lengths, nothing read ahead of the current
    row, fewer than 2^31 lines) that is started again after [k] lines, before the
    last one, is not taken back to the first line: it goes on with line [k], so that
    the [k] rows that were read before are missing from the second pass. A scan that
    reads with recorded lengths is not concerned. *)
Theorem rescan_before_end_continues lines rest lay n p so k x (cv : conv_opts) :
  scanning lines rest lay n so k -> (k < length lines)%nat -> good_lines (e_line (so_env so)) lines ->
  good_tail (e_line (so_env so)) rest ->
  opts_ok (e_line (so_env so)) -> (csv_mode (e_line (so_env so)) = true -> quote (e_line (so_env so)) <> ch_nl) ->
  nEOL (cs_plan (so_state so)) = 0 -> get_info (p_exec p) (so_info so) = Ok x ->
  exists p' so' st', NoDBScanStateReInit p so = Ok (p', so') /\ processed (cs_scan (so_state so')) = Z.of_nat k /\
    readFile (cs_plan (so_state so')) = ReadFromFile /\
    read_lines (NoDBGetNextTupleFromFile (e_bufsize (so_env so)) (e_line (so_env so)) cv) (S (length lines))
      (cs_scan (so_state so')) = Ok (server_line cv <$> drop k lines, st').
Proof. apply rescan_continues. Qed.

(** C15 A first scan of fewer than 2^31 lines that is started again at its end
    returns to row 0 with a strategy that serves the same columns, and the lines that
    it reads next, with the lengths that the first pass recorded, are all the
    terminated lines of the file, as the first pass returned them. *)
Theorem rescan_after_end_correct lines tail lay n p so x byval qs fs wd wp m (cv : conv_opts) :
  scanning lines [] lay n so (length lines) -> lines <> [] -> file_is lines so tail -> get_info (p_exec p) (so_info so) = Ok x ->
  scan_columns so x byval qs fs wd wp -> caches_ok (xi_relp x) (xi_rel x) (cs_world (so_state so)) ->
  eol_rep (p_eol p) m -> m !! so_relation so = Some (so_eolp so) -> so_relation so <> "" ->
  (String.length (so_relation so) < EOLCache.EOL_NAME_SIZE)%nat ->
  let rows := nrows (curStrategy (cs_plan (so_state so))) in
  0 <= rows < 2 ^ 64 -> rows * c_rowSize (cs_eol (so_state so)) < 2 ^ 64 ->
  Z.of_nat (e_bufsize (so_env so)) + 1 < MAX_LOAD ->
  exists p' so' wd' hi st', NoDBScanStateReInit p so = Ok (p', so') /\
    scan_ready so' fs (filter (fun c => c ∉ fs) qs) wd' hi /\ 0 < hi < 2 ^ 64 /\ (forall c, c ∈ wd' -> c ∈ qs) /\
    readFile (cs_plan (so_state so')) = ReadFromFileWithEOL /\
    read_lines (NoDBGetNextTupleFromFileWithEOL (e_bufsize (so_env so)) (e_line (so_env so)) cv) (S (length lines))
      (cs_scan (so_state so')) = Ok (server_line cv <$> lines, st').
Proof.
  intros H1 H2 H3 H4 H5 H6 H7 H8 H9 H10 rows H11 H12 H13.
  destruct (rescan_restarts lines [] lay n p so x byval qs fs wd wp m tail eq_refl H1 H2 H3 H4 H5 H6 H7 H8 H9 H10 H11 H12)
    as (p' & so' & wd' & hi & E & Hsp & Hrf & Hr & Hhi & Hwd).
  destruct (read_lines_WithEOL _ _ cv H13 lines 0 (S (length lines)) (cs_scan (so_state so')) Hsp) as (st' & El); [lia|lia|].
  exists p', so', wd', hi, st'. split_and!; try done; apply Hhi.
Qed.

(** ** Witnesses: the file of two lines of PlanSound.v, after one and after both *)
Definition rs_read (st : scan) : scan :=
  match NoDBGetNextTupleFromFile 32 (e_line (ex_env [])) no_conv st with Ok (st', _) => next_row st' | Fail _ => st end.
Definition rs_scan (k : nat) : scan := Nat.iter k rs_read (ex_scan ex_eol (file_bytes ex_text)).

Lemma rs_first (k : nat) : (k <= 2)%nat -> ex_at (rs_scan k) k.
Proof.
  induction k as [|k IH]; intros Hk; [apply ex_start|].
  destruct (lookup_lt_is_Some_2 ex_text k) as [l Hl]; [cbn; lia|].
  destruct (FromFile_step 32 (e_line (ex_env [])) no_conv ltac:(lia) ltac:(by split) ltac:(done) ex_text [] [(Some 0, 2)] 4 (rs_scan k) k l)
    as (st' & E & _ & H); [repeat constructor; cbn; lia|apply IH; lia|done|].
  assert (rs_scan (S k) = next_row st') as ->; [|exact H].
  change (rs_scan (S k)) with (rs_read (rs_scan k)). unfold rs_read. by rewrite E.
Qed.

Definition rs_process : process :=
  let r := NoDBInitEOLCache eol_empty "r" 4 in
  let eol := match r with Ok x => x.1 | Fail _ => eol_empty end in
  match relation_info (fun _ => 0) {| p_desc := qd_start; p_exec := {| ExecInfo := None; xw_next := 1 |}; p_eol := eol; p_next := 1 |}
    "r" (replicate 4 true) "file" with
  | Ok x => x.1
  | Fail _ => {| p_desc := qd_start; p_exec := {| ExecInfo := None; xw_next := 1 |}; p_eol := eol; p_next := 1 |}
  end.
Definition rs_oper (k : nat) : scan_oper :=
  {| so_relation := "r";
     so_state := set_scan (ex_state empty_world (ex_strategy [] [] [] [] [] [] []) ExecPlan) (rs_scan k);
     so_env := ex_env []; so_readAll := col_vector [1]; so_readRest := col_vector [1]; so_writeData := col_vector [];
     so_writePositions := col_vector []; so_info := (1, 0); so_eolp := 2 |}.

Lemma rs_scanning k : (k <= 2)%nat -> scanning ex_text [] [(Some 0, 2)] 4 (rs_oper k) k.
Proof.
  intros Hk. split.
  - cbn. lia.
  - by apply rs_first.
  - destruct k as [|[|[|k]]]; [by vm_compute..|lia].
  - destruct k as [|[|[|k]]]; [by vm_compute..|lia].
  - exists [], [], []. split_and!; try done. by intros q [[c ?%elem_of_nil]|[[c ?%elem_of_nil]|[c ?%elem_of_nil]]].
  - by vm_compute.
Qed.

Definition rs_info : NoDBExecInfo_t := match get_info (p_exec rs_process) (1, 0) with Ok x => x | Fail _ => no_info end.
Lemma rs_get : get_info (p_exec rs_process) (1, 0) = Ok rs_info.
Proof. by vm_compute. Qed.

Lemma rs_info_ok : exists lk lp bs bp, info_ok rs_info (replicate 4 true) lk lp bs bp.
Proof.
  do 4 exists (replicate 4 false). split; by vm_compute.
Qed.

Lemma rs_eol : eol_rep (p_eol rs_process) {["r" := 2]}.
Proof.
  destruct (NoDBInitEOLCache_spec eol_empty ∅ "r" 4 eol_empty_rep) as (st' & q & E & _ & Hrep & _); [done|unfold EOLCache.EOL_NAME_SIZE; simpl; lia|lia|lia|].
  assert (Eq : q = 2 /\ p_eol rs_process = st').
  { unfold rs_process. rewrite E. split; [|by vm_compute]. vm_compute in E. by injection E as _ <-. }
  destruct Eq as [-> ->]. exact Hrep.
Qed.

Lemma rescan_before_end_witness :
  exists p' so' st', NoDBScanStateReInit rs_process (rs_oper 1) = Ok (p', so') /\
    processed (cs_scan (so_state so')) = 1 /\ readFile (cs_plan (so_state so')) = ReadFromFile /\
    read_lines (NoDBGetNextTupleFromFile 32 (e_line (ex_env [])) no_conv) 3 (cs_scan (so_state so'))
      = Ok ([[53; 44; 54; 44; 55; 44; 56]], st').
Proof.
  apply (rescan_before_end_continues ex_text [] [(Some 0, 2)] 4 rs_process (rs_oper 1) 1 rs_info no_conv).
  - apply rs_scanning. lia.
  - cbn. lia.
  - repeat constructor; cbn; lia.
  - reflexivity.
  - by split.
  - done.
  - reflexivity.
  - apply rs_get.
Defined.

Lemma rescan_after_end_witness :
  exists p' so' wd' hi st', NoDBScanStateReInit rs_process (rs_oper 2) = Ok (p', so') /\
    scan_ready so' [] [1] wd' hi /\ 0 < hi < 2 ^ 64 /\ (forall c, c ∈ wd' -> c ∈ [1]) /\
    readFile (cs_plan (so_state so')) = ReadFromFileWithEOL /\
    read_lines (NoDBGetNextTupleFromFileWithEOL 32 (e_line (ex_env [])) no_conv) 3 (cs_scan (so_state so'))
      = Ok (ex_text, st').
Proof.
  apply (rescan_after_end_correct ex_text [] [(Some 0, 2)] 4 rs_process (rs_oper 2) rs_info (replicate 4 true) [1] [] [] [] {["r" := 2]} no_conv).
  - exact (rs_scanning 2 (le_n 2)).
  - discriminate.
  - split; [repeat constructor; cbn; lia|reflexivity].
  - apply rs_get.
  - split; try reflexivity.
    + apply rs_info_ok.
    + cbn. lia.
    + apply NoDup_singleton.
    + constructor; [by vm_compute|constructor].
    + split_and!; by intros c ?%elem_of_nil.
  - apply no_caches_ok.
  - apply rs_eol.
  - apply lookup_insert_eq.
  - discriminate.
  - unfold EOLCache.EOL_NAME_SIZE. simpl. lia.
  - by vm_compute.
  - by vm_compute.
  - by vm_compute.
Defined.
