(* ===== verification/CopySetup.v ===== *)
(** * The COPY set-up of a scan (GetScanState and GetScanExecStatusStmt in NoDBScan.c)

    The scan of a raw file begins like a COPY FROM statement: the options of the
    statement are read and checked, the rights of the user and the columns are
    looked up, and the file is opened. The result is the [copy_state] from which
    [NoDBScanStateInit] goes on. *)
From Stdlib Require Import Ascii.
From stdpp Require Import pretty.
From S2P Require Import Prelude Vectors Cache CacheData FieldParser LineReader TupleReader QueryDescriptor Config Executor ScanOperator.

(** ** The arguments of options (DefElem) *)

(** The arguments that the grammar of COPY options makes; [None] in a list is a star. *)
Inductive def_arg :=
  | ArgInteger (n : Z)
  | ArgFloat (s : text)
  | ArgString (s : text)
  | ArgList (names : list (option text))
  | ArgStar.
Record DefElem := { defname : string; arg : option def_arg }.
Implicit Types (d : DefElem).

Definition name_text (n : option text) : text := default (text_of "*") n.
Definition NameListToString (names : list (option text)) : text :=
  match names with
  | [] => []
  | n :: rest => name_text n ++ concat (map (fun m => text_of "." ++ name_text m) rest)
  end.

Definition defGetString d : result text :=
  match arg d with
  | None => Fail (EReport "option requires a parameter")
  | Some (ArgInteger n) => Ok (text_of (pretty n))
  | Some (ArgFloat s) | Some (ArgString s) => Ok s
  | Some (ArgList names) => Ok (NameListToString names)
  | Some ArgStar => Ok (text_of "*")
  end.

Definition pg_strcaseeq (s : text) (lit : string) : bool := bool_decide (map tolower s = text_of lit).

Definition defGetBoolean d : result bool :=
  let fail := Fail (EReport "option requires a Boolean value") in
  match arg d with
  | None => Ok true
  | Some (ArgInteger n) => if n =? 0 then Ok false else if n =? 1 then Ok true else fail
  | Some _ =>
      sval ← defGetString d;
      if pg_strcaseeq sval "true" then Ok true
      else if pg_strcaseeq sval "false" then Ok false
      else if pg_strcaseeq sval "on" then Ok true
      else if pg_strcaseeq sval "off" then Ok false
      else fail
  end.

(** ** The options of the scan *)

(** The members of the zeroed state that the options set; [None] is [NULL]. *)
Record copy_format := {
  fo_specified : bool; fo_csv : bool; fo_binary : bool; fo_delim : option text; fo_null : option text;
  fo_header : bool; fo_quote : option text; fo_escape : option text }.
Implicit Types (f : copy_format).

Definition format0 : copy_format :=
  {| fo_specified := false; fo_csv := false; fo_binary := false; fo_delim := None; fo_null := None;
     fo_header := false; fo_quote := None; fo_escape := None |}.
Definition set_format f (csv binary : bool) : copy_format :=
  {| fo_specified := true; fo_csv := csv; fo_binary := binary; fo_delim := fo_delim f; fo_null := fo_null f;
     fo_header := fo_header f; fo_quote := fo_quote f; fo_escape := fo_escape f |}.
Definition set_texts f (delim null quote escape : option text) : copy_format :=
  {| fo_specified := fo_specified f; fo_csv := fo_csv f; fo_binary := fo_binary f; fo_delim := delim; fo_null := null;
     fo_header := fo_header f; fo_quote := quote; fo_escape := escape |}.
Definition set_header f (header : bool) : copy_format :=
  {| fo_specified := fo_specified f; fo_csv := fo_csv f; fo_binary := fo_binary f; fo_delim := fo_delim f;
     fo_null := fo_null f; fo_header := header; fo_quote := fo_quote f; fo_escape := fo_escape f |}.

Definition redundant {A} : result A := Fail (EReport "conflicting or redundant options").

(** A member that may be set once. *)
Definition once d (old : option text) : result text :=
  match old with
  | Some _ => redundant
  | None => defGetString d
  end.

Definition read_option f d : result copy_format :=
  if (defname d =? "format")%string then
    fmt ← defGetString d;
    if fo_specified f then redundant
    else if bool_decide (fmt = text_of "text") then Ok (set_format f false (fo_binary f))
    else if bool_decide (fmt = text_of "csv") then Ok (set_format f true (fo_binary f))
    else if bool_decide (fmt = text_of "binary") then Ok (set_format f (fo_csv f) true)
    else Fail (EReport "COPY format not recognized")
  else if (defname d =? "delimiter")%string then
    s ← once d (fo_delim f); Ok (set_texts f (Some s) (fo_null f) (fo_quote f) (fo_escape f))
  else if (defname d =? "null")%string then
    s ← once d (fo_null f); Ok (set_texts f (fo_delim f) (Some s) (fo_quote f) (fo_escape f))
  else if (defname d =? "header")%string then
    if fo_header f then redundant else b ← defGetBoolean d; Ok (set_header f b)
  else if (defname d =? "quote")%string then
    s ← once d (fo_quote f); Ok (set_texts f (fo_delim f) (fo_null f) (Some s) (fo_escape f))
  else if (defname d =? "escape")%string then
    s ← once d (fo_escape f); Ok (set_texts f (fo_delim f) (fo_null f) (fo_quote f) (Some s))
  else Fail (EReport "option not recognized").

Fixpoint read_options f (opts : list DefElem) : result copy_format :=
  match opts with
  | [] => Ok f
  | d :: rest => f' ← read_option f d; read_options f' rest
  end.

(** The double quote is character 34. *)
Definition dquote : text := [ascii_of_nat 34].

Definition or_default (o : option text) (x : text) : option text := Some (default x o).

Definition default_options f : copy_format :=
  let csv := fo_csv f in
  let quote := if csv then or_default (fo_quote f) dquote else fo_quote f in
  let escape := if csv then (match fo_escape f with Some e => Some e | None => quote end) else fo_escape f in
  set_texts f (or_default (fo_delim f) (if csv then text_of "," else [ascii_of_nat 9]))
    (or_default (fo_null f) (if csv then [] else text_of "\N")) quote escape.

Definition deny (b : bool) (msg : string) : result unit := if b then Fail (EReport msg) else Ok tt.
Definition deref (o : option text) : result text :=
  match o with
  | Some s => Ok s
  | None => Fail NullDeref
  end.
(** [strchr(s, c) != NULL] for a character [c] that is not zero. *)
Definition strchr (s : text) (c : ascii) : bool := bool_decide (c ∈ s).
Definition char0 (s : text) : ascii := default zero (head s).
Definition unsafe_delimiters : text := text_of "\.abcdefghijklmnopqrstuvwxyz0123456789".
Definition c_lf : ascii := ascii_of_nat 10.
Definition c_cr : ascii := ascii_of_nat 13.

Definition check_csv f (delim : text) : result unit :=
  quote ← deref (fo_quote f);
  _ ← deny (negb (length quote =? 1)%nat) "COPY quote must be a single one-byte character";
  _ ← deny (bool_decide (char0 delim = char0 quote)) "COPY delimiter and quote must be different";
  escape ← deref (fo_escape f);
  _ ← deny (negb (length escape =? 1)%nat) "COPY escape must be a single one-byte character";
  null ← deref (fo_null f);
  deny (strchr null (char0 quote)) "CSV quote character must not appear in the NULL specification".

Definition check_text f (delim : text) : result unit :=
  _ ← deny (strchr unsafe_delimiters (char0 delim)) "COPY delimiter not allowed";
  _ ← deny (fo_header f) "COPY HEADER available only in CSV mode";
  _ ← deny (bool_decide (fo_quote f <> None)) "COPY quote available only in CSV mode";
  deny (bool_decide (fo_escape f <> None)) "COPY escape available only in CSV mode".

Definition check_options f : result unit :=
  delim ← deref (fo_delim f);
  _ ← deny (negb (length delim =? 1)%nat) "COPY delimiter must be a single one-byte character";
  _ ← deny (strchr delim c_cr || strchr delim c_lf) "COPY delimiter cannot be newline or carriage return";
  if fo_csv f then check_csv f delim else check_text f delim.

Definition scan_options (opts : list DefElem) : result copy_format :=
  f ← read_options format0 opts;
  let f' := default_options f in
  _ ← check_options f';
  Ok f'.

(** What the readers of lines and fields take from the options. *)
Definition byte_of (c : ascii) : Z := Z.of_N (N_of_ascii c).
Definition copy_opts_of f : copy_opts :=
  {| delimc := byte_of (char0 (default [] (fo_delim f))); quotec := byte_of (char0 (default [] (fo_quote f)));
     escapec := byte_of (char0 (default [] (fo_escape f))); null_print := byte_of <$> default [] (fo_null f) |}.
Definition line_opts_of f (embeds_ascii : bool) (mblen : Z -> Z) : line_opts :=
  {| csv_mode := fo_csv f; quote := byte_of (char0 (default [] (fo_quote f)));
     escape := byte_of (char0 (default [] (fo_escape f))); header_line := fo_header f;
     encoding_embeds_ascii := embeds_ascii; pg_encoding_mblen := mblen |}.

(** ** The columns *)
Record attribute := { attname : string; attisdropped : bool; attnum : Z; attlen : Z; attbyval : bool }.
Implicit Types (tup : list attribute).

Fixpoint default_attnums (i : Z) tup : list Z :=
  match tup with
  | [] => []
  | a :: rest => (if attisdropped a then [] else [i + 1]) ++ default_attnums (i + 1) rest
  end.

(** [InvalidAttrNumber] is 0. *)
Definition find_attnum tup (name : string) : Z :=
  match list_find (fun a => attisdropped a = false /\ attname a = name) tup with
  | Some (_, a) => attnum a
  | None => 0
  end.

Fixpoint named_attnums tup (attnums : list Z) (names : list string) : result (list Z) :=
  match names with
  | [] => Ok attnums
  | name :: rest =>
      let n := find_attnum tup name in
      _ ← deny (n =? 0) "column does not exist";
      _ ← deny (bool_decide (n ∈ attnums)) "column specified more than once";
      named_attnums tup (attnums ++ [n]) rest
  end.

Definition CopyGetAttnums tup (attnamelist : list string) : result (list Z) :=
  match attnamelist with
  | [] => Ok (default_attnums 0 tup)
  | _ => named_attnums tup [] attnamelist
  end.

(** ** The statement *)

(** What the session and the catalogs say: the rights of the user, the kind of
    transaction and relation, and the encodings. *)
Record session := {
  superuser : bool; XactReadOnly : bool; rd_islocaltemp : bool; relkind : ascii;
  pg_class_aclmask : Z -> Z; pg_attribute_aclcheck : Z -> Z -> bool;
  pg_get_client_encoding : Z; GetDatabaseEncoding : Z; pg_database_encoding_max_length : Z }.

Record CopyStmt := {
  is_from : bool; stmt_relation : bool; stmt_filename : option string; attlist : list string; stmt_options : list DefElem }.

Definition ACL_INSERT : Z := 1.
Definition ACL_SELECT : Z := 2.
Definition PG_ENCODING_BE_LAST : Z := 34.
Definition PG_LAST_ENCODING : Z := 42.
Definition PG_ENCODING_IS_CLIENT_ONLY (enc : Z) : bool := (PG_ENCODING_BE_LAST <? enc) && (enc <? PG_LAST_ENCODING).

(** What [GetScanState] sets of the state. *)
Record scan_settings := {
  ss_format : copy_format; ss_attnums : list Z; ss_need_transcoding : bool; ss_embeds_ascii : bool;
  ss_filename : option string }.

Fixpoint check_columns (se : session) (mode : Z) (attnums : list Z) : result unit :=
  match attnums with
  | [] => Ok tt
  | n :: rest => if pg_attribute_aclcheck se n mode then check_columns se mode rest else Fail (EReport "permission denied for relation")
  end.

Definition check_rights (se : session) (stmt : CopyStmt) tup : result unit :=
  let required := if is_from stmt then ACL_INSERT else ACL_SELECT in
  let remaining := Z.ldiff required (pg_class_aclmask se required) in
  _ ← (if remaining =? 0 then Ok tt
       else attnums ← CopyGetAttnums tup (attlist stmt); check_columns se remaining attnums);
  deny (XactReadOnly se && is_from stmt && negb (rd_islocaltemp se)) "cannot execute COPY FROM in a read-only transaction".

(** Without a relation the descriptor of its columns is not set. The list of columns
    that are never null is always empty. *)
Definition GetScanState (se : session) (stmt : CopyStmt) tup : result scan_settings :=
  f ← scan_options (stmt_options stmt);
  _ ← deny (bool_decide (stmt_filename stmt <> None) && negb (superuser se)) "must be superuser to COPY to or from a file";
  if stmt_relation stmt then
    _ ← check_rights se stmt tup;
    attnums ← CopyGetAttnums tup (attlist stmt);
    Ok {| ss_format := f; ss_attnums := attnums;
          ss_need_transcoding := negb (pg_get_client_encoding se =? GetDatabaseEncoding se) || (1 <? pg_database_encoding_max_length se);
          ss_embeds_ascii := PG_ENCODING_IS_CLIENT_ONLY (pg_get_client_encoding se); ss_filename := stmt_filename stmt |}
  else Fail Indeterminate.

(** ** The file *)
Inductive file_kind := Missing | Directory | Regular (bytes : list Z).

Definition BinarySignature : list Z := [80; 71; 67; 79; 80; 89; 10; 255; 13; 10; 0].

(** [fread] of [n] bytes. *)
Definition CopyGetData (n : nat) (file : list Z) : list Z * list Z := (take n file, drop n file).
(** The number is in network byte order. *)
Definition CopyGetInt32 (file : list Z) : option Z * list Z :=
  match take 4 file with
  | [a; b; c; d] => (Some (swrap 32 (((a * 256 + b) * 256 + c) * 256 + d)), drop 4 file)
  | _ => (None, drop 4 file)
  end.

Definition bad_header {A} : result A := Fail (EReport "invalid COPY file header").
Definition oid_bit : Z := Z.shiftl 1 16.

(** The header of a binary file; whether it has OIDs, and what follows. *)
Definition binary_header (file : list Z) : result (bool * list Z) :=
  let '(sig, file1) := CopyGetData 11 file in
  _ ← deny (bool_decide (sig <> BinarySignature)) "COPY file signature not recognized";
  let '(flags, file2) := CopyGetInt32 file1 in
  match flags with
  | None => bad_header
  | Some tmp =>
      let tmp' := Z.ldiff tmp oid_bit in
      _ ← deny (negb (Z.shiftr tmp' 16 =? 0)) "unrecognized critical flags in COPY file header";
      let '(len, file3) := CopyGetInt32 file2 in
      match len with
      | None => bad_header
      | Some n =>
          if n <? 0 then bad_header
          else if Z.of_nat (length file3) <? n then bad_header
          else Ok (negb (Z.land tmp oid_bit =? 0), drop (Z.to_nat n) file3)
      end
  end.

Definition RAW_BUF_SIZE : nat := Z.to_nat 32768.

(** The functions of PostgreSQL that the scan calls, and the value of the cache of
    line lengths before there is one. *)
Record server_functions := {
  sf_mblen : Z -> Z; sf_transcoded : bool; sf_client_to_server : list Z -> option (list Z);
  sf_input : Z -> list Z -> result Z; sf_verifymbstr : list Z -> bool; sf_datumGetSize : list Z -> Z -> nat;
  sf_ExecQual : objects -> arr Z -> arr Z -> result bool; sf_no_cache : NoDBCache_t }.

Definition open_file (open : string -> file_kind) (pipe : list Z) (filename : option string) : result (list Z) :=
  match filename with
  | None => Ok pipe
  | Some name =>
      match open name with
      | Missing => Fail (EReport "could not open file for reading")
      | Directory => Fail (EReport "file is a directory")
      | Regular bytes => Ok bytes
      end
  end.

(** [open] is the file system and [pipe] what the client or the standard input
    sends; the commands of the scan operator name a file. What is prepared for
    inserting tuples (triggers, indices, defaults) is not used by a scan and is left
    out; the message about a relation of another kind is the same for all kinds. *)
Definition GetScanExecStatusStmt (se : session) (sf : server_functions) (open : string -> file_kind) (pipe : list Z)
    (ss : scan_settings) tup : result copy_state :=
  let f := ss_format ss in
  _ ← deny (negb (bool_decide (relkind se = ascii_of_nat 114))) "cannot copy to this relation";
  file ← open_file open pipe (ss_filename ss);
  h ← (if fo_binary f then x ← binary_header file; Ok (x.1, (length file - length x.2)%nat) else Ok (false, 0%nat));
  let '(file_has_oids, read) := h in
  let attr_count := Z.of_nat (length (ss_attnums ss)) in
  Ok {| k_env :=
          {| e_copy := copy_opts_of f; e_line := line_opts_of f (ss_embeds_ascii ss) (sf_mblen sf);
             e_conv := {| need_transcoding := ss_need_transcoding ss; exec_need_transcoding := sf_transcoded sf;
                          pg_client_to_server := sf_client_to_server sf |};
             e_bufsize := RAW_BUF_SIZE; nfields := if file_has_oids : bool then attr_count + 1 else attr_count; lastfield := 0;
             attrlen := Some <$> (attlen <$> tup); has_qual := false; readFilterAtts := NoDBColVectorInit 0;
             input_function := sf_input sf; pg_verifymbstr := sf_verifymbstr sf; datumGetSize := sf_datumGetSize sf;
             ExecQual := sf_ExecQual sf |};
        k_reader :=
          {| raw_buf := []; raw_buf_index := 0; line_buf := [];
             copy_file := {| contents := file; pos := read; read_header := false; eolCache := sf_no_cache sf |};
             eol_type := EOL_UNKNOWN; cur_lineno := 0 |};
        k_names := attname <$> tup; k_byval := attbyval <$> tup; k_filename := default EmptyString (ss_filename ss) |}.

(** The first part of [NoDBScanOperatorInit]: [stmt] is the parsed command. *)
Definition copy_setup (se : session) (sf : server_functions) (open : string -> file_kind) (pipe : list Z) (stmt : CopyStmt) tup
    : result copy_state :=
  ss ← GetScanState se stmt tup;
  GetScanExecStatusStmt se sf open pipe ss tup.

(** ** What the checks establish *)

(** The delimiter is one byte and no newline; in CSV mode the quote and the escape
    are single bytes, and the quote is neither the delimiter nor in the null marker;
    in text mode there is no header, quote or escape, and the delimiter cannot be
    mistaken for an escape sequence. *)
Record format_ok f : Prop := {
  fk_delim : exists c, fo_delim f = Some [c] /\ c <> c_cr /\ c <> c_lf;
  fk_csv : fo_csv f = true -> exists q e n, fo_quote f = Some [q] /\ fo_escape f = Some [e] /\ fo_null f = Some n /\
    fo_delim f <> Some [q] /\ q ∉ n;
  fk_text : fo_csv f = false -> fo_header f = false /\ fo_quote f = None /\ fo_escape f = None /\
    forall c, fo_delim f = Some [c] -> c ∉ unsafe_delimiters }.

Lemma deny_Ok b msg u : deny b msg = Ok u <-> b = false.
Proof. destruct u, b; cbn; split; done. Qed.

Lemma single (s : text) : negb (length s =? 1)%nat = false <-> exists c, s = [c].
Proof.
  destruct s as [|c [|c' s]]; cbn; split; try done; try (by intros [? ?]). by eexists.
Qed.

Lemma deref_Ok o s : deref o = Ok s <-> o = Some s.
Proof. destruct o; cbn; split; congruence. Qed.

Lemma check_csv_iff f c u : check_csv f [c] = Ok u <-> exists q e n, fo_quote f = Some [q] /\ fo_escape f = Some [e] /\
  fo_null f = Some n /\ c <> q /\ q ∉ n.
Proof.
  unfold check_csv. split.
  - intros H. apply bind_Ok in H as (qs & Eq%deref_Ok & H). apply bind_Ok in H as (? & [q ->]%deny_Ok%single & H).
    apply bind_Ok in H as (? & Hd%deny_Ok%bool_decide_eq_false & H). apply bind_Ok in H as (es & Ee%deref_Ok & H).
    apply bind_Ok in H as (? & [e ->]%deny_Ok%single & H). apply bind_Ok in H as (n & En%deref_Ok & H).
    apply deny_Ok, bool_decide_eq_false in H. by exists q, e, n.
  - intros (q & e & n & -> & -> & -> & Hne & Hn). cbn. rewrite bool_decide_eq_false_2 by done. cbn.
    rewrite (proj2 (deny_Ok _ _ u)); [done|]. by apply bool_decide_eq_false.
Qed.

Lemma check_text_iff f c u : check_text f [c] = Ok u <-> c ∉ unsafe_delimiters /\ fo_header f = false /\
  fo_quote f = None /\ fo_escape f = None.
Proof.
  unfold check_text, strchr. split.
  - intros H. apply bind_Ok in H as (? & H1%deny_Ok%bool_decide_eq_false & H). apply bind_Ok in H as (? & H2%deny_Ok & H).
    apply bind_Ok in H as (? & H3%deny_Ok%bool_decide_eq_false & H). apply deny_Ok, bool_decide_eq_false in H.
    split_and!; [done|done|by apply dec_stable|by apply dec_stable].
  - intros (H1 & -> & -> & ->). change (char0 [c]) with c. rewrite (bool_decide_eq_false_2 (c ∈ unsafe_delimiters)) by done. by destruct u.
Qed.

Lemma check_options_iff f u : check_options f = Ok u <-> format_ok f.
Proof.
  unfold check_options. split.
  - intros H. apply bind_Ok in H as (ds & Ed%deref_Ok & H). apply bind_Ok in H as (? & [c ->]%deny_Ok%single & H).
    apply bind_Ok in H as (? & Hnl%deny_Ok & H). unfold strchr in Hnl. apply orb_false_elim in Hnl as [H1 H2].
    apply bool_decide_eq_false in H1, H2. split.
    + exists c. split_and!; [done|..]; intros ->; [apply H1|apply H2]; by left.
    + intros Ec. rewrite Ec in H. apply check_csv_iff in H as (q & e & n & Eq & Ee & En & Hne & Hn). exists q, e, n.
      split_and!; try done. rewrite Ed. congruence.
    + intros Ec. rewrite Ec in H. apply check_text_iff in H as (H3 & H4 & H5 & H6). split_and!; try done.
      intros c' Ec'. by assert (c' = c) as -> by congruence.
  - intros [(c & Ed & H1 & H2) Hcsv Htext]. rewrite Ed. cbn [deref mbind result_bind length Nat.eqb negb deny].
    assert (strchr [c] c_cr || strchr [c] c_lf = false) as ->.
    { unfold strchr. rewrite !bool_decide_eq_false_2; [done|..]; intros ?%list_elem_of_singleton; congruence. }
    cbn [deny mbind result_bind]. destruct (fo_csv f).
    + apply check_csv_iff. destruct (Hcsv eq_refl) as (q & e & n & ? & ? & ? & Hne & ?). exists q, e, n. split_and!; try done. congruence.
    + apply check_text_iff. destruct (Htext eq_refl) as (? & ? & ? & Hu). split_and!; try done. by apply Hu.
Qed.

(** ** What may be given *)

(** The options with a name, in their order. *)
Definition given (name : string) (opts : list DefElem) : list DefElem := filter (fun d => defname d = name) opts.
Definition option_names : list string := ["format"; "delimiter"; "null"; "header"; "quote"; "escape"]%string.

(** An option that is not given, or once with the value [v]. *)
Definition at_most_once (l : list DefElem) (v : option text) : Prop :=
  l = [] /\ v = None \/ exists d s, l = [d] /\ defGetString d = Ok s /\ v = Some s.

(** HEADER may be given again as long as it was false. *)
Definition headers (l : list DefElem) (h : bool) : Prop :=
  l = [] /\ h = false \/ exists l' d, l = l' ++ [d] /\ Forall (fun e => defGetBoolean e = Ok false) l' /\ defGetBoolean d = Ok h.

(** FORMAT: whether it is given, and whether it is CSV or binary. *)
Definition formats (l : list DefElem) (specified csv binary : bool) : Prop :=
  l = [] /\ specified = false /\ csv = false /\ binary = false \/
  exists d s, l = [d] /\ defGetString d = Ok s /\ s ∈ [text_of "text"; text_of "csv"; text_of "binary"] /\ specified = true /\
    csv = bool_decide (s = text_of "csv") /\ binary = bool_decide (s = text_of "binary").

(** The options [opts] say [f]. *)
Record options_given (opts : list DefElem) f : Prop := {
  og_names : Forall (fun d => defname d ∈ option_names) opts;
  og_format : formats (given "format" opts) (fo_specified f) (fo_csv f) (fo_binary f);
  og_delim : at_most_once (given "delimiter" opts) (fo_delim f);
  og_null : at_most_once (given "null" opts) (fo_null f);
  og_header : headers (given "header" opts) (fo_header f);
  og_quote : at_most_once (given "quote" opts) (fo_quote f);
  og_escape : at_most_once (given "escape" opts) (fo_escape f) }.

Lemma at_most_once_snoc l d v : at_most_once (l ++ [d]) v <-> at_most_once l None /\ exists s, defGetString d = Ok s /\ v = Some s.
Proof.
  unfold at_most_once. split.
  - intros [[H _]|(d' & s & H & E & ->)]; [by destruct l|]. apply app_singleton in H as [[-> [= ->]]|[_ H]]; [|done].
    split; [by left|by exists s].
  - intros [[[-> _]|(? & ? & _ & _ & ?)] (s & E & ->)]; [|done]. right. by exists d, s.
Qed.

Lemma headers_snoc l d h : headers (l ++ [d]) h <-> headers l false /\ defGetBoolean d = Ok h.
Proof.
  unfold headers. split.
  - intros [[H _]|(l' & d' & H & Hl & E)]; [by destruct l|]. apply app_inj_2 in H as [-> [= ->]]; [|done]. split; [|done].
    destruct l' as [|e l' _] using rev_ind; [by left|]. right. exists l', e. apply Forall_app in Hl as [H1 [H2 _]%Forall_cons]. done.
  - intros [[[-> _]|(l' & e & -> & Hl & E')] E]; right; [by exists [], d|]. exists (l' ++ [e]), d. split_and!; [done| |done].
    apply Forall_app. split; [done|]. by constructor.
Qed.

Lemma given_snoc name opts d : given name (opts ++ [d]) = given name opts ++ if decide (defname d = name) then [d] else [].
Proof. unfold given. by rewrite filter_app, filter_cons. Qed.

Lemma read_options_snoc f opts d : read_options f (opts ++ [d]) = (g ← read_options f opts; read_option g d).
Proof.
  revert f. induction opts as [|e opts IH]; intros f; cbn; [by destruct (read_option f d)|].
  destruct (read_option f e); cbn; [apply IH|done].
Qed.

Lemma once_Ok d old s : once d old = Ok s <-> old = None /\ defGetString d = Ok s.
Proof. unfold once, redundant. destruct old; naive_solver. Qed.

Lemma formats_snoc l d sp cs bi : formats (l ++ [d]) sp cs bi <-> formats l false false false /\
  exists s, defGetString d = Ok s /\ s ∈ [text_of "text"; text_of "csv"; text_of "binary"] /\ sp = true /\
    cs = bool_decide (s = text_of "csv") /\ bi = bool_decide (s = text_of "binary").
Proof.
  unfold formats. split.
  - intros [[H _]|(d' & s & H & E)]; [by destruct l|]. apply app_singleton in H as [[-> [= ->]]|[_ H]]; [|done].
    split; [by left|by exists s].
  - intros [[[-> _]|(? & ? & _ & _ & _ & ? & _)] (s & E)]; [|done]. right. by exists d, s.
Qed.

Lemma formats_none l cs bi : formats l false cs bi -> cs = false /\ bi = false.
Proof. intros [(_ & _ & ?)|(? & ? & _ & _ & _ & ? & _)]; done. Qed.

Lemma options_given_nil f : options_given [] f <-> f = format0.
Proof.
  split; [|intros ->; split; by left]. intros [_ Hf Hd Hn Hh Hq He]. destruct f as [sp cs bi de nu he qu es].
  unfold at_most_once, headers, formats, given in *. cbn in *.
  destruct Hf as [(_ & -> & -> & ->)|(? & ? & ? & _)]; [|done]. destruct Hd as [[_ ->]|(? & ? & ? & _)]; [|done].
  destruct Hn as [[_ ->]|(? & ? & ? & _)]; [|done]. destruct Hq as [[_ ->]|(? & ? & ? & _)]; [|done].
  destruct He as [[_ ->]|(? & ? & ? & _)]; [|done]. destruct Hh as [[_ ->]|(l & ? & Hl & _)]; [done|by destruct l].
Qed.

(** One more option sets one member; the others say the rest. *)
Ltac last_name E := rewrite ?given_snoc, ?E in *; repeat (rewrite decide_True in * by done); repeat (rewrite decide_False in * by done);
  rewrite ?app_nil_r, ?at_most_once_snoc, ?headers_snoc, ?formats_snoc in *.

Lemma options_given_last opts d f' : options_given (opts ++ [d]) f' -> exists f, options_given opts f /\ read_option f d = Ok f'.
Proof.
  intros [Hnm Hf Hd Hn Hh Hq He]. destruct f' as [sp cs bi de nu he qu es].
  cbn [fo_specified fo_csv fo_binary fo_delim fo_null fo_header fo_quote fo_escape] in *.
  apply Forall_app in Hnm as [Hnm [Hname _]%Forall_cons]. unfold read_option.
  unfold option_names in Hname. rewrite !elem_of_cons, elem_of_nil in Hname.
  destruct Hname as [E|[E|[E|[E|[E|[E|[]]]]]]]; last_name E; cbn [String.eqb Ascii.eqb Bool.eqb].
  - destruct Hf as [Hf (s & Es & Hin & -> & -> & ->)]. exists (Build_copy_format false false false de nu he qu es). split; [done|].
    rewrite Es. cbn [mbind result_bind fo_specified].
    rewrite !elem_of_cons, elem_of_nil in Hin. destruct Hin as [->|[->|[->|[]]]]; done.
  - destruct Hd as [Hd (s & Es & ->)]. exists (Build_copy_format sp cs bi None nu he qu es). split; [done|]. cbn. by rewrite Es.
  - destruct Hn as [Hn (s & Es & ->)]. exists (Build_copy_format sp cs bi de None he qu es). split; [done|]. cbn. by rewrite Es.
  - destruct Hh as [Hh Eb]. exists (Build_copy_format sp cs bi de nu false qu es). split; [done|]. cbn. by rewrite Eb.
  - destruct Hq as [Hq (s & Es & ->)]. exists (Build_copy_format sp cs bi de nu he None es). split; [done|]. cbn. by rewrite Es.
  - destruct He as [He (s & Es & ->)]. exists (Build_copy_format sp cs bi de nu he qu None). split; [done|]. cbn. by rewrite Es.
Qed.

Lemma set_format_Ok f s f' : fo_specified f = false -> fo_csv f = false -> fo_binary f = false ->
  (if bool_decide (s = text_of "text") then Ok (set_format f false (fo_binary f))
   else if bool_decide (s = text_of "csv") then Ok (set_format f true (fo_binary f))
   else if bool_decide (s = text_of "binary") then Ok (set_format f (fo_csv f) true)
   else Fail (EReport "COPY format not recognized")) = Ok f' ->
  f' = set_format f (bool_decide (s = text_of "csv")) (bool_decide (s = text_of "binary")) /\
  s ∈ [text_of "text"; text_of "csv"; text_of "binary"].
Proof.
  intros H1 H2 H3 E. rewrite H2, H3 in E. rewrite !elem_of_cons.
  repeat case_bool_decide; simplify_eq; try done; split; auto; done.
Qed.

Lemma options_given_more opts d f f' : options_given opts f -> read_option f d = Ok f' -> options_given (opts ++ [d]) f'.
Proof.
  intros [Hnm Hf Hd Hn Hh Hq He] E.
  assert (Hnames : forall name : string, defname d = name -> bool_decide (name ∈ option_names) = true ->
    Forall (fun d => defname d ∈ option_names) (opts ++ [d])).
  { intros name <- Hin%bool_decide_eq_true. apply Forall_app. split; [done|]. by constructor. }
  destruct f as [sp cs bi de nu he qu es]. unfold read_option in E.
  cbn [fo_specified fo_csv fo_binary fo_delim fo_null fo_header fo_quote fo_escape] in *.
  destruct (String.eqb_spec (defname d) "format") as [Ed|_].
  { apply bind_Ok in E as (s & Es & E). destruct sp; [done|]. destruct (formats_none _ _ _ Hf) as [-> ->].
    apply set_format_Ok in E as [-> Hs]; [|done..]. split; [by apply (Hnames _ Ed)|..]; last_name Ed; try done.
    split; [done|by exists s]. }
  destruct (String.eqb_spec (defname d) "delimiter") as [Ed|_].
  { apply bind_Ok in E as (s & [-> Es]%once_Ok & [= <-]). split; [by apply (Hnames _ Ed)|..]; last_name Ed; try done. split; [done|by exists s]. }
  destruct (String.eqb_spec (defname d) "null") as [Ed|_].
  { apply bind_Ok in E as (s & [-> Es]%once_Ok & [= <-]). split; [by apply (Hnames _ Ed)|..]; last_name Ed; try done. split; [done|by exists s]. }
  destruct (String.eqb_spec (defname d) "header") as [Ed|_].
  { destruct he; [done|]. apply bind_Ok in E as (b & Eb & [= <-]). split; [by apply (Hnames _ Ed)|..]; last_name Ed; done. }
  destruct (String.eqb_spec (defname d) "quote") as [Ed|_].
  { apply bind_Ok in E as (s & [-> Es]%once_Ok & [= <-]). split; [by apply (Hnames _ Ed)|..]; last_name Ed; try done. split; [done|by exists s]. }
  destruct (String.eqb_spec (defname d) "escape") as [Ed|_].
  { apply bind_Ok in E as (s & [-> Es]%once_Ok & [= <-]). split; [by apply (Hnames _ Ed)|..]; last_name Ed; try done. split; [done|by exists s]. }
  done.
Qed.

Lemma read_options_iff opts f : read_options format0 opts = Ok f <-> options_given opts f.
Proof.
  revert f. induction opts as [|d opts IH] using rev_ind; intros f.
  - rewrite options_given_nil. cbn. naive_solver.
  - rewrite read_options_snoc, bind_Ok. split.
    + intros (g & Hg%IH & E). by eapply options_given_more.
    + intros (g & Hg%IH & E)%options_given_last. by exists g.
Qed.

(** The defaults for what is not given. *)
Record defaulted f0 f : Prop := {
  de_same : fo_specified f = fo_specified f0 /\ fo_csv f = fo_csv f0 /\ fo_binary f = fo_binary f0 /\ fo_header f = fo_header f0;
  de_delim : fo_delim f = Some (default (if fo_csv f0 then text_of "," else [ascii_of_nat 9]) (fo_delim f0));
  de_null : fo_null f = Some (default (if fo_csv f0 then [] else text_of "\N") (fo_null f0));
  de_quote : fo_quote f = if fo_csv f0 then Some (default dquote (fo_quote f0)) else fo_quote f0;
  de_escape : fo_escape f = if fo_csv f0 then Some (default (default dquote (fo_quote f0)) (fo_escape f0)) else fo_escape f0 }.

Lemma default_options_iff f0 f : f = default_options f0 <-> defaulted f0 f.
Proof.
  split.
  - intros ->. destruct f0 as [sp [] bi de nu he qu es]; split; try done; cbn; by destruct es.
  - intros [(H1 & H2 & H3 & H4) H5 H6 H7 H8]. destruct f as [sp cs bi de nu he qu es], f0 as [sp0 cs0 bi0 de0 nu0 he0 qu0 es0]. cbn in *. subst.
    destruct cs0; [|done]. unfold default_options, set_texts. cbn. by destruct es0.
Qed.

(** ** The command of a scan *)

(** The options of the command that [NoDBScanOperatorInit] prints, as the grammar
    reads them. *)
Definition option_of (name : string) (value : text) : DefElem := {| defname := name; arg := Some (ArgString value) |}.
Definition command_options (delimiter : text) (header : bool) : list DefElem :=
  [option_of "format" (text_of "csv"); option_of "delimiter" delimiter;
   option_of "header" (text_of (if header then "true" else "false"))].
Definition csv_format (delimiter : text) (header : bool) : copy_format :=
  {| fo_specified := true; fo_csv := true; fo_binary := false; fo_delim := Some delimiter; fo_null := Some [];
     fo_header := header; fo_quote := Some dquote; fo_escape := Some dquote |}.

Lemma command_format delimiter header :
  scan_options (command_options delimiter header) = (_ ← check_options (csv_format delimiter header); Ok (csv_format delimiter header)).
Proof. by destruct header. Qed.

Lemma csv_format_ok c header : c <> c_cr -> c <> c_lf -> [c] <> dquote -> format_ok (csv_format [c] header).
Proof.
  intros H1 H2 H3. split; [by exists c| |done]. intros _. exists (ascii_of_nat 34), (ascii_of_nat 34), [].
  split_and!; try done; [|by apply not_elem_of_nil]. cbn. unfold dquote in H3. congruence.
Qed.

(** A user who may read the file as a COPY FROM: superuser, with the right to insert,
    in a transaction that is not read-only, on an ordinary table. *)
Record may_copy (se : session) : Prop := {
  mc_super : superuser se = true;
  mc_insert : Z.ldiff ACL_INSERT (pg_class_aclmask se ACL_INSERT) = 0;
  mc_write : XactReadOnly se = false \/ rd_islocaltemp se = true;
  mc_table : relkind se = ascii_of_nat 114 }.

Definition command_stmt (file : string) (delimiter : text) (header : bool) : CopyStmt :=
  {| is_from := true; stmt_relation := true; stmt_filename := Some file; attlist := []; stmt_options := command_options delimiter header |}.

Lemma GetScanState_command se tup file c header : may_copy se -> c <> c_cr -> c <> c_lf -> [c] <> dquote ->
  GetScanState se (command_stmt file [c] header) tup =
    Ok {| ss_format := csv_format [c] header; ss_attnums := default_attnums 0 tup;
          ss_need_transcoding := negb (pg_get_client_encoding se =? GetDatabaseEncoding se) || (1 <? pg_database_encoding_max_length se);
          ss_embeds_ascii := PG_ENCODING_IS_CLIENT_ONLY (pg_get_client_encoding se); ss_filename := Some file |}.
Proof.
  intros [H1 H2 H3 H4] Hc1 Hc2 Hc3. unfold GetScanState. cbn [stmt_options command_stmt]. rewrite command_format.
  rewrite (proj2 (check_options_iff _ tt)) by (by apply csv_format_ok). cbn [mbind result_bind stmt_filename stmt_relation command_stmt].
  rewrite H1. cbn [negb]. rewrite andb_false_r. cbn [deny mbind result_bind].
  unfold check_rights. cbn [is_from command_stmt attlist]. rewrite H2. cbn [Z.eqb mbind result_bind].
  assert (XactReadOnly se && true && negb (rd_islocaltemp se) = false) as ->.
  { destruct H3 as [-> | ->]; [done|]. cbn. by rewrite andb_false_r. }
  done.
Qed.

Lemma attnums_all tup i : Forall (fun a => attisdropped a = false) tup -> length (default_attnums i tup) = length tup.
Proof.
  intros H. revert i. induction H as [|a tup Ha _ IH]; intros i; [done|]. cbn [default_attnums]. rewrite Ha. cbn. by rewrite IH.
Qed.

Lemma attnums_dropped tup i : Exists (fun a => attisdropped a = true) tup -> (length (default_attnums i tup) < length tup)%nat.
Proof.
  assert (Hle : forall t j, (length (default_attnums j t) <= length t)%nat).
  { induction t as [|b t IH]; intros j; [done|]. cbn [default_attnums]. rewrite length_app. specialize (IH (j + 1)).
    destruct (attisdropped b); cbn; lia. }
  intros H. revert i. induction H as [a tup Ha|a tup _ IH]; intros i; cbn [default_attnums]; rewrite length_app.
  - rewrite Ha. specialize (Hle tup (i + 1)). cbn. lia.
  - specialize (IH (i + 1)). destruct (attisdropped a); cbn; lia.
Qed.

(** The number of fields of a line does not count dropped columns, which the columns
    of the relation and of the query do. *)
Lemma dropped_columns_not_counted se sf open pipe tup file c header k : may_copy se -> c <> c_cr -> c <> c_lf -> [c] <> dquote ->
  Exists (fun a => attisdropped a = true) tup -> copy_setup se sf open pipe (command_stmt file [c] header) tup = Ok k ->
  nfields (k_env k) < Z.of_nat (length (k_names k)).
Proof.
  intros Hse H1 H2 H3 Hd E. unfold copy_setup in E. rewrite GetScanState_command in E by done. cbn [mbind result_bind] in E.
  unfold GetScanExecStatusStmt in E. apply bind_Ok in E as (? & _ & E). apply bind_Ok in E as (bytes & _ & E).
  cbn [ss_format csv_format fo_binary mbind result_bind] in E. injection E as <-. cbn [k_env nfields k_names ss_attnums]. rewrite length_fmap.
  pose proof (attnums_dropped tup 0 Hd). lia.
Qed.

(** In a read-only transaction no query on a raw file can be set up. *)
Lemma read_only_refused se tup file c header : superuser se = true -> Z.ldiff ACL_INSERT (pg_class_aclmask se ACL_INSERT) = 0 ->
  XactReadOnly se = true -> rd_islocaltemp se = false -> c <> c_cr -> c <> c_lf -> [c] <> dquote ->
  GetScanState se (command_stmt file [c] header) tup = Fail (EReport "cannot execute COPY FROM in a read-only transaction").
Proof.
  intros H1 H2 H3 H4 Hc1 Hc2 Hc3. unfold GetScanState. cbn [stmt_options command_stmt]. rewrite command_format.
  rewrite (proj2 (check_options_iff _ tt)) by (by apply csv_format_ok). cbn [mbind result_bind stmt_filename stmt_relation command_stmt].
  rewrite H1. cbn [negb]. rewrite andb_false_r. cbn [deny mbind result_bind].
  unfold check_rights. cbn [is_from command_stmt attlist]. rewrite H2, H3, H4. done.
Qed.

(** ** Properties *)

(** C20 The options of a scan are accepted, with the result [f], exactly when: each of
    them is a known one; FORMAT is given at most once and is text, csv or binary;
    DELIMITER, NULL, QUOTE and ESCAPE are given at most once; HEADER is given any
    number of times as long as all but the last are false (so HEADER false, HEADER
    true is not refused as redundant); and, with the defaults for the others, they
    fit together: the delimiter is one byte and no newline; in CSV mode the quote and
    the escape are single bytes and the quote is neither the delimiter nor in the
    null marker; in text mode there is no header, quote or escape and the delimiter
    is no character of an escape sequence. *)
Theorem scan_options_correct opts f :
  scan_options opts = Ok f <-> exists f0, options_given opts f0 /\ defaulted f0 f /\ format_ok f.
Proof.
  unfold scan_options. split.
  - intros H. apply bind_Ok in H as (f0 & E%read_options_iff & H). apply bind_Ok in H as (u & Hc%check_options_iff & [= <-]).
    exists f0. by rewrite <- default_options_iff.
  - intros (f0 & ->%read_options_iff & ->%default_options_iff & Hok). cbn [mbind result_bind].
    by rewrite (proj2 (check_options_iff _ tt)).
Qed.

(** HEADER may be given twice, DELIMITER may not. *)
Example header_twice :
  let d name v := {| defname := name; arg := Some (ArgString (text_of v)) |} in
  (exists f, scan_options [d "format" "csv"; d "header" "false"; d "header" "true"]%string = Ok f /\ fo_header f = true) /\
  scan_options [d "delimiter" ","; d "delimiter" ";"]%string = redundant.
Proof. split; [eexists; split; vm_compute; reflexivity|vm_compute; reflexivity]. Qed.
