(* ===== verification/FirstStrategy.v ===== *)
(** * The first strategy for a relation

    A relation without caches: the set-up takes all columns of the query from the
    file, and makes the caches that the scan fills. What the lists of the strategy
    are then, with and without a filter, and that the new caches have room for
    every row of the strategy. *)
From S2P Require Import Prelude LinkedList Vectors Bitmap Relation Cache CacheData EOLCache FieldParser CacheSelect StrategyMatrix MatrixSound ScanStrategy StrategySound IteratorSound ExecInfo Executor ExecutorSound PlanSound NewCaches ScanOperator.

Implicit Types (w : world) (q : NoDBQueryInfo_t) (cm : cache_map).

(** ** Maps without empty entries *)
Definition no_empty cm : Prop := forall p cols, (p, cols) ∈ cm -> cols <> [].

Lemma map_set_in cm p l p' l' : (p', l') ∈ col_map_set cm p l -> (p', l') ∈ cm \/ l' = l.
Proof.
  induction cm as [|[k l0] cm IH]; cbn [col_map_set]; [auto|]. destruct (k =? p).
  - intros [[= -> ->]|?]%elem_of_cons; [by right|left]. by apply elem_of_cons; right.
  - intros [[= -> ->]|H]%elem_of_cons; [left; apply elem_of_cons; by left|].
    destruct (IH H); [left; by apply elem_of_cons; right|by right].
Qed.

Lemma AddColToMap_no_empty cm p x : no_empty cm -> no_empty (AddColToMap cm p x).
Proof.
  intros H p' l' Hin. unfold AddColToMap in Hin. destruct (map_get cm p) as [l|].
  - apply map_set_in in Hin as [?| ->]; [by eapply H|done].
  - apply elem_of_app in Hin as [?|Hin]; [by eapply H|]. apply list_elem_of_singleton in Hin as [= _ ->]. done.
Qed.

Lemma no_empty_nil cm : no_empty cm -> (forall p x, ~ in_map cm p x) -> cm = [].
Proof.
  intros Hne Hno. destruct cm as [|[p [|x l]] cm]; [done| |].
  - exfalso. by apply (Hne p []); [apply elem_of_cons; left|].
  - exfalso. apply (Hno p x). exists (x :: l). split; apply elem_of_cons; by left.
Qed.

Definition fill_no_empty s : Prop :=
  no_empty (fs_hit s) /\ no_empty (fs_byValue s) /\ no_empty (fs_byRef s) /\ no_empty (fs_positions s).

Lemma fill_col_no_empty rel nd b1 b2 b3 col v s s' :
  fill_col rel nd b1 b2 b3 col v s = Ok s' -> fill_no_empty s -> fill_no_empty s'.
Proof.
  unfold fill_col. intros E H. apply bind_Ok in E as (s1 & E1 & E). apply bind_Ok in E as (s2 & E2 & E).
  assert (fill_no_empty s1) as H1.
  { destruct b1; [|by simplify_eq]. unfold fill_read in E1. case_decide; [|by simplify_eq].
    apply bind_Ok in E1 as (p & _ & [= <-]). destruct H as (? & ? & ? & ?). split_and!; try done. by apply AddColToMap_no_empty. }
  assert (fill_no_empty s2) as H2.
  { destruct (b2 && _); [|by simplify_eq]. unfold fill_data in E2. apply bind_Ok in E2 as (bv & _ & E2).
    apply bind_Ok in E2 as (p & _ & E2). destruct H1 as (? & ? & ? & ?).
    destruct bv; simplify_eq; split_and!; try done; by apply AddColToMap_no_empty. }
  destruct (b3 && _); [|by simplify_eq]. unfold fill_position in E. apply bind_Ok in E as (p & _ & [= <-]).
  destruct H2 as (? & ? & ? & ?). split_and!; try done. by apply AddColToMap_no_empty.
Qed.

Lemma fill_cols_no_empty m rowIdx rel cols b1 b2 b3 val s : 0 <= NoDBColVectorSize cols ->
  fill_cols m rowIdx rel cols b1 b2 b3 val = Ok s -> fill_no_empty s.
Proof.
  intros Hn E. unfold fill_cols in E.
  apply (for_range_ind (fun _ s => fill_no_empty s) _ _ _ _ _ Hn) in E; [done| |].
  - split_and!; intros p l Hin; by apply elem_of_nil in Hin.
  - intros i s1 s2 _ H1 E1. do 5 (apply bind_Ok in E1 as (? & _ & E1)). by eapply fill_col_no_empty.
Qed.

(** Without positions nothing is read through a map. *)
Lemma FillRow_no_pm m rowIdx rel cols b1 b2 b3 rep : 0 <= NoDBColVectorSize cols ->
  pm_available m rowIdx cols = Ok false -> FillRow m rowIdx rel cols b1 b2 b3 = Ok rep ->
  mapReadFromPM rep = [] /\ readViaPM rep = NULL /\ nreadViaPM rep = 0 /\
  no_empty (mapDataHit rep) /\ no_empty (mapDataAddByValue rep) /\ no_empty (mapDataAddByRef rep) /\ no_empty (mapPositionsAdd rep).
Proof.
  intros Hn Hpm E. unfold FillRow in E. rewrite Hpm in E. cbn [mbind result_bind negb] in E.
  apply bind_Ok in E as (s & Es & [= <-]). destruct (fill_cols_no_empty _ _ _ _ _ _ _ _ _ Hn Es) as (? & ? & ? & ?). done.
Qed.

(** ** The first strategy *)

(** No cache of the relation. *)
Definition no_caches (relp : Z) w : Prop := forall p c, w_caches w !! p = Some c -> c_rel c <> relp.

(** A cache of the relation that has the column and room for the rows before [hi]. *)
Definition writable (relp : Z) w (type : NoDBCacheType_t) (hi p x : Z) : Prop :=
  exists c, w_caches w !! p = Some c /\ of_rel_type relp type c = true /\ has_col w p x = true /\ room w p (hi - 1).

(** The lists that [FillRow] returns when nothing is cached, for the columns to
    read and those to write; [lf] is read from the file and [conv] converted. *)
Record first_lists (relp hi : Z) w (read wd wp : list Z) (lf conv : list Z) (vm pw : cache_map) : Prop := {
  fl_read : forall x, x ∈ read -> x ∈ conv;
  fl_conv : forall x, x ∈ conv -> x ∈ read ++ wd;
  fl_file : forall x, x ∈ conv \/ (exists p, in_map pw p x) -> x ∈ lf;
  fl_only : forall x, x ∈ lf -> x ∈ conv \/ exists p, in_map pw p x;
  fl_values : forall p x, in_map vm p x -> (x ∈ conv /\ x ∈ wd) /\ writable relp w NODB_DATA_CACHE hi p x;
  fl_positions : forall p x, in_map pw p x -> x ∈ wp /\ writable relp w NODB_POSITIONS_CACHE hi p x;
  fl_written : forall x, x ∈ wd -> exists p, in_map vm p x;
  fl_mapped : forall x, x ∈ wp -> exists p, in_map pw p x;
  fl_ne : no_empty vm /\ no_empty pw }.

(** The strategy of a first query. Without a filter everything is in the half after
    the filter; with one, the half before it writes, and the half after it reads
    what is left. *)
Record first_plan (relp ncols hi : Z) w (filter read wd wp : list Z) (st : NoDBScanStrategy_t)
    (lf1 conv1 lf2 conv2 : list Z) (vm pw : cache_map) : Prop := {
  fp_rows : startRow st = 0 /\ nrows st = hi;
  fp_pre : pre_lists st [] [] [] lf1 conv1;
  fp_post : post_lists st [] [] [] lf2 conv2;
  fp_write : write_lists st vm pw;
  fp_caches : new_caches relp ncols (hi - 1) w;
  fp_plain : filter = [] -> lf1 = [] /\ conv1 = [] /\ first_lists relp hi w read wd wp lf2 conv2 vm pw;
  fp_filter : filter <> [] -> first_lists relp hi w filter wd wp lf1 conv1 vm pw /\
    exists read2, first_lists relp hi w read2 [] [] lf2 conv2 [] [] /\
      forall x, x ∈ read2 <-> x ∈ read /\ x ∉ filter /\ x ∉ conv1 }.


(** The columns of a request have a datum per row and are passed by value. *)
Definition plain_columns (rel : NoDBRelation_t) (cols : list Z) : Prop :=
  forall x, x ∈ cols -> NoDBRelationGetColumnSize rel x = Ok sizeof_NoDBDatum /\ NoDBRelationIsColumnByValue rel x = Ok true.

Lemma no_known relp q w type p row x : no_caches relp w -> q_relp q = relp -> ~ known q w type p row x.
Proof.
  intros Hno Hr (_ & c & Ec & Ht & _). apply (Hno p c Ec). unfold of_rel_type in Ht. apply andb_prop in Ht as [Ht _].
  apply Z.eqb_eq in Ht. unfold NoDBCacheGetRelation in Ht. congruence.
Qed.

Section first_row.
Context (q : NoDBQueryInfo_t) (cs : list Z) (wdl wpl : list Z) (wd wp : list bool) (hi : Z) (Hhi : 0 < hi < 2 ^ 48).
Context (w w1 : world) (m : matrix).
Context (Hq : query_ok q cs [0; hi] wd wp).
Context (Hwd : bits_for cs wdl wd) (Hwp : bits_for cs wpl wp).
Context (Hplan : plan_world q w) (Hno : no_caches (q_relp q) w) (Hpl : plain_columns (q_rel q) cs).
Context (Hn : 0 <= NoDBRelationGetNumberColumns (q_rel q)).
Context (E : BuildMatrix q w = Ok (w1, m)) (Hdims : mat_dims cs [0; hi] m).
Context (Hcells : forall r k, (r < 1)%nat -> (k < length cs)%nat -> plan_cell q cs [0; hi] wd wp w w1 m r k (cell m r k)).
Context (Hroom : forall k, (k < length cs)%nat -> to_write_room w1 (hi - 1) (cell m 0 k)).

Lemma first_closest k : (k < length cs)%nat -> closestPMCache (cell m 0 k) = 0.
Proof.
  intros Hk. destruct (pc_closest _ _ _ _ _ _ _ _ _ _ _ (Hcells 0 k ltac:(lia) Hk)) as [[? _]|(_ & cc & [Hkn _] & _)]; [done|].
  by apply (no_known (q_relp q)) in Hkn.
Qed.

Lemma first_no_hit k : (k < length cs)%nat -> dataHit (cell m 0 k) <> CACHE_HIT.
Proof.
  intros Hk Hh. pose proof (pc_data _ _ _ _ _ _ _ _ _ _ _ (Hcells 0 k ltac:(lia) Hk)) as Hd. rewrite Hh in Hd.
  destruct Hd as (p & _ & Hkn). by apply (no_known (q_relp q)) in Hkn.
Qed.

Lemma first_new : new_caches (q_relp q) (NoDBRelationGetNumberColumns (q_rel q)) (hi - 1) w1.
Proof.
  apply (BuildMatrix_first q hi Hhi (qo_rows _ _ _ _ _ Hq)) with (w := w) (m := m); [|done|].
  - intros o Ho x ->. rewrite (qo_cols _ _ _ _ _ Hq) in Ho. cbn in Ho. apply list_elem_of_fmap in Ho as (y & [= <-] & Hy).
    split; [apply (proj1 (Forall_forall _ _) (qo_range _ _ _ _ _ Hq) x Hy)|]. exists sizeof_NoDBDatum. split; [by apply Hpl|by vm_compute].
  - intros p c Ec Hr. by destruct (Hno p c Ec).
Qed.

Lemma first_writable type p k : (k < length cs)%nat -> dest q w1 type p 0 (col_at cs k) -> room w1 p (hi - 1) ->
  writable (q_relp q) w1 type hi p (col_at cs k).
Proof. intros Hk (_ & c & Ec & Ht & _ & Hh) Hr. by exists c. Qed.

Lemma col_at_in k : (k < length cs)%nat -> col_at cs k ∈ cs.
Proof. intros Hk. unfold col_at. destruct (lookup_lt_is_Some_2 cs k Hk) as [y Hy]. rewrite Hy. by eapply list_elem_of_lookup_2. Qed.

Lemma bit_col l b x : bits_for cs l b -> x ∈ l -> exists k, (k < length cs)%nat /\ x = col_at cs k /\ bit_at b k = true.
Proof.
  intros [H1 H2] Hx. apply H1 in Hx as Hc. apply elem_col_at in Hc as (k & Hk & ->). exists k. split_and!; [done..|].
  rewrite H2 by done. by apply bool_decide_eq_true_2.
Qed.

Lemma col_bit l b k : bits_for cs l b -> (k < length cs)%nat -> bit_at b k = true -> col_at cs k ∈ l.
Proof. intros [_ H2] Hk. rewrite H2 by done. by intros ?%bool_decide_eq_true. Qed.

Lemma data_added k : (k < length cs)%nat -> bit_at wd k = true -> exists p, dataHit (cell m 0 k) = CACHE_ADD /\
  dataCache (cell m 0 k) = Some p /\ writable (q_relp q) w1 NODB_DATA_CACHE hi p (col_at cs k).
Proof.
  intros Hk Hbit. pose proof (pc_data _ _ _ _ _ _ _ _ _ _ _ (Hcells 0 k ltac:(lia) Hk)) as Hd.
  destruct (dataHit (cell m 0 k)) eqn:Ed; [done| | |].
  - by apply first_no_hit in Ed.
  - unfold wd_at, bit_at in *. congruence.
  - destruct Hd as (_ & p & Ep & Hd). exists p. split_and!; [done..|]. apply first_writable; [done..|]. by apply (proj1 (Hroom k Hk)).
Qed.

Lemma position_added k : (k < length cs)%nat -> bit_at wp k = true -> exists p, pmHit (cell m 0 k) = CACHE_ADD /\
  pmCache (cell m 0 k) = Some p /\ writable (q_relp q) w1 NODB_POSITIONS_CACHE hi p (col_at cs k).
Proof.
  intros Hk Hbit. pose proof (pc_pm _ _ _ _ _ _ _ _ _ _ _ (Hcells 0 k ltac:(lia) Hk)) as Hd.
  destruct (pmHit (cell m 0 k)) eqn:Ed.
  - destruct Hd as [Hh _]. by apply first_no_hit in Hh.
  - destruct Hd as (Hkn & _). by apply (no_known (q_relp q)) in Hkn.
  - unfold wp_at, bit_at in *. congruence.
  - destruct Hd as (_ & p & Ep & Hd). exists p. split_and!; [done..|]. apply first_writable; [done..|]. by apply (proj2 (Hroom k Hk)).
Qed.

Lemma first_reply read dl pl rb db pb rep : bits_for cs read rb -> bits_for cs dl db -> bits_for cs pl pb ->
  (forall k, (k < length cs)%nat -> bit_at db k = true -> bit_at wd k = true) ->
  (forall k, (k < length cs)%nat -> bit_at pb k = true -> bit_at wp k = true) -> reply_ok q cs m 0 rb db pb rep ->
  no_empty (mapDataAddByValue rep) -> no_empty (mapPositionsAdd rep) ->
  first_lists (q_relp q) hi w1 read dl pl (collectFromFile rep) (convert rep) (mapDataAddByValue rep) (mapPositionsAdd rep).
Proof.
  intros Hr Hd Hp Sd Sp Hrep N1 N2. split.
  - intros x (k & Hk & -> & Hbit)%(bit_col _ _ _ Hr). apply (ro_convert _ _ _ _ _ _ _ _ Hrep).
    exists k. split_and!; [done..|]. left. split; [done|]. by apply first_no_hit.
  - intros x (k & Hk & -> & [[Hb _]|[Hb _]])%(ro_convert _ _ _ _ _ _ _ _ Hrep); apply elem_of_app; [left|right]; by eapply col_bit.
  - intros x [(k & Hk & -> & Hv)%(ro_convert _ _ _ _ _ _ _ _ Hrep)|(p & (k & Hk & -> & Hv & Ha & _)%(ro_positions _ _ _ _ _ _ _ _ Hrep))];
      (apply (ro_position _ _ _ _ _ _ _ _ Hrep k Hk); [|by apply first_closest]); [by left|by right].
  - intros x (k & Hk & -> & [Hv|[Hb Ha]] & _)%(ro_file _ _ _ _ _ _ _ _ Hrep).
    + left. apply (ro_convert _ _ _ _ _ _ _ _ Hrep). by exists k.
    + right. destruct (position_added k Hk) as (p & _ & Ep & _); [by apply Sp|]. exists p. apply (ro_positions _ _ _ _ _ _ _ _ Hrep). by exists k.
  - intros p x (k & Hk & -> & Hv & Ha & Ep & _)%(ro_byValue _ _ _ _ _ _ _ _ Hrep). split.
    + split; [|by eapply col_bit]. apply (ro_convert _ _ _ _ _ _ _ _ Hrep). exists k. split_and!; [done..|]. by right.
    + destruct (data_added k Hk) as (p' & _ & Ep' & Hw); [by apply Sd|]. by assert (p' = p) as <- by congruence.
  - intros p x (k & Hk & -> & Hv & Ha & Ep)%(ro_positions _ _ _ _ _ _ _ _ Hrep). split; [by eapply col_bit|].
    destruct (position_added k Hk) as (p' & _ & Ep' & Hw); [by apply Sp|]. by assert (p' = p) as <- by congruence.
  - intros x (k & Hk & -> & Hbit)%(bit_col _ _ _ Hd). destruct (data_added k Hk) as (p & Ha & Ep & _); [by apply Sd|]. exists p.
    apply (ro_byValue _ _ _ _ _ _ _ _ Hrep). exists k. split_and!; [done..|]. apply Hpl, col_at_in, Hk.
  - intros x (k & Hk & -> & Hbit)%(bit_col _ _ _ Hp). destruct (position_added k Hk) as (p & Ha & Ep & _); [by apply Sp|]. exists p.
    apply (ro_positions _ _ _ _ _ _ _ _ Hrep). by exists k.
  - done.
Qed.

(** The reply of [FillRow] when nothing is cached. *)
Lemma first_fill read dl pl rb db pb : bits_for cs read rb -> bits_for cs dl db -> bits_for cs pl pb ->
  length rb = length cs -> length db = length cs -> length pb = length cs ->
  (forall x, x ∈ dl -> x ∈ wdl) -> (forall x, x ∈ pl -> x ∈ wpl) ->
  exists rep, FillRow m 0 (q_rel q) (q_cols q) (bitmap_of rb) (bitmap_of db) (bitmap_of pb) = Ok rep /\
    mapDataHit rep = [] /\ mapReadFromPM rep = [] /\ mapDataAddByRef rep = [] /\ readViaPM rep = NULL /\ nreadViaPM rep = 0 /\
    first_lists (q_relp q) hi w1 read dl pl (collectFromFile rep) (convert rep) (mapDataAddByValue rep) (mapPositionsAdd rep).
Proof.
  intros Hr Hd Hp Lr Ld Lp Sd Sp.
  destruct (FillRow_spec q cs [0; hi] wd wp Hq m 0 rb db pb Hdims) as (rep & Erep & Hrep); try done.
  { cbn. lia. } { intros k Hk. eapply plan_node_ok. apply Hcells; [lia|done]. }
  { intros k Hk Hne. by rewrite first_closest in Hne. } { intros k k' Hk _ Hne. by rewrite first_closest in Hne. }
  change (Z.of_nat 0) with 0 in Erep. exists rep. split; [done|].
  destruct (pm_available_spec q cs [0; hi] wd wp Hq m 0 Hdims) as (b & Eb & Hb); [cbn; lia|].
  assert (b = false) as ->.
  { destruct b; [|done]. destruct (proj1 Hb eq_refl) as (k & Hk & Hne). by rewrite first_closest in Hne. }
  destruct (FillRow_no_pm m 0 (q_rel q) (q_cols q) (bitmap_of rb) (bitmap_of db) (bitmap_of pb) rep) as (P1 & P2 & P3 & N1 & N2 & N3 & N4); [|done|done|].
  { rewrite (qo_cols _ _ _ _ _ Hq). cbn. lia. }
  assert (Hbit : forall l l' b b' k, bits_for cs l b -> bits_for cs l' b' -> (forall x, x ∈ l -> x ∈ l') -> (k < length cs)%nat ->
    bit_at b k = true -> bit_at b' k = true).
  { intros l l' b b' k Hl [_ Hl'] Hs Hk Hbk. rewrite Hl' by done. apply bool_decide_eq_true_2, Hs. by eapply col_bit. }
  split_and!; try done.
  - apply no_empty_nil; [done|]. intros p x (k & Hk & _ & _ & Hh & _)%(ro_hit _ _ _ _ _ _ _ _ Hrep). by apply (first_no_hit k).
  - apply no_empty_nil; [done|]. intros p x (k & Hk & -> & _ & _ & _ & Hv)%(ro_byRef _ _ _ _ _ _ _ _ Hrep).
    destruct (Hpl (col_at cs k)) as [_ Hv']; [by apply col_at_in|]. congruence.
  - apply (first_reply read dl pl rb db pb); try done; intros k Hk; eapply Hbit; done.
Qed.
End first_row.

Lemma none_bits cs : bits_for cs [] (replicate (length cs) false).
Proof.
  split; [by intros x ?%elem_of_nil|]. intros k Hk. unfold bit_at. rewrite lookup_replicate_2 by done. cbn.
  symmetry. apply bool_decide_eq_false_2, not_elem_of_nil.
Qed.

Lemma has_filter_bit cs l b : bits_for cs l b -> length b = length cs -> (true ∉ b) <-> l = [].
Proof.
  intros Hl Hlen. split.
  - intros Hb. destruct l as [|x l]; [done|]. exfalso. destruct (bit_col cs (x :: l) b x Hl) as (k & Hk & _ & Hbit); [by left|].
    apply Hb. unfold bit_at in Hbit. destruct (b !! k) eqn:E; [|done]. cbn in Hbit. subst. by eapply list_elem_of_lookup_2.
  - intros -> [k Hk]%list_elem_of_lookup. pose proof (lookup_lt_Some _ _ _ Hk) as Hlt. rewrite Hlen in Hlt.
    pose proof (col_bit cs [] b k Hl Hlt) as Hc. unfold bit_at in Hc. rewrite Hk in Hc. by apply not_elem_of_nil in Hc.
Qed.

Lemma no_rows_no_caches relp w : world_ok w -> no_caches relp w -> GetInterestingRows w relp = Ok [].
Proof.
  intros Hw Hno. destruct (GetInterestingRows_spec w relp Hw) as (rows & -> & _ & _ & Hne).
  destruct rows as [|r rows]; [done|]. destruct (Hne ltac:(done)) as (e & p & c & _ & Ec & Hr & _). by destruct (Hno p c Ec).
Qed.

Section first_strategy.
Context (q : NoDBQueryInfo_t) (cs : list Z) (filter read wdl wpl : list Z) (wd wp fb rb : list bool) (hi : Z).
Context (Hb : query_base q cs wd wp fb rb) (Hhi : 0 < hi < 2 ^ 48).
Context (Bf : bits_for cs filter fb) (Br : bits_for cs read rb) (Bd : bits_for cs wdl wd) (Bp : bits_for cs wpl wp).
Abbreviation q2 := (set_q_rows q (row_vector [0; hi])).
Context (w w1 : world) (m : matrix) (Hno : no_caches (q_relp q) w) (Hpl : plain_columns (q_rel q) cs).
Context (E : BuildMatrix (set_q_rows q (row_vector [0; hi])) w = Ok (w1, m)) (Hdims : mat_dims cs [0; hi] m).
Context (Hcells : forall r k, (r < 1)%nat -> (k < length cs)%nat ->
  plan_cell (set_q_rows q (row_vector [0; hi])) cs [0; hi] wd wp w w1 m r k (cell m r k)).
Context (Hroom : forall k, (k < length cs)%nat -> to_write_room w1 (hi - 1) (cell m 0 k)).
Abbreviation ncols := (NoDBRelationGetNumberColumns (q_rel q)).

Lemma first_query_ok : query_ok q2 cs [0; hi] wd wp.
Proof. apply (query_base_ok q cs wd wp fb rb); [done|]. split_and!; [repeat constructor; lia|repeat constructor; lia|cbn; lia]. Qed.

Lemma first_row_fill l dl pl lb db pb : bits_for cs l lb -> bits_for cs dl db -> bits_for cs pl pb ->
  length lb = length cs -> length db = length cs -> length pb = length cs ->
  (forall x, x ∈ dl -> x ∈ wdl) -> (forall x, x ∈ pl -> x ∈ wpl) ->
  exists rep, FillRow m 0 (q_rel q2) (q_cols q2) (bitmap_of lb) (bitmap_of db) (bitmap_of pb) = Ok rep /\
    mapDataHit rep = [] /\ mapReadFromPM rep = [] /\ mapDataAddByRef rep = [] /\ readViaPM rep = NULL /\ nreadViaPM rep = 0 /\
    first_lists (q_relp q) hi w1 l dl pl (collectFromFile rep) (convert rep) (mapDataAddByValue rep) (mapPositionsAdd rep).
Proof.
  intros. apply (first_fill q2 cs wdl wpl wd wp hi w w1 m); try done; [apply first_query_ok|apply Hb].
Qed.

Lemma first_caches : new_caches (q_relp q) ncols (hi - 1) w1.
Proof. apply (first_new q2 cs wd wp hi Hhi w w1 m first_query_ok); done. Qed.

Lemma strategy_first_plain : filter = [] -> exists st lf2 conv2 vm pw,
  strategy_rows q2 m false 0 = Ok st /\ first_plan (q_relp q) ncols hi w1 filter read wdl wpl st [] [] lf2 conv2 vm pw.
Proof.
  intros Hf. unfold strategy_rows. change (NoDBRowVectorGet (q_rows q2) 0) with (Ok 0). change (NoDBRowVectorGet (q_rows q2) (0 + 1)) with (Ok hi).
  cbn [mbind result_bind]. unfold u64. rewrite Z.sub_0_r, (wrap_small 64 hi) by lia.
  unfold strategy_without_filter. change (q_readRestBitmap q2) with (q_readRestBitmap q).
  rewrite (qb_rb _ _ _ _ _ _ Hb), (qo_wd _ _ _ _ _ first_query_ok), (qo_wp _ _ _ _ _ first_query_ok).
  destruct (first_row_fill read wdl wpl rb wd wp) as (rep & -> & M1 & M2 & M3 & V1 & V2 & Hl); try apply Hb; try done.
  cbn [mbind result_bind]. eexists _, _, _, _, _. split; [done|]. split; cbn; try done; try apply first_caches.
  - split; cbn; [by rewrite M1|by rewrite M2|by rewrite V1, V2|done|done].
  - split; cbn; [done|by rewrite M3|done].
Qed.

Lemma read_rest_bits (conv : list Z) b : (forall k, (k < length cs)%nat ->
    bit_at b k = bit_at rb k && negb (bit_at fb k) && negb (bool_decide (col_at cs k ∈ conv))) ->
  exists l, bits_for cs l b /\ forall x, x ∈ l <-> x ∈ read /\ x ∉ filter /\ x ∉ conv.
Proof.
  intros H. exists (base.filter (fun x => x ∉ filter /\ x ∉ conv) read).
  assert (Hin : forall x, x ∈ base.filter (fun x => x ∉ filter /\ x ∉ conv) read <-> x ∈ read /\ x ∉ filter /\ x ∉ conv)
    by (intros x; rewrite list_elem_of_filter; tauto).
  split; [|done]. split; [intros x Hx; apply Br, Hin, Hx|].
  intros k Hk. rewrite H by done. rewrite (proj2 Br k Hk), (proj2 Bf k Hk).
  rewrite <- !bool_decide_not, <- !bool_decide_and. apply bool_decide_ext. rewrite Hin. tauto.
Qed.

Lemma strategy_first_filter : filter <> [] -> exists st lf1 conv1 lf2 conv2 vm pw,
  strategy_rows q2 m true 0 = Ok st /\ first_plan (q_relp q) ncols hi w1 filter read wdl wpl st lf1 conv1 lf2 conv2 vm pw.
Proof.
  intros Hf. unfold strategy_rows. change (NoDBRowVectorGet (q_rows q2) 0) with (Ok 0). change (NoDBRowVectorGet (q_rows q2) (0 + 1)) with (Ok hi).
  cbn [mbind result_bind]. unfold u64. rewrite Z.sub_0_r, (wrap_small 64 hi) by lia.
  unfold strategy_with_filter. change (q_readFilterBitmap q2) with (q_readFilterBitmap q).
  rewrite (qb_fb _ _ _ _ _ _ Hb), (qo_wd _ _ _ _ _ first_query_ok), (qo_wp _ _ _ _ _ first_query_ok).
  destruct (first_row_fill filter wdl wpl fb wd wp) as (rep & -> & M1 & M2 & M3 & V1 & V2 & Hl); try apply Hb; try done.
  cbn [mbind result_bind].
  destruct (read_rest_spec q2 cs [0; hi] wd wp first_query_ok fb rb (qb_fb _ _ _ _ _ _ Hb) (qb_rb _ _ _ _ _ _ Hb) (qb_fblen _ _ _ _ _ _ Hb) (qb_rblen _ _ _ _ _ _ Hb) (convert rep))
    as (b & -> & Hbl & Hbits). cbn [mbind result_bind].
  assert (NoDBColVectorSize (q_cols q2) = Z.of_nat (length cs)) as -> by (rewrite (qo_cols _ _ _ _ _ first_query_ok); done).
  rewrite bitmap_clear_spec. cbn [mbind result_bind].
  destruct (read_rest_bits (convert rep) b Hbits) as (read2 & Bl & Hread2).
  destruct (first_row_fill read2 [] [] b (replicate (length cs) false) (replicate (length cs) false))
    as (rep2 & -> & M1' & M2' & M3' & V1' & V2' & Hl'); try done; try apply none_bits; try apply length_replicate;
    try (by intros x ?%elem_of_nil).
  cbn [mbind result_bind]. eexists _, _, _, _, _, _, _. split; [done|].
  assert (mapDataAddByValue rep2 = [] /\ mapPositionsAdd rep2 = []) as [Ev2 Ep2].
  { destruct Hl' as [_ _ _ _ Lv Lp _ _ [N1 N2]]. split; apply no_empty_nil; try done.
    - by intros p x [[_ ?%elem_of_nil] _]%Lv.
    - by intros p x [?%elem_of_nil _]%Lp. }
  rewrite Ev2, Ep2 in Hl'. split; cbn; try done; try apply first_caches.
  - split; cbn; [by rewrite M1|by rewrite M2|by rewrite V1, V2|done|done].
  - split; cbn; [by rewrite M1'|by rewrite M2'|by rewrite V1', V2'|done|done].
  - split; cbn; [done|by rewrite M3|done].
  - intros _. split; [done|]. by exists read2.
Qed.
End first_strategy.

(** One strategy for the rows before [hi]. *)
Lemma BuildStrategy_first q cs filter read wdl wpl wd wp fb rb hi w it :
  query_base q cs wd wp fb rb -> it_queryInfo it = set_q_rows q (row_vector [0; hi]) -> 0 < hi < 2 ^ 48 ->
  bits_for cs filter fb -> bits_for cs read rb -> bits_for cs wdl wd -> bits_for cs wpl wp ->
  caches_ok (q_relp q) (q_rel q) w -> no_caches (q_relp q) w -> plain_columns (q_rel q) cs ->
  exists w1 it' st lf1 conv1 lf2 conv2 vm pw, BuildStrategy it w = Ok (w1, it') /\ it_strategy it' = [Some st] /\ it_cur it' = 0 /\
    first_plan (q_relp q) (NoDBRelationGetNumberColumns (q_rel q)) hi w1 filter read wdl wpl st lf1 conv1 lf2 conv2 vm pw.
Proof.
  intros Hb Eit Hhi Bf Br Bd Bp Hw Hno Hpl. unfold BuildStrategy. rewrite Eit.
  pose proof (first_query_ok q cs wd wp fb rb hi Hb Hhi) as Hq. set (q2 := set_q_rows q (row_vector [0; hi])) in *.
  assert (Hpw : plan_world q2 w) by by apply caches_ok_plan.
  destruct (BuildMatrix_spec q2 cs [0; hi] wd wp Hq w Hpw) as (w1 & m & Em & _ & _ & Hdims & Hcells & Hroom).
  { intros p c _ Ec Hr. by destruct (Hno p c Ec). }
  rewrite Em. cbn [mbind result_bind fst snd].
  assert (Hc1 : forall r k, (r < 1)%nat -> (k < length cs)%nat -> plan_cell q2 cs [0; hi] wd wp w w1 m r k (cell m r k))
    by (intros r k Hr Hk; apply Hcells; [cbn; lia|done]).
  change (q_readFilterBitmap q2) with (q_readFilterBitmap q). rewrite (qb_fb _ _ _ _ _ _ Hb), all_clear_spec. cbn [mbind result_bind].
  change (NoDBRowVectorSize (q_rows q2) - 1) with 1. unfold for_range. change (Z.to_nat (1 - 0)) with 1%nat. cbn [for_n].
  change (arr_alloc 1) with ([None] : arr NoDBScanStrategy_t).
  assert (exists st lf1 conv1 lf2 conv2 vm pw, strategy_rows q2 m (negb (bool_decide (true ∉ fb))) 0 = Ok st /\
    first_plan (q_relp q) (NoDBRelationGetNumberColumns (q_rel q)) hi w1 filter read wdl wpl st lf1 conv1 lf2 conv2 vm pw)
    as (st & lf1 & conv1 & lf2 & conv2 & vm & pw & -> & Hp).
  { pose proof (has_filter_bit cs filter fb Bf (qb_fblen _ _ _ _ _ _ Hb)) as Hf. case_bool_decide as Hc; cbn [negb].
    - destruct (strategy_first_plain q cs filter read wdl wpl wd wp fb rb hi Hb Hhi Br Bd Bp w w1 m)
        as (st & lf2 & conv2 & vm & pw & Hst); try done; [by apply Hf|]. by exists st, [], [], lf2, conv2, vm, pw.
    - destruct (strategy_first_filter q cs filter read wdl wpl wd wp fb rb hi Hb Hhi Bf Br Bd Bp w w1 m)
        as (st & lf1 & conv1 & lf2 & conv2 & vm & pw & Hst); try done; [by intros ?%Hf|]. by exists st, lf1, conv1, lf2, conv2, vm, pw. }
  cbn [mbind result_bind]. rewrite arr_set_Ok by (cbn; lia). cbn [mbind result_bind].
  by eexists w1, _, st, lf1, conv1, lf2, conv2, vm, pw.
Qed.

Lemma first_strategy_plan w x limit filter read wd wp :
  caches_ok (xi_relp x) (xi_rel x) w -> no_caches (xi_relp x) w -> request_ok (xi_rel x) (filter ++ read ++ wd ++ wp) ->
  plain_columns (xi_rel x) (filter ++ read ++ wd ++ wp) ->
  exists w1 it st lf1 conv1 lf2 conv2 vm pw,
    first_strategy w x limit (col_vector filter) (col_vector read) (col_vector wd) (col_vector wp) = Ok (w1, it, st) /\
    first_plan (xi_relp x) (NoDBRelationGetNumberColumns (xi_rel x)) NODB_CACHE_DEFAULT_ROWS w1 filter read wd wp st lf1 conv1 lf2 conv2 vm pw.
Proof.
  intros Hw Hno Hreq Hpl. unfold first_strategy.
  destruct (iterator_query (xi_relp x) (xi_rel x) limit filter read wd wp w Hreq)
    as (q & cs & wdb & wpb & fb & rb & Hb & Er & El & Bf & Br & Bd & Bp & Hin & ->).
  rewrite no_rows_no_caches by (done || by eapply caches_ok_world). cbn [mbind result_bind length].
  change (Z.of_nat 0 =? 0) with true. cbn [mbind result_bind fst snd].
  unfold NoDBScanStrategyIteratorGet. cbn [it_cur it_len fst snd Z.eqb mbind result_bind].
  change (u64 (0 + NODB_CACHE_DEFAULT_ROWS)) with NODB_CACHE_DEFAULT_ROWS.
  rewrite first_row. cbn [mbind result_bind]. rewrite second_row. cbn [mbind result_bind it_queryInfo].
  rewrite <- Er, <- El in *.
  match goal with |- context [BuildStrategy ?i w] => set (it0 := i) end.
  destruct (BuildStrategy_first q cs filter read wd wp wdb wpb fb rb NODB_CACHE_DEFAULT_ROWS w it0)
    as (w1 & it' & st & lf1 & conv1 & lf2 & conv2 & vm & pw & -> & Es & Ec & Hp); try done.
  - intros y Hy. by apply Hpl, Hin.
  - cbn [mbind result_bind fst snd]. rewrite Es, Ec. cbn. by eexists w1, it', st, lf1, conv1, lf2, conv2, vm, pw.
Qed.

(** ** The new caches have room *)
Lemma new_holds {V} (cd : codec V) type relp ncols hi w (R : Z -> Z -> Z -> Prop) (val : Z -> Z -> V) :
  0 < hi < 2 ^ 48 -> new_caches relp ncols (hi - 1) w -> Z.of_nat (width cd) = cell_width type -> (0 < width cd)%nat ->
  (forall p x row, R p x row -> writable relp w type hi p x /\ 0 <= x /\ 0 <= row < hi) ->
  holds cd type w (fun _ _ _ => False) R val.
Proof.
  intros Hhi Hnew Hwidth Hpos HR p (x0 & row0 & [[]|H0]). destruct (HR p x0 row0 H0) as ((c & Ec & Ht & _ & Hroom) & _).
  unfold of_rel_type in Ht. apply andb_prop in Ht as [Hrel Hty]. apply Z.eqb_eq in Hrel. apply bool_decide_eq_true in Hty.
  unfold NoDBCacheGetRelation, NoDBCacheGetType in *.
  destruct (Hnew p c Ec Hrel) as [(lay & Hwf & Hlay) N1 N2 N3 N4 N5 N6].
  destruct Hroom as (c' & n & b & Ec' & En & Eb & Hr). assert (c' = c) as -> by congruence.
  destruct N6 as [?|(n' & b' & En' & Eb' & Hn & Hlen)]; [congruence|].
  assert (n' = n) as -> by congruence. assert (b' = b) as -> by congruence.
  pose proof (lay_sum_nonneg lay (wf_pos _ _ Hwf)) as Hrs. rewrite (wf_sum _ _ Hwf) in Hrs.
  exists c, lay, n, ∅. split_and!; [done|done| |done|].
  - split; [done|]. exists b. split; [|intros ? ? ?; by rewrite lookup_empty]. unfold buf_ok. rewrite N1, N2, Z.mul_0_r.
    split_and!; [done|done|done|lia|nia|done].
  - intros x row (Hwr & Hx & Hrow)%HR. destruct Hwr as (c2 & Ec2 & _ & Hh & _). assert (c2 = c) as -> by congruence.
    apply (has_col_HasColumn _ _ _ _ Ec) in Hh. rewrite (NoDBCacheHasColumn_spec _ _ _ Hwf Hx) in Hh. injection Hh as Hh.
    apply bool_decide_eq_true, elem_of_lay_cols in Hh as [s Hs]. pose proof (Hlay x s Hs) as Hsize.
    apply list_elem_of_split in Hs as (l1 & l2 & El). exists (lay_sum l1). split; [unfold in_rows; lia|].
    exists s. split_and!; [by exists l1, l2|done|]. rewrite Hwidth, <- Hty. done.
Qed.
