(* ===== verification/FirstQuery.v ===== *)
(** * The first query on a relation

    The parts put together: a relation without caches is scanned for the first
    time. Setting up the scan and calling [ExecScan] until it returns no tuple gives
    the values of the file, line by line, and of the lines that pass when there is a
    filter. [raw_table] says what the file is like. *)
From S2P Require Import Prelude LinkedList Vectors Bitmap Relation Cache CacheData EOLCache FieldParser PositionalMap LineReader TupleReader CacheSelect StrategyMatrix MatrixSound ScanStrategy StrategySound IteratorSound ExecInfo DArray QueryDescriptor Executor ExecutorSound PlanSound NewCaches ScanOperator ScanOperatorSound FirstStrategy.

Implicit Types (w : world) (cm : cache_map).

(** ** The set-up *)

(** The raw file: [lines] without a header, with the fields [rows], which convert
    to the values [D], and then [tail], in which no line ends. *)
Record raw_table (k : copy_state) (lines : list (list Z)) (tail : list Z) (rows : Z -> list (list Z)) (D : Z -> Z -> NoDBDatum_t) : Prop := {
  rt_cols : nfields (k_env k) = Z.of_nat (length (k_names k));
  rt_some : k_names k <> [];
  rt_byval : k_byval k = replicate (length (k_names k)) true;
  rt_csv : csv_mode (e_line (k_env k)) = true;
  rt_header : header_line (e_line (k_env k)) = false;
  rt_opts : LineReader.opts_ok (e_line (k_env k));
  rt_quote : quote (e_line (k_env k)) <> ch_nl;
  rt_buf : (4 < e_bufsize (k_env k))%nat;
  rt_lines : good_lines (e_line (k_env k)) lines;
  rt_few : Z.of_nat (length lines) < NODB_CACHE_DEFAULT_ROWS;
  rt_raw : raw_buf (k_reader k) = [] /\ raw_buf_index (k_reader k) = 0%nat /\ eol_type (k_reader k) = EOL_UNKNOWN;
  rt_file : contents (copy_file (k_reader k)) = file_bytes lines ++ tail /\ good_tail (e_line (k_env k)) tail /\ pos (copy_file (k_reader k)) = 0%nat;
  rt_fields : forall row, 0 <= row < Z.of_nat (length lines) ->
    server_lines (k_env k) lines !! Z.to_nat row = Some (join (delimc (e_copy (k_env k))) (rows row)) /\
    line_ok (e_copy (k_env k)) (rows row) /\ ncols_of (rows row) = nfields (k_env k) /\
    forall x, 0 <= x < nfields (k_env k) -> exists v, input_function (k_env k) x (field_of (rows row) x) = Ok v /\ D row x = (v, 0);
  rt_word : forall row x, 0 <= (D row x).1 < 2 ^ 64 }.

(** The relation was never scanned. *)
Record first_use p w (relation : string) (xs : list NoDBExecInfo_t) (m : gmap string Z) : Prop := {
  fu_eol : m !! relation = None;
  fu_caches : forall relp, relp = p_next p \/ (exists x, x ∈ xs /\ rel_name (xi_rel x) = relation /\ xi_relp x = relp) ->
    no_caches relp w }.

Lemma plain_of_info x n lk lp bs bp cols : info_ok x (replicate n true) lk lp bs bp -> cols_of n cols -> plain_columns (xi_rel x) cols.
Proof.
  intros Hx Hc y Hy. unfold cols_of in Hc. pose proof (proj1 (Forall_forall _ _) Hc y Hy) as Hr. cbn in Hr.
  split; [eapply rel_rep_size; [apply Hx|]; by rewrite length_replicate|].
  destruct (io_rel _ _ _ _ _ _ Hx) as (_ & Ha & _). unfold NoDBRelationIsColumnByValue.
  assert (arr_get (rel_attrs (xi_rel x)) y = Ok (attr_of (sizeof_NoDBDatum, true))) as ->; [|done].
  apply arr_get_lookup. split; [lia|]. rewrite Ha. apply lookup_app_l_Some.
  rewrite !list_lookup_fmap, lookup_replicate_2 by lia. done.
Qed.

Lemma last_field_sorted qs n : StronglySorted Z.lt qs -> cols_of n qs -> (0 < n)%nat ->
  exists c, last_field (col_vector qs) = Ok c /\ 0 <= c < Z.of_nat n /\ forall x, x ∈ qs -> x <= c.
Proof.
  intros Hs Hc Hn. unfold last_field, NoDBColVectorSize, NoDBColVectorGet. cbn [cv_size cv_cols col_vector].
  destruct (Z.ltb_spec 0 (Z.of_nat (length qs))) as [H0|H0].
  - destruct (col_read qs (Z.of_nat (length qs) - 1)) as (c & Hl & ->); [lia|]. exists c. split_and!; [done|..].
    1,2: apply (proj1 (Forall_forall _ _) Hc c); by eapply list_elem_of_lookup_2.
    intros x. apply sorted_last; [done|]. rewrite last_lookup. by replace (pred (length qs)) with (Z.to_nat (Z.of_nat (length qs) - 1)) by lia.
  - destruct qs; [|simpl in H0; lia]. exists 0. split_and!; [done|lia|lia|]. by intros x ?%elem_of_nil.
Qed.

(** The state before the first row, with the strategy [st]. *)
Record first_scan (k : copy_state) so (qual : bool) (qs fs wd wp : list Z) w (st : NoDBScanStrategy_t) (c : NoDBCache_t) : Prop := {
  fc_env : exists last, so_env so = scan_env (k_env k) qual (col_vector fs) last /\ 0 <= last < Z.of_nat (length (k_names k)) /\
    forall x, x ∈ qs -> x <= last;
  fc_state : cs_scan (so_state so) = {| rd := set_cache (k_reader k) c; processed := 0; tupleRead := 0; tupleStored := 0;
                                        line_buf_converted := false |};
  fc_eol : nrows st = NODB_CACHE_DEFAULT_ROWS ->
    cache_rep short_codec c [(Some 0, 2)] NODB_CACHE_DEFAULT_ROWS ∅ /\ c_startRow c = 0;
  fc_used : c_usedRows c = 0;
  fc_arrays : nfields (k_env k) = Z.of_nat (length (k_names k)) -> arrays_ok (so_env so) (so_state so);
  fc_world : cs_world (so_state so) = w;
  fc_cur : curStrategy (cs_plan (so_state so)) = st;
  fc_read : readFile (cs_plan (so_state so)) = ReadFromFile;
  fc_left : nMin (cs_plan (so_state so)) = nrows st;
  fc_exec : execNoDBPlan (so_state so) = NoDBGetExecPlan (so_env so) st;
  fc_written : so_readAll so = col_vector qs /\ so_writeData so = col_vector wd;
  fc_cols : cols_of (length (k_names k)) qs /\ (forall x, x ∈ fs ++ wd ++ wp -> x ∈ qs);
  fc_nodup : NoDup qs }.

(** The columns of the query, and those of its filter. *)
Definition query_of p (k : copy_state) (relation : string) (qual : bool) (qs fs : list Z) : Prop :=
  (forall x, x ∈ qs <-> 0 <= x /\ exists d, d ∈ reported (p_desc p) /\ concerns (aliases (p_desc p)) relation d /\
    covers (k_names k) d (Z.to_nat x)) /\
  if qual then getQueryFilterAttributes (p_desc p) (k_names k) relation = Ok (col_vector fs) else fs = [].

Lemma query_columns_filter d names relation qual all fs rest : query_columns d names relation qual = Ok (all, col_vector fs, rest) ->
  if qual then getQueryFilterAttributes d names relation = Ok (col_vector fs) else fs = [].
Proof.
  unfold query_columns. intros E. apply bind_Ok in E as (a & _ & E). destruct qual.
  - apply bind_Ok in E as (f & Ef & E). apply bind_Ok in E as (r & _ & [= _ <- _]). done.
  - apply bind_Ok in E as (r & _ & [= _ E' _ _]). destruct fs; [done|simpl in E'; lia].
Qed.

(** The entry of the relation and the cache of line lengths, after the set-up. *)
Definition registered p (k : copy_state) so (c : NoDBCache_t) : Prop :=
  (exists x lk lp bs bp, get_info (p_exec p) (so_info so) = Ok x /\ info_ok x (k_byval k) lk lp bs bp) /\
  ec_caches (p_eol p) !! so_eolp so = Some c.

Lemma Init_first st_size p w k relation qual xs m : process_ok p w relation (k_byval k) xs m -> copy_ok k relation ->
  filter_columns qual (p_desc p) -> first_use p w relation xs m -> k_names k <> [] ->
  k_byval k = replicate (length (k_names k)) true ->
  exists p' so qs fs wd wp relp ncols w1 st lf1 conv1 lf2 conv2 vm pw c,
    NoDBScanStateInit st_size p w k relation qual = Ok (p', so) /\ query_of p k relation qual qs fs /\
    first_scan k so qual qs fs wd wp w1 st c /\
    first_plan relp ncols NODB_CACHE_DEFAULT_ROWS w1 fs (filter (fun x => x ∉ fs) qs) wd wp st lf1 conv1 lf2 conv2 vm pw /\
    registered p' k so c /\ p_desc p' = p_desc p /\
    ((forall x, x ∈ xs -> rel_name (xi_rel x) <> relation) -> wd = qs).
Proof.
  intros [Hd Hreg Hinfo Hcaches Heol] [Hn Hb Hna Hr Hl Hfile] Hqual [Hu1 Hu2] Hne Hby. unfold NoDBScanStateInit.
  set (natts := Z.of_nat (length (k_names k))).
  assert (Hpos : (0 < length (k_names k))%nat) by (destruct (k_names k); [done|simpl; lia]).
  destruct (new_attributes_ok natts) as (att & Eatt); [lia|]. rewrite Eatt. cbn [mbind result_bind].
  destruct (query_columns_spec _ _ _ qual Hd Hn Hr Hqual) as (qs & fs & Eq & Hsq & _ & Hsub & Hcols & Hin).
  pose proof (query_columns_filter _ _ _ _ _ _ _ Eq) as Hfs. rewrite Eq. cbn [mbind result_bind].
  rewrite !arr_fill_all by (apply length_arr_alloc; lia). cbn [mbind result_bind].
  destruct (relation_info_spec st_size p xs relation (k_byval k) (k_filename k) Hreg Hinfo Hfile)
    as (p1 & ptr & x & lk & lp & bs & bp & -> & Hget & Hx & Ed & Ee & Hrelp). cbn [mbind result_bind].
  destruct (last_field_sorted qs _ Hsq Hcols Hpos) as (last & -> & Hlast1 & Hlast2). cbn [mbind result_bind]. rewrite Hget. cbn [mbind result_bind].
  pose proof Hcols as Hcols'. rewrite <- Hb in Hcols'. pose proof (sorted_lt_NoDup qs Hsq) as Hnd.
  destruct (cache_policy_spec _ _ _ _ _ _ qs Hx Hnd Hcols') as (y & -> & Hy & Ey1 & Ey2 & _). cbn [mbind result_bind fst snd].
  destruct (pm_policy_spec _ _ _ _ _ _ qs Hy Hnd Hcols') as (z & -> & Hz & Ez1 & Ez2 & _). cbn [mbind result_bind fst snd].
  set (wd := filter (is_free lk) qs) in *. set (wp := filter (is_free lp) qs) in *.
  destruct (put_info_spec _ _ _ z Hget) as (e1 & -> & Hget1). cbn [mbind result_bind].
  assert (Hwr : forall c, c ∈ fs ++ wd ++ wp -> c ∈ qs).
  { intros c [?|[[_ ?]%list_elem_of_filter|[_ ?]%list_elem_of_filter]%elem_of_app]%elem_of_app; auto. }
  assert (Hreq : cols_of (length (k_names k)) (fs ++ filter (fun x => x ∉ fs) qs ++ wd ++ wp)).
  { apply request_columns; [done|done|..]; intros c Hc; apply Hwr; rewrite !elem_of_app; auto. }
  assert (Hrel : xi_relp z = p_next p \/ exists x0, x0 ∈ xs /\ rel_name (xi_rel x0) = relation /\ xi_relp x0 = xi_relp z).
  { rewrite Ez1, Ey1. destruct Hrelp as [[Hi He]|[He _]]; [right; by exists x|by left]. }
  destruct (first_strategy_plan w z (getQueryLimit (p_desc p1)) fs (filter (fun x => x ∉ fs) qs) wd wp)
    as (w1 & it & st & lf1 & conv1 & lf2 & conv2 & vm & pw & E & Hplan).
  { apply Hcaches; [|done]. by eapply info_columns. } { by apply Hu2. } { eapply info_request; [exact Hz|lia|by rewrite Hb]. }
  { rewrite Hby in Hz. by eapply plain_of_info. }
  rewrite E. cbn [mbind result_bind]. rewrite Ee.
  destruct (eol_of_spec (p_eol p) m relation (nrows st) Heol Hr Hl) as (eol & ep & c & -> & Hep & Hc). cbn [mbind result_bind].
  pose proof (proj2 (fp_rows _ _ _ _ _ _ _ _ _ _ _ _ _ _ _ Hplan)) as Hnr. rewrite Hu1, Hnr in Hc.
  destruct (new_eol_cache_spec (ec_next (p_eol p)) relation NODB_CACHE_DEFAULT_ROWS ltac:(by vm_compute) ltac:(by vm_compute)) as (c' & Ec' & Hrep & Hs & Hus).
  assert (c' = c) as -> by congruence.
  eexists _, _, qs, fs, wd, wp, (xi_relp z), (NoDBRelationGetNumberColumns (xi_rel z)), w1, st, lf1, conv1, lf2, conv2, vm, pw, c.
  split; [done|]. split; [done|]. split; [|split; [done|split; [|split; [done|]]]]; [split; cbn; try done|..].
  - exists last. split_and!; (done || lia).
  - intros En. unfold new_attributes in Eatt. rewrite arr_set_Ok in Eatt by (rewrite length_arr_alloc; lia). injection Eatt as <-.
    split; cbn; rewrite ?length_fmap, ?length_replicate, ?length_insert, ?length_arr_alloc by lia. all: try (lia || done).
    rewrite list_lookup_insert_eq; [done|]. pose proof (@length_arr_alloc Z (natts + 1) ltac:(lia)). lia.
  - unfold NoDBCacheGetUsedRows. by rewrite Hus.
  - unfold NoDBCacheGetUsedRows. rewrite Hus. unfold min_rows. by rewrite andb_false_r.
  - split; [|done]. by eexists _, _, _, _, _.
  - intros Hnew. destruct Hrelp as [[Hi He]|[_ ->]]; [by destruct (Hnew x Hi)|]. unfold wd. apply list_filter_all. intros i Hi.
    unfold is_free. apply lookup_replicate_2. pose proof (proj1 (Forall_forall _ _) Hcols' i Hi) as Hr'. cbn in Hr'. lia.
Qed.

(** ** Executing the first query *)

(** The cells that the query writes. *)
Definition cells cm (p x row : Z) : Prop := in_map cm p x /\ 0 <= row < NODB_CACHE_DEFAULT_ROWS.

(** [ExecScan] without a filter or a projection returns the tuples of the plan. *)
Lemma exec_query_plain env rf lines at_ (Hsrc : LineSource (reader_of env rf) lines at_) rows D st hm pmm vias lf conv vm pw H R HP RP :
  (forall row x, 0 <= (D row x).1 < 2 ^ 64) -> post_lists st hm pmm vias lf conv -> write_lists st vm pw ->
  (forall x, x ∈ conv -> x <= lastfield env) -> has_qual env = false ->
  forall (n : nat) lo k left s, run_at env rf at_ rows D st vm pw H R HP RP lo k left s -> execNoDBPlan s = ExecPlan ->
  k + Z.of_nat n = Z.of_nat (length lines) -> Z.of_nat n < left ->
  (forall row, k <= row < Z.of_nat (length lines) -> ready_at env lines rows D hm pmm vias lf conv vm pw H R HP RP row) ->
  exec_query env (S n) (plain_node s) = (x ← exec_scan (NoDBExecPlan env) (S n) s; Ok (x.1, plain_node x.2)).
Proof.
  intros Hd Hpl Hwl Hla Hq. induction n as [|n IH]; intros lo k left s Hs Hx Hk Hn Hr; [|remember (S n) as f eqn:Ef];
    cbn [exec_query exec_scan]; unfold ExecScan; cbn [ps_ProjInfo plain_node sn_cstate ps_TupFromTlist]; rewrite Hq; unfold run_plan; rewrite Hx.
  - assert (k = Z.of_nat (length lines)) as -> by lia.
    destruct (exec_end env rf lines at_ (Hsrc := Hsrc) rows D st vm pw H R HP RP lo left s Hs) as (s' & -> & _). done.
  - destruct (exec_step env rf lines at_ (Hsrc := Hsrc) rows D st hm pmm vias lf conv vm pw H R HP RP Hd Hpl Hwl Hla lo k left s Hs)
      as (s1 & t & -> & (v & -> & _) & Hs1 & Ex & _); [apply Hr; lia|lia|].
    cbn [mbind result_bind fst snd]. change {| sn_cstate := s1; ps_TupFromTlist := false; ps_ProjInfo := None |} with (plain_node s1).
    rewrite (IH lo (k + 1) (left - 1) s1 Hs1); [|congruence|lia|lia|intros; apply Hr; lia].
    by destruct (exec_scan _ f s1).
Qed.

(** Column [x] of the rows before [n] is in a cache of the data, with the values [D]. *)
Definition column_cached w (D : Z -> Z -> NoDBDatum_t) (n x : Z) : Prop :=
  exists p, holds nodbdatum_codec NODB_DATA_CACHE w (fun p0 y row => p0 = p /\ y = x /\ 0 <= row < n) (fun _ _ _ => False) D.

Lemma holds_column w H R (D : Z -> Z -> NoDBDatum_t) n p x : 0 < n -> holds nodbdatum_codec NODB_DATA_CACHE w H R D ->
  (forall row, 0 <= row < n -> H p x row) -> column_cached w D n x.
Proof.
  intros Hn Hh Hx. exists p. intros p0 (y & row & [(-> & -> & Hr)|[]]).
  destruct (Hh p) as (c & lay & n0 & m & E1 & E2 & E3 & E4 & _); [exists x, row; left; by apply Hx|].
  exists c, lay, n0, m. split_and!; [done..| |by intros]. intros y row' (_ & -> & Hr'). by apply E4, Hx.
Qed.

Section first_query.
Context (k : copy_state) (lines : list (list Z)) (tail : list Z) (rows : Z -> list (list Z)) (D : Z -> Z -> NoDBDatum_t).
Context (so : scan_oper) (qual : bool) (qs fs wd wp : list Z) (w : world) (st : NoDBScanStrategy_t) (c : NoDBCache_t).
Context (relp ncols : Z) (lf1 conv1 lf2 conv2 : list Z) (vm pw : cache_map).
Context (Ht : raw_table k lines tail rows D) (Hs : first_scan k so qual qs fs wd wp w st c).
Context (Hp : first_plan relp ncols NODB_CACHE_DEFAULT_ROWS w fs (filter (fun x => x ∉ fs) qs) wd wp st lf1 conv1 lf2 conv2 vm pw).
Abbreviation env := (so_env so).
Abbreviation rows_at := NODB_CACHE_DEFAULT_ROWS.
Abbreviation none := (fun _ _ _ : Z => False).
Abbreviation at_ := (first_at (e_bufsize (so_env so)) (e_line (so_env so)) lines tail [(Some 0, 2)] rows_at).

Lemma first_rows : nrows st = rows_at.
Proof. apply Hp. Qed.

Lemma first_env : e_copy env = e_copy (k_env k) /\ e_line env = e_line (k_env k) /\ e_conv env = e_conv (k_env k) /\
  e_bufsize env = e_bufsize (k_env k) /\ nfields env = nfields (k_env k) /\ input_function env = input_function (k_env k) /\
  has_qual env = qual /\ readFilterAtts env = col_vector fs /\ ExecQual env = ExecQual (k_env k).
Proof. destruct (fc_env _ _ _ _ _ _ _ _ _ _ Hs) as (last & -> & _). done. Qed.

Lemma first_lines : at_ (cs_scan (so_state so)) 0.
Proof.
  destruct first_env as (_ & El & _ & Eb & _). rewrite El, Eb, (fc_state _ _ _ _ _ _ _ _ _ _ Hs).
  destruct (fc_eol _ _ _ _ _ _ _ _ _ _ Hs first_rows) as (Hrep & Hst). pose proof (fc_used _ _ _ _ _ _ _ _ _ _ Hs) as Hu.
  destruct (rt_raw _ _ _ _ _ Ht) as (R1 & R2 & R3). destruct (rt_file _ _ _ _ _ Ht) as (F1 & _ & F2). constructor; cbn; try done.
  - constructor; cbn; [|by left]. constructor; cbn; [rewrite R1, R2; simpl; lia|].
    unfold settled. rewrite (rt_header _ _ _ _ _ Ht). done.
  - unfold reader_rest, file_rest. cbn. by rewrite R1, R2, F1, F2.
  - intros i Hi. exists 0. pose proof (rt_few _ _ _ _ _ Ht). split; [unfold in_rows, st_cache; cbn; rewrite Hst; lia|].
    exists 2. split_and!; [by exists [], []|cbn; lia|cbn; lia].
  - exists ∅. split; [exact Hrep|done].
Qed.

Lemma first_source : LineSource (reader_of env ReadFromFile) (server_lines env lines) at_.
Proof.
  destruct first_env as (_ & El & _ & Eb & _). apply file_source; rewrite ?El, ?Eb; try apply Ht. intros _. apply Ht.
Qed.

Lemma in_query x : x ∈ qs -> 0 <= x < nfields env /\ x <= lastfield env.
Proof.
  intros Hx. destruct (fc_cols _ _ _ _ _ _ _ _ _ _ Hs) as [Hc Hsub]. destruct (fc_env _ _ _ _ _ _ _ _ _ _ Hs) as (last & -> & _ & H2).
  cbn. rewrite (rt_cols _ _ _ _ _ Ht). split; [by apply (proj1 (Forall_forall _ _) Hc x)|by apply H2].
Qed.

Lemma first_row_ok row : 0 <= row < Z.of_nat (length lines) ->
  server_lines env lines !! Z.to_nat row = Some (join (delimc (e_copy env)) (rows row)) /\ row_ok env (rows row) (D row) /\
  ncols_of (rows row) = nfields env.
Proof.
  intros Hrow. destruct first_env as (Ecp & El & Ecv & _ & En & Ei & _).
  destruct (rt_fields _ _ _ _ _ Ht row Hrow) as (T1 & T2 & T3 & T4). split_and!.
  - unfold server_lines in *. by rewrite Ecv, Ecp.
  - split; [rewrite El; apply Ht|by rewrite Ecp|by rewrite En| |].
    + destruct (fc_env _ _ _ _ _ _ _ _ _ _ Hs) as (last & -> & H1 & _). cbn. by rewrite (rt_cols _ _ _ _ _ Ht).
    + intros x Hx _. rewrite Ei. apply T4. by rewrite <- En.
  - by rewrite En.
Qed.

(** Lists of columns of the query that nothing is cached of. *)
Lemma first_half read dl pl lf conv vm' pw' extra row :
  first_lists relp rows_at w read dl pl lf conv vm' pw' -> (forall x, x ∈ read ++ dl ++ pl -> x ∈ qs) ->
  (forall x, extra x -> exists p, in_map pw' p x) -> 0 <= row < Z.of_nat (length lines) ->
  half_ready env (rows row) row none none [] [] [] lf conv extra.
Proof.
  intros Hl Hin He Hrow. destruct (first_row_ok row Hrow) as (_ & _ & En).
  split; try (by intros p x ?%no_map); try (by intros ? ? ?%elem_of_nil); [by intros e ?%elem_of_nil|].
  intros x Hx. assert (Hx' : x ∈ conv \/ exists p, in_map pw' p x) by (destruct Hx; auto).
  assert (x ∈ qs) as [Hr Hlast]%in_query.
  { apply Hin. rewrite !elem_of_app. destruct Hx' as [Hc|[p Hc]].
    - apply (fl_conv _ _ _ _ _ _ _ _ _ _ Hl), elem_of_app in Hc as [?|?]; auto.
    - apply (fl_positions _ _ _ _ _ _ _ _ _ _ Hl) in Hc as [? _]. auto. }
  rewrite En. split_and!; [lia|lia|done|]. intros Hlf. apply (fl_file _ _ _ _ _ _ _ _ _ _ Hl) in Hx'. rewrite Hlf in Hx'.
  by apply elem_of_nil in Hx'.
Qed.

Lemma first_write read lf conv row : first_lists relp rows_at w read wd wp lf conv vm pw -> 0 <= row < Z.of_nat (length lines) ->
  write_ready row (cells vm) (cells pw) conv vm pw.
Proof.
  intros Hl Hrow. pose proof (rt_few _ _ _ _ _ Ht). split; try apply (fl_ne _ _ _ _ _ _ _ _ _ _ Hl).
  - intros p x Hx. split; [by eapply (fl_values _ _ _ _ _ _ _ _ _ _ Hl)|]. split; [done|lia].
  - intros p x Hx. split; [done|lia].
Qed.

Lemma first_run read lf conv : first_lists relp rows_at w read wd wp lf conv vm pw ->
  run_at env ReadFromFile at_ rows D st vm pw none (cells vm) none (cells pw) 0 0 rows_at (so_state so).
Proof.
  intros Hl. destruct (fc_cols _ _ _ _ _ _ _ _ _ _ Hs) as [_ Hsub].
  assert (Hpos : forall x, x ∈ wd ++ wp -> 0 <= x) by (intros x Hx; apply in_query, Hsub, elem_of_app; by right).
  split; rewrite ?(fc_world _ _ _ _ _ _ _ _ _ _ Hs); try apply Hs; [exact first_lines|lia|apply Ht| | |].
  - rewrite (fc_left _ _ _ _ _ _ _ _ _ _ Hs). apply first_rows.
  - apply holds_none, (new_holds nodbdatum_codec NODB_DATA_CACHE relp ncols rows_at); [by vm_compute|apply Hp|done|cbn; lia|].
    intros p x row [Hx Hr]. destruct (fl_values _ _ _ _ _ _ _ _ _ _ Hl p x Hx) as [[_ Hd] Hw].
    split_and!; [done|apply Hpos, elem_of_app; by left|apply Hr|apply Hr].
  - apply holds_none, (new_holds pmpair_codec NODB_POSITIONS_CACHE relp ncols rows_at); [by vm_compute|apply Hp|done|cbn; lia|].
    intros p x row [Hx Hr]. destruct (fl_positions _ _ _ _ _ _ _ _ _ _ Hl p x Hx) as [Hd Hw].
    split_and!; [done|apply Hpos, elem_of_app; by right|apply Hr|apply Hr].
Qed.

Lemma first_exec_plan : execNoDBPlan (so_state so) = if qual && (0 <? NoDBColVectorSize (col_vector fs)) then ExecPlanWithFilters else ExecPlan.
Proof.
  destruct first_env as (_ & _ & _ & _ & _ & _ & Eq & Ef & _).
  rewrite (fc_exec _ _ _ _ _ _ _ _ _ _ Hs). unfold NoDBGetExecPlan, NoDBReadFromCacheOnly. rewrite Eq, Ef.
  rewrite (pl_hit _ _ _ _ _ _ (fp_post _ _ _ _ _ _ _ _ _ _ _ _ _ _ _ Hp)), (pr_hit _ _ _ _ _ _ (fp_pre _ _ _ _ _ _ _ _ _ _ _ _ _ _ _ Hp)).
  cbn [SetColsPerCache fst]. change (0 <? Z.of_nat (length [])) with false. cbn [orb]. by rewrite andb_false_r.
Qed.

Lemma first_plain_exec : qual = false -> fs = [] -> lines <> [] ->
  exists ts s', exec_query env (S (length lines)) (plain_node (so_state so)) = Ok (ts, plain_node s') /\
    length ts = length lines /\ (forall i t, ts !! i = Some t -> forall x, x ∈ qs -> vright (D (Z.of_nat i)) t x) /\
    forall x, x ∈ wd -> column_cached (cs_world s') D (Z.of_nat (length lines)) x.
Proof.
  intros Hq Hf Hne. pose proof first_source as Hsrc. destruct first_env as (_ & _ & _ & _ & _ & _ & Eq & _).
  destruct (fp_plain _ _ _ _ _ _ _ _ _ _ _ _ _ _ _ Hp Hf) as (_ & _ & Hl). pose proof (first_run _ _ _ Hl) as Hrun.
  destruct (fc_cols _ _ _ _ _ _ _ _ _ _ Hs) as [_ Hsub]. rewrite Hf in Hsub, Hl. rewrite without_none in Hl.
  assert (Hin : forall x, x ∈ qs ++ wd ++ wp -> x ∈ qs) by (intros x [?|?]%elem_of_app; auto).
  assert (Hlen : length (server_lines env lines) = length lines) by apply length_fmap.
  assert (Hready : forall row, 0 <= row < Z.of_nat (length (server_lines env lines)) ->
    ready_at env (server_lines env lines) rows D [] [] [] lf2 conv2 vm pw none (cells vm) none (cells pw) row).
  { intros row Hr. rewrite Hlen in Hr. destruct (first_row_ok row Hr) as (R1 & R2 & _). split; [done|done| |].
    - by apply (first_half qs wd wp lf2 conv2 vm pw).
    - by apply (first_write qs lf2). }
  assert (Hlast : forall x, x ∈ conv2 -> x <= lastfield env).
  { intros x Hx%(fl_conv _ _ _ _ _ _ _ _ _ _ Hl). apply in_query, Hin. rewrite !elem_of_app in *. tauto. }
  pose proof (rt_few _ _ _ _ _ Ht) as Hfew. pose proof (rt_word _ _ _ _ _ Ht) as Hword.
  pose proof (fp_post _ _ _ _ _ _ _ _ _ _ _ _ _ _ _ Hp) as Hpost. pose proof (fp_write _ _ _ _ _ _ _ _ _ _ _ _ _ _ _ Hp) as Hwl.
  rewrite (exec_query_plain _ _ _ _ Hsrc rows D st [] [] [] lf2 conv2 vm pw none (cells vm) none (cells pw)
    Hword Hpost Hwl Hlast ltac:(congruence) _ 0 0 rows_at); [|done|by rewrite first_exec_plan, Hq|rewrite Hlen; lia|lia|done].
  destruct (exec_scan_spec env ReadFromFile _ _ (Hsrc := Hsrc) rows D st [] [] [] lf2 conv2 vm pw none (cells vm) none (cells pw)
    Hword Hpost Hwl Hlast (length lines) 0 0 rows_at (so_state so)) as (ts & s' & -> & Hn & Hts & Hd & _); [done|rewrite Hlen; lia|lia|done|].
  cbn [mbind result_bind fst snd]. exists ts, s'. split_and!; [done|done| |].
  - intros i t Hi x Hx. destruct (Hts i t Hi) as (v & [= <-] & Hv). apply Hv. right. by apply (fl_read _ _ _ _ _ _ _ _ _ _ Hl).
  - intros x Hx. destruct (fl_written _ _ _ _ _ _ _ _ _ _ Hl x Hx) as [p Hpx]. eapply (holds_column _ _ _ _ _ p); [|exact Hd|].
    + destruct lines; [done|simpl; lia].
    + intros row Hr. right. rewrite Hlen. by split.
Qed.

Lemma first_filter_exec (Q : Z -> bool) : qual = true -> fs <> [] ->
  (forall row mem v, (forall x, x ∈ fs -> vright (D row) v x) -> ExecQual (k_env k) mem v.1 v.2 = Ok (Q row)) ->
  exists ts node, exec_query env (S (length lines)) (plain_node (so_state so)) = Ok (ts, node) /\
    Forall2 (fun row t => forall x, x ∈ qs -> vright (D row) t x)
      (filter (fun row => Q row = true) (seqZ 0 (Z.of_nat (length lines)))) ts.
Proof.
  intros Hq Hf HQ. pose proof first_source as Hsrc. destruct first_env as (_ & _ & _ & _ & _ & _ & Eq & _ & Ex).
  destruct (fp_filter _ _ _ _ _ _ _ _ _ _ _ _ _ _ _ Hp Hf) as (Hl1 & read2 & Hl2 & Hread2). pose proof (first_run _ _ _ Hl1) as Hrun.
  destruct (fc_cols _ _ _ _ _ _ _ _ _ _ Hs) as [_ Hsub].
  assert (Hin2 : forall x, x ∈ read2 ++ [] ++ [] -> x ∈ qs).
  { intros x. rewrite app_nil_r. intros [[_ Hx]%list_elem_of_filter _]%Hread2. done. }
  assert (Hc1 : forall x, x ∈ conv1 -> x ∈ qs).
  { intros x Hx%(fl_conv _ _ _ _ _ _ _ _ _ _ Hl1). apply Hsub. rewrite !elem_of_app in *. tauto. }
  assert (Hc2 : forall x, x ∈ conv2 -> x ∈ qs).
  { intros x Hx%(fl_conv _ _ _ _ _ _ _ _ _ _ Hl2). apply Hin2. rewrite !elem_of_app in *. tauto. }
  assert (Hlen : length (server_lines env lines) = length lines) by apply length_fmap. pose proof (rt_few _ _ _ _ _ Ht) as Hfew.
  destruct (exec_query_spec env ReadFromFile (server_lines env lines) at_ (Hsrc := Hsrc) rows D Q st [] [] [] lf1 conv1 [] [] [] lf2 conv2 vm pw
    none (cells vm) none (cells pw)) with (n := length lines) (fuel := S (length lines)) (lo := 0) (k := 0) (left := rows_at) (s := so_state so)
    as (ts & node & -> & Hts); try done; try lia.
  - apply Ht.
  - split; try apply Hp.
    + destruct conv1 as [|x l] eqn:Ec; [by right|left]. intros Hlf.
      assert (x ∈ lf1) as Hx by (apply (fl_file _ _ _ _ _ _ _ _ _ _ Hl1); left; by left). rewrite Hlf in Hx. by apply elem_of_nil in Hx.
    + intros _ x. split; [|intros; apply (fl_file _ _ _ _ _ _ _ _ _ _ Hl2); by left].
      intros [?|[p ?%no_map]]%(fl_only _ _ _ _ _ _ _ _ _ _ Hl2); done.
    + intros x [Hx|[Hx|[p Hx]]]; apply in_query; [by apply Hc1|by apply Hc2|].
      apply Hsub. rewrite !elem_of_app. right. right. by apply (fl_positions _ _ _ _ _ _ _ _ _ _ Hl1 p).
  - intros row mem v Hv. rewrite Ex. apply HQ. intros x Hx. apply Hv. right. by apply (fl_read _ _ _ _ _ _ _ _ _ _ Hl1).
  - congruence.
  - rewrite first_exec_plan, Hq. destruct fs; [done|]. done.
  - intros row Hr. rewrite Hlen in Hr. destruct (first_row_ok row Hr) as (R1 & R2 & _). split; [done|done| | |].
    + apply (first_half fs wd wp lf1 conv1 vm pw); done.
    + apply (first_half read2 [] [] lf2 conv2 [] []); done.
    + by apply (first_write fs lf1).
  - exists ts, node. split; [done|]. eapply Forall2_impl; [exact Hts|]. intros row t Ht' x Hx. apply Ht'.
    destruct (decide (x ∈ fs)) as [Hi|Hi]; [left; right; by apply (fl_read _ _ _ _ _ _ _ _ _ _ Hl1)|].
    destruct (decide (x ∈ conv1)) as [Hi1|Hi1]; [left; by right|]. right. right. apply (fl_read _ _ _ _ _ _ _ _ _ _ Hl2), Hread2.
    split_and!; [|done|done]. by apply list_elem_of_filter.
Qed.
End first_query.

(** The filter of the query has columns of the relation, and [ExecQual] is [Q] of the
    row when these have the values of the file. *)
Definition filter_is p (k : copy_state) (relation : string) (D : Z -> Z -> NoDBDatum_t) (Q : Z -> bool) : Prop :=
  exists fs, getQueryFilterAttributes (p_desc p) (k_names k) relation = Ok (col_vector fs) /\ fs <> [] /\
    forall row mem v, (forall x, x ∈ fs -> vright (D row) v x) -> ExecQual (k_env k) mem v.1 v.2 = Ok (Q row).

Lemma col_vector_inj (l l' : list Z) : col_vector l = col_vector l' -> l = l'.
Proof. intros H. apply (f_equal cv_cols) in H. cbn in H. by apply (inj (fmap Some)) in H. Qed.

(** ** Properties *)

(** The first query on a relation, without a filter: from the query descriptor
    and the raw file, setting up the scan and calling [ExecScan] until it returns
    no tuple gives one tuple per line of the file, in order, with the values that
    the fields of the line convert to in all columns that the query mentions; the
    columns whose write locks the scan holds are in the data caches afterwards. *)
Theorem first_query_correct st_size p w k relation xs m lines tail rows D :
  process_ok p w relation (k_byval k) xs m -> copy_ok k relation -> first_use p w relation xs m ->
  raw_table k lines tail rows D -> lines <> [] ->
  exists p' so qs wd ts s', NoDBScanStateInit st_size p w k relation false = Ok (p', so) /\
    exec_query (so_env so) (S (length lines)) (plain_node (so_state so)) = Ok (ts, plain_node s') /\
    so_readAll so = col_vector qs /\ so_writeData so = col_vector wd /\
    (forall x, x ∈ qs <-> 0 <= x /\ exists d, d ∈ reported (p_desc p) /\ concerns (aliases (p_desc p)) relation d /\
      covers (k_names k) d (Z.to_nat x)) /\
    length ts = length lines /\
    (forall i t, ts !! i = Some t -> forall x, x ∈ qs -> vright (D (Z.of_nat i)) t x) /\
    (forall x, x ∈ wd -> column_cached (cs_world s') D (Z.of_nat (length lines)) x).
Proof.
  intros Hp Hk Hu Ht Hne.
  destruct (Init_first st_size p w k relation false xs m Hp Hk ltac:(done) Hu (rt_some _ _ _ _ _ Ht) (rt_byval _ _ _ _ _ Ht))
    as (p' & so & qs & fs & wd & wp & relp & ncols & w1 & st & lf1 & conv1 & lf2 & conv2 & vm & pw & c & E & [Hqs Hfs] & Hs & Hpl & _).
  destruct (first_plain_exec _ _ _ _ _ _ _ _ _ _ _ _ _ _ _ _ _ _ _ _ _ _ Ht Hs Hpl eq_refl Hfs Hne) as (ts & s' & Et & Hl & Hv & Hc).
  exists p', so, qs, wd, ts, s'. destruct (fc_written _ _ _ _ _ _ _ _ _ _ Hs). by split_and!.
Qed.

(** C2 The first query on a relation, with a filter that has columns of the relation
    and no whole row, on a file as in [raw_table]: no header, fewer than 10,000
    NL-terminated lines of less than 2^15 bytes whose fields are not empty and hold
    no delimiter, quote, backslash or zero byte, and after them possibly a line
    without its newline, which the code drops; all columns are passed by value.
    [ExecScan] returns exactly the terminated lines for which the filter holds, in
    order, with the values of the file in all columns that the query mentions, and
    then no tuple. *)
Theorem first_query_filter_correct st_size p w k relation xs m lines tail rows D Q :
  process_ok p w relation (k_byval k) xs m -> copy_ok k relation -> first_use p w relation xs m ->
  filter_columns true (p_desc p) -> raw_table k lines tail rows D -> filter_is p k relation D Q ->
  exists p' so qs ts node, NoDBScanStateInit st_size p w k relation true = Ok (p', so) /\
    exec_query (so_env so) (S (length lines)) (plain_node (so_state so)) = Ok (ts, node) /\
    so_readAll so = col_vector qs /\
    (forall x, x ∈ qs <-> 0 <= x /\ exists d, d ∈ reported (p_desc p) /\ concerns (aliases (p_desc p)) relation d /\
      covers (k_names k) d (Z.to_nat x)) /\
    Forall2 (fun row t => forall x, x ∈ qs -> vright (D row) t x)
      (filter (fun row => Q row = true) (seqZ 0 (Z.of_nat (length lines)))) ts.
Proof.
  intros Hp Hk Hu Hf Ht (fs' & Efs & Hne & HQ).
  destruct (Init_first st_size p w k relation true xs m Hp Hk Hf Hu (rt_some _ _ _ _ _ Ht) (rt_byval _ _ _ _ _ Ht))
    as (p' & so & qs & fs & wd & wp & relp & ncols & w1 & st & lf1 & conv1 & lf2 & conv2 & vm & pw & c & E & [Hqs Hfs] & Hs & Hpl & _).
  assert (fs' = fs) as -> by (apply col_vector_inj; congruence).
  destruct (first_filter_exec _ _ _ _ _ _ _ _ _ _ _ _ _ _ _ _ _ _ _ _ _ _ Ht Hs Hpl Q eq_refl Hne HQ) as (ts & node & Et & Hts).
  exists p', so, qs, ts, node. destruct (fc_written _ _ _ _ _ _ _ _ _ _ Hs). by split_and!.
Qed.

(** ** Witnesses: [SELECT x.b FROM t AS x WHERE x.a = 5] on a file of two lines and
    the beginning of a third *)
Definition ex_rest : list Z := [57; 44; 49].
Definition fq_qual : objects -> arr Z -> arr Z -> result bool := fun _ v _ => d ← arr_get v 0; Ok (d =? 5).
Definition fq_copy : copy_state :=
  {| k_env := with_qual (ex_env []) fq_qual; k_reader := rd (ex_scan ex_eol (file_bytes ex_text ++ ex_rest)); k_names := k_names so_copy;
     k_byval := k_byval so_copy; k_filename := k_filename so_copy |}.

Lemma fq_table : raw_table fq_copy ex_text ex_rest ex_fields ex_datum.
Proof.
  split; try done.
  - cbn. lia.
  - repeat constructor; cbn; lia.
  - intros row Hr. split_and!.
    + by apply (PlanSound.ex_lines []).
    + by apply (ro_line _ _ _ (ex_row_ok [] row Hr)).
    + done.
    + intros x Hx. cbn in Hx. apply (ro_value _ _ _ (ex_row_ok [] row Hr)); cbn; lia.
  - apply ex_datum_range.
Qed.

Lemma fq_copy_ok : copy_ok fq_copy "t".
Proof. pose proof so_copy_ok as []. by split. Qed.

Lemma fq_first : first_use so_process empty_world "t" [] ∅.
Proof. split; [done|]. intros relp _ p c Hc. cbn in Hc. by rewrite lookup_empty in Hc. Qed.

Lemma first_query_witness : exists p' so qs wd ts s',
  NoDBScanStateInit (fun _ => 0) so_process empty_world fq_copy "t" false = Ok (p', so) /\
  exec_query (so_env so) 3 (plain_node (so_state so)) = Ok (ts, plain_node s') /\ length ts = 2%nat /\
  so_readAll so = col_vector qs /\ so_writeData so = col_vector wd /\
  (forall x, x ∈ qs -> exists t, ts !! 1%nat = Some t /\ vright (ex_datum 1) t x).
Proof.
  destruct (first_query_correct (fun _ => 0) so_process empty_world fq_copy "t" [] ∅ ex_text ex_rest ex_fields ex_datum
    so_process_ok fq_copy_ok fq_first fq_table ltac:(discriminate)) as (p' & so & qs & wd & ts & s' & E1 & E2 & E3 & E4 & _ & Hl & Hv & _).
  exists p', so, qs, wd, ts, s'. split; [exact E1|]. split; [exact E2|]. split; [exact Hl|]. split; [exact E3|]. split; [exact E4|].
  intros x Hx. destruct (lookup_lt_is_Some_2 ts 1) as [t Ht]; [rewrite Hl; cbn; lia|].
  exists t. split; [done|]. exact (Hv 1%nat t Ht x Hx).
Defined.

Lemma fq_filter : filter_is so_process fq_copy "t" ex_datum (fun row => (ex_datum row 0).1 =? 5).
Proof.
  exists [0]. split_and!; [by vm_compute|done|]. intros row mem v Hv. destruct (Hv 0) as [E _]; [by left|].
  change (ExecQual (k_env fq_copy)) with fq_qual. unfold fq_qual. by rewrite E.
Qed.

Lemma first_query_filter_witness : exists p' so qs ts node,
  NoDBScanStateInit (fun _ => 0) so_process empty_world fq_copy "t" true = Ok (p', so) /\
  exec_query (so_env so) 3 (plain_node (so_state so)) = Ok (ts, node) /\ so_readAll so = col_vector qs /\
  Forall2 (fun row t => forall x, x ∈ qs -> vright (ex_datum row) t x) [1] ts.
Proof.
  destruct (first_query_filter_correct (fun _ => 0) so_process empty_world fq_copy "t" [] ∅ ex_text ex_rest ex_fields ex_datum
    (fun row => (ex_datum row 0).1 =? 5) so_process_ok fq_copy_ok fq_first) as (p' & so & qs & ts & node & E1 & E2 & E3 & _ & Hts).
  - intros _. assert (filtered (p_desc so_process) = [{| columnName := Some "a"; tableName := Some "t"; schemaName := None;
      catalogName := None; whole_row := false |}]) as -> by (by vm_compute).
    intros d Hd. apply list_elem_of_singleton in Hd as ->. reflexivity.
  - apply fq_table.
  - apply fq_filter.
  - exists p', so, qs, ts, node. split; [exact E1|]. split; [exact E2|]. split; [exact E3|exact Hts].
Defined.
