(* ===== verification/CommandQuery.v ===== *)
(** * From the command to the tuples

    The first query on a relation, from the COPY command of its scan on: the set-up
    of CopySetup.v gives a state that FirstQuery.v needs. *)
From Stdlib Require Import Ascii.
From S2P Require Import Prelude Vectors Cache CacheData EOLCache FieldParser LineReader TupleReader CacheSelect StrategyMatrix MatrixSound ScanStrategy StrategySound IteratorSound ExecInfo QueryDescriptor Config Executor ExecutorSound PlanSound ScanOperator ScanOperatorSound FirstQuery CopySetup.

(** ** The state that the command gives *)
Definition command_state (se : session) (sf : server_functions) (c : ascii) (tup : list attribute) (file : string) (bytes : list Z)
    : copy_state :=
  {| k_env :=
       {| e_copy := {| delimc := byte_of c; quotec := 34; escapec := 34; null_print := [] |};
          e_line := {| csv_mode := true; quote := 34; escape := 34; header_line := false;
                       encoding_embeds_ascii := PG_ENCODING_IS_CLIENT_ONLY (pg_get_client_encoding se);
                       pg_encoding_mblen := sf_mblen sf |};
          e_conv := {| need_transcoding := negb (pg_get_client_encoding se =? GetDatabaseEncoding se) || (1 <? pg_database_encoding_max_length se);
                       exec_need_transcoding := sf_transcoded sf; pg_client_to_server := sf_client_to_server sf |};
          e_bufsize := RAW_BUF_SIZE; nfields := Z.of_nat (length tup); lastfield := 0;
          attrlen := Some <$> (attlen <$> tup); has_qual := false; readFilterAtts := NoDBColVectorInit 0;
          input_function := sf_input sf; pg_verifymbstr := sf_verifymbstr sf; datumGetSize := sf_datumGetSize sf;
          ExecQual := sf_ExecQual sf |};
     k_reader :=
       {| raw_buf := []; raw_buf_index := 0; line_buf := [];
          copy_file := {| contents := bytes; pos := 0; read_header := false; eolCache := sf_no_cache sf |};
          eol_type := EOL_UNKNOWN; cur_lineno := 0 |};
     k_names := attname <$> tup; k_byval := attbyval <$> tup; k_filename := file |}.

(** A delimiter that the options allow. *)
Definition csv_delimiter (c : ascii) : Prop := c <> c_cr /\ c <> c_lf /\ [c] <> dquote.

Lemma copy_setup_command se sf open pipe tup file c bytes : may_copy se -> csv_delimiter c -> open file = Regular bytes ->
  Forall (fun a => attisdropped a = false) tup ->
  copy_setup se sf open pipe (command_stmt file [c] false) tup = Ok (command_state se sf c tup file bytes).
Proof.
  intros Hse (H1 & H2 & H3) Ho Hd. unfold copy_setup. rewrite GetScanState_command by done. cbn [mbind result_bind].
  unfold GetScanExecStatusStmt. rewrite (mc_table _ Hse), bool_decide_eq_true_2 by done.
  cbn [negb deny mbind result_bind ss_filename open_file]. rewrite Ho. cbn [mbind result_bind ss_format csv_format fo_binary ss_attnums].
  rewrite attnums_all by done. reflexivity.
Qed.

(** A table whose columns are passed by value and none of which was dropped. *)
Record plain_table (tup : list attribute) (file relation : string) : Prop := {
  pt_dropped : Forall (fun a => attisdropped a = false) tup;
  pt_byval : Forall (fun a => attbyval a = true) tup;
  pt_names : NoDup (attname <$> tup);
  pt_some : tup <> [];
  pt_natts : Z.of_nat (length tup) <= 2 ^ 31;
  pt_relation : relation <> ""%string;
  pt_name : (String.length relation < EOLCache.EOL_NAME_SIZE)%nat;
  pt_file : (String.length file < FILENAME_SIZE)%nat }.

(** The lines of the file: they are data, fewer than a strategy has rows, and their
    fields [rows] convert to the values [D]; no line ends in the [tail] behind them. *)
Record file_table (env : exec_env) (lines : list (list Z)) (tail : list Z) (rows : Z -> list (list Z)) (D : Z -> Z -> NoDBDatum_t) : Prop := {
  ft_lines : good_lines (e_line env) lines;
  ft_tail : good_tail (e_line env) tail;
  ft_few : Z.of_nat (length lines) < NODB_CACHE_DEFAULT_ROWS;
  ft_fields : forall row, 0 <= row < Z.of_nat (length lines) ->
    server_lines env lines !! Z.to_nat row = Some (join (delimc (e_copy env)) (rows row)) /\
    line_ok (e_copy env) (rows row) /\ ncols_of (rows row) = nfields env /\
    forall x, 0 <= x < nfields env -> exists v, input_function env x (field_of (rows row) x) = Ok v /\ D row x = (v, 0);
  ft_word : forall row x, 0 <= (D row x).1 < 2 ^ 64 }.

Lemma Forall_replicate_true (l : list bool) : Forall (fun b => b = true) l -> l = replicate (length l) true.
Proof. induction 1 as [|b l -> _ IH]; [done|]. cbn. by rewrite <- IH. Qed.

Lemma command_ready se sf c tup file relation lines tail rows D : plain_table tup file relation ->
  (forall b, 1 <= sf_mblen sf b <= 4) ->
  let k := command_state se sf c tup file (file_bytes lines ++ tail) in
  file_table (k_env k) lines tail rows D -> copy_ok k relation /\ raw_table k lines tail rows D.
Proof.
  intros [P1 P2 P3 P4 P5 P6 P7 P8] Hmb k [F1 Ft F2 F3 F4]. split.
  - split; cbn; rewrite ?length_fmap; done.
  - split; cbn; rewrite ?length_fmap; try done.
    + by destruct tup.
    + rewrite (Forall_replicate_true (attbyval <$> tup)) at 1; [by rewrite length_fmap|]. by apply Forall_fmap.
    + unfold RAW_BUF_SIZE. lia.
Qed.

(** ** Properties *)

(** From the command to the tuples: the COPY command that the scan operator
    prints for a relation is accepted for every delimiter of one byte that is no
    newline and no quote; the state that it gives is what the set-up of the scan
    needs, and the first query returns one tuple per line of the file, in order,
    with the values that the fields convert to in all columns that the query
    mentions, and fills the data caches with the columns it may write. *)
Theorem command_query_correct st_size p w se sf open pipe tup file c relation xs m lines tail rows D :
  let k := command_state se sf c tup file (file_bytes lines ++ tail) in
  may_copy se -> csv_delimiter c -> open file = Regular (file_bytes lines ++ tail) -> plain_table tup file relation ->
  (forall b, 1 <= sf_mblen sf b <= 4) -> file_table (k_env k) lines tail rows D -> lines <> [] ->
  process_ok p w relation (attbyval <$> tup) xs m -> first_use p w relation xs m ->
  exists p' so qs wd ts s',
    (k ← copy_setup se sf open pipe (command_stmt file [c] false) tup; NoDBScanStateInit st_size p w k relation false) = Ok (p', so) /\
    exec_query (so_env so) (S (length lines)) (plain_node (so_state so)) = Ok (ts, plain_node s') /\
    so_readAll so = col_vector qs /\ so_writeData so = col_vector wd /\
    (forall x, x ∈ qs <-> 0 <= x /\ exists d, d ∈ reported (p_desc p) /\ concerns (aliases (p_desc p)) relation d /\
      covers (attname <$> tup) d (Z.to_nat x)) /\
    length ts = length lines /\
    (forall i t, ts !! i = Some t -> forall x, x ∈ qs -> vright (D (Z.of_nat i)) t x) /\
    (forall x, x ∈ wd -> column_cached (cs_world s') D (Z.of_nat (length lines)) x).
Proof.
  intros k Hse Hc Ho Hpt Hmb Hft Hne Hp Hu. rewrite (copy_setup_command se sf open pipe tup file c (file_bytes lines ++ tail)) by (done || apply Hpt).
  destruct (command_ready se sf c tup file relation lines tail rows D Hpt Hmb Hft) as [Hk Ht].
  exact (first_query_correct st_size p w k relation xs m lines tail rows D Hp Hk Hu Ht Hne).
Qed.

(** ** Witness: [SELECT x.b FROM t AS x] on a file of two lines *)
Definition cq_session : session :=
  {| superuser := true; XactReadOnly := false; rd_islocaltemp := false; relkind := ascii_of_nat 114;
     pg_class_aclmask := fun mode => mode; pg_attribute_aclcheck := fun _ _ => true;
     pg_get_client_encoding := 0; GetDatabaseEncoding := 0; pg_database_encoding_max_length := 1 |}.
Definition cq_functions : server_functions :=
  {| sf_mblen := fun _ => 1; sf_transcoded := false; sf_client_to_server := fun _ => None;
     sf_input := input_function (ex_env []); sf_verifymbstr := fun _ => true; sf_datumGetSize := fun _ _ => 0%nat;
     sf_ExecQual := fun _ _ _ => Ok true; sf_no_cache := ex_eol |}.
Definition cq_attribute (name : string) (n : Z) : attribute :=
  {| attname := name; attisdropped := false; attnum := n; attlen := 8; attbyval := true |}.
Definition cq_table : list attribute := [cq_attribute "a" 1; cq_attribute "b" 2; cq_attribute "c" 3; cq_attribute "d" 4].
Definition cq_comma : ascii := ascii_of_nat 44.

Lemma cq_may_copy : may_copy cq_session.
Proof. split; try done. by left. Qed.

Lemma cq_plain : plain_table cq_table "file" "t".
Proof.
  split; try done.
  - repeat constructor.
  - repeat constructor.
  - apply (bool_decide_unpack (NoDup ["a"; "b"; "c"; "d"]%string)). by vm_compute.
  - unfold EOLCache.EOL_NAME_SIZE. simpl. lia.
  - unfold FILENAME_SIZE. simpl. lia.
Qed.

Lemma cq_lines : file_table (k_env (command_state cq_session cq_functions cq_comma cq_table "file" (file_bytes ex_text ++ ex_rest))) ex_text ex_rest ex_fields ex_datum.
Proof.
  pose proof fq_table as Ht. split; apply Ht.
Qed.

Lemma command_query_witness : exists p' so qs ts s',
  (k ← copy_setup cq_session cq_functions (fun _ => Regular (file_bytes ex_text ++ ex_rest)) [] (command_stmt "file" [cq_comma] false) cq_table;
   NoDBScanStateInit (fun _ => 0) so_process empty_world k "t" false) = Ok (p', so) /\
  exec_query (so_env so) 3 (plain_node (so_state so)) = Ok (ts, plain_node s') /\ length ts = 2%nat /\
  so_readAll so = col_vector qs.
Proof.
  destruct (command_query_correct (fun _ => 0) so_process empty_world cq_session cq_functions (fun _ => Regular (file_bytes ex_text ++ ex_rest)) []
    cq_table "file" cq_comma "t" [] ∅ ex_text ex_rest ex_fields ex_datum cq_may_copy) as (p' & so & qs & wd & ts & s' & E1 & E2 & E3 & _ & _ & Hl & _).
  - split_and!; discriminate.
  - reflexivity.
  - apply cq_plain.
  - intros b. cbn. lia.
  - apply cq_lines.
  - discriminate.
  - apply so_process_ok.
  - apply fq_first.
  - exists p', so, qs, ts, s'. split; [exact E1|]. split; [exact E2|]. split; [exact Hl|exact E3].
Defined.
