(* ===== verification/PlanTree.v ===== *)
(** * The scans of a plan (NoDBScan.c, getProperScanState to recompute_limits)

    Before a query runs, the operator walks over its plan for the scan nodes, whose
    relations may be raw files; on the way it reports the columns of the filters to
    the query descriptor and takes the LIMIT of a scan over. [ExplainPreScanNode]
    walks over the same tree for the relations in use. A plan and the tree of its
    states are walked side by side. *)
From S2P Require Import Prelude QueryDescriptor.

(** ** Plans and their states *)

(** The tags of plan nodes; the state of a node of type [T_X] has the tag
    [T_XState], which is written [T_X] here. *)
Inductive plan_tag :=
  T_Result | T_ModifyTable | T_Append | T_MergeAppend | T_RecursiveUnion | T_BitmapAnd | T_BitmapOr | T_SeqScan
  | T_SampleScan | T_IndexScan | T_IndexOnlyScan | T_BitmapIndexScan | T_BitmapHeapScan | T_TidScan | T_SubqueryScan
  | T_FunctionScan | T_ValuesScan | T_CteScan | T_WorkTableScan | T_ForeignScan | T_CustomScan | T_NestLoop
  | T_MergeJoin | T_HashJoin | T_Material | T_Sort | T_Group | T_Agg | T_WindowAgg | T_Unique | T_Gather | T_Hash
  | T_SetOp | T_LockRows | T_Limit.
#[global] Instance plan_tag_eq_dec : EqDecision plan_tag.
Proof. solve_decision. Defined.

(** [p_members] is [plans], [appendplans], [mergeplans] or [bitmapplans]; an
    expression is known by its address. *)
Inductive Plan := MkPlan {
  p_tag : plan_tag; p_qual : option Z; p_initPlan : bool; p_lefttree : option Plan; p_righttree : option Plan;
  p_members : list Plan; p_subplan : option Plan;
  scanrelid : Z; relids : list Z; nominalRelation : Z; exclRelRTI : Z }.

(** The states that [SubPlanState] nodes refer to come with the [plan_id]. The
    members of a [LimitState] and a [SortState] that change are in [pt_state]. *)
Inductive PlanState := MkPlanState {
  ps_node : Z; ps_tag : plan_tag; ps_plan : Plan; ps_qual : bool; ss_currentRelation : option string;
  iss_NumRuntimeKeys : Z; iss_RuntimeKeysReady : bool; limitOffset : option Z; limitCount : option Z;
  ps_initPlan : list (Z * PlanState); ps_lefttree : option PlanState; ps_righttree : option PlanState;
  ps_members : list PlanState; ps_subplan : option PlanState; ps_subPlan : list (Z * PlanState) }.
Implicit Types (plan : Plan) (ps : PlanState).

Inductive LimitStateCond :=
  LIMIT_INITIAL | LIMIT_RESCAN | LIMIT_EMPTY | LIMIT_INWINDOW | LIMIT_SUBPLANEOF | LIMIT_WINDOWEND | LIMIT_WINDOWSTART.
Record LimitState := { l_offset : Z; l_count : Z; noCount : bool; lstate : LimitStateCond; l_position : Z }.
Record SortState := { bounded : bool; bound : Z }.

(** What a walk changes: the query descriptor, the [List] headers that the walk
    made, by address, and the states of the LIMIT and sort nodes. *)
Record pt_state := {
  pt_desc : qd_state; pt_lists : gmap Z (list Z); pt_next : Z;
  pt_limits : gmap Z LimitState; pt_sorts : gmap Z SortState }.
Implicit Types (st : pt_state).

Definition pt_set_desc st (d : qd_state) : pt_state :=
  {| pt_desc := d; pt_lists := pt_lists st; pt_next := pt_next st; pt_limits := pt_limits st; pt_sorts := pt_sorts st |}.
Definition pt_set_lists st (m : gmap Z (list Z)) (next : Z) : pt_state :=
  {| pt_desc := pt_desc st; pt_lists := m; pt_next := next; pt_limits := pt_limits st; pt_sorts := pt_sorts st |}.
Definition pt_set_limits st (m : gmap Z LimitState) : pt_state :=
  {| pt_desc := pt_desc st; pt_lists := pt_lists st; pt_next := pt_next st; pt_limits := m; pt_sorts := pt_sorts st |}.
Definition pt_set_sorts st (m : gmap Z SortState) : pt_state :=
  {| pt_desc := pt_desc st; pt_lists := pt_lists st; pt_next := pt_next st; pt_limits := pt_limits st; pt_sorts := m |}.

(** A [List *]: [NIL] or the address of a header. *)
Abbreviation list_ptr := (option Z).

Definition get_list st (h : Z) : result (list Z) :=
  match pt_lists st !! h with Some l => Ok l | None => Fail Indeterminate end.
Definition list_contents st (l : list_ptr) : result (list Z) :=
  match l with None => Ok [] | Some h => get_list st h end.

(** A list that is not empty is changed in place. *)
Definition lcons (datum : Z) (l : list_ptr) st : result (pt_state * list_ptr) :=
  match l with
  | None => Ok (pt_set_lists st (<[pt_next st := [datum]]> (pt_lists st)) (pt_next st + 1), Some (pt_next st))
  | Some h => xs ← get_list st h; Ok (pt_set_lists st (<[h := datum :: xs]> (pt_lists st)) (pt_next st), Some h)
  end.

(** ** The relations in use *)
Definition bms_add_member (a : gset Z) (x : Z) : result (gset Z) :=
  if x <? 0 then Fail (EReport "negative bitmapset member not allowed") else Ok ({[x]} ∪ a).
Definition bms_add_members (a : gset Z) (b : list Z) : gset Z := a ∪ list_to_set b.

(** A walker returns whether the walk is over. *)
Definition walk_list {C A} (walker : A -> C -> result (C * bool)) : list A -> C -> result (C * bool) :=
  fix go (l : list A) (c : C) :=
    match l with
    | [] => Ok (c, false)
    | s :: l' => x ← walker s c; if x.2 : bool then Ok x else go l' x.1
    end.
Definition walk_opt {C A} (walker : A -> C -> result (C * bool)) (o : option A) (c : C) : result (C * bool) :=
  match o with None => Ok (c, false) | Some s => walker s c end.
Definition and_then {C} (x : result (C * bool)) (next : C -> result (C * bool)) : result (C * bool) :=
  y ← x; if y.2 : bool then Ok y else next y.1.

(** The states are an array with as many elements as there are plans. *)
Definition walk_members {C} (walker : PlanState -> C -> result (C * bool)) : list PlanState -> list Plan -> C -> result (C * bool) :=
  fix go (states : list PlanState) (plans : list Plan) (c : C) :=
    match plans, states with
    | [], _ => Ok (c, false)
    | _ :: _, [] => Fail OutOfBounds
    | _ :: plans', s :: states' => x ← walker s c; if x.2 : bool then Ok x else go states' plans' x.1
    end.

Definition planstate_tree_walker {C} (walker : PlanState -> C -> result (C * bool)) ps (c : C) : result (C * bool) :=
  and_then (walk_list (fun x => walker x.2) (ps_initPlan ps) c) (fun c =>
  and_then (walk_opt walker (ps_lefttree ps) c) (fun c =>
  and_then (walk_opt walker (ps_righttree ps) c) (fun c =>
  and_then (match p_tag (ps_plan ps) with
            | T_ModifyTable | T_Append | T_MergeAppend | T_BitmapAnd | T_BitmapOr =>
                walk_members walker (ps_members ps) (p_members (ps_plan ps)) c
            | T_SubqueryScan => match ps_subplan ps with None => Fail NullDeref | Some s => walker s c end
            | T_CustomScan => walk_list walker (ps_members ps) c
            | _ => Ok (c, false)
            end) (fun c =>
  walk_list (fun x => walker x.2) (ps_subPlan ps) c)))).

Definition rels_of plan (used : gset Z) : result (gset Z) :=
  match p_tag plan with
  | T_SeqScan | T_SampleScan | T_IndexScan | T_IndexOnlyScan | T_BitmapHeapScan | T_TidScan | T_SubqueryScan
  | T_FunctionScan | T_ValuesScan | T_CteScan | T_WorkTableScan => bms_add_member used (scanrelid plan)
  | T_ForeignScan | T_CustomScan => Ok (bms_add_members used (relids plan))
  | T_ModifyTable =>
      used ← bms_add_member used (nominalRelation plan);
      if exclRelRTI plan =? 0 then Ok used else bms_add_member used (exclRelRTI plan)
  | _ => Ok used
  end.

Fixpoint ExplainPreScanNode ps (rels_used : gset Z) : result (gset Z * bool) :=
  used ← rels_of (ps_plan ps) rels_used;
  planstate_tree_walker ExplainPreScanNode ps used.

(** ** The scan nodes *)

(** The [ScanState] of a scan node; an index scan whose keys are not ready is left
    out. *)
Definition getProperScanState ps : option PlanState :=
  match ps_tag ps with
  | T_SeqScan | T_BitmapHeapScan | T_TidScan | T_SubqueryScan | T_FunctionScan | T_ValuesScan | T_CteScan
  | T_WorkTableScan => Some ps
  | T_IndexScan =>
      if negb (iss_NumRuntimeKeys ps =? 0) && negb (iss_RuntimeKeysReady ps) then None else Some ps
  | _ => None
  end.

(** What the walk has: its state, the list of ancestors, and the scans found. *)
Definition walked : Type := pt_state * list_ptr * list PlanState.
Definition push ps (x : walked) : result walked := y ← lcons (ps_node ps) x.1.2 x.1.1; Ok (y.1, y.2, x.2).
Definition visit (walk : list_ptr -> pt_state -> result (pt_state * list PlanState)) (x : walked) : result walked :=
  y ← walk x.1.2 x.1.1; Ok (y.1, x.1.2, x.2 ++ y.2).

(** [deparse_expression] prints the filter of a node for a list of ancestors, and
    reports its columns on the way; [ExecEvalExpr] is the value of an expression, or
    [None] for NULL; [subplans] are those of the statement. *)
Section plan_tree.
Context (deparse_expression : Z -> Z -> list Z -> qd_state -> result qd_state).
Context (ExecEvalExpr : Z -> option Z) (subplans : list Plan).

(** ** LIMIT *)
Definition get_limit st (node : Z) : result LimitState :=
  match pt_limits st !! node with Some l => Ok l | None => Fail Indeterminate end.

Definition limit_offset ps : result Z :=
  match limitOffset ps with
  | None => Ok 0
  | Some e =>
      match ExecEvalExpr e with
      | None => Ok 0
      | Some v => if v <? 0 then Fail (EReport "OFFSET must not be negative") else Ok v
      end
  end.
Definition limit_count ps : result (Z * bool) :=
  match limitCount ps with
  | None => Ok (0, true)
  | Some e =>
      match ExecEvalExpr e with
      | None => Ok (0, true)
      | Some v => if v <? 0 then Fail (EReport "LIMIT must not be negative") else Ok (v, false)
      end
  end.

(** A sort below the node is told how many tuples are needed; the sum of two
    [int64] may overflow. *)
Definition bound_sort (l : LimitState) (outer : PlanState) st : result pt_state :=
  if bool_decide (ps_tag outer = T_Sort) then
    match pt_sorts st !! ps_node outer with
    | None => Fail Indeterminate
    | Some s =>
        let tuples_needed := swrap 64 (l_count l + l_offset l) in
        let s' := if noCount l || (tuples_needed <? 0) then {| bounded := false; bound := bound s |}
                  else {| bounded := true; bound := tuples_needed |} in
        Ok (pt_set_sorts st (<[ps_node outer := s']> (pt_sorts st)))
    end
  else Ok st.

Definition recompute_limits ps st : result pt_state :=
  _ ← get_limit st (ps_node ps);
  offset ← limit_offset ps;
  count ← limit_count ps;
  let l := {| l_offset := offset; l_count := count.1; noCount := count.2; lstate := LIMIT_RESCAN; l_position := 0 |} in
  match ps_lefttree ps with
  | None => Fail NullDeref
  | Some outer => bound_sort l outer (pt_set_limits st (<[ps_node ps := l]> (pt_limits st)))
  end.

(** The limit of a scan becomes the limit of the query. *)
Definition scan_limit ps st : result pt_state :=
  st ← recompute_limits ps st;
  l ← get_limit st (ps_node ps);
  Ok (pt_set_desc st (setQueryLimit (pt_desc st) (l_count l))).

(** [nodeTag(plan->lefttree) == T_SeqScan]. *)
Definition over_scan plan : result bool :=
  match p_lefttree plan with None => Fail NullDeref | Some l => Ok (bool_decide (p_tag l = T_SeqScan)) end.

Definition limit_node plan ps st : result pt_state :=
  st ← (match p_lefttree plan with
        | None => b ← over_scan plan; if b : bool then scan_limit ps st else Ok st
        | Some _ => Ok st
        end);
  match p_righttree plan with
  | None => b ← over_scan plan; if b : bool then scan_limit ps st else Ok st
  | Some _ => Ok st
  end.

(** ** The walk *)
Definition scan_qual plan ps (ancestors : list_ptr) st : result pt_state :=
  match p_qual plan with
  | None => Ok st
  | Some q =>
      anc ← list_contents st ancestors;
      d ← deparse_expression q (ps_node ps) anc (changeParseStatus (pt_desc st) PS_filterList);
      Ok (pt_set_desc st (changeParseStatus d PS_idle))
  end.

(** The node itself. *)
Definition visit_node plan ps (ancestors : list_ptr) st : result (pt_state * list PlanState) :=
  match p_tag plan with
  | T_IndexScan | T_SeqScan | T_BitmapHeapScan | T_TidScan | T_SubqueryScan | T_FunctionScan | T_ValuesScan
  | T_CteScan | T_WorkTableScan =>
      st ← scan_qual plan ps ancestors st;
      Ok (st, option_list (getProperScanState ps))
  | T_Limit => st ← limit_node plan ps st; Ok (st, [])
  | _ => Ok (st, [])
  end.

(** [list_nth]. *)
Definition exec_subplan_get_plan (plan_id : Z) : result Plan :=
  if 1 <=? plan_id then
    match subplans !! Z.to_nat (plan_id - 1) with Some p => Ok p | None => Fail AssertFail end
  else Fail AssertFail.

Definition traverseSubPlans (walk : PlanState -> Plan -> list_ptr -> pt_state -> result (pt_state * list PlanState)) :=
  fix go (plans : list (Z * PlanState)) (ancestors : list_ptr) st : result (pt_state * list PlanState) :=
    match plans with
    | [] => Ok (st, [])
    | sps :: plans' =>
        p ← exec_subplan_get_plan sps.1;
        x ← walk sps.2 p ancestors st;
        y ← go plans' ancestors x.1;
        Ok (y.1, x.2 ++ y.2)
    end.

Definition traverseMemberNodes (walk : PlanState -> Plan -> list_ptr -> pt_state -> result (pt_state * list PlanState)) :=
  fix go (states : list PlanState) (plans : list Plan) (ancestors : list_ptr) st : result (pt_state * list PlanState) :=
    match plans, states with
    | [], _ => Ok (st, [])
    | _ :: _, [] => Fail OutOfBounds
    | subnode :: plans', s :: states' =>
        x ← walk s subnode ancestors st;
        y ← go states' plans' ancestors x.1;
        Ok (y.1, x.2 ++ y.2)
    end.

(** A subtree is walked when the plan has it. *)
Definition visit_tree (walk : PlanState -> Plan -> list_ptr -> pt_state -> result (pt_state * list PlanState))
    ps (tree : option Plan) (state : option PlanState) (x : walked) : result walked :=
  match tree with
  | None => Ok x
  | Some p => y ← push ps x; match state with None => Fail NullDeref | Some s => visit (walk s p) y end
  end.

(** Sub-plans, when the node has some. *)
Definition visit_subplans (walk : PlanState -> Plan -> list_ptr -> pt_state -> result (pt_state * list PlanState))
    ps (some : bool) (plans : list (Z * PlanState)) (x : walked) : result walked :=
  if some then y ← push ps x; visit (traverseSubPlans walk plans) y else Ok x.

(** The children that only some nodes have; the node is not among their ancestors. *)
Definition visit_special (walk : PlanState -> Plan -> list_ptr -> pt_state -> result (pt_state * list PlanState))
    ps plan (x : walked) : result walked :=
  match p_tag plan with
  | T_ModifyTable | T_Append | T_BitmapAnd | T_BitmapOr => visit (traverseMemberNodes walk (ps_members ps) (p_members plan)) x
  | T_SubqueryScan =>
      match p_subplan plan, ps_subplan ps with
      | Some p, Some s => visit (walk s p) x
      | _, _ => Fail NullDeref
      end
  | _ => Ok x
  end.

Definition non_nil {A} (l : list A) : bool := match l with [] => false | _ :: _ => true end.

(** The argument [outer_plan] of the C function is not used. *)
Fixpoint traversePlanTree ps plan (ancestors : list_ptr) st {struct ps} : result (pt_state * list PlanState) :=
  n ← visit_node plan ps ancestors st;
  x ← visit_subplans traversePlanTree ps (p_initPlan plan) (ps_initPlan ps) (n.1, ancestors, n.2);
  x ← visit_tree traversePlanTree ps (p_lefttree plan) (ps_lefttree ps) x;
  x ← visit_tree traversePlanTree ps (p_righttree plan) (ps_righttree ps) x;
  x ← visit_special traversePlanTree ps plan x;
  x ← visit_subplans traversePlanTree ps (non_nil (ps_subPlan ps)) (ps_subPlan ps) x;
  Ok (x.1.1, x.2).
End plan_tree.
