(* ===== verification/PlanTreeSound.v ===== *)
(** * The walk over a plan finds its scans

    The proofs about PlanTree.v: the walk returns the scan nodes among the nodes it
    comes to ([walked_nodes]: all but what is below a merge append or a custom scan),
    a node before its children, and leaves a query descriptor that the parser could
    have made, with the limit of the last LIMIT over a sequential scan; or it fails
    with an error of the expressions it prints and evaluates ([walk_error]). *)
From S2P Require Import Prelude DArray QueryDescriptor PlanTree.

Implicit Types (plan : Plan) (ps : PlanState) (st : pt_state).

(** ** The nodes of a tree *)
Definition children ps : list PlanState :=
  (ps_initPlan ps).*2 ++ option_list (ps_lefttree ps) ++ option_list (ps_righttree ps) ++ ps_members ps ++
  option_list (ps_subplan ps) ++ (ps_subPlan ps).*2.

(** What holds for a node when it holds for its children holds for all. *)
Lemma PlanState_children_ind (P : PlanState -> Prop) : (forall ps, Forall P (children ps) -> P ps) -> forall ps, P ps.
Proof.
  intros H. fix IH 1. intros [? ? ? ? ? ? ? ? ? ip l r ms sp sb]. apply H. unfold children. cbn [ps_initPlan ps_lefttree ps_righttree ps_members ps_subplan ps_subPlan].
  assert (Ho : forall o : option PlanState, match o with Some x => P x | None => True end -> Forall P (option_list o)).
  { intros [x|] Hx; cbn; [by constructor|constructor]. }
  apply Forall_app. split.
  { induction ip as [|[z s] ip IHip]; cbn; [constructor|]. constructor; [apply IH|exact IHip]. }
  apply Forall_app. split. { apply Ho. destruct l; [apply IH|exact I]. }
  apply Forall_app. split. { apply Ho. destruct r; [apply IH|exact I]. }
  apply Forall_app. split. { induction ms as [|s ms IHms]; constructor; [apply IH|exact IHms]. }
  apply Forall_app. split. { apply Ho. destruct sp; [apply IH|exact I]. }
  induction sb as [|[z s] sb IHsb]; cbn; [constructor|]. constructor; [apply IH|exact IHsb].
Qed.

(** All nodes, a node before its children. *)
Fixpoint all_nodes ps : list PlanState :=
  ps :: flat_map (fun x => all_nodes x.2) (ps_initPlan ps)
     ++ match ps_lefttree ps with Some s => all_nodes s | None => [] end
     ++ match ps_righttree ps with Some s => all_nodes s | None => [] end
     ++ flat_map all_nodes (ps_members ps)
     ++ match ps_subplan ps with Some s => all_nodes s | None => [] end
     ++ flat_map (fun x => all_nodes x.2) (ps_subPlan ps).

Lemma all_nodes_parts ps : all_nodes ps =
  [ps] ++ flat_map (fun x => all_nodes x.2) (ps_initPlan ps)
     ++ match ps_lefttree ps with Some s => all_nodes s | None => [] end
     ++ match ps_righttree ps with Some s => all_nodes s | None => [] end
     ++ flat_map all_nodes (ps_members ps)
     ++ match ps_subplan ps with Some s => all_nodes s | None => [] end
     ++ flat_map (fun x => all_nodes x.2) (ps_subPlan ps).
Proof. by destruct ps. Qed.

Lemma all_nodes_children ps : all_nodes ps = ps :: flat_map all_nodes (children ps).
Proof.
  destruct ps as [? ? ? ? ? ? ? ? ? ip l r ms sp sb]. unfold children. cbn [all_nodes ps_initPlan ps_lefttree ps_righttree ps_members ps_subplan ps_subPlan].
  rewrite !flat_map_app, !(flat_map_concat_map _ (_.*2)). 
  assert (Hs : forall l : list (Z * PlanState), concat (map all_nodes l.*2) = flat_map (fun x => all_nodes x.2) l).
  { intros l0. rewrite flat_map_concat_map. unfold fmap. unfold list_fmap. f_equal. induction l0 as [|x l0 IH]; [done|]. cbn. by f_equal. }
  rewrite !Hs. f_equal. f_equal. destruct l, r, sp; cbn; rewrite ?app_nil_r; done.
Qed.

(** ** Plans and the states made from them *)
Definition walks_members (t : plan_tag) : bool :=
  match t with T_ModifyTable | T_Append | T_BitmapAnd | T_BitmapOr => true | _ => false end.

(** The nodes that the walk comes to, a node before its children: all but the
    inputs of a merge append and of a custom scan, and what is below them. *)
Fixpoint walked_nodes ps : list PlanState :=
  ps :: flat_map (fun x => walked_nodes x.2) (ps_initPlan ps)
     ++ match ps_lefttree ps with Some s => walked_nodes s | None => [] end
     ++ match ps_righttree ps with Some s => walked_nodes s | None => [] end
     ++ (if walks_members (ps_tag ps) then flat_map walked_nodes (ps_members ps) else [])
     ++ (if bool_decide (ps_tag ps = T_SubqueryScan) then match ps_subplan ps with Some s => walked_nodes s | None => [] end else [])
     ++ flat_map (fun x => walked_nodes x.2) (ps_subPlan ps).

Lemma walked_nodes_parts ps : walked_nodes ps =
  [ps] ++ flat_map (fun x => walked_nodes x.2) (ps_initPlan ps)
     ++ match ps_lefttree ps with Some s => walked_nodes s | None => [] end
     ++ match ps_righttree ps with Some s => walked_nodes s | None => [] end
     ++ (if walks_members (ps_tag ps) then flat_map walked_nodes (ps_members ps) else [])
     ++ (if bool_decide (ps_tag ps = T_SubqueryScan) then match ps_subplan ps with Some s => walked_nodes s | None => [] end else [])
     ++ flat_map (fun x => walked_nodes x.2) (ps_subPlan ps).
Proof. by destruct ps. Qed.

(** The nodes of the executor whose state begins with a [ScanState] (execnodes.h),
    and those of them that the walk leaves out. *)
Definition scan_tags : list plan_tag :=
  [T_SeqScan; T_SampleScan; T_IndexScan; T_IndexOnlyScan; T_BitmapIndexScan; T_BitmapHeapScan; T_TidScan; T_SubqueryScan;
   T_FunctionScan; T_ValuesScan; T_CteScan; T_WorkTableScan; T_ForeignScan; T_CustomScan].
Definition left_out : list plan_tag := [T_SampleScan; T_IndexOnlyScan; T_BitmapIndexScan; T_ForeignScan; T_CustomScan].

(** A scan that the walk returns: an index scan must not wait for run-time keys. *)
Definition scan_node ps : Prop :=
  ps_tag ps ∈ scan_tags /\ ps_tag ps ∉ left_out /\
  ~ (ps_tag ps = T_IndexScan /\ iss_NumRuntimeKeys ps <> 0 /\ iss_RuntimeKeysReady ps = false).
#[export] Instance scan_node_dec ps : Decision (scan_node ps).
Proof. unfold scan_node. apply _. Defined.

Lemma getProperScanState_spec ps : getProperScanState ps = if decide (scan_node ps) then Some ps else None.
Proof.
  assert (Hyes : scan_node ps -> getProperScanState ps = Some ps).
  { unfold scan_node, getProperScanState, scan_tags, left_out. intros (H1 & H2 & H3).
    destruct (ps_tag ps); try done; try (exfalso; clear H2 H3; set_solver); try (exfalso; apply H2; clear; set_solver).
    destruct (Z.eqb_spec (iss_NumRuntimeKeys ps) 0), (iss_RuntimeKeysReady ps); cbn; try done. exfalso. by apply H3. }
  assert (Hno : getProperScanState ps <> None -> scan_node ps).
  { unfold scan_node, getProperScanState, scan_tags, left_out.
    destruct (ps_tag ps); intros H; try done; (split_and!; [set_solver|set_solver|]); try (by intros (? & _)).
    intros (_ & H1 & H2). apply H. rewrite H2, (proj2 (Z.eqb_neq _ _) H1). done. }
  destruct (decide (scan_node ps)) as [Hs|Hs]; [by apply Hyes|].
  destruct (getProperScanState ps) eqn:E; [|done]. exfalso. by apply Hs, Hno.
Qed.

Lemma scans_found (l : list PlanState) : omap getProperScanState l = filter scan_node l.
Proof.
  induction l as [|x l IH]; [done|]. cbn [omap list_omap]. rewrite filter_cons, getProperScanState_spec, <- IH.
  by destruct (decide (scan_node x)).
Qed.

(** Reporting columns. *)
Definition reports (d d' : qd_state) : Prop :=
  rtc (fun d d' => exists gives c t s ca wr, addColumnInformation gives d c t s ca wr = Ok d') d d'.

Lemma reports_steps d d' : reports d d' -> rtc qd_step d d'.
Proof. apply rtc_congruence with (f := id). intros x y (gives & c & t & s & ca & wr & E). by eapply step_column. Qed.

Lemma report_keeps gives d d' c t s ca wr : addColumnInformation gives d c t s ca wr = Ok d' -> isInitialized d = true ->
  isInitialized d' = true /\ getQueryLimit d' = getQueryLimit d.
Proof.
  unfold addColumnInformation, initialized. intros E Hi. rewrite Hi in E. cbn [mbind result_bind] in E.
  apply bind_Ok in E as (q & E1 & E). apply bind_Ok in E as (f & _ & E). apply bind_Ok in E as (q' & E2 & [= <-]).
  assert (limit q = limit (NoDBQueryDesc d)) as Hq.
  { unfold insert_by_status in E1. destruct (PSStatus d); inv_ok; done. }
  split; [done|]. unfold getQueryLimit. cbn. rewrite <- Hq. destruct f; inv_ok; done.
Qed.

Lemma reports_keep d d' : reports d d' -> isInitialized d = true -> isInitialized d' = true /\ getQueryLimit d' = getQueryLimit d.
Proof.
  induction 1 as [d|d d1 d' (gives & c & t & s & ca & wr & E) _ IH]; [done|]. intros Hi.
  destruct (report_keeps _ _ _ _ _ _ _ _ E Hi) as [H1 H2]. destruct (IH H1) as [H3 H4]. split; [done|congruence].
Qed.

Section walk.
Context (deparse_expression : Z -> Z -> list Z -> qd_state -> result qd_state).
Context (ExecEvalExpr : Z -> option Z) (subplans : list Plan).

(** The states of a plan: a node has the type of its plan, and its children are
    states of the children of the plan. A LIMIT has an input. Nothing is said of the
    inputs of a merge append and of a custom scan. *)
Inductive matches : PlanState -> Plan -> Prop :=
  | match_node ps plan :
      ps_tag ps = p_tag plan ->
      (p_initPlan plan = false -> ps_initPlan ps = []) ->
      Forall (fun x => exists p, exec_subplan_get_plan subplans x.1 = Ok p /\ matches x.2 p) (ps_initPlan ps) ->
      option_Forall2 matches (ps_lefttree ps) (p_lefttree plan) ->
      option_Forall2 matches (ps_righttree ps) (p_righttree plan) ->
      (p_tag plan = T_Limit -> p_lefttree plan <> None) ->
      (walks_members (p_tag plan) = true -> Forall2 matches (ps_members ps) (p_members plan)) ->
      (p_tag plan = T_SubqueryScan -> exists s p, ps_subplan ps = Some s /\ p_subplan plan = Some p /\ matches s p) ->
      Forall (fun x => exists p, exec_subplan_get_plan subplans x.1 = Ok p /\ matches x.2 p) (ps_subPlan ps) ->
      matches ps plan.

(** The limit that a node gives the query: a LIMIT over a scan. *)
Definition query_limit ps : option Z :=
  match ps_tag ps, ps_lefttree ps, ps_righttree ps with
  | T_Limit, Some l, None =>
      if bool_decide (ps_tag l = T_SeqScan) then
        match limit_count ExecEvalExpr ps with Ok c => Some c.1 | Fail _ => None end
      else None
  | _, _, _ => None
  end.

(** A LIMIT node has its state. *)
Definition limit_fine st ps : Prop := ps_tag ps = T_Limit -> is_Some (pt_limits st !! ps_node ps).

Definition live st (l : list_ptr) : Prop := match l with None => True | Some h => is_Some (pt_lists st !! h) end.

(** From [st] to [st'], with the limits [ls] one after the other. *)
Record walk_step st st' (ls : list Z) : Prop := {
  wk_lists : forall h, is_Some (pt_lists st !! h) -> is_Some (pt_lists st' !! h);
  wk_limits : forall n, is_Some (pt_limits st !! n) -> is_Some (pt_limits st' !! n);
  wk_desc : rtc qd_step qd_start (pt_desc st) -> rtc qd_step qd_start (pt_desc st');
  wk_init : isInitialized (pt_desc st') = true;
  wk_limit : getQueryLimit (pt_desc st') = default (getQueryLimit (pt_desc st)) (last ls) }.

Lemma walk_step_refl st : isInitialized (pt_desc st) = true -> walk_step st st [].
Proof. by split. Qed.

Lemma walk_step_trans st1 st2 st3 l1 l2 : walk_step st1 st2 l1 -> walk_step st2 st3 l2 -> walk_step st1 st3 (l1 ++ l2).
Proof.
  intros [A1 A2 A3 A4 A5] [B1 B2 B3 B4 B5]. split; auto. rewrite B5, A5. rewrite last_app. by destruct (last l2).
Qed.

Lemma walk_step_live st st' ls l : walk_step st st' ls -> live st l -> live st' l.
Proof. intros H. destruct l as [h|]; [|done]. apply (wk_lists _ _ _ H). Qed.

Lemma walk_step_fine st st' ls l : walk_step st st' ls -> Forall (limit_fine st) l -> Forall (limit_fine st') l.
Proof.
  intros H Hl. eapply Forall_impl; [exact Hl|]. intros ps Hf Ht. by apply (wk_limits _ _ _ H), Hf.
Qed.

(** The errors that a walk over [ns] may end with: printing the filter of a node
    failed, or its OFFSET or LIMIT is negative. *)
Definition walk_error (ns : list PlanState) (e : err) : Prop := exists n, n ∈ ns /\
  ((exists q anc d, deparse_expression q (ps_node n) anc d = Fail e) \/
   limit_offset ExecEvalExpr n = Fail e \/ limit_count ExecEvalExpr n = Fail e).

(** [P] holds of the result, or the walk over [ns] ended with one of these errors. *)
Definition post {A} (ns : list PlanState) (r : result A) (P : A -> Prop) : Prop :=
  match r with Ok a => P a | Fail e => walk_error ns e end.

Lemma post_bind {A B} ns1 ns (r : result A) (f : A -> result B) (P : A -> Prop) (Q : B -> Prop) :
  post ns1 r P -> (forall n, n ∈ ns1 -> n ∈ ns) -> (forall a, P a -> post ns (f a) Q) -> post ns (x ← r; f x) Q.
Proof.
  intros Hr Hs Hf. destruct r as [a|e]; cbn in *; [by apply Hf|]. destruct Hr as (n & Hn & He). exists n. by split; [apply Hs|].
Qed.

(** A walk from [st] found the scans of [ns]. *)
Definition found st (x : walked) (ns : list PlanState) : Prop :=
  x.2 = omap getProperScanState ns /\ walk_step st x.1.1 (omap query_limit ns) /\ live x.1.1 x.1.2.
Definition walks st (r : result (pt_state * list PlanState)) (ns : list PlanState) : Prop :=
  post ns r (fun x => x.2 = omap getProperScanState ns /\ walk_step st x.1 (omap query_limit ns)).

Lemma walks_app st r1 r2 ns1 ns2 : walks st r1 ns1 -> (forall st1, walk_step st st1 (omap query_limit ns1) -> walks st1 (r2 st1) ns2) ->
  walks st (x ← r1; y ← r2 x.1; Ok (y.1, x.2 ++ y.2)) (ns1 ++ ns2).
Proof.
  intros H1 H2. eapply post_bind; [exact H1|set_solver|]. intros [st1 l1] [-> Hs1]. cbn [fst snd] in *.
  eapply post_bind; [apply (H2 st1 Hs1)|set_solver|]. intros [st2 l2] [-> Hs2]. cbn [post fst snd] in *.
  rewrite !omap_app. split; [done|]. by eapply walk_step_trans.
Qed.

Definition ready st (anc : list_ptr) : Prop :=
  live st anc /\ isInitialized (pt_desc st) = true /\ rtc qd_step qd_start (pt_desc st).

Lemma walk_step_ready st st' ls anc : walk_step st st' ls -> ready st anc -> ready st' anc.
Proof. intros H (H1 & H2 & H3). split_and!; [by eapply walk_step_live|apply H|by apply H]. Qed.

(** The scans of [ns] are found, and the walk can go on. *)
Definition so_far st (ns : list PlanState) (x : walked) : Prop := found st x ns /\ ready x.1.1 x.1.2.

Lemma visit_step st x ns walk ns' : so_far st ns x -> walks x.1.1 (walk x.1.2 x.1.1) ns' ->
  post ns' (visit walk x) (so_far st (ns ++ ns')).
Proof.
  intros [(H1 & H2 & H3) Hr] Hw. unfold visit. eapply post_bind; [exact Hw|done|]. intros [st' l] [-> Hs]. cbn [fst snd post] in *.
  split; [|by eapply walk_step_ready]. unfold found. cbn [fst snd]. rewrite H1, !omap_app. split_and!; [done| |].
  - by eapply walk_step_trans.
  - by eapply walk_step_live.
Qed.

Lemma push_step st x ns ps : so_far st ns x -> exists y, push ps x = Ok y /\ so_far st ns y.
Proof.
  intros [(H1 & H2 & H3) (Hl & Hi & Hr)]. unfold push, lcons. destruct x as [[st1 l] fs]. cbn [fst snd] in *.
  assert (Hw : forall h xs nx, walk_step st (pt_set_lists st1 (<[h := xs]> (pt_lists st1)) nx) (omap query_limit ns)).
  { intros h xs nx. destruct H2 as [A1 A2 A3 A4 A5]. split; try done. intros h' Hh'%A1. cbn.
    destruct (decide (h = h')) as [->|]; [rewrite lookup_insert_eq; by eexists|by rewrite lookup_insert_ne]. }
  assert (Hn : forall h xs nx, live (pt_set_lists st1 (<[h := xs]> (pt_lists st1)) nx) (Some h)).
  { intros h xs nx. cbn. rewrite lookup_insert_eq. by eexists. }
  destruct l as [h|].
  - unfold get_list. destruct H3 as [xs ->]. cbn [mbind result_bind fst snd]. eexists. split; [done|].
    split; split_and!; try done; [apply Hw|apply Hn..].
  - cbn [mbind result_bind fst snd]. eexists. split; [done|]. split; split_and!; try done; [apply Hw|apply Hn..].
Qed.

(** What [deparse_expression] does to the query descriptor, when it returns, is to
    report columns. *)
Definition deparse_reports : Prop := forall q n anc d d', rtc qd_step qd_start d ->
  deparse_expression q n anc d = Ok d' -> reports d d'.

Lemma status_step d s : rtc qd_step qd_start d -> rtc qd_step qd_start (changeParseStatus d s).
Proof. intros H. eapply rtc_r; [exact H|apply step_status]. Qed.

Lemma scan_qual_ok plan ps anc st : deparse_reports -> ready st anc ->
  post [ps] (scan_qual deparse_expression plan ps anc st) (fun st' => walk_step st st' []).
Proof.
  intros Hdp (Hl & Hi & Hr). unfold scan_qual. destruct (p_qual plan) as [q|]; [|by apply walk_step_refl].
  assert (exists xs, list_contents st anc = Ok xs) as [xs ->].
  { destruct anc as [h|]; [|by eexists]. destruct Hl as [xs E]. cbn. unfold get_list. rewrite E. by eexists. }
  cbn [mbind result_bind]. pose proof (status_step _ PS_filterList Hr) as Hr'.
  destruct (deparse_expression q (ps_node ps) xs _) as [d|e] eqn:Ed; cbn [mbind result_bind post].
  - pose proof (Hdp _ _ _ _ _ Hr' Ed) as Hd. destruct (reports_keep _ _ Hd Hi) as [H1 H2]. split; try done.
    intros _. cbn. apply status_step. etrans; [exact Hr'|]. by apply reports_steps.
  - exists ps. split; [by left|]. left. by eexists _, _, _.
Qed.

Lemma scan_limit_ok ps st l : limit_fine st ps -> ps_tag ps = T_Limit -> ps_lefttree ps = Some l -> ps_tag l = T_SeqScan ->
  isInitialized (pt_desc st) = true ->
  post [ps] (scan_limit ExecEvalExpr ps st) (fun st' => exists c, limit_count ExecEvalExpr ps = Ok c /\ walk_step st st' [c.1]).
Proof.
  intros Hf Ht El Hl Hi. destruct (Hf Ht) as [y Ey]. unfold scan_limit, recompute_limits.
  assert (get_limit st (ps_node ps) = Ok y) as -> by (unfold get_limit; by rewrite Ey). cbn [mbind result_bind].
  assert (Herr : forall e, limit_offset ExecEvalExpr ps = Fail e \/ limit_count ExecEvalExpr ps = Fail e -> walk_error [ps] e).
  { intros e He. exists ps. split; [by left|by right]. }
  destruct (limit_offset ExecEvalExpr ps) as [o|e]; cbn [mbind result_bind post]; [|apply Herr; by left].
  destruct (limit_count ExecEvalExpr ps) as [c|e]; cbn [mbind result_bind post]; [|apply Herr; by right].
  rewrite El. unfold bound_sort. rewrite Hl, bool_decide_eq_false_2 by done. cbn [mbind result_bind].
  unfold get_limit. cbn [pt_set_limits pt_limits]. rewrite lookup_insert_eq. cbn [mbind result_bind post]. exists c. split; [done|].
  split; try done.
  - intros n Hn. cbn. destruct (decide (n = ps_node ps)) as [->|]; [rewrite lookup_insert_eq; by eexists|by rewrite lookup_insert_ne].
  - intros H. cbn. eapply rtc_r; [exact H|apply step_limit].
Qed.

Lemma matches_tag ps plan : matches ps plan -> ps_tag ps = p_tag plan.
Proof. by intros []. Qed.

Lemma visit_node_ok plan ps anc st : deparse_reports -> matches ps plan -> limit_fine st ps -> ready st anc ->
  walks st (visit_node deparse_expression ExecEvalExpr plan ps anc st) [ps].
Proof.
  intros Hdp Hm Hf Hr. pose proof (matches_tag _ _ Hm) as Ht. pose proof (walk_step_refl st (proj1 (proj2 Hr))) as Hrefl. unfold walks.
  assert (Hs : omap getProperScanState [ps] = option_list (getProperScanState ps)) by (cbn; by destruct (getProperScanState ps)).
  rewrite Hs. unfold visit_node.
  assert (Hq : ps_tag ps <> T_Limit -> omap query_limit [ps] = []).
  { intros Hn. cbn. unfold query_limit. destruct (ps_tag ps); done. }
  rewrite <- Ht.
  destruct (ps_tag ps) eqn:Et; try (rewrite Hq by done);
    try (eapply post_bind; [by apply scan_qual_ok|done|]; by intros st' Hst');
    try (split; [unfold getProperScanState; by rewrite Et|done]).
  inversion Hm as [? ? _ _ _ Hlt Hrt Hlim _ _ _ E1 E2]. subst. rewrite <- Ht in Hlim. specialize (Hlim eq_refl). unfold limit_node, over_scan.
  destruct (p_lefttree plan) as [lp|] eqn:Elp; [|done]. inversion Hlt as [ls ? Hml E3 E4|]; subst. symmetry in E3.
  cbn [mbind result_bind]. unfold getProperScanState. rewrite Et.
  cbn [omap list_omap]. unfold query_limit. rewrite Et, E3, <- (matches_tag _ _ Hml).
  destruct (p_righttree plan) as [rp|]; inversion Hrt as [rs ? _ E5 E6|E5]; subst; [by split|].
  cbn [mbind result_bind]. case_bool_decide as Eseq; [|by split].
  eapply post_bind; [by apply (scan_limit_ok ps st ls); try apply Hr|done|]. intros st' (c & -> & Hst'). by split.
Qed.

Abbreviation traverse := (traversePlanTree deparse_expression ExecEvalExpr subplans).

Lemma traverse_eq ps plan anc st : traverse ps plan anc st =
  (n ← visit_node deparse_expression ExecEvalExpr plan ps anc st;
   x ← visit_subplans subplans traverse ps (p_initPlan plan) (ps_initPlan ps) (n.1, anc, n.2);
   x ← visit_tree traverse ps (p_lefttree plan) (ps_lefttree ps) x;
   x ← visit_tree traverse ps (p_righttree plan) (ps_righttree ps) x;
   x ← visit_special traverse ps plan x;
   x ← visit_subplans subplans traverse ps (non_nil (ps_subPlan ps)) (ps_subPlan ps) x;
   Ok (x.1.1, x.2)).
Proof. by destruct ps. Qed.

(** The walk over a tree finds its scans, and takes the limits over. *)
Definition tree_walks ps : Prop := forall plan anc st, matches ps plan -> Forall (limit_fine st) (walked_nodes ps) -> ready st anc ->
  walks st (traverse ps plan anc st) (walked_nodes ps).

Lemma walks_nil st : isInitialized (pt_desc st) = true -> walks st (Ok (st, [])) [].
Proof. intros Hi. split; [done|]. by apply walk_step_refl. Qed.

Lemma subplans_walk l : Forall tree_walks l.*2 -> forall anc st,
  Forall (fun x => exists p, exec_subplan_get_plan subplans x.1 = Ok p /\ matches x.2 p) l ->
  Forall (limit_fine st) (flat_map (fun x => walked_nodes x.2) l) -> ready st anc ->
  walks st (traverseSubPlans subplans traverse l anc st) (flat_map (fun x => walked_nodes x.2) l).
Proof.
  induction l as [|x l IH]; intros Hw anc st Hm Hf Hr; cbn [traverseSubPlans flat_map]; [apply walks_nil, Hr|].
  apply Forall_cons in Hm as [(p & Ep & Hp) Hm]. cbn in Hw. apply Forall_cons in Hw as [Hx Hw]. cbn [flat_map] in Hf. apply Forall_app in Hf as [Hf1 Hf2].
  fold (traverseSubPlans subplans traverse). rewrite Ep. cbn [mbind result_bind].
  apply (walks_app _ (traverse x.2 p anc st) (fun st1 => traverseSubPlans subplans traverse l anc st1)); [by apply Hx|].
  intros st1 H1. apply IH; [done|done|by eapply walk_step_fine|by eapply walk_step_ready].
Qed.

Lemma members_walk l : Forall tree_walks l -> forall plans anc st, Forall2 matches l plans ->
  Forall (limit_fine st) (flat_map walked_nodes l) -> ready st anc ->
  walks st (traverseMemberNodes traverse l plans anc st) (flat_map walked_nodes l).
Proof.
  induction l as [|x l IH]; intros Hw plans anc st Hm Hf Hr; inversion Hm as [|? p ? plans' Hp Hm']; subst; cbn [traverseMemberNodes flat_map];
    [apply walks_nil, Hr|]. fold (traverseMemberNodes traverse).
  apply Forall_cons in Hw as [Hx Hw]. cbn [flat_map] in Hf. apply Forall_app in Hf as [Hf1 Hf2].
  apply (walks_app _ (traverse x p anc st) (fun st1 => traverseMemberNodes traverse l plans' anc st1)); [by apply Hx|].
  intros st1 H1. apply IH; [done|done|by eapply walk_step_fine|by eapply walk_step_ready].
Qed.

Lemma so_far_fine st x ns l : so_far st ns x -> Forall (limit_fine st) l -> Forall (limit_fine x.1.1) l.
Proof. intros [(_ & H & _) _]. by eapply walk_step_fine. Qed.

Lemma so_far_same st ns x : so_far st ns x -> so_far st (ns ++ []) x.
Proof. by rewrite app_nil_r. Qed.

(** The parts of a node, one after the other. *)
Lemma visit_tree_step st x ns ps tree state : so_far st ns x -> option_Forall2 matches state tree ->
  (forall s, state = Some s -> tree_walks s) ->
  let nodes := match state with Some s => walked_nodes s | None => [] end in
  Forall (limit_fine st) nodes -> post nodes (visit_tree traverse ps tree state x) (so_far st (ns ++ nodes)).
Proof.
  intros Hx Hm Hw nodes Hf. unfold visit_tree. inversion Hm as [s p Hsp E1 E2|E1 E2]; subst; [|by apply so_far_same].
  destruct (push_step st x ns ps Hx) as (y & -> & Hy). cbn [mbind result_bind].
  apply visit_step; [done|]. apply Hw; [done|done|by eapply so_far_fine|apply Hy].
Qed.

Lemma Forall_option_list {A} (P : A -> Prop) o x : Forall P (option_list o) -> o = Some x -> P x.
Proof. intros H ->. by apply Forall_cons in H as [? _]. Qed.

Lemma visit_subplans_step st x ns ps some l : so_far st ns x -> (some = false -> l = []) ->
  Forall (fun x => exists p, exec_subplan_get_plan subplans x.1 = Ok p /\ matches x.2 p) l -> Forall tree_walks l.*2 ->
  let nodes := flat_map (fun x => walked_nodes x.2) l in
  Forall (limit_fine st) nodes -> post nodes (visit_subplans subplans traverse ps some l x) (so_far st (ns ++ nodes)).
Proof.
  intros Hx Hnil Hm Hw nodes Hf. unfold visit_subplans. destruct some.
  - destruct (push_step st x _ ps Hx) as (y & -> & Hy). cbn [mbind result_bind]. apply visit_step; [done|].
    apply subplans_walk; [done|done|by eapply so_far_fine|apply Hy].
  - unfold nodes. rewrite Hnil by done. by apply so_far_same.
Qed.

Lemma visit_special_step st x ns ps plan : so_far st ns x -> matches ps plan ->
  Forall tree_walks (ps_members ps) -> Forall tree_walks (option_list (ps_subplan ps)) ->
  let members := if walks_members (ps_tag ps) then flat_map walked_nodes (ps_members ps) else [] in
  let sub := if bool_decide (ps_tag ps = T_SubqueryScan) then match ps_subplan ps with Some s => walked_nodes s | None => [] end else [] in
  Forall (limit_fine st) members -> Forall (limit_fine st) sub ->
  post (members ++ sub) (visit_special traverse ps plan x) (so_far st (ns ++ members ++ sub)).
Proof.
  intros Hx Hm Hw1 Hw2. inversion Hm as [? ? Ht _ _ _ _ _ Hmem Hsub _]; subst. rewrite Ht. unfold visit_special.
  destruct (walks_members (p_tag plan)) eqn:Ew; [|destruct (decide (p_tag plan = T_SubqueryScan)) as [Es|Es]]; cbv zeta.
  - rewrite bool_decide_eq_false_2 by (intros E; by rewrite E in Ew). rewrite app_nil_r. intros Hf _.
    assert (Hv : post (flat_map walked_nodes (ps_members ps)) (visit (traverseMemberNodes traverse (ps_members ps) (p_members plan)) x)
      (so_far st (ns ++ flat_map walked_nodes (ps_members ps)))).
    { apply visit_step; [done|]. apply members_walk; [done|by apply Hmem|by eapply so_far_fine|apply Hx]. }
    destruct (p_tag plan); done.
  - destruct (Hsub Es) as (s & p & E1 & E2 & Hsm). rewrite Es, bool_decide_eq_true_2, E1, E2 by done. rewrite app_nil_l. intros _ Hf.
    rewrite E1 in Hw2. apply visit_step; [done|].
    apply (Forall_option_list _ _ s Hw2 eq_refl); [done|by eapply so_far_fine|apply Hx].
  - rewrite bool_decide_eq_false_2 by done. intros _ _. destruct (p_tag plan); try done; by apply so_far_same.
Qed.

Lemma non_nil_false {A} (l : list A) : non_nil l = false -> l = [].
Proof. by destruct l. Qed.

Lemma traverse_walks : deparse_reports -> forall ps, tree_walks ps.
Proof.
  intros Hdp. apply PlanState_children_ind. intros ps Hch plan anc st Hm Hf Hr.
  inversion Hm as [? ? _ Hnil Hip Hl Hrt _ _ _ Hsp]; subst. unfold children in Hch. rewrite !Forall_app in Hch.
  destruct Hch as (C1 & C2 & C3 & C4 & C5 & C6). rewrite walked_nodes_parts in Hf |- *.
  rewrite !Forall_app in Hf. destruct Hf as (F0 & F1 & F2 & F3 & F4 & F5 & F6). rewrite traverse_eq.
  eapply post_bind; [apply (visit_node_ok plan ps anc st Hdp Hm); [by apply Forall_cons in F0 as [? _]|done]|intros ?; rewrite !elem_of_app; tauto|].
  intros [st1 found0] [-> H1]. cbn [fst snd] in H1 |- *. set (x0 := (st1, anc, omap getProperScanState [ps]) : walked).
  assert (A0 : so_far st [ps] x0).
  { split; [split_and!; [done..|]|by eapply walk_step_ready]. eapply walk_step_live; [done|apply Hr]. }
  eapply post_bind; [by apply (visit_subplans_step st x0 _ ps _ _ A0 Hnil Hip C1)|intros ?; rewrite !elem_of_app; tauto|]. intros x1 A1.
  eapply post_bind; [by apply (visit_tree_step st x1 _ ps _ _ A1 Hl); [intros s; apply Forall_option_list|]|intros ?; rewrite !elem_of_app; tauto|]. intros x2 A2.
  eapply post_bind; [by apply (visit_tree_step st x2 _ ps _ _ A2 Hrt); [intros s; apply Forall_option_list|]|intros ?; rewrite !elem_of_app; tauto|]. intros x3 A3.
  eapply post_bind; [by apply (visit_special_step st x3 _ ps plan A3 Hm C4 C5)|intros ?; rewrite !elem_of_app; tauto|]. intros x4 A4.
  eapply post_bind; [by apply (visit_subplans_step st x4 _ ps _ _ A4 (non_nil_false _) Hsp C6)|intros ?; rewrite !elem_of_app; tauto|]. intros x5 A5.
  rewrite <- !app_assoc in A5. destruct A5 as [(E & Hs & _) _]. by split.
Qed.

(** Without a merge append and a custom scan the walk comes to all nodes. *)
Definition plain_node_shape ps : Prop :=
  (walks_members (ps_tag ps) = false -> ps_members ps = []) /\ (ps_tag ps <> T_SubqueryScan -> ps_subplan ps = None).

Lemma walked_all : forall ps, Forall plain_node_shape (all_nodes ps) -> walked_nodes ps = all_nodes ps.
Proof.
  apply (PlanState_children_ind (fun ps => Forall plain_node_shape (all_nodes ps) -> walked_nodes ps = all_nodes ps)).
  intros ps Hch Hs. unfold children in Hch. rewrite !Forall_app in Hch.
  destruct Hch as (C1 & C2 & C3 & C4 & C5 & C6). rewrite all_nodes_parts in Hs |- *. rewrite walked_nodes_parts.
  rewrite !Forall_app in Hs. destruct Hs as (F0 & F1 & F2 & F3 & F4 & F5 & F6). apply Forall_cons in F0 as [[Hm Hsub] _].
  set (P := plain_node_shape) in *.
  assert (Hl : forall l : list (Z * PlanState), Forall (fun x => Forall P (all_nodes x) -> walked_nodes x = all_nodes x) l.*2 ->
    Forall P (flat_map (fun x => all_nodes x.2) l) -> flat_map (fun x => walked_nodes x.2) l = flat_map (fun x => all_nodes x.2) l).
  { induction l as [|x l IH]; [done|]. cbn. intros [H1 H2]%Forall_cons [H3 H4]%Forall_app. by rewrite H1, IH. }
  assert (Hmem : forall l, Forall (fun x => Forall P (all_nodes x) -> walked_nodes x = all_nodes x) l ->
    Forall P (flat_map all_nodes l) -> flat_map walked_nodes l = flat_map all_nodes l).
  { induction l as [|x l IH]; [done|]. cbn. intros [H1 H2]%Forall_cons [H3 H4]%Forall_app. by rewrite H1, IH. }
  assert (Ho : forall o, Forall (fun x => Forall P (all_nodes x) -> walked_nodes x = all_nodes x) (option_list o) ->
    Forall P match o with Some s => all_nodes s | None => [] end ->
    match o with Some s => walked_nodes s | None => [] end = match o with Some s => all_nodes s | None => [] end).
  { intros [x|]; [|done]. cbn. intros [H1 _]%Forall_cons H2. by apply H1. }
  rewrite (Hl _ C1 F1), (Ho _ C2 F2), (Ho _ C3 F3), (Hl _ C6 F6), (Hmem _ C4 F4), (Ho _ C5 F5). do 4 f_equal.
  destruct (walks_members (ps_tag ps)); [|rewrite Hm by done; cbn [flat_map]]; f_equal; case_bool_decide; try done; by rewrite Hsub.
Qed.
End walk.

(** ** The relations in use *)

(** The relations that a node scans or writes. *)
Definition node_rels plan : list Z :=
  match p_tag plan with
  | T_SeqScan | T_SampleScan | T_IndexScan | T_IndexOnlyScan | T_BitmapHeapScan | T_TidScan | T_SubqueryScan
  | T_FunctionScan | T_ValuesScan | T_CteScan | T_WorkTableScan => [scanrelid plan]
  | T_ForeignScan | T_CustomScan => relids plan
  | T_ModifyTable => nominalRelation plan :: (if exclRelRTI plan =? 0 then [] else [exclRelRTI plan])
  | _ => []
  end.

(** The children of the node are those that its type has, and its relations have
    numbers. *)
Record node_shape ps : Prop := {
  nh_rels : Forall (fun x => 0 <= x) (node_rels (ps_plan ps));
  nh_members : match p_tag (ps_plan ps) with
    | T_ModifyTable | T_Append | T_MergeAppend | T_BitmapAnd | T_BitmapOr => length (p_members (ps_plan ps)) = length (ps_members ps)
    | T_CustomScan => True
    | _ => ps_members ps = []
    end;
  nh_subplan : is_Some (ps_subplan ps) <-> p_tag (ps_plan ps) = T_SubqueryScan }.

Definition rels_in (l : list PlanState) : gset Z := list_to_set (flat_map (fun n => node_rels (ps_plan n)) l).

Lemma rels_in_app l1 l2 : rels_in (l1 ++ l2) = rels_in l1 ∪ rels_in l2.
Proof. unfold rels_in. by rewrite flat_map_app, list_to_set_app_L. Qed.

Lemma rels_of_spec plan used : Forall (fun x => 0 <= x) (node_rels plan) -> rels_of plan used = Ok (used ∪ list_to_set (node_rels plan)).
Proof.
  unfold node_rels, rels_of, bms_add_members, bms_add_member. intros H.
  destruct (p_tag plan); try (f_equal; set_solver).
  all: apply Forall_cons in H as [H0 H1]; rewrite (proj2 (Z.ltb_ge _ _) H0); try (clear; f_equal; set_solver).
  cbn [mbind result_bind]. destruct (exclRelRTI plan =? 0); [clear; f_equal; set_solver|]. apply Forall_cons in H1 as [H2 _].
  rewrite (proj2 (Z.ltb_ge _ _) H2). f_equal. clear. set_solver.
Qed.

Definition collects ps : Prop := Forall node_shape (all_nodes ps) ->
  forall used, ExplainPreScanNode ps used = Ok (used ∪ rels_in (all_nodes ps), false).

Lemma walk_list_collects {A} (f : A -> PlanState) l : Forall (fun x => collects (f x)) l -> Forall node_shape (flat_map (fun x => all_nodes (f x)) l) ->
  forall used, walk_list (fun x => ExplainPreScanNode (f x)) l used = Ok (used ∪ rels_in (flat_map (fun x => all_nodes (f x)) l), false).
Proof.
  induction l as [|x l IH]; intros Hc Hs used; cbn [walk_list flat_map]; [unfold rels_in; cbn; f_equal; f_equal; set_solver|].
  apply Forall_cons in Hc as [Hx Hc]. cbn [flat_map] in Hs. apply Forall_app in Hs as [H1 H2]. rewrite Hx by done. cbn [mbind result_bind fst snd].
  fold (walk_list (fun x => ExplainPreScanNode (f x))). rewrite IH by done. rewrite rels_in_app. f_equal. f_equal. set_solver.
Qed.

Lemma walk_members_list {C} walker l plans (c : C) : length plans = length l -> walk_members walker l plans c = walk_list walker l c.
Proof.
  revert plans c. induction l as [|x l IH]; intros [|p plans] c H; try done. cbn. destruct (walker x c) as [[c1 []]|]; try done. apply IH. by injection H.
Qed.

Lemma walk_opt_collects o used : (forall s, o = Some s -> collects s) ->
  let nodes := match o with Some s => all_nodes s | None => [] end in
  Forall node_shape nodes -> walk_opt ExplainPreScanNode o used = Ok (used ∪ rels_in nodes, false).
Proof.
  intros Hc nodes Hs. destruct o as [s|]; cbn; [by apply Hc|]. unfold rels_in. cbn. f_equal. f_equal. set_solver.
Qed.

Lemma ExplainPreScanNode_collects : forall ps, collects ps.
Proof.
  apply PlanState_children_ind. intros ps Hch Hs used. unfold children in Hch. rewrite !Forall_app in Hch.
  destruct Hch as (C1 & C2 & C3 & C4 & C5 & C6). rewrite all_nodes_parts in Hs |- *. rewrite !Forall_app in Hs.
  destruct Hs as (F0 & F1 & F2 & F3 & F4 & F5 & F6). apply Forall_cons in F0 as [[Hr Hm Hsub] _].
  assert (Heq : ExplainPreScanNode ps used = (u ← rels_of (ps_plan ps) used; planstate_tree_walker ExplainPreScanNode ps u)) by (by destruct ps).
  rewrite Heq, rels_of_spec by done. cbn [mbind result_bind]. unfold planstate_tree_walker, and_then.
  rewrite !Forall_fmap in C1, C6.
  rewrite (walk_list_collects snd) by done. cbn [mbind result_bind fst snd].
  rewrite walk_opt_collects by (done || by intros s; apply Forall_option_list). cbn [mbind result_bind fst snd].
  rewrite walk_opt_collects by (done || by intros s; apply Forall_option_list). cbn [mbind result_bind fst snd].
  set (u := _ ∪ rels_in match ps_righttree ps with Some s => all_nodes s | None => [] end).
  match goal with |- context [mbind _ ?X] => assert (Esp : X = Ok (u ∪ rels_in (flat_map all_nodes (ps_members ps))
    ∪ rels_in match ps_subplan ps with Some s => all_nodes s | None => [] end, false)) end.
  { assert (Hwl := walk_list_collects (fun x => x) (ps_members ps) C4 F4). cbn beta in Hwl.
    destruct (ps_subplan ps) as [s|] eqn:Es.
    - assert (Et : p_tag (ps_plan ps) = T_SubqueryScan) by (apply Hsub; by eexists). rewrite Et in Hm |- *. rewrite Hm.
      rewrite (Forall_option_list _ _ s C5 eq_refl) by done. unfold rels_in at 3. cbn. f_equal. f_equal. set_solver.
    - assert (Hn : p_tag (ps_plan ps) <> T_SubqueryScan) by (intros E; apply Hsub in E as [? ?]; done).
      assert (Hnone : ps_members ps = [] -> Ok (u, false) = Ok (u ∪ rels_in (flat_map all_nodes (ps_members ps)) ∪ rels_in [], false)).
      { intros ->. unfold rels_in. cbn. f_equal. f_equal. set_solver. }
      assert (Hsome : Ok (u ∪ rels_in (flat_map all_nodes (ps_members ps)), false) = Ok (u ∪ rels_in (flat_map all_nodes (ps_members ps)) ∪ rels_in [], false)).
      { unfold rels_in at 3. cbn. f_equal. f_equal. set_solver. }
      destruct (p_tag (ps_plan ps)); try done; try (by apply Hnone); rewrite ?walk_members_list by done; rewrite <- Hsome; apply Hwl. }
  rewrite Esp. cbn [mbind result_bind fst snd]. rewrite (walk_list_collects snd) by done. f_equal. f_equal.
  unfold u. rewrite !rels_in_app. unfold rels_in at 7. cbn [flat_map]. rewrite app_nil_r. clear. set_solver.
Qed.

(** ** Properties *)

(** C18 For every plan whose states match it, the walk either returns exactly the
    scan nodes among the nodes it comes to, each once and a node before the nodes
    below it, or it fails because [deparse_expression] failed on the filter of one of
    these nodes or the OFFSET or LIMIT of one is negative. It comes to all nodes but
    the inputs of merge appends and custom scans; of the nodes with a [ScanState] it
    returns all but sample, index-only, bitmap index, foreign and custom scans and
    index scans that wait for run-time keys. When it returns, what it reported to the
    query descriptor is what the parser can report too, and the limit of the query is
    the count of the last LIMIT that is directly over a sequential scan, or what it
    was. [deparse_expression] may do nothing to the descriptor but report columns. *)
Theorem traversePlanTree_correct deparse_expression ExecEvalExpr subplans ps plan st :
  deparse_reports deparse_expression -> matches subplans ps plan -> Forall (limit_fine st) (walked_nodes ps) ->
  isInitialized (pt_desc st) = true -> rtc qd_step qd_start (pt_desc st) ->
  match traversePlanTree deparse_expression ExecEvalExpr subplans ps plan None st with
  | Ok (st', scans) =>
      scans = filter scan_node (walked_nodes ps) /\
      rtc qd_step qd_start (pt_desc st') /\ isInitialized (pt_desc st') = true /\
      getQueryLimit (pt_desc st') = default (getQueryLimit (pt_desc st)) (last (omap (query_limit ExecEvalExpr) (walked_nodes ps)))
  | Fail e => walk_error deparse_expression ExecEvalExpr (walked_nodes ps) e
  end.
Proof.
  intros Hdp Hm Hf Hi Hr. pose proof (traverse_walks deparse_expression ExecEvalExpr subplans Hdp ps plan None st Hm Hf) as Hw.
  unfold walks in Hw. destruct (traversePlanTree _ _ _ _ _ _ _) as [[st' scans]|e]; [|by apply Hw].
  destruct Hw as [E [_ _ H1 H2 H3]]; [by split_and!|]. rewrite <- scans_found. by split_and!; [|apply H1|..].
Qed.

(** C38 The walk for the relations in use visits every node of a plan whose nodes
    have the children of their types, those below a merge append and a custom scan
    included, and returns the relations of all of them besides those it was given.
    *)
Theorem ExplainPreScanNode_correct ps used : Forall node_shape (all_nodes ps) ->
  ExplainPreScanNode ps used = Ok (used ∪ rels_in (all_nodes ps), false).
Proof. intros H. by apply ExplainPreScanNode_collects. Qed.

(** ** Witness: a LIMIT over the scan of [t], with a sub-plan that scans [u] and one
    that merges a scan of [v] *)
Definition ex_plan (t : plan_tag) (qual : option Z) (init : bool) (left : option Plan) (members : list Plan) (rel : Z) : Plan :=
  {| p_tag := t; p_qual := qual; p_initPlan := init; p_lefttree := left; p_righttree := None; p_members := members;
     p_subplan := None; scanrelid := rel; relids := []; nominalRelation := 0; exclRelRTI := 0 |}.
Definition ex_ps (node : Z) plan (rel : option string) (count : option Z) (init : list (Z * PlanState)) (left : option PlanState)
    (members : list PlanState) : PlanState :=
  {| ps_node := node; ps_tag := p_tag plan; ps_plan := plan; ps_qual := non_nil (option_list (p_qual plan));
     ss_currentRelation := rel; iss_NumRuntimeKeys := 0; iss_RuntimeKeysReady := false; limitOffset := None; limitCount := count;
     ps_initPlan := init; ps_lefttree := left; ps_righttree := None; ps_members := members; ps_subplan := None; ps_subPlan := [] |}.
Definition ex_scan_u : Plan := ex_plan T_SeqScan None false None [] 2.
Definition ex_scan_v : Plan := ex_plan T_SeqScan None false None [] 3.
Definition ex_merge : Plan := ex_plan T_MergeAppend None false None [ex_scan_v] 0.
Definition ex_scan_t : Plan := ex_plan T_SeqScan (Some 11) false None [] 1.
Definition ex_limit : Plan := ex_plan T_Limit None true (Some ex_scan_t) [] 0.
Definition ex_tree : PlanState :=
  ex_ps 1 ex_limit None (Some 12)
    [(1, ex_ps 3 ex_scan_u (Some "u") None [] None []); (2, ex_ps 4 ex_merge None None [] None [ex_ps 5 ex_scan_v (Some "v") None [] None []])]
    (Some (ex_ps 2 ex_scan_t (Some "t") None [] None [])) [].
Definition ex_pt : pt_state :=
  {| pt_desc := ex_qd; pt_lists := ∅; pt_next := 1;
     pt_limits := {[1 := {| l_offset := 0; l_count := 0; noCount := true; lstate := LIMIT_INITIAL; l_position := 0 |}]}; pt_sorts := ∅ |}.
(** The filter mentions the column [t.a]. *)
Definition ex_deparse : Z -> Z -> list Z -> qd_state -> result qd_state :=
  fun _ _ _ d => addColumnInformation (fun _ => true) d (Some "a") (Some "t") None None false.

Lemma ex_deparse_reports : deparse_reports ex_deparse.
Proof. intros q n anc d d' _ E. apply rtc_once. by eexists _, _, _, _, _, _. Qed.

Lemma ex_leaf_matches node plan rel members subplans : p_tag plan = T_SeqScan \/ p_tag plan = T_MergeAppend -> p_initPlan plan = false ->
  p_lefttree plan = None -> p_righttree plan = None -> matches subplans (ex_ps node plan rel None [] None members) plan.
Proof.
  intros Ht Hi Hl Hr. constructor; cbn; rewrite ?Hl, ?Hr; try done; try constructor; destruct Ht as [-> | ->]; done.
Qed.

Lemma ex_matches : matches [ex_scan_u; ex_merge] ex_tree ex_limit.
Proof.
  constructor; try done; cbn.
  - repeat (apply Forall_cons; split); [..|constructor].
    + exists ex_scan_u. split; [done|]. apply ex_leaf_matches; try done. by left.
    + exists ex_merge. split; [done|]. apply ex_leaf_matches; try done. by right.
  - constructor. apply ex_leaf_matches; try done. by left.
  - constructor.
Qed.

Lemma ex_walked : walked_nodes ex_tree =
  [ex_tree; ex_ps 3 ex_scan_u (Some "u") None [] None []; ex_ps 4 ex_merge None None [] None [ex_ps 5 ex_scan_v (Some "v") None [] None []];
   ex_ps 2 ex_scan_t (Some "t") None [] None []].
Proof. reflexivity. Qed.

(** The scan of [v] is not returned. *)
Lemma traversePlanTree_witness : exists st',
  traversePlanTree ex_deparse (fun _ => Some 7) [ex_scan_u; ex_merge] ex_tree ex_limit None ex_pt
    = Ok (st', [ex_ps 3 ex_scan_u (Some "u") None [] None []; ex_ps 2 ex_scan_t (Some "t") None [] None []]) /\
  rtc qd_step qd_start (pt_desc st') /\ isInitialized (pt_desc st') = true /\ getQueryLimit (pt_desc st') = 7.
Proof.
  assert (Hf : Forall (limit_fine ex_pt) (walked_nodes ex_tree)).
  { rewrite ex_walked. repeat (apply Forall_cons; split); [..|constructor]; intros H; try discriminate H. by eexists. }
  assert (Hi : isInitialized (pt_desc ex_pt) = true) by (vm_compute; reflexivity).
  pose proof (traversePlanTree_correct ex_deparse (fun _ => Some 7) [ex_scan_u; ex_merge] ex_tree ex_limit ex_pt
    ex_deparse_reports ex_matches Hf Hi ex_qd_reachable) as H.
  destruct (traversePlanTree _ _ _ _ _ _ _) as [[st' scans]|e] eqn:E; [|vm_compute in E; discriminate E].
  destruct H as (-> & H1 & H2 & H3). exists st'. split; [reflexivity|]. split; [exact H1|]. split; [exact H2|exact H3].
Defined.

Lemma ExplainPreScanNode_witness : ExplainPreScanNode ex_tree ∅ = Ok (∅ ∪ rels_in (all_nodes ex_tree), false).
Proof.
  apply (ExplainPreScanNode_correct ex_tree ∅).
  repeat (apply Forall_cons; split); [..|constructor]; split; try done; try (by split; [intros [? ?]|]); repeat constructor; done.
Defined.

(** ** Scans that the walk does not find *)
Definition merge_plan : Plan := ex_plan T_MergeAppend None false None [ex_scan_t; ex_scan_u] 0.
Definition merge_tree : PlanState :=
  ex_ps 1 merge_plan None None [] None [ex_ps 2 ex_scan_t (Some "t") None [] None []; ex_ps 3 ex_scan_u (Some "u") None [] None []].
Definition append_plan : Plan := ex_plan T_Append None false None [ex_scan_t; ex_scan_u] 0.
Definition append_tree : PlanState :=
  ex_ps 1 append_plan None None [] None [ex_ps 2 ex_scan_t (Some "t") None [] None []; ex_ps 3 ex_scan_u (Some "u") None [] None []].
Definition sample_plan : Plan := ex_plan T_SampleScan None false None [] 1.

(** The inputs of a merge append and a sample scan are not found, although the walk
    for the relations in use goes over them: their raw files are never set up. *)
Example merge_append_scans_lost :
  (exists st, traversePlanTree ex_deparse (fun _ => None) [] merge_tree merge_plan None ex_pt = Ok (st, [])) /\
  ExplainPreScanNode merge_tree ∅ = Ok ({[1; 2]}, false) /\
  (exists st, traversePlanTree ex_deparse (fun _ => None) [] append_tree append_plan None ex_pt = Ok (st, ps_members append_tree)) /\
  (exists st, traversePlanTree ex_deparse (fun _ => None) [] (ex_ps 1 sample_plan (Some "t") None [] None []) sample_plan None ex_pt = Ok (st, [])).
Proof. split_and!; try eexists; vm_compute; reflexivity. Qed.

(** An append is not among the ancestors of its inputs, to which their filters are
    printed. *)
Example append_not_an_ancestor :
  let with_parent : Z -> Z -> list Z -> qd_state -> result qd_state :=
    fun _ _ anc d => if bool_decide (1 ∈ anc) then Ok d else Fail (EReport "the parent is missing") in
  traversePlanTree with_parent (fun _ => None) [] append_tree append_plan None ex_pt = Fail (EReport "the parent is missing") /\
  exists r, traversePlanTree with_parent (fun _ => Some 1) [ex_scan_u; ex_merge] ex_tree ex_limit None ex_pt = Ok r.
Proof. split; [vm_compute; reflexivity|]. eexists. vm_compute. reflexivity. Qed.
