(* ===== verification/QueryDriver.v ===== *)
(** * Running a query (ExecutePlan2 in execMain.c)

    The scans of the plan are found, those of configured relations are set up, the
    plan is asked for tuples, and when it has no more the scans are ended. The plan
    itself is an interface, [ExecProcNode]; a plan that is one sequential scan is
    [ExecSeqScan]. The caches and the registries are shared by all scans of the
    query: a scan takes them before each of its steps and gives them back. *)
From S2P Require Import Prelude Relation Cache CacheData EOLCache LineReader TupleReader CacheSelect ExecInfo QueryDescriptor Config ScanCommand Executor PlanSound ScanOperator CopySetup PlanTree.

Abbreviation tuple := (arr Z * arr Z)%type.

(** The process, and the nodes of the plan: [qs_opers] is the member [scanOper] of
    the scan nodes. A node without an entry has none, and the entry of an operator
    that was destroyed stays. *)
Record query_state := {
  qs_proc : process; qs_world : world; qs_opers : gmap Z (option scan_oper);
  qs_limits : gmap Z LimitState; qs_sorts : gmap Z SortState }.
Implicit Types (q : query_state) (so : scan_oper) (ps : PlanState) (plan : Plan).

Definition qs_set q (p : process) (w : world) (ops : gmap Z (option scan_oper)) : query_state :=
  {| qs_proc := p; qs_world := w; qs_opers := ops; qs_limits := qs_limits q; qs_sorts := qs_sorts q |}.

(** ** What scans share *)
Definition load_oper q so : result scan_oper :=
  match ec_caches (p_eol (qs_proc q)) !! so_eolp so with
  | None => Fail Indeterminate
  | Some c =>
      let s := so_state so in
      Ok (with_state so (set_world (set_scan s (set_rd (cs_scan s) (set_cache (rd (cs_scan s)) c))) (qs_world q)))
  end.
Definition store_oper q (node : Z) so : query_state :=
  let p := qs_proc q in
  qs_set q (with_exec p (p_exec p) (sync_eol (p_eol p) (so_eolp so) (cs_eol (so_state so)))) (cs_world (so_state so))
    (<[node := Some so]> (qs_opers q)).

Definition live_oper q (node : Z) : result scan_oper :=
  match qs_opers q !! node with
  | Some (Some so) => load_oper q so
  | Some None => Fail Indeterminate
  | None => Fail NullDeref
  end.

(** ** A sequential scan *)
Section seq_scan.
Context (enable_invisible_db : bool) (heap_scan : PlanState -> query_state -> result (query_state * option tuple)).

(** [ExecScan] without a projection; without an operator the table is scanned as
    PostgreSQL does. *)
Definition ExecSeqScan (fuel : nat) ps q : result (query_state * option tuple) :=
  match qs_opers q !! ps_node ps with
  | Some _ =>
      if enable_invisible_db then
        so ← live_oper q (ps_node ps);
        x ← ExecScan (so_env so) (fun _ _ => Fail NullDeref) fuel (plain_node (so_state so));
        Ok (store_oper q (ps_node ps) (with_state so (sn_cstate x.1)), x.2)
      else heap_scan ps q
  | None => heap_scan ps q
  end.
End seq_scan.

(** The part of [ExecScanReScan] for raw files. *)
Definition ExecScanReScan (enable_invisible_db : bool) (st_size : string -> Z) ps q : result query_state :=
  match qs_opers q !! ps_node ps with
  | Some _ =>
      if enable_invisible_db then
        so ← live_oper q (ps_node ps);
        x ← NoDBScanStateReInit (qs_proc q) so;
        Ok (store_oper (qs_set q x.1 (qs_world q) (qs_opers q)) (ps_node ps) x.2)
      else Ok q
  | None => Ok q
  end.

(** ** The driver *)

(** [GetQueryCopyStmt] is the parser; [rd_att] are the columns of a relation. *)
Section driver.
Context (CF : ConfigurationFile) (enable_invisible_db : bool) (GetQueryCopyStmt : text -> result CopyStmt).
Context (se : session) (sf : server_functions) (open : string -> file_kind) (pipe : list Z).
Context (rd_att : string -> list attribute) (st_size : string -> Z).
Context (deparse_expression : Z -> Z -> list Z -> qd_state -> result qd_state) (ExecEvalExpr : Z -> option Z).
Context (subplans : list Plan) (ExecProcNode : query_state -> result (query_state * option tuple)).
Context (sendTuples : bool) (ExecFilterJunk : option (tuple -> tuple)).

Definition NoDBScanOperatorInit ps (relation : string) q : result query_state :=
  command ← copy_command CF (text_of relation);
  stmt ← GetQueryCopyStmt command;
  k ← copy_setup se sf open pipe stmt (rd_att relation);
  x ← NoDBScanStateInit st_size (qs_proc q) (qs_world q) k relation (ps_qual ps);
  Ok (qs_set q x.1 (cs_world (so_state x.2)) (<[ps_node ps := Some x.2]> (qs_opers q))).

(** The scans of configured relations. *)
Definition raw_relation ps : result (option string) :=
  match ss_currentRelation ps with
  | None => Ok None
  | Some r => b ← isInConfigFile CF (text_of r); Ok (if b : bool then Some r else None)
  end.
Definition each_raw (f : PlanState -> string -> query_state -> result query_state) : list PlanState -> query_state -> result query_state :=
  fix go (l : list PlanState) q :=
    match l with
    | [] => Ok q
    | ps :: l' =>
        r ← raw_relation ps;
        q ← (match r with Some r => f ps r q | None => Ok q end);
        go l' q
    end.

Definition start_query plan ps q : result (query_state * list PlanState) :=
  if enable_invisible_db then
    _ ← ExplainPreScanNode ps ∅;
    x ← traversePlanTree deparse_expression ExecEvalExpr subplans ps plan None
      {| pt_desc := p_desc (qs_proc q); pt_lists := ∅; pt_next := 1; pt_limits := qs_limits q; pt_sorts := qs_sorts q |};
    let p := qs_proc q in
    q ← each_raw NoDBScanOperatorInit x.2
      {| qs_proc := {| p_desc := pt_desc x.1; p_exec := p_exec p; p_eol := p_eol p; p_next := p_next p |};
         qs_world := qs_world q; qs_opers := qs_opers q; qs_limits := pt_limits x.1; qs_sorts := pt_sorts x.1 |};
    Ok (q, x.2)
  else Ok (q, []).

(** [NoDBScanOperatorDestroy] frees the operator; the node keeps its address. *)
Definition end_scan ps (relation : string) q : result query_state :=
  so ← live_oper q (ps_node ps);
  x ← close_scan (qs_proc q) so;
  Ok (qs_set q x.1 x.2 (<[ps_node ps := None]> (qs_opers q))).

Definition end_query (scans : list PlanState) q : result query_state :=
  if enable_invisible_db then
    q ← each_raw end_scan scans q;
    d ← resetQueryDescriptor (p_desc (qs_proc q));
    let p := qs_proc q in
    Ok (qs_set q {| p_desc := d; p_exec := p_exec p; p_eol := p_eol p; p_next := p_next p |} (qs_world q) (qs_opers q))
  else Ok q.

(** [for (;;)]: the tuples that are sent, and how many were processed. Without a
    tuple the scans are ended; when the asked number of tuples is reached they are
    not. Of the executor's state the loop also resets the per-tuple memory context
    and counts [es_processed] of a SELECT; no part of a scan reads either. *)
Fixpoint run_loop (fuel : nat) (scans : list PlanState) (numberTuples count : Z) q : result (query_state * list tuple * Z) :=
  match fuel with
  | O => Fail OutOfFuel
  | S fuel' =>
      x ← ExecProcNode q;
      match x.2 with
      | None => q ← end_query scans x.1; Ok (q, [], count)
      | Some slot =>
          let slot := match ExecFilterJunk with Some f => f slot | None => slot end in
          let sent := if sendTuples then [slot] else [] in
          if negb (numberTuples =? 0) && (numberTuples =? count + 1) then Ok (x.1, sent, count + 1)
          else
            y ← run_loop fuel' scans numberTuples (count + 1) x.1;
            Ok (y.1.1, sent ++ y.1.2, y.2)
      end
  end.

Definition ExecutePlan2 (fuel : nat) plan ps (numberTuples : Z) q : result (query_state * list tuple * Z) :=
  x ← start_query plan ps q;
  run_loop fuel x.2 numberTuples 0 x.1.
End driver.
