(* ===== verification/QueryRun.v ===== *)
(** * A whole query on a raw file

    The proofs about QueryDriver.v for a plan that is one sequential scan of a
    relation that was never scanned, on a file of fewer than 10,000 lines of plain
    fields: the tuples are the terminated lines of the file, and the process is ready
    for the next query. *)
From Stdlib Require Import Ascii.
From S2P Require Import Prelude LinkedList Vectors Bitmap Relation Cache CacheData EOLCache FieldParser PositionalMap LineReader TupleReader CacheSelect StrategyMatrix MatrixSound ScanStrategy StrategySound IteratorSound ExecInfo DArray QueryDescriptor Config ScanCommand Executor ExecutorSound PlanSound StrategySwitch NewCaches ScanOperator ScanOperatorSound Rescan CopySetup FirstStrategy FirstQuery CommandQuery PlanTree PlanTreeSound QueryDriver.

Implicit Types (q : query_state) (so : scan_oper) (ps : PlanState) (s : cstate).

(** ** The operator of a node *)

(** The operator of the node is in the state [s], and what it shares is current. *)
Definition at_oper q (node : Z) so s : Prop :=
  qs_opers q !! node = Some (Some (with_state so s)) /\ qs_world q = cs_world s /\
  ec_caches (p_eol (qs_proc q)) !! so_eolp so = Some (cs_eol s).

Lemma live_at q node so s : at_oper q node so s -> live_oper q node = Ok (with_state so s).
Proof.
  intros (H1 & H2 & H3). unfold live_oper, load_oper. rewrite H1. cbn [so_eolp so_state with_state]. rewrite H3, H2, set_cache_same.
  by destruct s.
Qed.

Lemma store_at q node so s : at_oper (store_oper q node (with_state so s)) node so s.
Proof. split_and!; cbn; rewrite ?lookup_insert_eq; done. Qed.

(** The registries that a step of a scan does not touch. *)
Definition same_registry q q' : Prop :=
  p_exec (qs_proc q') = p_exec (qs_proc q) /\ p_desc (qs_proc q') = p_desc (qs_proc q).

Section run.
Context (k : copy_state) (lines : list (list Z)) (tail : list Z) (rows : Z -> list (list Z)) (D : Z -> Z -> NoDBDatum_t).
Context (so : scan_oper) (qs wd wp : list Z) (w : world) (st : NoDBScanStrategy_t) (c : NoDBCache_t).
Context (relp ncols : Z) (lf1 conv1 lf2 conv2 : list Z) (vm pw : cache_map).
Context (Ht : raw_table k lines tail rows D) (Hs : first_scan k so false qs [] wd wp w st c).
Context (Hp : first_plan relp ncols NODB_CACHE_DEFAULT_ROWS w [] (filter (fun x => x ∉ []) qs) wd wp st lf1 conv1 lf2 conv2 vm pw).
Context (Hne : lines <> []).
Abbreviation env := (so_env so).
Abbreviation none := (fun _ _ _ : Z => False).
Abbreviation at_ := (first_at (e_bufsize env) (e_line env) lines tail [(Some 0, 2)] NODB_CACHE_DEFAULT_ROWS).
Abbreviation running := (run_at env ReadFromFile at_ rows D st vm pw none (cells vm) none (cells pw) 0).

(** The scan after the last row. *)
Record at_end s : Prop := {
  ae_plan : curStrategy (cs_plan s) = st;
  ae_row : cs_row s = Z.of_nat (length lines);
  ae_eol : recorded (cs_eol s) (line_lens lines);
  ae_data : holds nodbdatum_codec NODB_DATA_CACHE (cs_world s) (rows_written 0 (Z.of_nat (length lines)) vm none) (cells vm) D;
  ae_pm : holds pmpair_codec NODB_POSITIONS_CACHE (cs_world s) (rows_written 0 (Z.of_nat (length lines)) pw none) (cells pw)
    (fun row => pos_of (rows row));
  ae_world : bufs_only w (cs_world s) }.

Lemma plan_lists : first_lists relp NODB_CACHE_DEFAULT_ROWS w qs wd wp lf2 conv2 vm pw.
Proof. destruct (fp_plain _ _ _ _ _ _ _ _ _ _ _ _ _ _ _ Hp eq_refl) as (_ & _ & Hl). by rewrite without_none in Hl. Qed.

Lemma plan_source : LineSource (reader_of env ReadFromFile) (server_lines env lines) at_.
Proof. by apply (first_source k lines tail rows D so false qs [] wd wp w st c). Qed.

Lemma plan_ready row : 0 <= row < Z.of_nat (length lines) ->
  ready_at env (server_lines env lines) rows D [] [] [] lf2 conv2 vm pw none (cells vm) none (cells pw) row.
Proof.
  intros Hr. pose proof plan_lists as Hl. destruct (fc_cols _ _ _ _ _ _ _ _ _ _ Hs) as [_ Hsub].
  destruct (first_row_ok k lines tail rows D so false qs [] wd wp w st c Ht Hs row Hr) as (R1 & R2 & _). split; [done|done| |].
  - apply (first_half k lines tail rows D so false qs [] wd wp w st c relp Ht Hs qs wd wp lf2 conv2 vm pw); try done.
    intros x [?|?]%elem_of_app; auto.
  - by apply (first_write k lines tail rows D wd wp w relp vm pw Ht qs lf2).
Qed.

(** ** The tuples *)
Lemma seq_scan_step heap fuel ps q s : at_oper q (ps_node ps) so s -> execNoDBPlan s = ExecPlan ->
  ExecSeqScan true heap fuel ps q =
    (x ← NoDBExecPlan env s; Ok (store_oper q (ps_node ps) (with_state so x.1), x.2)).
Proof.
  intros Ha Hx. unfold ExecSeqScan. rewrite (live_at _ _ _ _ Ha), (proj1 Ha). cbn [mbind result_bind so_env so_state with_state].
  unfold ExecScan. cbn [ps_ProjInfo plain_node sn_cstate ps_TupFromTlist].
  assert (has_qual env = false) as -> by (destruct (fc_env _ _ _ _ _ _ _ _ _ _ Hs) as (last & -> & _); done).
  unfold run_plan. rewrite Hx. by destruct (NoDBExecPlan env s).
Qed.

Lemma run_step m left s : running (Z.of_nat m) left s -> (m < length lines)%nat -> 1 < left ->
  exists s' v, NoDBExecPlan env s = Ok (s', Some v) /\ (forall x, x ∈ qs -> vright (D (Z.of_nat m)) v x) /\
    running (Z.of_nat (S m)) (left - 1) s' /\ execNoDBPlan s' = execNoDBPlan s /\ bufs_only (cs_world s) (cs_world s').
Proof.
  intros Hr Hm Hleft. pose proof plan_lists as Hl. pose proof plan_source as Hsrc.
  destruct (exec_step env ReadFromFile (server_lines env lines) at_ (Hsrc := Hsrc) rows D st [] [] [] lf2 conv2 vm pw none (cells vm) none (cells pw)
    (rt_word _ _ _ _ _ Ht) (fp_post _ _ _ _ _ _ _ _ _ _ _ _ _ _ _ Hp) (fp_write _ _ _ _ _ _ _ _ _ _ _ _ _ _ _ Hp)) with (lo := 0) (k := Z.of_nat m) (left := left) (s := s)
    as (s' & t & E & (v & -> & Hv) & Hrun & Ex & Hb); try done.
  - intros x Hx. apply (in_query k lines tail rows D so false qs [] wd wp w st c Ht Hs).
    apply (fl_conv _ _ _ _ _ _ _ _ _ _ Hl) in Hx. apply elem_of_app in Hx as [?|Hx]; [done|].
    apply (fc_cols _ _ _ _ _ _ _ _ _ _ Hs). set_solver.
  - apply plan_ready. lia.
  - exists s', v. replace (Z.of_nat (S m)) with (Z.of_nat m + 1) by lia. split_and!; try done.
    intros x Hx. apply Hv. right. by apply (fl_read _ _ _ _ _ _ _ _ _ _ Hl).
Qed.

Lemma run_end left s : running (Z.of_nat (length lines)) left s -> bufs_only w (cs_world s) ->
  exists s', NoDBExecPlan env s = Ok (s', None) /\ at_end s'.
Proof.
  intros Hr Hb. pose proof plan_source as Hsrc. assert (Hlen : length (server_lines env lines) = length lines) by apply length_fmap.
  pose proof Hr as [Ha _ _ Epl _ _ Hd Hpm]. rewrite <- Hlen in Hr.
  destruct (exec_end env ReadFromFile (server_lines env lines) at_ (Hsrc := Hsrc) rows D st vm pw none (cells vm) none (cells pw) 0 left s Hr)
    as (s' & E & E1 & E2 & E3 & E4). rewrite Nat2Z.id in Ha. exists s'. split; [done|].
  split; rewrite ?E1, ?E2, ?E3, ?E4; try done; [apply Ha|].
  destruct (first_env k so false qs [] wd wp w st c Hs) as (_ & El & _ & Eb & _).
  destruct (FromFile_end (e_bufsize env) (e_line env) (e_conv env) ltac:(rewrite Eb; apply Ht) ltac:(rewrite El; apply Ht) lines tail _ _ _ ltac:(rewrite El; apply Ht) Ha)
    as (sc & _ & Hrec & _ & Ec). unfold cs_eol. by rewrite <- Ec.
Qed.

(** What the loop returns: the tuples of the rows from [m] on. *)
Definition rows_from (m : nat) (ts : list tuple) : Prop :=
  length ts = (length lines - m)%nat /\ forall i t, ts !! i = Some t -> forall x, x ∈ qs -> vright (D (Z.of_nat (m + i))) t x.

Section loop.
Context (CF : ConfigurationFile) (heap : PlanState -> query_state -> result (query_state * option tuple)) (fuel : nat) (ps : PlanState).
Abbreviation loop := (run_loop CF true (ExecSeqScan true heap fuel ps) true None).

Lemma loop_spec n : forall m left s q, running (Z.of_nat m) left s -> execNoDBPlan s = ExecPlan -> at_oper q (ps_node ps) so s ->
  bufs_only w (cs_world s) -> (m + n = length lines)%nat -> Z.of_nat n < left ->
  exists ts s' q1, loop (S n) [ps] 0 (Z.of_nat m) q = (q2 ← end_query CF true [ps] q1; Ok (q2, ts, Z.of_nat (length lines))) /\
    rows_from m ts /\ at_oper q1 (ps_node ps) so s' /\ same_registry q q1 /\ at_end s'.
Proof.
  induction n as [|n IH]; intros m left s q Hr Hx Ha Hb Hm Hn; [|remember (S n) as f eqn:Ef]; cbn [run_loop];
    rewrite (seq_scan_step heap fuel ps q s Ha Hx).
  - assert (m = length lines) as -> by lia. destruct (run_end left s Hr Hb) as (s' & -> & He). cbn [mbind result_bind fst snd].
    exists [], s', (store_oper q (ps_node ps) (with_state so s')). split; [done|].
    split_and!; try done; [split; [simpl; lia|by intros i t Hi]|apply store_at].
  - subst f. destruct (run_step m left s Hr) as (s1 & v & -> & Hv & Hr1 & Ex & Hb1); [lia|lia|]. cbn [mbind result_bind fst snd negb Z.eqb andb].
    destruct (IH (S m) (left - 1) s1 (store_oper q (ps_node ps) (with_state so s1)) Hr1) as (ts & s' & q1 & E & (Hl & Hts) & Ha' & (R1 & R2) & He);
      [congruence|apply store_at|by eapply bufs_only_trans|lia|lia|].
    replace (Z.of_nat m + 1) with (Z.of_nat (S m)) by lia. rewrite E. exists (v :: ts), s', q1. split; [by destruct (end_query CF true [ps] q1)|].
    split_and!; try done. split; [simpl; lia|]. intros [|i] t Hi x Hxq; cbn in Hi; [simplify_eq; rewrite Nat.add_0_r; by apply Hv|].
    replace (m + S i)%nat with (S m + i)%nat by lia. by apply (Hts i).
Qed.
End loop.

(** ** The end *)

(** The columns that were written are visible with the values of the file, and the
    locks of the columns of the query are free. *)
Record ended p' (w' : world) s : Prop := {
  en_locks : exists x lk lp bs bp, get_info (p_exec p') (so_info so) = Ok x /\ info_ok x (k_byval k) lk lp bs bp /\
    forall y, y ∈ qs -> lk !! Z.to_nat y = Some false /\ lp !! Z.to_nat y = Some false;
  en_eol : exists e, ec_caches (p_eol p') !! so_eolp so = Some e /\ recorded e (line_lens lines);
  en_start : forall a y, in_map vm a y -> exists c, w_caches w' !! a = Some c /\ c_startRow c = 0;
  en_data : right_cells nodbdatum_codec NODB_DATA_CACHE w' (Z.of_nat (length lines)) vm D;
  en_pm : right_cells pmpair_codec NODB_POSITIONS_CACHE w' (Z.of_nat (length lines)) pw (fun row => pos_of (rows row)) }.

(** A cache to write is one that the set-up made, and begins with row 0. *)
Lemma writable_at s type p x : bufs_only w (cs_world s) -> writable relp w type NODB_CACHE_DEFAULT_ROWS p x ->
  exists c, w_caches (cs_world s) !! p = Some c /\ c_startRow c = 0.
Proof.
  intros (_ & _ & Hb) (c0 & Ec & Hty & _). specialize (Hb p). rewrite Ec in Hb. destruct (w_caches (cs_world s) !! p) as [c1|]; [|done].
  destruct Hb as (nr & buf & ->). eexists. split; [done|]. cbn. apply andb_prop in Hty as [Hrel%Z.eqb_eq _].
  destruct (fp_caches _ _ _ _ _ _ _ _ _ _ _ _ _ _ _ Hp p c0 Ec Hrel). done.
Qed.

Lemma starts_at s type cm : (forall p x, in_map cm p x -> writable relp w type NODB_CACHE_DEFAULT_ROWS p x) ->
  bufs_only w (cs_world s) -> starts_right (cs_world s) 0 (Z.of_nat (length lines)) none cm.
Proof.
  intros Hw Hb p x Hx. destruct (writable_at s type p x Hb (Hw p x Hx)) as (c1 & Hc & Hst). exists c1. split; [done|].
  split; [lia|]. intros row Hrow. lia.
Qed.

Lemma listed_live s type cm : no_empty cm -> (forall p x, in_map cm p x -> writable relp w type NODB_CACHE_DEFAULT_ROWS p x) ->
  bufs_only w (cs_world s) -> forall p, listed_in cm p -> is_Some (w_caches (cs_world s) !! p).
Proof.
  intros Hn Hw Hb p [cols Hin]. destruct cols as [|x cols]; [by destruct (Hn p [] Hin)|].
  destruct (writable_at s type p x Hb) as (c1 & Hc & _); [apply Hw; exists (x :: cols); split; [done|by left]|by eexists].
Qed.

Lemma close_spec p s x lk lp bs bp : at_end s -> get_info (p_exec p) (so_info so) = Ok x -> info_ok x (k_byval k) lk lp bs bp ->
  exists p' w', close_scan p (with_state so s) = Ok (p', w') /\ ended p' w' s /\ p_desc p' = p_desc p.
Proof.
  intros [Epl Erow Heol Hd Hpm Hb] Hget Hx. pose proof plan_lists as Hl. destruct (fl_ne _ _ _ _ _ _ _ _ _ _ Hl) as [Hnv Hnp].
  destruct (fp_write _ _ _ _ _ _ _ _ _ _ _ _ _ _ _ Hp) as [Wv Wr Wp]. rewrite <- Epl in Wv, Wr, Wp.
  assert (Hwv : forall a y, in_map vm a y -> writable relp w NODB_DATA_CACHE NODB_CACHE_DEFAULT_ROWS a y) by (intros a y Hy; by apply (fl_values _ _ _ _ _ _ _ _ _ _ Hl)).
  assert (Hwp : forall a y, in_map pw a y -> writable relp w NODB_POSITIONS_CACHE NODB_CACHE_DEFAULT_ROWS a y) by (intros a y Hy; by apply (fl_positions _ _ _ _ _ _ _ _ _ _ Hl)).
  unfold close_scan. cbn [so_state so_info so_readAll with_state].
  destruct (FinalizeStrategy_spec s [] vm pw Wr Wv Wp) as (w' & -> & Hpub).
  { intros q [(l & ?%elem_of_nil)|[Hq|Hq]]; [done| |]; [by eapply (listed_live s _ vm)|by eapply (listed_live s _ pw)]. }
  cbn [mbind result_bind]. unfold sync_rows. cbn [so_info with_state]. rewrite Hget. cbn [mbind result_bind].
  set (x1 := set_stats x _ _). destruct (put_info_spec _ _ _ x1 Hget) as (e1 & -> & Hget1). cbn [mbind result_bind p_exec with_exec].
  rewrite Hget1. cbn [mbind result_bind]. assert (Hx1 : info_ok x1 (k_byval k) lk lp bs bp) by (by apply set_stats_ok).
  destruct (fc_cols _ _ _ _ _ _ _ _ _ _ Hs) as [Hc _]. pose proof (fc_nodup _ _ _ _ _ _ _ _ _ _ Hs) as Hnd.
  assert (Hc' : cols_of (length (k_byval k)) qs) by (by rewrite (rt_byval _ _ _ _ _ Ht), length_replicate).
  rewrite (proj1 (fc_written _ _ _ _ _ _ _ _ _ _ Hs)).
  destruct (release_pm_ok _ _ _ _ _ _ qs Hx1 Hnd Hc') as (x2 & b2 & -> & Hx2 & _). cbn [mbind result_bind fst snd].
  destruct (release_cache_ok _ _ _ _ _ _ qs Hx2 Hnd Hc') as (x3 & b3 & -> & Hx3 & _). cbn [mbind result_bind fst snd].
  destruct (put_info_spec _ _ _ (NoDBExecIntegrityCheckCompleted x3) Hget1) as (e2 & -> & Hget2). cbn [mbind result_bind].
  eexists _, w'. split; [done|]. split; [|done]. assert (Hlen : 0 < Z.of_nat (length lines)) by (destruct lines; [done|simpl; lia]).
  pose proof (rt_few _ _ _ _ _ Ht) as Hfew. assert (Hmax : Z.of_nat (length lines) < 2 ^ 64) by (change NODB_CACHE_DEFAULT_ROWS with 10000 in Hfew; lia).
  rewrite Erow in Hpub. split.
  - exists (NoDBExecIntegrityCheckCompleted x3), (mark false lk qs), (mark false lp qs), bs, bp. split; [exact Hget2|]. split; [by destruct Hx3|].
    intros y Hy. split; (apply mark_in; [|done]); [rewrite (io_lk _ _ _ _ _ _ Hx)|rewrite (io_lp _ _ _ _ _ _ Hx)]; done.
  - cbn. rewrite lookup_insert_eq. by eexists.
  - intros a y Hy. destruct (writable_at s _ a y Hb (Hwv a y Hy)) as (c1 & Hc1 & Hst).
    destruct Hpub as (_ & _ & Hpub). destruct (Hpub a c1 Hc1) as (c2 & Hc2 & [[_ ->]|[_ ->]]); by eexists.
  - eapply publish_right; [exact Hpub|intros a Ha; right; by left|lia|exact Hlen|by eapply starts_at|exact Hd].
  - eapply publish_right; [exact Hpub|intros a Ha; right; by right|lia|exact Hlen|by eapply starts_at|exact Hpm].
Qed.
End run.

(** ** The query *)

(** The configuration has the relation, with a file, a delimiter of one byte and no
    header, and the parser reads the command that is printed for it. *)
Definition configured (CF : ConfigurationFile) (parse : text -> result CopyStmt) (relation file : string) (c : ascii) : Prop :=
  exists es free e, loaded CF = true /\ holds_files CF ((Config.file_of <$> es) ++ free) /\ e ∈ es /\ entry_ok e /\
    NoDup (lower_relation <$> es) /\ lower_relation e = text_of relation /\ e_header e = false /\
    parse (command_of e) = Ok (command_stmt file [c] false).

Lemma configured_spec CF parse relation file c : configured CF parse relation file c ->
  isInConfigFile CF (text_of relation) = Ok true /\
  exists command, copy_command CF (text_of relation) = Ok command /\ parse command = Ok (command_stmt file [c] false).
Proof.
  intros (es & free & e & Hl & Hh & He & Hok & Hnd & Er & _ & Hp). rewrite <- Er. split.
  - unfold isInConfigFile. by rewrite (find_file_spec CF es free).
  - exists (command_of e). split; [|done]. by apply (copy_command_spec CF es free).
Qed.

(** The plan of [SELECT ... FROM relation], without a filter. *)
Record seq_scan_plan (plan : Plan) ps (relation : string) : Prop := {
  sp_plan : plan = {| p_tag := T_SeqScan; p_qual := None; p_initPlan := false; p_lefttree := None; p_righttree := None;
                      p_members := []; p_subplan := None; scanrelid := scanrelid plan; relids := relids plan;
                      nominalRelation := nominalRelation plan; exclRelRTI := exclRelRTI plan |};
  sp_rel : 0 <= scanrelid plan;
  sp_state : ps = {| ps_node := ps_node ps; ps_tag := T_SeqScan; ps_plan := plan; ps_qual := false;
                     ss_currentRelation := Some relation; iss_NumRuntimeKeys := iss_NumRuntimeKeys ps;
                     iss_RuntimeKeysReady := iss_RuntimeKeysReady ps; limitOffset := limitOffset ps; limitCount := limitCount ps;
                     ps_initPlan := []; ps_lefttree := None; ps_righttree := None; ps_members := []; ps_subplan := None;
                     ps_subPlan := [] |} }.

Lemma seq_scan_walks plan ps relation dep eval subplans st : seq_scan_plan plan ps relation ->
  (exists used, ExplainPreScanNode ps ∅ = Ok used) /\ traversePlanTree dep eval subplans ps plan None st = Ok (st, [ps]).
Proof.
  intros [-> H0 ->]. cbn in H0. split; [|done]. cbn. unfold bms_add_member. rewrite (proj2 (Z.ltb_ge _ _) H0). cbn. by eexists.
Qed.

Section query.
Context (CF : ConfigurationFile) (parse : text -> result CopyStmt) (se : session) (sf : server_functions).
Context (open : string -> file_kind) (pipe : list Z) (rd_att : string -> list attribute) (st_size : string -> Z).
Context (dep : Z -> Z -> list Z -> qd_state -> result qd_state) (eval : Z -> option Z) (subplans : list Plan).
Context (heap : PlanState -> query_state -> result (query_state * option tuple)) (fuel : nat).

Lemma start_spec plan ps relation file c q k xs m lines tail rows D : seq_scan_plan plan ps relation ->
  configured CF parse relation file c -> copy_setup se sf open pipe (command_stmt file [c] false) (rd_att relation) = Ok k ->
  process_ok (qs_proc q) (qs_world q) relation (k_byval k) xs m -> copy_ok k relation -> first_use (qs_proc q) (qs_world q) relation xs m ->
  raw_table k lines tail rows D ->
  exists q1 so qs wd wp relp ncols w1 st lf1 conv1 lf2 conv2 vm pw e,
    start_query CF true parse se sf open pipe rd_att st_size dep eval subplans plan ps q = Ok (q1, [ps]) /\
    query_of (qs_proc q) k relation false qs [] /\ first_scan k so false qs [] wd wp w1 st e /\
    first_plan relp ncols NODB_CACHE_DEFAULT_ROWS w1 [] (filter (fun x => x ∉ []) qs) wd wp st lf1 conv1 lf2 conv2 vm pw /\
    registered (qs_proc q1) k so e /\ p_desc (qs_proc q1) = p_desc (qs_proc q) /\ at_oper q1 (ps_node ps) so (so_state so) /\
    ((forall x, x ∈ xs -> rel_name (xi_rel x) <> relation) -> wd = qs).
Proof.
  intros Hplan Hcf Hk Hp Hko Hu Ht. destruct (configured_spec _ _ _ _ _ Hcf) as (Hin & command & Ec & Eparse).
  destruct (Init_first st_size (qs_proc q) (qs_world q) k relation false xs m Hp Hko ltac:(done) Hu (rt_some _ _ _ _ _ Ht) (rt_byval _ _ _ _ _ Ht))
    as (p' & so & qs & fs & wd & wp & relp & ncols & w1 & st & lf1 & conv1 & lf2 & conv2 & vm & pw & e & E & [Hqs Hfs] & Hs & Hpl & Hreg & Ed & Hnew).
  cbn in Hfs. subst fs. unfold start_query.
  destruct (seq_scan_walks plan ps relation dep eval subplans {| pt_desc := p_desc (qs_proc q); pt_lists := ∅; pt_next := 1;
    pt_limits := qs_limits q; pt_sorts := qs_sorts q |} Hplan) as [(used & ->) ->]. cbn [mbind result_bind fst snd pt_desc pt_limits pt_sorts each_raw].
  assert (Hrel : ss_currentRelation ps = Some relation /\ ps_qual ps = false) by (by rewrite (sp_state _ _ _ Hplan)).
  destruct Hrel as [Hrel Hqual]. unfold raw_relation, NoDBScanOperatorInit. rewrite Hrel, Hin. cbn [mbind result_bind].
  rewrite Ec. cbn [mbind result_bind]. rewrite Eparse. cbn [mbind result_bind]. rewrite Hk. cbn [mbind result_bind qs_proc qs_world qs_opers].
  assert ({| p_desc := p_desc (qs_proc q); p_exec := p_exec (qs_proc q); p_eol := p_eol (qs_proc q); p_next := p_next (qs_proc q) |} = qs_proc q)
    as -> by (by destruct (qs_proc q)). rewrite Hqual, E. cbn [mbind result_bind fst snd].
  eexists _, so, qs, wd, wp, relp, ncols, w1, st, lf1, conv1, lf2, conv2, vm, pw, e. split; [done|].
  do 5 (split; [done|]). split; [|done]. split; [|split].
  - cbn. rewrite lookup_insert_eq. by destruct so.
  - done.
  - cbn. rewrite (proj2 Hreg). unfold cs_eol, st_cache. by rewrite (fc_state _ _ _ _ _ _ _ _ _ _ Hs).
Qed.

Lemma end_spec ps relation so s q p' w' : ss_currentRelation ps = Some relation -> isInConfigFile CF (text_of relation) = Ok true ->
  at_oper q (ps_node ps) so s -> close_scan (qs_proc q) (with_state so s) = Ok (p', w') -> rtc qd_step qd_start (p_desc p') ->
  exists q', end_query CF true [ps] q = Ok q' /\ qs_world q' = w' /\ p_exec (qs_proc q') = p_exec p' /\ p_eol (qs_proc q') = p_eol p' /\
    isInitialized (p_desc (qs_proc q')) = false /\ rtc qd_step qd_start (p_desc (qs_proc q')) /\ qs_opers q' !! ps_node ps = Some None.
Proof.
  intros Hrel Hin Ha Hc Hd. destruct (reachable_inv _ Hd) as (m & fl & al & Hi).
  destruct (resetQueryDescriptor_inv _ _ _ _ Hi) as (d & _ & Er & _ & Hn).
  unfold end_query. cbn [each_raw]. unfold raw_relation, end_scan. rewrite Hrel, Hin. cbn [mbind result_bind].
  rewrite (live_at _ _ _ _ Ha). cbn [mbind result_bind]. rewrite Hc. cbn [mbind result_bind fst snd qs_set qs_proc]. rewrite Er.
  cbn [mbind result_bind]. eexists. split; [done|]. split_and!; try done.
  - cbn. eapply rtc_r; [exact Hd|]. by apply step_reset.
  - cbn. by rewrite lookup_insert_eq.
Qed.

(** What the query leaves: the locks of its columns are free, the line lengths are
    recorded, the columns [wd] are visible in caches of the data with the values of
    the file, the query descriptor is empty and the operator destroyed. *)
Record query_ended q' (node : Z) (byval : list bool) (lines : list (list Z)) (D : Z -> Z -> NoDBDatum_t) (qs wd : list Z) : Prop := {
  qe_locks : exists ptr x lk lp bs bp, get_info (p_exec (qs_proc q')) ptr = Ok x /\ info_ok x byval lk lp bs bp /\
    forall y, y ∈ qs -> lk !! Z.to_nat y = Some false /\ lp !! Z.to_nat y = Some false;
  qe_eol : exists ep e, ec_caches (p_eol (qs_proc q')) !! ep = Some e /\ recorded e (line_lens lines);
  qe_data : forall y, y ∈ wd -> exists p c, w_caches (qs_world q') !! p = Some c /\ c_type c = NODB_DATA_CACHE /\
    (forall row, NoDBCacheHasRow c row = bool_decide (0 <= row < Z.of_nat (length lines))) /\
    (forall row, NoDBCacheHasRow c row = true -> cell_get nodbdatum_codec c y row = Ok (D row y));
  qe_desc : isInitialized (p_desc (qs_proc q')) = false /\ rtc qd_step qd_start (p_desc (qs_proc q'));
  qe_oper : qs_opers q' !! node = Some None }.

Lemma query_runs plan ps relation file c q k xs m lines tail rows D : seq_scan_plan plan ps relation ->
  configured CF parse relation file c -> copy_setup se sf open pipe (command_stmt file [c] false) (rd_att relation) = Ok k ->
  process_ok (qs_proc q) (qs_world q) relation (k_byval k) xs m -> copy_ok k relation -> first_use (qs_proc q) (qs_world q) relation xs m ->
  raw_table k lines tail rows D -> lines <> [] ->
  exists q' ts qs wd, ExecutePlan2 CF true parse se sf open pipe rd_att st_size dep eval subplans (ExecSeqScan true heap fuel ps) true None
      (S (length lines)) plan ps 0 q = Ok (q', ts, Z.of_nat (length lines)) /\
    query_of (qs_proc q) k relation false qs [] /\ length ts = length lines /\
    (forall i t, ts !! i = Some t -> forall x, x ∈ qs -> vright (D (Z.of_nat i)) t x) /\
    query_ended q' (ps_node ps) (k_byval k) lines D qs wd /\
    ((forall x, x ∈ xs -> rel_name (xi_rel x) <> relation) -> wd = qs).
Proof.
  intros Hplan Hcf Hk Hp Hko Hu Ht Hne.
  destruct (start_spec plan ps relation file c q k xs m lines tail rows D Hplan Hcf Hk Hp Hko Hu Ht)
    as (q1 & so & qs & wd & wp & relp & ncols & w1 & st & lf1 & conv1 & lf2 & conv2 & vm & pw & e & E & Hq & Hs & Hpl & [(x & lk & lp & bs & bp & Hget & Hx) He] & Ed & Ha & Hnew).
  unfold ExecutePlan2. rewrite E. cbn [mbind result_bind fst snd]. destruct (configured_spec _ _ _ _ _ Hcf) as (Hin & _).
  change (run_loop CF true (ExecSeqScan true heap fuel ps) true None (S (length lines)) [ps] 0 0 q1)
    with (run_loop CF true (ExecSeqScan true heap fuel ps) true None (S (length lines)) [ps] 0 (Z.of_nat 0) q1).
  pose proof (plan_lists qs wd wp w1 st relp ncols lf1 conv1 lf2 conv2 vm pw Hpl) as Hl.
  destruct (loop_spec k lines tail rows D so qs wd wp w1 st e relp ncols lf1 conv1 lf2 conv2 vm pw Ht Hs Hpl Hne CF heap fuel ps
    (length lines) 0 NODB_CACHE_DEFAULT_ROWS (so_state so) q1) as (ts & s' & q2 & -> & [Hlen Hts] & Ha' & [R1 R2] & Hend).
  { by apply (first_run k lines tail rows D so false qs [] wd wp w1 st e relp ncols lf1 conv1 lf2 conv2 vm pw Ht Hs Hpl qs lf2 conv2). }
  { by rewrite (first_exec_plan k so false qs [] wd wp w1 st e relp ncols lf1 conv1 lf2 conv2 vm pw Hs Hpl). } { done. }
  { rewrite (fc_world _ _ _ _ _ _ _ _ _ _ Hs). apply bufs_only_refl. } { lia. } { apply Ht. }
  destruct (close_spec k lines tail rows D so qs wd wp w1 st e relp ncols lf1 conv1 lf2 conv2 vm pw Ht Hs Hpl Hne (qs_proc q2) s' x lk lp bs bp Hend)
    as (p' & w' & Ecl & [Elk Eeol Est Edata _] & Edesc); [by rewrite R1|done|].
  destruct (end_spec ps relation so s' q2 p' w') as (q' & -> & Ew & Ee & El & Hi & Hr & Ho); try done.
  { by rewrite (sp_state _ _ _ Hplan). } { rewrite Edesc, R2, Ed. apply Hp. }
  cbn [mbind result_bind]. exists q', ts, qs, wd. split; [done|]. rewrite Nat.sub_0_r in Hlen. split; [done|].
  do 2 (split; [done|]). split; [|done]. split; rewrite ?Ew, ?Ee, ?El; try done.
  - destruct Elk as (y & ? & ? & ? & ? & ?). by eexists (so_info so), y, _, _, _, _.
  - destruct Eeol as (e' & ? & ?). by eexists (so_eolp so), e'.
  - intros y Hy. destruct (fl_written _ _ _ _ _ _ _ _ _ _ Hl y Hy) as [a Hay]. destruct (Est a y Hay) as (c1 & Hc1 & Hst).
    destruct (Edata a y Hay) as (c2 & Hc2 & Hty & Hrow & Hval). simplify_eq. exists a, c1. rewrite Hst in Hrow. done.
Qed.
End query.

(** ** Properties *)

(** C1 A whole query, [SELECT ... FROM relation] without a filter and with a plan
    that is one sequential scan, on a raw file of a relation that was never scanned.
    The file has no header, fewer than 10,000 NL-terminated lines of less than 2^15
    bytes, at least one, whose fields are not empty and hold no delimiter, quote,
    backslash or zero byte (so no field is quoted or NULL) and convert to values of
    their types; it may end with a line without its newline, which the code drops.
    The columns of the table are passed by value and none was dropped, and the user
    has the rights of a COPY FROM. Then: the plan is walked, the scan of the
    configured relation is set up from its COPY command, the plan is asked for
    tuples until there are no more, and the scan is ended. The tuples are the
    terminated lines of the file, in order, with the values of the fields in all
    columns that the query mentions. Afterwards the write locks of these columns are
    free, the lengths of the lines are recorded, the columns that were written (all
    of them, when the relation is new) are visible in data caches with the values of
    the file in exactly the rows of the file, the query descriptor is empty, and the
    operator is destroyed. *)
Theorem select_query_correct CF parse se sf open pipe rd_att st_size dep eval subplans heap fuel plan ps relation file c q xs m lines tail rows D :
  let tup := rd_att relation in
  let k := command_state se sf c tup file (file_bytes lines ++ tail) in
  seq_scan_plan plan ps relation -> configured CF parse relation file c ->
  may_copy se -> csv_delimiter c -> open file = Regular (file_bytes lines ++ tail) -> plain_table tup file relation ->
  (forall b, 1 <= sf_mblen sf b <= 4) -> file_table (k_env k) lines tail rows D -> lines <> [] ->
  process_ok (qs_proc q) (qs_world q) relation (attbyval <$> tup) xs m -> first_use (qs_proc q) (qs_world q) relation xs m ->
  exists q' ts qs wd,
    ExecutePlan2 CF true parse se sf open pipe rd_att st_size dep eval subplans (ExecSeqScan true heap fuel ps) true None
      (S (length lines)) plan ps 0 q = Ok (q', ts, Z.of_nat (length lines)) /\
    (forall x, x ∈ qs <-> 0 <= x /\ exists d, d ∈ reported (p_desc (qs_proc q)) /\ concerns (aliases (p_desc (qs_proc q))) relation d /\
      covers (attname <$> tup) d (Z.to_nat x)) /\
    length ts = length lines /\ (forall i t, ts !! i = Some t -> forall x, x ∈ qs -> vright (D (Z.of_nat i)) t x) /\
    query_ended q' (ps_node ps) (attbyval <$> tup) lines D qs wd /\
    ((forall x, x ∈ xs -> rel_name (xi_rel x) <> relation) -> wd = qs).
Proof.
  intros tup k Hplan Hcf Hse Hc Ho Hpt Hmb Hft Hne Hp Hu.
  destruct (command_ready se sf c tup file relation lines tail rows D Hpt Hmb Hft) as [Hk Ht].
  destruct (query_runs CF parse se sf open pipe rd_att st_size dep eval subplans heap fuel plan ps relation file c q k xs m lines tail rows D Hplan Hcf)
    as (q' & ts & qs & wd & E & [Hqs _] & Hl & Hv & He & Hw); try done.
  - apply copy_setup_command; (done || apply Hpt).
  - by exists q', ts, qs, wd.
Qed.

(** After its end a query cannot be started again: the scan node still refers to the
    operator that was destroyed. *)
Lemma rewind_after_end st_size q node byval lines D qs wd ps : query_ended q node byval lines D qs wd -> ps_node ps = node ->
  ExecScanReScan true st_size ps q = Fail Indeterminate.
Proof. intros [_ _ _ _ Ho] <-. unfold ExecScanReScan, live_oper. by rewrite Ho. Qed.

(** ** Witness: [SELECT x.b FROM t AS x] on a file of two lines *)
Definition qr_entry : entry :=
  {| e_num := text_of "1"; e_filename := text_of "file"; e_relation := text_of "t"; e_delimiter := text_of ","; e_header := false |}.
Definition qr_free : InputFile := {| if_filename := []; if_relation := []; if_delimiter := []; if_header := false; if_id := -1 |}.
Definition qr_config : ConfigurationFile :=
  {| files := Some <$> (Config.file_of <$> [qr_entry]) ++ replicate 49 qr_free; how_many := 1; loaded := true |}.
Definition qr_parse : text -> result CopyStmt := fun _ => Ok (command_stmt "file" [cq_comma] false).
Definition qr_plan : Plan := ex_plan T_SeqScan None false None [] 1.
Definition qr_node : PlanState := ex_ps 1 qr_plan (Some "t"%string) None [] None [].
Definition qr_start (d : qd_state) : query_state :=
  {| qs_proc := {| p_desc := d; p_exec := {| ExecInfo := None; xw_next := 1 |}; p_eol := eol_empty; p_next := 1 |};
     qs_world := empty_world; qs_opers := ∅; qs_limits := ∅; qs_sorts := ∅ |}.
(** The tables of PostgreSQL are empty. *)
Definition qr_heap : PlanState -> query_state -> result (query_state * option tuple) := fun _ q => Ok (q, None).
Definition qr_run (numberTuples : Z) q : result (query_state * list tuple * Z) :=
  ExecutePlan2 qr_config true qr_parse cq_session cq_functions (fun _ => Regular (file_bytes ex_text ++ ex_rest)) [] (fun _ => cq_table) (fun _ => 0)
    ex_deparse (fun _ => None) [] (ExecSeqScan true qr_heap 3 qr_node) true None 3 qr_plan qr_node numberTuples q.

Lemma qr_configured : configured qr_config qr_parse "t" "file" cq_comma.
Proof.
  exists [qr_entry], (replicate 49 qr_free), qr_entry. split_and!; try done.
  - by left.
  - split; repeat constructor; try done; cbn; unfold MAX_FILENAME, MAX_RELATION_NAME, DELIMITER_SIZE; cbn; lia.
  - apply NoDup_singleton.
Qed.

Lemma select_query_witness : exists q' ts qs wd,
  qr_run 0 (qr_start ex_qd) = Ok (q', ts, 2) /\ length ts = 2%nat /\
  (forall i t, ts !! i = Some t -> forall x, x ∈ qs -> vright (ex_datum (Z.of_nat i)) t x) /\
  query_ended q' 1 (replicate 4 true) ex_text ex_datum qs wd /\ wd = qs.
Proof.
  destruct (select_query_correct qr_config qr_parse cq_session cq_functions (fun _ => Regular (file_bytes ex_text ++ ex_rest)) [] (fun _ => cq_table)
    (fun _ => 0) ex_deparse (fun _ => None) [] qr_heap 3 qr_plan qr_node "t" "file" cq_comma (qr_start ex_qd) [] ∅ ex_text ex_rest ex_fields ex_datum)
    as (q' & ts & qs & wd & E & _ & Hl & Hv & He & Hw).
  - split; [reflexivity|cbn; lia|reflexivity].
  - apply qr_configured.
  - apply cq_may_copy.
  - split_and!; discriminate.
  - reflexivity.
  - apply cq_plain.
  - intros b. cbn. lia.
  - apply cq_lines.
  - discriminate.
  - apply so_process_ok.
  - apply fq_first.
  - exists q', ts, qs, wd. split; [exact E|]. split; [exact Hl|]. split; [exact Hv|]. split; [exact He|].
    apply Hw. intros x Hx. destruct (not_elem_of_nil x Hx).
Defined.

(** ** Fetching in parts *)

(** The rows that the scan of the node stands behind after each of [n] fetches of one
    tuple, with the number of tuples that each returned. *)
Fixpoint fetches (n : nat) q : result (list (nat * Z)) :=
  match n with
  | O => Ok []
  | S n' =>
      x ← qr_run 1 q;
      so ← live_oper x.1.1 1;
      y ← fetches n' x.1.1;
      Ok ((length x.1.2, processed (cs_scan (so_state so))) :: y)
  end.

(** A query whose tuples are fetched in parts starts from the beginning at every
    part: each call sets the scan up again, and the scan of the part before is never
    ended. From a file of two lines a query returns two tuples at once, but fetching
    one at a time returns the first line every time, without an end. *)
Example fetch_starts_again :
  (x ← qr_run 0 (qr_start qd_start); Ok (length x.1.2, x.2)) = Ok (2%nat, 2) /\
  fetches 4 (qr_start qd_start) = Ok [(1%nat, 1); (1%nat, 1); (1%nat, 1); (1%nat, 1)].
Proof. split; vm_compute; reflexivity. Qed.
